(* ===== verification/_CoqProject ===== *)
-Q . S2P
Prelude.v
GoStrings.v
GoValues.v
Domain.v
Backoff.v
TTLMap.v
ReplayLedger.v
OAuthState.v
Contracts.v
ClaimStore.v
Inbound.v
GoURL.v
GoBase64.v
WebhookTypes.v
WebhookStore.v
Burst.v
Webhooks.v
RateLimit.v
Outbox.v
Grants.v
Permissions.v
Refresh.v
ServiceTypes.v
Connections.v
Credentials.v
Service.v
RefreshRuns.v
GoHTTP.v
Signers.v
Errors.v
ProviderOps.v
RateLimitStores.v
Sync.v
SyncFacts.v
FormData.v
MappingLifecycle.v
MappingCompiler.v
MappingPreview.v
SyncRuns.v
Identity.v
Installations.v
Subscriptions.v
Activity.v
Lifecycle.v
Profiles.v
OAuth2.v
WebhookTemplates.v
Secrets.v
AuthStrategies.v
ServiceAccount.v
Embedded.v
EnterpriseProviders.v
Salesforce.v
Workday.v
Amazon.v
Shopify.v
ProviderLimits.v
OAuthProviders.v
Transport.v
Jobs.v
Commands.v
Extensions.v
Migrations.v
Observability.v
Construction.v
Conformance.v
