(* ===== verification/Prelude.v ===== *)
(** * go-services: a verification development

    go-services connects an application to third-party providers: it runs OAuth flows and other ways to authenticate, keeps
    connections, credentials and grants, calls the providers' interfaces, receives webhooks and other inbound messages, throttles calls,
    synchronises data, and publishes lifecycle events through a transactional outbox.  This library models the program, component by component, and
    proves what happens once, what is retried and how often, who may do what, and what is read back.

    ** Parts of the program and files of the library

    Foundations
    - [Prelude] (this file): the outcome of a fallible call, 64-bit integers ([wrap64]), times and durations in
      nanoseconds, the iteration order of Go maps ([MapRange]), tactics, rewrite databases, shared lemmas.
    - [GoStrings], [GoURL], [GoBase64], [GoHTTP], [GoValues]: what the code uses of [strings], [strconv], [net/url], [encoding/base64], [net/http],
      [fmt] and of dynamic values; the metadata helpers of src/core and the redaction of src/core/redaction.go.
    - [Domain]: src/core/domain.go, the entities and their five status machines.
    - [Contracts], [ServiceTypes]: the structs of src/core/contracts.go that several components exchange, the interfaces of the stores, the authentication strategies as
      the service sees them (src/core/auth_strategy_runtime.go), and the environment of a store call ([CallEnv]).
    - [Errors]: src/core/errors.go, the classification of errors and their envelopes.
    - [Backoff]: the five delay functions (src/core/refresh_runner.go, src/webhooks/processor.go,
      src/ratelimit/policy.go, src/core/provider_operation_runtime.go, src/core/outbox_dispatcher.go).
    - [TTLMap]: bounded maps with expiry, shared by the next two.

    Inbound
    - [ReplayLedger], [OAuthState]: src/core/replay_ledger.go, src/core/oauth_state.go and the callback checks of src/core/service.go.
    - [ClaimStore], [Inbound]: src/inbound/dispatcher.go, the claim store and the dispatcher over it.
    - [WebhookTypes], [WebhookStore], [Burst], [Webhooks]: src/webhooks/processor.go and burst_control.go, and the
      SQL delivery ledger of src/store/sql/webhook_delivery_store.go.
    - [WebhookTemplates]: src/webhooks/templates.go and the webhook.go of the providers.

    The service
    - [Grants], [Permissions]: src/core/grants.go, src/core/permission_evaluator.go, src/core/registry.go,
      src/core/inheritance.go, and the SQL grant store of src/store/sql/event_stores.go.
    - [Refresh]: src/core/refresh_runner.go, src/core/credential_freshness.go and the decision of src/core/service.go
      whether a refreshed credential is saved.
    - [Connections]: the database of the service, with the connection and credential stores
      (src/store/sql/connection_store.go, credential_store.go, domain_adapters.go).
    - [Credentials]: src/core/credential_codec.go and the encryption and decoding of payloads of src/core/service.go.
    - [Service]: the operations of src/core/service.go over those stores: [Connect], [StartReconsent], [CompleteCallback],
      [Refresh], [Revoke], [InvokeCapability], and [EnsureCredentialFresh].
    - [RefreshRuns]: the retry loop of [Refresh] with the operation of [Service] inside.
    - [Construction]: src/core/options.go, src/core/config.go, [NewService] of src/core/service.go and src/store/sql/factory.go.
    - [Commands]: the messages and handlers of src/command and src/query.
    - [Installations], [Subscriptions]: src/core/service_installations.go, service_subscriptions.go and their SQL stores.

    Outbound
    - [Signers]: src/core/signer.go and src/core/sigv4_signer.go.
    - [RateLimit], [RateLimitStores]: src/ratelimit/policy.go with the in-memory, the SQL and the cached state store.
    - [ProviderOps]: src/core/provider_operation_runtime.go and capability_operation_runtime.go.
    - [Transport]: src/transport, the adapters and their registry.
    - [Secrets]: src/security, envelopes, the application key, key services and failover.
    - [AuthStrategies], [ServiceAccount]: src/auth.
    - [OAuth2], [OAuthProviders], [Shopify], [Embedded], [Amazon], [EnterpriseProviders], [Salesforce], [Workday], [ProviderLimits]: src/providers.
    - [Profiles]: src/identity/resolver.go.

    Events and data
    - [Outbox]: src/store/sql/outbox_store.go and src/core/outbox_dispatcher.go.
    - [Lifecycle], [Activity]: src/core/lifecycle_hooks.go, lifecycle_projectors.go, activity_controls.go and the SQL stores of notifications and activity.
    - [Observability]: src/core/observability.go and the service events of src/store/sql/event_stores.go.
    - [Sync], [SyncFacts]: sync jobs and cursors (src/store/sql/sync_job_store.go, sync_cursor_store.go, src/core/service_sync_jobs.go,
      service_sync_cursor.go, src/sync/orchestrator.go).
    - [SyncRuns], [Identity]: planning, execution and conflicts of sync runs (src/core/sync_planner_service.go, sync_execution_service.go,
      sync_conflict_service.go), and src/core/identity_binding_reconciler.go.
    - [FormData], [MappingLifecycle], [MappingCompiler], [MappingPreview]: src/core/formdata_contracts.go and the mapping_*.go of src/core.

    Surroundings
    - [Jobs]: src/adapters/gojob/adapter.go.  [Extensions]: src/extension_hooks.go.  [Migrations]: src/migrations.
    - [Conformance]: src/providers/devkit/conformance.go, run on the stores and the signer of the repository.

    A struct is a record with the fields of the source, an operation is a function with the name of the source (a
    method carries its component: [Replay_Claim], [Outbox_Ack], [Delivery_Fail]) that returns an outcome and the
    state it leaves.  Interfaces are type classes: the stores ([OAuthStateStore], [IdempotencyClaimStore], [DeliveryLedger],
    [BurstController], [StateStore], [GrantStore], [ConnectionStore], [CredentialStore], [SubscriptionStore], [SyncCursorStore] and the like), against which
    the services are written and of which the SQL and memory stores are instances; the callers of the service ([MutatingService], [QueryReaders]); and libraries that are not
    part of the repository ([GoErrors], [JobQueue]).  What a client relies on of a store is a class of laws ([StateStoreLaws], [MappingSpecStoreLaws], [ChangeLogLaws],
    [CheckpointLaws], [ConflictLaws], [IdentityLaws], [DispatchLedgerLaws]), with an instance that satisfies them.  The operations of the service are programs of a state and error
    monad ([svc]) over the database, the OAuth state store and the locks.

    ** What the theorems show

    - Exclusion and idempotency: a claimed key, delivery, event or connection is not handed out to a second worker
      before its lease ends or it is settled, whatever happens in between ([claim_exclusive],
      [delivery_exclusive], [outbox_exclusive], [refresh_lock_exclusive]); work that was done is not done again
      ([dispatch_once], [process_once], [completed_claim_dedups], [delivery_terminal], [sync_run_exactly_once], [sync_job_idempotent],
      [callback_state_single_use], [session_token_once], [notification_sent_once]); a worker that lost its claim cannot settle its successor's
      ([stale_claim_fenced], [delivery_fencing]); the stores pass the conformance checks of the kit ([memory_claims_conform], [sql_ledger_conforms]).
    - The service: a callback completes a pending authorization once, and leaves an active connection of the
      provider, scope and account with the credential it returned ([callback_completes_once]); a refresh replaces the
      credential, re-activates the connection or sends it to re-consent exactly when a required grant is missing, and releases
      its lock ([refresh_effects]), and so does a run of retries, which gives up after a bounded number of them ([service_refresh_run]); a revoked connection cannot be refreshed or used ([revoke_cuts_off]); credential
      versions rotate without gaps and with one active version ([credential_rotation]); a service is built with every part it needs ([service_has_its_parts],
      [factory_builds_all]); a message is refused by its own check exactly if the service would refuse it ([messages_checked_alike]), as a bad input ([refusals_are_bad_input]).
    - Retries: failed work is offered again when it is due and no earlier, and not more often than allowed
      ([dispatch_retries_after_failure], [process_failure_schedule], [delivery_attempts_bounded],
      [outbox_dispatch_cycle], [outbox_attempts_bounded], [operation_attempts], [job_attempts_bounded], [refresh_run_outcome], [service_refresh_run], [backoffs_agree]);
      a throttled bucket is not called ([throttle_enforced], [provider_wait_enforced]).
    - Refinement and equivalence: the replay ledger and the burst controller, which forget entries as they go, answer as if they
      kept the whole history ([replay_ledger_refines], [burst_controller_refines]); the SQL and the cached rate limit stores answer as the one in memory
      ([sql_store_agrees], [cached_store_transparent]); a mapping specification is compiled exactly if it is valid ([mapping_validation_exact]).
    - State machines: [connection_lifecycle], [terminal_statuses_absorbing], [orchestrator_follows_machine], [installation_lifecycle],
      [subscription_renewal], [published_versions_fixed], [settled_conflicts_final], [grant_history_consistent] (concurrent reconciliations).
    - Permissions: [capability_gate], [strict_isolation], [capability_operation_gated], [salesforce_export_guarded], [workday_access_guarded], [default_scopes_suffice].
    - Requests: what is signed is what is sent, and verifies ([sigv4_header_verifies], [signed_request_sent], [amazon_signs_by_host], [sigv4_signer_conforms]); a webhook is accepted exactly
      if it is signed ([webhook_signature_exact]); answers are bounded and errors classified ([rest_body_bounded], [rest_errors_classified], [error_envelope]).
    - Round trips: [credential_payload_roundtrip], [appkey_roundtrip], [key_rotation_roundtrip], [failover_roundtrip], [authorization_request_roundtrip],
      [delivery_claim_id_roundtrip], [outbox_roundtrip], [job_message_survives].
    - Data: [RedactSensitiveMap_exact], [operations_told_safely], [transform_type_sound], [mapping_specs_well_formed], [identity_bound_once], [account_identity_kept],
      [client_tokens_fresh], [packs_in_any_order], [migrations_registered], [schema_verified].

    Behaviour that looks unintended is stated as the code has it, mostly as evaluations of a concrete run:
    in the inbound part [missing_handler_swallows_redelivery], [burst_suppression_closes], [burst_loses_retry], [claim_id_race], [far_future_trigger_accepted],
    [channels_share_numbers], [replayed_after_five_minutes], [failed_exchange_burns_token];
    in the service [stale_unlock_breaks_exclusion], [rotated_refresh_token_not_saved], [refresh_without_grant_store], [scope_case_hides_connection], [failed_attempt_leaves_version],
    [update_race_reopens], [blank_status_activates], [renewal_forks], [cancelled_revives], [unbuilt_stores_taken], [failed_build_forgotten];
    outbound [retry_after_overflow], [limit_header_alone_throttles], [bar_merges_buckets], [cache_confuses_buckets], [idempotency_key_order], [long_waits_are_skipped],
    [repeated_query_lost], [default_header_race], [largest_limit_loses_body], [missing_adapter_code], [wrong_key_reported], [secret_not_checked], [refresh_lacks_secret],
    [unsigned_lost_on_refresh], [pat_header_ignored], [long_lifetimes_wrap], [export_queries_nil], [missing_envelope_sends_nil], [operations_carry_placeholder_token],
    [capability_case_matters], [shop_port_refused], [account_ids_collide];
    in events and data [queued_entries_lost], [failed_notification_never_resent], [redelivery_stuck], [cursor_case_ignored], [advance_race], [late_checkpoint_reopens],
    [publication_event_lost], [preview_changes_sample], [case_ids_collide], [separator_ids_collide], [unresolved_is_sticky];
    around them [plain_nack_never_ends], [padded_disposition_never_ends], [applied_in_part], [flat_tree_refused], [far_future_signature_accepted].

    ** Modelling decisions

    - Concurrency.  An in-memory store holds its mutex during a call, so a call is one step and an execution is a
      sequence of calls.  An SQL statement (or a transaction) is one step of a table; an operation that issues
      several of them takes the statements of other workers in between, or its theorems quantify over
      arbitrary sequences of statements.  The unique keys of the schema are the keys of the tables.  The buffered activity sink is a step machine of callers and worker.
    - Environment.  Clock readings, uuids, random bytes, database faults, verifiers, handlers, providers, HTTP clients and what they answer, the texts of errors,
      [encoding/json], URL parsing, hashes, ciphers and signatures, [time.Parse], [Time.Format], the parsing of floats, and what a JSON column reads back are arguments.  What a theorem relies on of them is
      a hypothesis (that decryption inverts encryption, that a printed URL is parsed back, that a queue hands a job out again only if it was asked to), and a witness gives an instance.
      The order in which a Go map is iterated over is an instance of [MapRange], in which the theorems are general; a [LIMIT] among rows of equal age is an instance of
      [SqlOrder].
    - Numbers.  [int] and [time.Duration] are 64 bits wide and wrap where the code multiplies or doubles them; times are unbounded, and
      subtraction of times saturates as in Go.  The float arithmetic of the outbox dispatcher and of confidences is rounded to 53
      bits; the result of a conversion out of range is a parameter.
    - Loops.  Loops over a list are structural.  The capacity loops take the size of the map as fuel, the refresh loop the
      number of attempts left, the doubling loops the attempt number, replacement in a string its length: each of them is the loop's own bound, and
      [evict_loop_spec], [refresh_loop_spec] and [doubling_loop_spec] show that it ends there with the result of the source.
    - Strings are byte strings.  Case mapping is the ASCII one; trimming removes all Unicode white space.
    - Receivers are not nil; a nil map is the empty one; maps are copied as values, which is sound as the code copies them
      at the boundaries of the stores.  The mapping preview, whose output shares maps with its sample, runs on a heap.

    ** What is not modelled

    - Model handlers of the generic repositories (src/store/sql/handlers.go): getters and setters of ids for a library.
    - The glue of src/adapters/gocommand and src/adapters/gologger, and the façade (src/services.go, src/facade.go, src/provider_factories.go, src/migrations_fs.go):
      aliases, constructors that pass their arguments on, and calls of other libraries.
    - The fixtures and fakes of src/providers/devkit, the recorder that records nothing (src/core/metrics.go), compile-time assertions
      (src/core/formdata_compile_checks.go), and the SQL of data/sql/migrations, which are not programs of their own.
    - Cancellation of contexts, timeouts of the HTTP clients, and the bodies of the log calls within the operations of [Service] and [ProviderOps]
      ([observeOperation] itself is in [Observability]). *)

From Stdlib Require Import ZArith Ascii String Lia.
From stdpp Require Import base decidable list gmap strings sorting pretty.

(** ** Notation scope, hint databases and tactics of the development *)

Declare Scope go_scope.
Delimit Scope go_scope with go.

Create Rewrite HintDb go_strings.
Create Rewrite HintDb go_maps.

(** The outcome of a fallible Go call that returns a value or an error. *)
Inductive outcome (E A : Type) : Type :=
| Ok (a : A)
| Fail (e : E).
Arguments Ok {E A} a.
Arguments Fail {E A} e.

Definition obind {E A B} (m : outcome E A) (k : A → outcome E B) : outcome E B :=
  match m with Ok a => k a | Fail e => Fail e end.

Notation "'let*' x ':=' c1 'in' c2" := (obind c1 (λ x, c2))
  (at level 10, x pattern, c1 at level 100, c2 at level 200) : go_scope.

(** Case analysis on the conditionals of a translated function body. *)
Ltac go_case :=
  match goal with
  | |- context [ if decide ?P then _ else _ ] => destruct (decide P)
  | |- context [ match ?x with _ => _ end ] => destruct x eqn:?
  end.
Ltac go_case_in H :=
  match type of H with
  | context [ if decide ?P then _ else _ ] => destruct (decide P)
  | context [ match ?x with _ => _ end ] => destruct x eqn:?
  end.
Ltac go_cases := repeat (go_case; simplify_eq/=).
Ltac go_cases_in H := repeat (go_case_in H; simplify_eq/=).

(** ** Machine integers: Go [int]/[int64] with two's complement wrap-around *)

Definition int64_min : Z := - 2 ^ 63.
Definition int64_max : Z := 2 ^ 63 - 1.
Definition wrap64 (z : Z) : Z := (z + 2 ^ 63) `mod` 2 ^ 64 - 2 ^ 63.
Definition in_int64 (z : Z) : Prop := (int64_min ≤ z ≤ int64_max)%Z.
Definition in_int64b (z : Z) : bool := (int64_min <=? z)%Z && (z <=? int64_max)%Z.

Lemma wrap64_id (z : Z) : in_int64 z → wrap64 z = z.
Proof.
  unfold in_int64, wrap64, int64_min, int64_max. intros H.
  rewrite Z.mod_small; lia.
Qed.

Lemma wrap64_range (z : Z) : in_int64 (wrap64 z).
Proof.
  unfold in_int64, wrap64, int64_min, int64_max.
  pose proof (Z.mod_pos_bound (z + 2 ^ 63) (2 ^ 64)). lia.
Qed.

(** ** [time.Time] and [time.Duration]

    A [Time] is the number of nanoseconds since Go's zero time (January 1, year
    1, UTC), so that [time.Time{}] is [0]; a [Duration] is a 64-bit number of
    nanoseconds.  [Sub] saturates as Go's does. *)

Abbreviation Time := Z.
Abbreviation Duration := Z.

Definition zeroTime : Time := 0%Z.
Definition IsZero (t : Time) : bool := (t =? 0)%Z.
Definition Before (t u : Time) : bool := (t <? u)%Z.
Definition After (t u : Time) : bool := (u <? t)%Z.
Definition addTime (t : Time) (d : Duration) : Time := (t + d)%Z.
Definition subTime (t u : Time) : Duration :=
  (if t - u <? int64_min then int64_min
   else if int64_max <? t - u then int64_max else t - u)%Z.

Definition Nanosecond : Duration := 1%Z.
Definition Millisecond : Duration := 1000000%Z.
Definition Second : Duration := 1000000000%Z.
Definition Minute : Duration := 60000000000%Z.

(** Seconds from Go's zero time to the Unix epoch ([time.Unix]). *)
Definition unixEpochSeconds : Z := 62135596800%Z.
Definition timeUnix (sec : Z) : Time := ((sec + unixEpochSeconds) * Second)%Z.

Lemma Before_lt t u : Before t u = true ↔ (t < u)%Z.
Proof. unfold Before. apply Z.ltb_lt. Qed.
Lemma Before_ge t u : Before t u = false ↔ (u ≤ t)%Z.
Proof. unfold Before. apply Z.ltb_ge. Qed.
Lemma After_lt t u : After t u = true ↔ (u < t)%Z.
Proof. unfold After. apply Z.ltb_lt. Qed.
Lemma After_ge t u : After t u = false ↔ (t ≤ u)%Z.
Proof. unfold After. apply Z.ltb_ge. Qed.
Lemma IsZero_true t : IsZero t = true ↔ t = 0%Z.
Proof. unfold IsZero. apply Z.eqb_eq. Qed.
Lemma IsZero_false t : IsZero t = false ↔ t ≠ 0%Z.
Proof. unfold IsZero. apply Z.eqb_neq. Qed.

Lemma subTime_pos t u : (u < t)%Z → (0 < subTime t u)%Z.
Proof.
  unfold subTime, int64_min, int64_max. intros H.
  destruct (Z.ltb_spec (t - u) (- 2 ^ 63)); [lia|].
  destruct (Z.ltb_spec (2 ^ 63 - 1) (t - u)); lia.
Qed.

(** Turning the Boolean comparisons of the code into arithmetic. *)
Ltac go_times :=
  repeat match goal with
  | H : Before _ _ = true |- _ => apply Before_lt in H
  | H : Before _ _ = false |- _ => apply Before_ge in H
  | H : After _ _ = true |- _ => apply After_lt in H
  | H : After _ _ = false |- _ => apply After_ge in H
  | H : IsZero _ = true |- _ => apply IsZero_true in H
  | H : IsZero _ = false |- _ => apply IsZero_false in H
  | H : (_ <? _)%Z = true |- _ => apply Z.ltb_lt in H
  | H : (_ <? _)%Z = false |- _ => apply Z.ltb_ge in H
  | H : (_ <=? _)%Z = true |- _ => apply Z.leb_le in H
  | H : (_ <=? _)%Z = false |- _ => apply Z.leb_gt in H
  | H : (_ =? _)%Z = true |- _ => apply Z.eqb_eq in H
  | H : (_ =? _)%Z = false |- _ => apply Z.eqb_neq in H
  | H : negb _ = true |- _ => apply negb_true_iff in H
  | H : negb _ = false |- _ => apply negb_false_iff in H
  | H : andb _ _ = true |- _ => apply andb_true_iff in H as [? ?]
  | H : orb _ _ = false |- _ => apply orb_false_iff in H as [? ?]
  end.

(** ** Iteration over Go maps

    [range m] visits the entries of a map once each, in an order the runtime
    chooses: the development is parametrised by the order, and its theorems hold
    for each of them. *)

(** [sort.SliceStable]: elements that the order does not tell apart keep their places. *)
Section stable_sort.
Context {A : Type} (less : A → A → bool).
Fixpoint stable_insert (x : A) (l : list A) : list A :=
  match l with
  | [] => [x]
  | y :: l' => if less y x then y :: stable_insert x l' else x :: l
  end.
Definition stable_sort (l : list A) : list A := foldr stable_insert [] l.

Lemma stable_insert_perm x l : stable_insert x l ≡ₚ x :: l.
Proof. induction l as [|y l IH]; simpl; [done|]. destruct (less y x); [|done]. rewrite IH. apply Permutation_swap. Qed.
Lemma stable_sort_perm l : stable_sort l ≡ₚ l.
Proof. induction l as [|x l IH]; simpl; [done|]. by rewrite stable_insert_perm, IH. Qed.
Lemma elem_of_stable_sort x l : x ∈ stable_sort l ↔ x ∈ l.
Proof. by rewrite stable_sort_perm. Qed.

(** The first element comes before all others, for any preorder that the comparison respects on the elements. *)
Lemma stable_sort_head (P : A → Prop) (R : A → A → Prop) l x rest :
  Forall P l → (∀ a b c, P a → P b → P c → R a b → R b c → R a c) → (∀ a, P a → R a a) →
  (∀ a b, P a → P b → less a b = true → R a b) → (∀ a b, P a → P b → less a b = false → R b a) →
  stable_sort l = x :: rest → ∀ y, y ∈ l → R x y.
Proof.
  intros HP Htr Hrefl Hlt Hge. revert x rest. induction l as [|a l IH]; [done|]. apply Forall_cons in HP as [Ha HP]. intros x rest. cbn [stable_sort foldr].
  fold (stable_sort l). destruct (stable_sort l) as [|z tail] eqn:Hl.
  - intros [= <- <-] y [->|Hy]%elem_of_cons; [auto|]. rewrite <-elem_of_stable_sort, Hl in Hy. by apply elem_of_nil in Hy.
  - assert (Hz : P z). { rewrite Forall_forall in HP. apply HP. rewrite <-elem_of_stable_sort, Hl. by left. }
    specialize (IH HP z tail eq_refl). rewrite Forall_forall in HP. cbn [stable_insert].
    destruct (less z a) eqn:Hza; intros [= <- _] y [->|Hy]%elem_of_cons; eauto.
Qed.

(** Sorting forgets the order of the input if the order tells all its elements apart. *)
(** The result is sorted for every transitive relation that the comparison decides. *)
Lemma stable_sort_sorted (R : A → A → Prop) l :
  (∀ x y z, R x y → R y z → R x z) → (∀ x y, less x y = true → R x y) → (∀ x y, less x y = false → R y x) →
  StronglySorted R (stable_sort l).
Proof.
  intros Htr Hlt Hge. induction l as [|x l IH]; [constructor|]. cbn [stable_sort foldr]. fold (stable_sort l).
  induction (stable_sort l) as [|y l' IH']; cbn [stable_insert]; [by repeat constructor|]. apply StronglySorted_inv in IH as [Hs Hf].
  destruct (less y x) eqn:Hyx.
  - constructor; [by apply IH'|]. rewrite stable_insert_perm. constructor; [by apply Hlt|done].
  - constructor; [by constructor|]. constructor; [by apply Hge|]. eapply Forall_impl; [exact Hf|]. intros z Hz. eapply Htr; [by apply Hge|done].
Qed.
Lemma stable_insert_comm x y l :
  less x y = true → less y x = false → (∀ a b c, less a b = true → less b c = true → less a c = true) →
  stable_insert x (stable_insert y l) = stable_insert y (stable_insert x l).
Proof.
  intros Hxy Hyx Htr. induction l as [|z l IH]; simpl; [by rewrite Hxy, Hyx|].
  destruct (less z x) eqn:Hzx; simpl.
  - assert (less z y = true) as Hzy by eauto. rewrite Hzy. simpl. by rewrite Hzx, IH.
  - rewrite Hxy. destruct (less z y) eqn:Hzy; simpl; by rewrite ?Hyx, ?Hzx.
Qed.
Lemma stable_sort_permutation l1 l2 :
  l1 ≡ₚ l2 → (∀ a b c, less a b = true → less b c = true → less a c = true) → (∀ a b, less a b = true → less b a = false) →
  (∀ i j x y, l1 !! i = Some x → l1 !! j = Some y → i ≠ j → less x y = true ∨ less y x = true) →
  stable_sort l1 = stable_sort l2.
Proof.
  intros Hp Htr Has. induction Hp as [|x l1 l2 Hp IH|x y l|l1 l2 l3 Hp1 IH1 Hp2 IH2]; intros Hd; simpl; [done|..].
  - f_equal. apply IH. intros i j a b Hi Hj Hij. apply (Hd (S i) (S j)); auto.
  - destruct (Hd 0 1 y x eq_refl eq_refl ltac:(done)) as [H|H]; [|symmetry]; apply stable_insert_comm; auto.
  - rewrite IH1 by done. apply IH2. intros i j x y Hi Hj Hij.
    apply Permutation_sym in Hp1. destruct (proj1 (Permutation_inj l2 l1) Hp1) as (_ & f & Hf & Hl).
    rewrite Hl in Hi, Hj. by apply (Hd (f i) (f j)); [..|intros ?%Hf].
Qed.
End stable_sort.

Class MapRange : Type := {
  map_range : ∀ {A : Type}, gmap string A → list (string * A);
  map_range_perm : ∀ {A : Type} (m : gmap string A), map_range m ≡ₚ map_to_list m;
}.

Definition key_order_range : MapRange :=
  {| map_range := λ A m, map_to_list m; map_range_perm := λ A m, reflexivity _ |}.

Section map_range_facts.
Context {MR : MapRange} {A : Type}.

Lemma elem_of_map_range (m : gmap string A) k x :
  (k, x) ∈ map_range m ↔ m !! k = Some x.
Proof. by rewrite map_range_perm, elem_of_map_to_list. Qed.

Lemma NoDup_map_range (m : gmap string A) : NoDup (map_range m).*1.
Proof. rewrite map_range_perm. apply NoDup_fst_map_to_list. Qed.

Lemma length_map_range (m : gmap string A) : length (map_range m) = size m.
Proof. rewrite map_range_perm. apply length_map_to_list. Qed.

(** [SELECT ... WHERE P ORDER BY less] over a table keyed by id: rows that the order does not tell apart come in the order of [map_range]. *)
Definition select_rows (less : A → A → bool) (P : A → bool) (m : gmap string A) : list A :=
  stable_sort less (filter P ((map_range m).*2)).
Lemma elem_of_select_rows less P m r : r ∈ select_rows less P m ↔ P r = true ∧ ∃ id, m !! id = Some r.
Proof.
  unfold select_rows. rewrite elem_of_stable_sort, list_elem_of_filter, list_elem_of_fmap, Is_true_true.
  split; (intros [HP H]; split; [done|]).
  - destruct H as ([id r'] & -> & Hr). exists id. by apply elem_of_map_range in Hr.
  - destruct H as [id Hr]. exists (id, r). split; [done|]. by apply elem_of_map_range.
Qed.
Lemma head_select_Some less P m r : head (select_rows less P m) = Some r → P r = true ∧ ∃ id, m !! id = Some r.
Proof. destruct (select_rows less P m) eqn:Hl; [done|]. intros [= ->]. apply (elem_of_select_rows less). rewrite Hl. by left. Qed.
Lemma head_select_None less P m id r : head (select_rows less P m) = None → m !! id = Some r → P r = false.
Proof.
  destruct (select_rows less P m) eqn:Hl; [|done]. intros _ Hr. destruct (P r) eqn:HP; [|done].
  assert (Hin : r ∈ select_rows less P m) by (apply elem_of_select_rows; eauto). rewrite Hl in Hin. by apply elem_of_nil in Hin.
Qed.
End map_range_facts.

#[export] Hint Rewrite @elem_of_map_range : go_maps.

(** The loop [for key, x := range m { if drop x { delete(m, key) } }]. *)
Definition delete_where {A} (drop : A → bool) (m : gmap string A) : gmap string A :=
  filter (λ kx, drop kx.2 = false) m.

Lemma delete_where_lookup {A} (drop : A → bool) (m : gmap string A) k x :
  delete_where drop m !! k = Some x ↔ m !! k = Some x ∧ drop x = false.
Proof. unfold delete_where. by rewrite map_lookup_filter_Some. Qed.

Lemma delete_where_None {A} (drop : A → bool) (m : gmap string A) k :
  delete_where drop m !! k = None ↔
  m !! k = None ∨ ∃ x, m !! k = Some x ∧ drop x = true.
Proof.
  unfold delete_where. rewrite map_lookup_filter_None. simpl.
  split; intros [H|H]; auto.
  - destruct (m !! k) as [x|] eqn:E; auto. right. exists x. split; auto.
    specialize (H x eq_refl). by destruct (drop x).
  - right. intros x' Hx'. destruct H as (x & Hx & Hd). simplify_eq. by rewrite Hd.
Qed.

Lemma delete_where_size {A} (drop : A → bool) (m : gmap string A) :
  size (delete_where drop m) ≤ size m.
Proof. apply map_subseteq_size, map_filter_subseteq. Qed.

Lemma delete_where_subseteq {A} (drop : A → bool) (m : gmap string A) :
  delete_where drop m ⊆ m.
Proof. apply map_filter_subseteq. Qed.

(** A loop whose steps commute on distinct elements does not depend on the order it runs in. *)
Lemma foldl_permutation {A B} (f : B → A → B) (l1 l2 : list A) (b : B) :
  NoDup l1 → (∀ x y b, x ∈ l1 → y ∈ l1 → x ≠ y → f (f b x) y = f (f b y) x) → l1 ≡ₚ l2 → foldl f b l1 = foldl f b l2.
Proof.
  intros Hnd Hf Hp. revert b Hnd Hf. induction Hp as [|x l l' Hp IH|x y l|l l' l'' Hp1 IH1 Hp2 IH2]; intros b Hnd Hf; simpl; [done| | |].
  - apply NoDup_cons in Hnd as [_ Hnd]. apply IH; [done|]. intros; apply Hf; auto using list_elem_of_further.
  - apply NoDup_cons in Hnd as [Hx _]. f_equal. apply Hf; [left|right; left|]; auto.
    intros ->. apply Hx. left.
  - rewrite IH1; auto. apply IH2; [by rewrite <-Hp1|]. intros x y b' Hx Hy. apply Hf; by rewrite Hp1.
Qed.

(** Steps that leave the state alone can be left out of a loop. *)
Lemma foldl_filter {A B} (f : B → A → B) (P : A → Prop) `{∀ x, Decision (P x)} (l : list A) (b : B) :
  (∀ b x, ¬ P x → f b x = b) → foldl f b l = foldl f b (filter P l).
Proof.
  intros Hf. revert b. induction l as [|x l IH]; intros b; simpl; [done|].
  destruct (decide (P x)) as [HP|HP]; [rewrite filter_cons_True by done|rewrite filter_cons_False, Hf by done]; apply IH.
Qed.
