(* ===== verification/GoStrings.v ===== *)
(** * Go strings

    A Go string is a sequence of bytes.  [TrimSpace] is modelled on every byte
    string (it removes the UTF-8 encodings of all Unicode white space);
    [ToLower], [ToUpper] and [EqualFold] are the ASCII case mappings, which is what
    they are on the identifiers, header names and status words of this code base. *)

From S2P Require Import Prelude.
From Stdlib Require Import ZArith Ascii String Lia.
From stdpp Require Import base decidable list gmap strings sorting pretty.

Local Open Scope string_scope.

(** ** Definitions *)

Definition byte_of (c : ascii) : N := N_of_ascii c.

(** ASCII white space: tab, newline, vertical tab, form feed, return, space. *)
Definition ws1 (c : ascii) : bool :=
  let n := byte_of c in ((9 <=? n) && (n <=? 13))%N || (n =? 32)%N.
(** U+0085 and U+00A0. *)
Definition ws2 (a b : ascii) : bool :=
  (byte_of a =? 0xC2)%N && ((byte_of b =? 0x85)%N || (byte_of b =? 0xA0)%N).
(** U+1680, U+2000..U+200A, U+2028, U+2029, U+202F, U+205F, U+3000. *)
Definition ws3 (a b c : ascii) : bool :=
  let x := byte_of a in let y := byte_of b in let z := byte_of c in
  ((x =? 0xE1) && (y =? 0x9A) && (z =? 0x80))%N
  || ((x =? 0xE2) && (y =? 0x80) && (((0x80 <=? z) && (z <=? 0x8A)) || (z =? 0xA8) || (z =? 0xA9) || (z =? 0xAF)))%N
  || ((x =? 0xE2) && (y =? 0x81) && (z =? 0x9F))%N
  || ((x =? 0xE3) && (y =? 0x80) && (z =? 0x80))%N.

(** Remove white-space runes from the front, for a given reading direction. *)
Fixpoint trim_runes (w2 : ascii → ascii → bool) (w3 : ascii → ascii → ascii → bool)
    (l : list ascii) : list ascii :=
  match l with
  | [] => []
  | a :: l1 =>
    if ws1 a then trim_runes w2 w3 l1
    else match l1 with
         | [] => l
         | b :: l2 =>
           if w2 a b then trim_runes w2 w3 l2
           else match l2 with
                | [] => l
                | c :: l3 => if w3 a b c then trim_runes w2 w3 l3 else l
                end
         end
  end.

Definition trim_left : list ascii → list ascii := trim_runes ws2 ws3.
Definition trim_right (l : list ascii) : list ascii :=
  reverse (trim_runes (λ a b, ws2 b a) (λ a b c, ws3 c b a) (reverse l)).

(** [strings.TrimSpace] *)
Definition TrimSpace (s : string) : string :=
  string_of_list_ascii (trim_right (trim_left (list_ascii_of_string s))).

Definition lower_ascii (c : ascii) : ascii :=
  let n := byte_of c in if ((65 <=? n) && (n <=? 90))%N then ascii_of_N (n + 32) else c.
Definition upper_ascii (c : ascii) : ascii :=
  let n := byte_of c in if ((97 <=? n) && (n <=? 122))%N then ascii_of_N (n - 32) else c.

Definition map_string (f : ascii → ascii) (s : string) : string :=
  string_of_list_ascii (map f (list_ascii_of_string s)).

(** [strings.ToLower], [strings.ToUpper], [strings.EqualFold] *)
Definition ToLower : string → string := map_string lower_ascii.
Definition ToUpper : string → string := map_string upper_ascii.
Definition EqualFold (s t : string) : bool := String.eqb (ToLower s) (ToLower t).

(** [strings.HasPrefix], [strings.Contains] *)
Fixpoint HasPrefix (s p : string) : bool :=
  match p, s with
  | EmptyString, _ => true
  | String a p', String b s' => Ascii.eqb a b && HasPrefix s' p'
  | _, _ => false
  end.
Fixpoint Contains (s sub : string) : bool :=
  HasPrefix s sub ||
  match s with
  | EmptyString => false
  | String _ s' => Contains s' sub
  end.

(** [strings.HasSuffix], [strings.TrimSuffix] *)
Definition HasSuffix (s p : string) : bool :=
  (String.length p <=? String.length s)%nat && String.eqb (String.substring (String.length s - String.length p) (String.length p) s) p.
Definition TrimSuffix (s p : string) : string := if HasSuffix s p then String.substring 0 (String.length s - String.length p) s else s.

(** The test [strings.TrimSpace(s) == ""] of the validation code. *)
Definition blank (s : string) : bool := String.eqb (TrimSpace s) "".

(** The idiom [strings.TrimSpace(strings.ToLower(s))]. *)
Definition lowerTrim (s : string) : string := TrimSpace (ToLower s).

(** [strconv.Itoa] *)
Definition Itoa (z : Z) : string := pretty z.

Definition digit_value (c : ascii) : option Z :=
  let n := byte_of c in
  if ((48 <=? n) && (n <=? 57))%N then Some (Z.of_N n - 48)%Z else None.
Fixpoint digits_value (acc : Z) (s : string) : option Z :=
  match s with
  | EmptyString => Some acc
  | String c s' => d ← digit_value c; digits_value (acc * 10 + d)%Z s'
  end.
(** [strconv.ParseInt(s, 10, 64)], and [strconv.Atoi] on a 64-bit platform:
    [None] is a syntax or a range error. *)
Definition ParseInt10 (s : string) : option Z :=
  let unsigned t := if String.eqb t "" then None else digits_value 0 t in
  z ← match s with
      | String c s' =>
        if Ascii.eqb c "-"%char then v ← unsigned s'; Some (- v)%Z
        else if Ascii.eqb c "+"%char then unsigned s'
        else unsigned s
      | EmptyString => None
      end;
  if in_int64b z then Some z else None.
Definition Atoi : string → option Z := ParseInt10.

(** [sort.Strings] *)
Definition sortStrings (l : list string) : list string := merge_sort String.le l.

(** ** White space trimming *)

Section trim_facts.
Context (w2 : ascii → ascii → bool) (w3 : ascii → ascii → ascii → bool).

(** The text starts with no white-space rune. *)
Definition starts_clean (l : list ascii) : Prop :=
  match l with
  | [] => True
  | a :: l1 => ws1 a = false ∧
    match l1 with
    | [] => True
    | b :: l2 => w2 a b = false ∧
      match l2 with [] => True | c :: _ => w3 a b c = false end
    end
  end.

Lemma trim_runes_clean_id l : starts_clean l → trim_runes w2 w3 l = l.
Proof.
  destruct l as [|a [|b [|c l]]]; simpl; try done.
  - by intros [-> _].
  - by intros [-> [-> _]].
  - by intros [-> [-> ->]].
Qed.

Lemma trim_runes_clean n l : (length l ≤ n)%nat → starts_clean (trim_runes w2 w3 l).
Proof.
  revert l. induction n as [|n IH]; intros [|a l1] Hn; simpl in *; try done; try lia.
  destruct (ws1 a) eqn:E1; [apply IH; lia|].
  destruct l1 as [|b l2]; [by simpl; rewrite E1|].
  destruct (w2 a b) eqn:E2; [apply IH; simpl in *; lia|].
  destruct l2 as [|c l3]; [by simpl; rewrite E1, E2|].
  destruct (w3 a b c) eqn:E3; [apply IH; simpl in *; lia|].
  simpl. by rewrite E1, E2, E3.
Qed.

Lemma trim_runes_suffix n l : (length l ≤ n)%nat → trim_runes w2 w3 l `suffix_of` l.
Proof.
  revert l. induction n as [|n IH]; intros [|a l1] Hn; simpl in *; try done; try lia.
  destruct (ws1 a); [apply suffix_cons_r, IH; lia|].
  destruct l1 as [|b l2]; [done|].
  destruct (w2 a b); [do 2 apply suffix_cons_r; apply IH; simpl in *; lia|].
  destruct l2 as [|c l3]; [done|].
  destruct (w3 a b c); [do 3 apply suffix_cons_r; apply IH; simpl in *; lia|done].
Qed.

Lemma starts_clean_prefix l l' : l' `prefix_of` l → starts_clean l → starts_clean l'.
Proof.
  intros [k ->]. destruct l' as [|a [|b [|c l']]]; simpl; try done; intuition.
Qed.
End trim_facts.

Lemma trim_left_right_clean l : starts_clean ws2 ws3 (trim_right (trim_left l)).
Proof.
  apply (starts_clean_prefix _ _ (trim_left l)); [|by eapply trim_runes_clean].
  unfold trim_right. rewrite <-(reverse_involutive (trim_left l)) at 2.
  apply suffix_prefix_reverse. by eapply trim_runes_suffix.
Qed.

Lemma trim_right_idem l : trim_right (trim_right l) = trim_right l.
Proof.
  unfold trim_right. rewrite reverse_involutive. f_equal.
  apply trim_runes_clean_id. by eapply trim_runes_clean.
Qed.

Lemma TrimSpace_idem s : TrimSpace (TrimSpace s) = TrimSpace s.
Proof.
  unfold TrimSpace. rewrite list_ascii_of_string_of_list_ascii. f_equal.
  unfold trim_left at 1. rewrite trim_runes_clean_id; [apply trim_right_idem|].
  apply trim_left_right_clean.
Qed.

Lemma blank_TrimSpace s : blank (TrimSpace s) = blank s.
Proof. unfold blank. by rewrite TrimSpace_idem. Qed.

Lemma blank_false s : blank s = false ↔ TrimSpace s ≠ "".
Proof. unfold blank. apply String.eqb_neq. Qed.
Lemma blank_true s : blank s = true ↔ TrimSpace s = "".
Proof. unfold blank. apply String.eqb_eq. Qed.

(** ** Case mapping *)

Lemma forall_ascii (P : ascii → bool) :
  forallb (λ n, P (ascii_of_N (N.of_nat n))) (seq 0 256) = true → ∀ c, P c = true.
Proof.
  intros H c. rewrite forallb_forall in H.
  rewrite <-(ascii_N_embedding c), <-(N2Nat.id (N_of_ascii c)).
  apply H, in_seq. pose proof (N_ascii_bounded c). lia.
Qed.

Lemma lower_ascii_idem c : lower_ascii (lower_ascii c) = lower_ascii c.
Proof.
  apply Ascii.eqb_eq.
  by apply (forall_ascii (λ c, Ascii.eqb (lower_ascii (lower_ascii c)) (lower_ascii c))).
Qed.
Lemma ws1_lower c : ws1 (lower_ascii c) = ws1 c.
Proof.
  apply eqb_true_iff. by apply (forall_ascii (λ c, Bool.eqb (ws1 (lower_ascii c)) (ws1 c))).
Qed.

(** A byte that occurs in a multi-byte white-space rune is not an ASCII letter, and
    lower-casing does not produce one. *)
Lemma byte_lower_eqb c n :
  (128 <=? n)%N = true → (byte_of (lower_ascii c) =? n)%N = (byte_of c =? n)%N.
Proof.
  intros Hn%N.leb_le. unfold lower_ascii.
  destruct ((65 <=? byte_of c) && (byte_of c <=? 90))%N eqn:E; [|done].
  apply andb_true_iff in E as [E1%N.leb_le E2%N.leb_le].
  unfold byte_of in *. rewrite N_ascii_embedding by lia.
  destruct (N.eqb_spec (N_of_ascii c + 32) n), (N.eqb_spec (N_of_ascii c) n); lia || done.
Qed.
Lemma byte_lower_range c lo hi :
  (128 <=? lo)%N = true →
  ((lo <=? byte_of (lower_ascii c)) && (byte_of (lower_ascii c) <=? hi))%N =
  ((lo <=? byte_of c) && (byte_of c <=? hi))%N.
Proof.
  intros Hn%N.leb_le. unfold lower_ascii.
  destruct ((65 <=? byte_of c) && (byte_of c <=? 90))%N eqn:E; [|done].
  apply andb_true_iff in E as [E1%N.leb_le E2%N.leb_le].
  unfold byte_of in *. rewrite N_ascii_embedding by lia.
  destruct (N.leb_spec lo (N_of_ascii c + 32)), (N.leb_spec lo (N_of_ascii c)); lia || done.
Qed.

Lemma ws2_lower a b : ws2 (lower_ascii a) (lower_ascii b) = ws2 a b.
Proof. unfold ws2. by rewrite !byte_lower_eqb. Qed.
Lemma ws3_lower a b c : ws3 (lower_ascii a) (lower_ascii b) (lower_ascii c) = ws3 a b c.
Proof. unfold ws3. cbv zeta. by rewrite !byte_lower_eqb, !byte_lower_range. Qed.

(** The same of upper-casing. *)
Lemma upper_ascii_idem c : upper_ascii (upper_ascii c) = upper_ascii c.
Proof.
  apply Ascii.eqb_eq.
  by apply (forall_ascii (λ c, Ascii.eqb (upper_ascii (upper_ascii c)) (upper_ascii c))).
Qed.
Lemma ws1_upper c : ws1 (upper_ascii c) = ws1 c.
Proof.
  apply eqb_true_iff. by apply (forall_ascii (λ c, Bool.eqb (ws1 (upper_ascii c)) (ws1 c))).
Qed.
Lemma byte_upper c : byte_of (upper_ascii c) = byte_of c ∨ (byte_of (upper_ascii c) < 128 ∧ byte_of c < 128)%N.
Proof.
  unfold upper_ascii. destruct ((97 <=? byte_of c) && (byte_of c <=? 122))%N eqn:E; [|by left].
  apply andb_true_iff in E as [E1%N.leb_le E2%N.leb_le]. right. unfold byte_of in *. rewrite N_ascii_embedding by lia. lia.
Qed.
Lemma byte_upper_eqb c n : (128 <=? n)%N = true → (byte_of (upper_ascii c) =? n)%N = (byte_of c =? n)%N.
Proof.
  intros Hn%N.leb_le. destruct (byte_upper c) as [->|[H1 H2]]; [done|].
  destruct (N.eqb_spec (byte_of (upper_ascii c)) n), (N.eqb_spec (byte_of c) n); lia || done.
Qed.
Lemma byte_upper_range c lo hi :
  (128 <=? lo)%N = true →
  ((lo <=? byte_of (upper_ascii c)) && (byte_of (upper_ascii c) <=? hi))%N =
  ((lo <=? byte_of c) && (byte_of c <=? hi))%N.
Proof.
  intros Hn%N.leb_le. destruct (byte_upper c) as [->|[H1 H2]]; [done|].
  destruct (N.leb_spec lo (byte_of (upper_ascii c))), (N.leb_spec lo (byte_of c)); lia || done.
Qed.
Lemma ws2_upper a b : ws2 (upper_ascii a) (upper_ascii b) = ws2 a b.
Proof. unfold ws2. by rewrite !byte_upper_eqb. Qed.
Lemma ws3_upper a b c : ws3 (upper_ascii a) (upper_ascii b) (upper_ascii c) = ws3 a b c.
Proof. unfold ws3. cbv zeta. by rewrite !byte_upper_eqb, !byte_upper_range. Qed.

Lemma trim_runes_map (w2 : ascii → ascii → bool) w3 (f : ascii → ascii) n l :
  (∀ a, ws1 (f a) = ws1 a) → (∀ a b, w2 (f a) (f b) = w2 a b) →
  (∀ a b c, w3 (f a) (f b) (f c) = w3 a b c) → (length l ≤ n)%nat →
  trim_runes w2 w3 (map f l) = map f (trim_runes w2 w3 l).
Proof.
  intros H1 H2 H3. revert l. induction n as [|n IH]; intros [|a l1] Hn; simpl in *; try done; try lia.
  rewrite H1. destruct (ws1 a); [apply IH; lia|].
  destruct l1 as [|b l2]; [done|]. simpl. rewrite H2.
  destruct (w2 a b); [apply IH; simpl in *; lia|].
  destruct l2 as [|c l3]; [done|]. simpl. rewrite H3.
  destruct (w3 a b c); [apply IH; simpl in *; lia|done].
Qed.

Lemma map_string_idem f s : (∀ c, f (f c) = f c) → map_string f (map_string f s) = map_string f s.
Proof.
  intros Hf. unfold map_string. rewrite list_ascii_of_string_of_list_ascii, map_map. f_equal.
  apply map_ext, Hf.
Qed.

Lemma ToLower_idem s : ToLower (ToLower s) = ToLower s.
Proof. apply map_string_idem, lower_ascii_idem. Qed.

Lemma map_TrimSpace f s : (∀ a, ws1 (f a) = ws1 a) → (∀ a b, ws2 (f a) (f b) = ws2 a b) → (∀ a b c, ws3 (f a) (f b) (f c) = ws3 a b c) →
  map_string f (TrimSpace s) = TrimSpace (map_string f s).
Proof.
  intros H1 H2 H3. unfold map_string, TrimSpace. rewrite !list_ascii_of_string_of_list_ascii.
  f_equal. unfold trim_left, trim_right.
  rewrite (trim_runes_map ws2 ws3 f (length (list_ascii_of_string s))) by auto.
  assert (Hrev : ∀ l, reverse (map f l) = map f (reverse l))
    by (intros k; symmetry; apply fmap_reverse).
  rewrite Hrev.
  rewrite (trim_runes_map (λ a b, ws2 b a) (λ a b c, ws3 c b a) f
    (length (reverse (trim_runes ws2 ws3 (list_ascii_of_string s))))) by auto. done.
Qed.
Lemma ToLower_TrimSpace s : ToLower (TrimSpace s) = TrimSpace (ToLower s).
Proof. apply map_TrimSpace; auto using ws1_lower, ws2_lower, ws3_lower. Qed.
Lemma ToUpper_TrimSpace s : ToUpper (TrimSpace s) = TrimSpace (ToUpper s).
Proof. apply map_TrimSpace; auto using ws1_upper, ws2_upper, ws3_upper. Qed.
Lemma ToUpper_idem s : ToUpper (ToUpper s) = ToUpper s.
Proof. apply map_string_idem, upper_ascii_idem. Qed.

Lemma lowerTrim_idem s : lowerTrim (lowerTrim s) = lowerTrim s.
Proof. unfold lowerTrim. by rewrite ToLower_TrimSpace, ToLower_idem, TrimSpace_idem. Qed.
Lemma TrimSpace_lowerTrim s : TrimSpace (lowerTrim s) = lowerTrim s.
Proof. apply TrimSpace_idem. Qed.
Lemma ToLower_lowerTrim s : ToLower (lowerTrim s) = lowerTrim s.
Proof. unfold lowerTrim. by rewrite ToLower_TrimSpace, ToLower_idem. Qed.

Lemma EqualFold_eq s t : EqualFold s t = true ↔ ToLower s = ToLower t.
Proof. unfold EqualFold. apply String.eqb_eq. Qed.
Lemma EqualFold_refl s : EqualFold s s = true.
Proof. by apply EqualFold_eq. Qed.

(** ** Substrings *)

Lemma HasPrefix_app s t p : HasPrefix s p = true → HasPrefix (s +:+ t) p = true.
Proof.
  revert p. induction s as [|c s IH]; intros [|d p]; simpl; [by destruct t|done|done|]. rewrite !andb_true_iff. naive_solver.
Qed.
Lemma Contains_app_l s t sub : Contains s sub = true → Contains (s +:+ t) sub = true.
Proof.
  induction s as [|c s IH]; simpl.
  - rewrite orb_false_r. intros H. destruct t; simpl; rewrite ?orb_true_iff; destruct sub; naive_solver.
  - rewrite !orb_true_iff. intros [H|H]; [left|auto]. exact (HasPrefix_app (String c s) t sub H).
Qed.
Lemma Contains_app_r s t sub : Contains t sub = true → Contains (s +:+ t) sub = true.
Proof. intros H. induction s as [|c s IH]; simpl; [done|]. by rewrite IH, orb_true_r. Qed.
Lemma list_ascii_app s t : list_ascii_of_string (s +:+ t) = (list_ascii_of_string s ++ list_ascii_of_string t)%list.
Proof. induction s as [|c s IH]; [done|]. simpl. by f_equal. Qed.

Lemma map_string_app f s t : map_string f (s +:+ t) = map_string f s +:+ map_string f t.
Proof. induction s as [|c s IH]; [done|]. unfold map_string in *. simpl. by rewrite IH. Qed.

(** ** Sorting and printing *)

Lemma sortStrings_perm l : sortStrings l ≡ₚ l.
Proof. apply merge_sort_Permutation. Qed.
Lemma sortStrings_sorted l : Sorted String.le (sortStrings l).
Proof. apply Sorted_merge_sort, _. Qed.
Lemma elem_of_sortStrings x l : x ∈ sortStrings l ↔ x ∈ l.
Proof. by rewrite sortStrings_perm. Qed.
Lemma sortStrings_unique l1 l2 : l1 ≡ₚ l2 → sortStrings l1 = sortStrings l2.
Proof.
  intros H. apply (Sorted_unique String.le); auto using sortStrings_sorted.
  by rewrite !sortStrings_perm.
Qed.

Lemma Itoa_inj z1 z2 : Itoa z1 = Itoa z2 → z1 = z2.
Proof. apply (inj pretty). Qed.

(** Visible ASCII text is not changed by trimming. *)
Definition visible (c : ascii) : bool := ((33 <=? byte_of c) && (byte_of c <? 127))%N.

Lemma visible_ws1 c : visible c = true → ws1 c = false.
Proof.
  intros H. apply not_true_is_false. intros H'.
  assert (Hall : implb (visible c) (negb (ws1 c)) = true)
    by (by apply (forall_ascii (λ c, implb (visible c) (negb (ws1 c))))).
  by rewrite H, H' in Hall.
Qed.
Lemma visible_byte c n : visible c = true → (127 <=? n)%N = true → (byte_of c =? n)%N = false.
Proof.
  intros [_ H%N.ltb_lt]%andb_true_iff Hn%N.leb_le. apply N.eqb_neq. lia.
Qed.

Lemma visible_ws2 a b : visible a = true → visible b = true → ws2 a b = false.
Proof. intros Ha Hb. unfold ws2. by rewrite (visible_byte a) by done. Qed.
Lemma visible_ws3 a b c : visible a = true → visible b = true → visible c = true → ws3 a b c = false.
Proof. intros Ha Hb Hc. unfold ws3. cbv zeta. by rewrite !(visible_byte a), !(visible_byte b) by done. Qed.

Lemma visible_starts_clean l :
  Forall (λ c, visible c = true) l →
  starts_clean ws2 ws3 l ∧ starts_clean (λ a b, ws2 b a) (λ a b c, ws3 c b a) l.
Proof.
  intros H. destruct l as [|a [|b [|c l]]]; simpl; try done;
    repeat (apply Forall_cons in H as [? H]); split_and!;
    auto using visible_ws1, visible_ws2, visible_ws3.
Qed.

Lemma TrimSpace_visible s :
  Forall (λ c, visible c = true) (list_ascii_of_string s) → TrimSpace s = s.
Proof.
  intros H. unfold TrimSpace, trim_left, trim_right.
  rewrite (trim_runes_clean_id ws2 ws3) by (by apply visible_starts_clean).
  rewrite trim_runes_clean_id.
  - rewrite reverse_involutive. apply string_of_list_ascii_of_string.
  - apply visible_starts_clean. by apply Forall_reverse.
Qed.

Lemma pretty_N_char_visible n : visible (pretty_N_char n) = true.
Proof. unfold pretty_N_char. by repeat case_match. Qed.

Lemma pretty_N_go_visible n s :
  Forall (λ c, visible c = true) (list_ascii_of_string s) →
  Forall (λ c, visible c = true) (list_ascii_of_string (pretty_N_go n s)).
Proof.
  revert s. induction (N.lt_wf_0 n) as [n _ IH]. intros s Hs.
  destruct (decide (n = 0)%N) as [->|Hn]; [by rewrite pretty_N_go_0|].
  rewrite pretty_N_go_step by lia. apply IH.
  - apply N.div_lt; lia.
  - simpl. constructor; [apply pretty_N_char_visible|done].
Qed.

Lemma Itoa_visible z : (0 ≤ z)%Z → Forall (λ c, visible c = true) (list_ascii_of_string (Itoa z)).
Proof.
  intros Hz. unfold Itoa, pretty, pretty_Z. destruct z as [|p|p]; [|..|lia].
  - repeat constructor.
  - unfold pretty, pretty_positive, pretty, pretty_N. case_decide; [repeat constructor|].
    by apply pretty_N_go_visible.
Qed.

#[export] Hint Rewrite TrimSpace_idem blank_TrimSpace ToLower_idem lowerTrim_idem
  TrimSpace_lowerTrim ToLower_lowerTrim EqualFold_refl : go_strings.

Example TrimSpace_ex : TrimSpace "  a b	" = "a b".
Proof. reflexivity. Qed.
Example TrimSpace_nbsp_ex : TrimSpace (String (ascii_of_N 0xC2) (String (ascii_of_N 0xA0) "x")) = "x".
Proof. reflexivity. Qed.
Example ParseInt10_ex : ParseInt10 "-42" = Some (-42)%Z ∧ ParseInt10 "+" = None
  ∧ ParseInt10 "9223372036854775808" = None.
Proof. vm_compute. auto. Qed.

(** ** Comparison of texts byte by byte *)

Lemma string_ltb_iff a b : String.ltb a b = true ↔ String.le a b ∧ a ≠ b.
Proof.
  unfold String.ltb, String.le, String.leb. destruct (String.compare a b) eqn:E; simpl.
  - split; [done|]. intros [_ []]. by apply String.compare_eq_iff.
  - split; [|done]. intros _. split; [done|]. intros ->. pose proof (String.compare_antisym b b) as H. by rewrite E in H.
  - split; [done|by intros []].
Qed.
Lemma string_ltb_trans a b c : String.ltb a b = true → String.ltb b c = true → String.ltb a c = true.
Proof.
  rewrite !string_ltb_iff. intros [H1 Hn1] [H2 Hn2]. split; [by etransitivity|]. intros ->. apply Hn1. by apply (anti_symm String.le).
Qed.
Lemma string_ltb_asym a b : String.ltb a b = true → String.ltb b a = false.
Proof.
  intros H. destruct (String.ltb b a) eqn:H'; [|done]. apply string_ltb_iff in H as [H Hn]. apply string_ltb_iff in H' as [H' _].
  destruct Hn. by apply (anti_symm String.le).
Qed.
Lemma string_ltb_total a b : a ≠ b → String.ltb a b = true ∨ String.ltb b a = true.
Proof. intros Hn. rewrite !string_ltb_iff. destruct (total String.le a b); auto. Qed.
