(* ===== verification/GoValues.v ===== *)
(** * Dynamic values, metadata maps and redaction

    [map[string]any] values as the code passes them around (src/core: request,
    event and credential metadata), the copying and merging helpers, [fmt.Sprint] on
    them, and src/core/redaction.go. *)

From S2P Require Import Prelude GoStrings.
From Stdlib Require Import ZArith Ascii String Lia.
From stdpp Require Import base decidable list gmap strings sorting pretty.

Set Warnings "-register-all".
Local Open Scope string_scope.
Local Open Scope nat_scope.
Local Open Scope list_scope.

(** ** Values of type [any] *)

Inductive intkind :=
| IntK | Int8K | Int16K | Int32K | Int64K | UintK | Uint8K | Uint16K | Uint32K | Uint64K.

(** [VFloat64 m e text] is the finite float [m * 2^e], with the text [fmt.Sprint]
    prints for it; [VOther text] is a value of another dynamic type, known only
    through the text [fmt.Sprint] prints. *)
Inductive value : Type :=
| VNil
| VBool (b : bool)
| VInt (k : intkind) (z : Z)
| VFloat64 (m e : Z) (text : string)
| VString (s : string)
| VStrings (l : list string)
| VList (l : list value)
| VMap (m : gmap string value)
| VOther (text : string).

Definition isNil (v : value) : bool := match v with VNil => true | _ => false end.

(** Reading a missing key of a [map[string]any] gives [nil]. *)
Definition mapGet (m : gmap string value) (k : string) : value := default VNil (m !! k).

Definition joinWith (sep : string) (l : list string) : string := String.concat sep l.

(** [fmt.Sprint] of one operand; map keys are printed in sorted order. *)
Fixpoint Sprint (v : value) : string :=
  match v with
  | VNil => "<nil>"
  | VBool b => if b then "true" else "false"
  | VInt _ z => Itoa z
  | VFloat64 _ _ text => text
  | VString s => s
  | VStrings l => "[" +:+ joinWith " " l +:+ "]"
  | VList l => "[" +:+ joinWith " " (Sprint <$> l) +:+ "]"
  | VMap m =>
    let rendered := Sprint <$> m in
    let keys := sortStrings (map_to_list rendered).*1 in
    "map[" +:+ joinWith " " ((λ k, k +:+ ":" +:+ default "" (rendered !! k)) <$> keys) +:+ "]"
  | VOther text => text
  end.

(** ** Helpers on metadata maps *)

(** src/core/oauth_state.go: a copy of a (shallow) map has the same entries. *)
Definition copyAnyMap (m : gmap string value) : gmap string value := m.

(** [maps.Copy(dst, src)] *)
Definition mapsCopy {A} (dst src : gmap string A) : gmap string A := src ∪ dst.

(** src/core/sync_execution_service.go: the entries of [left] win. *)
Definition mergeMetadata (left right : gmap string value) : gmap string value :=
  mapsCopy (mapsCopy ∅ right) left.

(** src/core/service.go, [readStringMetadata] *)
Fixpoint readStringMetadata (metadata : gmap string value) (keys : list string) : string :=
  match keys with
  | [] => ""
  | key :: rest =>
    match metadata !! key with
    | Some v =>
      if isNil v then readStringMetadata metadata rest
      else let trimmed := TrimSpace (Sprint v) in
           if negb (String.eqb trimmed "") && negb (String.eqb trimmed "<nil>") then trimmed
           else readStringMetadata metadata rest
    | None => readStringMetadata metadata rest
    end
  end.

(** src/core/service.go, [parseBoolOverride] with [strconv.ParseBool]. *)
Definition ParseBool (s : string) : option bool :=
  if bool_decide (s ∈ ["1"; "t"; "T"; "true"; "TRUE"; "True"]) then Some true
  else if bool_decide (s ∈ ["0"; "f"; "F"; "false"; "FALSE"; "False"]) then Some false
  else None.
Definition parseBoolOverride (v : value) : bool * bool :=
  match v with
  | VBool b => (b, true)
  | VString s =>
    match ParseBool (TrimSpace s) with Some b => (b, true) | None => (false, false) end
  | _ => (false, false)
  end.

(** Header maps: the first entry, in iteration order, whose key matches without regard
    to case and surrounding white space. *)
Section headers.
Context {MR : MapRange}.

Definition headerValue (headers : gmap string string) (key : string) : string :=
  match list_find (λ kv, EqualFold (TrimSpace kv.1) (TrimSpace key) = true) (map_range headers) with
  | Some (_, kv) => TrimSpace kv.2
  | None => ""
  end.

Lemma headerValue_trimmed headers key :
  TrimSpace (headerValue headers key) = headerValue headers key.
Proof.
  unfold headerValue. destruct (list_find _ _) as [[? ?]|]; [apply TrimSpace_idem|done].
Qed.

Lemma headerValue_inv headers key v :
  headerValue headers key = v → v ≠ "" →
  ∃ k x, headers !! k = Some x ∧ EqualFold (TrimSpace k) (TrimSpace key) = true ∧ v = TrimSpace x.
Proof.
  unfold headerValue. intros <- Hne.
  destruct (list_find _ _) as [[i [k x]]|] eqn:E; [|done].
  apply list_find_Some in E as (Hin & Heq & _).
  exists k, x. split_and!; auto.
  apply elem_of_map_range. apply list_elem_of_lookup. eauto.
Qed.

(** A header present under one spelling only is found, whatever the iteration order. *)
Lemma headerValue_found headers key k x :
  headers !! k = Some x → EqualFold (TrimSpace k) (TrimSpace key) = true →
  (∀ k', is_Some (headers !! k') → EqualFold (TrimSpace k') (TrimSpace key) = true → k' = k) →
  headerValue headers key = TrimSpace x.
Proof.
  intros Hk Hfold Huniq. unfold headerValue.
  destruct (list_find _ _) as [[i [k' x']]|] eqn:E.
  - apply list_find_Some in E as (Hin & Heq & _). simpl in *.
    assert (Hl : headers !! k' = Some x')
      by (apply elem_of_map_range, list_elem_of_lookup; eauto).
    assert (k' = k) as -> by (apply Huniq; eauto). congruence.
  - apply list_find_None in E. rewrite Forall_forall in E.
    exfalso. apply (E (k, x)); [|done]. by apply elem_of_map_range.
Qed.
End headers.

(** ** Redaction (src/core/redaction.go) *)

Definition RedactedValue : string := "[REDACTED]".

Definition isTraceabilityKey (key : string) : bool :=
  bool_decide (key ∈ ["provider_id"; "scope_type"; "scope_id"; "connection_id";
    "sync_binding_id"; "external_id"; "source_version"; "idempotency_key"; "trace_id";
    "request_id"]).

Definition sensitiveTokens : list string :=
  ["password"; "secret"; "token"; "authorization"; "api_key"; "apikey"; "access_key";
   "refresh"; "credential"; "private_key"; "signing_key"; "signature"].

Definition shouldRedactKey (key : string) : bool :=
  let key := ToLower (TrimSpace key) in
  if String.eqb key "" || isTraceabilityKey key then false
  else existsb (Contains key) sensitiveTokens.

Fixpoint redactSensitiveValue (v : value) : value :=
  match v with
  | VMap m => VMap (map_imap (λ k x, Some (if shouldRedactKey k then VString RedactedValue
                                           else redactSensitiveValue x)) m)
  | VList l => VList (redactSensitiveValue <$> l)
  | _ => v
  end.

Definition redactSensitiveMap (m : gmap string value) : gmap string value :=
  map_imap (λ k x, Some (if shouldRedactKey k then VString RedactedValue
                         else redactSensitiveValue x)) m.

Definition RedactSensitiveMap (m : gmap string value) : gmap string value :=
  if bool_decide (m = ∅) then ∅ else redactSensitiveMap m.

(** [occurs m p v]: [v] is reached in [m] by following the keys [p] through nested maps,
    and any elements of nested slices on the way. *)
Inductive occurs (m : gmap string value) : list string → value → Prop :=
| occurs_key k v : m !! k = Some v → occurs m [k] v
| occurs_map p m' k v : occurs m p (VMap m') → m' !! k = Some v → occurs m (p ++ [k]) v
| occurs_list p l v : occurs m p (VList l) → v ∈ l → occurs m p v.

Definition traced (p : list string) : Prop := Forall (λ k, shouldRedactKey k = false) p.

Lemma redactSensitiveMap_lookup m k :
  redactSensitiveMap m !! k =
  (λ x, if shouldRedactKey k then VString RedactedValue else redactSensitiveValue x) <$> m !! k.
Proof. unfold redactSensitiveMap. rewrite map_lookup_imap. by destruct (m !! k). Qed.

Lemma RedactSensitiveMap_redact m : RedactSensitiveMap m = redactSensitiveMap m.
Proof.
  unfold RedactSensitiveMap. case_bool_decide; [|done]. subst. symmetry.
  apply map_eq. intros k. by rewrite redactSensitiveMap_lookup, !lookup_empty.
Qed.

Lemma redactSensitiveValue_map m v : redactSensitiveValue v = VMap m →
  ∃ m0, v = VMap m0 ∧ m = redactSensitiveMap m0.
Proof. destruct v; simpl; intros; simplify_eq; eauto. Qed.
Lemma redactSensitiveValue_list l v : redactSensitiveValue v = VList l →
  ∃ l0, v = VList l0 ∧ l = redactSensitiveValue <$> l0.
Proof. destruct v; simpl; intros; simplify_eq; eauto. Qed.

Lemma occurs_nonempty m p v : occurs m p v → p ≠ [].
Proof. induction 1 as [|[]|]; done. Qed.

(** What a redacted map holds: at a path with no sensitive key the redaction of what the
    original holds there, at a path that ends in its first sensitive key the marker. *)
Lemma occurs_redact_inv m p v :
  occurs (redactSensitiveMap m) p v →
  (traced p ∧ ∃ v0, occurs m p v0 ∧ v = redactSensitiveValue v0) ∨
  (∃ q k v0, p = q ++ [k] ∧ traced q ∧ shouldRedactKey k = true ∧ occurs m p v0 ∧
             v = VString RedactedValue).
Proof.
  assert (Hk : ∀ q m0 k w, traced q →
      (∀ x, m0 !! k = Some x → occurs m (q ++ [k]) x) →
      redactSensitiveMap m0 !! k = Some w →
      (traced (q ++ [k]) ∧ ∃ v0, occurs m (q ++ [k]) v0 ∧ w = redactSensitiveValue v0) ∨
      (∃ q' k' v0, q ++ [k] = q' ++ [k'] ∧ traced q' ∧ shouldRedactKey k' = true ∧
                   occurs m (q ++ [k]) v0 ∧ w = VString RedactedValue)).
  { intros q m0 k w Hq Hocc Hl. rewrite redactSensitiveMap_lookup in Hl.
    destruct (m0 !! k) as [x|] eqn:Ex; simplify_eq/=.
    destruct (shouldRedactKey k) eqn:Ek.
    - right. exists q, k, x. split_and!; auto.
    - left. split; [|eauto]. apply Forall_app. repeat constructor; auto. }
  induction 1 as [k v Hl|p m' k v _ IH Hl|p l v _ IH Hin].
  - apply (Hk [] m k v); [constructor|by constructor|done].
  - destruct IH as [[Hp (v0 & Hv0 & Hred)]|(q & k' & v0 & -> & _ & _ & _ & ?)]; [|done].
    symmetry in Hred. apply redactSensitiveValue_map in Hred as (m0 & -> & ->).
    apply (Hk p m0 k v); auto. intros x Hx. by eapply occurs_map.
  - destruct IH as [[Hp (v0 & Hv0 & Hred)]|(q & k' & v0 & -> & _ & _ & _ & ?)]; [|done].
    symmetry in Hred. apply redactSensitiveValue_list in Hred as (l0 & -> & ->).
    apply list_elem_of_fmap in Hin as (x & -> & Hx).
    left. split; [done|]. exists x. split; [by eapply occurs_list|done].
Qed.

Lemma occurs_redact_traced m p v :
  occurs m p v → traced p → occurs (redactSensitiveMap m) p (redactSensitiveValue v).
Proof.
  induction 1 as [k v Hl|p m' k v _ IH Hl|p l v _ IH Hin]; intros Ht.
  - apply occurs_key. rewrite redactSensitiveMap_lookup, Hl. simpl.
    inversion_clear Ht as [|?? Hk]. by rewrite Hk.
  - apply Forall_app in Ht as [Hp Hk]. inversion_clear Hk as [|?? Hk'].
    eapply occurs_map; [by apply IH|]. fold (redactSensitiveMap m').
    rewrite redactSensitiveMap_lookup, Hl. simpl. by rewrite Hk'.
  - eapply occurs_list; [by apply IH|]. by apply list_elem_of_fmap_2.
Qed.

Lemma occurs_redact_sensitive m p v :
  occurs m p v → ∀ q k, p = q ++ [k] → traced q → shouldRedactKey k = true →
  occurs (redactSensitiveMap m) p (VString RedactedValue).
Proof.
  induction 1 as [k v Hl|p m' k v Hocc IH Hl|p l v _ IH Hin]; intros q k' Hp Hq Hk; eauto.
  - apply (app_inj_2 [] q [k] [k']) in Hp as [<- ?]; [|done]. simplify_eq.
    apply occurs_key. rewrite redactSensitiveMap_lookup, Hl. simpl. by rewrite Hk.
  - apply app_inj_2 in Hp as [-> ?]; [|done]. simplify_eq.
    eapply occurs_map; [by apply (occurs_redact_traced _ _ _ Hocc)|]. fold (redactSensitiveMap m').
    rewrite redactSensitiveMap_lookup, Hl. simpl. by rewrite Hk.
Qed.

(** Redaction is exact at every depth of nested maps and slices.  What the redacted
    map holds under a path of keys is the redaction of what the original holds there when no key of
    the path is sensitive, the marker when the last key is the first sensitive one, and
    nothing else: no value below a sensitive key survives and no other value is lost. *)
Theorem RedactSensitiveMap_exact m p v :
  occurs (RedactSensitiveMap m) p v ↔
  (traced p ∧ ∃ v0, occurs m p v0 ∧ v = redactSensitiveValue v0) ∨
  (∃ q k v0, p = q ++ [k] ∧ traced q ∧ shouldRedactKey k = true ∧ occurs m p v0 ∧
             v = VString RedactedValue).
Proof.
  rewrite RedactSensitiveMap_redact. split; [apply occurs_redact_inv|].
  intros [(Ht & v0 & Hv0 & ->)|(q & k & v0 & -> & Hq & Hk & Hv0 & ->)].
  - by apply occurs_redact_traced.
  - by eapply occurs_redact_sensitive.
Qed.
