(* ===== verification/Domain.v ===== *)
(** * Domain entities and their status machines (src/core/domain.go)

    Status types are Go string types, so any string can be stored in a status field
    (a row read back from the database); the transition tables are the map
    literals of the source.  [TransitionTo] on a nil receiver is the [None] case. *)

From S2P Require Import Prelude GoStrings GoValues.
From Stdlib Require Import ZArith Ascii String Lia.
From stdpp Require Import base decidable list gmap strings sorting pretty.

Local Open Scope string_scope.
Local Open Scope nat_scope.
Local Open Scope list_scope.

(** ** Errors, scopes *)

Inductive domain_error :=
| ErrInvalidScopeType (detail : string)
| ErrInvalidConnectionStatusTransition (from to : string)
| ErrInvalidCredentialStatusTransition (from to : string)
| ErrInvalidInstallationStatusTransition (from to : string)
| ErrInvalidSubscriptionStatusTransition (from to : string)
| ErrInvalidSyncJobStatusTransition (from to : string).

Definition ScopeTypeUser := "user".
Definition ScopeTypeOrg := "org".

Record ScopeRef := mkScopeRef { scope_Type : string; scope_ID : string }.

#[export] Instance ScopeRef_eq_dec : EqDecision ScopeRef.
Proof. solve_decision. Defined.

Definition ScopeRef_Validate (s : ScopeRef) : outcome domain_error unit :=
  let t := TrimSpace (ToLower (scope_Type s)) in
  if negb (String.eqb t ScopeTypeUser) && negb (String.eqb t ScopeTypeOrg)
  then Fail (ErrInvalidScopeType (scope_Type s))
  else if String.eqb (TrimSpace (scope_ID s)) "" then Fail (ErrInvalidScopeType "empty id")
  else Ok tt.

(** [allowed[current][next]] on a map of maps: absent outer keys give a nil map. *)
Definition transition_table := list (string * list string).
Definition table_allows (allowed : transition_table) (current next : string) : bool :=
  match list_find (λ row, row.1 = current) allowed with
  | Some (_, row) => bool_decide (next ∈ row.2)
  | None => false
  end.

(** ** Connections *)

Definition ConnectionStatusActive := "active".
Definition ConnectionStatusDisconnected := "disconnected".
Definition ConnectionStatusErrored := "errored".
Definition ConnectionStatusPendingReauth := "pending_reauth".
Definition ConnectionStatusNeedsReconsent := "needs_reconsent".

Record Connection := mkConnection {
  conn_ID : string; conn_ProviderID : string; conn_ScopeType : string; conn_ScopeID : string;
  conn_ExternalAccountID : string; conn_Status : string; conn_InheritsFrom : string;
  conn_LastError : string; conn_CreatedAt : Time; conn_UpdatedAt : Time }.

Definition emptyConnection : Connection := mkConnection "" "" "" "" "" "" "" "" zeroTime zeroTime.

(** The fields the operations of the code assign. *)
Definition conn_set (c : Connection) (status lastError : string) (updatedAt : Time) : Connection :=
  mkConnection (conn_ID c) (conn_ProviderID c) (conn_ScopeType c) (conn_ScopeID c)
    (conn_ExternalAccountID c) status (conn_InheritsFrom c) lastError (conn_CreatedAt c) updatedAt.

Definition connectionTransitions : transition_table :=
  [ (ConnectionStatusActive,
       [ConnectionStatusDisconnected; ConnectionStatusErrored; ConnectionStatusPendingReauth;
        ConnectionStatusNeedsReconsent]);
    (ConnectionStatusDisconnected, [ConnectionStatusActive]);
    (ConnectionStatusErrored,
       [ConnectionStatusActive; ConnectionStatusPendingReauth; ConnectionStatusDisconnected]);
    (ConnectionStatusPendingReauth, [ConnectionStatusActive; ConnectionStatusDisconnected]);
    (ConnectionStatusNeedsReconsent,
       [ConnectionStatusActive; ConnectionStatusDisconnected; ConnectionStatusPendingReauth]) ].

Definition connectionTransitionAllowed : string → string → bool :=
  table_allows connectionTransitions.

Definition Connection_TransitionTo (c : option Connection) (status reason : string) (now : Time)
    : outcome domain_error (option Connection) :=
  match c with
  | None => Ok None
  | Some c =>
    if String.eqb (conn_Status c) status then
      let lastError := if negb (String.eqb (TrimSpace reason) "") then TrimSpace reason
                       else conn_LastError c in
      Ok (Some (conn_set c (conn_Status c) lastError now))
    else if negb (connectionTransitionAllowed (conn_Status c) status)
    then Fail (ErrInvalidConnectionStatusTransition (conn_Status c) status)
    else
      let lastError := if negb (String.eqb (TrimSpace reason) "") then TrimSpace reason
                       else conn_LastError c in
      let lastError := if String.eqb status ConnectionStatusActive then "" else lastError in
      Ok (Some (conn_set c status lastError now))
  end.

(** ** Credentials *)

Definition CredentialStatusActive := "active".
Definition CredentialStatusRevoked := "revoked".
Definition CredentialStatusExpired := "expired".

Record Credential := mkCredential {
  cred_ID : string; cred_ConnectionID : string; cred_Version : Z;
  cred_EncryptedPayload : string; cred_PayloadFormat : string; cred_PayloadVersion : Z;
  cred_TokenType : string; cred_RequestedScopes : list string; cred_GrantedScopes : list string;
  cred_ExpiresAt : Time; cred_Refreshable : bool; cred_RotatesAt : Time; cred_Status : string;
  cred_CreatedAt : Time; cred_UpdatedAt : Time }.

Definition cred_set (c : Credential) (status : string) (updatedAt : Time) : Credential :=
  mkCredential (cred_ID c) (cred_ConnectionID c) (cred_Version c) (cred_EncryptedPayload c)
    (cred_PayloadFormat c) (cred_PayloadVersion c) (cred_TokenType c) (cred_RequestedScopes c)
    (cred_GrantedScopes c) (cred_ExpiresAt c) (cred_Refreshable c) (cred_RotatesAt c) status
    (cred_CreatedAt c) updatedAt.

Definition credentialTransitions : transition_table :=
  [ (CredentialStatusActive, [CredentialStatusRevoked; CredentialStatusExpired]);
    (CredentialStatusExpired, [CredentialStatusActive; CredentialStatusRevoked]);
    (CredentialStatusRevoked, []) ].

Definition credentialTransitionAllowed : string → string → bool :=
  table_allows credentialTransitions.

Definition Credential_TransitionTo (c : option Credential) (status : string) (now : Time)
    : outcome domain_error (option Credential) :=
  match c with
  | None => Ok None
  | Some c =>
    if String.eqb (cred_Status c) status then Ok (Some (cred_set c (cred_Status c) now))
    else if negb (credentialTransitionAllowed (cred_Status c) status)
    then Fail (ErrInvalidCredentialStatusTransition (cred_Status c) status)
    else Ok (Some (cred_set c status now))
  end.

(** ** Subscriptions *)

Definition SubscriptionStatusActive := "active".
Definition SubscriptionStatusExpired := "expired".
Definition SubscriptionStatusCancelled := "cancelled".
Definition SubscriptionStatusErrored := "errored".

Record Subscription := mkSubscription {
  sub_ID : string; sub_ConnectionID : string; sub_ProviderID : string; sub_ResourceType : string;
  sub_ResourceID : string; sub_ChannelID : string; sub_RemoteSubscriptionID : string;
  sub_CallbackURL : string; sub_VerificationTokenRef : string; sub_Status : string;
  sub_ExpiresAt : Time; sub_Metadata : gmap string value; sub_CreatedAt : Time;
  sub_UpdatedAt : Time }.

Definition sub_set (s : Subscription) (status : string) (updatedAt : Time) : Subscription :=
  mkSubscription (sub_ID s) (sub_ConnectionID s) (sub_ProviderID s) (sub_ResourceType s)
    (sub_ResourceID s) (sub_ChannelID s) (sub_RemoteSubscriptionID s) (sub_CallbackURL s)
    (sub_VerificationTokenRef s) status (sub_ExpiresAt s) (sub_Metadata s) (sub_CreatedAt s)
    updatedAt.

Definition subscriptionTransitions : transition_table :=
  [ (SubscriptionStatusActive,
       [SubscriptionStatusExpired; SubscriptionStatusCancelled; SubscriptionStatusErrored]);
    (SubscriptionStatusExpired, [SubscriptionStatusActive; SubscriptionStatusCancelled]);
    (SubscriptionStatusErrored, [SubscriptionStatusActive; SubscriptionStatusCancelled]);
    (SubscriptionStatusCancelled, []) ].

Definition subscriptionTransitionAllowed : string → string → bool :=
  table_allows subscriptionTransitions.

Definition Subscription_TransitionTo (s : option Subscription) (status : string) (now : Time)
    : outcome domain_error (option Subscription) :=
  match s with
  | None => Ok None
  | Some s =>
    if String.eqb (sub_Status s) status then Ok (Some (sub_set s (sub_Status s) now))
    else if negb (subscriptionTransitionAllowed (sub_Status s) status)
    then Fail (ErrInvalidSubscriptionStatusTransition (sub_Status s) status)
    else Ok (Some (sub_set s status now))
  end.

(** ** Sync cursors *)

Record SyncCursor := mkSyncCursor {
  cursor_ID : string; cursor_ConnectionID : string; cursor_ProviderID : string;
  cursor_ResourceType : string; cursor_ResourceID : string; cursor_Cursor : string;
  cursor_LastSyncedAt : Time; cursor_Status : string; cursor_Metadata : gmap string value;
  cursor_CreatedAt : Time; cursor_UpdatedAt : Time }.

(** ** Installations *)

Definition InstallationStatusActive := "active".
Definition InstallationStatusSuspended := "suspended".
Definition InstallationStatusUninstalled := "uninstalled".
Definition InstallationStatusNeedsReconsent := "needs_reconsent".

Record Installation := mkInstallation {
  inst_ID : string; inst_ProviderID : string; inst_ScopeType : string; inst_ScopeID : string;
  inst_InstallType : string; inst_Status : string; inst_GrantedAt : option Time;
  inst_RevokedAt : option Time; inst_Metadata : gmap string value; inst_CreatedAt : Time;
  inst_UpdatedAt : Time }.

Definition inst_set (i : Installation) (status : string) (updatedAt : Time) : Installation :=
  mkInstallation (inst_ID i) (inst_ProviderID i) (inst_ScopeType i) (inst_ScopeID i)
    (inst_InstallType i) status (inst_GrantedAt i) (inst_RevokedAt i) (inst_Metadata i)
    (inst_CreatedAt i) updatedAt.

Definition installationTransitions : transition_table :=
  [ (InstallationStatusActive,
       [InstallationStatusSuspended; InstallationStatusUninstalled;
        InstallationStatusNeedsReconsent]);
    (InstallationStatusSuspended, [InstallationStatusActive; InstallationStatusUninstalled]);
    (InstallationStatusNeedsReconsent, [InstallationStatusActive; InstallationStatusUninstalled]);
    (InstallationStatusUninstalled, []) ].

Definition installationTransitionAllowed : string → string → bool :=
  table_allows installationTransitions.

Definition Installation_TransitionTo (i : option Installation) (status : string) (now : Time)
    : outcome domain_error (option Installation) :=
  match i with
  | None => Ok None
  | Some i =>
    if String.eqb (inst_Status i) status then Ok (Some (inst_set i (inst_Status i) now))
    else if negb (installationTransitionAllowed (inst_Status i) status)
    then Fail (ErrInvalidInstallationStatusTransition (inst_Status i) status)
    else Ok (Some (inst_set i status now))
  end.

(** ** Sync jobs *)

Definition SyncJobStatusQueued := "queued".
Definition SyncJobStatusRunning := "running".
Definition SyncJobStatusSucceeded := "succeeded".
Definition SyncJobStatusFailed := "failed".

Definition SyncJobModeFull := "full".
Definition SyncJobModeDelta := "delta".
Definition SyncJobModeBootstrap := "bootstrap".
Definition SyncJobModeIncremental := "incremental".
Definition SyncJobModeBackfill := "backfill".

Record SyncJob := mkSyncJob {
  job_ID : string; job_ConnectionID : string; job_ProviderID : string; job_Mode : string;
  job_Checkpoint : string; job_Status : string; job_Attempts : Z;
  job_NextAttemptAt : option Time; job_Metadata : gmap string value; job_CreatedAt : Time;
  job_UpdatedAt : Time }.

Definition job_set (j : SyncJob) (status : string) (updatedAt : Time) : SyncJob :=
  mkSyncJob (job_ID j) (job_ConnectionID j) (job_ProviderID j) (job_Mode j) (job_Checkpoint j)
    status (job_Attempts j) (job_NextAttemptAt j) (job_Metadata j) (job_CreatedAt j) updatedAt.

Definition syncJobTransitions : transition_table :=
  [ (SyncJobStatusQueued, [SyncJobStatusRunning; SyncJobStatusFailed]);
    (SyncJobStatusRunning, [SyncJobStatusSucceeded; SyncJobStatusFailed]);
    (SyncJobStatusFailed, [SyncJobStatusQueued; SyncJobStatusRunning]);
    (SyncJobStatusSucceeded, []) ].

Definition syncJobTransitionAllowed : string → string → bool :=
  table_allows syncJobTransitions.

Definition SyncJob_TransitionTo (j : option SyncJob) (status : string) (now : Time)
    : outcome domain_error (option SyncJob) :=
  match j with
  | None => Ok None
  | Some j =>
    if String.eqb (job_Status j) status then Ok (Some (job_set j (job_Status j) now))
    else if negb (syncJobTransitionAllowed (job_Status j) status)
    then Fail (ErrInvalidSyncJobStatusTransition (job_Status j) status)
    else Ok (Some (job_set j status now))
  end.

(** ** Activity entries and lifecycle events *)

Definition ServiceActivityStatusOK := "ok".
Definition ServiceActivityStatusWarn := "warn".
Definition ServiceActivityStatusError := "error".

Record ServiceActivityEntry := mkServiceActivityEntry {
  act_ID : string; act_Actor : string; act_Action : string; act_Object : string;
  act_Channel : string; act_Status : string; act_Metadata : gmap string value;
  act_CreatedAt : Time }.

Record LifecycleEvent := mkLifecycleEvent {
  ev_ID : string; ev_Name : string; ev_ProviderID : string; ev_ScopeType : string;
  ev_ScopeID : string; ev_ConnectionID : string; ev_Source : string; ev_OccurredAt : Time;
  ev_Payload : gmap string value; ev_Metadata : gmap string value }.

(** ** Sequences of transition requests *)

(** A caller keeps the entity as it was when [TransitionTo] returns an error. *)
Definition transition_run {S E} (f : option S → string → Time → outcome E (option S))
    (s : option S) (calls : list (string * Time)) : option S :=
  foldl (λ s call, match f s call.1 call.2 with Ok s' => s' | Fail _ => s end) s calls.

Section transition_run_facts.
Context {S E : Type} (f : option S → string → Time → outcome E (option S)).

(** A property every successful call preserves holds after any sequence of calls. *)
Lemma transition_run_invariant (P : S → Prop) s calls :
  (∀ x status now r, P x → f (Some x) status now = Ok r → ∃ y, r = Some y ∧ P y) →
  P s → ∃ y, transition_run f (Some s) calls = Some y ∧ P y.
Proof.
  intros Hstep. revert s. induction calls as [|[status now] calls IH]; intros s Hs; simpl; [eauto|].
  destruct (f (Some s) status now) as [r|] eqn:E1; [|by apply IH].
  destruct (Hstep _ _ _ _ Hs E1) as (y & -> & Hy). by apply IH.
Qed.
End transition_run_facts.

Lemma table_allows_In allowed cur next :
  table_allows allowed cur next = true → cur ∈ allowed.*1 ∧ ∃ row, (cur, row) ∈ allowed ∧ next ∈ row.
Proof.
  unfold table_allows. destruct (list_find _ _) as [[i [a row]]|] eqn:E1; [|done].
  apply list_find_Some in E1 as (Hl & Ha & _). simpl in *. subst a.
  intros Hin%bool_decide_eq_true. apply list_elem_of_lookup_2 in Hl. split.
  - apply list_elem_of_fmap. by exists (cur, row).
  - eauto.
Qed.

(** A table is closed when it only leads to statuses it lists. *)
Definition table_closed (allowed : transition_table) : bool :=
  forallb (λ row, forallb (λ t, bool_decide (t ∈ allowed.*1)) row.2) allowed.

Lemma table_closed_spec allowed cur next :
  table_closed allowed = true → table_allows allowed cur next = true → next ∈ allowed.*1.
Proof.
  unfold table_closed. rewrite forallb_forall. intros Hc [_ (row & Hrow & Hin)]%table_allows_In.
  specialize (Hc _ (proj1 (list_elem_of_In _ _) Hrow)). simpl in Hc. rewrite forallb_forall in Hc.
  specialize (Hc _ (proj1 (list_elem_of_In _ _) Hin)). by apply bool_decide_eq_true in Hc.
Qed.

Definition connection_identity (c : Connection) :=
  (conn_ID c, conn_ProviderID c, conn_ScopeType c, conn_ScopeID c, conn_ExternalAccountID c,
   conn_InheritsFrom c, conn_CreatedAt c).

(** What a connection keeps over its life: a status of the table, and its identity. *)
Definition connection_wf (c0 c : Connection) : Prop :=
  conn_Status c ∈ connectionTransitions.*1 ∧ connection_identity c = connection_identity c0.

Lemma Connection_TransitionTo_wf c0 c status reason now r :
  connection_wf c0 c → Connection_TransitionTo (Some c) status reason now = Ok r →
  ∃ c', r = Some c' ∧ connection_wf c0 c'.
Proof.
  intros [Hs Hid]. simpl. destruct (String.eqb_spec (conn_Status c) status) as [E|E].
  { intros [= <-]. eexists. split; [done|]. by split. }
  destruct (connectionTransitionAllowed (conn_Status c) status) eqn:Ha; [|done].
  intros [= <-]. eexists. split; [done|]. split; [|done].
  by apply (table_closed_spec connectionTransitions _ _ eq_refl Ha).
Qed.

(** The connection status machine over any history of [TransitionTo] calls
    (with any reasons, failed calls included): starting from a status of the table, the
    connection keeps a status of the table and its identity fields; from each of these
    statuses one call re-activates the connection and clears its last error (unless it is
    already active), and one call disconnects it. *)
Theorem connection_lifecycle (reason_of : string → string) (c : Connection) (calls : list (string * Time)) (now : Time) :
  conn_Status c ∈ connectionTransitions.*1 →
  ∃ c', transition_run (λ s status t, Connection_TransitionTo s status (reason_of status) t)
          (Some c) calls = Some c' ∧
    connection_wf c c' ∧
    (conn_Status c' ≠ ConnectionStatusActive → ∀ reason,
       Connection_TransitionTo (Some c') ConnectionStatusActive reason now
       = Ok (Some (conn_set c' ConnectionStatusActive "" now))) ∧
    ∃ c'', Connection_TransitionTo (Some c') ConnectionStatusDisconnected "" now = Ok (Some c'') ∧
      conn_Status c'' = ConnectionStatusDisconnected.
Proof.
  intros Hc.
  edestruct (transition_run_invariant
    (λ s status t, Connection_TransitionTo s status (reason_of status) t) (connection_wf c) c calls)
    as (c' & Hrun & Hwf).
  { intros x status t r. apply Connection_TransitionTo_wf. }
  { by split. }
  exists c'. split_and!; auto.
  - destruct Hwf as [Hs _]. intros Hne reason. unfold Connection_TransitionTo.
    destruct (String.eqb_spec (conn_Status c') ConnectionStatusActive); [done|].
    replace (connectionTransitionAllowed (conn_Status c') ConnectionStatusActive) with true; [done|].
    simpl in Hs. set_unfold in Hs. destruct_or?; try done; by rewrite Hs.
  - destruct Hwf as [Hs _]. unfold Connection_TransitionTo.
    destruct (String.eqb_spec (conn_Status c') ConnectionStatusDisconnected) as [E|]; [by eauto|].
    replace (connectionTransitionAllowed (conn_Status c') ConnectionStatusDisconnected) with true;
      [by eauto|].
    simpl in Hs. set_unfold in Hs. destruct_or?; try done; by rewrite Hs.
Qed.

Definition sample_connection : Connection :=
  mkConnection "c1" "github" "user" "u1" "acct" ConnectionStatusErrored "" "boom" 1 1.

Lemma connection_lifecycle_witness :
  conn_Status sample_connection ∈ connectionTransitions.*1 ∧
  ∃ c', transition_run (λ s status t, Connection_TransitionTo s status "why" t)
          (Some sample_connection) [("active", 2%Z); ("bogus", 3%Z)] = Some c' ∧ connection_wf sample_connection c'.
Proof.
  assert (H : conn_Status sample_connection ∈ connectionTransitions.*1)
    by (apply (bool_decide_unpack _); vm_compute; exact I).
  split; [exact H|].
  destruct (connection_lifecycle (λ _, "why") sample_connection [("active", 2%Z); ("bogus", 3%Z)] 5 H)
    as (c' & Hr & Hw & _).
  exists c'. split; [exact Hr|exact Hw].
Defined.

(** The four machines with a terminal status share one argument: the status has no way
    out, so a call either fails or asks for the status the entity has. *)
Lemma terminal_step allowed (terminal : string) (status : string) :
  list_find (λ row : string * list string, row.1 = terminal) allowed
    = list_find (λ row, row = (terminal, [])) allowed →
  table_allows allowed terminal status = false.
Proof.
  unfold table_allows. intros ->. destruct (list_find _ _) as [[i row]|] eqn:E; [|done].
  apply list_find_Some in E as (_ & -> & _). apply bool_decide_eq_false. simpl. set_solver.
Qed.

Ltac terminal_case allowed :=
  intros x Hx; eapply transition_run_invariant; [|exact Hx];
  intros y status now r Hy; simpl; rewrite Hy; unfold allowed; rewrite terminal_step by done;
  case_match; [|done]; intros [= <-]; eauto.

(** Revoked credentials, cancelled subscriptions, uninstalled installations and
    succeeded sync jobs stay so over every sequence of [TransitionTo] calls: no request,
    whatever status it asks for, revives one. *)
Theorem terminal_statuses_absorbing (calls : list (string * Time)) :
  (∀ c, cred_Status c = CredentialStatusRevoked →
    ∃ c', transition_run Credential_TransitionTo (Some c) calls = Some c' ∧
          cred_Status c' = CredentialStatusRevoked) ∧
  (∀ s, sub_Status s = SubscriptionStatusCancelled →
    ∃ s', transition_run Subscription_TransitionTo (Some s) calls = Some s' ∧
          sub_Status s' = SubscriptionStatusCancelled) ∧
  (∀ i, inst_Status i = InstallationStatusUninstalled →
    ∃ i', transition_run Installation_TransitionTo (Some i) calls = Some i' ∧
          inst_Status i' = InstallationStatusUninstalled) ∧
  (∀ j, job_Status j = SyncJobStatusSucceeded →
    ∃ j', transition_run SyncJob_TransitionTo (Some j) calls = Some j' ∧
          job_Status j' = SyncJobStatusSucceeded).
Proof.
  split_and!.
  - terminal_case credentialTransitionAllowed.
  - terminal_case subscriptionTransitionAllowed.
  - terminal_case installationTransitionAllowed.
  - terminal_case syncJobTransitionAllowed.
Qed.
