(* ===== verification/Backoff.v ===== *)
(** * Exponential back-off

    The five delay computations of the code base: the refresh scheduler
    (src/core/refresh_runner.go), the webhook retry policy (src/webhooks/processor.go), the
    adaptive rate limiter (src/ratelimit/policy.go), the provider operation runtime
    (src/core/provider_operation_runtime.go) and the outbox dispatcher
    (src/core/outbox_dispatcher.go), which goes through floating point.  Durations are
    64-bit and [delay *= 2] wraps. *)

From S2P Require Import Prelude GoStrings GoValues.
From Stdlib Require Import ZArith Lia.
From stdpp Require Import base decidable list.

Local Open Scope Z_scope.

(** ** The doubling loop the integer versions share

    [for i := 1; i < attempt; i++ { delay *= 2; if delay >= maximum { return maximum } }],
    run for [n] iterations; [inl] is the early return, [inr] the delay after the loop. *)
Fixpoint doubling_loop (n : nat) (delay maximum : Duration) : Duration + Duration :=
  match n with
  | O => inr delay
  | S n' =>
    let delay := wrap64 (delay * 2) in
    if maximum <=? delay then inl maximum else doubling_loop n' delay maximum
  end.

(** ** src/core/refresh_runner.go *)

Definition defaultRefreshMaxAttempts : Z := 3.
Definition defaultRefreshInitialBackoff : Duration := 500 * Millisecond.
Definition defaultRefreshMaxBackoff : Duration := 10 * Second.
Definition defaultRefreshLockTTL : Duration := 30 * Second.

Record ExponentialBackoffScheduler := mkBackoffScheduler {
  bs_Initial : Duration; bs_Max : Duration }.

Definition Scheduler_NextDelay (s : ExponentialBackoffScheduler) (attempt : Z) : Duration :=
  let attempt := if attempt <? 1 then 1 else attempt in
  let initial := if bs_Initial s <=? 0 then defaultRefreshInitialBackoff else bs_Initial s in
  let max := if bs_Max s <=? 0 then defaultRefreshMaxBackoff else bs_Max s in
  match doubling_loop (Z.to_nat (attempt - 1)) initial max with
  | inl d => d
  | inr delay => if max <? delay then max else delay
  end.

(** ** src/webhooks/processor.go *)

Record ExponentialRetryPolicy := mkRetryPolicy { rp_Initial : Duration; rp_Max : Duration }.

Definition RetryPolicy_NextDelay (p : ExponentialRetryPolicy) (attempt : Z) : Duration :=
  let initial := if rp_Initial p <=? 0 then Second else rp_Initial p in
  let maximum := if rp_Max p <=? 0 then 30 * Second else rp_Max p in
  match doubling_loop (Z.to_nat (attempt - 1)) initial maximum with
  | inl d => d
  | inr delay => if maximum <? delay then maximum else delay
  end.

(** ** src/ratelimit/policy.go *)

Record BackoffParams := mkBackoffParams {
  ap_InitialBackoff : Duration; ap_MaxBackoff : Duration; ap_DefaultRetryHint : Duration }.

Definition defaultRetryHint (p : BackoffParams) : Duration :=
  if 0 <? ap_DefaultRetryHint p then ap_DefaultRetryHint p else 5 * Second.

Definition nextBackoff (p : BackoffParams) (attempt : Z) : Duration :=
  let initial := if ap_InitialBackoff p <=? 0 then Second else ap_InitialBackoff p in
  let maximum := if ap_MaxBackoff p <=? 0 then Minute else ap_MaxBackoff p in
  if attempt <=? 0 then initial
  else match doubling_loop (Z.to_nat (attempt - 1)) initial maximum with
       | inl d => d
       | inr delay =>
         if delay <=? 0 then defaultRetryHint p
         else if maximum <? delay then maximum else delay
       end.

(** ** src/core/provider_operation_runtime.go *)

Definition defaultRetryDelayForAttempt (initialBackoff maxBackoff : Duration) (attempt : Z)
    (retryAfter : option Duration) : Duration :=
  match retryAfter with
  | Some d => if 0 <? d then d else
      match doubling_loop (Z.to_nat (attempt - 1)) initialBackoff maxBackoff with
      | inl d => d
      | inr delay => if maxBackoff <? delay then maxBackoff else delay
      end
  | None =>
      match doubling_loop (Z.to_nat (attempt - 1)) initialBackoff maxBackoff with
      | inl d => d
      | inr delay => if maxBackoff <? delay then maxBackoff else delay
      end
  end.

(** ** src/core/outbox_dispatcher.go *)

(** [float64(z)]: round to nearest even at 53 bits. *)
Definition round53 (z : Z) : Z :=
  let m := Z.abs z in
  if m <? 2 ^ 53 then z
  else
    let e := Z.log2 m - 52 in
    let q := m / 2 ^ e in
    let r := m mod 2 ^ e in
    let half := 2 ^ (e - 1) in
    let q := if (half <? r) || ((half =? r) && Z.odd q) then q + 1 else q in
    Z.sgn z * (q * 2 ^ e).

Section outbox.
(** What the conversion of an out-of-range or NaN float to [time.Duration] gives is up to the
    platform. *)
Context (f2i_out_of_range : Z).

(** [time.Duration(base * math.Pow(2, n))] *)
Definition scaled_duration (base n : Z) : Duration :=
  if 1024 <=? n then f2i_out_of_range
  else let p := base * 2 ^ n in if in_int64b p then p else f2i_out_of_range.

Definition nextBackoffDelay (initialBackoff maxBackoff : Duration) (attempt : Z) : Duration :=
  let attempt := if attempt <? 1 then 1 else attempt in
  let base := round53 initialBackoff in
  let next := scaled_duration base (attempt - 1) in
  if next <? 0 then maxBackoff
  else if maxBackoff <? next then maxBackoff
  else next.
End outbox.

(** ** The reference: doubling per attempt, capped *)

Definition exp_backoff (initial maximum : Duration) (attempt : Z) : Duration :=
  Z.min maximum (initial * 2 ^ (Z.max attempt 1 - 1)).

Lemma pow2_pos n : 0 < 2 ^ Z.of_nat n.
Proof. apply Z.pow_pos_nonneg; lia. Qed.
Lemma pow2_S n : 2 ^ Z.of_nat (S n) = 2 * 2 ^ Z.of_nat n.
Proof. rewrite Nat2Z.inj_succ, Z.pow_succ_r; lia. Qed.

(** With the delay and the cap below [2^62] the doubling never wraps. *)
Lemma doubling_loop_spec n delay maximum :
  0 < delay < 2 ^ 62 → 0 < maximum ≤ 2 ^ 62 →
  match doubling_loop n delay maximum with
  | inl d => d
  | inr d => if maximum <? d then maximum else d
  end = Z.min maximum (delay * 2 ^ Z.of_nat n).
Proof.
  revert delay. induction n as [|n IH]; intros delay Hd Hm; simpl doubling_loop.
  { change (2 ^ Z.of_nat 0) with 1. cbv iota. destruct (Z.ltb_spec maximum delay); lia. }
  rewrite wrap64_id by (unfold in_int64, int64_min, int64_max; lia).
  pose proof (pow2_pos n) as Hp. rewrite pow2_S.
  destruct (Z.leb_spec maximum (delay * 2)).
  - rewrite Z.min_l; [done|]. nia.
  - rewrite IH by lia. f_equal. lia.
Qed.

Lemma doubling_loop_pos n delay maximum d :
  0 < delay < 2 ^ 62 → 0 < maximum ≤ 2 ^ 62 → doubling_loop n delay maximum = inr d → 0 < d.
Proof.
  revert delay. induction n as [|n IH]; intros delay Hd Hm; simpl; [intros; simplify_eq; lia|].
  rewrite wrap64_id by (unfold in_int64, int64_min, int64_max; lia).
  destruct (Z.leb_spec maximum (delay * 2)); [done|]. apply IH; lia.
Qed.

Lemma attempt_iterations attempt :
  Z.of_nat (Z.to_nat (attempt - 1)) = Z.max attempt 1 - 1.
Proof. lia. Qed.

Lemma Scheduler_NextDelay_spec s attempt :
  0 < bs_Initial s < 2 ^ 62 → 0 < bs_Max s ≤ 2 ^ 62 →
  Scheduler_NextDelay s attempt = exp_backoff (bs_Initial s) (bs_Max s) attempt.
Proof.
  intros Hi Hm. unfold Scheduler_NextDelay, exp_backoff.
  destruct (Z.leb_spec (bs_Initial s) 0); [lia|]. destruct (Z.leb_spec (bs_Max s) 0); [lia|].
  rewrite doubling_loop_spec by lia. do 3 f_equal. destruct (Z.ltb_spec attempt 1); lia.
Qed.

Lemma RetryPolicy_NextDelay_spec p attempt :
  0 < rp_Initial p < 2 ^ 62 → 0 < rp_Max p ≤ 2 ^ 62 →
  RetryPolicy_NextDelay p attempt = exp_backoff (rp_Initial p) (rp_Max p) attempt.
Proof.
  intros Hi Hm. unfold RetryPolicy_NextDelay, exp_backoff.
  destruct (Z.leb_spec (rp_Initial p) 0); [lia|]. destruct (Z.leb_spec (rp_Max p) 0); [lia|].
  rewrite doubling_loop_spec by lia. by rewrite attempt_iterations.
Qed.

Lemma nextBackoff_spec p attempt :
  1 ≤ attempt → 0 < ap_InitialBackoff p < 2 ^ 62 → 0 < ap_MaxBackoff p ≤ 2 ^ 62 →
  nextBackoff p attempt = exp_backoff (ap_InitialBackoff p) (ap_MaxBackoff p) attempt.
Proof.
  intros Ha Hi Hm. unfold nextBackoff.
  destruct (Z.leb_spec (ap_InitialBackoff p) 0); [lia|].
  destruct (Z.leb_spec (ap_MaxBackoff p) 0); [lia|]. destruct (Z.leb_spec attempt 0); [lia|].
  pose proof (doubling_loop_spec (Z.to_nat (attempt - 1)) _ _ Hi Hm) as Hs.
  pose proof (λ d, doubling_loop_pos (Z.to_nat (attempt - 1)) _ _ d Hi Hm) as Hpos.
  unfold exp_backoff. rewrite <-attempt_iterations, <-Hs.
  destruct (doubling_loop _ _ _) as [d|d]; [done|].
  specialize (Hpos d eq_refl). destruct (Z.leb_spec d 0); [lia|done].
Qed.

Lemma defaultRetryDelayForAttempt_spec initial maximum attempt :
  0 < initial < 2 ^ 62 → 0 < maximum ≤ 2 ^ 62 →
  defaultRetryDelayForAttempt initial maximum attempt None = exp_backoff initial maximum attempt.
Proof.
  intros Hi Hm. unfold defaultRetryDelayForAttempt, exp_backoff.
  by rewrite doubling_loop_spec, attempt_iterations.
Qed.

Lemma pow2_big n : 63 ≤ n → 2 ^ 63 ≤ 2 ^ n.
Proof. intros. apply Z.pow_le_mono_r; lia. Qed.

Lemma nextBackoffDelay_spec oor initial maximum attempt :
  0 < initial < 2 ^ 53 → 0 < maximum < int64_max → oor < 0 ∨ oor = int64_max →
  nextBackoffDelay oor initial maximum attempt = exp_backoff initial maximum attempt.
Proof.
  intros Hi Hm Ho. unfold nextBackoffDelay, exp_backoff, scaled_duration, round53.
  rewrite Z.abs_eq by lia. destruct (Z.ltb_spec initial (2 ^ 53)); [|lia].
  replace (if attempt <? 1 then 1 else attempt) with (Z.max attempt 1)
    by (destruct (Z.ltb_spec attempt 1); lia).
  set (n := Z.max attempt 1 - 1). assert (0 ≤ n) by lia.
  assert (Hp : 0 < 2 ^ n) by (apply Z.pow_pos_nonneg; lia).
  assert (Hbig : 1024 ≤ n → int64_max < initial * 2 ^ n).
  { intros. pose proof (pow2_big n). unfold int64_max. nia. }
  assert (Hcap : ∀ next, next < 0 ∨ next = int64_max → int64_max < initial * 2 ^ n →
    (if next <? 0 then maximum else if maximum <? next then maximum else next)
    = Z.min maximum (initial * 2 ^ n)).
  { intros next Hnext Hover. rewrite Z.min_l by lia.
    destruct (Z.ltb_spec next 0); [done|]. destruct (Z.ltb_spec maximum next); [done|lia]. }
  destruct (Z.leb_spec 1024 n); [by apply Hcap; auto|].
  unfold in_int64b. destruct (Z.leb_spec int64_min (initial * 2 ^ n)) as [_|Hlow];
    [|unfold int64_min in Hlow; nia].
  destruct (Z.leb_spec (initial * 2 ^ n) int64_max); simpl; [|by apply Hcap].
  destruct (Z.ltb_spec (initial * 2 ^ n) 0); [nia|].
  destruct (Z.ltb_spec maximum (initial * 2 ^ n)); lia.
Qed.

(** The five back-off routines compute the same function, the initial delay doubled
    per attempt and capped at the maximum: the four integer loops for every attempt number as
    long as both durations are below [2^62] ns (no wrap-around), and the outbox dispatcher's
    floating-point version for initial delays below [2^53] ns, whichever of the two common
    answers (a negative value or the largest one) the platform gives for a float out of
    range. *)
Theorem backoffs_agree (initial maximum hint oor : Z) (attempt : Z) :
  0 < initial < 2 ^ 53 → 0 < maximum ≤ 2 ^ 62 → 1 ≤ attempt → oor < 0 ∨ oor = int64_max →
  Scheduler_NextDelay (mkBackoffScheduler initial maximum) attempt = exp_backoff initial maximum attempt ∧
  RetryPolicy_NextDelay (mkRetryPolicy initial maximum) attempt = exp_backoff initial maximum attempt ∧
  nextBackoff (mkBackoffParams initial maximum hint) attempt = exp_backoff initial maximum attempt ∧
  defaultRetryDelayForAttempt initial maximum attempt None = exp_backoff initial maximum attempt ∧
  nextBackoffDelay oor initial maximum attempt = exp_backoff initial maximum attempt.
Proof.
  intros Hi Hm Ha Ho. split_and!.
  - apply (Scheduler_NextDelay_spec (mkBackoffScheduler initial maximum)); simpl; lia.
  - apply (RetryPolicy_NextDelay_spec (mkRetryPolicy initial maximum)); simpl; lia.
  - apply (nextBackoff_spec (mkBackoffParams initial maximum hint)); simpl; lia.
  - apply defaultRetryDelayForAttempt_spec; lia.
  - apply nextBackoffDelay_spec; auto. unfold int64_max. lia.
Qed.

Lemma backoffs_agree_witness :
  nextBackoffDelay int64_min (2 * Second) (300 * Second) 5 = 32 * Second ∧
  Scheduler_NextDelay (mkBackoffScheduler (2 * Second) (300 * Second)) 5 = 32 * Second.
Proof.
  destruct (backoffs_agree (2 * Second) (300 * Second) 0 int64_min 5) as (H1 & _ & _ & _ & H5).
  - unfold Second. lia.
  - unfold Second. lia.
  - lia.
  - left. unfold int64_min. lia.
  - split; [rewrite H5|rewrite H1]; reflexivity.
Defined.

(** Successive delays never shrink and stay within the initial delay and the cap. *)
Lemma exp_backoff_mono initial maximum a b :
  0 < initial → a ≤ b → exp_backoff initial maximum a ≤ exp_backoff initial maximum b.
Proof.
  intros Hi Hab. unfold exp_backoff. apply Z.min_le_compat_l.
  apply Z.mul_le_mono_nonneg_l; [lia|]. apply Z.pow_le_mono_r; lia.
Qed.
Lemma exp_backoff_bounds initial maximum a :
  0 < initial ≤ maximum → initial ≤ exp_backoff initial maximum a ≤ maximum.
Proof.
  intros Hi. unfold exp_backoff.
  assert (0 < 2 ^ (Z.max a 1 - 1)) by (apply Z.pow_pos_nonneg; lia). nia.
Qed.

(** The doubling does wrap for durations past [2^62]: the loop then returns a negative
    delay, which the rate limiter alone replaces by a positive hint. *)
Example scheduler_overflow : Scheduler_NextDelay (mkBackoffScheduler (2 ^ 62) (2 ^ 63 - 1)) 2 = - 2 ^ 63.
Proof. reflexivity. Qed.
Example rate_limiter_overflow :
  nextBackoff (mkBackoffParams (2 ^ 62) (2 ^ 63 - 1) 0) 2 = 5 * Second.
Proof. reflexivity. Qed.
