(* ===== verification/TTLMap.v ===== *)
(** * Bounded in-memory maps with expiry

    The eviction scan and the capacity loop that the replay ledger
    (src/core/replay_ledger.go) and the OAuth state store (src/core/oauth_state.go) have in
    common, over any iteration order of the Go map. *)

From S2P Require Import Prelude GoStrings.
From Stdlib Require Import ZArith Lia.
From stdpp Require Import base decidable list gmap strings.

Local Open Scope string_scope.
Local Open Scope nat_scope.
Local Open Scope list_scope.

(** The scan of the [evictOldestLocked] functions: the first entry, in iteration order,
    with the least candidate time; the empty key stands for "none yet". *)
Definition oldest_scan {A} (cand : A → Time) (l : list (string * A)) : string * Time :=
  foldl (λ acc kx, if String.eqb acc.1 "" || Before (cand kx.2) acc.2
                   then (kx.1, cand kx.2) else acc) ("", zeroTime) l.

(** [for len(entries) > target { evict }], with as much fuel as there are entries. *)
Fixpoint evict_loop {A} (evict : gmap string A → gmap string A) (fuel : nat) (target : Z)
    (m : gmap string A) : gmap string A :=
  match fuel with
  | O => m
  | S n => if (target <? Z.of_nat (size m))%Z then evict_loop evict n target (evict m) else m
  end.

Definition no_empty_key {A} (m : gmap string A) : Prop := m !! "" = None.

Lemma oldest_scan_spec {A} (cand : A → Time) l acc :
  Forall (λ kx, kx.1 ≠ "") l →
  let r := foldl (λ acc kx, if String.eqb acc.1 "" || Before (cand kx.2) acc.2
                   then (kx.1, cand kx.2) else acc) acc l in
  (r = acc ∨ ∃ x, (r.1, x) ∈ l ∧ r.2 = cand x) ∧
  (acc.1 ≠ "" → (r.2 ≤ acc.2)%Z) ∧ (acc.1 ≠ "" ∨ l ≠ [] → r.1 ≠ "") ∧
  (∀ k x, (k, x) ∈ l → (r.2 ≤ cand x)%Z).
Proof.
  revert acc. induction l as [|[k x] l IH]; intros acc Hl; simpl.
  { split_and!; auto; [lia|by intros [?|?]|set_solver]. }
  apply Forall_cons in Hl as [Hk Hl]. simpl in Hk.
  destruct (String.eqb acc.1 "" || Before (cand x) acc.2) eqn:E.
  - destruct (IH (k, cand x) Hl) as (H1 & H2 & H3 & H4). simpl in *.
    specialize (H2 Hk). split_and!.
    + right. destruct H1 as [-> | (y & Hy & ->)]; [exists x|exists y]; set_solver.
    + intros Hne. apply orb_true_iff in E as [E|E]; [by apply String.eqb_eq in E|].
      apply Before_lt in E. lia.
    + auto.
    + intros k' x' [?|?]%elem_of_cons; simplify_eq; eauto.
  - destruct (IH acc Hl) as (H1 & H2 & H3 & H4). apply orb_false_iff in E as [E1 E2].
    apply String.eqb_neq in E1. apply Before_ge in E2. split_and!; auto.
    + destruct H1 as [->|(y & Hy & Hr)]; [auto|right; exists y; set_solver].
    + intros k' x' [?|?]%elem_of_cons; simplify_eq; [specialize (H2 E1); lia|eauto].
Qed.

Section oldest.
Context {MR : MapRange} {A : Type} (cand : A → Time).

Lemma map_range_no_empty (m : gmap string A) :
  no_empty_key m → Forall (λ kx, kx.1 ≠ "") (map_range m).
Proof.
  intros Hm. apply Forall_forall. intros [k x] Hin%elem_of_map_range. simpl. intros ->.
  unfold no_empty_key in Hm. congruence.
Qed.

(** The scan of a non-empty map finds an entry with the least candidate time. *)
Lemma oldest_scan_min (m : gmap string A) :
  no_empty_key m → m ≠ ∅ →
  let r := oldest_scan cand (map_range m) in
  r.1 ≠ "" ∧ (∃ x, m !! r.1 = Some x ∧ r.2 = cand x) ∧
  (∀ k x, m !! k = Some x → (r.2 ≤ cand x)%Z).
Proof.
  intros Hm Hne. unfold oldest_scan.
  destruct (oldest_scan_spec cand (map_range m) ("", zeroTime)) as (H1 & _ & H3 & H4).
  { by apply map_range_no_empty. }
  assert (Hl : map_range m ≠ []).
  { intros E. apply Hne, map_size_empty_iff. by rewrite <-length_map_range, E. }
  simpl in *. specialize (H3 (or_intror Hl)). split_and!; auto.
  - destruct H1 as [H1|(x & Hx & Hr)].
    + rewrite H1 in H3. done.
    + exists x. split; [by apply elem_of_map_range|done].
  - intros k x Hk. eapply H4. by apply elem_of_map_range.
Qed.
End oldest.

(** Termination of the capacity loop: an evictor that removes one entry of a non-empty map
    brings the size down to the target within [size m] iterations. *)
Section evict_loop_facts.
Context {A : Type} (evict : gmap string A → gmap string A) (P : gmap string A → Prop).
Hypothesis evict_one : ∀ m, P m → m ≠ ∅ → P (evict m) ∧ S (size (evict m)) = size m ∧ evict m ⊆ m.

Lemma evict_loop_spec fuel target m :
  P m → (0 ≤ target)%Z → size m ≤ fuel →
  P (evict_loop evict fuel target m) ∧
  Z.of_nat (size (evict_loop evict fuel target m)) = Z.min target (Z.of_nat (size m)) ∧
  evict_loop evict fuel target m ⊆ m.
Proof.
  revert m. induction fuel as [|n IH]; intros m HP Ht Hf; simpl.
  { split_and!; auto; lia. }
  destruct (Z.ltb_spec target (Z.of_nat (size m))) as [Hlt|Hge]; [|split_and!; auto; lia].
  assert (Hne : m ≠ ∅) by (intros ->; rewrite map_size_empty in Hlt; lia).
  destruct (evict_one m HP Hne) as (HP' & Hs & Hsub).
  destruct (IH (evict m) HP' Ht) as (H1 & H2 & H3); [lia|].
  split_and!; auto; [lia|by etrans].
Qed.

Lemma evict_loop_id fuel target m :
  (Z.of_nat (size m) ≤ target)%Z → evict_loop evict fuel target m = m.
Proof. destruct fuel; simpl; [done|]. intros. destruct (Z.ltb_spec target (Z.of_nat (size m))); [lia|done]. Qed.
End evict_loop_facts.
