(* ===== verification/ReplayLedger.v ===== *)
(** * The in-memory replay ledger (src/core/replay_ledger.go)

    [Claim] accepts a key at most once per time-to-live.  The ledger prunes expired
    entries and evicts the entry that expires first when it is full.  The mutex makes
    each method atomic, so an execution is a sequence of calls. *)

From S2P Require Import Prelude GoStrings TTLMap.
From Stdlib Require Import ZArith Lia.
From stdpp Require Import base decidable list gmap strings.

Local Open Scope string_scope.
Local Open Scope nat_scope.
Local Open Scope list_scope.

Definition defaultReplayLedgerTTL : Duration := (5 * Minute)%Z.
Definition defaultReplayLedgerMaxEntries : Z := 8192%Z.

Inductive replay_error := ErrReplayKeyRequired.

Record MemoryReplayLedger := mkReplayLedger {
  rl_defaultTTL : Duration; rl_maxEntries : Z; rl_entries : gmap string Time }.

Definition rl_with (l : MemoryReplayLedger) (entries : gmap string Time) : MemoryReplayLedger :=
  mkReplayLedger (rl_defaultTTL l) (rl_maxEntries l) entries.

Definition NewMemoryReplayLedgerWithLimits (defaultTTL : Duration) (maxEntries : Z) : MemoryReplayLedger :=
  let defaultTTL := if (defaultTTL <=? 0)%Z then defaultReplayLedgerTTL else defaultTTL in
  let maxEntries := if (maxEntries <=? 0)%Z then defaultReplayLedgerMaxEntries else maxEntries in
  mkReplayLedger defaultTTL maxEntries ∅.

Definition NewMemoryReplayLedger (defaultTTL : Duration) : MemoryReplayLedger :=
  NewMemoryReplayLedgerWithLimits defaultTTL defaultReplayLedgerMaxEntries.

Section ledger.
Context {MR : MapRange}.

Definition rl_pruneExpiredLocked (entries : gmap string Time) (now : Time) : gmap string Time :=
  delete_where (λ expiresAt, negb (Before now expiresAt)) entries.

Definition rl_evictOldestLocked (entries : gmap string Time) : gmap string Time :=
  let oldest := oldest_scan (λ expiry, expiry) (map_range entries) in
  if negb (String.eqb oldest.1 "") then delete oldest.1 entries
  else match map_range entries with
       | [] => entries
       | (key, _) :: _ => delete key entries
       end.

Definition rl_enforceCapacityLocked (l : MemoryReplayLedger) (entries : gmap string Time)
    (incoming : Z) : gmap string Time :=
  if (rl_maxEntries l <=? 0)%Z then entries
  else let target := Z.max (rl_maxEntries l - incoming) 0 in
       evict_loop rl_evictOldestLocked (size entries) target entries.

Definition Replay_Claim (l : MemoryReplayLedger) (now : Time) (key : string) (ttl : Duration)
    : outcome replay_error bool * MemoryReplayLedger :=
  let key := TrimSpace key in
  if String.eqb key "" then (Fail ErrReplayKeyRequired, l)
  else
    let ttl := if (ttl <=? 0)%Z then rl_defaultTTL l else ttl in
    let entries := rl_pruneExpiredLocked (rl_entries l) now in
    let insert_fresh entries :=
      let entries := rl_enforceCapacityLocked l entries 1 in
      (Ok true, rl_with l (<[key := addTime now ttl]> entries)) in
    match entries !! key with
    | Some expiresAt =>
      if Before now expiresAt then (Ok false, rl_with l entries)
      else insert_fresh (delete key entries)
    | None => insert_fresh entries
    end.

Definition Replay_PurgeExpired (l : MemoryReplayLedger) (now : Time) : Z * MemoryReplayLedger :=
  let kept := delete_where (λ expiresAt, negb (Before now expiresAt)) (rl_entries l) in
  (Z.of_nat (size (rl_entries l)) - Z.of_nat (size kept), rl_with l kept)%Z.

(** A sequence of claims [(now, key, ttl)], with the answers in order. *)
Fixpoint Replay_run (l : MemoryReplayLedger) (calls : list (Time * string * Duration))
    : list (outcome replay_error bool) * MemoryReplayLedger :=
  match calls with
  | [] => ([], l)
  | (now, key, ttl) :: rest =>
    let (r, l') := Replay_Claim l now key ttl in
    let (rs, l'') := Replay_run l' rest in (r :: rs, l'')
  end.

(** ** The specification: a ledger with no bound, which never forgets *)

Definition spec_claim (ttl0 : Duration) (s : gmap string Time) (now : Time) (key : string)
    (ttl : Duration) : outcome replay_error bool * gmap string Time :=
  let key := TrimSpace key in
  if String.eqb key "" then (Fail ErrReplayKeyRequired, s)
  else match s !! key with
       | Some e => if Before now e then (Ok false, s)
                   else (Ok true, <[key := addTime now (if (ttl <=? 0)%Z then ttl0 else ttl)]> s)
       | None => (Ok true, <[key := addTime now (if (ttl <=? 0)%Z then ttl0 else ttl)]> s)
       end.

Fixpoint spec_run (ttl0 : Duration) (s : gmap string Time) (calls : list (Time * string * Duration))
    : list (outcome replay_error bool) * gmap string Time :=
  match calls with
  | [] => ([], s)
  | (now, key, ttl) :: rest =>
    let (r, s') := spec_claim ttl0 s now key ttl in
    let (rs, s'') := spec_run ttl0 s' rest in (r :: rs, s'')
  end.

Definition live (s : gmap string Time) (now : Time) : gmap string Time :=
  rl_pruneExpiredLocked s now.

(** The load of a call sequence: at each call fewer than [cap] keys are live. *)
Fixpoint within_capacity (cap : Z) (ttl0 : Duration) (s : gmap string Time)
    (calls : list (Time * string * Duration)) : Prop :=
  match calls with
  | [] => True
  | (now, key, ttl) :: rest =>
    (Z.of_nat (size (live s now)) < cap)%Z ∧
    within_capacity cap ttl0 (spec_claim ttl0 s now key ttl).2 rest
  end.

(** The clock never goes back from one call to the next. *)
Fixpoint clock_from (t : Time) (calls : list (Time * string * Duration)) : Prop :=
  match calls with
  | [] => True
  | (now, _, _) :: rest => (t ≤ now)%Z ∧ clock_from now rest
  end.

(** ** Invariant: no empty key, never more entries than the bound *)

Definition ledger_wf (l : MemoryReplayLedger) : Prop :=
  no_empty_key (rl_entries l) ∧ (0 < rl_maxEntries l)%Z ∧ (0 < rl_defaultTTL l)%Z ∧
  (Z.of_nat (size (rl_entries l)) ≤ rl_maxEntries l)%Z.

Lemma evict_one_entry (m : gmap string Time) :
  no_empty_key m → m ≠ ∅ →
  no_empty_key (rl_evictOldestLocked m) ∧ S (size (rl_evictOldestLocked m)) = size m ∧
  rl_evictOldestLocked m ⊆ m.
Proof.
  intros Hm Hne. unfold rl_evictOldestLocked.
  destruct (oldest_scan_min (λ e, e) m Hm Hne) as (Hk & (x & Hx & _) & _).
  destruct (String.eqb_spec (oldest_scan (λ e, e) (map_range m)).1 ""); [done|]. simpl.
  split_and!.
  - unfold no_empty_key in *. by rewrite lookup_delete_None; auto.
  - rewrite map_size_delete_Some by eauto.
    assert (size m ≠ 0) by (intros ?%map_size_empty_iff; done). lia.
  - apply delete_subseteq.
Qed.

Lemma enforce_spec l m :
  no_empty_key m → (0 < rl_maxEntries l)%Z →
  no_empty_key (rl_enforceCapacityLocked l m 1) ∧
  (Z.of_nat (size (rl_enforceCapacityLocked l m 1)) < rl_maxEntries l)%Z ∧
  rl_enforceCapacityLocked l m 1 ⊆ m ∧
  ((Z.of_nat (size m) < rl_maxEntries l)%Z → rl_enforceCapacityLocked l m 1 = m).
Proof.
  intros Hm Hmax. unfold rl_enforceCapacityLocked.
  destruct (Z.leb_spec (rl_maxEntries l) 0); [lia|].
  destruct (evict_loop_spec rl_evictOldestLocked no_empty_key evict_one_entry (size m)
    (Z.max (rl_maxEntries l - 1) 0) m Hm) as (H1 & H2 & H3); [lia..|].
  split_and!; auto; [lia|].
  intros. apply evict_loop_id. lia.
Qed.

Lemma prune_lookup m now k e :
  rl_pruneExpiredLocked m now !! k = Some e ↔ m !! k = Some e ∧ (now < e)%Z.
Proof.
  unfold rl_pruneExpiredLocked. rewrite delete_where_lookup, negb_false_iff. by rewrite Before_lt.
Qed.

Lemma prune_no_empty m now : no_empty_key m → no_empty_key (rl_pruneExpiredLocked m now).
Proof. unfold no_empty_key, rl_pruneExpiredLocked. rewrite delete_where_None. auto. Qed.

Lemma no_empty_insert {A} (m : gmap string A) k x : k ≠ "" → no_empty_key m → no_empty_key (<[k:=x]> m).
Proof. unfold no_empty_key. intros. by rewrite lookup_insert_ne. Qed.

(** The entries after a claim of a key that is not live. *)
Lemma Replay_Claim_cases l now key ttl :
  ledger_wf l → TrimSpace key ≠ "" →
  let k := TrimSpace key in let pruned := rl_pruneExpiredLocked (rl_entries l) now in
  let d := if (ttl <=? 0)%Z then rl_defaultTTL l else ttl in
  (∃ e, rl_entries l !! k = Some e ∧ (now < e)%Z ∧
    Replay_Claim l now key ttl = (Ok false, rl_with l pruned)) ∨
  (pruned !! k = None ∧
    Replay_Claim l now key ttl =
      (Ok true, rl_with l (<[k := addTime now d]> (rl_enforceCapacityLocked l pruned 1)))).
Proof.
  intros Hwf Hk. simpl. unfold Replay_Claim.
  destruct (String.eqb_spec (TrimSpace key) ""); [done|].
  destruct (rl_pruneExpiredLocked (rl_entries l) now !! TrimSpace key) as [e|] eqn:E.
  - apply prune_lookup in E as [E1 E2]. left. exists e. split_and!; auto.
    by apply Before_lt in E2 as ->.
  - right. auto.
Qed.

Lemma Replay_Claim_wf l now key ttl : ledger_wf l → ledger_wf (Replay_Claim l now key ttl).2.
Proof.
  intros Hwf. destruct (decide (TrimSpace key = "")) as [E|E].
  { unfold Replay_Claim. rewrite E. simpl. done. }
  pose proof Hwf as (H1 & H2 & H3 & H4).
  pose proof (delete_where_size (λ e, negb (Before now e)) (rl_entries l)) as Hsz.
  destruct (Replay_Claim_cases l now key ttl Hwf E) as [(e & _ & _ & ->)|[Hn ->]];
    unfold ledger_wf; simpl.
  - split_and!; auto using prune_no_empty. unfold rl_pruneExpiredLocked. lia.
  - destruct (enforce_spec l _ (prune_no_empty _ now H1) H2) as (G1 & G2 & G3 & _).
    split_and!; auto using no_empty_insert.
    rewrite map_size_insert_None; [lia|].
    eapply lookup_weaken_None; eauto.
Qed.

Lemma Replay_run_wf l calls : ledger_wf l → ledger_wf (Replay_run l calls).2.
Proof.
  revert l. induction calls as [|[[now key] ttl] calls IH]; intros l Hl; simpl; [done|].
  pose proof (Replay_Claim_wf l now key ttl Hl) as Hwf.
  destruct (Replay_Claim l now key ttl) as [r l']. simpl in Hwf.
  specialize (IH l' Hwf). by destruct (Replay_run l' calls).
Qed.

Lemma Replay_Claim_params l now key ttl :
  rl_maxEntries (Replay_Claim l now key ttl).2 = rl_maxEntries l ∧
  rl_defaultTTL (Replay_Claim l now key ttl).2 = rl_defaultTTL l.
Proof. unfold Replay_Claim. repeat case_match; done. Qed.

(** ** Refinement of the unbounded specification *)

(** At time [t] the ledger and the specification hold the same live entries. *)
Definition same_live (t : Time) (l : MemoryReplayLedger) (s : gmap string Time) : Prop :=
  ∀ k e, (t < e)%Z → rl_entries l !! k = Some e ↔ s !! k = Some e.

Lemma same_live_prune t now l s :
  same_live t l s → (t ≤ now)%Z → rl_pruneExpiredLocked (rl_entries l) now = live s now.
Proof.
  intros Hl Ht. apply map_eq. intros k. apply option_eq. intros e. unfold live.
  rewrite !prune_lookup. split; intros [H1 H2]; split; auto; apply (Hl k e); auto; lia.
Qed.

Lemma refinement_step t l s now key ttl :
  ledger_wf l → same_live t l s → (t ≤ now)%Z →
  (Z.of_nat (size (live s now)) < rl_maxEntries l)%Z →
  (Replay_Claim l now key ttl).1 = (spec_claim (rl_defaultTTL l) s now key ttl).1 ∧
  same_live now (Replay_Claim l now key ttl).2 (spec_claim (rl_defaultTTL l) s now key ttl).2.
Proof.
  intros Hwf Hl Ht Hcap. destruct (decide (TrimSpace key = "")) as [Ek|Ek].
  { unfold Replay_Claim, spec_claim. rewrite Ek. simpl. split; [done|].
    intros k e He. apply (Hl k e). lia. }
  pose proof (same_live_prune t now l s Hl Ht) as Hp.
  assert (Hsame : same_live now (rl_with l (rl_pruneExpiredLocked (rl_entries l) now)) s).
  { intros k e He. simpl. rewrite prune_lookup, (Hl k e) by lia. naive_solver. }
  unfold spec_claim. destruct (String.eqb_spec (TrimSpace key) ""); [done|].
  destruct (Replay_Claim_cases l now key ttl Hwf Ek) as [(e & He & Hlt & ->)|[Hn ->]]; simpl.
  - apply (Hl _ e) in He; [|lia]. rewrite He. apply Before_lt in Hlt as ->. done.
  - assert (Hfresh : ∀ e, s !! TrimSpace key = Some e → Before now e = false).
    { intros e He. apply Before_ge. destruct (decide (now < e)%Z) as [Hlt|]; [|lia].
      assert (Hc : live s now !! TrimSpace key = Some e) by (by apply prune_lookup).
      rewrite <-Hp in Hc. congruence. }
    destruct Hwf as (W1 & W2 & _ & _).
    destruct (enforce_spec l _ (prune_no_empty _ now W1) W2) as (_ & _ & _ & Henf).
    rewrite Henf by (by rewrite Hp).
    assert (Hins : ∀ x, same_live now (rl_with l (<[TrimSpace key:=x]> (rl_pruneExpiredLocked (rl_entries l) now)))
                          (<[TrimSpace key:=x]> s)).
    { intros x k e He. simpl. rewrite !lookup_insert. case_decide; [done|]. by apply Hsame. }
    destruct (s !! TrimSpace key) as [e|] eqn:Es; [rewrite (Hfresh e eq_refl)|]; auto.
Qed.

Lemma refinement_run t l s calls :
  ledger_wf l → same_live t l s → clock_from t calls →
  within_capacity (rl_maxEntries l) (rl_defaultTTL l) s calls →
  (Replay_run l calls).1 = (spec_run (rl_defaultTTL l) s calls).1.
Proof.
  revert t l s. induction calls as [|[[now key] ttl] calls IH]; intros t l s Hwf Hs Hc Hcap; [done|].
  simpl in *. destruct Hc as [Ht Hc], Hcap as [Hcap Hcap'].
  destruct (refinement_step t l s now key ttl Hwf Hs Ht Hcap) as [Hr Hs'].
  pose proof (Replay_Claim_wf l now key ttl Hwf) as Hwf'.
  destruct (Replay_Claim_params l now key ttl) as [Hm Hd].
  destruct (Replay_Claim l now key ttl) as [r l'].
  destruct (spec_claim (rl_defaultTTL l) s now key ttl) as [r' s']. simpl in *. subst r'.
  specialize (IH now l' s' Hwf' Hs' Hc). rewrite Hm, Hd in IH. specialize (IH Hcap').
  destruct (Replay_run l' calls), (spec_run (rl_defaultTTL l) s' calls). simpl in *. by f_equal.
Qed.

Lemma New_wf ttl cap : ledger_wf (NewMemoryReplayLedgerWithLimits ttl cap).
Proof.
  unfold ledger_wf, NewMemoryReplayLedgerWithLimits, no_empty_key. simpl.
  rewrite map_size_empty. unfold defaultReplayLedgerTTL, defaultReplayLedgerMaxEntries, Minute.
  destruct (Z.leb_spec ttl 0), (Z.leb_spec cap 0); split_and!; done || lia.
Qed.

(** ** What the specification guarantees: one accept per window *)

Definition effective_ttl (ttl0 ttl : Duration) : Duration := if (ttl <=? 0)%Z then ttl0 else ttl.

Lemma spec_run_app ttl0 s c1 c2 :
  (spec_run ttl0 s (c1 ++ c2)).1 = (spec_run ttl0 s c1).1 ++ (spec_run ttl0 (spec_run ttl0 s c1).2 c2).1.
Proof.
  revert s. induction c1 as [|[[n k] d] c1 IH]; intros s; [done|]. simpl.
  destruct (spec_claim ttl0 s n k d) as [r s']. specialize (IH s').
  destruct (spec_run ttl0 s' (c1 ++ c2)), (spec_run ttl0 s' c1). simpl in *. by f_equal.
Qed.

Lemma length_spec_run ttl0 s c : length (spec_run ttl0 s c).1 = length c.
Proof.
  revert s. induction c as [|[[n k] d] c IH]; intros s; [done|]. simpl.
  destruct (spec_claim ttl0 s n k d) as [r s']. specialize (IH s').
  destruct (spec_run ttl0 s' c). simpl in *. by f_equal.
Qed.

(** A live entry of the specification survives every call before it expires. *)
Lemma spec_claim_keeps ttl0 s now key ttl k e :
  s !! k = Some e → (now < e)%Z → (spec_claim ttl0 s now key ttl).2 !! k = Some e.
Proof.
  intros Hk Hlt. unfold spec_claim. destruct (String.eqb _ _); [done|].
  destruct (decide (TrimSpace key = k)) as [->|Hne].
  - rewrite Hk. by apply Before_lt in Hlt as ->.
  - repeat case_match; simpl; rewrite ?lookup_insert_ne; auto.
Qed.

Lemma spec_run_keeps ttl0 s calls t k e :
  s !! k = Some e → clock_from t calls → (∀ n key d, (n, key, d) ∈ calls → (n < e)%Z) →
  (spec_run ttl0 s calls).2 !! k = Some e.
Proof.
  revert s t. induction calls as [|[[n key] d] calls IH]; intros s t Hk Hc Hn; [done|]. simpl in *.
  destruct (spec_claim ttl0 s n key d) as [r s'] eqn:E.
  assert (Hk' : s' !! k = Some e).
  { replace s' with (spec_claim ttl0 s n key d).2 by (by rewrite E).
    apply spec_claim_keeps; auto. eapply Hn. left. }
  specialize (IH s' n Hk' (proj2 Hc)).
  destruct (spec_run ttl0 s' calls). simpl in *. apply IH. intros. eapply Hn. right. eauto.
Qed.

Lemma clock_from_le t calls n key d : clock_from t calls → (n, key, d) ∈ calls → (t ≤ n)%Z.
Proof.
  revert t. induction calls as [|[[n' ?] ?] calls IH]; intros t Hc Hin; [by apply elem_of_nil in Hin|].
  destruct Hc as [Ht Hc]. apply elem_of_cons in Hin as [?|Hin]; simplify_eq; [done|].
  specialize (IH _ Hc Hin). lia.
Qed.

Lemma clock_from_app t c1 n key d c2 :
  clock_from t (c1 ++ (n, key, d) :: c2) →
  clock_from t c1 ∧ (∀ n' k' d', (n', k', d') ∈ c1 → (n' ≤ n)%Z) ∧ clock_from n c2.
Proof.
  revert t. induction c1 as [|[[n' ?] ?] c1 IH]; intros t; simpl.
  { intros [_ ?]. split_and!; auto. intros ???; by rewrite elem_of_nil. }
  intros [Ht Hc]. pose proof (clock_from_le _ _ n key d Hc) as Hle.
  destruct (IH _ Hc) as (H1 & H2 & H3). split_and!; auto.
  intros ??? [?|?]%elem_of_cons; simplify_eq; [|eauto]. apply Hle. set_solver.
Qed.

Lemma spec_no_double_accept ttl0 s t pre n1 k1 d1 mid n2 k2 d2 post :
  clock_from t (pre ++ (n1, k1, d1) :: mid ++ (n2, k2, d2) :: post) →
  TrimSpace k1 = TrimSpace k2 →
  let rs := (spec_run ttl0 s (pre ++ (n1, k1, d1) :: mid ++ (n2, k2, d2) :: post)).1 in
  rs !! length pre = Some (Ok true) →
  rs !! (length pre + S (length mid)) = Some (Ok true) →
  (n1 + effective_ttl ttl0 d1 ≤ n2)%Z.
Proof.
  intros Hc Hk rs Hr1 Hr2. apply clock_from_app in Hc as (_ & _ & Hc).
  apply clock_from_app in Hc as (Hc & Hle & _).
  unfold rs in *. clear rs. rewrite spec_run_app in Hr1, Hr2.
  rewrite lookup_app_r in Hr1, Hr2 by (rewrite length_spec_run; lia).
  rewrite length_spec_run, Nat.sub_diag in Hr1. rewrite length_spec_run in Hr2.
  replace (length pre + S (length mid) - length pre) with (S (length mid)) in Hr2 by lia.
  set (s0 := (spec_run ttl0 s pre).2) in *. simpl in Hr1, Hr2.
  destruct (spec_claim ttl0 s0 n1 k1 d1) as [r1 s1] eqn:E1.
  pose proof (spec_run_app ttl0 s1 mid ((n2, k2, d2) :: post)) as Happ.
  destruct (spec_run ttl0 s1 (mid ++ (n2, k2, d2) :: post)) as [rs s2]. simpl in *. simplify_eq.
  rewrite lookup_app_r in Hr2 by (rewrite length_spec_run; lia).
  rewrite length_spec_run, Nat.sub_diag in Hr2. simpl in Hr2.
  set (s2' := (spec_run ttl0 s1 mid).2) in *.
  assert (Hs1 : TrimSpace k1 ≠ "" ∧ s1 !! TrimSpace k1 = Some (n1 + effective_ttl ttl0 d1)%Z).
  { unfold spec_claim in E1. destruct (String.eqb_spec (TrimSpace k1) ""); [done|].
    fold (effective_ttl ttl0 d1) in E1. split; [done|].
    destruct (s0 !! TrimSpace k1) as [z|]; [destruct (Before n1 z)|];
      simplify_eq; apply lookup_insert_eq. }
  destruct Hs1 as [Hne Hs1].
  destruct (decide (n1 + effective_ttl ttl0 d1 ≤ n2)%Z) as [|Hgt]; [done|exfalso].
  assert (Hs2 : s2' !! TrimSpace k1 = Some (n1 + effective_ttl ttl0 d1)%Z).
  { eapply spec_run_keeps; eauto. intros n key d Hin. specialize (Hle n key d Hin). lia. }
  unfold spec_claim in Hr2. rewrite <-Hk, Hs2 in Hr2.
  destruct (String.eqb_spec (TrimSpace k1) ""); [done|].
  replace (Before n2 (n1 + effective_ttl ttl0 d1)) with true in Hr2
    by (symmetry; apply Before_lt; lia).
  by destruct (spec_run ttl0 s2' post).
Qed.

(** Replay protection.  On a fresh ledger, over any sequence of claims on a clock that
    does not go back and with fewer live keys than the ledger's capacity at each call, two
    accepted claims of one key (compared after trimming) are at least the first one's
    time-to-live apart. *)
Theorem replay_no_double_accept ttl cap t pre n1 k1 d1 mid n2 k2 d2 post :
  let l := NewMemoryReplayLedgerWithLimits ttl cap in
  let calls := pre ++ (n1, k1, d1) :: mid ++ (n2, k2, d2) :: post in
  clock_from t calls →
  within_capacity (rl_maxEntries l) (rl_defaultTTL l) ∅ calls →
  TrimSpace k1 = TrimSpace k2 →
  (Replay_run l calls).1 !! length pre = Some (Ok true) →
  (Replay_run l calls).1 !! (length pre + S (length mid)) = Some (Ok true) →
  (n1 + effective_ttl (rl_defaultTTL l) d1 ≤ n2)%Z.
Proof.
  intros l calls Hc Hcap Hk H1 H2.
  assert (Hs : same_live t l ∅) by (intros k e He; reflexivity).
  rewrite (refinement_run t l ∅ calls (New_wf ttl cap) Hs Hc Hcap) in H1, H2.
  by eapply spec_no_double_accept.
Qed.

(** C17: the ledger refines its specification and stays bounded: from any well-formed ledger
    and the specification with the same live entries, every call sequence on a clock that
    does not go back, with fewer live keys than the capacity at each call, gets the answers
    of the ledger that never forgets; and without that load assumption the ledger still never holds more
    entries than its capacity. *)
Theorem replay_ledger_refines (l : MemoryReplayLedger) (s : gmap string Time) (t : Time) calls :
  ledger_wf l → same_live t l s → clock_from t calls →
  (within_capacity (rl_maxEntries l) (rl_defaultTTL l) s calls →
    (Replay_run l calls).1 = (spec_run (rl_defaultTTL l) s calls).1) ∧
  (Z.of_nat (size (rl_entries (Replay_run l calls).2)) ≤ rl_maxEntries (Replay_run l calls).2)%Z.
Proof.
  intros Hwf Hs Hc. split; [by eapply refinement_run|]. apply (Replay_run_wf l calls Hwf).
Qed.
End ledger.

(** Two claims of one key one second apart under a five second window: the second is refused,
    a third after the window is accepted. *)
Definition replay_demo : list (Time * string * Duration) :=
  [ (10, "jti-1", 5); (11, " jti-1 ", 5); (15, "jti-1", 5) ]%Z.

Lemma replay_no_double_accept_witness :
  (Replay_run (MR := key_order_range) (NewMemoryReplayLedgerWithLimits 5 2) replay_demo).1
    = [Ok true; Ok false; Ok true] ∧ (10 + 5 ≤ 15)%Z.
Proof.
  split; [vm_compute; reflexivity|].
  apply (replay_no_double_accept (MR := key_order_range) 5 2 0 [] 10 "jti-1" 5
    [(11, " jti-1 ", 5)%Z] 15 "jti-1" 5 []); vm_compute; intuition congruence.
Defined.

Lemma replay_ledger_refines_witness :
  (Replay_run (MR := key_order_range) (NewMemoryReplayLedgerWithLimits 5 2) replay_demo).1
    = (spec_run 5 ∅ replay_demo).1.
Proof.
  apply (replay_ledger_refines (MR := key_order_range) (NewMemoryReplayLedgerWithLimits 5 2) ∅ 0 replay_demo).
  - apply New_wf.
  - intros k e He. simpl. reflexivity.
  - vm_compute. intuition congruence.
  - vm_compute. intuition congruence.
Defined.
