(* ===== verification/OAuthState.v ===== *)
(** * OAuth callback state (src/core/oauth_state.go and the callback checks of src/core/service.go)

    The in-memory state store keeps the record of a pending authorization until it is
    consumed, expires or is evicted.  [Service.consumeOAuthCallbackState] consumes the
    record and puts it back when the callback does not match it.  [time.Now()] is read at
    each call: the operations take the time they read. *)

From S2P Require Import Prelude GoStrings GoValues TTLMap Domain.
From Stdlib Require Import ZArith Lia.
From stdpp Require Import base decidable list gmap strings.

Local Open Scope string_scope.
Local Open Scope nat_scope.
Local Open Scope list_scope.

Definition defaultOAuthStateTTL : Duration := (15 * Minute)%Z.
Definition defaultOAuthStateMaxEntries : Z := 4096%Z.

Record OAuthStateRecord := mkOAuthState {
  os_State : string; os_ProviderID : string; os_Scope : ScopeRef; os_RedirectURI : string;
  os_RequestedGrants : list string; os_Metadata : gmap string value;
  os_CreatedAt : Time; os_ExpiresAt : Time }.

Inductive oauth_error :=
| ErrOAuthStateRequired              (* core: oauth state is required *)
| ErrOAuthStateNotFound              (* core: oauth state not found *)
| ErrCallbackStateRequired           (* core: oauth callback state is required *)
| ErrCallbackProviderMismatch
| ErrCallbackScopeMismatch
| ErrCallbackRedirectMismatch
| ErrCallbackRedirectRequired
| ErrRestoreFailed (validation restore : oauth_error).

(** The interface [OAuthStateStore] the service is written against. *)
Class OAuthStateStore (S : Type) := {
  oss_Save : S → Time → OAuthStateRecord → outcome oauth_error unit * S;
  oss_Consume : S → Time → string → outcome oauth_error OAuthStateRecord * S }.

Record MemoryOAuthStateStore := mkOAuthStore {
  oas_ttl : Duration; oas_maxEntries : Z; oas_entries : gmap string OAuthStateRecord }.

Definition oas_with (s : MemoryOAuthStateStore) (entries : gmap string OAuthStateRecord) :=
  mkOAuthStore (oas_ttl s) (oas_maxEntries s) entries.

Definition NewMemoryOAuthStateStoreWithLimits (ttl : Duration) (maxEntries : Z) : MemoryOAuthStateStore :=
  let ttl := if (ttl <=? 0)%Z then defaultOAuthStateTTL else ttl in
  let maxEntries := if (maxEntries <=? 0)%Z then defaultOAuthStateMaxEntries else maxEntries in
  mkOAuthStore ttl maxEntries ∅.

Definition NewMemoryOAuthStateStore (ttl : Duration) : MemoryOAuthStateStore :=
  NewMemoryOAuthStateStoreWithLimits ttl defaultOAuthStateMaxEntries.

Definition cloneOAuthStateRecord (r : OAuthStateRecord) : OAuthStateRecord :=
  mkOAuthState (os_State r) (os_ProviderID r) (os_Scope r) (os_RedirectURI r)
    (os_RequestedGrants r) (copyAnyMap (os_Metadata r)) (os_CreatedAt r) (os_ExpiresAt r).

(** [!record.ExpiresAt.IsZero() && now.After(record.ExpiresAt)] *)
Definition os_expired (now : Time) (r : OAuthStateRecord) : bool :=
  negb (IsZero (os_ExpiresAt r)) && After now (os_ExpiresAt r).

Definition oas_pruneExpiredLocked (now : Time) (entries : gmap string OAuthStateRecord) :=
  delete_where (os_expired now) entries.

(** The times [Save] fills in. *)
Definition os_fill (ttl : Duration) (now : Time) (r : OAuthStateRecord) : OAuthStateRecord :=
  let created := if IsZero (os_CreatedAt r) then now else os_CreatedAt r in
  let expires := if IsZero (os_ExpiresAt r) then addTime created ttl else os_ExpiresAt r in
  mkOAuthState (os_State r) (os_ProviderID r) (os_Scope r) (os_RedirectURI r)
    (os_RequestedGrants r) (os_Metadata r) created expires.

Definition oas_candidateAt (ttl : Duration) (now : Time) (r : OAuthStateRecord) : Time :=
  if IsZero (os_ExpiresAt r)
  then if IsZero (os_CreatedAt r) then now else addTime (os_CreatedAt r) ttl
  else os_ExpiresAt r.

Section store.
Context {MR : MapRange}.

Definition oas_evictOldestLocked (s : MemoryOAuthStateStore) (now : Time)
    (entries : gmap string OAuthStateRecord) : gmap string OAuthStateRecord :=
  let oldest := oldest_scan (oas_candidateAt (oas_ttl s) now) (map_range entries) in
  if negb (String.eqb oldest.1 "") then delete oldest.1 entries else entries.

Definition oas_enforceCapacityLocked (s : MemoryOAuthStateStore) (now : Time) (incoming : Z)
    (entries : gmap string OAuthStateRecord) : gmap string OAuthStateRecord :=
  if (oas_maxEntries s <=? 0)%Z then entries
  else let target := Z.max (oas_maxEntries s - incoming) 0 in
       evict_loop (oas_evictOldestLocked s now) (size entries) target entries.

Definition OAuth_Save (s : MemoryOAuthStateStore) (now : Time) (record : OAuthStateRecord)
    : outcome oauth_error unit * MemoryOAuthStateStore :=
  let state := TrimSpace (os_State record) in
  if String.eqb state "" then (Fail ErrOAuthStateRequired, s)
  else
    let record := os_fill (oas_ttl s) now record in
    let entries := oas_pruneExpiredLocked now (oas_entries s) in
    let entries := match entries !! state with
                   | Some _ => entries
                   | None => oas_enforceCapacityLocked s now 1 entries
                   end in
    (Ok tt, oas_with s (<[state := cloneOAuthStateRecord record]> entries)).

Definition OAuth_Consume (s : MemoryOAuthStateStore) (now : Time) (state : string)
    : outcome oauth_error OAuthStateRecord * MemoryOAuthStateStore :=
  let state := TrimSpace state in
  if String.eqb state "" then (Fail ErrOAuthStateRequired, s)
  else
    let entries := oas_pruneExpiredLocked now (oas_entries s) in
    match entries !! state with
    | Some record =>
      if os_expired now record
      then (Fail ErrOAuthStateNotFound, oas_with s (delete state entries))
      else (Ok (cloneOAuthStateRecord record), oas_with s (delete state entries))
    | None => (Fail ErrOAuthStateNotFound, oas_with s entries)
    end.

#[export] Instance MemoryOAuthStateStore_store : OAuthStateStore MemoryOAuthStateStore :=
  {| oss_Save := OAuth_Save; oss_Consume := OAuth_Consume |}.
End store.

(** ** The service's callback checks (src/core/service.go) *)

Record CompleteAuthRequest := mkCompleteAuth {
  ca_ProviderID : string; ca_Scope : ScopeRef; ca_Code : string; ca_State : string;
  ca_RedirectURI : string; ca_Metadata : gmap string value }.

Definition requireCallbackRedirect (configured : bool) (metadata : gmap string value) : bool :=
  if bool_decide (metadata = ∅) then configured
  else
    let (override, ok) := parseBoolOverride (mapGet metadata "require_callback_redirect") in
    if ok && override then true
    else let (override, ok) := parseBoolOverride (mapGet metadata "strict_redirect_validation") in
         if ok && override then true else configured.

Section service.
Context {S : Type} {store : OAuthStateStore S}.

(** [restoreOnValidationFailure]: [nowSave] is the time the restoring [Save] reads. *)
Definition restoreOnValidationFailure (s : S) (nowSave : Time) (record : OAuthStateRecord)
    (validationErr : oauth_error) : outcome oauth_error OAuthStateRecord * S :=
  match oss_Save s nowSave (cloneOAuthStateRecord record) with
  | (Ok _, s') => (Fail validationErr, s')
  | (Fail saveErr, s') => (Fail (ErrRestoreFailed validationErr saveErr), s')
  end.

Definition consumeOAuthCallbackState (requireRedirect : bool) (s : S) (now nowSave : Time)
    (req : CompleteAuthRequest) : outcome oauth_error OAuthStateRecord * S :=
  let state := TrimSpace (ca_State req) in
  if String.eqb state "" then (Fail ErrCallbackStateRequired, s)
  else
    match oss_Consume s now state with
    | (Fail e, s1) => (Fail e, s1)
    | (Ok record, s1) =>
      if negb (EqualFold (TrimSpace (os_ProviderID record)) (TrimSpace (ca_ProviderID req)))
      then restoreOnValidationFailure s1 nowSave record ErrCallbackProviderMismatch
      else if negb (EqualFold (TrimSpace (scope_Type (os_Scope record))) (TrimSpace (scope_Type (ca_Scope req))))
           || negb (String.eqb (TrimSpace (scope_ID (os_Scope record))) (TrimSpace (scope_ID (ca_Scope req))))
      then restoreOnValidationFailure s1 nowSave record ErrCallbackScopeMismatch
      else
        let savedRedirect := TrimSpace (os_RedirectURI record) in
        let requestRedirect := TrimSpace (ca_RedirectURI req) in
        if negb (String.eqb savedRedirect "") && negb (String.eqb requestRedirect "")
           && negb (String.eqb savedRedirect requestRedirect)
        then restoreOnValidationFailure s1 nowSave record ErrCallbackRedirectMismatch
        else if negb (String.eqb savedRedirect "") && String.eqb requestRedirect ""
                && requireCallbackRedirect requireRedirect (ca_Metadata req)
        then restoreOnValidationFailure s1 nowSave record ErrCallbackRedirectRequired
        else (Ok (cloneOAuthStateRecord record), s1)
    end.
End service.

Definition applyOAuthStateContext (req : CompleteAuthRequest) (record : OAuthStateRecord)
    : CompleteAuthRequest :=
  let redirect :=
    if String.eqb (TrimSpace (ca_RedirectURI req)) "" && negb (String.eqb (TrimSpace (os_RedirectURI record)) "")
    then TrimSpace (os_RedirectURI record) else ca_RedirectURI req in
  let merged := mapsCopy (copyAnyMap (os_Metadata record)) (ca_Metadata req) in
  let merged := match os_RequestedGrants record with
                | [] => merged
                | grants => <["requested_grants" := VStrings grants]> merged
                end in
  mkCompleteAuth (ca_ProviderID req) (ca_Scope req) (ca_Code req) (ca_State req) redirect merged.

(** ** Invariant and behaviour of the in-memory store *)

(** A stored record sits under its trimmed state and has both its times. *)
Definition stored_ok (k : string) (r : OAuthStateRecord) : Prop :=
  TrimSpace (os_State r) = k ∧ (0 < os_CreatedAt r)%Z ∧ os_ExpiresAt r ≠ 0%Z.

Definition store_wf (s : MemoryOAuthStateStore) : Prop :=
  no_empty_key (oas_entries s) ∧ (0 < oas_ttl s)%Z ∧ (0 < oas_maxEntries s)%Z ∧
  (Z.of_nat (size (oas_entries s)) ≤ oas_maxEntries s)%Z ∧
  ∀ k r, oas_entries s !! k = Some r → stored_ok k r.

Lemma cloneOAuthStateRecord_id r : cloneOAuthStateRecord r = r.
Proof. by destruct r. Qed.

Lemma os_fill_stored ttl now k r : stored_ok k r → os_fill ttl now r = r.
Proof.
  intros (_ & Hc & He). unfold os_fill.
  replace (IsZero (os_CreatedAt r)) with false by (symmetry; apply IsZero_false; lia).
  replace (IsZero (os_ExpiresAt r)) with false by (symmetry; by apply IsZero_false).
  by destruct r.
Qed.

Lemma oas_prune_lookup now m k r :
  oas_pruneExpiredLocked now m !! k = Some r ↔ m !! k = Some r ∧ os_expired now r = false.
Proof. apply delete_where_lookup. Qed.

Lemma oas_prune_no_empty now m : no_empty_key m → no_empty_key (oas_pruneExpiredLocked now m).
Proof. unfold no_empty_key, oas_pruneExpiredLocked. rewrite delete_where_None. auto. Qed.

Section store_facts.
Context {MR : MapRange}.

Lemma oas_evict_one s now (m : gmap string OAuthStateRecord) :
  no_empty_key m → m ≠ ∅ →
  no_empty_key (oas_evictOldestLocked s now m) ∧
  Datatypes.S (size (oas_evictOldestLocked s now m)) = size m ∧ oas_evictOldestLocked s now m ⊆ m.
Proof.
  intros Hm Hne. unfold oas_evictOldestLocked.
  destruct (oldest_scan_min (oas_candidateAt (oas_ttl s) now) m Hm Hne) as (Hk & (x & Hx & _) & _).
  destruct (String.eqb_spec (oldest_scan (oas_candidateAt (oas_ttl s) now) (map_range m)).1 ""); [done|].
  simpl. split_and!.
  - unfold no_empty_key in *. rewrite lookup_delete_None. auto.
  - rewrite map_size_delete_Some by eauto.
    assert (size m ≠ 0) by (intros ?%map_size_empty_iff; done). lia.
  - apply delete_subseteq.
Qed.

Lemma oas_enforce_spec s now m :
  no_empty_key m → (0 < oas_maxEntries s)%Z →
  no_empty_key (oas_enforceCapacityLocked s now 1 m) ∧
  (Z.of_nat (size (oas_enforceCapacityLocked s now 1 m)) < oas_maxEntries s)%Z ∧
  oas_enforceCapacityLocked s now 1 m ⊆ m ∧
  ((Z.of_nat (size m) < oas_maxEntries s)%Z → oas_enforceCapacityLocked s now 1 m = m).
Proof.
  intros Hm Hmax. unfold oas_enforceCapacityLocked.
  destruct (Z.leb_spec (oas_maxEntries s) 0); [lia|].
  destruct (evict_loop_spec (oas_evictOldestLocked s now) no_empty_key (oas_evict_one s now)
    (size m) (Z.max (oas_maxEntries s - 1) 0) m Hm) as (H1 & H2 & H3); [lia..|].
  split_and!; auto; [lia|]. intros. apply evict_loop_id. lia.
Qed.

(** [Save] keeps the store well formed for records and clock readings after the zero time. *)
Lemma OAuth_Save_wf s now r :
  store_wf s → (0 < now)%Z → (0 ≤ os_CreatedAt r)%Z → store_wf (OAuth_Save s now r).2.
Proof.
  intros (H1 & H2 & H3 & H4 & H5) Hnow Hr. unfold OAuth_Save.
  destruct (String.eqb_spec (TrimSpace (os_State r)) "") as [|Hne]; [done|]. simpl.
  set (m := oas_pruneExpiredLocked now (oas_entries s)).
  assert (Hm : no_empty_key m) by (by apply oas_prune_no_empty).
  assert (Hsz : (Z.of_nat (size m) ≤ oas_maxEntries s)%Z).
  { pose proof (delete_where_size (os_expired now) (oas_entries s)). unfold m, oas_pruneExpiredLocked. lia. }
  destruct (oas_enforce_spec s now m Hm H3) as (G1 & G2 & G3 & _).
  set (m' := match m !! TrimSpace (os_State r) with Some _ => m | None => oas_enforceCapacityLocked s now 1 m end).
  assert (Hm' : no_empty_key m' ∧ m' ⊆ m ∧
    (Z.of_nat (size (<[TrimSpace (os_State r) := cloneOAuthStateRecord (os_fill (oas_ttl s) now r)]> m')) ≤ oas_maxEntries s)%Z).
  { unfold m'. destruct (m !! TrimSpace (os_State r)) as [x|] eqn:E.
    - split_and!; auto. by rewrite map_size_insert_Some.
    - split_and!; auto. rewrite map_size_insert_None by (by eapply lookup_weaken_None). lia. }
  destruct Hm' as (Hm1 & Hm2 & Hm3). unfold store_wf. simpl. split_and!; auto.
  - unfold no_empty_key. by rewrite lookup_insert_ne.
  - intros k x. rewrite lookup_insert_Some. intros [[<- <-]|[_ Hx]].
    + rewrite cloneOAuthStateRecord_id. unfold stored_ok, os_fill. simpl. split; [done|].
      destruct (IsZero (os_CreatedAt r)) eqn:E1; destruct (IsZero (os_ExpiresAt r)) eqn:E2;
        go_times; unfold addTime; lia.
    + apply H5. eapply lookup_weaken in Hx; [|exact Hm2].
      unfold m in Hx. by apply oas_prune_lookup in Hx as [Hx _].
Qed.

Lemma OAuth_Consume_wf s now st : store_wf s → store_wf (OAuth_Consume s now st).2.
Proof.
  intros (H1 & H2 & H3 & H4 & H5). unfold OAuth_Consume.
  destruct (String.eqb (TrimSpace st) ""); [done|].
  assert (Hwf : ∀ m, m ⊆ oas_entries s → store_wf (oas_with s m)).
  { intros m Hm. unfold store_wf. simpl. split_and!; auto.
    - eapply lookup_weaken_None; eauto.
    - apply map_subseteq_size in Hm. lia.
    - intros k r Hr. apply H5. by eapply lookup_weaken. }
  assert (Hsub : oas_pruneExpiredLocked now (oas_entries s) ⊆ oas_entries s)
    by apply delete_where_subseteq.
  repeat case_match; simpl; apply Hwf; auto; (etrans; [apply delete_subseteq|done]).
Qed.

(** What [Consume] does on each branch. *)
Lemma OAuth_Consume_cases s now st :
  TrimSpace st ≠ "" →
  (∃ r, oas_entries s !! TrimSpace st = Some r ∧ os_expired now r = false ∧
    OAuth_Consume s now st =
      (Ok r, oas_with s (delete (TrimSpace st) (oas_pruneExpiredLocked now (oas_entries s))))) ∨
  ((∀ r, oas_entries s !! TrimSpace st = Some r → os_expired now r = true) ∧
    OAuth_Consume s now st =
      (Fail ErrOAuthStateNotFound, oas_with s (oas_pruneExpiredLocked now (oas_entries s)))).
Proof.
  intros Hne. unfold OAuth_Consume. destruct (String.eqb_spec (TrimSpace st) ""); [done|].
  destruct (oas_pruneExpiredLocked now (oas_entries s) !! TrimSpace st) as [r|] eqn:E.
  - apply oas_prune_lookup in E as [E1 E2]. left. exists r. rewrite E2, cloneOAuthStateRecord_id. auto.
  - right. split; [|done]. intros r Hr. apply delete_where_None in E as [E|(x & Hx & Hd)]; congruence.
Qed.

(** Putting a consumed record back: no other entry is evicted. *)
Lemma restore_exact s now nowSave st r e :
  store_wf s → TrimSpace st ≠ "" → oas_entries s !! TrimSpace st = Some r →
  restoreOnValidationFailure
    (oas_with s (delete (TrimSpace st) (oas_pruneExpiredLocked now (oas_entries s)))) nowSave r e
  = (Fail e, oas_with s (<[TrimSpace st := r]> (oas_pruneExpiredLocked nowSave
      (delete (TrimSpace st) (oas_pruneExpiredLocked now (oas_entries s)))))).
Proof.
  intros (H1 & H2 & H3 & H4 & H5) Hne Hr. destruct (H5 _ _ Hr) as (Hk & Hst).
  unfold restoreOnValidationFailure. simpl. rewrite cloneOAuthStateRecord_id. unfold OAuth_Save.
  rewrite Hk. destruct (String.eqb_spec (TrimSpace st) ""); [done|]. simpl.
  set (m := delete _ _).
  assert (Hm : no_empty_key m) by (unfold m, no_empty_key; rewrite lookup_delete_None; right; by apply oas_prune_no_empty).
  assert (Hsz : (Z.of_nat (size m) < oas_maxEntries s)%Z).
  { assert (size m < size (oas_entries s)); [|lia]. apply map_subset_size, map_subset_alt. split.
    - unfold m. etrans; [apply delete_subseteq|apply delete_where_subseteq].
    - exists (TrimSpace st). split; [unfold m; apply lookup_delete_eq|eauto]. }
  assert (Hp : oas_pruneExpiredLocked nowSave m !! TrimSpace st = None).
  { apply delete_where_None. left. unfold m. apply lookup_delete_eq. }
  rewrite Hp, (os_fill_stored _ _ (TrimSpace st)), cloneOAuthStateRecord_id by (by split).
  do 2 f_equal. unfold oas_with. simpl. f_equal. f_equal.
  apply (oas_enforce_spec (oas_with s m) nowSave); auto using oas_prune_no_empty.
  simpl. pose proof (delete_where_size (os_expired nowSave) m). unfold oas_pruneExpiredLocked. lia.
Qed.

(** The match the service requires between a callback and the record it names. *)
Definition callback_matches (requireRedirect : bool) (req : CompleteAuthRequest) (r : OAuthStateRecord) : Prop :=
  ToLower (TrimSpace (os_ProviderID r)) = ToLower (TrimSpace (ca_ProviderID req)) ∧
  ToLower (TrimSpace (scope_Type (os_Scope r))) = ToLower (TrimSpace (scope_Type (ca_Scope req))) ∧
  TrimSpace (scope_ID (os_Scope r)) = TrimSpace (scope_ID (ca_Scope req)) ∧
  (TrimSpace (os_RedirectURI r) = "" ∨ TrimSpace (os_RedirectURI r) = TrimSpace (ca_RedirectURI req) ∨
   TrimSpace (ca_RedirectURI req) = "" ∧ requireCallbackRedirect requireRedirect (ca_Metadata req) = false).

(** The checks of the callback pass exactly on a match. *)
Lemma consume_checks rr s now nowSave req r s1 :
  TrimSpace (ca_State req) ≠ "" → oss_Consume s now (TrimSpace (ca_State req)) = (Ok r, s1) →
  (callback_matches rr req r ∧ consumeOAuthCallbackState rr s now nowSave req = (Ok r, s1)) ∨
  (¬ callback_matches rr req r ∧
   ∃ e, consumeOAuthCallbackState rr s now nowSave req = restoreOnValidationFailure s1 nowSave r e).
Proof.
  intros Hne Hc. unfold consumeOAuthCallbackState, callback_matches.
  destruct (String.eqb_spec (TrimSpace (ca_State req)) ""); [done|]. rewrite Hc. unfold EqualFold.
  destruct (String.eqb_spec (ToLower (TrimSpace (os_ProviderID r))) (ToLower (TrimSpace (ca_ProviderID req))));
    simpl; [|right; split; [tauto|eauto]].
  destruct (String.eqb_spec (ToLower (TrimSpace (scope_Type (os_Scope r)))) (ToLower (TrimSpace (scope_Type (ca_Scope req)))));
    simpl; [|right; split; [tauto|eauto]].
  destruct (String.eqb_spec (TrimSpace (scope_ID (os_Scope r))) (TrimSpace (scope_ID (ca_Scope req))));
    simpl; [|right; split; [tauto|eauto]].
  destruct (String.eqb_spec (TrimSpace (os_RedirectURI r)) ""); simpl.
  { left. rewrite cloneOAuthStateRecord_id. split; [|done]. tauto. }
  destruct (String.eqb_spec (TrimSpace (ca_RedirectURI req)) ""); simpl.
  - destruct (requireCallbackRedirect rr (ca_Metadata req)) eqn:Erq; simpl.
    + right. split; [|eauto]. intros (_ & _ & _ & [?|[?|[_ ?]]]); congruence.
    + left. rewrite cloneOAuthStateRecord_id. split; [|done]. tauto.
  - destruct (String.eqb_spec (TrimSpace (os_RedirectURI r)) (TrimSpace (ca_RedirectURI req))); simpl.
    + left. rewrite cloneOAuthStateRecord_id. split; [|done]. tauto.
    + right. split; [|eauto]. intros (_ & _ & _ & [?|[?|[? _]]]); congruence.
Qed.

(** An accepted callback names a live record, and takes it out of the store. *)
Lemma consume_accepted rr s now nowSave req r s' :
  store_wf s → consumeOAuthCallbackState rr s now nowSave req = (Ok r, s') →
  TrimSpace (ca_State req) ≠ "" ∧ oas_entries s !! TrimSpace (ca_State req) = Some r ∧ os_expired now r = false ∧
  callback_matches rr req r ∧ store_wf s' ∧ oas_entries s' !! TrimSpace (ca_State req) = None.
Proof.
  intros Hwf Hok.
  destruct (decide (TrimSpace (ca_State req) = "")) as [E|Hne].
  { unfold consumeOAuthCallbackState in Hok. rewrite E in Hok. by simplify_eq/=. }
  destruct (OAuth_Consume_cases s now (TrimSpace (ca_State req))) as [(r0 & Hr0 & Hexp & Hc)|[_ Hc]];
    rewrite ?TrimSpace_idem; auto.
  2: { unfold consumeOAuthCallbackState in Hok. simpl in Hok.
       rewrite Hc in Hok. destruct (String.eqb _ _); simplify_eq. }
  rewrite TrimSpace_idem in *.
  pose proof (OAuth_Consume_wf s now (TrimSpace (ca_State req)) Hwf) as Hwf'.
  destruct (consume_checks rr s now nowSave req r0 _ Hne Hc) as [[Hm Heq]|[_ (e & Heq)]];
    rewrite Heq in Hok.
  2: { rewrite <-(TrimSpace_idem (ca_State req)) in Hok, Hr0, Hne.
       rewrite (restore_exact s now nowSave _ r0 e) in Hok; auto. simplify_eq. }
  simplify_eq. rewrite Hc in Hwf'. simpl in Hwf'. split_and!; auto. simpl. apply lookup_delete_eq.
Qed.

Lemma unknown_state_fails rr s now nowSave req :
  TrimSpace (ca_State req) ≠ "" → oas_entries s !! TrimSpace (ca_State req) = None →
  (consumeOAuthCallbackState rr s now nowSave req).1 = Fail ErrOAuthStateNotFound.
Proof.
  intros Hne Hnone. unfold consumeOAuthCallbackState.
  destruct (String.eqb_spec (TrimSpace (ca_State req)) ""); [done|]. simpl.
  destruct (OAuth_Consume_cases s now (TrimSpace (ca_State req))) as [(r' & Hr' & _)|[_ ->]]; rewrite ?TrimSpace_idem in *; auto.
  congruence.
Qed.


(** A callback that does not match the pending authorization it names does not burn
    it: the check fails, and afterwards the store holds that record again, unchanged, and
    of the other entries exactly those not expired at the two clock readings (nothing is
    evicted for it). *)
Theorem callback_mismatch_restores rr s now nowSave req r :
  store_wf s → TrimSpace (ca_State req) ≠ "" →
  oas_entries s !! TrimSpace (ca_State req) = Some r → os_expired now r = false →
  ¬ callback_matches rr req r →
  let (res, s') := consumeOAuthCallbackState rr s now nowSave req in
  (∃ e, res = Fail e) ∧
  oas_entries s' !! TrimSpace (ca_State req) = Some r ∧
  ∀ k x, k ≠ TrimSpace (ca_State req) →
    oas_entries s' !! k = Some x ↔
    oas_entries s !! k = Some x ∧ os_expired now x = false ∧ os_expired nowSave x = false.
Proof.
  intros Hwf Hne Hr Hexp Hnm. set (st := TrimSpace (ca_State req)) in *.
  assert (Hst : TrimSpace st = st) by apply TrimSpace_idem.
  destruct (OAuth_Consume_cases s now st) as [(r0 & Hr0 & _ & Hc)|[Hall _]]; rewrite Hst in *; auto.
  2: { specialize (Hall _ Hr). congruence. }
  simplify_eq. destruct (consume_checks rr s now nowSave req _ _ Hne Hc) as [[Hm _]|[_ (e & ->)]]; [done|].
  rewrite <-Hst. rewrite restore_exact by (rewrite ?Hst; auto). rewrite Hst. simpl. split_and!.
  - eauto.
  - by rewrite lookup_insert_eq.
  - intros k x Hk. rewrite lookup_insert_ne by done.
    rewrite oas_prune_lookup, lookup_delete_ne, oas_prune_lookup by done. tauto.
Qed.
End store_facts.

(** ** A concrete run *)

Definition demo_record : OAuthStateRecord :=
  mkOAuthState " st-1" "github" (mkScopeRef "user" "u1") "https://app/cb" ["repo"] ∅ 100 0.
Definition demo_store : MemoryOAuthStateStore :=
  (OAuth_Save (MR := key_order_range) (NewMemoryOAuthStateStoreWithLimits 1000 2) 100 demo_record).2.
Definition demo_request (provider : string) : CompleteAuthRequest :=
  mkCompleteAuth provider (mkScopeRef "USER" "u1") "code" "st-1 " "https://app/cb" ∅.

Lemma demo_store_wf : store_wf demo_store.
Proof.
  apply OAuth_Save_wf; [|lia|simpl; lia].
  unfold store_wf, NewMemoryOAuthStateStoreWithLimits, no_empty_key. simpl.
  rewrite map_size_empty. split_and!; done || lia.
Qed.


Lemma callback_mismatch_restores_witness :
  let run := consumeOAuthCallbackState (store := MemoryOAuthStateStore_store (MR := key_order_range)) in
  let first := run true demo_store 200%Z 200%Z (demo_request "gitlab") in
  first.1 = Fail ErrCallbackProviderMismatch ∧
  oas_entries first.2 !! "st-1" = Some (os_fill 1000 100 demo_record).
Proof.
  intros run first.
  pose proof (callback_mismatch_restores (MR := key_order_range) true demo_store 200 200
    (demo_request "gitlab") (os_fill 1000 100 demo_record) demo_store_wf) as H.
  split; [vm_compute; reflexivity|].
  assert (H1 : TrimSpace (ca_State (demo_request "gitlab")) ≠ "") by (vm_compute; discriminate).
  assert (H2 : ¬ callback_matches true (demo_request "gitlab") (os_fill 1000 100 demo_record)).
  { intros (E & _). vm_compute in E. discriminate E. }
  specialize (H H1 eq_refl eq_refl H2).
  unfold first, run. destruct (consumeOAuthCallbackState true demo_store 200 200 (demo_request "gitlab")).
  exact (proj1 (proj2 H)).
Defined.
