(* ===== verification/Contracts.v ===== *)
(** * Contract types shared by the components (src/core/contracts.go)

    The request, result and descriptor structs the modelled operations exchange, with the
    source's fields in the source's order.  Byte slices are byte strings; a nil map is the
    empty one. *)

From S2P Require Import Prelude GoStrings GoValues Domain.
From Stdlib Require Import ZArith Lia.
From stdpp Require Import base decidable list gmap strings.

Local Open Scope string_scope.

(** ** Capabilities and grants *)

Definition CapabilityDeniedBehaviorBlock := "block".
Definition CapabilityDeniedBehaviorDegrade := "degrade".

Record CapabilityDescriptor := mkCapability {
  cap_Name : string; cap_RequiredGrants : list string; cap_OptionalGrants : list string;
  cap_DeniedBehavior : string }.

Record PermissionDecision := mkDecision {
  pd_Allowed : bool; pd_Capability : string; pd_Reason : string;
  pd_MissingGrants : list string; pd_Mode : string }.

Record SaveGrantSnapshotInput := mkSaveSnapshot {
  sgs_ConnectionID : string; sgs_Version : Z; sgs_Requested : list string;
  sgs_Granted : list string; sgs_CapturedAt : Time; sgs_Metadata : gmap string value }.

Record GrantSnapshot := mkSnapshot {
  gs_ConnectionID : string; gs_Version : Z; gs_Requested : list string;
  gs_Granted : list string; gs_CapturedAt : Time; gs_Metadata : gmap string value }.

Record AppendGrantEventInput := mkGrantEvent {
  ge_ConnectionID : string; ge_EventType : string; ge_Added : list string;
  ge_Removed : list string; ge_OccurredAt : Time; ge_Metadata : gmap string value }.

(** ** Credentials in use *)

Record ActiveCredential := mkActiveCredential {
  ac_ConnectionID : string; ac_TokenType : string; ac_AccessToken : string;
  ac_RefreshToken : string; ac_RequestedScopes : list string; ac_GrantedScopes : list string;
  ac_ExpiresAt : option Time; ac_Refreshable : bool; ac_RotatesAt : option Time;
  ac_Metadata : gmap string value }.

Record RefreshResult := mkRefreshResult {
  rr_Credential : ActiveCredential; rr_GrantedGrants : list string;
  rr_Metadata : gmap string value }.

(** ** Connection resolution *)

Definition ConnectionResolutionDirect := "direct".
Definition ConnectionResolutionInherited := "inherited".
Definition ConnectionResolutionAmbiguous := "ambiguous".
Definition ConnectionResolutionNotFound := "not_found".

Record ConnectionResolution := mkResolution {
  res_Outcome : string; res_Connection : Connection; res_Parent : option Connection;
  res_Reason : string }.

(** ** Inbound traffic *)

Record InboundRequest := mkInboundRequest {
  in_ProviderID : string; in_Surface : string; in_Headers : gmap string string;
  in_Body : string; in_Metadata : gmap string value }.

Record InboundResult := mkInboundResult {
  ir_Accepted : bool; ir_StatusCode : Z; ir_Metadata : gmap string value }.

Definition emptyInboundResult : InboundResult := mkInboundResult false 0 ∅.

Definition StatusOK : Z := 200.
Definition StatusBadRequest : Z := 400.
Definition StatusUnauthorized : Z := 401.
Definition StatusForbidden : Z := 403.
Definition StatusNotFound : Z := 404.
Definition StatusConflict : Z := 409.
Definition StatusTooManyRequests : Z := 429.
Definition StatusInternalServerError : Z := 500.
Definition StatusBadGateway : Z := 502.
Definition StatusServiceUnavailable : Z := 503.
Definition StatusGatewayTimeout : Z := 504.

(** ** Rate limiting *)

Record RateLimitKey := mkRateLimitKey {
  rk_ProviderID : string; rk_ScopeType : string; rk_ScopeID : string; rk_BucketKey : string }.

#[export] Instance RateLimitKey_eq_dec : EqDecision RateLimitKey.
Proof. solve_decision. Defined.

Record ProviderResponseMeta := mkResponseMeta {
  rm_StatusCode : Z; rm_Headers : gmap string string; rm_RetryAfter : option Duration;
  rm_Metadata : gmap string value }.

(** ** Outbox dispatch *)

Record DispatchStats := mkDispatchStats {
  ds_Claimed : Z; ds_Delivered : Z; ds_Retried : Z; ds_Failed : Z }.

(** ** Store and collaborator interfaces

    An interface is a class of state-passing operations: the state type is whatever the
    implementation keeps, and every operation returns its error as a value. *)

(** What a store call reads from its environment: the clock, a fresh uuid, and the
    database's verdict on the n-th statement of the call ([Some err] when it fails). *)
Record CallEnv := mkEnv { env_now : Time; env_uuid : string; env_fault : nat → option string }.

Definition quiet (now : Time) (uuid : string) : CallEnv := mkEnv now uuid (λ _, None).

Class IdempotencyClaimStore (E S : Type) := {
  ics_Claim : S → Time → string → Duration → outcome E (string * bool) * S;
  ics_Complete : S → Time → string → outcome E unit * S;
  ics_Fail : S → Time → string → Time → outcome E unit * S }.

(** The grant store of a database [W]; [gst_SaveSnapshotAndEvent] is its transactional extension
    ([GrantStoreTransactional]). *)
Class GrantStore (E W : Type) := {
  gst_SaveSnapshot : W → CallEnv → SaveGrantSnapshotInput → outcome E unit * W;
  gst_GetLatestSnapshot : W → CallEnv → string → outcome E (option GrantSnapshot);
  gst_AppendEvent : W → CallEnv → AppendGrantEventInput → outcome E unit * W;
  gst_SaveSnapshotAndEvent : W → CallEnv → SaveGrantSnapshotInput → option AppendGrantEventInput → outcome E unit * W }.
