(* ===== verification/ClaimStore.v ===== *)
(** * The idempotency claim store (src/inbound/dispatcher.go, [InMemoryClaimStore])

    A key is claimed for a lease; the claimant completes or fails the claim by its id.
    The mutex makes the methods atomic; [Now] is the time each of them reads. *)

From S2P Require Import Prelude GoStrings GoValues Domain Contracts.
From Stdlib Require Import ZArith Lia.
From stdpp Require Import base decidable list gmap strings.

Local Open Scope string_scope.
Local Open Scope nat_scope.
Local Open Scope list_scope.

Definition claimStatusProcessing := "processing".
Definition claimStatusRetryReady := "retry_ready".
Definition claimStatusComplete := "complete".

Record claimEntry := mkClaimEntry {
  ce_Key : string; ce_Status : string; ce_ClaimID : string; ce_Attempts : Z;
  ce_KeyTTL : Duration; ce_LeaseExpiresAt : Time; ce_RetryAt : Time }.

Inductive claim_error := ErrClaimKeyRequired | ErrClaimIDRequired.

Record InMemoryClaimStore := mkClaimStore {
  cst_entries : gmap string claimEntry; cst_claims : gmap string string; cst_nextID : Z }.

Definition NewInMemoryClaimStore : InMemoryClaimStore := mkClaimStore ∅ ∅ 0.

Definition claim_id (n : Z) : string := "claim_" +:+ Itoa n.

(** [nextClaimID]: the incremented counter and the id printed from it. *)
Definition nextClaimID (s : InMemoryClaimStore) : string * Z :=
  (claim_id (cst_nextID s + 1), cst_nextID s + 1)%Z.

(** The entries [evictExpiredLocked] drops. *)
Definition ce_evictable (now : Time) (e : claimEntry) : bool :=
  String.eqb (ce_Status e) claimStatusComplete
  && (IsZero (ce_LeaseExpiresAt e) || negb (Before now (ce_LeaseExpiresAt e))).

Definition evicted_claim_ids (now : Time) (entries : gmap string claimEntry) : list string :=
  filter (λ id, id ≠ "")
    ((λ kv, ce_ClaimID kv.2) <$> filter (λ kv, ce_evictable now kv.2 = true) (map_to_list entries)).

Definition evictExpiredLocked (s : InMemoryClaimStore) (now : Time) : InMemoryClaimStore :=
  mkClaimStore (delete_where (ce_evictable now) (cst_entries s))
    (filter (λ kv, kv.1 ∉ evicted_claim_ids now (cst_entries s)) (cst_claims s))
    (cst_nextID s).

(** The [switch entry.Status] of [Claim]: does the entry turn the claim away? *)
Definition ce_blocks (now : Time) (e : claimEntry) : bool :=
  if String.eqb (ce_Status e) claimStatusComplete
  then negb (IsZero (ce_LeaseExpiresAt e)) && Before now (ce_LeaseExpiresAt e)
  else if String.eqb (ce_Status e) claimStatusProcessing
  then Before now (ce_LeaseExpiresAt e)
  else if String.eqb (ce_Status e) claimStatusRetryReady
  then negb (IsZero (ce_RetryAt e)) && Before now (ce_RetryAt e)
  else false.

Definition Claims_Claim (s : InMemoryClaimStore) (now : Time) (key : string) (lease : Duration)
    : outcome claim_error (string * bool) * InMemoryClaimStore :=
  let key := TrimSpace key in
  if String.eqb key "" then (Fail ErrClaimKeyRequired, s)
  else
    let lease := if (lease <=? 0)%Z then (10 * Minute)%Z else lease in
    let s := evictExpiredLocked s now in
    let (claimID, nextID) := nextClaimID s in
    match cst_entries s !! key with
    | None =>
      let entry := mkClaimEntry key claimStatusProcessing claimID 1 lease (addTime now lease) zeroTime in
      (Ok (claimID, true),
       mkClaimStore (<[key := entry]> (cst_entries s)) (<[claimID := key]> (cst_claims s)) nextID)
    | Some entry =>
      if ce_blocks now entry then (Ok ("", false), s)
      else
        let claims := if negb (String.eqb (ce_ClaimID entry) "")
                      then delete (ce_ClaimID entry) (cst_claims s) else cst_claims s in
        let entry := mkClaimEntry (ce_Key entry) claimStatusProcessing claimID
          (ce_Attempts entry + 1) lease (addTime now lease) zeroTime in
        (Ok (claimID, true),
         mkClaimStore (<[key := entry]> (cst_entries s)) (<[claimID := key]> claims) nextID)
    end.

(** The entry a claim id still owns: [Complete] and [Fail] act on nothing else. *)
Definition owned_entry (s : InMemoryClaimStore) (claimID key : string) : option claimEntry :=
  match cst_entries s !! key with
  | Some e => if String.eqb (ce_ClaimID e) claimID && String.eqb (ce_Status e) claimStatusProcessing
              then Some e else None
  | None => None
  end.

Definition Claims_Complete (s : InMemoryClaimStore) (now : Time) (claimID : string)
    : outcome claim_error unit * InMemoryClaimStore :=
  let claimID := TrimSpace claimID in
  if String.eqb claimID "" then (Fail ErrClaimIDRequired, s)
  else match cst_claims s !! claimID with
  | None => (Ok tt, s)
  | Some key =>
    match owned_entry s claimID key with
    | None => (Ok tt, mkClaimStore (cst_entries s) (delete claimID (cst_claims s)) (cst_nextID s))
    | Some entry =>
      let ttl := if (ce_KeyTTL entry <=? 0)%Z then (10 * Minute)%Z else ce_KeyTTL entry in
      let entry := mkClaimEntry (ce_Key entry) claimStatusComplete (ce_ClaimID entry)
        (ce_Attempts entry) (ce_KeyTTL entry) (addTime now ttl) zeroTime in
      (Ok tt, mkClaimStore (<[key := entry]> (cst_entries s)) (delete claimID (cst_claims s)) (cst_nextID s))
    end
  end.

Definition Claims_Fail (s : InMemoryClaimStore) (now : Time) (claimID : string) (retryAt : Time)
    : outcome claim_error unit * InMemoryClaimStore :=
  let claimID := TrimSpace claimID in
  if String.eqb claimID "" then (Fail ErrClaimIDRequired, s)
  else match cst_claims s !! claimID with
  | None => (Ok tt, s)
  | Some key =>
    match owned_entry s claimID key with
    | None => (Ok tt, mkClaimStore (cst_entries s) (delete claimID (cst_claims s)) (cst_nextID s))
    | Some entry =>
      let retryAt := if IsZero retryAt then now else retryAt in
      let entry := mkClaimEntry (ce_Key entry) claimStatusRetryReady (ce_ClaimID entry)
        (ce_Attempts entry) (ce_KeyTTL entry) zeroTime retryAt in
      (Ok tt, mkClaimStore (<[key := entry]> (cst_entries s)) (delete claimID (cst_claims s)) (cst_nextID s))
    end
  end.

#[export] Instance InMemoryClaimStore_store : IdempotencyClaimStore claim_error InMemoryClaimStore :=
  {| ics_Claim := Claims_Claim; ics_Complete := Claims_Complete; ics_Fail := Claims_Fail |}.

(** ** Sequences of store calls *)

Inductive claim_op :=
| OpClaim (now : Time) (key : string) (lease : Duration)
| OpComplete (now : Time) (claimID : string)
| OpFail (now : Time) (claimID : string) (retryAt : Time).

Definition op_time (op : claim_op) : Time :=
  match op with OpClaim now _ _ | OpComplete now _ | OpFail now _ _ => now end.

Definition claim_step (s : InMemoryClaimStore) (op : claim_op) : InMemoryClaimStore :=
  match op with
  | OpClaim now key lease => (Claims_Claim s now key lease).2
  | OpComplete now claimID => (Claims_Complete s now claimID).2
  | OpFail now claimID retryAt => (Claims_Fail s now claimID retryAt).2
  end.

Definition claim_run : InMemoryClaimStore → list claim_op → InMemoryClaimStore := foldl claim_step.

Definition reachable_store (s : InMemoryClaimStore) : Prop :=
  ∃ ops, s = claim_run NewInMemoryClaimStore ops.

(** ** Invariant of the reachable stores *)

Record claims_wf (s : InMemoryClaimStore) : Prop := {
  (* a registered id is the id of the processing entry it points to, and conversely *)
  wf_claim_owned : ∀ id key, cst_claims s !! id = Some key →
    ∃ e, cst_entries s !! key = Some e ∧ ce_ClaimID e = id ∧ ce_Status e = claimStatusProcessing;
  wf_owned_claim : ∀ key e, cst_entries s !! key = Some e → ce_Status e = claimStatusProcessing →
    cst_claims s !! ce_ClaimID e = Some key;
  (* ids come from the counter and are not shared *)
  wf_id : ∀ key e, cst_entries s !! key = Some e →
    ∃ n, (1 ≤ n ≤ cst_nextID s)%Z ∧ ce_ClaimID e = claim_id n;
  wf_id_unique : ∀ k1 k2 e1 e2, cst_entries s !! k1 = Some e1 → cst_entries s !! k2 = Some e2 →
    ce_ClaimID e1 = ce_ClaimID e2 → k1 = k2;
  wf_counter : (0 ≤ cst_nextID s)%Z;
}.

Lemma claim_id_inj n m : claim_id n = claim_id m → n = m.
Proof. unfold claim_id. intros H. apply Itoa_inj. by apply (inj (String.app "claim_")) in H. Qed.
Lemma claim_id_nonempty n : claim_id n ≠ "".
Proof. done. Qed.
Lemma claim_id_trim n : (0 ≤ n)%Z → TrimSpace (claim_id n) = claim_id n.
Proof.
  intros Hn. apply TrimSpace_visible. unfold claim_id. simpl.
  repeat (constructor; [done|]). by apply Itoa_visible.
Qed.

Lemma evicted_ids_In now m id :
  id ∈ evicted_claim_ids now m ↔
  id ≠ "" ∧ ∃ k e, m !! k = Some e ∧ ce_evictable now e = true ∧ ce_ClaimID e = id.
Proof.
  unfold evicted_claim_ids. rewrite list_elem_of_filter, list_elem_of_fmap. split.
  - intros [Hne ([k e] & -> & Hin)]. apply list_elem_of_filter in Hin as [Hev Hin].
    apply elem_of_map_to_list in Hin. eauto 10.
  - intros [Hne (k & e & Hk & Hev & <-)]. split; [done|]. exists (k, e). split; [done|].
    apply list_elem_of_filter. split; [done|]. by apply elem_of_map_to_list.
Qed.

Lemma evictable_status now e : ce_evictable now e = true → ce_Status e = claimStatusComplete.
Proof. unfold ce_evictable. intros [H _]%andb_true_iff. by apply String.eqb_eq. Qed.

(** Eviction changes the entries alone: a complete entry has no registered id. *)
Lemma evict_claims s now : claims_wf s → cst_claims (evictExpiredLocked s now) = cst_claims s.
Proof.
  intros Hwf. apply map_eq. intros id. apply option_eq. intros key. simpl.
  rewrite map_lookup_filter_Some. split; [tauto|]. intros Hid. split; [done|]. simpl.
  rewrite evicted_ids_In. intros (_ & k & e & Hk & Hev & Hce).
  destruct (wf_claim_owned s Hwf _ _ Hid) as (e' & He' & Hid' & Hst).
  assert (key = k) as -> by (apply (wf_id_unique s Hwf key k e' e); auto; congruence).
  apply evictable_status in Hev. simplify_eq. rewrite Hst in Hev. done.
Qed.

Lemma evict_wf s now : claims_wf s → claims_wf (evictExpiredLocked s now).
Proof.
  intros Hwf. pose proof (evict_claims s now Hwf) as Hc. destruct Hwf as [H1 H2 H3 H4 H5].
  split; rewrite ?Hc; simpl; auto.
  - intros id key (e & He & Hid & Hst)%H1. exists e. split_and!; auto.
    apply delete_where_lookup. split; [done|]. unfold ce_evictable. by rewrite Hst.
  - intros key e [He _]%delete_where_lookup Hst. eauto.
  - intros key e [He _]%delete_where_lookup. eauto.
  - intros k1 k2 e1 e2 [He1 _]%delete_where_lookup [He2 _]%delete_where_lookup. eauto.
Qed.

Lemma evict_keeps s now key e :
  cst_entries s !! key = Some e → ce_evictable now e = false →
  cst_entries (evictExpiredLocked s now) !! key = Some e.
Proof. intros. simpl. by apply delete_where_lookup. Qed.

Lemma evict_other s now key e :
  cst_entries (evictExpiredLocked s now) !! key = Some e → cst_entries s !! key = Some e.
Proof. simpl. by intros [? _]%delete_where_lookup. Qed.

(** A claim is turned away exactly by an entry that blocks it. *)
Definition blocked (s : InMemoryClaimStore) (now : Time) (key : string) : bool :=
  match cst_entries s !! key with Some e => ce_blocks now e | None => false end.

Lemma blocks_not_evictable now e : ce_blocks now e = true → ce_evictable now e = false.
Proof.
  unfold ce_blocks, ce_evictable. intros H.
  destruct (String.eqb (ce_Status e) claimStatusComplete); [|done]. simpl.
  apply andb_true_iff in H as [H1 H2]. rewrite negb_true_iff in H1. by rewrite H1, H2.
Qed.

Definition effective_lease (lease : Duration) : Duration := if (lease <=? 0)%Z then (10 * Minute)%Z else lease.

(** [Claim] on every branch: an id is handed out exactly when nothing blocks the key, and
    then the key's entry is processing under a fresh id until the end of the lease. *)
Lemma Claim_cases s now key lease :
  claims_wf s → TrimSpace key ≠ "" →
  (blocked s now (TrimSpace key) = true ∧
   Claims_Claim s now key lease = (Ok ("", false), evictExpiredLocked s now)) ∨
  (blocked s now (TrimSpace key) = false ∧
   ∃ attempts claims k0, let id := claim_id (cst_nextID s + 1) in
     Claims_Claim s now key lease =
       (Ok (id, true),
        mkClaimStore (<[TrimSpace key := mkClaimEntry k0 claimStatusProcessing id attempts (effective_lease lease)
            (addTime now (effective_lease lease)) zeroTime]> (cst_entries (evictExpiredLocked s now)))
          (<[id := TrimSpace key]> claims) (cst_nextID s + 1)%Z) ∧
     (∀ id' key', claims !! id' = Some key' ↔ cst_claims s !! id' = Some key' ∧
        ¬ ∃ e, cst_entries (evictExpiredLocked s now) !! TrimSpace key = Some e ∧ ce_ClaimID e = id')).
Proof.
  intros Hwf Hk. unfold Claims_Claim, blocked. destruct (String.eqb_spec (TrimSpace key) ""); [done|].
  cbv zeta. fold (effective_lease lease). simpl nextClaimID. cbv iota beta.
  destruct (cst_entries (evictExpiredLocked s now) !! TrimSpace key) as [e|] eqn:E.
  - pose proof (evict_other _ _ _ _ E) as E'. rewrite E'.
    destruct (ce_blocks now e) eqn:Hb; [by left|right]. split; [done|].
    pose proof (wf_id _ Hwf _ _ E') as (num & _ & Hid).
    destruct (String.eqb_spec (ce_ClaimID e) "") as [Hn|_]; [rewrite Hid in Hn; done|].
    do 3 eexists. split; [reflexivity|]. intros id' key'. simpl negb. cbv iota.
    rewrite lookup_delete_Some, evict_claims by done. naive_solver.
  - right. split.
    + destruct (cst_entries s !! TrimSpace key) as [e|] eqn:E'; [|done].
      destruct (ce_blocks now e) eqn:Hb; [|done]. apply blocks_not_evictable in Hb.
      by rewrite (evict_keeps s now _ e E' Hb) in E.
    + do 3 eexists. split; [reflexivity|]. intros id' key'. rewrite evict_claims by done. naive_solver.
Qed.

Lemma Claim_wf s now key lease : claims_wf s → claims_wf (Claims_Claim s now key lease).2.
Proof.
  intros Hwf. destruct (decide (TrimSpace key = "")) as [E|Hk].
  { unfold Claims_Claim. by rewrite E. }
  destruct (Claim_cases s now key lease Hwf Hk) as [[_ ->]|(_ & a & claims & k0 & -> & Hcl)];
    [by apply evict_wf|].
  pose proof (evict_wf s now Hwf) as [H1 H2 H3 H4 H5]. rewrite evict_claims in H1, H2 by done.
  set (m := cst_entries (evictExpiredLocked s now)) in *. simpl in H3, H5.
  assert (Hfresh : ∀ k e, m !! k = Some e → ce_ClaimID e ≠ claim_id (cst_nextID s + 1)).
  { intros k e He Hid. destruct (H3 k e He) as (n & Hn & Hid'). rewrite Hid' in Hid.
    apply claim_id_inj in Hid. lia. }
  split; simpl.
  - intros id key'. rewrite lookup_insert_Some. intros [[<- <-]|[Hne Hid]].
    + rewrite lookup_insert_eq. eauto.
    + apply Hcl in Hid as [Hid Hd].
      destruct (H1 id key' Hid) as (e & He & Hid' & Hst).
      rewrite lookup_insert_ne; [eauto|]. intros <-. apply Hd. eauto.
  - intros key' e. rewrite lookup_insert_Some. intros [[<- <-]|[Hne He]] Hst; simpl.
    + by rewrite lookup_insert_eq.
    + rewrite lookup_insert_ne by (intros Hid; by eapply Hfresh). apply Hcl.
      split; [eauto|]. intros (e' & He' & Hid). apply Hne. by eapply H4.
  - intros key' e. rewrite lookup_insert_Some. intros [[<- <-]|[Hne He]]; simpl.
    + exists (cst_nextID s + 1)%Z. split; [lia|done].
    + destruct (H3 _ _ He) as (n & Hn & ->). exists n. split; [lia|done].
  - intros k1 k2 e1 e2. rewrite !lookup_insert_Some.
    intros [[<- <-]|[Hne1 He1]] [[<- <-]|[Hne2 He2]] Hid; simpl in *; try done.
    + exfalso. by eapply Hfresh.
    + exfalso. by eapply Hfresh.
    + by eapply H4.
  - lia.
Qed.

(** Settling a claim (completing or failing it): only the entry the id owns changes. *)
Definition settled (s : InMemoryClaimStore) (id : string) (f : claimEntry → claimEntry) : InMemoryClaimStore :=
  match cst_claims s !! id with
  | Some key =>
    mkClaimStore (match cst_entries s !! key with
                  | Some e => <[key := f e]> (cst_entries s) | None => cst_entries s end)
      (delete id (cst_claims s)) (cst_nextID s)
  | None => s
  end.

Definition complete_entry (now : Time) (e : claimEntry) : claimEntry :=
  mkClaimEntry (ce_Key e) claimStatusComplete (ce_ClaimID e) (ce_Attempts e) (ce_KeyTTL e)
    (addTime now (effective_lease (ce_KeyTTL e))) zeroTime.
Definition fail_entry (now retryAt : Time) (e : claimEntry) : claimEntry :=
  mkClaimEntry (ce_Key e) claimStatusRetryReady (ce_ClaimID e) (ce_Attempts e) (ce_KeyTTL e)
    zeroTime (if IsZero retryAt then now else retryAt).

Lemma owned_claimed s id key :
  claims_wf s → cst_claims s !! id = Some key →
  ∃ e, cst_entries s !! key = Some e ∧ ce_ClaimID e = id ∧ owned_entry s id key = Some e.
Proof.
  intros Hwf (e & He & Hid & Hst)%(wf_claim_owned s Hwf). exists e. split_and!; auto.
  unfold owned_entry. rewrite He, Hid, Hst. by rewrite String.eqb_refl.
Qed.

Lemma Complete_settled s now id :
  claims_wf s → (Claims_Complete s now id).2 = settled s (TrimSpace id) (complete_entry now).
Proof.
  intros Hwf. unfold Claims_Complete, settled. destruct (String.eqb_spec (TrimSpace id) "") as [->|].
  - destruct (cst_claims s !! "") as [key|] eqn:E; [|done].
    destruct (wf_claim_owned s Hwf _ _ E) as (e & He & Hid & _).
    destruct (wf_id s Hwf _ _ He) as (n & _ & Hn). rewrite Hid in Hn. done.
  - destruct (cst_claims s !! TrimSpace id) as [key|] eqn:E; [|done].
    destruct (owned_claimed s _ _ Hwf E) as (e & He & _ & ->). by rewrite He.
Qed.

Lemma Fail_settled s now id retryAt :
  claims_wf s → (Claims_Fail s now id retryAt).2 = settled s (TrimSpace id) (fail_entry now retryAt).
Proof.
  intros Hwf. unfold Claims_Fail, settled. destruct (String.eqb_spec (TrimSpace id) "") as [->|].
  - destruct (cst_claims s !! "") as [key|] eqn:E; [|done].
    destruct (wf_claim_owned s Hwf _ _ E) as (e & He & Hid & _).
    destruct (wf_id s Hwf _ _ He) as (n & _ & Hn). rewrite Hid in Hn. done.
  - destruct (cst_claims s !! TrimSpace id) as [key|] eqn:E; [|done].
    destruct (owned_claimed s _ _ Hwf E) as (e & He & _ & ->). by rewrite He.
Qed.

Lemma settled_wf s id f :
  (∀ e, ce_ClaimID (f e) = ce_ClaimID e ∧ ce_Status (f e) ≠ claimStatusProcessing) →
  claims_wf s → claims_wf (settled s id f).
Proof.
  intros Hf Hwf. unfold settled. destruct (cst_claims s !! id) as [key|] eqn:E; [|done].
  destruct (owned_claimed s _ _ Hwf E) as (e & He & Hid & _). rewrite He.
  destruct Hwf as [H1 H2 H3 H4 H5]. destruct (Hf e) as [Hf1 Hf2]. split; simpl; auto.
  - intros id' key'. rewrite lookup_delete_Some. intros [Hne Hid']. destruct (H1 _ _ Hid') as (e' & He' & Hide' & Hst).
    rewrite lookup_insert_ne; [eauto|]. intros <-. simplify_eq.
  - intros key' e'. rewrite lookup_insert_Some. intros [[<- <-]|[Hne He']] Hst; [done|].
    rewrite lookup_delete_ne; [eauto|]. intros Heq. apply Hne. apply (H4 key key' e e'); auto; congruence.
  - intros key' e'. rewrite lookup_insert_Some. intros [[<- <-]|[Hne He']]; [rewrite Hf1|]; eauto.
  - intros k1 k2 e1 e2. rewrite !lookup_insert_Some.
    intros [[<- <-]|[Hne1 He1]] [[<- <-]|[Hne2 He2]] Heq; rewrite ?Hf1 in Heq; try done; by eapply H4.
Qed.

Lemma claim_step_wf s op : claims_wf s → claims_wf (claim_step s op).
Proof.
  intros Hwf. destruct op; simpl.
  - by apply Claim_wf.
  - rewrite Complete_settled by done. by apply settled_wf.
  - rewrite Fail_settled by done. by apply settled_wf.
Qed.

Lemma claim_run_wf s ops : claims_wf s → claims_wf (claim_run s ops).
Proof. revert s. induction ops as [|op ops IH]; intros s Hs; simpl; auto using claim_step_wf. Qed.

Lemma reachable_wf s : reachable_store s → claims_wf s.
Proof.
  intros [ops ->]. apply claim_run_wf. unfold NewInMemoryClaimStore.
  split; simpl; try (intros *; by rewrite lookup_empty). lia.
Qed.

(** ** Entries that a sequence of calls cannot touch *)

Definition op_spares (k : string) (e : claimEntry) (op : claim_op) : Prop :=
  match op with
  | OpClaim t key _ => ce_evictable t e = false ∧ (TrimSpace key = k → ce_blocks t e = true)
  | OpComplete _ id | OpFail _ id _ => ce_Status e = claimStatusProcessing → TrimSpace id ≠ ce_ClaimID e
  end.

Lemma settled_spares s id f k e :
  claims_wf s → cst_entries s !! k = Some e → (ce_Status e = claimStatusProcessing → id ≠ ce_ClaimID e) →
  cst_entries (settled s id f) !! k = Some e.
Proof.
  intros Hwf He Hsp. unfold settled. destruct (cst_claims s !! id) as [key|] eqn:E; [|done].
  destruct (wf_claim_owned s Hwf _ _ E) as (e' & He' & Hid & Hst). rewrite He'. simpl.
  rewrite lookup_insert_ne; [done|]. intros ->. simplify_eq. by apply Hsp.
Qed.

Lemma claim_step_spares s op k e :
  claims_wf s → cst_entries s !! k = Some e → op_spares k e op →
  cst_entries (claim_step s op) !! k = Some e.
Proof.
  intros Hwf He. destruct op as [t key lease|t id|t id retryAt]; simpl.
  - intros [Hev Hbl]. destruct (decide (TrimSpace key = "")) as [E|Hk].
    { unfold Claims_Claim. by rewrite E. }
    pose proof (evict_keeps s t k e He Hev) as He'.
    destruct (Claim_cases s t key lease Hwf Hk) as [[_ ->]|(Hb & a & claims & k0 & -> & _)]; [done|].
    simpl. rewrite lookup_insert_ne; [done|]. intros Heq. unfold blocked in Hb.
    rewrite Heq, He, Hbl in Hb by done. done.
  - intros. rewrite Complete_settled by done. by apply settled_spares.
  - intros. rewrite Fail_settled by done. by apply settled_spares.
Qed.

Lemma claim_run_spares s ops k e :
  claims_wf s → cst_entries s !! k = Some e → Forall (op_spares k e) ops →
  cst_entries (claim_run s ops) !! k = Some e.
Proof.
  intros Hwf He Hops. revert s Hwf He. induction Hops as [|op ops Hop _ IH]; intros s Hwf He; simpl; [done|].
  apply IH; [by apply claim_step_wf|by apply claim_step_spares].
Qed.

Lemma blocked_claim_refused s t key lease e :
  claims_wf s → TrimSpace key ≠ "" → cst_entries s !! TrimSpace key = Some e → ce_blocks t e = true →
  (Claims_Claim s t key lease).1 = Ok ("", false).
Proof.
  intros Hwf Hk He Hb. destruct (Claim_cases s t key lease Hwf Hk) as [[_ ->]|[Hnb _]]; [done|].
  unfold blocked in Hnb. rewrite He in Hnb. congruence.
Qed.

(** An accepted claim leaves its key processing under the id it returned. *)
Lemma Claim_accepted s now key lease id s' :
  claims_wf s → Claims_Claim s now key lease = (Ok (id, true), s') →
  TrimSpace key ≠ "" ∧ id = claim_id (cst_nextID s + 1) ∧ cst_nextID s' = (cst_nextID s + 1)%Z ∧
  ∃ e, cst_entries s' !! TrimSpace key = Some e ∧ ce_ClaimID e = id ∧
       ce_Status e = claimStatusProcessing ∧ ce_LeaseExpiresAt e = (now + effective_lease lease)%Z ∧
       ce_KeyTTL e = effective_lease lease.
Proof.
  intros Hwf Hc. destruct (decide (TrimSpace key = "")) as [E|Hk].
  { unfold Claims_Claim in Hc. rewrite E in Hc. by simplify_eq/=. }
  destruct (Claim_cases s now key lease Hwf Hk) as [[_ Hr]|(_ & a & claims & k0 & Hr & _)];
    rewrite Hr in Hc; simplify_eq.
  split_and!; auto. simpl. rewrite lookup_insert_eq. eauto 10.
Qed.

(** ** Exclusive processing, deduplication *)

(** C16: in a reachable store an accepted claim holds its key for the whole lease: whatever
    calls anyone makes in the meantime, as long as they are within the lease and do not settle this
    claim by its id, every claim of the key (compared after trimming) before the lease ends is
    turned away. *)
Theorem claim_exclusive s now key lease id s' ops t key' lease' :
  reachable_store s →
  Claims_Claim s now key lease = (Ok (id, true), s') →
  Forall (λ op, (op_time op < now + effective_lease lease)%Z ∧
                match op with OpClaim _ _ _ => True
                | OpComplete _ i | OpFail _ i _ => TrimSpace i ≠ id end) ops →
  (t < now + effective_lease lease)%Z → TrimSpace key' = TrimSpace key →
  (Claims_Claim (claim_run s' ops) t key' lease').1 = Ok ("", false).
Proof.
  intros Hs%reachable_wf Hc Hops Ht Hk.
  destruct (Claim_accepted _ _ _ _ _ _ Hs Hc) as (Hne & _ & _ & e & He & Hid & Hst & Hl & _).
  assert (Hwf' : claims_wf s').
  { replace s' with (Claims_Claim s now key lease).2 by (by rewrite Hc). by apply Claim_wf. }
  assert (Hblk : ∀ u, (u < now + effective_lease lease)%Z → ce_blocks u e = true).
  { intros u Hu. unfold ce_blocks. rewrite Hst, Hl. simpl. by apply Before_lt. }
  apply (blocked_claim_refused _ _ _ _ e); rewrite ?Hk; auto using claim_run_wf.
  apply claim_run_spares; auto. eapply Forall_impl; [exact Hops|].
  intros op [Ho Hne']. destruct op; simpl in *; rewrite ?Hid; auto.
  split; auto using blocks_not_evictable.
Qed.

(** The store and the entry an accepted claim leaves when it is settled by its id. *)
Lemma accepted_settled s now key lease id s' f :
  claims_wf s → Claims_Claim s now key lease = (Ok (id, true), s') →
  claims_wf s' ∧ TrimSpace id = id ∧ id ≠ "" ∧
  ∃ e, cst_entries (settled s' id f) !! TrimSpace key = Some (f e) ∧ ce_KeyTTL e = effective_lease lease.
Proof.
  intros Hs Hc.
  destruct (Claim_accepted _ _ _ _ _ _ Hs Hc) as (Hne & Hid0 & Hnx & e & He & Hid & Hst & Hl & Httl).
  assert (Hwf' : claims_wf s').
  { replace s' with (Claims_Claim s now key lease).2 by (by rewrite Hc). by apply Claim_wf. }
  split_and!; [done| |by rewrite Hid0|].
  - rewrite Hid0. apply claim_id_trim. pose proof (wf_counter s Hs). lia.
  - exists e. split; [|done]. unfold settled.
    pose proof (wf_owned_claim s' Hwf' _ _ He Hst) as Hcl. rewrite Hid in Hcl.
    rewrite Hcl, He. simpl. apply lookup_insert_eq.
Qed.

Lemma effective_lease_pos lease : (0 < effective_lease lease)%Z.
Proof. unfold effective_lease, Minute. destruct (Z.leb_spec lease 0); lia. Qed.
Lemma effective_lease_idem lease : effective_lease (effective_lease lease) = effective_lease lease.
Proof.
  pose proof (effective_lease_pos lease). unfold effective_lease at 1.
  destruct (Z.leb_spec (effective_lease lease) 0); lia.
Qed.

(** An entry completed at [tc] blocks its key until the end of its time-to-live. *)
Lemma completed_blocks tc e u :
  (0 ≤ tc)%Z → (u < tc + effective_lease (ce_KeyTTL e))%Z → ce_blocks u (complete_entry tc e) = true.
Proof.
  intros Htc Hu. unfold ce_blocks, complete_entry, addTime. simpl.
  pose proof (effective_lease_pos (ce_KeyTTL e)).
  apply andb_true_iff. split; [apply negb_true_iff, IsZero_false; lia|by apply Before_lt].
Qed.

Lemma completed_refuses s now key lease id s' tc ops t key' lease' :
  claims_wf s →
  Claims_Claim s now key lease = (Ok (id, true), s') →
  (0 ≤ tc)%Z →
  Forall (λ op, (op_time op < tc + effective_lease lease)%Z) ops →
  (t < tc + effective_lease lease)%Z → TrimSpace key' = TrimSpace key →
  (Claims_Claim (claim_run (Claims_Complete s' tc id).2 ops) t key' lease').1 = Ok ("", false).
Proof.
  intros Hs Hc Htc Hops Ht Hk.
  destruct (Claim_accepted _ _ _ _ _ _ Hs Hc) as (Hne & _).
  destruct (accepted_settled _ _ _ _ _ _ (complete_entry tc) Hs Hc) as (Hwf' & Htrim & _ & e & He & Httl).
  assert (Hblk : ∀ u, (u < tc + effective_lease lease)%Z → ce_blocks u (complete_entry tc e) = true).
  { intros u Hu. apply completed_blocks; [done|]. by rewrite Httl, effective_lease_idem. }
  assert (Hwf2 : claims_wf (Claims_Complete s' tc id).2) by (by apply (claim_step_wf s' (OpComplete tc id))).
  apply (blocked_claim_refused _ _ _ _ (complete_entry tc e)); rewrite ?Hk; auto using claim_run_wf.
  apply claim_run_spares; [done|by rewrite Complete_settled, Htrim|]. eapply Forall_impl; [exact Hops|].
  intros op Ho. destruct op; simpl in *; try done. split; auto using blocks_not_evictable.
Qed.

(** Completed work is not repeated within the key's time-to-live.  Once the holder
    completes its claim at [tc] (after the zero time), every claim of the key before the
    end of the time-to-live is turned away, whatever other calls (stale settlements of the same
    claim included) are made before that end. *)
Theorem completed_claim_dedups s now key lease id s' tc ops t key' lease' :
  reachable_store s →
  Claims_Claim s now key lease = (Ok (id, true), s') →
  (0 ≤ tc)%Z →
  Forall (λ op, (op_time op < tc + effective_lease lease)%Z) ops →
  (t < tc + effective_lease lease)%Z → TrimSpace key' = TrimSpace key →
  (Claims_Claim (claim_run (Claims_Complete s' tc id).2 ops) t key' lease').1 = Ok ("", false).
Proof. intros Hs%reachable_wf. by apply completed_refuses. Qed.

(** A failed claim is handed out again from its retry time on: nothing but a claim of the same key
    stands in the way. *)
Lemma failed_reclaims s now key lease id s' ts retryAt ops t key' lease' :
  claims_wf s →
  Claims_Claim s now key lease = (Ok (id, true), s') →
  Forall (λ op, match op with OpClaim _ k _ => TrimSpace k ≠ TrimSpace key | _ => True end) ops →
  ((if IsZero retryAt then ts else retryAt) ≤ t)%Z → TrimSpace key' = TrimSpace key →
  ∃ id' s'', Claims_Claim (claim_run (Claims_Fail s' ts id retryAt).2 ops) t key' lease' = (Ok (id', true), s'').
Proof.
  intros Hs Hc Hops Ht Hk.
  destruct (Claim_accepted _ _ _ _ _ _ Hs Hc) as (Hne & _).
  destruct (accepted_settled _ _ _ _ _ _ (fail_entry ts retryAt) Hs Hc) as (Hwf' & Htrim & _ & e & He & _).
  assert (Hwf2 : claims_wf (Claims_Fail s' ts id retryAt).2) by (by apply (claim_step_wf s' (OpFail ts id retryAt))).
  assert (He2 : cst_entries (claim_run (Claims_Fail s' ts id retryAt).2 ops) !! TrimSpace key = Some (fail_entry ts retryAt e)).
  { apply claim_run_spares; [done|by rewrite Fail_settled, Htrim|].
    eapply Forall_impl; [exact Hops|]. intros op Ho. destruct op; simpl in *; done. }
  rewrite <- Hk in Hne, He2.
  destruct (Claim_cases _ t key' lease' (claim_run_wf _ ops Hwf2) Hne) as [[Hb _]|(_ & a & cl & k0 & -> & _)]; [|eauto].
  exfalso. revert Hb. unfold blocked. rewrite He2. unfold ce_blocks, fail_entry. simpl.
  rewrite andb_true_iff, Before_lt. intros [_ Hlt]. lia.
Qed.

(** ** Fencing: a superseded claim id is dead *)

Definition id_retired (s : InMemoryClaimStore) (n : Z) : Prop :=
  (n ≤ cst_nextID s)%Z ∧ ∀ k e, cst_entries s !! k = Some e → ce_ClaimID e ≠ claim_id n.

Lemma retired_not_claimed s n : claims_wf s → id_retired s n → cst_claims s !! claim_id n = None.
Proof.
  intros Hwf [_ Hr]. destruct (cst_claims s !! claim_id n) as [key|] eqn:E; [|done].
  destruct (wf_claim_owned s Hwf _ _ E) as (e & He & Hid & _). by eapply Hr in He.
Qed.

Lemma settled_retired s id f n :
  (∀ e, ce_ClaimID (f e) = ce_ClaimID e) → id_retired s n → id_retired (settled s id f) n.
Proof.
  intros Hf [Hn Hr]. unfold settled. destruct (cst_claims s !! id) as [key|]; [|by split].
  split; [done|]. simpl. intros k e.
  destruct (cst_entries s !! key) as [e0|] eqn:E0; [|eauto].
  rewrite lookup_insert_Some. intros [[<- <-]|[_ He]]; [rewrite Hf|]; eauto.
Qed.

Lemma Claim_retired s now key lease n :
  claims_wf s → id_retired s n → id_retired (Claims_Claim s now key lease).2 n.
Proof.
  intros Hwf [Hn Hr]. destruct (decide (TrimSpace key = "")) as [E|Hk].
  { unfold Claims_Claim. rewrite E. by split. }
  destruct (Claim_cases s now key lease Hwf Hk) as [[_ ->]|(_ & a & claims & k0 & -> & _)]; split; simpl; try lia.
  - intros k e [He _]%delete_where_lookup. eauto.
  - intros k e. rewrite lookup_insert_Some. intros [[<- <-]|[_ [He _]%delete_where_lookup]]; [|eauto].
    simpl. intros Hid%claim_id_inj. lia.
Qed.

Lemma claim_run_retired s ops n : claims_wf s → id_retired s n → id_retired (claim_run s ops) n.
Proof.
  revert s. induction ops as [|op ops IH]; intros s Hwf Hr; simpl; [done|].
  apply IH; [by apply claim_step_wf|]. destruct op; simpl.
  - by apply Claim_retired.
  - rewrite Complete_settled by done. by apply settled_retired.
  - rewrite Fail_settled by done. by apply settled_retired.
Qed.

(** The accepted claim of a key retires the id under which the key was claimed before. *)
Lemma reclaim_retires s now key lease id s' n k e :
  claims_wf s → Claims_Claim s now key lease = (Ok (id, true), s') →
  cst_entries s !! k = Some e → ce_ClaimID e = claim_id n → TrimSpace key = k → id_retired s' n.
Proof.
  intros Hwf Hc He Hid Hk. destruct (Claim_accepted _ _ _ _ _ _ Hwf Hc) as (Hne & -> & Hnx & _).
  destruct (wf_id s Hwf _ _ He) as (m & Hm & Hm'). rewrite Hid in Hm'. apply claim_id_inj in Hm'. subst m.
  split; [lia|]. intros k' e' He' Hid'.
  destruct (Claim_cases s now key lease Hwf Hne) as [[_ Hr]|(_ & a & claims & k0 & Hr & _)];
    rewrite Hr in Hc; simplify_eq. simpl in He'.
  apply lookup_insert_Some in He' as [[<- <-]|[Hne' [He' _]%delete_where_lookup]]; simpl in *.
  - apply claim_id_inj in Hid'. lia.
  - apply Hne'. apply (wf_id_unique s Hwf _ _ e e'); auto. congruence.
Qed.

(** Fencing.  When a key is claimed again (because the lease of its claim ran out or the
    claim failed), the id of the earlier claim is dead for good: whatever happens afterwards, completing
    or failing it changes nothing in the store, so a slow first holder cannot mark or
    release the work of the second. *)
Theorem stale_claim_fenced s t1 key1 lease1 id1 s1 ops1 t2 key2 lease2 id2 s2 ops2 t retryAt :
  reachable_store s →
  Claims_Claim s t1 key1 lease1 = (Ok (id1, true), s1) →
  Claims_Claim (claim_run s1 ops1) t2 key2 lease2 = (Ok (id2, true), s2) →
  (∃ e, cst_entries (claim_run s1 ops1) !! TrimSpace key2 = Some e ∧ ce_ClaimID e = id1) →
  Claims_Complete (claim_run s2 ops2) t id1 = (Ok tt, claim_run s2 ops2) ∧
  Claims_Fail (claim_run s2 ops2) t id1 retryAt = (Ok tt, claim_run s2 ops2) ∧ id1 ≠ id2.
Proof.
  intros Hs%reachable_wf H1 H2 (e & He & Hid).
  destruct (Claim_accepted _ _ _ _ _ _ Hs H1) as (_ & -> & _).
  assert (Hwf1 : claims_wf (claim_run s1 ops1)).
  { apply claim_run_wf. replace s1 with (Claims_Claim s t1 key1 lease1).2 by (by rewrite H1). by apply Claim_wf. }
  assert (Hwf2 : claims_wf s2).
  { replace s2 with (Claims_Claim (claim_run s1 ops1) t2 key2 lease2).2 by (by rewrite H2). by apply Claim_wf. }
  pose proof (reclaim_retires _ _ _ _ _ _ _ _ _ Hwf1 H2 He Hid eq_refl) as Hret.
  assert (Hnone : cst_claims (claim_run s2 ops2) !! claim_id (cst_nextID s + 1) = None).
  { apply retired_not_claimed; auto using claim_run_wf, claim_run_retired. }
  assert (Htrim : TrimSpace (claim_id (cst_nextID s + 1)) = claim_id (cst_nextID s + 1)).
  { apply claim_id_trim. pose proof (wf_counter s Hs). lia. }
  unfold Claims_Complete, Claims_Fail. rewrite Htrim, Hnone.
  destruct (String.eqb_spec (claim_id (cst_nextID s + 1)) "") as [E|_]; [by apply claim_id_nonempty in E|].
  split_and!; auto. destruct (Claim_accepted _ _ _ _ _ _ Hwf1 H2) as (_ & -> & _).
  destruct (wf_id _ Hwf1 _ _ He) as (n & Hn & Hn'). intros Heq%claim_id_inj.
  rewrite Hid in Hn'. apply claim_id_inj in Hn'. lia.
Qed.

(** ** Concrete runs *)

Definition demo_claimed := (Claims_Claim NewInMemoryClaimStore 100 "gh:webhook:d1" 30).2.

Lemma empty_reachable : reachable_store NewInMemoryClaimStore.
Proof. by exists []. Defined.

Lemma claim_exclusive_witness :
  (Claims_Claim (claim_run demo_claimed [OpClaim 110 "other" 5; OpFail 111 "claim_7" 0]) 129 " gh:webhook:d1" 5).1
  = Ok ("", false).
Proof.
  apply (claim_exclusive NewInMemoryClaimStore 100 "gh:webhook:d1" 30 "claim_1" demo_claimed).
  - exact empty_reachable.
  - vm_compute. reflexivity.
  - repeat constructor; vm_compute; congruence.
  - vm_compute. reflexivity.
  - vm_compute. reflexivity.
Defined.

Lemma completed_claim_dedups_witness :
  (Claims_Claim (claim_run (Claims_Complete demo_claimed 120 "claim_1").2 [OpFail 125 "claim_1" 0])
     149 "gh:webhook:d1" 5).1 = Ok ("", false).
Proof.
  apply (completed_claim_dedups NewInMemoryClaimStore 100 "gh:webhook:d1" 30 "claim_1" demo_claimed).
  - exact empty_reachable.
  - vm_compute. reflexivity.
  - lia.
  - repeat constructor; vm_compute; congruence.
  - vm_compute. reflexivity.
  - reflexivity.
Defined.

(** The lease of the first claim runs out at 130; the key is claimed again at 131, and the first
    holder's late completion is ignored. *)
Lemma stale_claim_fenced_witness :
  let s2 := (Claims_Claim demo_claimed 131 "gh:webhook:d1" 30).2 in
  Claims_Complete s2 140 "claim_1" = (Ok tt, s2) ∧
  Claims_Fail s2 140 "claim_1" 0 = (Ok tt, s2) ∧ "claim_1" ≠ "claim_2".
Proof.
  intros s2.
  apply (stale_claim_fenced NewInMemoryClaimStore 100 "gh:webhook:d1" 30 "claim_1" demo_claimed []
    131 "gh:webhook:d1" 30 "claim_2" s2 [] 140 0).
  - exact empty_reachable.
  - vm_compute. reflexivity.
  - vm_compute. reflexivity.
  - eexists. split; vm_compute; reflexivity.
Defined.
