(* ===== verification/Inbound.v ===== *)
(** * Inbound dispatch (src/inbound/dispatcher.go, [Dispatcher])

    A request is normalised, verified, claimed by its idempotency key, handed to the
    handler of its surface, and the claim is completed or failed.  The verifier, the key extractor
    and the handlers are code of the embedding application: parameters of the model,
    failing with an opaque text.  The dispatcher is written against the
    [IdempotencyClaimStore] interface; its theorems are at [InMemoryClaimStore]. *)

From S2P Require Import Prelude GoStrings GoValues Domain Contracts ClaimStore.
From Stdlib Require Import ZArith Lia.
From stdpp Require Import base decidable list gmap strings.

Local Open Scope string_scope.
Local Open Scope nat_scope.
Local Open Scope list_scope.

Definition SurfaceWebhook := "webhook".
Definition SurfaceCommand := "command".
Definition SurfaceInteraction := "interaction".
Definition SurfaceEventCallback := "event_callback".

Definition normalizeSurface (surface : string) : string := TrimSpace (ToLower surface).
Definition isSupportedSurface (surface : string) : bool :=
  bool_decide (normalizeSurface surface ∈ [SurfaceWebhook; SurfaceCommand; SurfaceInteraction; SurfaceEventCallback]).

Definition trimAny (v : value) : string := if isNil v then "" else TrimSpace (Sprint v).
Definition ensureMetadata (m : gmap string value) : gmap string value := m.

Inductive inbound_error (E : Type) :=
| ErrProviderRequired
| ErrUnsupportedSurface (surface : string)
| ErrVerification (cause : string)
| ErrKeyRequired
| ErrExtractKey (cause : string)
| ErrResolveKey (cause : inbound_error E)
| ErrClaimFailed (cause : E)
| ErrNoHandler (surface : string)
| ErrHandlerFailed (cause : string)
| ErrRetryableStatus (code : Z)
| ErrMarkFailed (cause : E)
| ErrCompleteClaim (cause : E)
| ErrHandlerExists (surface : string)
| ErrNilHandler
| ErrJoin (e1 e2 : inbound_error E).
Arguments ErrProviderRequired {E}. Arguments ErrUnsupportedSurface {E}. Arguments ErrVerification {E}.
Arguments ErrKeyRequired {E}. Arguments ErrExtractKey {E}. Arguments ErrResolveKey {E}.
Arguments ErrClaimFailed {E}. Arguments ErrNoHandler {E}. Arguments ErrHandlerFailed {E}.
Arguments ErrRetryableStatus {E}. Arguments ErrMarkFailed {E}. Arguments ErrCompleteClaim {E}.
Arguments ErrHandlerExists {E}. Arguments ErrNilHandler {E}. Arguments ErrJoin {E}.

(** The HTTP status the error envelope carries (a joined error has none of its own). *)
Definition inbound_error_code {E} (e : inbound_error E) : Z :=
  match e with
  | ErrProviderRequired | ErrUnsupportedSurface _ | ErrKeyRequired | ErrExtractKey _
  | ErrResolveKey _ | ErrNilHandler => StatusBadRequest
  | ErrVerification _ => StatusUnauthorized
  | ErrClaimFailed _ | ErrMarkFailed _ | ErrCompleteClaim _ => StatusInternalServerError
  | ErrNoHandler _ => StatusNotFound
  | ErrHandlerFailed _ | ErrRetryableStatus _ => StatusBadGateway
  | ErrHandlerExists _ => StatusConflict
  | ErrJoin _ _ => 0
  end.

Abbreviation InboundHandler := (InboundRequest → outcome string InboundResult).

Section dispatcher.
Context {MR : MapRange} {E S : Type} {store : IdempotencyClaimStore E S}.

Record Dispatcher := mkDispatcher {
  d_Verifier : option (InboundRequest → outcome string unit);
  d_Store : option S;
  d_ExtractKey : option (InboundRequest → outcome string string);
  d_KeyTTL : Duration;
  d_handlers : gmap string InboundHandler }.

Definition d_with_store (d : Dispatcher) (st : option S) : Dispatcher :=
  mkDispatcher (d_Verifier d) st (d_ExtractKey d) (d_KeyTTL d) (d_handlers d).

Definition Dispatcher_Register (d : Dispatcher) (handler : option (string * InboundHandler))
    : outcome (inbound_error E) Dispatcher :=
  match handler with
  | None => Fail ErrNilHandler
  | Some (handlerSurface, h) =>
    let surface := normalizeSurface handlerSurface in
    if negb (isSupportedSurface surface) then Fail (ErrUnsupportedSurface surface)
    else match d_handlers d !! surface with
         | Some _ => Fail (ErrHandlerExists surface)
         | None => Ok (mkDispatcher (d_Verifier d) (d_Store d) (d_ExtractKey d) (d_KeyTTL d)
                         (<[surface := h]> (d_handlers d)))
         end
  end.

Definition keyTTL (d : Dispatcher) : Duration :=
  if (0 <? d_KeyTTL d)%Z then d_KeyTTL d else (10 * Minute)%Z.

Definition handlerFor (d : Dispatcher) (surface : string) : option InboundHandler :=
  d_handlers d !! normalizeSurface surface.

Definition firstNonEmpty (l : list string) : option string := head (filter (λ s, s ≠ "") l).

Definition DefaultIdempotencyKeyExtractor (req : InboundRequest) : outcome (inbound_error E) string :=
  match firstNonEmpty
      [trimAny (mapGet (in_Metadata req) "idempotency_key");
       trimAny (mapGet (in_Metadata req) "delivery_id");
       trimAny (mapGet (in_Metadata req) "message_id");
       headerValue (in_Headers req) "idempotency-key";
       headerValue (in_Headers req) "x-idempotency-key";
       headerValue (in_Headers req) "x-message-id"] with
  | Some v => Ok v
  | None => Fail ErrKeyRequired
  end.

Definition extract_key (d : Dispatcher) (req : InboundRequest) : outcome (inbound_error E) string :=
  match d_ExtractKey d with
  | Some f => match f req with Ok k => Ok k | Fail e => Fail (ErrExtractKey e) end
  | None => DefaultIdempotencyKeyExtractor req
  end.

Definition normalized_request (req : InboundRequest) : InboundRequest :=
  mkInboundRequest (TrimSpace (in_ProviderID req)) (normalizeSurface (in_Surface req))
    (in_Headers req) (in_Body req) (in_Metadata req).

Definition base_metadata (req : InboundRequest) : gmap string value :=
  {[ "provider_id" := VString (in_ProviderID req); "surface" := VString (in_Surface req) ]}.

(** Lines up to the claim: normalisation, validation and verification. *)
Definition Dispatch_admit (d : Dispatcher) (req0 : InboundRequest)
    : outcome (InboundResult * inbound_error E) InboundRequest :=
  let req := normalized_request req0 in
  if String.eqb (in_ProviderID req) "" then Fail (emptyInboundResult, ErrProviderRequired)
  else if negb (isSupportedSurface (in_Surface req))
  then Fail (emptyInboundResult, ErrUnsupportedSurface (in_Surface req))
  else match d_Verifier d with
  | None => Ok req
  | Some verify =>
    match verify req with
    | Ok _ => Ok req
    | Fail cause =>
      Fail (mkInboundResult false StatusUnauthorized (<["rejected" := VBool true]> (base_metadata req)),
            ErrVerification cause)
    end
  end.

Definition deduped_result (req : InboundRequest) : InboundResult :=
  mkInboundResult true StatusOK (<["deduped" := VBool true]> (base_metadata req)).

(** Failing the claim after an unsuccessful handler run: [Fail] with a zero retry time. *)
Definition fail_claim (st : option S) (ts : Time) (claimID : string) : option (inbound_error E) * option S :=
  match st with
  | Some s =>
    if String.eqb claimID "" then (None, st)
    else match ics_Fail s ts claimID zeroTime with
         | (Ok _, s') => (None, Some s')
         | (Fail e, s') => (Some (ErrMarkFailed e), Some s')
         end
  | None => (None, None)
  end.

(** The outcome of a dispatch: what it returns, the store it leaves, and whether a handler ran. *)
Record dispatch_out := mkOut {
  out_result : InboundResult; out_err : option (inbound_error E); out_store : option S;
  out_handled : bool }.

Definition join_err (e : inbound_error E) (o : option (inbound_error E)) : inbound_error E :=
  match o with Some e' => ErrJoin e e' | None => e end.

(** Lines after the claim: the handler and the settlement of the claim at time [ts]. *)
Definition Dispatch_handle (d : Dispatcher) (st : option S) (ts : Time) (claimID : string)
    (req : InboundRequest) : dispatch_out :=
  match handlerFor d (in_Surface req) with
  | None => mkOut emptyInboundResult (Some (ErrNoHandler (in_Surface req))) st false
  | Some handle =>
    match handle req with
    | Fail cause =>
      let (failErr, st') := fail_claim st ts claimID in
      mkOut emptyInboundResult (Some (join_err (ErrHandlerFailed cause) failErr)) st' true
    | Ok result =>
      if negb (ir_Accepted result) || (StatusInternalServerError <=? ir_StatusCode result)%Z then
        let (failErr, st') := fail_claim st ts claimID in
        mkOut result (Some (join_err (ErrRetryableStatus (ir_StatusCode result)) failErr)) st' true
      else
        let final := mkInboundResult (ir_Accepted result) (ir_StatusCode result)
          (<["surface" := VString (in_Surface req)]>
            (<["provider_id" := VString (in_ProviderID req)]> (ensureMetadata (ir_Metadata result)))) in
        match st with
        | Some s =>
          if String.eqb claimID "" then mkOut final None st true
          else match ics_Complete s ts claimID with
               | (Ok _, s') => mkOut final None (Some s') true
               | (Fail e, s') => mkOut emptyInboundResult (Some (ErrCompleteClaim e)) (Some s') true
               end
        | None => mkOut final None None true
        end
    end
  end.

(** [Dispatch]: the claim is made at time [tc], settled at time [ts]. *)
Definition Dispatch (d : Dispatcher) (tc ts : Time) (req0 : InboundRequest) : dispatch_out :=
  match Dispatch_admit d req0 with
  | Fail (res, err) => mkOut res (Some err) (d_Store d) false
  | Ok req =>
    match d_Store d with
    | None => Dispatch_handle d None ts "" req
    | Some s =>
      match extract_key d req with
      | Fail e => mkOut emptyInboundResult (Some (ErrResolveKey e)) (Some s) false
      | Ok key =>
        match ics_Claim s tc (in_ProviderID req +:+ ":" +:+ in_Surface req +:+ ":" +:+ key) (keyTTL d) with
        | (Fail e, s1) => mkOut emptyInboundResult (Some (ErrClaimFailed e)) (Some s1) false
        | (Ok (claimID, accepted), s1) =>
          if negb accepted then mkOut (deduped_result req) None (Some s1) false
          else Dispatch_handle d (Some s1) ts claimID req
        end
      end
    end
  end.
End dispatcher.

(** ** Dispatching over the in-memory claim store *)

Section in_memory_dispatch.
Context {MR : MapRange}.
Implicit Types (d : @Dispatcher InMemoryClaimStore) (s : InMemoryClaimStore) (req : InboundRequest).

Definition request_key (req : InboundRequest) (key : string) : string :=
  in_ProviderID req +:+ ":" +:+ in_Surface req +:+ ":" +:+ key.

(** Two requests that their dispatchers admit and resolve to one idempotency key. *)
Definition resolves d (req0 : InboundRequest) (key : string) : Prop :=
  ∃ req, Dispatch_admit (E := claim_error) d req0 = Ok req ∧
    ∃ k, extract_key (E := claim_error) d req = Ok k ∧ request_key req k = key.

Lemma admit_normalized d req0 req :
  Dispatch_admit (E := claim_error) d req0 = Ok req → req = normalized_request req0.
Proof.
  unfold Dispatch_admit. destruct (String.eqb _ _); [done|]. destruct (negb _); [done|].
  destruct (d_Verifier d) as [verify|]; [destruct (verify _)|]; congruence.
Qed.

Lemma fail_claim_store s ts id :
  id ≠ "" → (fail_claim (Some s) ts id).2 = Some (Claims_Fail s ts id zeroTime).2.
Proof.
  intros Hid. unfold fail_claim. destruct (String.eqb_spec id ""); [done|]. simpl.
  by destruct (Claims_Fail s ts id zeroTime) as [[?|?] ?].
Qed.

(** A dispatch that reaches its handler holds the claim of its key; it leaves the claim
    completed if it succeeds and failed otherwise. *)
Lemma handled_dispatch d tc ts req0 s :
  d_Store d = Some s → claims_wf s → out_handled (Dispatch (E := claim_error) d tc ts req0) = true →
  ∃ key id s1, resolves d req0 key ∧ Claims_Claim s tc key (keyTTL d) = (Ok (id, true), s1) ∧
    out_store (Dispatch (E := claim_error) d tc ts req0) =
      Some match out_err (Dispatch (E := claim_error) d tc ts req0) with
           | None => (Claims_Complete s1 ts id).2
           | Some _ => (Claims_Fail s1 ts id zeroTime).2
           end.
Proof.
  intros Hst Hwf. unfold Dispatch. destruct (Dispatch_admit d req0) as [req|[]] eqn:Ha; [|done].
  rewrite Hst. destruct (extract_key d req) as [k|] eqn:Hk; [|done]. fold (request_key req k). simpl ics_Claim.
  destruct (Claims_Claim s tc (request_key req k) (keyTTL d)) as [[[id [|]]|e] s1] eqn:Hc; [|done|done].
  simpl negb. cbv iota. intros Hh. exists (request_key req k), id, s1.
  destruct (accepted_settled _ _ _ _ _ _ (λ e, e) Hwf Hc) as (_ & Htr & Hid & _).
  split_and!; [unfold resolves; eauto|done|]. revert Hh. unfold Dispatch_handle.
  destruct (handlerFor d (in_Surface req)) as [h|]; [|done]. intros _.
  destruct (h req) as [r|cause].
  - destruct (negb (ir_Accepted r) || _).
    + pose proof (fail_claim_store s1 ts id Hid) as Hf. by destruct (fail_claim (Some s1) ts id).
    + destruct (String.eqb_spec id "") as [|_]; [done|]. simpl.
      assert (Hok : (Claims_Complete s1 ts id).1 = Ok tt).
      { unfold Claims_Complete. rewrite Htr. destruct (String.eqb_spec id ""); [done|]. by go_cases. }
      destruct (Claims_Complete s1 ts id) as [c s2]. simpl in Hok. by subst c.
  - pose proof (fail_claim_store s1 ts id Hid) as Hf. by destruct (fail_claim (Some s1) ts id).
Qed.

Lemma keyTTL_effective d : effective_lease (keyTTL d) = keyTTL d.
Proof.
  unfold keyTTL, effective_lease, Minute. destruct (Z.ltb_spec 0 (d_KeyTTL d)); [|done].
  destruct (Z.leb_spec (d_KeyTTL d) 0); lia.
Qed.


(** A failed delivery is not lost.  When a dispatch ran its handler and ended in an error
    (the handler failed, or answered unaccepted or with a 5xx status), the claim is released: a
    later dispatch of the same key, with no other claim of the key in between, runs the handler of
    its surface again if there is one. *)
Theorem dispatch_retries_after_failure d1 tc1 ts1 req1 s ops d2 tc2 ts2 req2 key :
  d_Store d1 = Some s → reachable_store s →
  resolves d1 req1 key → resolves d2 req2 key →
  out_handled (Dispatch (E := claim_error) d1 tc1 ts1 req1) = true →
  out_err (Dispatch (E := claim_error) d1 tc1 ts1 req1) ≠ None →
  d_Store d2 = (λ s', claim_run s' ops) <$> out_store (Dispatch (E := claim_error) d1 tc1 ts1 req1) →
  Forall (λ op, match op with OpClaim _ k _ => TrimSpace k ≠ TrimSpace key | _ => True end) ops →
  (ts1 ≤ tc2)%Z →
  out_handled (Dispatch (E := claim_error) d2 tc2 ts2 req2)
    = bool_decide (is_Some (handlerFor d2 (normalizeSurface (in_Surface req2)))).
Proof.
  intros Hst Hs%reachable_wf Hr1 Hr2 Hh He Hst2 Hops Ht.
  destruct (handled_dispatch _ _ _ _ _ Hst Hs Hh) as (key' & id & s1 & Hr1' & Hc & Ho).
  assert (key' = key) as -> by (unfold resolves in *; naive_solver congruence).
  destruct (out_err (Dispatch d1 tc1 ts1 req1)) as [err|]; [|done]. rewrite Ho in Hst2. simpl in Hst2.
  destruct (failed_reclaims _ _ _ _ _ _ ts1 zeroTime ops tc2 key (keyTTL d2) Hs Hc Hops Ht eq_refl)
    as (id' & s'' & Hre).
  destruct Hr2 as (r2 & Ha2 & k2 & Hk2 & <-). unfold Dispatch. rewrite Ha2, Hst2, Hk2. simpl ics_Claim.
  fold (request_key r2 k2). rewrite Hre. simpl negb. cbv iota. unfold Dispatch_handle.
  change (normalizeSurface (in_Surface req2)) with (in_Surface (normalized_request req2)).
  rewrite <- (admit_normalized _ _ _ Ha2).
  destruct (handlerFor d2 (in_Surface r2)) as [h|]; [|done]. rewrite bool_decide_true by eauto.
  repeat first [done | go_case].
Qed.

(** A delivery for a surface without a handler is swallowed (a defect of the code).  The
    dispatch answers the "no handler" error but keeps the claim it made: once the handler is
    registered, a redelivery within the claim's lease is answered 200 "deduped", though no
    handler has ever seen the request. *)
Theorem missing_handler_swallows_redelivery d1 tc1 ts1 req1 s d2 tc2 ts2 req2 key :
  d_Store d1 = Some s → reachable_store s → resolves d1 req1 key → resolves d2 req2 key →
  out_err (Dispatch (E := claim_error) d1 tc1 ts1 req1) = Some (ErrNoHandler (normalizeSurface (in_Surface req1))) →
  d_Store d2 = out_store (Dispatch (E := claim_error) d1 tc1 ts1 req1) →
  (tc2 < tc1 + keyTTL d1)%Z →
  out_handled (Dispatch (E := claim_error) d1 tc1 ts1 req1) = false ∧
  out_handled (Dispatch (E := claim_error) d2 tc2 ts2 req2) = false ∧
  out_err (Dispatch (E := claim_error) d2 tc2 ts2 req2) = None ∧
  ir_StatusCode (out_result (Dispatch (E := claim_error) d2 tc2 ts2 req2)) = StatusOK.
Proof.
  intros Hst Hs%reachable_wf Hr1 (r2 & Ha2 & k2 & Hk2 & Hkey) He Hst2 Ht.
  destruct Hr1 as (r1 & Ha1 & k1 & Hk1 & Hkey1).
  unfold Dispatch in He, Hst2 |- * . rewrite Ha1, Hst, Hk1 in He, Hst2 |- *. simpl ics_Claim in He, Hst2 |- *.
  fold (request_key r1 k1) in He, Hst2 |- *. rewrite Hkey1 in He, Hst2 |- *.
  destruct (Claims_Claim s tc1 key (keyTTL d1)) as [[[id [|]]|e] s1] eqn:Hc; simpl in He, Hst2 |- *; try done.
  unfold Dispatch_handle in He, Hst2 |- *. destruct (handlerFor d1 (in_Surface r1)) as [h|].
  { exfalso. revert He. unfold join_err. repeat first [done | go_case | progress simplify_eq/=]. }
  simpl in Hst2. split; [done|]. rewrite Ha2, Hst2, Hk2. simpl ics_Claim. fold (request_key r2 k2). rewrite Hkey.
  rewrite <- keyTTL_effective in Ht.
  destruct (Claim_accepted _ _ _ _ _ _ Hs Hc) as (Hne & _ & _ & en & Hen & Hid & Hpr & Hl & _).
  assert (Hwf' : claims_wf s1).
  { replace s1 with (Claims_Claim s tc1 key (keyTTL d1)).2 by (by rewrite Hc). by apply Claim_wf. }
  assert (Hb : ce_blocks tc2 en = true).
  { unfold ce_blocks. rewrite Hpr, Hl. simpl. by apply Before_lt. }
  pose proof (blocked_claim_refused _ _ _ (keyTTL d2) _ Hwf' Hne Hen Hb) as Href.
  destruct (Claims_Claim s1 tc2 key (keyTTL d2)) as [c s2]. simpl in Href. by subst c.
Qed.
End in_memory_dispatch.

(** ** Concrete dispatches *)

Definition demo_dispatcher (s : InMemoryClaimStore) (handlers : gmap string InboundHandler) : Dispatcher :=
  mkDispatcher None (Some s) None Minute handlers.
Definition demo_request : InboundRequest :=
  mkInboundRequest " gh" "Webhook " ∅ "" {[ "delivery_id" := VString "d1" ]}.
Definition ok_handlers : gmap string InboundHandler :=
  {[ SurfaceWebhook := λ _, Ok (mkInboundResult true 202 ∅) ]}.
Definition failing_handlers : gmap string InboundHandler :=
  {[ SurfaceWebhook := λ _, Ok (mkInboundResult true 503 ∅) ]}.
Definition store_after (o : @dispatch_out claim_error InMemoryClaimStore) : InMemoryClaimStore :=
  default NewInMemoryClaimStore (out_store o).

Definition demo_run (handlers : gmap string InboundHandler) : @dispatch_out claim_error InMemoryClaimStore :=
  Dispatch (MR := key_order_range) (demo_dispatcher NewInMemoryClaimStore handlers) 100 200 demo_request.

Lemma demo_resolves s handlers :
  resolves (MR := key_order_range) (demo_dispatcher s handlers) demo_request "gh:webhook:d1".
Proof. eexists. split; [vm_compute; reflexivity|]. eexists. split; vm_compute; reflexivity. Defined.


Lemma dispatch_retries_after_failure_witness :
  let d2 := demo_dispatcher (claim_run (store_after (demo_run failing_handlers)) [OpClaim 250 "other" 5]) ok_handlers in
  out_handled (Dispatch (E := claim_error) (MR := key_order_range) d2 300 400 demo_request)
  = bool_decide (is_Some (handlerFor d2 (normalizeSurface "Webhook "))).
Proof.
  intros d2.
  apply (dispatch_retries_after_failure (MR := key_order_range) (demo_dispatcher NewInMemoryClaimStore failing_handlers)
    100 200 demo_request NewInMemoryClaimStore [OpClaim 250 "other" 5] d2 300 400 demo_request "gh:webhook:d1").
  - reflexivity.
  - exact empty_reachable.
  - apply demo_resolves.
  - apply demo_resolves.
  - vm_compute. reflexivity.
  - vm_compute. congruence.
  - vm_compute. reflexivity.
  - repeat constructor; vm_compute; congruence.
  - lia.
Defined.

Lemma missing_handler_swallows_redelivery_witness :
  let d1 := demo_dispatcher NewInMemoryClaimStore ∅ in
  let d2 := demo_dispatcher (store_after (demo_run ∅)) ok_handlers in
  let o1 := Dispatch (E := claim_error) (MR := key_order_range) d1 100 200 demo_request in
  let o2 := Dispatch (E := claim_error) (MR := key_order_range) d2 300 400 demo_request in
  out_handled o1 = false ∧ out_handled o2 = false ∧ out_err o2 = None ∧ ir_StatusCode (out_result o2) = StatusOK.
Proof.
  intros d1 d2 o1 o2.
  apply (missing_handler_swallows_redelivery (MR := key_order_range) d1
    100 200 demo_request NewInMemoryClaimStore d2 300 400 demo_request "gh:webhook:d1").
  - reflexivity.
  - exact empty_reachable.
  - apply demo_resolves.
  - apply demo_resolves.
  - vm_compute. reflexivity.
  - vm_compute. reflexivity.
  - vm_compute. reflexivity.
Defined.
