(* ===== verification/GoURL.v ===== *)
(** * Delimited identifiers: [net/url] query escaping, [strings.Split], [strconv] round trip

    What the delivery claim ids are printed with and parsed by, with the round-trip lemmas the
    stores need. *)

From S2P Require Import Prelude GoStrings.
From Stdlib Require Import ZArith NArith Ascii String Lia.
From stdpp Require Import base decidable list strings pretty.

Local Open Scope string_scope.
Local Open Scope list_scope.

(** [url.QueryEscape]: letters, digits and [-_.~] stand for themselves, a space becomes [+],
    every other byte becomes [%XX]. *)
Definition url_unreserved (c : ascii) : bool :=
  let b := byte_of c in
  ((48 <=? b) && (b <=? 57) || (65 <=? b) && (b <=? 90) || (97 <=? b) && (b <=? 122)
   || (b =? 45) || (b =? 95) || (b =? 46) || (b =? 126))%N.

Definition upperhex (n : N) : ascii :=
  ascii_of_N (if (n <? 10)%N then 48 + n else 55 + n)%N.

Fixpoint QueryEscape (s : string) : string :=
  match s with
  | EmptyString => EmptyString
  | String c s' =>
    if url_unreserved c then String c (QueryEscape s')
    else if Ascii.eqb c " " then String "+" (QueryEscape s')
    else String "%" (String (upperhex (byte_of c / 16)) (String (upperhex (byte_of c mod 16)) (QueryEscape s')))
  end.

(** [unhex]: the value of a hexadecimal digit, of either case. *)
Definition unhex (c : ascii) : option N :=
  let b := byte_of c in
  (if (48 <=? b) && (b <=? 57) then Some (b - 48)
   else if (97 <=? b) && (b <=? 102) then Some (b - 87)
   else if (65 <=? b) && (b <=? 70) then Some (b - 55)
   else None)%N.

(** [url.QueryUnescape]: [None] is the escape error. *)
Fixpoint QueryUnescape (s : string) : option string :=
  match s with
  | EmptyString => Some EmptyString
  | String c s' =>
    if Ascii.eqb c "%" then
      match s' with
      | String h (String l s'') =>
        hi ← unhex h; lo ← unhex l; rest ← QueryUnescape s'';
        Some (String (ascii_of_N (16 * hi + lo)) rest)
      | _ => None
      end
    else
      rest ← QueryUnescape s';
      Some (String (if Ascii.eqb c "+" then " "%char else c) rest)
  end.

(** [strings.Split] at a one-byte separator. *)
Fixpoint SplitChar (sep : ascii) (s : string) : list string :=
  match s with
  | EmptyString => [""]
  | String c s' =>
    if Ascii.eqb c sep then "" :: SplitChar sep s'
    else match SplitChar sep s' with
         | p :: ps => String c p :: ps
         | [] => [String c ""]
         end
  end.

Example QueryEscape_ex : QueryEscape "a b|c/é" = "a+b%7Cc%2F%C3%A9".
Proof. reflexivity. Qed.
Example QueryUnescape_ex : QueryUnescape "a+b%7cc%2F" = Some "a b|c/" ∧ QueryUnescape "%4" = None
  ∧ QueryUnescape "%zz" = None.
Proof. auto. Qed.
Example SplitChar_ex : SplitChar "|" "a||b" = ["a"; ""; "b"] ∧ SplitChar "|" "" = [""].
Proof. auto. Qed.

(** ** Round trips *)

Definition escaped_byte_ok (c : ascii) : bool :=
  match unhex (upperhex (byte_of c / 16)), unhex (upperhex (byte_of c mod 16)) with
  | Some hi, Some lo => Ascii.eqb (ascii_of_N (16 * hi + lo)) c
  | _, _ => false
  end.

Lemma escaped_byte c : ∃ hi lo, unhex (upperhex (byte_of c / 16)) = Some hi ∧
  unhex (upperhex (byte_of c mod 16)) = Some lo ∧ ascii_of_N (16 * hi + lo) = c.
Proof.
  assert (H : escaped_byte_ok c = true) by (by apply (forall_ascii escaped_byte_ok)).
  unfold escaped_byte_ok in H.
  destruct (unhex _) as [hi|]; [|done]. destruct (unhex _) as [lo|]; [|done].
  exists hi, lo. split_and!; auto. by apply Ascii.eqb_eq.
Qed.

Lemma unreserved_plain c :
  url_unreserved c = true → Ascii.eqb c "%" = false ∧ Ascii.eqb c "+" = false.
Proof.
  intros Hc. assert (H : implb (url_unreserved c) (negb (Ascii.eqb c "%") && negb (Ascii.eqb c "+")) = true)
    by (by apply (forall_ascii (λ c, implb (url_unreserved c) (negb (Ascii.eqb c "%") && negb (Ascii.eqb c "+"))))).
  rewrite Hc in H. simpl in H. by rewrite andb_true_iff, !negb_true_iff in H.
Qed.

Lemma QueryUnescape_QueryEscape s : QueryUnescape (QueryEscape s) = Some s.
Proof.
  induction s as [|c s IH]; [done|]. cbn [QueryEscape].
  destruct (url_unreserved c) eqn:Hu.
  - destruct (unreserved_plain c Hu) as [H1 H2]. cbn [QueryUnescape]. by rewrite H1, IH, H2.
  - destruct (Ascii.eqb_spec c " ") as [->|Hsp].
    + cbn [QueryUnescape]. simpl. by rewrite IH.
    + destruct (escaped_byte c) as (hi & lo & Hhi & Hlo & Hc). cbn [QueryUnescape].
      rewrite Ascii.eqb_refl, Hhi, Hlo, IH. cbn. by rewrite Hc.
Qed.

(** Escaped text is visible and free of the separator. *)
Definition url_safe (c : ascii) : bool := visible c && negb (Ascii.eqb c "|").

Lemma QueryEscape_safe s : Forall (λ c, url_safe c = true) (list_ascii_of_string (QueryEscape s)).
Proof.
  induction s as [|c s IH]; [constructor|]. cbn [QueryEscape].
  destruct (url_unreserved c) eqn:Hu.
  - constructor; [|done].
    assert (H : implb (url_unreserved c) (url_safe c) = true)
      by (by apply (forall_ascii (λ c, implb (url_unreserved c) (url_safe c)))).
    by rewrite Hu in H.
  - destruct (Ascii.eqb c " "); [by constructor|].
    assert (H : url_safe (upperhex (byte_of c / 16)) && url_safe (upperhex (byte_of c mod 16)) = true)
      by (by apply (forall_ascii (λ c, url_safe (upperhex (byte_of c / 16)) && url_safe (upperhex (byte_of c mod 16))))).
    apply andb_true_iff in H as [H1 H2]. by repeat constructor.
Qed.

Lemma SplitChar_plain sep s :
  Forall (λ c, Ascii.eqb c sep = false) (list_ascii_of_string s) → SplitChar sep s = [s].
Proof. induction s as [|c s IH]; [done|]. simpl. intros [Hc Hs]%Forall_cons. by rewrite Hc, IH. Qed.

Lemma SplitChar_app sep s t :
  Forall (λ c, Ascii.eqb c sep = false) (list_ascii_of_string s) →
  SplitChar sep (s +:+ String sep t) = s :: SplitChar sep t.
Proof.
  induction s as [|c s IH]; simpl.
  - by rewrite Ascii.eqb_refl.
  - intros [Hc Hs]%Forall_cons. by rewrite Hc, IH.
Qed.

Lemma SplitChar_sep sep s t :
  Forall (λ c, Ascii.eqb c sep = false) (list_ascii_of_string s) →
  SplitChar sep (s +:+ String sep "" +:+ t) = s :: SplitChar sep t.
Proof. apply SplitChar_app. Qed.

(** [strconv.Atoi] reads back what [%d] printed. *)
Lemma digit_value_pretty (n : N) : (n < 10)%N → digit_value (pretty_N_char n) = Some (Z.of_N n).
Proof.
  intros Hn. destruct n as [|p]; [done|].
  do 4 (destruct p as [p|p|]; try done; try lia).
Qed.

Lemma digits_value_pretty_go (x : N) s :
  digits_value 0 (pretty_N_go x s) = digits_value (Z.of_N x) s.
Proof.
  revert s. induction (N.lt_wf_0 x) as [x _ IH]; intros s.
  destruct (decide (x = 0)%N) as [->|Hx]; [by rewrite pretty_N_go_0|].
  rewrite pretty_N_go_step by lia. rewrite IH by (apply N.div_lt; lia). cbn [digits_value].
  rewrite digit_value_pretty by (apply N.mod_lt; lia). simpl.
  f_equal. pose proof (N.div_mod x 10). lia.
Qed.

Lemma digits_value_Itoa z : (0 ≤ z)%Z → digits_value 0 (Itoa z) = Some z.
Proof.
  intros Hz. unfold Itoa, pretty, pretty_Z. destruct z as [|p|p]; [done| |lia].
  unfold pretty, pretty_positive, pretty, pretty_N. case_decide; [lia|]. by rewrite digits_value_pretty_go.
Qed.

Lemma Atoi_Itoa z : (0 ≤ z ≤ int64_max)%Z → Atoi (Itoa z) = Some z.
Proof.
  intros Hz. pose proof (digits_value_Itoa z ltac:(lia)) as Hd.
  unfold Atoi, ParseInt10. destruct (Itoa z) as [|c s] eqn:E.
  - simpl in Hd. by simplify_eq.
  - destruct (Ascii.eqb_spec c "-") as [->|_]; [done|].
    destruct (Ascii.eqb_spec c "+") as [->|_]; [done|]. simpl String.eqb. cbv iota.
    rewrite Hd. simpl. unfold in_int64b, int64_min.
    destruct (Z.leb_spec (- 2 ^ 63) z); [|lia]. by destruct (Z.leb_spec z int64_max); [|lia].
Qed.

(** ** [url.PathEscape] *)

(** The bytes that a path segment may hold as they are. *)
Definition path_plain (c : ascii) : bool :=
  url_unreserved c || bool_decide (c ∈ list_ascii_of_string "$&+:=@").

Fixpoint PathEscape (s : string) : string :=
  match s with
  | EmptyString => EmptyString
  | String c s' =>
    if path_plain c then String c (PathEscape s')
    else String "%" (String (upperhex (byte_of c / 16)) (String (upperhex (byte_of c mod 16)) (PathEscape s')))
  end.

Example PathEscape_ex : PathEscape "a b/c:d" = "a%20b%2Fc:d".
Proof. reflexivity. Qed.

(** What [url.PathUnescape] does to an escaped segment. *)
Fixpoint PathUnescape (s : string) : option string :=
  match s with
  | EmptyString => Some EmptyString
  | String c s' =>
    if Ascii.eqb c "%" then
      match s' with
      | String h (String l s'') =>
        hi ← unhex h; lo ← unhex l; rest ← PathUnescape s'';
        Some (String (ascii_of_N (16 * hi + lo)) rest)
      | _ => None
      end
    else rest ← PathUnescape s'; Some (String c rest)
  end.

Lemma path_plain_percent c : path_plain c = true → Ascii.eqb c "%" = false.
Proof.
  intros Hc. assert (H : implb (path_plain c) (negb (Ascii.eqb c "%")) = true)
    by (by apply (forall_ascii (λ c, implb (path_plain c) (negb (Ascii.eqb c "%"))))).
  rewrite Hc in H. simpl in H. by rewrite negb_true_iff in H.
Qed.

Lemma PathUnescape_PathEscape s : PathUnescape (PathEscape s) = Some s.
Proof.
  induction s as [|c s IH]; [done|]. cbn [PathEscape]. destruct (path_plain c) eqn:Hp.
  - cbn [PathUnescape]. by rewrite path_plain_percent, IH.
  - destruct (escaped_byte c) as (hi & lo & Hhi & Hlo & Hc). cbn [PathUnescape].
    rewrite Ascii.eqb_refl, Hhi, Hlo, IH. cbn. by rewrite Hc.
Qed.

Lemma PathEscape_inj s t : PathEscape s = PathEscape t → s = t.
Proof. intros H. pose proof (PathUnescape_PathEscape s) as Hs. rewrite H, PathUnescape_PathEscape in Hs. congruence. Qed.

(** Escaping adds no colon. *)
Lemma PathEscape_colon s : Forall (λ c, Ascii.eqb c ":" = false) (list_ascii_of_string s) →
  Forall (λ c, Ascii.eqb c ":" = false) (list_ascii_of_string (PathEscape s)).
Proof.
  induction s as [|c s IH]; intros H; [constructor|]. apply Forall_cons in H as [Hc H]. cbn [PathEscape].
  destruct (path_plain c); [by constructor; auto|].
  assert (Hx : negb (Ascii.eqb (upperhex (byte_of c / 16)) ":") && negb (Ascii.eqb (upperhex (byte_of c mod 16)) ":") = true)
    by (by apply (forall_ascii (λ c, negb (Ascii.eqb (upperhex (byte_of c / 16)) ":") && negb (Ascii.eqb (upperhex (byte_of c mod 16)) ":")))).
  rewrite andb_true_iff, !negb_true_iff in Hx. destruct Hx. by repeat constructor; auto.
Qed.
