(* ===== verification/GoBase64.v ===== *)
(** * Base64 (what the code uses of [encoding/base64])

    The standard alphabet with padding and the URL alphabet without, with the decoders of [encoding/base64]: line breaks are skipped, a group of one
    character is an error, and the unused low bits of the last character are ignored. *)

From S2P Require Import Prelude GoStrings.
From Stdlib Require Import ZArith NArith Ascii String Lia.
From stdpp Require Import base decidable list strings.

Local Open Scope string_scope.
Local Open Scope list_scope.

(** ** Groups of three bytes as four sextets *)

Fixpoint sextets (l : list N) : list N :=
  match l with
  | a :: b :: c :: rest => (a / 4 :: a mod 4 * 16 + b / 16 :: b mod 16 * 4 + c / 64 :: c mod 64 :: sextets rest)%N
  | [a; b] => [a / 4; a mod 4 * 16 + b / 16; b mod 16 * 4]%N
  | [a] => [a / 4; a mod 4 * 16]%N
  | [] => []
  end.
Fixpoint octets (l : list N) : option (list N) :=
  match l with
  | w :: x :: y :: z :: rest => r ← octets rest; Some (w * 4 + x / 16 :: x mod 16 * 16 + y / 4 :: y mod 4 * 64 + z :: r)%N
  | [w; x; y] => Some [w * 4 + x / 16; x mod 16 * 16 + y / 4]%N
  | [w; x] => Some [w * 4 + x / 16]%N
  | [_] => None
  | [] => Some []
  end.

(** ** The alphabets *)

(** [url]: the alphabet of URLs and file names. *)
Definition b64_char (url : bool) (n : N) : ascii :=
  ascii_of_N (if (n <? 26) then 65 + n else if (n <? 52) then 71 + n else if (n <? 62) then n - 4
              else if (n =? 62) then (if url then 45 else 43) else (if url then 95 else 47))%N.
Definition b64_value (url : bool) (c : ascii) : option N :=
  let b := byte_of c in
  (if (65 <=? b) && (b <=? 90) then Some (b - 65)
   else if (97 <=? b) && (b <=? 122) then Some (b - 71)
   else if (48 <=? b) && (b <=? 57) then Some (b + 4)
   else if (b =? (if url then 45 else 43)) then Some 62
   else if (b =? (if url then 95 else 47)) then Some 63
   else None)%N.

Definition bytes_of (s : string) : list N := byte_of <$> list_ascii_of_string s.
Definition string_of_bytes (l : list N) : string := string_of_list_ascii (ascii_of_N <$> l).

(** [base64.RawURLEncoding] and [base64.StdEncoding]. *)
Definition RawURLEncode (s : string) : string := string_of_list_ascii (b64_char true <$> sextets (bytes_of s)).
Definition padding (s : string) : string :=
  match (String.length s mod 3)%nat with 1 => "==" | 2 => "=" | _ => "" end.
Definition StdEncode (s : string) : string := string_of_list_ascii (b64_char false <$> sextets (bytes_of s)) +:+ padding s.

Definition line_break (c : ascii) : bool := ((byte_of c =? 10) || (byte_of c =? 13))%N.
Definition RawURLDecode (s : string) : option string :=
  sx ← mapM (b64_value true) (filter (λ c, line_break c = false) (list_ascii_of_string s));
  l ← octets sx; Some (string_of_bytes l).

(** The padding characters fill the last group of four. *)
Definition strip_padding (l : list ascii) : list ascii :=
  match reverse l with
  | c :: r =>
    if Ascii.eqb c "=" then match r with d :: r' => if Ascii.eqb d "=" then reverse r' else reverse r | [] => [] end else l
  | [] => []
  end.
Definition StdDecode (s : string) : option string :=
  let l := filter (λ c, line_break c = false) (list_ascii_of_string s) in
  if (length l mod 4 =? 0)%nat then sx ← mapM (b64_value false) (strip_padding l); l ← octets sx; Some (string_of_bytes l) else None.

(** ** Round trip *)

Lemma byte_of_lt c : (byte_of c < 256)%N.
Proof. apply N_ascii_bounded. Qed.

Lemma list_ind3 {A} (P : list A → Prop) :
  P [] → (∀ a, P [a]) → (∀ a b, P [a; b]) → (∀ a b c l, P l → P (a :: b :: c :: l)) → ∀ l, P l.
Proof.
  intros H0 H1 H2 H3. refine (fix go l := _). destruct l as [|a [|b [|c l]]]; [apply H0|apply H1|apply H2|apply H3, go].
Qed.

Lemma sextets_small l : Forall (λ n, n < 256)%N l → Forall (λ n, n < 64)%N (sextets l).
Proof.
  induction l as [|a|a b|a b c l IH] using list_ind3; cbn [sextets]; intros H; repeat (apply Forall_cons in H as [? H]).
  all: repeat apply Forall_cons_2; try apply Forall_nil_2; try (by apply IH); zify; Z.to_euclidean_division_equations; lia.
Qed.

Lemma octets_sextets l : Forall (λ n, n < 256)%N l → octets (sextets l) = Some l.
Proof.
  induction l as [|a|a b|a b c l IH] using list_ind3; cbn [sextets octets]; intros H; repeat (apply Forall_cons in H as [? H]); [done| | |].
  3: rewrite IH by done; cbn.
  all: repeat f_equal; zify; Z.to_euclidean_division_equations; lia.
Qed.

Lemma b64_value_char url n : (n < 64)%N → b64_value url (b64_char url n) = Some n.
Proof.
  intros Hn. assert (H : forallb (λ n, bool_decide (b64_value true (b64_char true n) = Some n) && bool_decide (b64_value false (b64_char false n) = Some n))
    (N.of_nat <$> seq 0 64) = true) by (vm_compute; done).
  rewrite forallb_forall in H. assert (Hin : In n (N.of_nat <$> seq 0 64)).
  { apply list_elem_of_In, list_elem_of_fmap. exists (N.to_nat n). split; [lia|]. apply elem_of_seq. lia. }
  apply H, andb_true_iff in Hin as [H1 H2]. apply bool_decide_eq_true in H1, H2. by destruct url.
Qed.
Lemma b64_char_plain url n : (n < 64)%N → line_break (b64_char url n) = false ∧ (b64_char url n ≠ ".")%char.
Proof.
  intros Hn. assert (Hv := b64_value_char url n Hn). split.
  - destruct (line_break _) eqn:Hl; [|done]. exfalso. unfold line_break in Hl. unfold b64_value in Hv.
    apply orb_true_iff in Hl as [Hl|Hl]; apply N.eqb_eq in Hl; rewrite Hl in Hv; by destruct url.
  - intros Hc. rewrite Hc in Hv. by destruct url.
Qed.

Lemma bytes_of_small s : Forall (λ n, n < 256)%N (bytes_of s).
Proof. apply Forall_fmap, Forall_true. intros c. apply byte_of_lt. Qed.
Lemma string_of_bytes_of s : string_of_bytes (bytes_of s) = s.
Proof.
  unfold string_of_bytes, bytes_of. rewrite <-list_fmap_compose.
  rewrite <-(string_of_list_ascii_of_string s) at 2. f_equal. rewrite <-(list_fmap_id (list_ascii_of_string s)) at 2.
  apply list_fmap_ext. intros i c _. apply ascii_N_embedding.
Qed.

Lemma RawURLDecode_Encode s : RawURLDecode (RawURLEncode s) = Some s.
Proof.
  unfold RawURLDecode, RawURLEncode. rewrite list_ascii_of_string_of_list_ascii.
  assert (Hs := sextets_small _ (bytes_of_small s)). set (l := sextets (bytes_of s)) in *.
  assert (Hf : filter (λ c, line_break c = false) (b64_char true <$> l) = b64_char true <$> l).
  { clearbody l. induction Hs as [|n l Hn Hs IH]; [done|]. cbn [fmap list_fmap]. rewrite filter_cons_True by (by apply b64_char_plain). by rewrite IH. }
  rewrite Hf. assert (Hm : mapM (b64_value true) (b64_char true <$> l) = Some l).
  { clear Hf. clearbody l. induction Hs as [|n l Hn Hs IH]; [done|]. cbn. by rewrite b64_value_char, IH. }
  rewrite Hm. cbn. unfold l. rewrite octets_sextets by apply bytes_of_small. cbn. by rewrite string_of_bytes_of.
Qed.

(** An encoding holds neither the separator of a token nor a white-space byte. *)
Lemma RawURLEncode_chars s : Forall (λ c, line_break c = false ∧ c ≠ "."%char) (list_ascii_of_string (RawURLEncode s)).
Proof.
  unfold RawURLEncode. rewrite list_ascii_of_string_of_list_ascii. apply Forall_fmap. eapply Forall_impl; [apply sextets_small, bytes_of_small|].
  intros n Hn. by apply b64_char_plain.
Qed.

(** ** Round trip with padding *)

Lemma b64_char_no_pad n : (n < 64)%N → (b64_char false n ≠ "=")%char.
Proof. intros Hn Hc. assert (Hv := b64_value_char false n Hn). by rewrite Hc in Hv. Qed.

Lemma padded_length l : (length (sextets l) + match length l mod 3 with 1 => 2 | 2 => 1 | _ => 0 end) mod 4 = 0.
Proof.
  induction l as [|a|a b|a b c l IH] using list_ind3; [done..|].
  replace (length (sextets (a :: b :: c :: l))) with (length (sextets l) + 4) by (cbn [sextets length]; lia).
  replace (length (a :: b :: c :: l)) with (length l + 1 * 3) by (cbn [length]; lia). rewrite Nat.Div0.mod_add.
  match goal with |- (?x + 4 + ?y) mod 4 = 0 => replace (x + 4 + y) with (x + y + 1 * 4) by lia end. by rewrite Nat.Div0.mod_add.
Qed.

Lemma strip_padding_none l : Forall (λ c, c ≠ "="%char) l → strip_padding l = l.
Proof.
  intros Hl. unfold strip_padding. destruct (reverse l) as [|c r] eqn:Hr; [by apply (f_equal reverse) in Hr; rewrite reverse_involutive in Hr|].
  assert (Hc : c ∈ l) by (rewrite <-elem_of_reverse, Hr; by left). rewrite Forall_forall in Hl. specialize (Hl c Hc). by apply Ascii.eqb_neq in Hl as ->.
Qed.
Lemma strip_padding_app l pad : Forall (λ c, c ≠ "="%char) l → l ≠ [] → pad ∈ [[]; ["="%char]; ["="%char; "="%char]] → strip_padding (l ++ pad) = l.
Proof.
  intros Hl Hne Hpad. rewrite !elem_of_cons, elem_of_nil in Hpad. destruct Hpad as [->|[->|[->|[]]]].
  - rewrite app_nil_r. by apply strip_padding_none.
  - unfold strip_padding. rewrite reverse_app. cbn [app]. destruct (reverse l) as [|c r] eqn:Hr; [by apply (f_equal reverse) in Hr; rewrite reverse_involutive in Hr|].
    assert (Hc : c ∈ l) by (rewrite <-elem_of_reverse, Hr; by left). rewrite Forall_forall in Hl. specialize (Hl c Hc). cbn.
    apply Ascii.eqb_neq in Hl as ->. change (reverse (c :: r) = l). by rewrite <-Hr, reverse_involutive.
  - unfold strip_padding. rewrite reverse_app. cbn. apply reverse_involutive.
Qed.

Lemma StdEncode_list s : ∃ pad, list_ascii_of_string (StdEncode s) = (b64_char false <$> sextets (bytes_of s)) ++ pad ∧
  pad ∈ [[]; ["="%char]; ["="%char; "="%char]] ∧ length pad = match length (bytes_of s) mod 3 with 1 => 2 | 2 => 1 | _ => 0 end.
Proof.
  unfold StdEncode, padding. exists (list_ascii_of_string (padding s)). rewrite list_ascii_app, list_ascii_of_string_of_list_ascii.
  assert (Hlen : length (bytes_of s) = String.length s).
  { unfold bytes_of. rewrite length_fmap. induction s as [|c s IH]; [done|]. cbn. by rewrite IH. }
  rewrite Hlen. split; [done|]. unfold padding. destruct (String.length s mod 3) as [|[|[|n]]]; cbn; split; try done; rewrite !elem_of_cons; auto.
Qed.

Lemma StdEncode_chars s : Forall (λ c, line_break c = false) (list_ascii_of_string (StdEncode s)).
Proof.
  destruct (StdEncode_list s) as (pad & -> & Hpad & _). apply Forall_app_2.
  - apply Forall_fmap. eapply Forall_impl; [apply sextets_small, bytes_of_small|]. intros n Hn. by apply b64_char_plain.
  - rewrite !elem_of_cons, elem_of_nil in Hpad. destruct Hpad as [->|[->|[->|[]]]]; repeat constructor.
Qed.

Lemma b64_char_visible url n : (n < 64)%N → visible (b64_char url n) = true.
Proof.
  intros Hn. assert (H : ∀ url, forallb (λ n, visible (b64_char url n)) (N.of_nat <$> seq 0 64) = true) by (intros []; vm_compute; done).
  specialize (H url). rewrite forallb_forall in H. apply H, list_elem_of_In, list_elem_of_fmap. exists (N.to_nat n). split; [lia|]. apply elem_of_seq. lia.
Qed.
Lemma RawURLEncode_visible s : Forall (λ c, visible c = true) (list_ascii_of_string (RawURLEncode s)).
Proof.
  unfold RawURLEncode. rewrite list_ascii_of_string_of_list_ascii. apply Forall_fmap. eapply Forall_impl; [apply sextets_small, bytes_of_small|]. apply b64_char_visible.
Qed.
Lemma StdEncode_visible s : Forall (λ c, visible c = true) (list_ascii_of_string (StdEncode s)).
Proof.
  destruct (StdEncode_list s) as (pad & -> & Hpad & _). apply Forall_app_2.
  - apply Forall_fmap. eapply Forall_impl; [apply sextets_small, bytes_of_small|]. apply b64_char_visible.
  - rewrite !elem_of_cons, elem_of_nil in Hpad. destruct Hpad as [->|[->|[->|[]]]]; repeat constructor.
Qed.

Lemma StdDecode_Encode s : StdDecode (StdEncode s) = Some s.
Proof.
  unfold StdDecode. assert (Hf : filter (λ c, line_break c = false) (list_ascii_of_string (StdEncode s)) = list_ascii_of_string (StdEncode s)).
  { generalize (StdEncode_chars s). generalize (list_ascii_of_string (StdEncode s)). intros l Hl. induction Hl as [|c l Hc Hl IH]; [done|].
    rewrite filter_cons_True by done. by rewrite IH. }
  rewrite Hf. destruct (StdEncode_list s) as (pad & -> & Hpad & Hlen). assert (Hs := sextets_small _ (bytes_of_small s)).
  rewrite length_app, length_fmap, Hlen, padded_length. cbn [Nat.eqb].
  assert (Hstrip : strip_padding ((b64_char false <$> sextets (bytes_of s)) ++ pad) = b64_char false <$> sextets (bytes_of s)).
  { destruct (decide (bytes_of s = [])) as [He|He].
    - rewrite He in *. cbn in *. by apply nil_length_inv in Hlen as ->.
    - apply strip_padding_app; [|by destruct (bytes_of s) as [|? [|? [|? ?]]]|done]. apply Forall_fmap. eapply Forall_impl; [done|]. apply b64_char_no_pad. }
  rewrite Hstrip. assert (Hm : mapM (b64_value false) (b64_char false <$> sextets (bytes_of s)) = Some (sextets (bytes_of s))).
  { revert Hs. generalize (sextets (bytes_of s)). intros l Hl. induction Hl as [|n l Hn Hl IH]; [done|]. cbn. by rewrite b64_value_char, IH. }
  rewrite Hm. cbn. rewrite octets_sextets by apply bytes_of_small. cbn. by rewrite string_of_bytes_of.
Qed.

Lemma StdEncode_nonempty s : s ≠ "" → StdEncode s ≠ "".
Proof. intros Hs He. assert (Hd := StdDecode_Encode s). rewrite He in Hd. injection Hd as <-. by apply Hs. Qed.

Example StdDecode_ex : StdDecode "YQ==" = Some "a" ∧ StdDecode "YQ" = None ∧ StdDecode "Y===" = None ∧ StdDecode "YT8+" = Some "a?>" ∧ StdDecode "" = Some "".
Proof. vm_compute. repeat split. Qed.

Example base64_ex : StdEncode "user:pass" = "dXNlcjpwYXNz" ∧ StdEncode "a" = "YQ==" ∧ RawURLEncode "a?>" = "YT8-" ∧ RawURLDecode "YT8-" = Some "a?>"
  ∧ RawURLDecode "YQ" = Some "a" ∧ RawURLDecode "YQ==" = None ∧ RawURLDecode "Y" = None.
Proof. vm_compute. repeat split. Qed.
