(* ===== verification/WebhookTypes.v ===== *)
(** * Webhook deliveries: the types and interfaces of src/webhooks

    The delivery record, and the two collaborators of the processor as state-passing
    interfaces: the delivery ledger and the burst controller. *)

From S2P Require Import Prelude GoStrings GoValues Domain Contracts.
From Stdlib Require Import ZArith Lia.
From stdpp Require Import base decidable list gmap strings.

Local Open Scope string_scope.

Definition DeliveryStatusPending := "pending".
Definition DeliveryStatusProcessing := "processing".
Definition DeliveryStatusProcessed := "processed".
Definition DeliveryStatusRetryReady := "retry_ready".
Definition DeliveryStatusDead := "dead".

Record DeliveryRecord := mkDelivery {
  dr_ID : string; dr_ClaimID : string; dr_ProviderID : string; dr_DeliveryID : string;
  dr_Status : string; dr_Attempts : Z; dr_NextAttemptAt : option Time;
  dr_CreatedAt : Time; dr_UpdatedAt : Time }.

Class DeliveryLedger (E L : Type) := {
  dl_Claim : L → CallEnv → string → string → string → Duration → outcome E (DeliveryRecord * bool) * L;
  dl_Get : L → CallEnv → string → string → outcome E DeliveryRecord;
  dl_Complete : L → CallEnv → string → outcome E unit * L;
  dl_Fail : L → CallEnv → string → Time → Z → outcome E unit * L }.

Record BurstDecision := mkBurst { bd_Allow : bool; bd_Metadata : gmap string value }.

Class BurstController (B : Type) := {
  bc_Allow : B → Time → InboundRequest → outcome string BurstDecision * B }.
