(* ===== verification/WebhookStore.v ===== *)
(** * The webhook delivery store (src/store/sql/webhook_delivery_store.go)

    The table [service_webhook_deliveries] is a map from its unique key (provider and delivery id)
    to rows.  Each SQL statement of the store is one atomic step of the table; an operation is
    the sequence of statements the code issues, any of which the database may refuse
    (without effect).  Theorems about the table quantify over arbitrary sequences of statements,
    so they hold under every interleaving of concurrent operations. *)

From S2P Require Import Prelude GoStrings GoValues Domain Contracts GoURL WebhookTypes.
From Stdlib Require Import ZArith Lia Ascii String.
From stdpp Require Import base decidable list gmap strings.

Local Open Scope string_scope.
Local Open Scope nat_scope.
Local Open Scope list_scope.

Record webhookDeliveryRecord := mkRow {
  wd_ID : string; wd_ProviderID : string; wd_DeliveryID : string; wd_Status : string;
  wd_Attempts : Z; wd_NextAttemptAt : option Time; wd_Payload : string;
  wd_CreatedAt : Time; wd_UpdatedAt : Time }.

Abbreviation delivery_table := (gmap (string * string) webhookDeliveryRecord).

Inductive delivery_error :=
| DErrIDsRequired
| DErrNotFound (providerID deliveryID : string)
| DErrInvalidClaimID
| DErrDatabase (cause : string).

(** ** Claim ids *)

Definition buildDeliveryClaimID (providerID deliveryID : string) (attempt : Z) : string :=
  QueryEscape (TrimSpace providerID) +:+ "|" +:+ QueryEscape (TrimSpace deliveryID) +:+ "|" +:+ Itoa attempt.

Definition parseDeliveryClaimID (claimID : string) : outcome delivery_error (string * string * Z) :=
  match SplitChar "|" (TrimSpace claimID) with
  | [part0; part1; part2] =>
    match QueryUnescape part0 with
    | None => Fail DErrInvalidClaimID
    | Some providerID =>
      match QueryUnescape part1 with
      | None => Fail DErrInvalidClaimID
      | Some deliveryID =>
        match Atoi part2 with
        | None => Fail DErrInvalidClaimID
        | Some attempt =>
          if (attempt <=? 0)%Z then Fail DErrInvalidClaimID
          else Ok (TrimSpace providerID, TrimSpace deliveryID, attempt)
        end
      end
    end
  | _ => Fail DErrInvalidClaimID
  end.

(** ** The statements *)

(** [next_attempt_at IS NULL OR next_attempt_at <= now] *)
Definition due (next : option Time) (now : Time) : bool :=
  match next with None => true | Some t => (t <=? now)%Z end.

(** The [WHERE] clause of the claiming update. *)
Definition claimable (now : Time) (r : webhookDeliveryRecord) : bool :=
  String.eqb (wd_Status r) DeliveryStatusPending
  || (String.eqb (wd_Status r) DeliveryStatusRetryReady && due (wd_NextAttemptAt r) now)
  || (String.eqb (wd_Status r) DeliveryStatusProcessing && due (wd_NextAttemptAt r) now).

Definition row_with (r : webhookDeliveryRecord) (status : string) (attempts : Z) (next : option Time) (now : Time)
    : webhookDeliveryRecord :=
  mkRow (wd_ID r) (wd_ProviderID r) (wd_DeliveryID r) status attempts next (wd_Payload r) (wd_CreatedAt r) now.

Inductive delivery_stmt :=
| StmtInsert (r : webhookDeliveryRecord)                             (* ON CONFLICT DO NOTHING *)
| StmtClaim (providerID deliveryID : string) (now leaseUntil : Time)
| StmtComplete (providerID deliveryID : string) (attempt : Z) (now : Time)
| StmtFail (providerID deliveryID : string) (attempt : Z) (status : string) (next : option Time) (now : Time).

(** [WHERE provider_id = ? AND delivery_id = ? AND <cond>]: the update of at most one row, with the
    number of rows affected. *)
Definition update_row (T : delivery_table) (k : string * string) (cond : webhookDeliveryRecord → bool)
    (f : webhookDeliveryRecord → webhookDeliveryRecord) : Z * delivery_table :=
  match T !! k with
  | Some r => if cond r then (1%Z, <[k := f r]> T) else (0%Z, T)
  | None => (0%Z, T)
  end.

Definition holds_attempt (attempt : Z) (r : webhookDeliveryRecord) : bool :=
  String.eqb (wd_Status r) DeliveryStatusProcessing && (wd_Attempts r =? attempt)%Z.

Definition exec (T : delivery_table) (st : delivery_stmt) : Z * delivery_table :=
  match st with
  | StmtInsert r =>
    match T !! (wd_ProviderID r, wd_DeliveryID r) with
    | Some _ => (0%Z, T)
    | None => (1%Z, <[(wd_ProviderID r, wd_DeliveryID r) := r]> T)
    end
  | StmtClaim p d now leaseUntil =>
    update_row T (p, d) (claimable now)
      (λ r, row_with r DeliveryStatusProcessing
              (if (wd_Attempts r <? 1)%Z then 1 else wd_Attempts r + 1)%Z (Some leaseUntil) now)
  | StmtComplete p d attempt now =>
    update_row T (p, d) (holds_attempt attempt)
      (λ r, row_with r DeliveryStatusProcessed (wd_Attempts r) None now)
  | StmtFail p d attempt status next now =>
    update_row T (p, d) (holds_attempt attempt) (λ r, row_with r status (wd_Attempts r) next now)
  end.

Definition exec_all : delivery_table → list delivery_stmt → delivery_table := foldl (λ T st, (exec T st).2).

(** ** The operations *)

Definition webhookDeliveryToDomain (r : webhookDeliveryRecord) : DeliveryRecord :=
  mkDelivery (wd_ID r) "" (wd_ProviderID r) (wd_DeliveryID r) (wd_Status r) (wd_Attempts r)
    (wd_NextAttemptAt r) (wd_CreatedAt r) (wd_UpdatedAt r).

Definition with_claim_id (d : DeliveryRecord) (claimID : string) : DeliveryRecord :=
  mkDelivery (dr_ID d) claimID (dr_ProviderID d) (dr_DeliveryID d) (dr_Status d) (dr_Attempts d)
    (dr_NextAttemptAt d) (dr_CreatedAt d) (dr_UpdatedAt d).

(** [Get]; the n-th statement of the call it is part of. *)
Definition get_at (n : nat) (T : delivery_table) (env : CallEnv) (providerID deliveryID : string)
    : outcome delivery_error DeliveryRecord :=
  match env_fault env n with
  | Some err => Fail (DErrDatabase err)
  | None =>
    match T !! (TrimSpace providerID, TrimSpace deliveryID) with
    | Some r => Ok (webhookDeliveryToDomain r)
    | None => Fail (DErrNotFound providerID deliveryID)
    end
  end.
Definition Delivery_Get : delivery_table → CallEnv → string → string → outcome delivery_error DeliveryRecord :=
  get_at 0.

Definition Delivery_Claim (T : delivery_table) (env : CallEnv) (providerID deliveryID payload : string)
    (lease : Duration) : outcome delivery_error (DeliveryRecord * bool) * delivery_table :=
  let providerID := TrimSpace providerID in
  let deliveryID := TrimSpace deliveryID in
  if String.eqb providerID "" || String.eqb deliveryID "" then (Fail DErrIDsRequired, T)
  else
    let lease := if (lease <=? 0)%Z then (30 * Second)%Z else lease in
    let now := env_now env in
    let record := mkRow (env_uuid env) providerID deliveryID DeliveryStatusPending 0 None payload now now in
    match env_fault env 0 with
    | Some err => (Fail (DErrDatabase err), T)
    | None =>
      let T := (exec T (StmtInsert record)).2 in
      let leaseUntil := addTime now lease in
      match env_fault env 1 with
      | Some err => (Fail (DErrDatabase err), T)
      | None =>
        let (rowsAffected, T) := exec T (StmtClaim providerID deliveryID now leaseUntil) in
        match get_at 2 T env providerID deliveryID with
        | Fail err => (Fail err, T)
        | Ok claimed =>
          if (rowsAffected =? 0)%Z then (Ok (claimed, false), T)
          else (Ok (with_claim_id claimed (buildDeliveryClaimID providerID deliveryID (dr_Attempts claimed)), true), T)
        end
      end
    end.

Definition Delivery_Complete (T : delivery_table) (env : CallEnv) (claimID : string)
    : outcome delivery_error unit * delivery_table :=
  match parseDeliveryClaimID claimID with
  | Fail err => (Fail err, T)
  | Ok (providerID, deliveryID, attempt) =>
    match env_fault env 0 with
    | Some err => (Fail (DErrDatabase err), T)
    | None => (Ok tt, (exec T (StmtComplete providerID deliveryID attempt (env_now env))).2)
    end
  end.

Definition Delivery_Fail (T : delivery_table) (env : CallEnv) (claimID : string) (nextAttemptAt : Time)
    (maxAttempts : Z) : outcome delivery_error unit * delivery_table :=
  match parseDeliveryClaimID claimID with
  | Fail err => (Fail err, T)
  | Ok (providerID, deliveryID, attempt) =>
    let maxAttempts := if (maxAttempts <=? 0)%Z then 8%Z else maxAttempts in
    match get_at 0 T env providerID deliveryID with
    | Fail err => (Fail err, T)
    | Ok record =>
      if negb (String.eqb (dr_Status record) DeliveryStatusProcessing) || negb (dr_Attempts record =? attempt)%Z
      then (Ok tt, T)
      else
        let dead := (maxAttempts <=? dr_Attempts record)%Z in
        let status := if dead then DeliveryStatusDead else DeliveryStatusRetryReady in
        let now := env_now env in
        let next := if dead then None
                    else Some (if IsZero nextAttemptAt then now else nextAttemptAt) in
        match env_fault env 1 with
        | Some err => (Fail (DErrDatabase err), T)
        | None => (Ok tt, (exec T (StmtFail providerID deliveryID attempt status next now)).2)
        end
    end
  end.

#[export] Instance WebhookDeliveryStore_ledger : DeliveryLedger delivery_error delivery_table :=
  {| dl_Claim := Delivery_Claim; dl_Get := Delivery_Get; dl_Complete := Delivery_Complete; dl_Fail := Delivery_Fail |}.

(** ** Claim ids identify an attempt *)

Lemma QueryEscape_no_sep s : Forall (λ c, Ascii.eqb c "|" = false) (list_ascii_of_string (QueryEscape s)).
Proof.
  eapply Forall_impl; [apply QueryEscape_safe|]. unfold url_safe. intros c.
  by rewrite andb_true_iff, negb_true_iff; intros [_ ?].
Qed.
Lemma QueryEscape_visible s : Forall (λ c, visible c = true) (list_ascii_of_string (QueryEscape s)).
Proof. eapply Forall_impl; [apply QueryEscape_safe|]. unfold url_safe. by intros c [? _]%andb_true_iff. Qed.

Lemma Itoa_no_sep z : (0 ≤ z)%Z → Forall (λ c, Ascii.eqb c "|" = false) (list_ascii_of_string (Itoa z)).
Proof.
  intros Hz. pose proof (digits_value_Itoa z Hz) as H. revert H. generalize 0%Z. generalize (Itoa z).
  induction s as [|c s IH]; simpl; [constructor|]. intros acc.
  destruct (digit_value c) eqn:Hd; [|done]. intros H. constructor; [|by eapply IH].
  destruct (Ascii.eqb_spec c "|") as [->|]; done.
Qed.

Lemma build_visible p d n : (0 ≤ n)%Z → TrimSpace (buildDeliveryClaimID p d n) = buildDeliveryClaimID p d n.
Proof.
  intros Hn. apply TrimSpace_visible. unfold buildDeliveryClaimID. rewrite !list_ascii_app.
  repeat (apply Forall_app; split); auto using QueryEscape_visible, Itoa_visible; by repeat constructor.
Qed.

Lemma parse_build p d n :
  (0 < n ≤ int64_max)%Z →
  parseDeliveryClaimID (buildDeliveryClaimID p d n) = Ok (TrimSpace p, TrimSpace d, n).
Proof.
  intros Hn. unfold parseDeliveryClaimID. rewrite build_visible by lia. unfold buildDeliveryClaimID.
  rewrite (SplitChar_sep "|" (QueryEscape (TrimSpace p))) by apply QueryEscape_no_sep.
  rewrite (SplitChar_sep "|" (QueryEscape (TrimSpace d))) by apply QueryEscape_no_sep.
  rewrite (SplitChar_plain _ (Itoa n)) by (apply Itoa_no_sep; lia).
  rewrite !QueryUnescape_QueryEscape, Atoi_Itoa by lia.
  destruct (Z.leb_spec n 0); [lia|]. by rewrite !TrimSpace_idem.
Qed.

(** Claim ids are read back exactly: parsing the id built for an attempt gives the trimmed
    provider, the trimmed delivery and the attempt number, whatever bytes the ids contain (separators, blanks,
    percent signs), so no two attempts share an id. *)
Theorem delivery_claim_id_roundtrip p d n :
  (0 < n ≤ int64_max)%Z →
  parseDeliveryClaimID (buildDeliveryClaimID p d n) = Ok (TrimSpace p, TrimSpace d, n) ∧
  (∀ p' d' n', (0 < n' ≤ int64_max)%Z → buildDeliveryClaimID p d n = buildDeliveryClaimID p' d' n' →
     TrimSpace p = TrimSpace p' ∧ TrimSpace d = TrimSpace d' ∧ n = n').
Proof.
  intros Hn. split; [by apply parse_build|]. intros p' d' n' Hn' Heq.
  pose proof (parse_build p d n Hn) as H. rewrite Heq, parse_build in H by done. by simplify_eq.
Qed.

Lemma delivery_claim_id_roundtrip_witness :
  parseDeliveryClaimID (buildDeliveryClaimID " git|hub" "50% +d" 12) = Ok ("git|hub", "50% +d", 12%Z).
Proof. apply (delivery_claim_id_roundtrip " git|hub" "50% +d" 12). unfold int64_max. lia. Defined.

(** ** How rows evolve *)

Lemma update_row_other T k k' cond f : k ≠ k' → (update_row T k cond f).2 !! k' = T !! k'.
Proof. intros Hk. unfold update_row. go_cases; simpl; auto. by rewrite lookup_insert_ne. Qed.

Lemma update_row_lookup T k cond f r :
  T !! k = Some r → (update_row T k cond f).2 !! k = Some (if cond r then f r else r).
Proof.
  intros Hr. unfold update_row. rewrite Hr. destruct (cond r); simpl; [by rewrite lookup_insert_eq|done].
Qed.

Definition stmt_key (st : delivery_stmt) : string * string :=
  match st with
  | StmtInsert r => (wd_ProviderID r, wd_DeliveryID r)
  | StmtClaim p d _ _ | StmtComplete p d _ _ | StmtFail p d _ _ _ _ => (p, d)
  end.

(** The row a statement makes of an existing row of its key. *)
Definition stmt_row (st : delivery_stmt) (r : webhookDeliveryRecord) : webhookDeliveryRecord :=
  match st with
  | StmtInsert _ => r
  | StmtClaim _ _ now leaseUntil =>
    if claimable now r then row_with r DeliveryStatusProcessing
      (if (wd_Attempts r <? 1)%Z then 1 else wd_Attempts r + 1)%Z (Some leaseUntil) now else r
  | StmtComplete _ _ attempt now =>
    if holds_attempt attempt r then row_with r DeliveryStatusProcessed (wd_Attempts r) None now else r
  | StmtFail _ _ attempt status next now =>
    if holds_attempt attempt r then row_with r status (wd_Attempts r) next now else r
  end.

Lemma exec_row T st k r :
  T !! k = Some r →
  (exec T st).2 !! k = Some (if decide (stmt_key st = k) then stmt_row st r else r).
Proof.
  intros Hr. destruct (decide (stmt_key st = k)) as [<-|Hk]; destruct st; simpl in *.
  - by rewrite Hr.
  - by apply update_row_lookup.
  - by apply update_row_lookup.
  - by apply update_row_lookup.
  - go_cases; simpl; auto. by rewrite lookup_insert_ne.
  - by rewrite update_row_other.
  - by rewrite update_row_other.
  - by rewrite update_row_other.
Qed.

(** A property of the row of a key that every statement keeps is kept by every run. *)
Lemma exec_all_row (P : webhookDeliveryRecord → Prop) (Q : delivery_stmt → Prop) T ss k r :
  (∀ st r, Q st → stmt_key st = k → P r → P (stmt_row st r)) →
  Forall Q ss → T !! k = Some r → P r → ∃ r', exec_all T ss !! k = Some r' ∧ P r'.
Proof.
  intros Hstep Hss. revert T r. induction Hss as [|st ss Hst _ IH]; intros T r Hr HP; simpl; [eauto|].
  pose proof (exec_row T st k r Hr) as Hr'. eapply IH; [exact Hr'|].
  destruct (decide (stmt_key st = k)); auto.
Qed.

Definition terminal (r : webhookDeliveryRecord) : Prop :=
  wd_Status r = DeliveryStatusProcessed ∨ wd_Status r = DeliveryStatusDead.

Lemma terminal_stmt st r : terminal r → stmt_row st r = r.
Proof.
  intros Ht. destruct st; simpl; auto; unfold claimable, holds_attempt;
    by destruct Ht as [-> | ->].
Qed.

Lemma exec_all_terminal T ss k r : T !! k = Some r → terminal r → exec_all T ss !! k = Some r.
Proof.
  intros Hr Ht. destruct (exec_all_row (λ r', r' = r) (λ _, True) T ss k r) as (r' & Hr' & ->); auto.
  - intros st r' _ _ ->. by apply terminal_stmt.
  - by apply Forall_true.
Qed.

(** [Claim] when the database refuses none of its statements: the outcome is decided by the row
    the delivery had, or by a fresh pending one. *)
Definition fresh_row (env : CallEnv) (p d payload : string) : webhookDeliveryRecord :=
  mkRow (env_uuid env) p d DeliveryStatusPending 0 None payload (env_now env) (env_now env).
Definition delivery_lease (lease : Duration) : Duration := if (lease <=? 0)%Z then (30 * Second)%Z else lease.

Definition claim_base (T : delivery_table) (env : CallEnv) (p d payload : string) : webhookDeliveryRecord :=
  default (fresh_row env (TrimSpace p) (TrimSpace d) payload) (T !! (TrimSpace p, TrimSpace d)).
Definition claimed_row (r : webhookDeliveryRecord) (now : Time) (lease : Duration) : webhookDeliveryRecord :=
  row_with r DeliveryStatusProcessing (if (wd_Attempts r <? 1)%Z then 1 else wd_Attempts r + 1)%Z
    (Some (addTime now (delivery_lease lease))) now.
Definition claim_record (p d : string) (r : webhookDeliveryRecord) : DeliveryRecord :=
  with_claim_id (webhookDeliveryToDomain r) (buildDeliveryClaimID (TrimSpace p) (TrimSpace d) (wd_Attempts r)).

(** Without faults a claim is answered, and a due delivery is handed out. *)
Lemma Claim_succeeds T env p d payload lease :
  TrimSpace p ≠ "" → TrimSpace d ≠ "" → (∀ n, n < 3 → env_fault env n = None) →
  let k := (TrimSpace p, TrimSpace d) in
  let r := claim_base T env p d payload in
  Delivery_Claim T env p d payload lease =
    if claimable (env_now env) r
    then (Ok (claim_record p d (claimed_row r (env_now env) lease), true),
          <[k := claimed_row r (env_now env) lease]> T)
    else (Ok (webhookDeliveryToDomain r, false), T).
Proof.
  intros Hp Hd Hf. unfold Delivery_Claim, claim_base.
  destruct (String.eqb_spec (TrimSpace p) ""); [done|]. destruct (String.eqb_spec (TrimSpace d) ""); [done|].
  simpl orb. cbv iota zeta. unfold get_at. rewrite !Hf by lia.
  fold (fresh_row env (TrimSpace p) (TrimSpace d) payload). fold (delivery_lease lease).
  rewrite !TrimSpace_idem. unfold exec, update_row. simpl wd_ProviderID. simpl wd_DeliveryID.
  destruct (T !! (TrimSpace p, TrimSpace d)) as [r|] eqn:Hk; simpl; rewrite ?Hk, ?lookup_insert_eq; simpl.
  - destruct (claimable (env_now env) r) eqn:Hc; simpl; by rewrite ?Hk, ?lookup_insert_eq.
  - by rewrite lookup_insert_eq, insert_insert_eq.
Qed.

Lemma Claim_accepts T env p d payload lease rec T' :
  Delivery_Claim T env p d payload lease = (Ok (rec, true), T') →
  TrimSpace p ≠ "" ∧ TrimSpace d ≠ "" ∧ claimable (env_now env) (claim_base T env p d payload) = true ∧
  let r := claimed_row (claim_base T env p d payload) (env_now env) lease in
  T' = <[(TrimSpace p, TrimSpace d) := r]> T ∧ rec = claim_record p d r.
Proof.
  intros H. assert (Hpre : TrimSpace p ≠ "" ∧ TrimSpace d ≠ "" ∧ ∀ n, n < 3 → env_fault env n = None).
  { unfold Delivery_Claim in H.
    destruct (String.eqb_spec (TrimSpace p) ""); [done|]. destruct (String.eqb_spec (TrimSpace d) ""); [done|].
    simpl orb in H. cbv iota zeta in H. destruct (env_fault env 0) eqn:F0; [done|].
    destruct (env_fault env 1) eqn:F1; [done|]. destruct (exec _ (StmtClaim _ _ _ _)) as [rows T1].
    unfold get_at in H. destruct (env_fault env 2) eqn:F2; [done|]. split_and!; auto.
    intros [|[|[|n']]] Hn; auto; lia. }
  destruct Hpre as (Hp & Hd & Hf). rewrite Claim_succeeds in H by done. cbv zeta in H.
  destruct (claimable _ _) eqn:Hc; [|done]. by simplify_eq.
Qed.

Lemma Claim_refused T env p d payload lease r :
  T !! (TrimSpace p, TrimSpace d) = Some r → claimable (env_now env) r = false →
  (Delivery_Claim T env p d payload lease).2 = T ∧
  ∀ rec, (Delivery_Claim T env p d payload lease).1 ≠ Ok (rec, true).
Proof.
  intros Hr Hc. unfold Delivery_Claim. destruct (_ || _); [done|]. cbv zeta.
  destruct (env_fault env 0); [done|]. unfold exec, update_row. simpl. rewrite Hr. simpl.
  destruct (env_fault env 1); [done|]. rewrite Hr, Hc. unfold get_at.
  rewrite !TrimSpace_idem, Hr. by destruct (env_fault env 2).
Qed.

Lemma Complete_stmt T env p d n :
  (0 < n ≤ int64_max)%Z →
  (Delivery_Complete T env (buildDeliveryClaimID p d n)).2 =
    match env_fault env 0 with
    | Some _ => T
    | None => (exec T (StmtComplete (TrimSpace p) (TrimSpace d) n (env_now env))).2
    end.
Proof. intros Hn. unfold Delivery_Complete. rewrite parse_build by done. by destruct (env_fault env 0). Qed.

(** Settling an attempt the row does not hold changes nothing. *)
Lemma unheld_settles_nothing T env claimID p d n r next max :
  parseDeliveryClaimID claimID = Ok (p, d, n) → TrimSpace p = p → TrimSpace d = d →
  T !! (p, d) = Some r → holds_attempt n r = false →
  (Delivery_Complete T env claimID).2 = T ∧ (Delivery_Fail T env claimID next max).2 = T.
Proof.
  intros Hid Hp Hd Hr Hh. unfold Delivery_Complete, Delivery_Fail, get_at. rewrite Hid, Hp, Hd. split.
  - destruct (env_fault env 0); [done|]. simpl. unfold update_row. by rewrite Hr, Hh.
  - destruct (env_fault env 0); [done|]. rewrite Hr. simpl. unfold holds_attempt in Hh.
    rewrite <- negb_andb, Hh. done.
Qed.

(** Settling the attempt the row holds, by the id of its claim. *)
Definition failed_row (r : webhookDeliveryRecord) (now next : Time) (max : Z) : webhookDeliveryRecord :=
  if (max <=? wd_Attempts r)%Z then row_with r DeliveryStatusDead (wd_Attempts r) None now
  else row_with r DeliveryStatusRetryReady (wd_Attempts r) (Some (if IsZero next then now else next)) now.

Lemma held_settles T env p d r :
  let k := (TrimSpace p, TrimSpace d) in
  let id := dr_ClaimID (claim_record p d r) in
  T !! k = Some r → wd_Status r = DeliveryStatusProcessing → (0 < wd_Attempts r ≤ int64_max)%Z →
  (∀ n, env_fault env n = None) →
  Delivery_Complete T env id =
    (Ok tt, <[k := row_with r DeliveryStatusProcessed (wd_Attempts r) None (env_now env)]> T) ∧
  ∀ next max, (0 < max)%Z → Delivery_Fail T env id next max = (Ok tt, <[k := failed_row r (env_now env) next max]> T).
Proof.
  intros k id Hr Hs Hn Hf. unfold Delivery_Complete, Delivery_Fail, get_at, id. simpl dr_ClaimID.
  rewrite parse_build, !TrimSpace_idem by done. rewrite !Hf. fold k.
  assert (Hh : holds_attempt (wd_Attempts r) r = true) by (unfold holds_attempt; by rewrite Hs, Z.eqb_refl).
  split; [unfold exec, update_row; fold k; by rewrite Hr, Hh|].
  intros next max Hmax. rewrite Hr. simpl dr_Status. simpl dr_Attempts. rewrite Hs, Z.eqb_refl. simpl negb. simpl orb.
  destruct (Z.leb_spec max 0) as [|_]; [lia|]. cbv iota. unfold exec, update_row, failed_row. fold k. rewrite Hr, Hh.
  by destruct (max <=? wd_Attempts r)%Z.
Qed.

(** A processed or dead delivery is final.  Whatever statements concurrent workers run,
    its row stays as it is; no [Claim] hands it out again, and no [Complete] or [Fail] of
    any claim id changes it. *)
Theorem delivery_terminal T ss p d r :
  T !! (TrimSpace p, TrimSpace d) = Some r → terminal r →
  exec_all T ss !! (TrimSpace p, TrimSpace d) = Some r ∧
  (∀ env payload lease rec,
     (Delivery_Claim (exec_all T ss) env p d payload lease).1 ≠ Ok (rec, true)) ∧
  (∀ env claimID next max,
     (Delivery_Complete (exec_all T ss) env claimID).2 !! (TrimSpace p, TrimSpace d) = Some r ∧
     (Delivery_Fail (exec_all T ss) env claimID next max).2 !! (TrimSpace p, TrimSpace d) = Some r).
Proof.
  intros Hr Ht. pose proof (exec_all_terminal T ss _ r Hr Ht) as Hr'. split_and!; [done| |].
  - intros env payload lease. apply (Claim_refused _ _ _ _ _ _ r Hr').
    unfold claimable. by destruct Ht as [-> | ->].
  - intros env claimID next max. unfold Delivery_Complete, Delivery_Fail.
    pose proof (λ st, exec_all_terminal (exec_all T ss) [st] _ r Hr' Ht) as Hst.
    split; repeat first [done | apply Hst | go_case | progress simpl].
Qed.

(** What the others may do to a delivery during an attempt: claim it before [until], settle other
    attempts than the [n]-th. *)
Definition bystander (k : string * string) (until : Time) (n : Z) (st : delivery_stmt) : Prop :=
  stmt_key st = k →
  match st with
  | StmtInsert _ => True
  | StmtClaim _ _ now _ => (now < until)%Z
  | StmtComplete _ _ m _ | StmtFail _ _ m _ _ _ => m ≠ n
  end.

Definition leased (until : Time) (r : webhookDeliveryRecord) : Prop :=
  wd_Status r = DeliveryStatusProcessing ∧ wd_NextAttemptAt r = Some until.

Lemma leased_not_claimable until r now : leased until r → (now < until)%Z → claimable now r = false.
Proof.
  intros [Hs Hn] Hlt. unfold claimable. rewrite Hs, Hn. simpl. by destruct (Z.leb_spec until now); [lia|].
Qed.

Lemma leased_kept T ss k until r :
  T !! k = Some r → leased until r → Forall (bystander k until (wd_Attempts r)) ss →
  exec_all T ss !! k = Some r.
Proof.
  intros Hr Hl Hss.
  destruct (exec_all_row (λ r', r' = r) (bystander k until (wd_Attempts r)) T ss k r) as (r' & Hr' & ->); auto.
  intros st r' Hst Hk ->. specialize (Hst Hk). destruct st; simpl in *; auto; unfold holds_attempt.
  - by rewrite (leased_not_claimable until) by done.
  - destruct (Z.eqb_spec (wd_Attempts r) attempt); [congruence|by rewrite andb_false_r].
  - destruct (Z.eqb_spec (wd_Attempts r) attempt); [congruence|by rewrite andb_false_r].
Qed.

Lemma claimed_attempts r now lease :
  (1 ≤ wd_Attempts (claimed_row r now lease) ∧ wd_Attempts r < wd_Attempts (claimed_row r now lease))%Z.
Proof. simpl. destruct (Z.ltb_spec (wd_Attempts r) 1); lia. Qed.

Lemma claimed_leased r now lease : leased (now + delivery_lease lease) (claimed_row r now lease).
Proof. done. Qed.

(** C2: within the lease a claimed delivery is exclusive.  After an accepted claim, under any
    interleaving of statements in which every claim of this delivery reads a clock before the end
    of the lease and no one settles this very attempt, the delivery keeps its row, and no further [Claim] of it
    before the end of the lease is accepted. *)
Theorem delivery_exclusive T env p d payload lease rec T' ss :
  Delivery_Claim T env p d payload lease = (Ok (rec, true), T') →
  let k := (TrimSpace p, TrimSpace d) in
  let until := (env_now env + delivery_lease lease)%Z in
  Forall (bystander k until (dr_Attempts rec)) ss →
  exec_all T' ss !! k = T' !! k ∧
  ∀ env' payload' lease' rec', (env_now env' < until)%Z →
    (Delivery_Claim (exec_all T' ss) env' p d payload' lease').1 ≠ Ok (rec', true).
Proof.
  intros Hc k until Hss. destruct (Claim_accepts _ _ _ _ _ _ _ _ Hc) as (_ & _ & _ & HT & Hrec).
  cbv zeta in HT, Hrec. set (r := claimed_row _ _ _) in *.
  assert (Hr : T' !! k = Some r) by (rewrite HT; apply lookup_insert_eq).
  assert (Hl : leased until r) by apply claimed_leased.
  assert (Hk : exec_all T' ss !! k = Some r) by (apply (leased_kept _ _ _ until); auto; by subst rec).
  split; [congruence|]. intros env' payload' lease' rec' Hnow.
  apply (Claim_refused _ _ _ _ _ _ r Hk). by apply (leased_not_claimable until).
Qed.

(** Attempts never decrease. *)
Lemma attempts_grow T ss k r :
  T !! k = Some r → ∃ r', exec_all T ss !! k = Some r' ∧ (wd_Attempts r ≤ wd_Attempts r')%Z.
Proof.
  intros Hr. apply (exec_all_row (λ r', (wd_Attempts r ≤ wd_Attempts r')%Z) (λ _, True) T ss k r);
    [|by apply Forall_true|done|lia].
  intros st r' _ _ Hle. destruct st; simpl; go_cases; simpl; go_times; lia.
Qed.

(** ** Counting attempts *)

Definition attempts_of (T : delivery_table) (k : string * string) : Z := default 0%Z (wd_Attempts <$> T !! k).
Definition stmt_claims (st : delivery_stmt) : Z := match st with StmtClaim _ _ _ _ => 1 | _ => 0 end.
Definition inserts_fresh (st : delivery_stmt) : Prop :=
  match st with StmtInsert r => wd_Attempts r = 0%Z | _ => True end.
Definition claims_in (ss : list delivery_stmt) : Z := foldr (λ st n, stmt_claims st + n)%Z 0%Z ss.

Lemma exec_attempts T st k :
  inserts_fresh st → (0 ≤ attempts_of T k)%Z →
  (attempts_of T k ≤ attempts_of (exec T st).2 k ≤ attempts_of T k + stmt_claims st)%Z.
Proof.
  intros Hi Hnn. unfold attempts_of in *. destruct (T !! k) as [r|] eqn:Hr.
  - rewrite (exec_row T st k r Hr). simpl in *. destruct (decide _) as [_|]; simpl; [|destruct st; simpl; lia].
    destruct st; simpl; repeat case_match; simpl; go_times; lia.
  - simpl. destruct st; simpl; unfold update_row; case_match; simpl; rewrite ?Hr; simpl; try lia.
    + destruct (decide ((wd_ProviderID r, wd_DeliveryID r) = k)) as [<-|Hne];
        [rewrite lookup_insert_eq|rewrite lookup_insert_ne, Hr by done]; simpl in *; lia.
    + case_match; simpl; rewrite ?Hr; simpl; [|lia]. rewrite lookup_insert_ne, Hr by congruence. simpl. lia.
    + case_match; simpl; rewrite ?Hr; simpl; [|lia]. rewrite lookup_insert_ne, Hr by congruence. simpl. lia.
    + case_match; simpl; rewrite ?Hr; simpl; [|lia]. rewrite lookup_insert_ne, Hr by congruence. simpl. lia.
Qed.

Lemma exec_all_attempts T ss k :
  Forall inserts_fresh ss → (0 ≤ attempts_of T k)%Z →
  (attempts_of T k ≤ attempts_of (exec_all T ss) k ≤ attempts_of T k + claims_in ss)%Z.
Proof.
  intros Hss. revert T. induction Hss as [|st ss Hst _ IH]; intros T Hnn; [simpl; lia|].
  pose proof (exec_attempts T st k Hst Hnn). specialize (IH (exec T st).2).
  change (exec_all T (st :: ss)) with (exec_all (exec T st).2 ss).
  change (claims_in (st :: ss)) with (stmt_claims st + claims_in ss)%Z. lia.
Qed.

(** The statements an operation has executed when it returns, and how often it claimed. *)
Definition issues (n : Z) (T T' : delivery_table) : Prop :=
  ∃ ss, T' = exec_all T ss ∧ Forall inserts_fresh ss ∧ (claims_in ss ≤ n)%Z.

Lemma issues_none T n : (0 ≤ n)%Z → issues n T T.
Proof. exists []. split_and!; [done|constructor|done]. Qed.
Lemma issues_trans T1 T2 T3 n m : issues n T1 T2 → issues m T2 T3 → issues (n + m) T1 T3.
Proof.
  intros (s1 & -> & H1 & Hn) (s2 & -> & H2 & Hm). exists (s1 ++ s2). unfold exec_all. split_and!.
  - by rewrite foldl_app.
  - by apply Forall_app.
  - unfold claims_in in *. rewrite foldr_app. clear -Hn Hm. revert n Hn. induction s1 as [|st s1 IH]; intros n Hn; simpl in *; [lia|].
    specialize (IH (n - stmt_claims st)%Z). lia.
Qed.

Lemma issues_claim T env p d payload lease : issues 1 T (Delivery_Claim T env p d payload lease).2.
Proof.
  unfold Delivery_Claim. destruct (_ || _); [by apply issues_none|]. cbv zeta.
  destruct (env_fault env 0); [by apply issues_none|].
  set (ins := StmtInsert _). set (cl := StmtClaim _ _ _ _). destruct (env_fault env 1).
  { exists [ins]. split_and!; [done|by repeat constructor|done]. }
  assert (Hres : issues 1 T (exec (exec T ins).2 cl).2).
  { exists [ins; cl]. split_and!; [done|by repeat constructor|done]. }
  destruct (exec (exec T ins).2 cl) as [rows T2]. by destruct (get_at _ _ _ _ _); [destruct (rows =? 0)%Z|].
Qed.

Lemma issues_complete T env id : issues 0 T (Delivery_Complete T env id).2.
Proof.
  unfold Delivery_Complete. destruct (parseDeliveryClaimID id) as [[[p d] n]|]; [|by apply issues_none].
  destruct (env_fault env 0); [by apply issues_none|].
  exists [StmtComplete p d n (env_now env)]. split_and!; [done|by repeat constructor|done].
Qed.

(** Fencing.  Once a delivery has been claimed a second time, the claim id of the first
    holder is dead: whatever statements follow, completing or failing it changes nothing,
    so a worker that lost its lease cannot mark or release the work of its successor.  (Attempt numbers
    are machine integers.) *)
Theorem delivery_fencing T env1 p d payload1 lease1 rec1 T1 ss1 env2 payload2 lease2 rec2 T2 ss2 env next max :
  Delivery_Claim T env1 p d payload1 lease1 = (Ok (rec1, true), T1) →
  Delivery_Claim (exec_all T1 ss1) env2 p d payload2 lease2 = (Ok (rec2, true), T2) →
  (dr_Attempts rec1 ≤ int64_max)%Z →
  (Delivery_Complete (exec_all T2 ss2) env (dr_ClaimID rec1)).2 = exec_all T2 ss2 ∧
  (Delivery_Fail (exec_all T2 ss2) env (dr_ClaimID rec1) next max).2 = exec_all T2 ss2.
Proof.
  intros H1 H2 Hmax.
  destruct (Claim_accepts _ _ _ _ _ _ _ _ H1) as (_ & _ & _ & HT1 & ->).
  destruct (Claim_accepts _ _ _ _ _ _ _ _ H2) as (_ & _ & _ & HT2 & _). cbv zeta in HT1, HT2.
  set (r1 := claimed_row _ _ lease1) in *. set (k := (TrimSpace p, TrimSpace d)) in *.
  destruct (attempts_grow T1 ss1 k r1) as (r1' & Hr1' & Hle); [rewrite HT1; apply lookup_insert_eq|].
  unfold claim_base in HT2. fold k in HT2. rewrite Hr1' in HT2. simpl in HT2.
  destruct (attempts_grow T2 ss2 k (claimed_row r1' (env_now env2) lease2)) as (r2 & Hr2 & Hle2);
    [rewrite HT2; apply lookup_insert_eq|].
  assert (Hpos : (1 ≤ wd_Attempts r1)%Z) by apply claimed_attempts.
  pose proof (claimed_attempts r1' (env_now env2) lease2) as [_ Hlt].
  apply (unheld_settles_nothing _ _ _ (TrimSpace p) (TrimSpace d) (wd_Attempts r1) r2); auto using TrimSpace_idem.
  - change (dr_ClaimID _) with (buildDeliveryClaimID (TrimSpace p) (TrimSpace d) (wd_Attempts r1)).
    rewrite parse_build, !TrimSpace_idem; [done|]. change (dr_Attempts _) with (wd_Attempts r1) in Hmax. by split; [lia|].
  - unfold holds_attempt. destruct (Z.eqb_spec (wd_Attempts r2) (wd_Attempts r1)) as [E|]; [|by rewrite andb_false_r].
    exfalso. lia.
Qed.

(** ** Concrete runs *)

Definition demo_claim_1 := Delivery_Claim ∅ (quiet 100 "u1") "gh" " d1" "{}" 30.
Definition demo_row (status : string) : webhookDeliveryRecord := mkRow "u1" "gh" "d1" status 3 None "{}" 100 110.

Lemma delivery_terminal_witness :
  let T := {[ ("gh", "d1") := demo_row DeliveryStatusDead ]} : delivery_table in
  exec_all T [StmtClaim "gh" "d1" 500 600; StmtFail "gh" "d1" 3 "retry_ready" None 700] !! ("gh", "d1")
  = Some (demo_row DeliveryStatusDead).
Proof.
  intros T. apply (delivery_terminal T _ "gh" "d1 " (demo_row DeliveryStatusDead)).
  - vm_compute. reflexivity.
  - right. reflexivity.
Defined.

Lemma delivery_exclusive_witness :
  let T := exec_all demo_claim_1.2 [StmtClaim "gh" "d1" 110 140; StmtComplete "gh" "d1" 7 115] in
  T !! ("gh", "d1") = demo_claim_1.2 !! ("gh", "d1") ∧
  ∀ payload' lease' rec', (Delivery_Claim T (quiet 129 "u2") "gh" " d1" payload' lease').1 ≠ Ok (rec', true).
Proof.
  destruct (delivery_exclusive ∅ (quiet 100 "u1") "gh" " d1" "{}" 30
    (claim_record "gh" " d1" (claimed_row (fresh_row (quiet 100 "u1") "gh" "d1" "{}") 100 30)) demo_claim_1.2
    [StmtClaim "gh" "d1" 110 140; StmtComplete "gh" "d1" 7 115]) as [Hrow Hno].
  - vm_compute. reflexivity.
  - repeat constructor; intros _; vm_compute; congruence.
  - split; [exact Hrow|]. intros payload' lease' rec'. apply Hno. vm_compute. reflexivity.
Defined.

Lemma delivery_fencing_witness :
  let c2 := Delivery_Claim demo_claim_1.2 (quiet 131 "u2") "gh" " d1" "{}" 30 in
  (Delivery_Complete c2.2 (quiet 140 "") "gh|d1|1").2 = c2.2.
Proof.
  intros c2.
  apply (delivery_fencing ∅ (quiet 100 "u1") "gh" " d1" "{}" 30
    (claim_record "gh" " d1" (claimed_row (fresh_row (quiet 100 "u1") "gh" "d1" "{}") 100 30)) demo_claim_1.2
    [] (quiet 131 "u2") "{}" 30
    (claim_record "gh" " d1" (claimed_row (claimed_row (fresh_row (quiet 100 "u1") "gh" "d1" "{}") 100 30) 131 30))
    c2.2 [] (quiet 140 "") 0 0).
  - vm_compute. reflexivity.
  - vm_compute. reflexivity.
  - vm_compute. congruence.
Defined.

(** The claim id is built from the attempts read back by a statement of its own, after the claiming
    update.  When a worker's lease runs out between the two and another worker claims the
    delivery, both are handed the same claim id, and fencing no longer tells them apart. *)
Example claim_id_race :
  let envA := quiet 100 "ua" in
  let T0 := (exec ∅ (StmtInsert (fresh_row envA "gh" "d1" "{}"))).2 in
  let (rowsA, T1) := exec T0 (StmtClaim "gh" "d1" 100 130) in
  let (resB, T2) := Delivery_Claim T1 (quiet 131 "ub") "gh" "d1" "{}" 30 in
  rowsA = 1%Z ∧
  match get_at 2 T2 envA "gh" "d1", resB with
  | Ok recA, Ok (recB, true) => buildDeliveryClaimID "gh" "d1" (dr_Attempts recA) = dr_ClaimID recB
  | _, _ => False
  end.
Proof. vm_compute. auto. Qed.
