(* ===== verification/Burst.v ===== *)
(** * Burst control of webhook deliveries (src/webhooks/burst_control.go)

    The controller remembers when it last saw each burst key and forgets old entries as it goes.
    The theorem relates it to the history of the calls. *)

From S2P Require Import Prelude GoStrings GoValues Domain Contracts WebhookTypes.
From Stdlib Require Import ZArith Lia.
From stdpp Require Import base decidable list gmap strings sorting.

Local Open Scope string_scope.
Local Open Scope nat_scope.
Local Open Scope list_scope.

Definition BurstModeNone := "none".
Definition BurstModeCoalesce := "coalesce".
Definition BurstModeDebounce := "debounce".

(** The key of a request, [None] where the extractor reports that there is none. *)
Abbreviation BurstKeyExtractor := (InboundRequest → option string).

Definition normalizeBurstMode (mode : string) : string :=
  let m := ToLower (TrimSpace mode) in
  if String.eqb m BurstModeCoalesce then BurstModeCoalesce
  else if String.eqb m BurstModeDebounce then BurstModeDebounce
  else BurstModeNone.

Record BurstOptions := mkBurstOptions {
  bo_Mode : string; bo_Window : Duration; bo_MaxEntries : Z; bo_ExtractKey : option BurstKeyExtractor }.

Record DefaultBurstController := mkBurstController {
  bu_mode : string; bu_window : Duration; bu_maxEntries : Z; bu_extractKey : BurstKeyExtractor;
  bu_entries : gmap string Time }.

Definition bu_with (c : DefaultBurstController) (entries : gmap string Time) : DefaultBurstController :=
  mkBurstController (bu_mode c) (bu_window c) (bu_maxEntries c) (bu_extractKey c) entries.

Section burst.
Context {MR : MapRange}.

(** The first of the named metadata values, then of the headers, that is not blank. *)
Definition DefaultBurstKeyExtractor (req : InboundRequest) : option string :=
  let providerID := lowerTrim (in_ProviderID req) in
  if String.eqb providerID "" then None
  else
    let candidates :=
      ((λ key, let value := TrimSpace (Sprint (mapGet (in_Metadata req) key)) in
               if String.eqb value "<nil>" then "" else value)
         <$> ["burst_key"; "channel_id"; "resource_id"])
      ++ ((λ key, TrimSpace (headerValue (in_Headers req) key))
            <$> ["x-goog-channel-id"; "x-channel-id"; "x-resource-id"]) in
    match head (filter (λ v, v ≠ "") candidates) with
    | Some value => Some (providerID +:+ ":" +:+ ToLower value)
    | None => None
    end.

Definition NewBurstController (opts : BurstOptions) : DefaultBurstController :=
  mkBurstController (normalizeBurstMode (bo_Mode opts))
    (if (bo_Window opts <=? 0)%Z then (2 * Second)%Z else bo_Window opts)
    (if (bo_MaxEntries opts <=? 0)%Z then 4096%Z else bo_MaxEntries opts)
    (default DefaultBurstKeyExtractor (bo_ExtractKey opts)) ∅.

(** The second loop of [cleanup]: it stops as soon as the table fits. *)
Fixpoint cleanup_loop (now : Time) (window : Duration) (maxEntries : Z) (l : list (string * Time))
    (entries : gmap string Time) : gmap string Time :=
  match l with
  | [] => entries
  | (key, seenAt) :: l' =>
    let entries := if (window <? subTime now seenAt)%Z then delete key entries else entries in
    if (Z.of_nat (size entries) <=? maxEntries)%Z then entries
    else cleanup_loop now window maxEntries l' entries
  end.

Definition burst_cleanup (c : DefaultBurstController) (now : Time) : DefaultBurstController :=
  bu_with c
    (if (Z.of_nat (size (bu_entries c)) <=? bu_maxEntries c)%Z
     then delete_where (λ seenAt, (wrap64 (bu_window c * 4) <? subTime now seenAt)%Z) (bu_entries c)
     else cleanup_loop now (bu_window c) (bu_maxEntries c) (map_range (bu_entries c)) (bu_entries c)).

Definition burst_metadata (c : DefaultBurstController) (key : string) : gmap string value :=
  {[ "burst_mode" := VString (bu_mode c); "burst_key" := VString key;
     "burst_window_ms" := VInt Int64K (bu_window c ÷ Millisecond) ]}.

Definition allowed : BurstDecision := mkBurst true ∅.

Definition Burst_Allow (c : DefaultBurstController) (now : Time) (req : InboundRequest)
    : BurstDecision * DefaultBurstController :=
  if String.eqb (bu_mode c) BurstModeNone then (allowed, c)
  else match bu_extractKey c req with
  | None => (allowed, c)
  | Some key0 =>
    let key := TrimSpace key0 in
    if String.eqb key "" then (allowed, c)
    else
      let lastSeen := bu_entries c !! key in
      let c := burst_cleanup (bu_with c (<[key := now]> (bu_entries c))) now in
      match lastSeen with
      | None => (allowed, c)
      | Some lastSeen =>
        if (bu_window c <=? subTime now lastSeen)%Z then (allowed, c)
        else if String.eqb (bu_mode c) BurstModeCoalesce
        then (mkBurst false (<["coalesced" := VBool true]> (burst_metadata c key)), c)
        else if String.eqb (bu_mode c) BurstModeDebounce
        then (mkBurst false (<["debounced" := VBool true]> (burst_metadata c key)), c)
        else (allowed, c)
      end
  end.

#[export] Instance DefaultBurst_controller : BurstController DefaultBurstController :=
  {| bc_Allow := λ c now req, let (dec, c') := Burst_Allow c now req in (Ok dec, c') |}.

(** ** Specification by history *)

(** The last time a key was seen; the history has the most recent call first. *)
Definition last_seen (history : list (string * Time)) (key : string) : option Time :=
  snd <$> (snd <$> list_find (λ kt, kt.1 = key) history).

(** A call is allowed unless the previous call with its key was less than a window ago. *)
Definition spaced (window : Duration) (history : list (string * Time)) (key : string) (now : Time) : bool :=
  match last_seen history key with
  | None => true
  | Some t => (window <=? subTime now t)%Z
  end.

Definition burst_key (c : DefaultBurstController) (req : InboundRequest) : option string :=
  key ← bu_extractKey c req; if String.eqb (TrimSpace key) "" then None else Some (TrimSpace key).

Fixpoint allow_run (c : DefaultBurstController) (calls : list (Time * InboundRequest)) : list bool :=
  match calls with
  | [] => []
  | (now, req) :: calls' => let (dec, c') := Burst_Allow c now req in bd_Allow dec :: allow_run c' calls'
  end.

Fixpoint spec_run (c : DefaultBurstController) (history : list (string * Time))
    (calls : list (Time * InboundRequest)) : list bool :=
  match calls with
  | [] => []
  | (now, req) :: calls' =>
    match burst_key c req with
    | None => true :: spec_run c history calls'
    | Some key => spaced (bu_window c) history key now :: spec_run c ((key, now) :: history) calls'
    end
  end.

Lemma subTime_mono t u v : (t ≤ u)%Z → (subTime t v ≤ subTime u v)%Z.
Proof. intros. unfold subTime, int64_min, int64_max. repeat case_match; go_times; lia. Qed.

(** [cleanup] only forgets keys that were last seen more than a window ago. *)
Definition forgets_old (now : Time) (window : Duration) (m m' : gmap string Time) : Prop :=
  ∀ k, m' !! k = m !! k ∨ (m' !! k = None ∧ ∃ t, m !! k = Some t ∧ (window < subTime now t)%Z).

Lemma cleanup_loop_old now window maxEntries l m0 m :
  Forall (λ kt, m0 !! kt.1 = Some kt.2) l → forgets_old now window m0 m →
  forgets_old now window m0 (cleanup_loop now window maxEntries l m).
Proof.
  intros Hl. revert m. induction Hl as [|[k t] l Hk Hl IH]; intros m Hm; simpl; [done|].
  assert (Hm' : forgets_old now window m0 (if (window <? subTime now t)%Z then delete k m else m)).
  { destruct (Z.ltb_spec window (subTime now t)); [|done]. intros k'. destruct (decide (k' = k)) as [->|Hne].
    - right. rewrite lookup_delete_eq. eauto.
    - rewrite lookup_delete_ne by done. apply Hm. }
  destruct (_ <=? _)%Z; auto.
Qed.

Lemma burst_cleanup_old c now :
  (0 < bu_window c)%Z → in_int64 (bu_window c * 4) →
  forgets_old now (bu_window c) (bu_entries c) (bu_entries (burst_cleanup c now)).
Proof.
  intros Hw H4. unfold burst_cleanup. simpl. destruct (Z.leb_spec (Z.of_nat (size (bu_entries c))) (bu_maxEntries c)).
  - intros k. destruct (delete_where _ _ !! k) as [t|] eqn:E.
    + apply delete_where_lookup in E as [E _]. left. by rewrite E.
    + apply delete_where_None in E as [E|(t & E & Hd)]; [left; by rewrite E|right].
      split; [done|]. exists t. split; [done|]. rewrite wrap64_id in Hd by done. apply Z.ltb_lt in Hd. lia.
  - apply cleanup_loop_old; [|by intros k; left].
    apply Forall_forall. intros [k t] Hin. by apply elem_of_map_range in Hin.
Qed.

(** The table agrees with the history, up to keys seen more than a window before [now]. *)
Definition tracks (c : DefaultBurstController) (history : list (string * Time)) (now : Time) : Prop :=
  (∀ k t, bu_entries c !! k = Some t → last_seen history k = Some t) ∧
  (∀ k t, last_seen history k = Some t → bu_entries c !! k = None → (bu_window c < subTime now t)%Z).

Lemma last_seen_cons key now history k :
  last_seen ((key, now) :: history) k = if decide (key = k) then Some now else last_seen history k.
Proof.
  unfold last_seen. simpl. destruct (decide (key = k)); [done|].
  by destruct (list_find _ history) as [[? []]|].
Qed.

Lemma tracks_step c history prev now key :
  (0 < bu_window c)%Z → in_int64 (bu_window c * 4) → (prev ≤ now)%Z → tracks c history prev →
  tracks (burst_cleanup (bu_with c (<[key := now]> (bu_entries c))) now) ((key, now) :: history) now.
Proof.
  intros Hw H4 Hle [H1 H2].
  pose proof (burst_cleanup_old (bu_with c (<[key := now]> (bu_entries c))) now Hw H4) as Hold.
  unfold tracks. set (m' := bu_entries (burst_cleanup _ _)) in *. clearbody m'. simpl in *.
  split; intros k t; rewrite last_seen_cons; destruct (Hold k) as [Hk|(Hk & t' & Ht' & Hgt)].
  - rewrite Hk. rewrite lookup_insert_Some. intros [[<- <-]|[Hne Ht]]; rewrite ?decide_True, ?decide_False by done; auto.
  - by rewrite Hk.
  - rewrite Hk. intros Hls Hn. apply lookup_insert_None in Hn as [Hn Hne]. rewrite decide_False in Hls by done.
    pose proof (H2 k t Hls Hn). pose proof (subTime_mono prev now t Hle). simpl. lia.
  - intros Hls _. simpl. revert Hls. apply lookup_insert_Some in Ht' as [[<- <-]|[Hne Ht']].
    + rewrite decide_True by done. by intros [= <-].
    + rewrite decide_False by done. rewrite (H1 _ _ Ht'). by intros [= <-].
Qed.

Lemma tracks_later c history prev now : (prev ≤ now)%Z → tracks c history prev → tracks c history now.
Proof. intros Hle [H1 H2]. split; [done|]. intros k t Hls Hn. pose proof (subTime_mono prev now t Hle). specialize (H2 k t Hls Hn). lia. Qed.

Definition throttles (c : DefaultBurstController) : Prop :=
  bu_mode c = BurstModeCoalesce ∨ bu_mode c = BurstModeDebounce.

Lemma Burst_Allow_spec c history prev now req :
  throttles c → (0 < bu_window c)%Z → in_int64 (bu_window c * 4) → (prev ≤ now)%Z → tracks c history prev →
  let c' := (Burst_Allow c now req).2 in
  bu_with c' ∅ = bu_with c ∅ ∧
  match burst_key c req with
  | None => bd_Allow (Burst_Allow c now req).1 = true ∧ tracks c' history now
  | Some key => bd_Allow (Burst_Allow c now req).1 = spaced (bu_window c) history key now ∧
                tracks c' ((key, now) :: history) now
  end.
Proof.
  intros Hm Hw H4 Hle HT. unfold Burst_Allow, burst_key.
  assert (String.eqb (bu_mode c) BurstModeNone = false) as -> by (by destruct Hm as [-> | ->]).
  destruct (bu_extractKey c req) as [key0|]; simpl; [|eauto using tracks_later].
  destruct (String.eqb (TrimSpace key0) ""); [simpl; eauto using tracks_later|].
  set (key := TrimSpace key0).
  pose proof (tracks_step c history prev now key Hw H4 Hle HT) as HT'. unfold spaced.
  destruct HT as [H1 H2]. destruct (bu_entries c !! key) as [t|] eqn:E.
  - rewrite (H1 _ _ E). change (bu_window (burst_cleanup _ now)) with (bu_window c).
    destruct (bu_window c <=? subTime now t)%Z; [done|].
    change (bu_mode (burst_cleanup _ now)) with (bu_mode c). by destruct Hm as [-> | ->].
  - split; [done|]. split; [|done]. simpl. destruct (last_seen history key) as [t|] eqn:Hls; [|done].
    specialize (H2 _ _ Hls E). pose proof (subTime_mono prev now t Hle). symmetry. apply Z.leb_le. lia.
Qed.

Lemma allow_run_spec c history prev calls :
  throttles c → (0 < bu_window c)%Z → in_int64 (bu_window c * 4) → tracks c history prev →
  Sorted Z.le (prev :: calls.*1) → allow_run c calls = spec_run c history calls.
Proof.
  intros Hm Hw H4. revert c history prev Hm Hw H4. induction calls as [|[now req] calls IH];
    intros c history prev Hm Hw H4 HT Hs; simpl; [done|].
  apply Sorted_inv in Hs as [Hs Hd]. apply HdRel_inv in Hd. simpl in Hd.
  pose proof (Burst_Allow_spec c history prev now req Hm Hw H4 Hd HT) as Hspec.
  destruct (Burst_Allow c now req) as [dec c']. simpl in Hspec. destruct Hspec as [Hc Hspec].
  assert (bu_mode c' = bu_mode c ∧ bu_window c' = bu_window c ∧ bu_extractKey c' = bu_extractKey c)
    as (Em & Ew & Ek) by (unfold bu_with in Hc; by simplify_eq).
  assert (Hspecrun : ∀ h, spec_run c' h calls = spec_run c h calls).
  { clear -Ew Ek. induction calls as [|[now req] calls IH]; intros h; simpl; [done|].
    unfold burst_key. rewrite Ek, Ew. case_match; by rewrite IH. }
  unfold throttles in *. rewrite <-Em, <-Ew in *. simpl in *.
  destruct (burst_key c req) as [key|]; destruct Hspec as [Hdec HT']; rewrite Hdec; f_equal;
    rewrite <-Hspecrun; eapply IH; eauto; congruence.
Qed.

(** C35: the burst controller implements its history specification: over any sequence of calls with a
    clock that does not go back, a call is suppressed exactly when its burst key was
    last seen (allowed or not) less than a window before, although the controller
    forgets entries as it goes, in whatever order it iterates over them. *)
Theorem burst_controller_refines opts calls prev :
  normalizeBurstMode (bo_Mode opts) ≠ BurstModeNone →
  in_int64 (bo_Window opts * 4) → Sorted Z.le (prev :: calls.*1) →
  allow_run (NewBurstController opts) calls = spec_run (NewBurstController opts) [] calls.
Proof.
  intros Hm H4 Hs. apply (allow_run_spec _ _ prev); simpl; auto.
  - unfold throttles. simpl. unfold normalizeBurstMode in *. go_cases; auto.
  - destruct (Z.leb_spec (bo_Window opts) 0); unfold Second; lia.
  - destruct (Z.leb_spec (bo_Window opts) 0); [|done]. unfold in_int64, int64_min, int64_max, Second. lia.
  - split; intros k t; simpl; [by rewrite lookup_empty|done].
Qed.
End burst.

Lemma burst_controller_refines_witness :
  let req := mkInboundRequest "gh" "webhook" ∅ "" {[ "channel_id" := VString "C1" ]} in
  let c := NewBurstController (MR := key_order_range) (mkBurstOptions " Coalesce" 10 1 None) in
  allow_run (MR := key_order_range) c [(5, req); (6, req); (16, req)]%Z
  = spec_run c [] [(5, req); (6, req); (16, req)]%Z.
Proof.
  intros req c. apply (burst_controller_refines (MR := key_order_range) (mkBurstOptions " Coalesce" 10 1 None) _ 0).
  - vm_compute. congruence.
  - unfold in_int64, int64_min, int64_max. simpl. lia.
  - simpl. repeat constructor; vm_compute; congruence.
Defined.
