(* ===== verification/Webhooks.v ===== *)
(** * Webhook processing (src/webhooks/processor.go, [Processor])

    A delivery is verified, claimed in the ledger, submitted to the burst controller, handed to the
    handler, and completed or scheduled for a retry.  Verifier, handler and retry policy belong to the
    application: they are parameters.  The processor is written against the [DeliveryLedger] and
    [BurstController] interfaces; the theorems are at the SQL delivery store, with other workers
    running statements on its table while the handler runs. *)

From S2P Require Import Prelude GoStrings GoValues Domain Contracts Backoff GoURL WebhookTypes WebhookStore Burst.
From Stdlib Require Import ZArith Lia.
From stdpp Require Import base decidable list gmap strings.

Local Open Scope string_scope.
Local Open Scope nat_scope.
Local Open Scope list_scope.

Inductive webhook_error (E : Type) :=
| WErrConfig
| WErrProviderRequired
| WErrDeliveryRequired
| WErrVerification (cause : string)
| WErrExtract (cause : string)
| WErrLedger (cause : E)
| WErrBurst (cause : string)
| WErrHandler (cause : string)
| WErrRetryableStatus (code : Z)
| WErrMarkFailed (cause : E)
| WErrJoin (e1 e2 : webhook_error E).
Arguments WErrConfig {E}. Arguments WErrProviderRequired {E}. Arguments WErrDeliveryRequired {E}.
Arguments WErrVerification {E}. Arguments WErrExtract {E}. Arguments WErrLedger {E}. Arguments WErrBurst {E}.
Arguments WErrHandler {E}. Arguments WErrRetryableStatus {E}. Arguments WErrMarkFailed {E}. Arguments WErrJoin {E}.

Section processor.
Context {MR : MapRange} {E L B : Type} {ledger : DeliveryLedger E L} {burst : BurstController B}.

Record Processor := mkProcessor {
  p_Verifier : option (InboundRequest → outcome string unit);
  p_Ledger : option L;
  p_Handler : option (InboundRequest → outcome string InboundResult);
  p_ExtractID : option (InboundRequest → outcome string string);
  p_Burst : option B;
  p_RetryPolicy : option (Z → Duration);
  p_AllowAcceptedServerErrors : bool;
  p_ClaimLease : Duration;
  p_MaxAttempts : Z }.

(** What a run of [Process] meets: the environments of its ledger calls, the clocks of the
    burst controller and of the processor, and what others do to the ledger between the claim
    and its settlement. *)
Record ProcessEnv := mkProcessEnv {
  pe_claim : CallEnv; pe_burst : Time; pe_during : L → L; pe_now : Time; pe_settle : CallEnv }.

Definition proc_retryPolicy (p : Processor) : Z → Duration :=
  default (RetryPolicy_NextDelay (mkRetryPolicy 0 0)) (p_RetryPolicy p).
Definition proc_claimLease (p : Processor) : Duration :=
  if (0 <? p_ClaimLease p)%Z then p_ClaimLease p else (30 * Second)%Z.
Definition proc_maxAttempts (p : Processor) : Z :=
  if (0 <? p_MaxAttempts p)%Z then p_MaxAttempts p else 8%Z.

(** [fmt.Sprint] of a missing entry is [<nil>]. *)
Definition metadata_id (req : InboundRequest) (key : string) : string :=
  let v := TrimSpace (Sprint (mapGet (in_Metadata req) key)) in if String.eqb v "<nil>" then "" else v.

Definition DefaultDeliveryIDExtractor (req : InboundRequest) : outcome (webhook_error E) string :=
  match head (filter (λ v, v ≠ "")
      [metadata_id req "delivery_id"; metadata_id req "message_id";
       headerValue (in_Headers req) "x-delivery-id";
       headerValue (in_Headers req) "x-github-delivery";
       headerValue (in_Headers req) "x-goog-message-number"]) with
  | Some v => Ok v
  | None => Fail WErrDeliveryRequired
  end.

Definition extract_delivery (p : Processor) (req : InboundRequest) : outcome (webhook_error E) string :=
  match p_ExtractID p with
  | Some f => match f req with Ok id => Ok id | Fail e => Fail (WErrExtract e) end
  | None => DefaultDeliveryIDExtractor req
  end.

Record process_out := mkPOut {
  po_result : InboundResult; po_err : option (webhook_error E); po_ledger : option L;
  po_burst : option B; po_handled : bool }.

Definition with_provider (req : InboundRequest) (providerID : string) : InboundRequest :=
  mkInboundRequest providerID (in_Surface req) (in_Headers req) (in_Body req) (in_Metadata req).

Definition wjoin (e : webhook_error E) (failed : outcome E unit) : webhook_error E :=
  match failed with Ok _ => e | Fail f => WErrJoin e (WErrMarkFailed f) end.

(** Is the handler's answer a failure to be retried? *)
Definition retryable_result (p : Processor) (r : InboundResult) : bool :=
  negb (ir_Accepted r)
  || ((StatusInternalServerError <=? ir_StatusCode r)%Z
      && (negb (ir_Accepted r) || negb (p_AllowAcceptedServerErrors p))).

(** The handler and the settlement of the claim. *)
Definition Process_handle (p : Processor) (l : L) (b : option B) (env : ProcessEnv)
    (handle : InboundRequest → outcome string InboundResult) (delivery : DeliveryRecord)
    (deliveryID : string) (req : InboundRequest) : process_out :=
  let nextAttemptAt := addTime (pe_now env) (proc_retryPolicy p (dr_Attempts delivery)) in
  let l := pe_during env l in
  match handle req with
  | Fail cause =>
    let (failed, l') := dl_Fail l (pe_settle env) (dr_ClaimID delivery) nextAttemptAt (proc_maxAttempts p) in
    mkPOut emptyInboundResult (Some (wjoin (WErrHandler cause) failed)) (Some l') b true
  | Ok result =>
    if retryable_result p result then
      let (failed, l') := dl_Fail l (pe_settle env) (dr_ClaimID delivery) nextAttemptAt (proc_maxAttempts p) in
      mkPOut result (Some (wjoin (WErrRetryableStatus (ir_StatusCode result)) failed)) (Some l') b true
    else
      match dl_Complete l (pe_settle env) (dr_ClaimID delivery) with
      | (Fail e, l') => mkPOut emptyInboundResult (Some (WErrLedger e)) (Some l') b true
      | (Ok _, l') =>
        mkPOut (mkInboundResult (ir_Accepted result) (ir_StatusCode result)
                  (<["delivery_id" := VString deliveryID]>
                    (<["provider_id" := VString (in_ProviderID req)]> (ir_Metadata result))))
          None (Some l') b true
      end
  end.

(** The burst controller: a suppressed delivery is completed without being handled. *)
Definition Process_burst (p : Processor) (l : L) (env : ProcessEnv)
    (handle : InboundRequest → outcome string InboundResult) (delivery : DeliveryRecord)
    (deliveryID : string) (req : InboundRequest) : process_out :=
  match p_Burst p with
  | None => Process_handle p l None env handle delivery deliveryID req
  | Some b =>
    match bc_Allow b (pe_burst env) req with
    | (Fail cause, b') => mkPOut emptyInboundResult (Some (WErrBurst cause)) (Some l) (Some b') false
    | (Ok decision, b') =>
      if negb (bd_Allow decision) then
        match dl_Complete (pe_during env l) (pe_settle env) (dr_ClaimID delivery) with
        | (Fail e, l') => mkPOut emptyInboundResult (Some (WErrLedger e)) (Some l') (Some b') false
        | (Ok _, l') =>
          mkPOut (mkInboundResult true StatusOK
                    (<["deduped" := VBool true]> (<["delivery_id" := VString deliveryID]>
                      (<["provider_id" := VString (in_ProviderID req)]> (bd_Metadata decision)))))
            None (Some l') (Some b') false
        end
      else Process_handle p l (Some b') env handle delivery deliveryID req
    end
  end.

Definition deduped_delivery (req : InboundRequest) (delivery : DeliveryRecord) : InboundResult :=
  mkInboundResult true StatusOK
    {[ "provider_id" := VString (in_ProviderID req); "delivery_id" := VString (dr_DeliveryID delivery);
       "status" := VString (dr_Status delivery); "deduped" := VBool true ]}.

Definition verify_request (p : Processor) (req : InboundRequest) : outcome string unit :=
  match p_Verifier p with Some verify => verify req | None => Ok tt end.

Definition Process (p : Processor) (env : ProcessEnv) (req0 : InboundRequest) : process_out :=
  let stop res err := mkPOut res (Some err) (p_Ledger p) (p_Burst p) false in
  match p_Handler p, p_Ledger p with
  | Some handle, Some l =>
    let providerID := TrimSpace (in_ProviderID req0) in
    if String.eqb providerID "" then stop emptyInboundResult WErrProviderRequired
    else
      let req := with_provider req0 providerID in
      match verify_request p req with
      | Fail cause =>
        stop (mkInboundResult false StatusUnauthorized
                {[ "provider_id" := VString providerID; "rejected" := VBool true ]}) (WErrVerification cause)
      | Ok _ =>
        match extract_delivery p req with
        | Fail e => stop emptyInboundResult e
        | Ok deliveryID =>
          match dl_Claim l (pe_claim env) providerID deliveryID (in_Body req) (proc_claimLease p) with
          | (Fail e, l') => mkPOut emptyInboundResult (Some (WErrLedger e)) (Some l') (p_Burst p) false
          | (Ok (delivery, claimed), l') =>
            if negb claimed
            then mkPOut (deduped_delivery req delivery) None (Some l') (p_Burst p) false
            else Process_burst p l' env handle delivery deliveryID req
          end
        end
      end
  | _, _ => stop emptyInboundResult WErrConfig
  end.
End processor.
Arguments Processor : clear implicits.
Arguments ProcessEnv : clear implicits.

(** ** Processing over the SQL delivery store *)

Section sql_processing.
Context {MR : MapRange} {B : Type} {burst : BurstController B}.
Abbreviation proc := (Processor delivery_table B).
Abbreviation penv := (ProcessEnv delivery_table).
Abbreviation run := (Process (E := delivery_error)).
Implicit Types (p : proc) (env : penv) (T : delivery_table) (req : InboundRequest).

(** The delivery a request is admitted as: configured handler, provider, verification, id. *)
Definition delivery_of p (req0 : InboundRequest) : option (string * string) :=
  let req := with_provider req0 (TrimSpace (in_ProviderID req0)) in
  if String.eqb (in_ProviderID req) "" then None
  else match verify_request p req with
  | Fail _ => None
  | Ok _ => match extract_delivery (E := delivery_error) p req with
            | Ok id => Some (in_ProviderID req, id) | Fail _ => None end
  end.

Definition delivery_key (pd : string * string) : string * string := (TrimSpace pd.1, TrimSpace pd.2).

Lemma Process_admitted p env req T h pd :
  p_Handler p = Some h → p_Ledger p = Some T → delivery_of p req = Some pd →
  let req' := with_provider req (TrimSpace (in_ProviderID req)) in
  run p env req =
    match Delivery_Claim T (pe_claim env) pd.1 pd.2 (in_Body req) (proc_claimLease p) with
    | (Fail e, T') => mkPOut emptyInboundResult (Some (WErrLedger e)) (Some T') (p_Burst p) false
    | (Ok (delivery, claimed), T') =>
      if negb claimed then mkPOut (deduped_delivery req' delivery) None (Some T') (p_Burst p) false
      else Process_burst p T' env h delivery pd.2 req'
    end.
Proof.
  intros Hh Hl. unfold delivery_of, Process. rewrite Hh, Hl. simpl in_ProviderID.
  destruct (String.eqb _ ""); [done|]. destruct (verify_request p _); [|done].
  destruct (extract_delivery p _) as [id|]; [|done]. by intros [= <-].
Qed.

(** A run that is not admitted leaves the ledger and the handler alone. *)
Lemma Process_rejected p env req :
  p_Handler p = None ∨ p_Ledger p = None ∨ delivery_of p req = None →
  po_handled (run p env req) = false ∧ po_ledger (run p env req) = p_Ledger p.
Proof.
  unfold delivery_of, Process. simpl in_ProviderID.
  destruct (p_Handler p) as [h|]; [|done]. destruct (p_Ledger p) as [T|]; [|done].
  destruct (String.eqb _ ""); [done|]. destruct (verify_request p _); [|done].
  destruct (extract_delivery p _) as [id|]; [|done]. naive_solver.
Qed.

Lemma handled_process p env req T :
  p_Ledger p = Some T → po_handled (run p env req) = true →
  ∃ h pd rec T1 b, p_Handler p = Some h ∧ delivery_of p req = Some pd ∧
    Delivery_Claim T (pe_claim env) pd.1 pd.2 (in_Body req) (proc_claimLease p) = (Ok (rec, true), T1) ∧
    run p env req = Process_handle p T1 b env h rec pd.2 (with_provider req (TrimSpace (in_ProviderID req))).
Proof.
  intros Hl Hh. destruct (p_Handler p) as [h|] eqn:Eh.
  2:{ destruct (Process_rejected p env req) as [H _]; [by left|congruence]. }
  destruct (delivery_of p req) as [pd|] eqn:Ed.
  2:{ destruct (Process_rejected p env req) as [H _]; [by do 2 right|congruence]. }
  pose proof (Process_admitted p env req T h pd Eh Hl Ed) as Hrun. cbv zeta in Hrun. rewrite Hrun in Hh.
  destruct (Delivery_Claim _ _ _ _ _ _) as [[[rec [|]]|e] T1] eqn:Hc; [|done|done]. simpl in Hh, Hrun.
  exists h, pd, rec, T1. unfold Process_burst in Hh, Hrun. destruct (p_Burst p) as [b|]; [|by exists None].
  destruct (bc_Allow b (pe_burst env) _) as [[dec|] b']; [|done].
  destruct (negb (bd_Allow dec)); [|by exists (Some b')].
  by destruct (dl_Complete _ _ _) as [[]].
Qed.

Lemma maxAttempts_pos p : (0 < proc_maxAttempts p)%Z.
Proof. unfold proc_maxAttempts. destruct (Z.ltb_spec 0 (p_MaxAttempts p)); lia. Qed.

(** The row a handled run leaves, by its error. *)
Definition settled_row p env (r : webhookDeliveryRecord) (err : option (webhook_error delivery_error))
    : webhookDeliveryRecord :=
  match err with
  | None => row_with r DeliveryStatusProcessed (wd_Attempts r) None (env_now (pe_settle env))
  | Some _ => failed_row r (env_now (pe_settle env))
                (pe_now env + proc_retryPolicy p (wd_Attempts r)) (proc_maxAttempts p)
  end.

(** The handler phase on a row that the others have left alone. *)
Lemma handle_settles p b env h pd r T1 req :
  pe_during env T1 !! delivery_key pd = Some r →
  wd_Status r = DeliveryStatusProcessing → (0 < wd_Attempts r ≤ int64_max)%Z →
  (∀ n, env_fault (pe_settle env) n = None) →
  let o := Process_handle (E := delivery_error) p T1 b env h (claim_record pd.1 pd.2 r) pd.2 req in
  po_ledger o = Some
    (<[delivery_key pd :=
        settled_row p env r (po_err o)]> (pe_during env T1)).
Proof.
  intros Hr Hs Hn Hf. destruct (held_settles _ _ _ _ _ Hr Hs Hn Hf) as [Hcomplete Hfail].
  pose proof (maxAttempts_pos p) as Hmax. unfold Process_handle. cbn [dl_Fail dl_Complete WebhookDeliveryStore_ledger].
  rewrite Hfail, Hcomplete by done. destruct (h req) as [res|cause]; [|done].
  by destruct (retryable_result p res).
Qed.

(** What a handled run does to the row of its delivery. *)
Lemma handled_row p env req T ss :
  p_Ledger p = Some T → po_handled (run p env req) = true →
  (∀ n, env_fault (pe_settle env) n = None) → pe_during env = (λ T, exec_all T ss) →
  (∀ pd, delivery_of p req = Some pd →
     let r := claimed_row (claim_base T (pe_claim env) pd.1 pd.2 (in_Body req)) (env_now (pe_claim env)) (proc_claimLease p) in
     (wd_Attempts r ≤ int64_max)%Z ∧
     Forall (bystander (delivery_key pd) (env_now (pe_claim env) + proc_claimLease p) (wd_Attempts r)) ss) →
  ∃ pd T1, delivery_of p req = Some pd ∧
    let base := claim_base T (pe_claim env) pd.1 pd.2 (in_Body req) in
    let r := claimed_row base (env_now (pe_claim env)) (proc_claimLease p) in
    claimable (env_now (pe_claim env)) base = true ∧
    T1 = exec_all (<[delivery_key pd := r]> T) ss ∧ T1 !! delivery_key pd = Some r ∧
    po_ledger (run p env req) = Some
      (<[delivery_key pd :=
          settled_row p env r (po_err (run p env req))]> T1).
Proof.
  intros Hl Hh Hf Hd Hpd. destruct (handled_process p env req T Hl Hh) as (h & pd & rec & T1 & b & Eh & Ed & Hc & ->).
  destruct (Hpd pd Ed) as [Hmax Hss]. destruct (Claim_accepts _ _ _ _ _ _ _ _ Hc) as (Hp & Hq & Hcl & HT1 & Hrec).
  cbv zeta in HT1, Hrec. set (r := claimed_row _ _ _) in *.
  assert (Hlease : delivery_lease (proc_claimLease p) = proc_claimLease p).
  { unfold delivery_lease, proc_claimLease, Second. destruct (Z.ltb_spec 0 (p_ClaimLease p)); [|done].
    destruct (Z.leb_spec (p_ClaimLease p) 0); lia. }
  assert (Hkept : exec_all T1 ss !! delivery_key pd = Some r).
  { apply (leased_kept _ _ _ (env_now (pe_claim env) + proc_claimLease p)); [|by rewrite <- Hlease|done].
    rewrite HT1. apply lookup_insert_eq. }
  exists pd, (exec_all T1 ss). split; [done|]. cbv zeta. fold r. split_and!; [done|by rewrite HT1|done|].
  rewrite Hrec. rewrite handle_settles with (r := r).
  - by rewrite Hd.
  - by rewrite Hd.
  - done.
  - split; [|done]. pose proof (claimed_attempts (claim_base T (pe_claim env) pd.1 pd.2 (in_Body req)) (env_now (pe_claim env)) (proc_claimLease p)). fold r in H. lia.
  - done.
Qed.

(** The hypotheses about one handled run: [ss] is what the other workers do to the table
    meanwhile; they neither claim the delivery after the end of the lease nor settle this
    attempt, and the attempt number is a machine integer. *)
Definition undisturbed p env req T (pd : string * string) (ss : list delivery_stmt) : Prop :=
  let r := claimed_row (claim_base T (pe_claim env) pd.1 pd.2 (in_Body req)) (env_now (pe_claim env)) (proc_claimLease p) in
  delivery_of p req = Some pd ∧ pe_during env = (λ T, exec_all T ss) ∧
  (∀ n, env_fault (pe_settle env) n = None) ∧ (wd_Attempts r ≤ int64_max)%Z ∧
  Forall (bystander (delivery_key pd) (env_now (pe_claim env) + proc_claimLease p) (wd_Attempts r)) ss.

Lemma undisturbed_row p env req T pd ss :
  p_Ledger p = Some T → undisturbed p env req T pd ss → po_handled (run p env req) = true →
  let base := claim_base T (pe_claim env) pd.1 pd.2 (in_Body req) in
  let r := claimed_row base (env_now (pe_claim env)) (proc_claimLease p) in
  ∃ T', po_ledger (run p env req) = Some T' ∧
    T' !! delivery_key pd = Some (settled_row p env r (po_err (run p env req))).
Proof.
  intros Hl (Hd & Hdur & Hf & Hmax & Hss) Hh.
  destruct (handled_row p env req T ss Hl Hh Hf Hdur) as (pd' & T1 & Hd' & Hcl & HT1 & Hr & Ho).
  - intros pd' Hd'. rewrite Hd in Hd'. by injection Hd' as <-.
  - cbv zeta in *. rewrite Hd in Hd'. injection Hd' as <-. eexists. split; [exact Ho|]. apply lookup_insert_eq.
Qed.

(** A delivery whose row is not claimable is not handled. *)
Lemma unclaimable_not_handled p env req T pd r :
  p_Ledger p = Some T → delivery_of p req = Some pd → T !! delivery_key pd = Some r →
  claimable (env_now (pe_claim env)) r = false → po_handled (run p env req) = false.
Proof.
  intros Hl Hd Hr Hc. destruct (p_Handler p) as [h|] eqn:Eh.
  2:{ by destruct (Process_rejected p env req) as [-> _]; [left|]. }
  rewrite (Process_admitted p env req T h pd Eh Hl Hd).
  destruct (Claim_refused T (pe_claim env) pd.1 pd.2 (in_Body req) (proc_claimLease p) r Hr Hc) as [_ Hno].
  destruct (Delivery_Claim _ _ _ _ _ _) as [[[rec [|]]|e] T1]; [|done|done]. by destruct (Hno rec).
Qed.

Lemma terminal_not_handled p env req T pd r :
  p_Ledger p = Some T → delivery_of p req = Some pd → T !! delivery_key pd = Some r → terminal r →
  po_handled (run p env req) = false.
Proof.
  intros Hl Hd Hr Ht. apply (unclaimable_not_handled p env req T pd r); auto.
  unfold claimable. by destruct Ht as [-> | ->].
Qed.

(** C9: a delivery that was handled successfully is never handled again: after a run that
    reached the handler and returned no error, with no other worker taking the claim
    over, no later run for the same delivery reaches a handler, however many statements others
    execute in between. *)
Theorem process_once p1 env1 req1 T ss pd p2 env2 req2 ss' :
  p_Ledger p1 = Some T → undisturbed p1 env1 req1 T pd ss →
  po_handled (run p1 env1 req1) = true → po_err (run p1 env1 req1) = None →
  delivery_of p2 req2 = Some pd →
  p_Ledger p2 = (λ T', exec_all T' ss') <$> po_ledger (run p1 env1 req1) →
  po_handled (run p2 env2 req2) = false.
Proof.
  intros Hl Hu Hh He Hd2 Hl2. destruct (undisturbed_row _ _ _ _ _ _ Hl Hu Hh) as (T' & Ho & Hr).
  rewrite He in Hr. rewrite Ho in Hl2.
  assert (Ht : ∀ r, terminal (settled_row p1 env1 r None)) by (by left).
  eapply terminal_not_handled; eauto. by apply exec_all_terminal.
Qed.

(** A failed delivery is retried on schedule, and given up after the last attempt.  After a
    run that reached the handler and failed as the n-th attempt: if n has reached the maximum
    the delivery is dead and no later run handles it; otherwise runs that claim before the retry
    time (the processor's clock plus the n-th delay of the policy) do not handle it, and
    the first fault-free run from that time on does, when no burst controller intervenes. *)
Theorem process_failure_schedule p1 env1 req1 T ss pd err p2 env2 req2 h2 :
  let n := wd_Attempts (claimed_row (claim_base T (pe_claim env1) pd.1 pd.2 (in_Body req1))
                          (env_now (pe_claim env1)) (proc_claimLease p1)) in
  let retryAt := (pe_now env1 + proc_retryPolicy p1 n)%Z in
  p_Ledger p1 = Some T → undisturbed p1 env1 req1 T pd ss → retryAt ≠ 0%Z →
  po_handled (run p1 env1 req1) = true → po_err (run p1 env1 req1) = Some err →
  delivery_of p2 req2 = Some pd → p_Ledger p2 = po_ledger (run p1 env1 req1) →
  p_Handler p2 = Some h2 → p_Burst p2 = None → (∀ i, env_fault (pe_claim env2) i = None) →
  po_handled (run p2 env2 req2) =
    if (proc_maxAttempts p1 <=? n)%Z then false else (retryAt <=? env_now (pe_claim env2))%Z.
Proof.
  intros n retryAt Hl Hu Hz Hh He Hd2 Hl2 Hh2 Hb2 Hf2.
  destruct (undisturbed_row _ _ _ _ _ _ Hl Hu Hh) as (T' & Ho & Hr).
  cbv zeta in Hr. rewrite He in Hr. rewrite Ho in Hl2. unfold settled_row, failed_row in Hr. fold n in Hr. fold retryAt in Hr.
  destruct (Z.leb_spec (proc_maxAttempts p1) n) as [Hmax|Hmax].
  { eapply terminal_not_handled; eauto. by right. }
  assert (IsZero retryAt = false) as Hnz by (by apply IsZero_false). rewrite Hnz in Hr.
  destruct (Z.leb_spec retryAt (env_now (pe_claim env2))) as [Hdue|Hearly].
  - rewrite (Process_admitted p2 env2 req2 T' h2 pd Hh2 Hl2 Hd2).
    assert (Hne : TrimSpace pd.1 ≠ "" ∧ TrimSpace pd.2 ≠ "").
    { destruct (handled_process p1 env1 req1 T Hl Hh) as (h & pd' & rec & T1 & b & _ & Hd' & Hc & _).
      destruct Hu as (Hd & _). rewrite Hd in Hd'. injection Hd' as <-.
      destruct (Claim_accepts _ _ _ _ _ _ _ _ Hc) as (? & ? & _). done. }
    destruct Hne as [Hp Hq].
    rewrite Claim_succeeds by auto. cbv zeta. unfold claim_base. fold (delivery_key pd). rewrite Hr.
    simpl default. unfold claimable. simpl wd_Status. simpl wd_NextAttemptAt. unfold due.
    destruct (Z.leb_spec retryAt (env_now (pe_claim env2))); [|lia]. simpl.
    unfold Process_burst. rewrite Hb2. unfold Process_handle. repeat first [done | go_case].
  - eapply unclaimable_not_handled; eauto. unfold claimable. simpl.
    destruct (Z.leb_spec retryAt (env_now (pe_claim env2))); [lia|done].
Qed.

(** ** Sequences of runs *)

Definition proc_with p (l : option delivery_table) (b : option B) : proc :=
  mkProcessor (p_Verifier p) l (p_Handler p) (p_ExtractID p) b (p_RetryPolicy p)
    (p_AllowAcceptedServerErrors p) (p_ClaimLease p) (p_MaxAttempts p).

Definition is_for p req (k : string * string) : bool :=
  bool_decide (delivery_key <$> delivery_of p req = Some k).

(** How often a sequence of runs hands the delivery [k] to the handler. *)
Fixpoint times_handled p (k : string * string) (calls : list (penv * InboundRequest)) : Z :=
  match calls with
  | [] => 0%Z
  | (env, req) :: calls' =>
    let o := run p env req in
    ((if po_handled o && is_for p req k then 1 else 0)
     + times_handled (proc_with p (po_ledger o) (po_burst o)) k calls')%Z
  end.

(** A run of which the handler is not reached claims at most once. *)
Lemma unhandled_issues p env req T :
  p_Ledger p = Some T → pe_during env = id → po_handled (run p env req) = false →
  ∃ T', po_ledger (run p env req) = Some T' ∧ issues 1 T T'.
Proof.
  intros Hl Hdur Hh. destruct (p_Handler p) as [h|] eqn:Eh.
  2:{ destruct (Process_rejected p env req) as [_ ->]; [by left|]. exists T. by split; [|apply issues_none]. }
  destruct (delivery_of p req) as [pd|] eqn:Ed.
  2:{ destruct (Process_rejected p env req) as [_ ->]; [by do 2 right|]. exists T. by split; [|apply issues_none]. }
  pose proof (issues_claim T (pe_claim env) pd.1 pd.2 (in_Body req) (proc_claimLease p)) as Hi.
  pose proof (Process_admitted p env req T h pd Eh Hl Ed) as Hrun. cbv zeta in Hrun. rewrite Hrun in *.
  destruct (Delivery_Claim _ _ _ _ _ _) as [[[rec [|]]|e] T1]; simpl in Hi, Hh |- *; [|by eauto..].
  unfold Process_burst, Process_handle in *. rewrite Hdur in *. unfold id in *.
  pose proof (issues_trans _ _ _ _ _ Hi (issues_complete T1 (pe_settle env) (dr_ClaimID rec))) as Hic.
  destruct (p_Burst p) as [b|]; [|by repeat case_match].
  destruct (bc_Allow b _ _) as [[dec|] b']; [|by eauto].
  destruct (negb (bd_Allow dec)); [|by repeat case_match].
  simpl dl_Complete in *. destruct (Delivery_Complete _ _ _) as [[] T2]; simpl in *; eauto.
Qed.

(** The state of a delivery handled [c] times in [t] runs. *)
Definition tallied (T : delivery_table) (k : string * string) (max c t : Z) : Prop :=
  (0 ≤ c ≤ max)%Z ∧ (0 ≤ attempts_of T k ≤ t)%Z ∧
  (∀ r, T !! k = Some r → ¬ terminal r → (c < max ∧ c ≤ wd_Attempts r)%Z) ∧
  (T !! k = None → c = 0%Z).

Lemma tallied_unhandled T T' k max c t :
  (0 < max)%Z → issues 1 T T' → tallied T k max c t → tallied T' k max c (t + 1).
Proof.
  intros Hmax (ss & -> & Hss & Hn) (Hc & Ha & Hr & Hnone).
  pose proof (exec_all_attempts T ss k Hss ltac:(lia)) as Hat. split_and!; [lia..| |].
  - intros r' Hr' Hnt. unfold attempts_of in *. destruct (T !! k) as [r|] eqn:E.
    + destruct (decide (terminal r)) as [Ht|Ht].
      * rewrite (exec_all_terminal T ss k r E Ht) in Hr'. by simplify_eq.
      * destruct (Hr r eq_refl Ht). rewrite Hr' in Hat. simpl in Hat. lia.
    + rewrite Hr' in Hat. simpl in Hat. rewrite Hnone by done. lia.
  - intros Hn'. apply Hnone. destruct (T !! k) as [r|] eqn:E; [|done].
    destruct (attempts_grow T ss k r E) as (r' & Hr' & _). congruence.
Qed.

Lemma tallied_handled p env req T k c t :
  p_Ledger p = Some T → pe_during env = id → (∀ n, env_fault (pe_settle env) n = None) →
  (0 ≤ t < int64_max)%Z → (∀ k, 0 ≤ attempts_of T k ≤ t)%Z →
  po_handled (run p env req) = true → tallied T k (proc_maxAttempts p) c t →
  ∃ T', po_ledger (run p env req) = Some T' ∧ (∀ k, 0 ≤ attempts_of T' k ≤ t + 1)%Z ∧
    tallied T' k (proc_maxAttempts p) (c + (if is_for p req k then 1 else 0)) (t + 1).
Proof.
  intros Hl Hdur Hf Ht Hall Hh (Hc & Ha & Hr & Hnone).
  assert (Hbase : ∀ pd, wd_Attempts (claim_base T (pe_claim env) pd.1 pd.2 (in_Body req)) = attempts_of T (delivery_key pd)).
  { intros pd. unfold claim_base, attempts_of, delivery_key. by destruct (T !! (TrimSpace pd.1, TrimSpace pd.2)). }
  destruct (handled_row p env req T [] Hl Hh Hf Hdur) as (pd & T1 & Hd & Hcl & HT1 & Hrow & Ho).
  { intros pd _. simpl. rewrite Hbase. pose proof (Hall (delivery_key pd)). split; [|constructor].
    destruct (Z.ltb_spec (attempts_of T (delivery_key pd)) 1); lia. }
  cbv zeta in *. simpl in HT1. subst T1. rewrite insert_insert_eq in Ho.
  set (base := claim_base _ _ _ _ _) in *. set (r := claimed_row base _ _) in *.
  assert (Har : (0 ≤ attempts_of T (delivery_key pd) ∧ wd_Attempts r = attempts_of T (delivery_key pd) + 1)%Z).
  { unfold r. simpl. unfold base. rewrite Hbase. pose proof (Hall (delivery_key pd)).
    destruct (Z.ltb_spec (attempts_of T (delivery_key pd)) 1); lia. }
  destruct Har as [Hnn Har]. set (final := settled_row _ _ _ _) in Ho.
  assert (Hfin : wd_Attempts final = wd_Attempts r ∧ (terminal final ∨ (wd_Attempts r < proc_maxAttempts p)%Z)).
  { unfold final, settled_row, failed_row. destruct (po_err (run p env req)); [|by split; [|left; left]].
    destruct (Z.leb_spec (proc_maxAttempts p) (wd_Attempts r)); split; auto. left. by right. }
  destruct Hfin as [Hfa Hft]. eexists. split; [exact Ho|].
  assert (Hall' : ∀ k', (0 ≤ attempts_of (<[delivery_key pd := final]> T) k' ≤ t + 1)%Z).
  { intros k'. specialize (Hall k'). unfold attempts_of in *. destruct (decide (delivery_key pd = k')) as [<-|Hne].
    - rewrite lookup_insert_eq. simpl. lia.
    - rewrite lookup_insert_ne by done. lia. }
  split; [done|]. unfold is_for. rewrite Hd. simpl. destruct (decide (delivery_key pd = k)) as [<-|Hne].
  - rewrite bool_decide_true by done.
    assert (Hcb : (c < proc_maxAttempts p ∧ c ≤ attempts_of T (delivery_key pd))%Z).
    { unfold base, claim_base, attempts_of in *. fold (delivery_key pd) in *. destruct (T !! delivery_key pd) as [r0|] eqn:E; simpl in *.
      - apply (Hr r0 eq_refl). intros Hterm. revert Hcl. unfold claimable. by destruct Hterm as [-> | ->].
      - pose proof (maxAttempts_pos p). rewrite Hnone by done. lia. }
    split_and!; [lia|lia|apply Hall'|apply Hall'| |].
    + intros r' Hr'. rewrite lookup_insert_eq in Hr'. injection Hr' as <-. intros Hnt. destruct Hft; [done|]. lia.
    + by rewrite lookup_insert_eq.
  - rewrite bool_decide_false by congruence. rewrite Z.add_0_r. split_and!; [lia|lia|apply Hall'|apply Hall'| |];
      rewrite lookup_insert_ne by done; auto.
Qed.

(** A run whose statements are all accepted when it settles, with no one else at the ledger. *)
Definition sequential_call (c : penv * InboundRequest) : Prop :=
  pe_during c.1 = id ∧ ∀ n, env_fault (pe_settle c.1) n = None.

Lemma times_handled_bound p k calls T c t :
  Forall sequential_call calls → p_Ledger p = Some T →
  (0 ≤ t)%Z → (t + Z.of_nat (length calls) ≤ int64_max)%Z → (∀ k, 0 ≤ attempts_of T k ≤ t)%Z →
  tallied T k (proc_maxAttempts p) c t →
  (c + times_handled p k calls ≤ proc_maxAttempts p)%Z.
Proof.
  intros Hcalls. revert p T c t. induction Hcalls as [|[env req] calls [Hdur Hf] _ IH]; intros p T c t Hl Ht Hlen Hall Htal.
  { simpl. destruct Htal as (? & _). lia. }
  simpl length in Hlen. simpl times_handled. simpl in Hdur, Hf. destruct (po_handled (run p env req)) eqn:Hh.
  - destruct (tallied_handled p env req T k c t) as (T' & Ho & Hall' & Htal'); auto; [lia|].
    rewrite Ho, andb_true_l.
    specialize (IH (proc_with p (Some T') (po_burst (run p env req))) T' _ (t + 1)%Z eq_refl ltac:(lia) ltac:(lia) Hall' Htal').
    change (proc_maxAttempts (proc_with _ _ _)) with (proc_maxAttempts p) in IH. lia.
  - destruct (unhandled_issues p env req T Hl Hdur Hh) as (T' & Ho & Hi). rewrite Ho, andb_false_l.
    assert (Hall' : ∀ k', (0 ≤ attempts_of T' k' ≤ t + 1)%Z).
    { intros k'. destruct Hi as (ss & -> & Hss & Hn). specialize (Hall k').
      pose proof (exec_all_attempts T ss k' Hss ltac:(lia)). lia. }
    specialize (IH (proc_with p (Some T') (po_burst (run p env req))) T' c (t + 1)%Z eq_refl ltac:(lia) ltac:(lia) Hall'
      (tallied_unhandled _ _ _ _ _ _ (maxAttempts_pos p) Hi Htal)).
    change (proc_maxAttempts (proc_with _ _ _)) with (proc_maxAttempts p) in IH. lia.
Qed.

(** C24: a delivery is handed to the handler at most [MaxAttempts] times.  Over every sequence of
    runs (of any requests, at any times, whatever the handler, the verifier and the burst controller answer
    and whichever claim statements the database refuses) starting from an empty ledger, provided
    the failures the runs report are recorded, no delivery reaches the handler more often than the
    configured maximum (8 by default). *)
Theorem delivery_attempts_bounded p k calls :
  p_Ledger p = Some ∅ → Forall sequential_call calls →
  (Z.of_nat (length calls) ≤ int64_max)%Z →
  (times_handled p k calls ≤ proc_maxAttempts p)%Z.
Proof.
  intros Hl Hcalls Hlen.
  apply (times_handled_bound p k calls ∅ 0 0); auto; unfold attempts_of; try done.
  split_and!; try done. pose proof (maxAttempts_pos p). lia.
Qed.

(** A suppressed delivery is closed.  When the burst controller turns down a delivery whose
    claim was accepted, the run answers 200 "deduped", runs no handler, and the delivery is
    marked processed, so no later run handles it either (also if its earlier attempts all failed). *)
Theorem burst_suppression_closes p env req T h pd rec T1 b dec b' p2 env2 req2 :
  p_Ledger p = Some T → p_Handler p = Some h → delivery_of p req = Some pd →
  Delivery_Claim T (pe_claim env) pd.1 pd.2 (in_Body req) (proc_claimLease p) = (Ok (rec, true), T1) →
  (dr_Attempts rec ≤ int64_max)%Z → pe_during env = id → (∀ n, env_fault (pe_settle env) n = None) →
  p_Burst p = Some b →
  bc_Allow b (pe_burst env) (with_provider req (TrimSpace (in_ProviderID req))) = (Ok dec, b') →
  bd_Allow dec = false →
  delivery_of p2 req2 = Some pd → p_Ledger p2 = po_ledger (run p env req) →
  po_handled (run p env req) = false ∧ po_err (run p env req) = None ∧
  ir_StatusCode (po_result (run p env req)) = StatusOK ∧
  po_handled (run p2 env2 req2) = false.
Proof.
  intros Hl Hh Hd Hc Hmax Hdur Hf Hb Hallow Hdec Hd2.
  destruct (Claim_accepts _ _ _ _ _ _ _ _ Hc) as (_ & _ & _ & HT1 & Hrec). cbv zeta in HT1, Hrec.
  set (base := claim_base _ _ _ _ _) in *. set (r := claimed_row base _ _) in *.
  pose proof (claimed_attempts base (env_now (pe_claim env)) (proc_claimLease p)) as [Hpos _]. fold r in Hpos.
  destruct (held_settles T1 (pe_settle env) pd.1 pd.2 r) as [Hcomplete _]; auto.
  { rewrite HT1. apply lookup_insert_eq. }
  { split; [lia|]. by rewrite Hrec in Hmax. }
  assert (Ho : run p env req = mkPOut (mkInboundResult true StatusOK
      (<["deduped" := VBool true]> (<["delivery_id" := VString pd.2]>
        (<["provider_id" := VString (TrimSpace (in_ProviderID req))]> (bd_Metadata dec)))))
      None (Some (<[delivery_key pd := row_with r DeliveryStatusProcessed (wd_Attempts r) None (env_now (pe_settle env))]> T1))
      (Some b') false).
  { rewrite (Process_admitted p env req T h pd Hh Hl Hd), Hc. simpl negb. cbv iota. unfold Process_burst.
    rewrite Hb, Hallow, Hdec, Hdur, Hrec. cbn [dl_Complete WebhookDeliveryStore_ledger]. unfold id. by rewrite Hcomplete. }
  rewrite Ho. intros Hl2. split_and!; [done..|].
  eapply terminal_not_handled; [exact Hl2|exact Hd2|apply lookup_insert_eq|by left].
Qed.
End sql_processing.

(** ** Concrete runs *)

Section demo.
#[local] Existing Instance key_order_range.
Definition demo_burst : DefaultBurstController :=
  NewBurstController (mkBurstOptions "coalesce" (10 * Second) 0 (Some (λ req, Some (in_ProviderID req)))).
Definition demo_processor (T : delivery_table) (b : option DefaultBurstController) (code : Z)
    : Processor delivery_table DefaultBurstController :=
  mkProcessor None (Some T) (Some (λ _, Ok (mkInboundResult true code ∅))) None b None false 0 2.
Definition demo_delivery : InboundRequest :=
  mkInboundRequest "gh" "webhook" ∅ "{}" {[ "delivery_id" := VString "d1"; "channel_id" := VString "c1" ]}.
Definition demo_env (t : Time) : ProcessEnv delivery_table :=
  mkProcessEnv (quiet t "u1") t id t (quiet t "").

Definition demo_out (T : delivery_table) (b : option DefaultBurstController) (code t : Z) :=
  Process (E := delivery_error) (demo_processor T b code) (demo_env t) demo_delivery.
Definition ledger_after (o : @process_out delivery_error delivery_table DefaultBurstController) : delivery_table :=
  default ∅ (po_ledger o).

Lemma demo_undisturbed code t :
  undisturbed (demo_processor ∅ None code) (demo_env t) demo_delivery ∅ ("gh", "d1") [].
Proof. by repeat split. Defined.

Lemma process_once_witness :
  po_handled (demo_out (exec_all (ledger_after (demo_out ∅ None 202 100)) [StmtClaim "gh" "d1" 900 950]) None 202 1000) = false.
Proof.
  apply (process_once (demo_processor ∅ None 202) (demo_env 100) demo_delivery ∅ [] ("gh", "d1")
    (demo_processor (exec_all (ledger_after (demo_out ∅ None 202 100)) [StmtClaim "gh" "d1" 900 950]) None 202)
    (demo_env 1000) demo_delivery [StmtClaim "gh" "d1" 900 950]).
  - reflexivity.
  - apply demo_undisturbed.
  - vm_compute. reflexivity.
  - vm_compute. reflexivity.
  - vm_compute. reflexivity.
  - vm_compute. reflexivity.
Defined.

Lemma process_failure_schedule_witness :
  po_handled (demo_out (ledger_after (demo_out ∅ None 503 100)) None 202 (100 + Second)) = true.
Proof.
  refine (eq_trans (process_failure_schedule (demo_processor ∅ None 503) (demo_env 100) demo_delivery ∅ [] ("gh", "d1")
    (WErrRetryableStatus 503) (demo_processor (ledger_after (demo_out ∅ None 503 100)) None 202)
    (demo_env (100 + Second)) demo_delivery (λ _, Ok (mkInboundResult true 202 ∅)) _ _ _ _ _ _ _ _ _ _) _).
  - reflexivity.
  - apply demo_undisturbed.
  - vm_compute. congruence.
  - vm_compute. reflexivity.
  - vm_compute. reflexivity.
  - vm_compute. reflexivity.
  - vm_compute. reflexivity.
  - reflexivity.
  - reflexivity.
  - reflexivity.
  - vm_compute. reflexivity.
Defined.

Lemma delivery_attempts_bounded_witness :
  (times_handled (demo_processor ∅ None 503) ("gh", "d1")
     [(demo_env 100, demo_delivery); (demo_env (100 + 40 * Second), demo_delivery);
      (demo_env (100 + 80 * Second), demo_delivery)] ≤ 2)%Z.
Proof.
  apply (delivery_attempts_bounded (demo_processor ∅ None 503)).
  - reflexivity.
  - repeat constructor.
  - vm_compute. congruence.
Defined.

(** A failed delivery is redelivered within the burst window: its first attempt answered 503, the
    second is suppressed, the delivery is closed as processed, and it was never handled with success. *)
Definition failed_once := demo_out ∅ (Some demo_burst) 503 100.
Definition redelivered := demo_out (ledger_after failed_once) (po_burst failed_once) 202 (100 + 2 * Second).

Example burst_loses_retry :
  po_handled failed_once = true ∧ po_err failed_once = Some (WErrRetryableStatus 503) ∧
  po_handled redelivered = false ∧ po_err redelivered = None ∧
  wd_Status <$> ledger_after redelivered !! ("gh", "d1") = Some DeliveryStatusProcessed.
Proof. vm_compute. auto. Qed.

Lemma burst_suppression_closes_witness :
  po_handled redelivered = false ∧ po_err redelivered = None ∧
  ir_StatusCode (po_result redelivered) = StatusOK ∧
  po_handled (demo_out (ledger_after redelivered) None 202 (100 + 90 * Second)) = false.
Proof.
  apply (burst_suppression_closes (demo_processor (ledger_after failed_once) (po_burst failed_once) 202)
    (demo_env (100 + 2 * Second)) demo_delivery (ledger_after failed_once)
    (λ _, Ok (mkInboundResult true 202 ∅)) ("gh", "d1")
    (mkDelivery "u1" "gh|d1|2" "gh" "d1" "processing" 2 (Some (100 + 32 * Second)%Z) 100 (100 + 2 * Second)%Z)
    (Delivery_Claim (ledger_after failed_once) (quiet (100 + 2 * Second) "u1") "gh" "d1" "{}" (30 * Second)).2
    (default demo_burst (po_burst failed_once))
    (Burst_Allow (default demo_burst (po_burst failed_once)) (100 + 2 * Second) demo_delivery).1
    (Burst_Allow (default demo_burst (po_burst failed_once)) (100 + 2 * Second) demo_delivery).2).
  - reflexivity.
  - reflexivity.
  - vm_compute. reflexivity.
  - vm_compute. reflexivity.
  - vm_compute. congruence.
  - reflexivity.
  - reflexivity.
  - vm_compute. reflexivity.
  - vm_compute. reflexivity.
  - vm_compute. reflexivity.
  - vm_compute. reflexivity.
  - vm_compute. reflexivity.
Defined.
End demo.
