(* ===== verification/RateLimit.v ===== *)
(** * Adaptive rate limiting (src/ratelimit/policy.go)

    [AdaptivePolicy] asks its state store before a provider call whether the bucket is throttled and
    updates the state from the response.  [time.Parse] is a parameter of the model: no theorem
    depends on which dates it accepts. *)

From S2P Require Import Prelude GoStrings GoValues Domain Contracts Backoff GoURL.
From Stdlib Require Import ZArith Lia Ascii String.
From stdpp Require Import base decidable list gmap strings.

Local Open Scope string_scope.
Local Open Scope nat_scope.
Local Open Scope list_scope.

Record State := mkState {
  st_Key : RateLimitKey; st_Limit : Z; st_Remaining : Z; st_ResetAt : option Time;
  st_RetryAfter : option Duration; st_ThrottledUntil : option Time; st_LastStatus : Z;
  st_Attempts : Z; st_UpdatedAt : Time; st_Metadata : gmap string value }.

Definition emptyState (key : RateLimitKey) : State := mkState key 0 0 None None None 0 0 zeroTime ∅.

Record ThrottledError := mkThrottled {
  te_ProviderID : string; te_BucketKey : string; te_RetryAfter : Duration }.

Inductive rate_error := ErrStateNotFound | ErrStore (cause : string) | ErrThrottled (e : ThrottledError).

Class StateStore (S : Type) := {
  ss_Get : S → RateLimitKey → outcome rate_error State;
  ss_Upsert : S → State → outcome rate_error unit * S }.

Definition normalizeKey (key : RateLimitKey) : RateLimitKey :=
  mkRateLimitKey (lowerTrim (rk_ProviderID key)) (lowerTrim (rk_ScopeType key))
    (TrimSpace (rk_ScopeID key)) (lowerTrim (rk_BucketKey key)).

Definition cloneMap (m : gmap string value) : gmap string value := m.

Definition isThrottledResponse (statusCode remaining : Z)
    (hasRemaining hasResetAt hasLimit hasRetryAfter : bool) : bool :=
  if (statusCode =? 429)%Z then true
  else if (500 <=? statusCode)%Z then false
  else (remaining =? 0)%Z && (hasRemaining || hasResetAt || hasLimit || hasRetryAfter).

(** ** The in-memory state store *)

Definition stateKey (key : RateLimitKey) : string :=
  rk_ProviderID key +:+ "|" +:+ rk_ScopeType key +:+ "|" +:+ rk_ScopeID key +:+ "|" +:+ rk_BucketKey key.

Definition set_key (st : State) (key : RateLimitKey) : State :=
  mkState key (st_Limit st) (st_Remaining st) (st_ResetAt st) (st_RetryAfter st) (st_ThrottledUntil st)
    (st_LastStatus st) (st_Attempts st) (st_UpdatedAt st) (st_Metadata st).

Abbreviation MemoryStateStore := (gmap string State).

Definition State_Get (items : MemoryStateStore) (key : RateLimitKey) : outcome rate_error State :=
  match items !! stateKey (normalizeKey key) with
  | None => Fail ErrStateNotFound
  | Some state => Ok state
  end.

Definition State_Upsert (items : MemoryStateStore) (state : State) : outcome rate_error unit * MemoryStateStore :=
  let state := set_key state (normalizeKey (st_Key state)) in
  (Ok tt, <[stateKey (st_Key state) := state]> items).

#[export] Instance MemoryStateStore_store : StateStore MemoryStateStore :=
  {| ss_Get := State_Get; ss_Upsert := State_Upsert |}.

(** ** The policy *)

Section policy.
Context {MR : MapRange} {S : Type} {store : StateStore S}.
(* [time.Parse layout value] *)
Variable time_Parse : string → string → option Time.

Definition RFC1123 := "Mon, 02 Jan 2006 15:04:05 MST".
Definition RFC1123Z := "Mon, 02 Jan 2006 15:04:05 -0700".

Definition httpDate (value : string) : option Time :=
  let value := TrimSpace value in
  if String.eqb value "" then None
  else match time_Parse RFC1123 value with
       | Some t => Some t
       | None => time_Parse RFC1123Z value
       end.

Definition parseHeaderInt (headers : gmap string string) (key : string) : option Z :=
  let value := headerValue headers key in
  if String.eqb value "" then None else Atoi value.

Definition parseHeaderResetAt (headers : gmap string string) : option Time :=
  let value := headerValue headers "x-ratelimit-reset" in
  if String.eqb value "" then None
  else match ParseInt10 value with
       | None => None
       | Some unix => if (unix <=? 0)%Z then None else Some (timeUnix unix)
       end.

(** The delay a response asks for; a number of seconds is multiplied in 64 bits. *)
Definition parseRetryAfter (res : ProviderResponseMeta) (now : Time) : option Duration :=
  let from_header :=
    let raw := headerValue (rm_Headers res) "retry-after" in
    if String.eqb raw "" then None
    else match Atoi raw with
         | Some seconds => if (seconds <=? 0)%Z then None else Some (wrap64 (seconds * Second))
         | None =>
           match httpDate raw with
           | Some retryAt => if After retryAt now then Some (subTime retryAt now) else None
           | None => None
           end
         end in
  match rm_RetryAfter res with
  | Some d => if (0 <? d)%Z then Some d else from_header
  | None => from_header
  end.

Record AdaptivePolicy := mkPolicy { pol_Store : option S; pol_Backoff : BackoffParams }.

Definition BeforeCall (p : AdaptivePolicy) (now : Time) (key : RateLimitKey) : outcome rate_error unit :=
  match pol_Store p with
  | None => Ok tt
  | Some s =>
    match ss_Get s (normalizeKey key) with
    | Fail ErrStateNotFound => Ok tt
    | Fail e => Fail e
    | Ok state =>
      let throttled until :=
        Fail (ErrThrottled (mkThrottled (rk_ProviderID (st_Key state)) (rk_BucketKey (st_Key state)) (subTime until now))) in
      let by_reset :=
        match st_ResetAt state with
        | Some resetAt => if (st_Remaining state =? 0)%Z && Before now resetAt then throttled resetAt else Ok tt
        | None => Ok tt
        end in
      match st_ThrottledUntil state with
      | Some until => if Before now until then throttled until else by_reset
      | None => by_reset
      end
    end
  end.

(** The state [AfterCall] stores. *)
Definition updated_state (p : AdaptivePolicy) (state : State) (now : Time) (res : ProviderResponseMeta) : State :=
  let metadata := mapsCopy (cloneMap (st_Metadata state)) (cloneMap (rm_Metadata res)) in
  let limitHeader := parseHeaderInt (rm_Headers res) "x-ratelimit-limit" in
  let remainingHeader := parseHeaderInt (rm_Headers res) "x-ratelimit-remaining" in
  let resetHeader := parseHeaderResetAt (rm_Headers res) in
  let remaining := default (st_Remaining state) remainingHeader in
  let retryAfter := parseRetryAfter res now in
  let resetAt := match resetHeader with Some t => Some t | None => st_ResetAt state end in
  if isThrottledResponse (rm_StatusCode res) remaining (bool_decide (is_Some remainingHeader))
       (bool_decide (is_Some resetHeader)) (bool_decide (is_Some limitHeader)) (bool_decide (is_Some retryAfter))
  then
    let attempts := (st_Attempts state + 1)%Z in
    let delay := match retryAfter with Some d => d | None => nextBackoff (pol_Backoff p) attempts end in
    mkState (st_Key state) (default (st_Limit state) limitHeader) remaining resetAt retryAfter
      (Some (addTime now delay)) (rm_StatusCode res) attempts now metadata
  else
    mkState (st_Key state) (default (st_Limit state) limitHeader) remaining resetAt retryAfter
      None (rm_StatusCode res) 0 now metadata.

Definition AfterCall (p : AdaptivePolicy) (now : Time) (key : RateLimitKey) (res : ProviderResponseMeta)
    : outcome rate_error unit * option S :=
  match pol_Store p with
  | None => (Ok tt, None)
  | Some s =>
    let key := normalizeKey key in
    let upsert state :=
      let (r, s') := ss_Upsert s (updated_state p state now res) in (r, Some s') in
    match ss_Get s key with
    | Ok state => upsert state
    | Fail ErrStateNotFound => upsert (emptyState key)
    | Fail e => (Fail e, Some s)
    end
  end.
End policy.
Arguments AdaptivePolicy : clear implicits.

(** ** Buckets *)

Definition no_bar (s : string) : Prop := Forall (λ c, Ascii.eqb c "|" = false) (list_ascii_of_string s).
Definition plain_key (k : RateLimitKey) : Prop :=
  no_bar (rk_ProviderID k) ∧ no_bar (rk_ScopeType k) ∧ no_bar (rk_ScopeID k) ∧ no_bar (rk_BucketKey k).

Lemma stateKey_inj k1 k2 : plain_key k1 → plain_key k2 → stateKey k1 = stateKey k2 → k1 = k2.
Proof.
  assert (Hsplit : ∀ k, plain_key k → SplitChar "|" (stateKey k)
    = [rk_ProviderID k; rk_ScopeType k; rk_ScopeID k; rk_BucketKey k]).
  { intros k (H1 & H2 & H3 & H4). unfold stateKey.
    by rewrite !SplitChar_sep, SplitChar_plain by done. }
  intros H1 H2 Heq. pose proof (Hsplit k1 H1) as E. rewrite Heq, (Hsplit k2 H2) in E.
  destruct k1, k2. simpl in E. by simplify_eq.
Qed.

Lemma normalizeKey_idem k : normalizeKey (normalizeKey k) = normalizeKey k.
Proof. unfold normalizeKey. simpl. by rewrite !lowerTrim_idem, TrimSpace_idem. Qed.

Section policy_theorems.
Context {MR : MapRange}.
Variable time_Parse : string → string → option Time.
Abbreviation policy := (AdaptivePolicy MemoryStateStore).
Abbreviation after := (AfterCall time_Parse).
Implicit Types (p : policy) (items : MemoryStateStore) (key : RateLimitKey) (res : ProviderResponseMeta).

Definition policy_with p items : policy := mkPolicy (Some items) (pol_Backoff p).
Definition items_after (o : outcome rate_error unit * option MemoryStateStore) : MemoryStateStore := default ∅ o.2.

(** The state of a bucket: the stored one, or an empty one. *)
Definition bucket items key : State :=
  default (emptyState (normalizeKey key)) (items !! stateKey (normalizeKey key)).

(** Every state is stored under the key it carries. *)
Definition keyed items : Prop :=
  ∀ k st, items !! k = Some st → k = stateKey (st_Key st) ∧ normalizeKey (st_Key st) = st_Key st.

Lemma AfterCall_memory p items now key res :
  pol_Store p = Some items →
  after p now key res = (Ok tt, Some (State_Upsert items (updated_state time_Parse p (bucket items key) now res)).2).
Proof.
  intros Hs. unfold AfterCall. rewrite Hs. simpl ss_Get. unfold State_Get, bucket. rewrite normalizeKey_idem.
  by destruct (items !! _).
Qed.

Lemma updated_state_key p st now res : st_Key (updated_state time_Parse p st now res) = st_Key st.
Proof. unfold updated_state. by destruct (isThrottledResponse _ _ _ _ _ _). Qed.

Lemma bucket_key items key : keyed items → normalizeKey (st_Key (bucket items key)) = st_Key (bucket items key)
  ∧ stateKey (st_Key (bucket items key)) = stateKey (normalizeKey key).
Proof.
  intros Hk. unfold bucket. destruct (items !! _) as [st|] eqn:E; simpl.
  - destruct (Hk _ _ E) as [-> ->]. done.
  - by rewrite normalizeKey_idem.
Qed.

(** The store [AfterCall] leaves: one bucket updated. *)
Lemma AfterCall_items p items now key res :
  pol_Store p = Some items → keyed items →
  items_after (after p now key res)
    = <[stateKey (normalizeKey key) := updated_state time_Parse p (bucket items key) now res]> items
  ∧ keyed (items_after (after p now key res)).
Proof.
  intros Hs Hk. rewrite (AfterCall_memory p items) by done. unfold items_after. simpl.
  destruct (bucket_key items key Hk) as [Hn Hst].
  assert (Hset : set_key (updated_state time_Parse p (bucket items key) now res)
      (normalizeKey (st_Key (updated_state time_Parse p (bucket items key) now res)))
      = updated_state time_Parse p (bucket items key) now res).
  { rewrite updated_state_key, Hn, <- (updated_state_key p (bucket items key) now res).
    by destruct (updated_state _ _ _ _ _). }
  rewrite Hset. split; [by rewrite updated_state_key, Hn, Hst|]. rewrite updated_state_key, Hn, Hst.
  intros k st. rewrite lookup_insert_Some. intros [[<- <-]|[_ Hst']]; [|by apply Hk].
  by rewrite !updated_state_key, Hst, Hn.
Qed.

Lemma AfterCall_keyed p items now key res :
  pol_Store p = Some items → keyed items → keyed (items_after (after p now key res)).
Proof. intros Hs Hk. by destruct (AfterCall_items p items now key res Hs Hk). Qed.

(** What [BeforeCall] answers, from the bucket. *)
Definition blocked_until (st : State) (now : Time) : option Time :=
  match st_ThrottledUntil st with
  | Some until => if Before now until then Some until
                  else match st_ResetAt st with
                       | Some r => if (st_Remaining st =? 0)%Z && Before now r then Some r else None
                       | None => None
                       end
  | None => match st_ResetAt st with
            | Some r => if (st_Remaining st =? 0)%Z && Before now r then Some r else None
            | None => None
            end
  end.

Lemma BeforeCall_bucket p items now key :
  pol_Store p = Some items →
  BeforeCall p now key =
    match blocked_until (bucket items key) now with
    | Some until => Fail (ErrThrottled (mkThrottled (rk_ProviderID (st_Key (bucket items key)))
        (rk_BucketKey (st_Key (bucket items key))) (subTime until now)))
    | None => Ok tt
    end.
Proof.
  intros Hs. unfold BeforeCall. rewrite Hs. simpl ss_Get. unfold State_Get, bucket. rewrite normalizeKey_idem.
  destruct (items !! _) as [st|]; simpl; [|done]. unfold blocked_until. by repeat case_match.
Qed.

(** The calls [(now, key, response)] that providers answer, in order. *)
Definition after_step p items (call : Time * RateLimitKey * ProviderResponseMeta) : MemoryStateStore :=
  items_after (after (policy_with p items) call.1.1 call.1.2 call.2).
Definition after_run p : MemoryStateStore → list (Time * RateLimitKey * ProviderResponseMeta) → MemoryStateStore :=
  foldl (after_step p).

Lemma after_run_keyed p items calls : keyed items → keyed (after_run p items calls).
Proof.
  revert items. induction calls as [|[[now k] res] calls IH]; intros items Hk; simpl; [done|].
  apply IH. by eapply AfterCall_keyed.
Qed.

Lemma after_run_other p items calls key :
  keyed items → Forall (λ c, stateKey (normalizeKey c.1.2) ≠ stateKey (normalizeKey key)) calls →
  bucket (after_run p items calls) key = bucket items key.
Proof.
  intros Hk Hc. revert items Hk. induction Hc as [|[[now k] res] calls Hne _ IH]; intros items Hk; simpl; [done|].
  destruct (AfterCall_items (policy_with p items) items now k res eq_refl Hk) as [Hi Hk'].
  rewrite IH by done. unfold after_step, bucket. simpl in *. by rewrite Hi, lookup_insert_ne by done.
Qed.

Lemma bucket_after p items now key res :
  pol_Store p = Some items → keyed items →
  bucket (items_after (after p now key res)) key = updated_state time_Parse p (bucket items key) now res.
Proof.
  intros Hs Hk. destruct (AfterCall_items p items now key res Hs Hk) as [Hi _].
  unfold bucket at 1. by rewrite Hi, lookup_insert_eq.
Qed.

(** The delay a 429 response imposes as the n-th one in a row. *)
Definition throttle_delay p res (now : Time) (n : Z) : Duration :=
  match parseRetryAfter time_Parse res now with Some d => d | None => nextBackoff (pol_Backoff p) n end.

Lemma throttled_bucket p st now res :
  rm_StatusCode res = StatusTooManyRequests →
  let st' := updated_state time_Parse p st now res in
  st_ThrottledUntil st' = Some (now + throttle_delay p res now (st_Attempts st + 1))%Z ∧
  st_Attempts st' = (st_Attempts st + 1)%Z.
Proof. intros Hc. unfold updated_state. by rewrite Hc. Qed.

(** C20: a 429 response throttles its bucket for the delay it asks for (or the backoff of its
    rank).  Until the delay has passed, and whatever responses arrive for other buckets, every
    call to a key that is the same up to case and surrounding blanks is refused, with the exact
    remaining time as the retry hint; once both the delay and the advertised reset time have passed, calls are
    let through. *)
Theorem throttle_enforced p items now key res calls t key' :
  pol_Store p = Some items → keyed items → rm_StatusCode res = StatusTooManyRequests →
  Forall (λ c, stateKey (normalizeKey c.1.2) ≠ stateKey (normalizeKey key)) calls →
  normalizeKey key' = normalizeKey key →
  let until := (now + throttle_delay p res now (st_Attempts (bucket items key) + 1))%Z in
  let st' := updated_state time_Parse p (bucket items key) now res in
  let p' := policy_with p (after_run p (items_after (after p now key res)) calls) in
  ((t < until)%Z →
    BeforeCall p' t key' = Fail (ErrThrottled (mkThrottled (rk_ProviderID (st_Key st')) (rk_BucketKey (st_Key st'))
      (subTime until t))) ∧ (0 < subTime until t)%Z) ∧
  ((until ≤ t)%Z → (∀ r, st_ResetAt st' = Some r → (r ≤ t)%Z) → BeforeCall p' t key' = Ok tt).
Proof.
  intros Hs Hk Hc Hcalls Hkey until st' p'.
  rewrite (BeforeCall_bucket p' (after_run p (items_after (after p now key res)) calls) t key') by done.
  assert (Hb : bucket (after_run p (items_after (after p now key res)) calls) key' = st').
  { unfold bucket at 1. rewrite Hkey. fold (bucket (after_run p (items_after (after p now key res)) calls) key).
    rewrite after_run_other; [by apply bucket_after|by eapply AfterCall_keyed|done]. }
  rewrite Hb. destruct (throttled_bucket p (bucket items key) now res Hc) as [Hu _]. fold st' until in Hu.
  unfold blocked_until. rewrite Hu. split.
  - intros Ht. assert (Before t until = true) as -> by (by apply Before_lt). split; [done|by apply subTime_pos].
  - intros Ht Hr. assert (Before t until = false) as -> by (by apply Before_ge).
    destruct (st_ResetAt st') as [r|]; [|done]. assert (Before t r = false) as -> by (apply Before_ge; auto).
    by rewrite andb_false_r.
Qed.

Lemma consecutive_429 p items key calls :
  keyed items →
  Forall (λ c, normalizeKey c.1.2 = normalizeKey key ∧ rm_StatusCode c.2 = StatusTooManyRequests) calls →
  st_Attempts (bucket (after_run p items calls) key) = (st_Attempts (bucket items key) + Z.of_nat (length calls))%Z.
Proof.
  intros Hk Hc. revert items Hk. induction Hc as [|[[now k] res] calls [Hn Hst] _ IH]; intros items Hk;
    [simpl; lia|]. simpl in Hn, Hst. simpl length. simpl after_run.
  assert (Hb : bucket (after_step p items (now, k, res)) key
      = updated_state time_Parse (policy_with p items) (bucket items key) now res).
  { unfold after_step. simpl. unfold bucket. rewrite <- Hn. by apply bucket_after. }
  rewrite IH by (by eapply AfterCall_keyed). rewrite Hb.
  destruct (throttled_bucket (policy_with p items) (bucket items key) now res Hst) as [_ ->]. lia.
Qed.

(** Exponential backoff.  When n responses in a row for a bucket are 429 and the last one carries no
    usable hint, the bucket is throttled for min(max, initial * 2^(n-1)) from the last
    response on; a server error (5xx, never taken for a throttled response) starts the count again at zero. *)
Theorem consecutive_429_backoff p items key calls now res t :
  keyed items → bucket items key = emptyState (normalizeKey key) →
  Forall (λ c, normalizeKey c.1.2 = normalizeKey key ∧ rm_StatusCode c.2 = StatusTooManyRequests) calls →
  rm_StatusCode res = StatusTooManyRequests → parseRetryAfter time_Parse res now = None →
  (0 < ap_InitialBackoff (pol_Backoff p) < 2 ^ 62)%Z → (0 < ap_MaxBackoff (pol_Backoff p) ≤ 2 ^ 62)%Z →
  let items' := after_run p items (calls ++ [(now, key, res)]) in
  let n := (Z.of_nat (length calls) + 1)%Z in
  let delay := exp_backoff (ap_InitialBackoff (pol_Backoff p)) (ap_MaxBackoff (pol_Backoff p)) n in
  ((t < now + delay)%Z →
     ∃ e, BeforeCall (policy_with p items') t key = Fail (ErrThrottled e) ∧
          te_RetryAfter e = subTime (now + delay) t) ∧
  (∀ now' res', rm_StatusCode res' ≠ StatusTooManyRequests → (500 ≤ rm_StatusCode res')%Z →
     st_Attempts (bucket (after_run p items' [(now', key, res')]) key) = 0%Z).
Proof.
  intros Hk He Hc Hst Hh Hi Hm items' n delay.
  set (items1 := after_run p items calls).
  assert (Hk1 : keyed items1) by (by apply after_run_keyed).
  assert (Hi' : items' = items_after (after (policy_with p items1) now key res)).
  { unfold items', after_run. by rewrite foldl_app. }
  assert (Hatt : st_Attempts (bucket items1 key) = Z.of_nat (length calls)).
  { unfold items1. rewrite consecutive_429 by done. rewrite He. simpl. lia. }
  assert (Hb : bucket items' key = updated_state time_Parse (policy_with p items1) (bucket items1 key) now res).
  { rewrite Hi'. by apply bucket_after. }
  destruct (throttled_bucket (policy_with p items1) (bucket items1 key) now res Hst) as [Hu _].
  assert (Hd : throttle_delay (policy_with p items1) res now (st_Attempts (bucket items1 key) + 1) = delay).
  { unfold throttle_delay. rewrite Hh, Hatt. apply nextBackoff_spec; simpl; [lia|done|done]. }
  rewrite Hd in Hu. split.
  - intros Ht. rewrite (BeforeCall_bucket _ items') by done. unfold blocked_until. rewrite Hb, Hu.
    assert (Before t (now + delay) = true) as -> by (by apply Before_lt). eauto.
  - intros now' res' Hne H5. unfold after_run. simpl. unfold after_step. simpl.
    rewrite (bucket_after _ items') by (try done; rewrite Hi'; by eapply AfterCall_keyed).
    unfold updated_state, isThrottledResponse. unfold StatusTooManyRequests in Hne.
    destruct (Z.eqb_spec (rm_StatusCode res') 429); [done|].
    by destruct (Z.leb_spec 500 (rm_StatusCode res')); [|lia].
Qed.

(** Buckets do not interfere: when the normalised keys have no bar in their fields, a response for
    one bucket changes the verdict on no other bucket, and keys that differ only in case (of provider,
    scope type and bucket) or surrounding blanks share theirs. *)
Theorem buckets_isolated p items now key res t key' :
  pol_Store p = Some items → keyed items →
  plain_key (normalizeKey key) → plain_key (normalizeKey key') →
  let p' := policy_with p (items_after (after p now key res)) in
  (normalizeKey key' ≠ normalizeKey key → BeforeCall p' t key' = BeforeCall p t key') ∧
  (normalizeKey key' = normalizeKey key → BeforeCall p' t key' = BeforeCall p' t key).
Proof.
  intros Hs Hk Hp1 Hp2 p'. split; intros Hn.
  - rewrite (BeforeCall_bucket p' (items_after (after p now key res))), (BeforeCall_bucket p items) by done.
    destruct (AfterCall_items p items now key res Hs Hk) as [Hi _]. unfold bucket. rewrite Hi.
    rewrite lookup_insert_ne; [done|]. intros Heq. apply Hn. by apply stateKey_inj.
  - unfold BeforeCall. simpl. unfold State_Get. by rewrite Hn.
Qed.
End policy_theorems.

(** ** Concrete responses *)

Section demo.
#[local] Existing Instance key_order_range.
Definition no_dates : string → string → option Time := λ _ _, None.
Definition demo_policy : AdaptivePolicy MemoryStateStore := mkPolicy (Some ∅) (mkBackoffParams Second Minute 0).
Definition demo_key : RateLimitKey := mkRateLimitKey "GitHub " "org" "1" "api".
Definition response (code : Z) (headers : gmap string string) : ProviderResponseMeta :=
  mkResponseMeta code headers None ∅.

Lemma empty_keyed : keyed ∅.
Proof. intros k st. by rewrite lookup_empty. Defined.

Lemma throttle_enforced_witness :
  let res := response 429 {[ "Retry-After" := "7" ]} in
  let p' := policy_with demo_policy (items_after (AfterCall no_dates demo_policy 100 demo_key res)) in
  BeforeCall p' (100 + 3 * Second) (mkRateLimitKey "github" "ORG" "1" "api")
  = Fail (ErrThrottled (mkThrottled "github" "api" (4 * Second))).
Proof.
  intros res p'.
  refine (eq_trans (proj1 (proj1 (throttle_enforced no_dates demo_policy ∅ 100 demo_key res [] (100 + 3 * Second)
    (mkRateLimitKey "github" "ORG" "1" "api") _ _ _ _ _) _)) _).
  - reflexivity.
  - exact empty_keyed.
  - reflexivity.
  - constructor.
  - vm_compute. reflexivity.
  - vm_compute. reflexivity.
  - vm_compute. reflexivity.
Defined.

Lemma consecutive_429_backoff_witness :
  let items' := after_run no_dates demo_policy ∅
    ([(10, demo_key, response 429 ∅); (20, demo_key, response 429 ∅)] ++ [(30, demo_key, response 429 ∅)])%Z in
  ∃ e, BeforeCall (policy_with demo_policy items') 31 demo_key = Fail (ErrThrottled e) ∧
       te_RetryAfter e = subTime (30 + 4 * Second) 31.
Proof.
  apply (consecutive_429_backoff no_dates demo_policy ∅ demo_key
    [(10, demo_key, response 429 ∅); (20, demo_key, response 429 ∅)]%Z 30 (response 429 ∅) 31).
  - exact empty_keyed.
  - vm_compute. reflexivity.
  - repeat constructor.
  - reflexivity.
  - vm_compute. reflexivity.
  - vm_compute. auto.
  - vm_compute. split; congruence.
  - vm_compute. reflexivity.
Defined.

Lemma buckets_isolated_witness :
  let p' := policy_with demo_policy (items_after (AfterCall no_dates demo_policy 100 demo_key (response 429 ∅))) in
  BeforeCall p' 101 (mkRateLimitKey "github" "org" "2" "api")
  = BeforeCall demo_policy 101 (mkRateLimitKey "github" "org" "2" "api").
Proof.
  apply (buckets_isolated no_dates demo_policy ∅ 100 demo_key (response 429 ∅) 101
    (mkRateLimitKey "github" "org" "2" "api")).
  - reflexivity.
  - exact empty_keyed.
  - repeat split; vm_compute; repeat constructor.
  - repeat split; vm_compute; repeat constructor.
  - vm_compute. congruence.
Defined.

(** A large number of seconds in [Retry-After] overflows the duration: the bucket is open again
    at once. *)
Example retry_after_overflow :
  let res := response 429 {[ "retry-after" := "9300000000" ]} in
  let p' := policy_with demo_policy (items_after (AfterCall no_dates demo_policy (timeUnix 1700000000) demo_key res)) in
  BeforeCall p' (timeUnix 1700000000) demo_key = Ok tt.
Proof. vm_compute. reflexivity. Qed.

(** A first response that reports a limit but no remaining count is taken for a throttled one,
    since the remaining count of a fresh state is zero. *)
Example limit_header_alone_throttles :
  let res := response 200 {[ "x-ratelimit-limit" := "5000" ]} in
  let p' := policy_with demo_policy (items_after (AfterCall no_dates demo_policy 100 demo_key res)) in
  BeforeCall p' 101 demo_key = Fail (ErrThrottled (mkThrottled "github" "api" (Second - 1))).
Proof. vm_compute. reflexivity. Qed.

(** Two buckets whose fields contain bars share one state. *)
Example bar_merges_buckets :
  stateKey (normalizeKey (mkRateLimitKey "a" "b|c" "d" "e")) = stateKey (normalizeKey (mkRateLimitKey "a|b" "c" "d" "e")).
Proof. reflexivity. Qed.
End demo.
