(* ===== verification/Outbox.v ===== *)
(** * The lifecycle outbox (src/store/sql/outbox_store.go, src/core/outbox_dispatcher.go)

    The table [service_lifecycle_outbox] is a map from its unique event id to rows; each SQL
    statement is one step.  What the database is free to choose (which of the events of equal
    age a [LIMIT] keeps, in which order [RETURNING] lists them) is a parameter with laws; how a
    JSON column reads back what was written is a parameter without any. *)

From S2P Require Import Prelude GoStrings GoValues Domain Contracts Backoff.
From Stdlib Require Import ZArith Lia.
From stdpp Require Import base decidable list gmap strings sorting.

Local Open Scope string_scope.
Local Open Scope nat_scope.
Local Open Scope list_scope.

Definition outboxStatusPending := "pending".
Definition outboxStatusProcessing := "processing".
Definition outboxStatusDelivered := "delivered".
Definition outboxStatusFailed := "failed".

Definition MetadataKeyOutboxAttempts := "_outbox_attempts".

Record lifecycleOutboxRecord := mkOutboxRow {
  ob_ID : string; ob_EventID : string; ob_EventName : string; ob_ProviderID : string;
  ob_ScopeType : string; ob_ScopeID : string; ob_ConnectionID : option string;
  ob_Payload : gmap string value; ob_Metadata : gmap string value; ob_Status : string;
  ob_Attempts : Z; ob_NextAttempt : option Time; ob_LastError : string;
  ob_OccurredAt : Time; ob_CreatedAt : Time; ob_UpdatedAt : Time }.

Abbreviation outbox_table := (gmap string lifecycleOutboxRecord).

Definition ob_with (r : lifecycleOutboxRecord) (status : string) (attempts : Z) (next : option Time)
    (lastError : string) (now : Time) : lifecycleOutboxRecord :=
  mkOutboxRow (ob_ID r) (ob_EventID r) (ob_EventName r) (ob_ProviderID r) (ob_ScopeType r) (ob_ScopeID r)
    (ob_ConnectionID r) (ob_Payload r) (ob_Metadata r) status attempts next lastError
    (ob_OccurredAt r) (ob_CreatedAt r) now.

Inductive outbox_error :=
| OErrEventIDRequired | OErrNameRequired | OErrProviderRequired | OErrScopeRequired
| OErrDuplicate (eventID : string)
| OErrDatabase (cause : string)
| OErrNoRegistry | OErrNoHandlers
| OErrProjector (index : nat) (eventID : string) (cause : string)
| OErrJoined (first next : outbox_error).

Definition older (r1 r2 : lifecycleOutboxRecord) : Prop := (ob_OccurredAt r1 ≤ ob_OccurredAt r2)%Z.

(** The orders the database chooses. *)
Class SqlOrder : Type := {
  order_by_age : list lifecycleOutboxRecord → list lifecycleOutboxRecord;
  order_by_age_perm : ∀ l, order_by_age l ≡ₚ l;
  order_by_age_sorted : ∀ l, Sorted older (order_by_age l);
  returning : list lifecycleOutboxRecord → list lifecycleOutboxRecord;
  returning_perm : ∀ l, returning l ≡ₚ l }.

#[export] Instance older_dec r1 r2 : Decision (older r1 r2).
Proof. unfold older. apply _. Defined.
#[export] Instance older_total : Total older.
Proof. intros r1 r2. unfold older. lia. Qed.

Definition stable_order : SqlOrder :=
  {| order_by_age := merge_sort older; order_by_age_perm := merge_sort_Permutation older;
     order_by_age_sorted := Sorted_merge_sort older; returning := λ l, l; returning_perm := λ l, reflexivity _ |}.

Section outbox_store.
Context {SO : SqlOrder}.
(** A JSON object as it is read back from its column. *)
Variable json_column : gmap string value → gmap string value.

Definition Outbox_Enqueue (T : outbox_table) (env : CallEnv) (event : LifecycleEvent)
    : outcome outbox_error unit * outbox_table :=
  if blank (ev_ID event) then (Fail OErrEventIDRequired, T)
  else if blank (ev_Name event) then (Fail OErrNameRequired, T)
  else if blank (ev_ProviderID event) then (Fail OErrProviderRequired, T)
  else if blank (ev_ScopeType event) || blank (ev_ScopeID event) then (Fail OErrScopeRequired, T)
  else
    let now := env_now env in
    let occurredAt := if IsZero (ev_OccurredAt event) then now else ev_OccurredAt event in
    let connectionID := TrimSpace (ev_ConnectionID event) in
    let record := mkOutboxRow (env_uuid env) (TrimSpace (ev_ID event)) (TrimSpace (ev_Name event))
      (TrimSpace (ev_ProviderID event)) (TrimSpace (ev_ScopeType event)) (TrimSpace (ev_ScopeID event))
      (if String.eqb connectionID "" then None else Some connectionID)
      (copyAnyMap (ev_Payload event)) (copyAnyMap (ev_Metadata event)) outboxStatusPending 0 None ""
      occurredAt now now in
    match env_fault env 0 with
    | Some err => (Fail (OErrDatabase err), T)
    | None =>
      match T !! ob_EventID record with
      | Some _ => (Fail (OErrDuplicate (ob_EventID record)), T)
      | None => (Ok tt, <[ob_EventID record := record]> T)
      end
    end.

Definition outboxRecordToEvent (r : lifecycleOutboxRecord) : LifecycleEvent :=
  mkLifecycleEvent (ob_EventID r) (ob_EventName r) (ob_ProviderID r) (ob_ScopeType r) (ob_ScopeID r)
    (match ob_ConnectionID r with Some c => TrimSpace c | None => "" end) "" (ob_OccurredAt r)
    (copyAnyMap (json_column (ob_Payload r)))
    (<[MetadataKeyOutboxAttempts := VInt IntK (ob_Attempts r)]> (copyAnyMap (json_column (ob_Metadata r)))).

(** The [WHERE] clause of the claiming query. *)
Definition ob_due (now : Time) (r : lifecycleOutboxRecord) : bool :=
  String.eqb (ob_Status r) outboxStatusPending
  && match ob_NextAttempt r with None => true | Some t => (t <=? now)%Z end.

Definition claim_candidates (T : outbox_table) (now : Time) : list lifecycleOutboxRecord :=
  filter (λ r, ob_due now r = true) (map_to_list T).*2.

Definition ob_claimed (now : Time) (r : lifecycleOutboxRecord) : lifecycleOutboxRecord :=
  ob_with r outboxStatusProcessing (ob_Attempts r) (ob_NextAttempt r) (ob_LastError r) now.

(** The update of the selected rows. *)
Definition mark_claimed (now : Time) (T : outbox_table) (rows : list lifecycleOutboxRecord) : outbox_table :=
  foldr (λ r T, <[ob_EventID r := ob_claimed now r]> T) T rows.

(** The transaction is one statement of the model. *)
Definition ClaimBatch (T : outbox_table) (env : CallEnv) (limit : Z)
    : outcome outbox_error (list LifecycleEvent) * outbox_table :=
  let limit := if (limit <=? 0)%Z then 1%Z else limit in
  let now := env_now env in
  match env_fault env 0 with
  | Some err => (Fail (OErrDatabase err), T)
  | None =>
    let rows := take (Z.to_nat limit) (order_by_age (claim_candidates T now)) in
    (Ok (outboxRecordToEvent <$> returning (ob_claimed now <$> rows)), mark_claimed now T rows)
  end.

(** [UPDATE ... WHERE event_id = ?] *)
Definition update_event (T : outbox_table) (eventID : string)
    (f : lifecycleOutboxRecord → lifecycleOutboxRecord) : outbox_table :=
  match T !! eventID with Some r => <[eventID := f r]> T | None => T end.

Definition Outbox_Ack (T : outbox_table) (env : CallEnv) (eventID : string)
    : outcome outbox_error unit * outbox_table :=
  let eventID := TrimSpace eventID in
  if String.eqb eventID "" then (Fail OErrEventIDRequired, T)
  else match env_fault env 0 with
  | Some err => (Fail (OErrDatabase err), T)
  | None =>
    (Ok tt, update_event T eventID (λ r, ob_with r outboxStatusDelivered (ob_Attempts r) None "" (env_now env)))
  end.

Definition Outbox_Retry (T : outbox_table) (env : CallEnv) (eventID cause : string) (nextAttemptAt : Time)
    : outcome outbox_error unit * outbox_table :=
  let eventID := TrimSpace eventID in
  if String.eqb eventID "" then (Fail OErrEventIDRequired, T)
  else
    let dead := IsZero nextAttemptAt in
    let status := if dead then outboxStatusFailed else outboxStatusPending in
    let next := if dead then None else Some nextAttemptAt in
    match env_fault env 0 with
    | Some err => (Fail (OErrDatabase err), T)
    | None =>
      (Ok tt, update_event T eventID
                (λ r, ob_with r status (ob_Attempts r + 1) next (TrimSpace cause) (env_now env)))
    end.

(** ** The dispatcher *)

Record OutboxDispatcherConfig := mkOutboxConfig {
  oc_BatchSize : Z; oc_MaxAttempts : Z; oc_InitialBackoff : Duration; oc_MaxBackoff : Duration }.
Definition DefaultOutboxDispatcherConfig : OutboxDispatcherConfig :=
  mkOutboxConfig 50 5 (2 * Second) (5 * Minute).

(** The configuration [NewOutboxDispatcher] keeps. *)
Definition NewOutboxDispatcher (config : OutboxDispatcherConfig) : OutboxDispatcherConfig :=
  let d := DefaultOutboxDispatcherConfig in
  mkOutboxConfig (if (oc_BatchSize config <=? 0)%Z then oc_BatchSize d else oc_BatchSize config)
    (if (oc_MaxAttempts config <=? 0)%Z then oc_MaxAttempts d else oc_MaxAttempts config)
    (if (oc_InitialBackoff config <=? 0)%Z then oc_InitialBackoff d else oc_InitialBackoff config)
    (if (oc_MaxBackoff config <=? 0)%Z then oc_MaxBackoff d else oc_MaxBackoff config).

(** A registered projector (nil handlers are skipped). *)
Abbreviation handlers := (list (option (LifecycleEvent → outcome string unit))).

(** What the platform makes of a float that does not fit an integer. *)
Variable f2i_out_of_range : Z.

(** [int(f)] for the finite float [m * 2^e]: truncation. *)
Definition float_to_int (m e : Z) : Z :=
  let z := if (0 <=? e)%Z then (m * 2 ^ e)%Z else (m ÷ 2 ^ (- e))%Z in
  if in_int64b z then z else f2i_out_of_range.

Definition nextAttemptIndex (event : LifecycleEvent) : Z :=
  match ev_Metadata event !! MetadataKeyOutboxAttempts with
  | Some (VInt IntK z) | Some (VInt Int64K z) => if (z <? 0)%Z then 0%Z else z
  | Some (VFloat64 m e _) => if (m <? 0)%Z then 0%Z else float_to_int m e
  | Some (VString s) =>
    match Atoi (TrimSpace s) with Some z => if (0 <=? z)%Z then z else 0%Z | None => 0%Z end
  | _ => 0%Z
  end.

Definition joinErrors (existing next : option outbox_error) : option outbox_error :=
  match existing, next with
  | None, _ => next
  | _, None => existing
  | Some e1, Some e2 => Some (OErrJoined e1 e2)
  end.

Fixpoint run_handlers (i : nat) (hs : handlers) (event : LifecycleEvent) : outcome outbox_error unit :=
  match hs with
  | [] => Ok tt
  | None :: hs' => run_handlers (S i) hs' event
  | Some h :: hs' =>
    match h event with
    | Ok _ => run_handlers (S i) hs' event
    | Fail cause => Fail (OErrProjector i (ev_ID event) cause)
    end
  end.

Definition dispatchOne (registry : option handlers) (event : LifecycleEvent) : outcome outbox_error unit :=
  match registry with
  | None => Fail OErrNoRegistry
  | Some hs => if decide (length hs = 0) then Fail OErrNoHandlers else run_handlers 0 hs event
  end.

(** [retryEvent]; the text of the cause and the dispatcher's clock are arguments. *)
Definition retryEvent (cfg : OutboxDispatcherConfig) (T : outbox_table) (env : CallEnv) (now : Time)
    (event : LifecycleEvent) (cause : string) : outcome outbox_error unit * outbox_table :=
  let attempt := nextAttemptIndex event in
  if (oc_MaxAttempts cfg <=? attempt + 1)%Z
  then Outbox_Retry T env (TrimSpace (ev_ID event)) cause zeroTime
  else Outbox_Retry T env (TrimSpace (ev_ID event)) cause
         (addTime now (nextBackoffDelay f2i_out_of_range (oc_InitialBackoff cfg) (oc_MaxBackoff cfg) (attempt + 1))).

(** What the dispatch of one event meets: its store call, the clock, the text of an error. *)
Record EventEnv := mkEventEnv { ee_store : CallEnv; ee_now : Time; ee_text : outbox_error → string }.

Record dispatch_state := mkDispatchState {
  dst_stats : DispatchStats; dst_err : option outbox_error; dst_table : outbox_table }.

Definition outcome_error (o : outcome outbox_error unit) : option outbox_error :=
  match o with Ok _ => None | Fail e => Some e end.

Definition bump_delivered (s : DispatchStats) : DispatchStats :=
  mkDispatchStats (ds_Claimed s) (ds_Delivered s + 1) (ds_Retried s) (ds_Failed s).
Definition bump_retried (s : DispatchStats) : DispatchStats :=
  mkDispatchStats (ds_Claimed s) (ds_Delivered s) (ds_Retried s + 1) (ds_Failed s).
Definition bump_failed (s : DispatchStats) : DispatchStats :=
  mkDispatchStats (ds_Claimed s) (ds_Delivered s) (ds_Retried s) (ds_Failed s + 1).

(** The body of the loop over the claimed events. *)
Definition dispatch_event (cfg : OutboxDispatcherConfig) (registry : option handlers)
    (ee : EventEnv) (event : LifecycleEvent) (st : dispatch_state) : dispatch_state :=
  match dispatchOne registry event with
  | Fail err =>
    let (retried, T) := retryEvent cfg (dst_table st) (ee_store ee) (ee_now ee) event (ee_text ee err) in
    let dispatchErr := joinErrors (dst_err st) (outcome_error retried) in
    let stats := if (oc_MaxAttempts cfg <=? nextAttemptIndex event + 1)%Z
                 then bump_failed (dst_stats st) else bump_retried (dst_stats st) in
    mkDispatchState stats (joinErrors dispatchErr (Some err)) T
  | Ok _ =>
    match Outbox_Ack (dst_table st) (ee_store ee) (TrimSpace (ev_ID event)) with
    | (Fail err, T) => mkDispatchState (dst_stats st) (joinErrors (dst_err st) (Some err)) T
    | (Ok _, T) => mkDispatchState (bump_delivered (dst_stats st)) (dst_err st) T
    end
  end.

(** The environment of the i-th event of a batch is [envs i]. *)
Fixpoint dispatch_loop (cfg : OutboxDispatcherConfig) (registry : option handlers) (envs : nat → EventEnv)
    (i : nat) (events : list LifecycleEvent) (st : dispatch_state) : dispatch_state :=
  match events with
  | [] => st
  | event :: events' =>
    dispatch_loop cfg registry envs (S i) events' (dispatch_event cfg registry (envs i) event st)
  end.

Definition emptyStats : DispatchStats := mkDispatchStats 0 0 0 0.

Definition DispatchPending (cfg : OutboxDispatcherConfig) (registry : option handlers) (T : outbox_table)
    (env : CallEnv) (envs : nat → EventEnv) (batchSize : Z) : dispatch_state :=
  let limit := if (batchSize <=? 0)%Z then oc_BatchSize cfg else batchSize in
  match ClaimBatch T env limit with
  | (Fail err, T') => mkDispatchState emptyStats (Some err) T'
  | (Ok events, T') =>
    dispatch_loop cfg registry envs 0 events
      (mkDispatchState (mkDispatchStats (Z.of_nat (length events)) 0 0 0) None T')
  end.
End outbox_store.

(** ** Well-formed tables *)

(** Rows are stored under their trimmed event id. *)
Definition outbox_wf (T : outbox_table) : Prop :=
  ∀ k r, T !! k = Some r → ob_EventID r = k ∧ TrimSpace k = k ∧ k ≠ "".

Section outbox_lemmas.
Context {SO : SqlOrder}.
Variable json_column : gmap string value → gmap string value.
Variable oor : Z.
Abbreviation to_event := (outboxRecordToEvent json_column).
Abbreviation claim_batch := (ClaimBatch json_column).
Implicit Types (T : outbox_table) (r : lifecycleOutboxRecord).

Lemma outbox_wf_insert T k r r' :
  outbox_wf T → T !! k = Some r → ob_EventID r' = ob_EventID r → outbox_wf (<[k := r']> T).
Proof.
  intros Hwf Hr Hid k' x. rewrite lookup_insert_Some. intros [[<- <-]|[_ Hx]]; [|by apply Hwf].
  rewrite Hid. by apply Hwf.
Qed.

Lemma update_event_lookup T k f k' :
  update_event T k f !! k' = if decide (k = k') then f <$> T !! k' else T !! k'.
Proof.
  unfold update_event. destruct (T !! k) as [r|] eqn:E; destruct (decide (k = k')) as [<-|Hne].
  - by rewrite lookup_insert_eq, E.
  - by rewrite lookup_insert_ne.
  - by rewrite E.
  - done.
Qed.

Lemma update_event_wf T k f : (∀ r, ob_EventID (f r) = ob_EventID r) → outbox_wf T → outbox_wf (update_event T k f).
Proof.
  intros Hf Hwf. unfold update_event. destruct (T !! k) as [r|] eqn:E; [|done]. by eapply outbox_wf_insert.
Qed.

Lemma elem_of_candidates T now r :
  outbox_wf T → r ∈ claim_candidates T now ↔ T !! ob_EventID r = Some r ∧ ob_due now r = true.
Proof.
  intros Hwf. unfold claim_candidates. rewrite list_elem_of_filter, list_elem_of_fmap. split.
  - intros [Hd ([k x] & -> & Hin)]. simpl in *. apply elem_of_map_to_list in Hin.
    destruct (Hwf _ _ Hin) as (-> & _). done.
  - intros [Hr Hd]. split; [done|]. exists (ob_EventID r, r). split; [done|]. by apply elem_of_map_to_list.
Qed.

Lemma candidates_NoDup T now : outbox_wf T → NoDup (ob_EventID <$> claim_candidates T now).
Proof.
  intros Hwf. unfold claim_candidates.
  assert (H : ∀ l : list (string * lifecycleOutboxRecord), NoDup l.*1 → Forall (λ kr, ob_EventID kr.2 = kr.1) l →
    NoDup (ob_EventID <$> filter (λ r, ob_due now r = true) l.*2)).
  { induction l as [|[k r] l IH]; simpl; [constructor|]. intros [Hn Hd]%NoDup_cons [Hk Hl]%Forall_cons. simpl in Hk.
    rewrite filter_cons. destruct (decide _); [|auto]. simpl. constructor; [|auto].
    rewrite list_elem_of_fmap. intros (r' & Heq & Hin). apply list_elem_of_filter in Hin as [_ Hin].
    apply list_elem_of_fmap in Hin as ([k' r''] & -> & Hin). apply Hn.
    rewrite Forall_forall in Hl. pose proof (Hl _ Hin) as Hk'. simpl in *.
    apply list_elem_of_fmap. exists (k', r''). split; [simpl; congruence|done]. }
  apply H; [apply NoDup_fst_map_to_list|]. apply Forall_forall. intros [k r] Hin.
  apply elem_of_map_to_list in Hin. by destruct (Hwf _ _ Hin).
Qed.

Lemma mark_claimed_lookup now T rows k :
  NoDup (ob_EventID <$> rows) → Forall (λ r, T !! ob_EventID r = Some r) rows →
  mark_claimed now T rows !! k = if decide (k ∈ ob_EventID <$> rows) then ob_claimed now <$> T !! k else T !! k.
Proof.
  intros Hnd Hrows. induction rows as [|r rows IH]; [done|].
  apply NoDup_cons in Hnd as [Hn Hnd]. apply Forall_cons in Hrows as [Hr Hrows]. cbn [mark_claimed foldr].
  fold (mark_claimed now T rows). destruct (decide (ob_EventID r = k)) as [<-|Hne].
  - rewrite lookup_insert_eq, decide_True by (rewrite fmap_cons; set_solver). by rewrite Hr.
  - rewrite lookup_insert_ne by done. rewrite IH by done.
    by destruct (decide (k ∈ ob_EventID <$> rows)); [rewrite decide_True|rewrite decide_False];
      try done; rewrite fmap_cons; set_solver.
Qed.

(** The rows a batch claims. *)
Definition batch_rows T (now : Time) (limit : Z) : list lifecycleOutboxRecord :=
  take (Z.to_nat (if (limit <=? 0)%Z then 1 else limit)%Z) (order_by_age (claim_candidates T now)).

Lemma batch_rows_spec T now limit :
  outbox_wf T → NoDup (ob_EventID <$> batch_rows T now limit) ∧
  Forall (λ r, T !! ob_EventID r = Some r ∧ ob_due now r = true) (batch_rows T now limit).
Proof.
  intros Hwf. unfold batch_rows. set (n := Z.to_nat _). split.
  - rewrite fmap_take. apply (sublist_NoDup _ (ob_EventID <$> order_by_age (claim_candidates T now)));
      [|apply sublist_take]. rewrite order_by_age_perm. by apply candidates_NoDup.
  - apply Forall_take. rewrite order_by_age_perm. apply Forall_forall. intros r. by apply elem_of_candidates.
Qed.

Lemma ClaimBatch_ok T env limit events T' :
  claim_batch T env limit = (Ok events, T') →
  events ≡ₚ (to_event ∘ ob_claimed (env_now env)) <$> batch_rows T (env_now env) limit ∧
  T' = mark_claimed (env_now env) T (batch_rows T (env_now env) limit).
Proof.
  unfold ClaimBatch. destruct (env_fault env 0); [done|]. intros [= <- <-]. split; [|done].
  rewrite list_fmap_compose. fold (batch_rows T (env_now env) limit). by rewrite returning_perm.
Qed.

Lemma mark_claimed_wf now T rows : outbox_wf T → Forall (λ r, T !! ob_EventID r = Some r) rows →
  outbox_wf (mark_claimed now T rows).
Proof.
  intros Hwf Hrows. assert (H : ∀ k r, mark_claimed now T rows !! k = Some r → ∃ r0, T !! k = Some r0 ∧ ob_EventID r = ob_EventID r0).
  { induction rows as [|r0 rows IH]; [naive_solver|]. apply Forall_cons in Hrows as [Hr Hrows]. intros k r.
    cbn [mark_claimed foldr]. rewrite lookup_insert_Some. intros [[<- <-]|[_ Hk]]; [eauto|by apply IH]. }
  intros k r Hk. destruct (H k r Hk) as (r0 & Hr0 & ->). by apply Hwf.
Qed.
End outbox_lemmas.

(** ** Store calls in any order *)

Inductive outbox_op :=
| OpEnqueue (env : CallEnv) (event : LifecycleEvent)
| OpClaimBatch (env : CallEnv) (limit : Z)
| OpAck (env : CallEnv) (eventID : string)
| OpRetry (env : CallEnv) (eventID cause : string) (nextAttemptAt : Time).

Section outbox_runs.
Context {SO : SqlOrder}.
Variable json_column : gmap string value → gmap string value.
Implicit Types (T : outbox_table) (r : lifecycleOutboxRecord).

Definition outbox_step T (op : outbox_op) : outbox_table :=
  match op with
  | OpEnqueue env event => (Outbox_Enqueue T env event).2
  | OpClaimBatch env limit => (ClaimBatch json_column T env limit).2
  | OpAck env eventID => (Outbox_Ack T env eventID).2
  | OpRetry env eventID cause next => (Outbox_Retry T env eventID cause next).2
  end.
Definition outbox_run : outbox_table → list outbox_op → outbox_table := foldl outbox_step.

Lemma Enqueue_cases T env event :
  (Outbox_Enqueue T env event).2 = T ∨
  ∃ r, let k := TrimSpace (ev_ID event) in
    T !! k = None ∧ (Outbox_Enqueue T env event).2 = <[k := r]> T ∧ k ≠ "" ∧ ob_EventID r = k ∧
    ob_Status r = outboxStatusPending ∧ ob_Attempts r = 0%Z.
Proof.
  unfold Outbox_Enqueue. destruct (blank (ev_ID event)) eqn:Hb; [by left|]. apply blank_false in Hb.
  destruct (blank (ev_Name event)); [by left|]. destruct (blank (ev_ProviderID event)); [by left|].
  destruct (_ || _); [by left|]. cbv zeta. destruct (env_fault env 0); [by left|]. simpl ob_EventID.
  destruct (T !! TrimSpace (ev_ID event)) eqn:E; [by left|right]. eexists. split_and!; [done|done|done|done..].
Qed.

Lemma Ack_table T env id :
  (Outbox_Ack T env id).2 = T ∨ (Outbox_Ack T env id).2 = update_event T (TrimSpace id)
    (λ r, ob_with r outboxStatusDelivered (ob_Attempts r) None "" (env_now env)).
Proof. unfold Outbox_Ack. destruct (String.eqb _ _); [by left|]. destruct (env_fault env 0); [by left|by right]. Qed.

Lemma Retry_table T env id cause next :
  (Outbox_Retry T env id cause next).2 = T ∨ ∃ status next', (Outbox_Retry T env id cause next).2
    = update_event T (TrimSpace id) (λ r, ob_with r status (ob_Attempts r + 1) next' (TrimSpace cause) (env_now env)).
Proof.
  unfold Outbox_Retry. destruct (String.eqb _ _); [by left|]. destruct (env_fault env 0); [by left|right; eauto].
Qed.

Lemma outbox_step_wf T op : outbox_wf T → outbox_wf (outbox_step T op).
Proof.
  intros Hwf. destruct op as [env event|env limit|env id|env id cause next]; simpl.
  - destruct (Enqueue_cases T env event) as [->|(r & Hn & -> & Hne & Hid & _)]; [done|].
    intros k x. rewrite lookup_insert_Some. intros [[<- <-]|[_ Hx]]; [|by apply Hwf].
    split_and!; [done|apply TrimSpace_idem|done].
  - destruct (ClaimBatch json_column T env limit) as [[events|e] T'] eqn:E.
    + destruct (ClaimBatch_ok _ _ _ _ _ _ E) as [_ ->]. simpl. apply mark_claimed_wf; [done|].
      eapply Forall_impl; [apply batch_rows_spec; done|]. by intros ? [].
    + unfold ClaimBatch in E. destruct (env_fault env 0); by simplify_eq.
  - destruct (Ack_table T env id) as [->| ->]; [done|]. by apply update_event_wf.
  - destruct (Retry_table T env id cause next) as [->|(st & n & ->)]; [done|]. by apply update_event_wf.
Qed.

Definition settles (k : string) (op : outbox_op) : Prop :=
  match op with OpAck _ id | OpRetry _ id _ _ => TrimSpace id = k | _ => False end.

(** A claimed row stays as it is until it is settled. *)
Lemma processing_step T op k r :
  outbox_wf T → T !! k = Some r → ob_Status r = outboxStatusProcessing → ¬ settles k op →
  outbox_step T op !! k = Some r.
Proof.
  intros Hwf Hr Hst Hns. destruct op as [env event|env limit|env id|env id cause next]; simpl in *.
  - destruct (Enqueue_cases T env event) as [->|(x & Hn & -> & _)]; [done|].
    rewrite lookup_insert_ne; [done|]. intros <-. congruence.
  - destruct (ClaimBatch json_column T env limit) as [[events|e] T'] eqn:E.
    + destruct (ClaimBatch_ok _ _ _ _ _ _ E) as [_ ->]. simpl.
      destruct (batch_rows_spec T (env_now env) limit Hwf) as [Hnd Hall].
      rewrite mark_claimed_lookup; [|done|eapply Forall_impl; [exact Hall|by intros ? []]].
      rewrite decide_False; [done|]. rewrite list_elem_of_fmap. intros (r' & -> & Hin).
      rewrite Forall_forall in Hall. destruct (Hall _ Hin) as [Hr' Hd]. rewrite Hr in Hr'. injection Hr' as <-.
      unfold ob_due in Hd. by rewrite Hst in Hd.
    + unfold ClaimBatch in E. destruct (env_fault env 0); by simplify_eq.
  - destruct (Ack_table T env id) as [->| ->]; [done|]. by rewrite update_event_lookup, decide_False.
  - destruct (Retry_table T env id cause next) as [->|(st & n & ->)]; [done|]. by rewrite update_event_lookup, decide_False.
Qed.

Lemma processing_run T ops k r :
  outbox_wf T → T !! k = Some r → ob_Status r = outboxStatusProcessing → Forall (λ op, ¬ settles k op) ops →
  outbox_wf (outbox_run T ops) ∧ outbox_run T ops !! k = Some r.
Proof.
  intros Hwf Hr Hst Hops. revert T Hwf Hr. induction Hops as [|op ops Hop _ IH]; intros T Hwf Hr; [done|].
  apply IH; [by apply outbox_step_wf|by apply processing_step].
Qed.

(** The events of a batch are the claimable rows it marked. *)
Lemma batch_event T env limit events T' event :
  outbox_wf T → ClaimBatch json_column T env limit = (Ok events, T') → event ∈ events →
  ∃ r, T !! ev_ID event = Some r ∧ ob_due (env_now env) r = true ∧
    T' !! ev_ID event = Some (ob_claimed (env_now env) r) ∧
    event = outboxRecordToEvent json_column (ob_claimed (env_now env) r).
Proof.
  intros Hwf Hc Hin. destruct (ClaimBatch_ok _ _ _ _ _ _ Hc) as [Hp ->].
  destruct (batch_rows_spec T (env_now env) limit Hwf) as [Hnd Hall].
  rewrite Hp in Hin. apply list_elem_of_fmap in Hin as (r & -> & Hin). rewrite Forall_forall in Hall.
  destruct (Hall _ Hin) as [Hr Hd]. exists r. simpl. split_and!; auto.
  rewrite mark_claimed_lookup; [|done|apply Forall_forall; intros ? Hx; by apply Hall].
  rewrite decide_True by (apply list_elem_of_fmap; eauto). by rewrite Hr.
Qed.

(** C18: an event is handed out to one dispatcher at a time, and to none once its settlement is
    lost.  After a batch that contains an event, and any number of store calls that neither
    acknowledge nor retry that event, no further batch contains it: however long ago the claim
    was made, a claimed event is never handed out again until it is settled. *)
Theorem outbox_exclusive T env limit events T' event ops env2 limit2 events2 T2 :
  outbox_wf T → ClaimBatch json_column T env limit = (Ok events, T') → event ∈ events →
  Forall (λ op, ¬ settles (ev_ID event) op) ops →
  ClaimBatch json_column (outbox_run T' ops) env2 limit2 = (Ok events2, T2) →
  Forall (λ event2, ev_ID event2 ≠ ev_ID event) events2.
Proof.
  intros Hwf Hc Hin Hops Hc2. destruct (batch_event _ _ _ _ _ _ Hwf Hc Hin) as (r & _ & _ & Hr & _).
  assert (Hwf' : outbox_wf T').
  { replace T' with (outbox_step T (OpClaimBatch env limit)) by (simpl; by rewrite Hc). by apply outbox_step_wf. }
  destruct (processing_run T' ops (ev_ID event) _ Hwf' Hr eq_refl Hops) as [Hwf2 Hr2].
  apply Forall_forall. intros event2 Hin2 Heq.
  destruct (batch_event _ _ _ _ _ _ Hwf2 Hc2 Hin2) as (r2 & Hr2' & Hd & _). rewrite Heq, Hr2 in Hr2'.
  by injection Hr2' as <-.
Qed.
End outbox_runs.

(** ** Dispatching a batch *)

Section dispatching.
Context {SO : SqlOrder}.
Variable json_column : gmap string value → gmap string value.
Variable oor : Z.
Abbreviation to_event := (outboxRecordToEvent json_column).
Implicit Types (T : outbox_table) (r : lifecycleOutboxRecord) (cfg : OutboxDispatcherConfig).

Definition config_ok cfg : Prop :=
  (0 < oc_BatchSize cfg ∧ 0 < oc_MaxAttempts cfg ∧ 0 < oc_InitialBackoff cfg ∧ 0 < oc_MaxBackoff cfg)%Z.

Lemma NewOutboxDispatcher_ok cfg : config_ok (NewOutboxDispatcher cfg).
Proof.
  unfold config_ok, NewOutboxDispatcher, DefaultOutboxDispatcherConfig, Second, Minute. simpl.
  repeat (match goal with |- context [(?a <=? 0)%Z] => destruct (Z.leb_spec a 0) end); simpl; lia.
Qed.

Definition retry_delay cfg (n : Z) : Duration := nextBackoffDelay oor (oc_InitialBackoff cfg) (oc_MaxBackoff cfg) n.

Lemma retry_delay_nonneg cfg n : config_ok cfg → (0 ≤ retry_delay cfg n)%Z.
Proof.
  intros (_ & _ & _ & Hm). unfold retry_delay, nextBackoffDelay. cbv zeta.
  destruct (Z.ltb_spec (scaled_duration oor (round53 (oc_InitialBackoff cfg)) ((if (n <? 1)%Z then 1 else n) - 1)) 0); [lia|].
  destruct (Z.ltb_spec (oc_MaxBackoff cfg) (scaled_duration oor (round53 (oc_InitialBackoff cfg)) ((if (n <? 1)%Z then 1 else n) - 1))); lia.
Qed.

(** The row the dispatch of a claimed row leaves when the store answers. *)
Definition dispatched cfg (registry : option (list (option (LifecycleEvent → outcome string unit)))) (ee : EventEnv) r
    : lifecycleOutboxRecord :=
  let now := env_now (ee_store ee) in
  match dispatchOne registry (to_event r) with
  | Ok _ => ob_with r outboxStatusDelivered (ob_Attempts r) None "" now
  | Fail err =>
    if (oc_MaxAttempts cfg <=? ob_Attempts r + 1)%Z
    then ob_with r outboxStatusFailed (ob_Attempts r + 1) None (TrimSpace (ee_text ee err)) now
    else ob_with r outboxStatusPending (ob_Attempts r + 1)
           (Some (ee_now ee + retry_delay cfg (ob_Attempts r + 1))%Z) (TrimSpace (ee_text ee err)) now
  end.

Definition answered (ee : EventEnv) : Prop := (0 < ee_now ee)%Z ∧ ∀ n, env_fault (ee_store ee) n = None.

Definition settled_count (s : DispatchStats) : Z := (ds_Delivered s + ds_Retried s + ds_Failed s)%Z.

Lemma event_attempts r : (0 ≤ ob_Attempts r)%Z → nextAttemptIndex oor (to_event r) = ob_Attempts r.
Proof.
  intros Ha. unfold nextAttemptIndex, outboxRecordToEvent. simpl. rewrite lookup_insert_eq.
  destruct (Z.ltb_spec (ob_Attempts r) 0); [lia|done].
Qed.

Lemma dispatch_event_table cfg registry ee r st :
  config_ok cfg → answered ee → outbox_wf (dst_table st) →
  dst_table st !! ob_EventID r = Some r → (0 ≤ ob_Attempts r)%Z →
  let st' := dispatch_event oor cfg registry ee (to_event r) st in
  dst_table st' = <[ob_EventID r := dispatched cfg registry ee r]> (dst_table st) ∧
  settled_count (dst_stats st') = (settled_count (dst_stats st) + 1)%Z ∧
  ds_Claimed (dst_stats st') = ds_Claimed (dst_stats st).
Proof.
  intros Hcfg [Hnow Hf] Hwf Hr Ha. destruct (Hwf _ _ Hr) as (_ & Htrim & Hne).
  pose proof (retry_delay_nonneg cfg (ob_Attempts r + 1) Hcfg) as Hdelay.
  assert (Hid : TrimSpace (TrimSpace (ev_ID (to_event r))) = ob_EventID r) by (simpl; by rewrite !Htrim).
  unfold dispatch_event, dispatched, retryEvent. rewrite (event_attempts r Ha).
  fold (retry_delay cfg (ob_Attempts r + 1)).
  destruct (dispatchOne registry (to_event r)) as [u|err].
  - unfold Outbox_Ack. rewrite Hid. destruct (String.eqb_spec (ob_EventID r) ""); [done|].
    rewrite Hf. simpl. unfold update_event. rewrite Hr. unfold settled_count. simpl. split_and!; [done|lia|done].
  - destruct (Z.leb_spec (oc_MaxAttempts cfg) (ob_Attempts r + 1)); unfold Outbox_Retry; rewrite Hid;
      (destruct (String.eqb_spec (ob_EventID r) ""); [done|]); rewrite Hf; cbv zeta; unfold update_event; rewrite Hr;
      unfold settled_count; simpl.
    + split_and!; [done|lia|done].
    + assert (IsZero (addTime (ee_now ee) (retry_delay cfg (ob_Attempts r + 1))) = false) as ->
        by (apply IsZero_false; unfold addTime; lia).
      split_and!; [done|lia|done].
Qed.

Lemma dispatched_id cfg registry ee r : ob_EventID (dispatched cfg registry ee r) = ob_EventID r.
Proof. unfold dispatched. destruct (dispatchOne _ _); [done|]. by destruct (_ <=? _)%Z. Qed.

Lemma dispatch_loop_table cfg registry envs i rows st :
  config_ok cfg → (∀ i, answered (envs i)) → outbox_wf (dst_table st) → NoDup (ob_EventID <$> rows) →
  Forall (λ r, dst_table st !! ob_EventID r = Some r ∧ (0 ≤ ob_Attempts r)%Z) rows →
  let st' := dispatch_loop oor cfg registry envs i (to_event <$> rows) st in
  outbox_wf (dst_table st') ∧
  Forall (λ r, ∃ j, dst_table st' !! ob_EventID r = Some (dispatched cfg registry (envs j) r)) rows ∧
  (∀ k, k ∉ ob_EventID <$> rows → dst_table st' !! k = dst_table st !! k) ∧
  settled_count (dst_stats st') = (settled_count (dst_stats st) + Z.of_nat (length rows))%Z ∧
  ds_Claimed (dst_stats st') = ds_Claimed (dst_stats st).
Proof.
  intros Hcfg Henvs. revert i st. induction rows as [|r rows IH]; intros i st Hwf Hnd Hrows.
  { simpl. split_and!; [done|constructor|done|lia|done]. }
  apply NoDup_cons in Hnd as [Hn Hnd]. apply Forall_cons in Hrows as [[Hr Ha] Hrows].
  rewrite fmap_cons. cbn [dispatch_loop].
  destruct (dispatch_event_table cfg registry (envs i) r st Hcfg (Henvs i) Hwf Hr Ha) as (HT & Hc & Hcl).
  set (st1 := dispatch_event _ _ _ _ _ _) in *.
  assert (Hwf1 : outbox_wf (dst_table st1)).
  { rewrite HT. apply (outbox_wf_insert _ _ r); [done|done|apply dispatched_id]. }
  destruct (IH (S i) st1 Hwf1 Hnd) as (Hwf' & Hd & Hother & Hc' & Hcl').
  { eapply Forall_impl; [|intros x Hx; exact Hx]. apply Forall_forall. intros x Hx.
    rewrite Forall_forall in Hrows. destruct (Hrows x Hx) as [Hx1 Hx2]. split; [|done]. rewrite HT, lookup_insert_ne; [done|].
    intros Heq. apply Hn. rewrite Heq. by apply list_elem_of_fmap_2. }
  split_and!.
  - done.
  - constructor; [|done]. exists i. rewrite Hother by done. rewrite HT. apply lookup_insert_eq.
  - intros k Hk. rewrite fmap_cons in Hk. rewrite Hother by set_solver. rewrite HT, lookup_insert_ne by set_solver. done.
  - simpl length. lia.
  - congruence.
Qed.

Definition attempts_ok T : Prop := ∀ k r, T !! k = Some r → (0 ≤ ob_Attempts r)%Z.

Definition batch_limit cfg (batchSize : Z) : Z := if (batchSize <=? 0)%Z then oc_BatchSize cfg else batchSize.

Lemma DispatchPending_table cfg registry T env envs batchSize :
  config_ok cfg → (∀ i, answered (envs i)) → env_fault env 0 = None → outbox_wf T → attempts_ok T →
  let now := env_now env in
  let rows := batch_rows T now (batch_limit cfg batchSize) in
  let st := DispatchPending json_column oor cfg registry T env envs batchSize in
  outbox_wf (dst_table st) ∧
  (∀ r, r ∈ rows → ∃ j, dst_table st !! ob_EventID r = Some (dispatched cfg registry (envs j) (ob_claimed now r))) ∧
  (∀ k, k ∉ ob_EventID <$> rows → dst_table st !! k = T !! k) ∧
  settled_count (dst_stats st) = Z.of_nat (length rows) ∧
  ds_Claimed (dst_stats st) = Z.of_nat (length rows).
Proof.
  intros Hcfg Henvs Hf Hwf Hat now rows st. unfold st, DispatchPending. fold (batch_limit cfg batchSize).
  unfold ClaimBatch. rewrite Hf. fold now. fold (batch_rows T now (batch_limit cfg batchSize)). fold rows.
  destruct (batch_rows_spec T now (batch_limit cfg batchSize) Hwf) as [Hnd Hall]. fold rows in Hnd, Hall.
  assert (Hall1 : Forall (λ r, T !! ob_EventID r = Some r) rows) by (eapply Forall_impl; [exact Hall|by intros ? []]).
  set (claimed := returning (ob_claimed now <$> rows)).
  assert (Hperm : claimed ≡ₚ ob_claimed now <$> rows) by apply returning_perm.
  assert (Hids : ob_EventID <$> claimed ≡ₚ ob_EventID <$> rows).
  { by rewrite Hperm, <- list_fmap_compose. }
  set (st0 := mkDispatchState _ _ _).
  destruct (dispatch_loop_table cfg registry envs 0 claimed st0 Hcfg Henvs) as (Hwf' & Hd & Hother & Hc & Hcl).
  - by apply mark_claimed_wf.
  - by rewrite Hids.
  - apply Forall_forall. intros x. rewrite Hperm. intros (r & -> & Hin)%list_elem_of_fmap.
    rewrite Forall_forall in Hall1. pose proof (Hall1 _ Hin) as Hr. simpl. split; [|by eapply Hat].
    rewrite mark_claimed_lookup; [|done|by apply Forall_forall].
    rewrite decide_True by (by apply list_elem_of_fmap_2). by rewrite Hr.
  - split_and!; [done| | | |].
    + intros r Hin. rewrite Forall_forall in Hd. apply (Hd (ob_claimed now r)). rewrite Hperm. by apply list_elem_of_fmap_2.
    + intros k Hk. rewrite Hother by (by rewrite Hids). simpl.
      rewrite mark_claimed_lookup by done. by rewrite decide_False.
    + rewrite Hc. unfold settled_count. simpl. by rewrite Hperm, length_fmap.
    + rewrite Hcl. simpl. by rewrite length_fmap, Hperm, length_fmap.
Qed.

(** What a dispatch cycle does when the store answers.  At most the batch size of due
    pending events is claimed, oldest first; every claimed event is counted once as delivered, retried or
    failed; its row ends delivered when every projector accepted it, pending with one attempt
    more and the back-off delay of that attempt otherwise, or failed when that was the last
    attempt allowed; no other row changes. *)
Theorem outbox_dispatch_cycle cfg registry T env envs batchSize :
  outbox_wf T → attempts_ok T → (∀ i, answered (envs i)) → env_fault env 0 = None →
  let cfg := NewOutboxDispatcher cfg in
  let now := env_now env in
  let rows := batch_rows T now (batch_limit cfg batchSize) in
  let st := DispatchPending json_column oor cfg registry T env envs batchSize in
  (Z.of_nat (length rows) ≤ batch_limit cfg batchSize)%Z ∧
  (∀ r r', r ∈ rows → T !! ob_EventID r' = Some r' → ob_due now r' = true → r' ∉ rows →
     (ob_OccurredAt r ≤ ob_OccurredAt r')%Z) ∧
  (∀ r, r ∈ rows → T !! ob_EventID r = Some r ∧ ob_due now r = true ∧
     ∃ j, dst_table st !! ob_EventID r = Some (dispatched cfg registry (envs j) (ob_claimed now r))) ∧
  (∀ k, k ∉ ob_EventID <$> rows → dst_table st !! k = T !! k) ∧
  ds_Claimed (dst_stats st) = Z.of_nat (length rows) ∧
  ds_Claimed (dst_stats st) = (ds_Delivered (dst_stats st) + ds_Retried (dst_stats st) + ds_Failed (dst_stats st))%Z.
Proof.
  intros Hwf Hat Henvs Hf cfg' now rows st.
  pose proof (NewOutboxDispatcher_ok cfg) as Hcfg. fold cfg' in Hcfg.
  destruct (DispatchPending_table cfg' registry T env envs batchSize Hcfg Henvs Hf Hwf Hat) as (_ & Hd & Ho & Hc & Hcl).
  fold now rows st in Hd, Ho, Hc, Hcl.
  destruct (batch_rows_spec T now (batch_limit cfg' batchSize) Hwf) as [Hnd Hall]. fold rows in Hnd, Hall.
  assert (Hlim : (0 < batch_limit cfg' batchSize)%Z).
  { unfold batch_limit. destruct Hcfg as (? & _). destruct (Z.leb_spec batchSize 0); lia. }
  split_and!; [| | |done|done|unfold settled_count in Hc; lia].
  - unfold rows, batch_rows. rewrite length_take. destruct (Z.leb_spec (batch_limit cfg' batchSize) 0); lia.
  - intros r r' Hr Hr' Hd' Hnot. unfold rows, batch_rows in Hr, Hnot.
    set (n := Z.to_nat _) in *. set (l := order_by_age (claim_candidates T now)) in *.
    assert (Hs : StronglySorted older l).
    { apply Sorted_StronglySorted; [intros ? ? ?; unfold older; lia|apply order_by_age_sorted]. }
    rewrite <- (take_drop n l) in Hs.
    assert (Hin : r' ∈ drop n l).
    { assert (Hl : r' ∈ l) by (unfold l; rewrite order_by_age_perm; by apply elem_of_candidates).
      rewrite <- (take_drop n l) in Hl. apply elem_of_app in Hl as [|]; done. }
    by apply (StronglySorted_app_1_elem_of older (take n l) (drop n l)).
  - intros r Hr. rewrite Forall_forall in Hall. destruct (Hall _ Hr). eauto.
Qed.

(** ** The life of an event *)

Inductive outbox_call :=
| CallEnqueue (env : CallEnv) (event : LifecycleEvent)
| CallDispatch (registry : option (list (option (LifecycleEvent → outcome string unit)))) (env : CallEnv)
    (envs : nat → EventEnv) (batchSize : Z).

Definition call_table cfg T (c : outbox_call) : outbox_table :=
  match c with
  | CallEnqueue env event => (Outbox_Enqueue T env event).2
  | CallDispatch registry env envs n => dst_table (DispatchPending json_column oor cfg registry T env envs n)
  end.

(** Is the event handed to the projectors by this call? *)
Definition handed_out cfg T (k : string) (c : outbox_call) : bool :=
  match c with
  | CallEnqueue _ _ => false
  | CallDispatch _ env _ n =>
    match (ClaimBatch json_column T env (batch_limit cfg n)).1 with
    | Ok events => bool_decide (k ∈ ev_ID <$> events)
    | Fail _ => false
    end
  end.

Fixpoint times_dispatched cfg T (k : string) (calls : list outbox_call) : Z :=
  match calls with
  | [] => 0%Z
  | c :: calls' => ((if handed_out cfg T k c then 1 else 0) + times_dispatched cfg (call_table cfg T c) k calls')%Z
  end.

Definition call_answered (c : outbox_call) : Prop :=
  match c with CallEnqueue _ _ => True | CallDispatch _ _ envs _ => ∀ i, answered (envs i) end.

(** Between calls an event is pending with as many attempts as it was handed out, or settled. *)
Definition event_tally cfg T (k : string) (c : Z) : Prop :=
  (0 ≤ c ≤ oc_MaxAttempts cfg)%Z ∧
  match T !! k with
  | None => c = 0%Z
  | Some r => (ob_Status r = outboxStatusPending → ob_Attempts r = c ∧ c < oc_MaxAttempts cfg)%Z
  end.

Lemma dispatched_attempts cfg registry ee r : (0 ≤ ob_Attempts r)%Z → (0 ≤ ob_Attempts (dispatched cfg registry ee r))%Z.
Proof. intros. unfold dispatched. destruct (dispatchOne _ _); [done|]. destruct (_ <=? _)%Z; simpl; lia. Qed.

Lemma handed_out_rows cfg T k registry env envs n :
  env_fault env 0 = None →
  handed_out cfg T k (CallDispatch registry env envs n)
    = bool_decide (k ∈ ob_EventID <$> batch_rows T (env_now env) (batch_limit cfg n)).
Proof.
  intros Hf. simpl. destruct (ClaimBatch json_column T env (batch_limit cfg n)) as [[events|e] T'] eqn:E.
  - destruct (ClaimBatch_ok _ _ _ _ _ _ E) as [Hp _]. simpl. apply bool_decide_ext. rewrite Hp.
    by rewrite <- !list_fmap_compose.
  - unfold ClaimBatch in E. by rewrite Hf in E.
Qed.

Lemma call_tally cfg T k c call :
  config_ok cfg → outbox_wf T → attempts_ok T → call_answered call → event_tally cfg T k c →
  outbox_wf (call_table cfg T call) ∧ attempts_ok (call_table cfg T call) ∧
  event_tally cfg (call_table cfg T call) k (c + (if handed_out cfg T k call then 1 else 0)).
Proof.
  intros Hcfg Hwf Hat Hans Ht. destruct call as [env event|registry env envs n]; simpl call_table.
  - simpl handed_out. rewrite Z.add_0_r. split; [by apply (outbox_step_wf json_column T (OpEnqueue env event))|].
    destruct (Enqueue_cases T env event) as [->|(r & Hn & -> & _ & _ & Hst & Ha)]; [done|]. split.
    + intros k' x. rewrite lookup_insert_Some. intros [[<- <-]|[_ Hx]]; [lia|by eapply Hat].
    + destruct Ht as [Hc Ht]. split; [done|]. destruct (decide (TrimSpace (ev_ID event) = k)) as [<-|Hne].
      * rewrite lookup_insert_eq. rewrite Hn in Ht. subst c. destruct Hcfg as (_ & ? & _). intros _. lia.
      * by rewrite lookup_insert_ne.
  - destruct (env_fault env 0) as [err|] eqn:Hf.
    { unfold handed_out, DispatchPending, ClaimBatch. rewrite Hf. simpl. by rewrite Z.add_0_r. }
    destruct (DispatchPending_table cfg registry T env envs n Hcfg Hans Hf Hwf Hat) as (Hwf' & Hd & Ho & _ & _).
    rewrite handed_out_rows by done. set (st := DispatchPending _ _ _ _ _ _ _ _) in *.
    set (rows := batch_rows T (env_now env) (batch_limit cfg n)) in *.
    destruct (batch_rows_spec T (env_now env) (batch_limit cfg n) Hwf) as [_ Hall]. fold rows in Hall.
    rewrite Forall_forall in Hall.
    assert (Hcase : ∀ k', ((k' ∉ ob_EventID <$> rows) ∧ dst_table st !! k' = T !! k') ∨
      ((k' ∈ ob_EventID <$> rows) ∧ ∃ r j, T !! k' = Some r ∧ ob_Status r = outboxStatusPending ∧
        dst_table st !! k' = Some (dispatched cfg registry (envs j) (ob_claimed (env_now env) r)))).
    { intros k'. destruct (decide (k' ∈ ob_EventID <$> rows)) as [Hin|Hin]; [right|left; auto]. split; [done|].
      apply list_elem_of_fmap in Hin as (r & -> & Hin). destruct (Hall _ Hin) as [Hr Hdue].
      destruct (Hd r Hin) as [j Hj]. exists r, j. split_and!; auto.
      unfold ob_due in Hdue. apply andb_true_iff in Hdue as [Hs _]. by apply String.eqb_eq. }
    split; [done|]. split.
    + intros k' x Hx. destruct (Hcase k') as [[_ Heq]|(_ & r & j & Hr & _ & Heq)]; rewrite Heq in Hx.
      * by eapply Hat.
      * injection Hx as <-. apply dispatched_attempts. exact (Hat _ _ Hr).
    + destruct Ht as [Hc Ht]. destruct (Hcase k) as [[Hin Heq]|(Hin & r & j & Hr & Hs & Heq)].
      * rewrite bool_decide_false, Z.add_0_r by done. unfold event_tally. by rewrite Heq.
      * rewrite bool_decide_true by done. unfold event_tally. rewrite Heq. rewrite Hr in Ht.
        destruct (Ht Hs) as [Ha Hlt]. split; [lia|]. unfold dispatched.
        destruct (dispatchOne _ _); [done|]. simpl.
        destruct (Z.leb_spec (oc_MaxAttempts cfg) (ob_Attempts r + 1)); [done|]. simpl. lia.
Qed.

(** An event is handed to the projectors at most [MaxAttempts] times (5 by default) in its
    life.  Over every sequence of enqueues and dispatch cycles on an empty outbox, with
    whatever projectors at whatever times and whichever claiming queries the database refuses,
    provided the acknowledgements and retries are recorded. *)
Theorem outbox_attempts_bounded config k calls :
  Forall call_answered calls →
  (times_dispatched (NewOutboxDispatcher config) ∅ k calls ≤ oc_MaxAttempts (NewOutboxDispatcher config))%Z.
Proof.
  intros Hcalls. generalize (NewOutboxDispatcher config), (NewOutboxDispatcher_ok config). intros cfg Hcfg.
  assert (H : ∀ T c, outbox_wf T → attempts_ok T → event_tally cfg T k c →
    (c + times_dispatched cfg T k calls ≤ oc_MaxAttempts cfg)%Z).
  { induction Hcalls as [|call calls Hc _ IH]; intros T c Hwf Hat Ht; simpl.
    - destruct Ht as [? _]. lia.
    - destruct (call_tally cfg T k c call Hcfg Hwf Hat Hc Ht) as (Hwf' & Hat' & Ht').
      specialize (IH _ _ Hwf' Hat' Ht'). lia. }
  apply (H ∅ 0%Z).
  - intros k' r. by rewrite lookup_empty.
  - intros k' r. by rewrite lookup_empty.
  - split; [destruct Hcfg; lia|]. by rewrite lookup_empty.
Qed.

(** What goes into the outbox comes out, except for the source.  An event that is enqueued is
    part of the next batch that is large enough, with its identifiers trimmed, its
    payload and metadata as the JSON columns return them plus the attempt count, and with an empty
    [Source], whatever source it was enqueued with. *)
Theorem outbox_roundtrip T env event T1 env2 limit events T2 :
  outbox_wf T → Outbox_Enqueue T env event = (Ok tt, T1) →
  ClaimBatch json_column T1 env2 limit = (Ok events, T2) → (Z.of_nat (size T1) ≤ limit)%Z →
  mkLifecycleEvent (TrimSpace (ev_ID event)) (TrimSpace (ev_Name event)) (TrimSpace (ev_ProviderID event))
    (TrimSpace (ev_ScopeType event)) (TrimSpace (ev_ScopeID event)) (TrimSpace (ev_ConnectionID event)) ""
    (if IsZero (ev_OccurredAt event) then env_now env else ev_OccurredAt event)
    (json_column (ev_Payload event))
    (<[MetadataKeyOutboxAttempts := VInt IntK 0]> (json_column (ev_Metadata event))) ∈ events.
Proof.
  intros Hwf He Hc Hlim.
  assert (Hwf1 : outbox_wf T1).
  { replace T1 with (outbox_step json_column T (OpEnqueue env event)) by (simpl; by rewrite He). by apply outbox_step_wf. }
  destruct (ClaimBatch_ok _ _ _ _ _ _ Hc) as [Hp _]. rewrite Hp. apply list_elem_of_fmap.
  revert He. unfold Outbox_Enqueue. destruct (blank (ev_ID event)); [done|].
  destruct (blank (ev_Name event)); [done|]. destruct (blank (ev_ProviderID event)); [done|].
  destruct (_ || _); [done|]. cbv zeta. destruct (env_fault env 0); [done|]. simpl ob_EventID.
  destruct (T !! TrimSpace (ev_ID event)) eqn:E; [done|]. set (record := mkOutboxRow _ _ _ _ _ _ _ _ _ _ _ _ _ _ _ _).
  intros [= HT1]. exists record. split.
  - unfold outboxRecordToEvent, record. simpl. f_equal.
    destruct (String.eqb_spec (TrimSpace (ev_ConnectionID event)) "") as [->|]; [done|by rewrite TrimSpace_idem].
  - unfold batch_rows. rewrite take_ge.
    + rewrite order_by_age_perm. apply elem_of_candidates; [done|]. split; [|done]. rewrite <- HT1. apply lookup_insert_eq.
    + assert (Hlen : length (claim_candidates T1 (env_now env2)) ≤ size T1).
      { unfold claim_candidates. etrans; [apply length_filter|]. by rewrite length_fmap, length_map_to_list. }
      rewrite order_by_age_perm. assert (0 < size T1) by (rewrite <- HT1; rewrite map_size_insert_None by done; lia).
      destruct (Z.leb_spec limit 0); lia.
Qed.
End dispatching.

(** ** Concrete runs *)

Section demo.
#[local] Existing Instance stable_order.
Definition demo_event (id : string) : LifecycleEvent :=
  mkLifecycleEvent id "connection.created" "gh" "org" "1" "" "installer" 7 ∅ ∅.
Definition enqueued : outbox_table := (Outbox_Enqueue ∅ (quiet 10 "u1") (demo_event " e1")).2.
Definition calm (t : Time) : nat → EventEnv := λ _, mkEventEnv (quiet t "") t (λ _, "boom").
Definition failing : option (list (option (LifecycleEvent → outcome string unit))) :=
  Some [None; Some (λ _, Fail "boom")].
Definition as_is : gmap string value → gmap string value := λ m, m.

Lemma enqueued_wf : outbox_wf enqueued.
Proof. apply (outbox_step_wf as_is ∅ (OpEnqueue (quiet 10 "u1") (demo_event " e1"))). by intros k r; rewrite lookup_empty. Defined.

Lemma enqueued_attempts : attempts_ok enqueued.
Proof.
  intros k r. unfold enqueued.
  destruct (Enqueue_cases ∅ (quiet 10 "u1") (demo_event " e1")) as [->|(x & _ & -> & _ & _ & _ & Ha)];
    [by rewrite lookup_empty|].
  rewrite lookup_insert_Some, lookup_empty. intros [[_ <-]|[_ ?]]; [lia|done].
Defined.

Definition batch_1 := ClaimBatch as_is enqueued (quiet 20 "") 10.

Lemma outbox_exclusive_witness :
  Forall (λ ev2, ev_ID ev2 ≠ "e1")
    match (ClaimBatch as_is (outbox_run as_is batch_1.2 [OpAck (quiet 30 "") "e2"]) (quiet 1000000 "") 10).1 with
    | Ok events => events | Fail _ => [] end.
Proof.
  apply (outbox_exclusive as_is enqueued (quiet 20 "") 10
    match batch_1.1 with Ok events => events | Fail _ => [] end batch_1.2
    (outboxRecordToEvent as_is (ob_claimed 20 (mkOutboxRow "u1" "e1" "connection.created" "gh" "org" "1" None ∅ ∅ "pending" 0 None "" 7 10 10)))
    [OpAck (quiet 30 "") "e2"] (quiet 1000000 "") 10 _
    (ClaimBatch as_is (outbox_run as_is batch_1.2 [OpAck (quiet 30 "") "e2"]) (quiet 1000000 "") 10).2).
  - exact enqueued_wf.
  - vm_compute. reflexivity.
  - vm_compute. apply list_elem_of_here.
  - repeat constructor. vm_compute. congruence.
  - vm_compute. reflexivity.
Defined.

Lemma outbox_dispatch_cycle_witness :
  let cfg := NewOutboxDispatcher DefaultOutboxDispatcherConfig in
  let st := DispatchPending as_is 0 cfg failing enqueued (quiet 20 "") (calm 30) 0 in
  ds_Claimed (dst_stats st) = (ds_Delivered (dst_stats st) + ds_Retried (dst_stats st) + ds_Failed (dst_stats st))%Z.
Proof.
  apply (outbox_dispatch_cycle as_is 0 DefaultOutboxDispatcherConfig failing enqueued (quiet 20 "") (calm 30) 0).
  - exact enqueued_wf.
  - exact enqueued_attempts.
  - intros i. split; [vm_compute|]; reflexivity.
  - reflexivity.
Defined.

Lemma outbox_attempts_bounded_witness :
  (times_dispatched as_is 0 (NewOutboxDispatcher (mkOutboxConfig 0 2 0 0)) ∅ "e1"
     [CallEnqueue (quiet 10 "u1") (demo_event "e1"); CallDispatch failing (quiet 20 "") (calm 20) 0;
      CallDispatch failing (quiet (90 * Second) "") (calm (90 * Second)) 0;
      CallDispatch failing (quiet (900 * Second) "") (calm (900 * Second)) 0] ≤ 2)%Z.
Proof.
  apply (outbox_attempts_bounded as_is 0 (mkOutboxConfig 0 2 0 0) "e1").
  repeat (constructor; [first [exact I | intros i; split; [vm_compute|]; reflexivity]|]). constructor.
Defined.

Lemma outbox_roundtrip_witness :
  mkLifecycleEvent "e1" "connection.created" "gh" "org" "1" "" "" 7 ∅ {[ MetadataKeyOutboxAttempts := VInt IntK 0 ]}
  ∈ match batch_1.1 with Ok events => events | Fail _ => [] end.
Proof.
  apply (outbox_roundtrip as_is ∅ (quiet 10 "u1") (demo_event " e1") enqueued (quiet 20 "") 10 _ batch_1.2).
  - intros k r. by rewrite lookup_empty.
  - vm_compute. reflexivity.
  - vm_compute. reflexivity.
  - vm_compute. congruence.
Defined.
End demo.
