(* ===== verification/Grants.v ===== *)
(** * Grants (src/core/grants.go, src/core/permission_evaluator.go, src/store/sql/event_stores.go)

    A grant set is a Go map with empty values, iterated over in any order and then sorted.  The
    service reads the latest snapshot of a connection, computes the delta to the newly granted set, and
    commits a new snapshot with an event in one transaction.  Reading and committing are separate steps, so
    concurrent reconciliations interleave. *)

From S2P Require Import Prelude GoStrings GoValues Domain Contracts.
From Stdlib Require Import ZArith Lia.
From stdpp Require Import base decidable list gmap strings sorting.

Local Open Scope string_scope.
Local Open Scope nat_scope.
Local Open Scope list_scope.

Definition GrantEventExpanded := "expanded".
Definition GrantEventDowngraded := "downgraded".
Definition GrantEventRevoked := "revoked".
Definition GrantEventReconsentRequested := "reconsent_requested".
Definition GrantEventReconsentCompleted := "reconsent_completed".

Record GrantDelta := mkDelta { gd_EventType : string; gd_Added : list string; gd_Removed : list string }.

Abbreviation grant_set := (gmap string unit).

Definition add_grant (value : string) (set : grant_set) : grant_set :=
  let trimmed := lowerTrim value in if String.eqb trimmed "" then set else <[trimmed := tt]> set.

Definition toGrantSet (values : list string) : grant_set := foldl (λ set v, add_grant v set) ∅ values.

Section grant_sets.
Context {MR : MapRange}.

(** [for grant := range set { if _, ok := other[grant]; !ok { append } }] *)
Definition grants_not_in (set other : grant_set) : list string :=
  filter (λ g, other !! g = None) (map_range set).*1.

Definition ComputeGrantDelta (previous current : list string) : GrantDelta :=
  let prevSet := toGrantSet previous in
  let currSet := toGrantSet current in
  let added := sortStrings (grants_not_in currSet prevSet) in
  let removed := sortStrings (grants_not_in prevSet currSet) in
  let eventType :=
    if (0 <? length removed) && (size currSet =? 0) then GrantEventRevoked
    else if 0 <? length removed then GrantEventDowngraded
    else if 0 <? length added then GrantEventExpanded
    else "" in
  mkDelta eventType added removed.

Definition normalizeGrants (values : list string) : list string :=
  sortStrings (map_range (toGrantSet values)).*1.

Definition missingGrants (required : list string) (granted : grant_set) : list string :=
  sortStrings (filter (λ g, granted !! g = None) (normalizeGrants required)).

Definition missingRequiredProviderGrants (capabilities : list CapabilityDescriptor) (granted : list string) : list string :=
  let requiredSet := foldl (λ set d, foldl (λ set g, <[g := tt]> set) set (normalizeGrants (cap_RequiredGrants d))) ∅ capabilities in
  let grantedSet := toGrantSet granted in
  sortStrings (grants_not_in requiredSet grantedSet).
End grant_sets.
#[global] Arguments normalizeGrants {MR} : simpl never.

(** ** The SQL grant store *)

(** src/store/sql/redaction.go *)
Definition sqlSensitiveTokens : list string :=
  ["password"; "secret"; "token"; "authorization"; "api_key"; "apikey"; "access_key"; "refresh"; "credential"; "signature"].
Definition isSensitiveKey (key : string) : bool :=
  let key := ToLower (TrimSpace key) in
  if String.eqb key "" then false else existsb (λ token, Contains key token) sqlSensitiveTokens.
Fixpoint redactValue (v : value) : value :=
  match v with
  | VMap m => VMap (map_imap (λ k x, Some (if isSensitiveKey k then VString "[REDACTED]" else redactValue x)) m)
  | VList l => VList (redactValue <$> l)
  | _ => v
  end.
Definition redactMap (m : gmap string value) : gmap string value :=
  map_imap (λ k x, Some (if isSensitiveKey k then VString "[REDACTED]" else redactValue x)) m.
Definition RedactMetadata (m : gmap string value) : gmap string value := redactMap m.

(** The columns of a connection the grant store copies, of the rows not (softly) deleted. *)
Record connectionRow := mkConnRow {
  cr_ID : string; cr_ProviderID : string; cr_ScopeType : string; cr_ScopeID : string }.

(** Rows without their primary key, which the repository assigns and nothing reads. *)
Record grantSnapshotRecord := mkSnapshotRow {
  gsr_ConnectionID : string; gsr_ProviderID : string; gsr_ScopeType : string; gsr_ScopeID : string;
  gsr_Version : Z; gsr_RequestedGrants : list string; gsr_GrantedGrants : list string;
  gsr_Metadata : gmap string value; gsr_CapturedAt : Time; gsr_CreatedAt : Time; gsr_UpdatedAt : Time }.

Record grantEventRecord := mkGrantEventRow {
  ger_ConnectionID : string; ger_ProviderID : string; ger_ScopeType : string; ger_ScopeID : string;
  ger_EventType : string; ger_RequestedGrants : list string; ger_GrantedGrants : list string;
  ger_AddedGrants : list string; ger_RemovedGrants : list string;
  ger_Metadata : gmap string value; ger_CreatedAt : Time }.

(** Snapshots are unique by connection and version; events are kept in the order of their commits. *)
Record GrantDB := mkGrantDB {
  gdb_connections : gmap string connectionRow;
  gdb_snapshots : gmap (string * Z) grantSnapshotRecord;
  gdb_events : list grantEventRecord }.

Inductive grant_error :=
| GErrConnectionRequired | GErrNoRows | GErrVersion | GErrDuplicateVersion | GErrEventType
| GErrDatabase (cause : string).

Section grant_store.
(** [Time.Format(time.RFC3339Nano)] *)
Variable format_time : Time → string.
(** A JSON object as it is read back from its column. *)
Variable json_column : gmap string value → gmap string value.

Definition loadConnectionTx (db : GrantDB) (connectionID : string) : outcome grant_error connectionRow :=
  let id := TrimSpace connectionID in
  if String.eqb id "" then Fail GErrConnectionRequired
  else match gdb_connections db !! id with Some c => Ok c | None => Fail GErrNoRows end.

Definition saveSnapshotTx (db : GrantDB) (now : Time) (connection : connectionRow) (input : SaveGrantSnapshotInput)
    : outcome grant_error GrantDB :=
  let version := sgs_Version input in
  if (version <=? 0)%Z then Fail GErrVersion
  else
    let capturedAt := if IsZero (sgs_CapturedAt input) then now else sgs_CapturedAt input in
    let metadata := <["captured_at" := VString (format_time capturedAt)]>
      (<["snapshot_version" := VInt IntK version]> (RedactMetadata (sgs_Metadata input))) in
    let record := mkSnapshotRow (cr_ID connection) (cr_ProviderID connection) (cr_ScopeType connection)
      (cr_ScopeID connection) version (sgs_Requested input) (sgs_Granted input) metadata capturedAt now now in
    match gdb_snapshots db !! (cr_ID connection, version) with
    | Some _ => Fail GErrDuplicateVersion
    | None => Ok (mkGrantDB (gdb_connections db) (<[(cr_ID connection, version) := record]> (gdb_snapshots db)) (gdb_events db))
    end.

Definition appendEventTx (db : GrantDB) (now : Time) (connection : connectionRow) (input : AppendGrantEventInput)
    : outcome grant_error GrantDB :=
  let eventType := TrimSpace (ge_EventType input) in
  if String.eqb eventType "" then Fail GErrEventType
  else
    let occurredAt := if IsZero (ge_OccurredAt input) then now else ge_OccurredAt input in
    let record := mkGrantEventRow (cr_ID connection) (cr_ProviderID connection) (cr_ScopeType connection)
      (cr_ScopeID connection) eventType [] [] (ge_Added input) (ge_Removed input) (RedactMetadata (ge_Metadata input)) occurredAt in
    Ok (mkGrantDB (gdb_connections db) (gdb_snapshots db) (gdb_events db ++ [record])).

(** [RunInTx]: a failed transaction, or one the database refuses, leaves the database as it was. *)
Definition RunInTx (db : GrantDB) (env : CallEnv) (body : GrantDB → outcome grant_error GrantDB)
    : outcome grant_error unit * GrantDB :=
  match env_fault env 0 with
  | Some err => (Fail (GErrDatabase err), db)
  | None => match body db with Ok db' => (Ok tt, db') | Fail e => (Fail e, db) end
  end.

Definition Grant_SaveSnapshot (db : GrantDB) (env : CallEnv) (input : SaveGrantSnapshotInput)
    : outcome grant_error unit * GrantDB :=
  RunInTx db env (λ db, let* connection := loadConnectionTx db (sgs_ConnectionID input) in
                        saveSnapshotTx db (env_now env) connection input)%go.

Definition Grant_AppendEvent (db : GrantDB) (env : CallEnv) (input : AppendGrantEventInput)
    : outcome grant_error unit * GrantDB :=
  RunInTx db env (λ db, let* connection := loadConnectionTx db (ge_ConnectionID input) in
                        appendEventTx db (env_now env) connection input)%go.

Definition Grant_SaveSnapshotAndEvent (db : GrantDB) (env : CallEnv) (snapshot : SaveGrantSnapshotInput)
    (event : option AppendGrantEventInput) : outcome grant_error unit * GrantDB :=
  RunInTx db env (λ db,
    let* connection := loadConnectionTx db (sgs_ConnectionID snapshot) in
    let* db' := saveSnapshotTx db (env_now env) connection snapshot in
    match event with
    | None => Ok db'
    | Some e =>
      appendEventTx db' (env_now env) connection
        (mkGrantEvent (sgs_ConnectionID snapshot) (ge_EventType e) (ge_Added e) (ge_Removed e) (ge_OccurredAt e) (ge_Metadata e))
    end)%go.

(** The row with the highest version among those of the connection. *)
Definition newer (r1 r2 : grantSnapshotRecord) : grantSnapshotRecord :=
  if (gsr_Version r1 <? gsr_Version r2)%Z then r2 else r1.
Definition latest_of (rows : list grantSnapshotRecord) : option grantSnapshotRecord :=
  foldl (λ best r, Some (match best with None => r | Some b => newer b r end)) None rows.
Definition snapshots_of (db : GrantDB) (connectionID : string) : list grantSnapshotRecord :=
  filter (λ r, gsr_ConnectionID r = connectionID) (map_to_list (gdb_snapshots db)).*2.

Definition Grant_GetLatestSnapshot (db : GrantDB) (env : CallEnv) (connectionID : string)
    : outcome grant_error (option GrantSnapshot) :=
  match env_fault env 0 with
  | Some err => Fail (GErrDatabase err)
  | None =>
    Ok ((λ r, mkSnapshot (gsr_ConnectionID r) (gsr_Version r) (gsr_RequestedGrants r) (gsr_GrantedGrants r)
                (gsr_CapturedAt r) (RedactMetadata (json_column (gsr_Metadata r)))) <$> latest_of (snapshots_of db (TrimSpace connectionID)))
  end.

Definition sql_grant_store : GrantStore grant_error GrantDB :=
  {| gst_SaveSnapshot := Grant_SaveSnapshot; gst_GetLatestSnapshot := Grant_GetLatestSnapshot;
     gst_AppendEvent := Grant_AppendEvent; gst_SaveSnapshotAndEvent := Grant_SaveSnapshotAndEvent |}.
End grant_store.

(** ** Reconciliation (the service, over any grant store) *)

Inductive reconcile_error (E : Type) := RErrProvider (cause : string) | RErrGrantStore (cause : E).
Arguments RErrProvider {E}. Arguments RErrGrantStore {E}.

Section reconcile.
Context {MR : MapRange} {E W : Type} {store : GrantStore E W}.

(** [NormalizeGrantedPermissions] of a provider that has it. *)
Abbreviation grant_normalizer := (list string → outcome string (list string)).

Definition provider_normalized (aware : option grant_normalizer) (granted : list string)
    : outcome (reconcile_error E) (list string) :=
  match aware with
  | None => Ok granted
  | Some f => match f granted with Ok g => Ok (normalizeGrants g) | Fail e => Fail (RErrProvider e) end
  end.

Definition latest_snapshot (db : W) (env : CallEnv) (connectionID : string)
    : outcome (reconcile_error E) (option GrantSnapshot) :=
  match gst_GetLatestSnapshot db env connectionID with Ok s => Ok s | Fail e => Fail (RErrGrantStore e) end.

(** The read phase of [reconcileGrantSnapshot]: everything up to the transaction. *)
Definition reconcile_read (aware : option grant_normalizer) (db : W) (env : CallEnv) (now : Time)
    (connectionID : string) (requested granted : list string) (metadata : gmap string value)
    : outcome (reconcile_error E) (SaveGrantSnapshotInput * GrantDelta * option AppendGrantEventInput) :=
  let requested := normalizeGrants requested in
  let granted := normalizeGrants granted in
  (let* granted := provider_normalized aware granted in
   let* previous := latest_snapshot db env connectionID in
   let version := match previous with Some p => (gs_Version p + 1)%Z | None => 1%Z end in
   let delta := match previous with
                | Some p => ComputeGrantDelta (gs_Granted p) granted
                | None => ComputeGrantDelta [] granted
                end in
   let event := if String.eqb (gd_EventType delta) "" then None
                else Some (mkGrantEvent connectionID (gd_EventType delta) (gd_Added delta) (gd_Removed delta) now (copyAnyMap metadata)) in
   Ok (mkSaveSnapshot connectionID version requested granted now (copyAnyMap metadata), delta, event))%go.

(** The write phase: one transaction if the store is transactional, two calls otherwise. *)
Definition reconcile_write (transactional : bool) (db : W) (commit append : CallEnv)
    (input : SaveGrantSnapshotInput) (event : option AppendGrantEventInput) : outcome E unit * W :=
  if transactional then gst_SaveSnapshotAndEvent db commit input event
  else match gst_SaveSnapshot db commit input with
  | (Fail e, db') => (Fail e, db')
  | (Ok _, db') => match event with None => (Ok tt, db') | Some e => gst_AppendEvent db' append e end
  end.

Definition reconcileGrantSnapshot (transactional : bool) (aware : option grant_normalizer) (db : W)
    (read commit append : CallEnv) (now : Time)
    (connectionID : string) (requested granted : list string) (metadata : gmap string value)
    : outcome (reconcile_error E) (GrantSnapshot * GrantDelta) * W :=
  match reconcile_read aware db read now connectionID requested granted metadata with
  | Fail e => (Fail e, db)
  | Ok (input, delta, event) =>
    match reconcile_write transactional db commit append input event with
    | (Fail e, db') => (Fail (RErrGrantStore e), db')
    | (Ok _, db') =>
      (Ok (mkSnapshot connectionID (sgs_Version input) (sgs_Requested input) (sgs_Granted input) now (copyAnyMap metadata), delta), db')
    end
  end.
End reconcile.

(** ** Grant sets as sets *)

Definition grants (values : list string) : gset string := dom (toGrantSet values).

Lemma toGrantSet_fold values set g :
  foldl (λ set v, add_grant v set) set values !! g = Some tt ↔
  set !! g = Some tt ∨ (g ≠ "" ∧ ∃ v, v ∈ values ∧ lowerTrim v = g).
Proof.
  revert set. induction values as [|v values IH]; intros set; simpl; [set_solver|].
  rewrite IH. unfold add_grant. destruct (String.eqb_spec (lowerTrim v) "") as [He|He].
  - set_solver.
  - rewrite lookup_insert_Some. destruct (decide (lowerTrim v = g)); set_solver.
Qed.

Lemma elem_of_grants g values : g ∈ grants values ↔ g ≠ "" ∧ ∃ v, v ∈ values ∧ lowerTrim v = g.
Proof.
  unfold grants. rewrite elem_of_dom. unfold is_Some.
  assert (H : (∃ x, toGrantSet values !! g = Some x) ↔ toGrantSet values !! g = Some tt) by (split; [intros [[] ?]|]; eauto).
  rewrite H. unfold toGrantSet. rewrite toGrantSet_fold, lookup_empty. naive_solver.
Qed.

Lemma toGrantSet_None g values : toGrantSet values !! g = None ↔ g ∉ grants values.
Proof. unfold grants. by rewrite not_elem_of_dom. Qed.

Section grant_lemmas.
Context {MR : MapRange}.

Lemma keys_perm (set : grant_set) : (map_range set).*1 ≡ₚ elements (dom set : gset string).
Proof.
  apply NoDup_Permutation; [apply NoDup_map_range|apply NoDup_elements|]. intros g.
  rewrite elem_of_elements, elem_of_dom, list_elem_of_fmap. split.
  - intros ([k x] & -> & Hin%elem_of_map_range). by exists x.
  - intros [x Hx]. exists (g, x). split; [done|]. by apply elem_of_map_range.
Qed.

Lemma not_in_spec values other : NoDup (grants_not_in (toGrantSet values) (toGrantSet other)) ∧
  ∀ g, g ∈ grants_not_in (toGrantSet values) (toGrantSet other) ↔ g ∈ grants values ∧ g ∉ grants other.
Proof.
  unfold grants_not_in. split; [apply NoDup_filter, NoDup_map_range|]. intros g.
  rewrite list_elem_of_filter, toGrantSet_None, keys_perm, elem_of_elements. fold (grants values). tauto.
Qed.

(** Sorted, duplicate-free lists are determined by their elements. *)
Definition lists_set (l : list string) (X : gset string) : Prop :=
  Sorted String.le l ∧ NoDup l ∧ list_to_set l = X.

Lemma lists_set_unique l1 l2 X : lists_set l1 X → lists_set l2 X → l1 = l2.
Proof.
  intros (S1 & N1 & E1) (S2 & N2 & E2).
  apply (Sorted_unique String.le); [done|done|]. apply NoDup_Permutation; [done..|].
  intros g. rewrite <- !(elem_of_list_to_set (C := gset string)). by rewrite E1, E2.
Qed.

Lemma sortStrings_lists l X : NoDup l → (∀ g, g ∈ l ↔ g ∈ X) → lists_set (sortStrings l) X.
Proof.
  intros Hnd Hin. split_and!; [apply sortStrings_sorted|by rewrite sortStrings_perm|].
  apply set_eq. intros g. by rewrite elem_of_list_to_set, elem_of_sortStrings.
Qed.

Lemma normalizeGrants_lists values : lists_set (normalizeGrants values) (grants values).
Proof.
  apply sortStrings_lists; [apply NoDup_map_range|]. intros g. by rewrite keys_perm, elem_of_elements.
Qed.

Lemma elem_of_normalizeGrants g values : g ∈ normalizeGrants values ↔ g ∈ grants values.
Proof.
  destruct (normalizeGrants_lists values) as (_ & _ & <-). by rewrite elem_of_list_to_set.
Qed.

Lemma grants_normalizeGrants values : grants (normalizeGrants values) = grants values.
Proof.
  apply set_eq. intros g. rewrite elem_of_grants. split.
  - intros [Hne (v & Hv & Hg)]. apply elem_of_normalizeGrants in Hv as Hv'.
    apply elem_of_grants in Hv' as [_ (w & Hw & <-)]. rewrite lowerTrim_idem in Hg. by subst g; apply elem_of_normalizeGrants.
  - intros Hg. apply elem_of_grants in Hg as Hg'. destruct Hg' as [Hne (w & Hw & <-)].
    split; [done|]. exists (lowerTrim w). split; [by apply elem_of_normalizeGrants|apply lowerTrim_idem].
Qed.

Lemma delta_added previous current :
  lists_set (gd_Added (ComputeGrantDelta previous current)) (grants current ∖ grants previous).
Proof.
  destruct (not_in_spec current previous) as [Hnd Hin]. apply sortStrings_lists; [done|]. intros g. rewrite Hin. set_solver.
Qed.
Lemma delta_removed previous current :
  lists_set (gd_Removed (ComputeGrantDelta previous current)) (grants previous ∖ grants current).
Proof.
  destruct (not_in_spec previous current) as [Hnd Hin]. apply sortStrings_lists; [done|]. intros g. rewrite Hin. set_solver.
Qed.

Lemma lists_set_empty l X : lists_set l X → (0 <? length l) = true ↔ X ≠ ∅.
Proof.
  intros (_ & _ & <-). rewrite Nat.ltb_lt. destruct l as [|g l]; simpl; [set_solver by lia|].
  split; [set_solver|lia].
Qed.

(** The required grants of a provider are those of its capabilities. *)
Lemma required_fold (capabilities : list CapabilityDescriptor) (set : grant_set) g :
  is_Some (foldl (λ (set : grant_set) d, foldl (λ set g, <[g := tt]> set) set (normalizeGrants (cap_RequiredGrants d)))
             set capabilities !! g) ↔
  is_Some (set !! g) ∨ ∃ d, d ∈ capabilities ∧ g ∈ grants (cap_RequiredGrants d).
Proof.
  assert (Hin : ∀ l (set : grant_set), is_Some (foldl (λ (set : grant_set) g, <[g := tt]> set) set l !! g) ↔ is_Some (set !! g) ∨ g ∈ l).
  { induction l as [|x l IH]; intros st; simpl; [set_solver|]. rewrite IH, lookup_insert_is_Some. destruct (decide (x = g)); set_solver. }
  revert set. induction capabilities as [|d ds IH]; intros set; simpl; [set_solver|].
  rewrite IH, Hin, elem_of_normalizeGrants. set_solver.
Qed.

Lemma missingRequired_nil capabilities granted :
  missingRequiredProviderGrants capabilities granted = [] ↔
  ∀ d, d ∈ capabilities → grants (cap_RequiredGrants d) ⊆ grants granted.
Proof.
  unfold missingRequiredProviderGrants. cbv zeta.
  assert (Hnil : ∀ l, sortStrings l = [] ↔ l = []).
  { intros l. pose proof (sortStrings_perm l) as Hp. split; [intros H|intros ->; done]. rewrite H in Hp. by apply Permutation_nil_l in Hp. }
  rewrite Hnil. unfold grants_not_in. split.
  - intros Hf d Hd g Hg. destruct (decide (g ∈ grants granted)) as [|Hno]; [done|]. exfalso.
    apply (filter_nil_not_elem_of _ _ g Hf); [by apply toGrantSet_None|].
    rewrite keys_perm, elem_of_elements, elem_of_dom. apply required_fold. eauto.
  - intros Hsub. apply elem_of_nil_inv. intros g [Hno%toGrantSet_None Hg]%list_elem_of_filter. apply Hno.
    rewrite keys_perm, elem_of_elements, elem_of_dom in Hg. apply required_fold in Hg as [[? Hg]|(d & Hd & Hg)].
    + by rewrite lookup_empty in Hg.
    + by apply (Hsub d).
Qed.
End grant_lemmas.

Lemma delta_cases `{MR : MapRange} previous current :
  let d := ComputeGrantDelta previous current in
  let P := grants previous in
  let C := grants current in
  lists_set (gd_Added d) (C ∖ P) ∧ lists_set (gd_Removed d) (P ∖ C) ∧
  (gd_EventType d = "" ↔ P = C) ∧
  (gd_EventType d = GrantEventExpanded ↔ P ⊂ C) ∧
  (gd_EventType d = GrantEventRevoked ↔ P ≠ ∅ ∧ C = ∅) ∧
  (gd_EventType d = GrantEventDowngraded ↔ C ≠ ∅ ∧ P ⊈ C).
Proof.
  intros d P C. pose proof (delta_added previous current) as Ha. pose proof (delta_removed previous current) as Hr.
  fold d P C in Ha, Hr. split; [done|]. split; [done|].
  pose proof (lists_set_empty _ _ Ha) as Ea. pose proof (lists_set_empty _ _ Hr) as Er.
  assert (Ec : (size (toGrantSet current) =? 0) = true ↔ C = ∅).
  { rewrite Nat.eqb_eq, map_size_empty_iff. unfold C, grants. by rewrite dom_empty_iff_L. }
  assert (Et : gd_EventType d =
    if (0 <? length (gd_Removed d)) && (size (toGrantSet current) =? 0) then GrantEventRevoked
    else if 0 <? length (gd_Removed d) then GrantEventDowngraded
    else if 0 <? length (gd_Added d) then GrantEventExpanded else "") by done.
  assert (Hdiff : ∀ X Y : gset string, X ∖ Y ≠ ∅ ↔ X ⊈ Y).
  { intros X Y. split; intros H H'; apply H; [set_solver|by apply empty_difference_subseteq_L]. }
  rewrite Hdiff in Ea, Er. rewrite Et. clear Et Ha Hr Hdiff. clearbody d P C.
  assert (Hp : P = C ↔ P ⊆ C ∧ C ⊆ P) by (split; [intros ->; done|intros []; by apply set_eq_subseteq]).
  assert (HCP : C = ∅ → C ⊆ P) by (intros ->; apply empty_subseteq).
  assert (HPC : P = ∅ → P ⊆ C) by (intros ->; apply empty_subseteq).
  assert (HP0 : C = ∅ → P ⊆ C → P = ∅) by (intros ->; set_solver).
  rewrite Hp. unfold strict. clear Hp.
  destruct (decide (P ⊆ C)), (decide (C ⊆ P)), (decide (C = ∅));
    destruct (0 <? length (gd_Removed d)), (0 <? length (gd_Added d)), (size (toGrantSet current) =? 0);
    try (exfalso; intuition congruence); simpl; split_and!; split; intros ?; try done; tauto.
Qed.

(** The grant delta is exact.  Comparing grants up to case and surrounding blanks and ignoring
    blank ones, the added and removed grants are the two set differences, sorted and without
    duplicates (so the result does not depend on the order of map iteration), and the event type
    tells the four cases apart: nothing changed, only grants added, some removed with others left, all
    removed. *)
Theorem grant_delta_exact `{MR : MapRange} previous current :
  let d := ComputeGrantDelta previous current in
  let P := grants previous in
  let C := grants current in
  lists_set (gd_Added d) (C ∖ P) ∧ lists_set (gd_Removed d) (P ∖ C) ∧
  (gd_EventType d = "" ↔ P = C) ∧
  (gd_EventType d = GrantEventExpanded ↔ P ⊂ C) ∧
  (gd_EventType d = GrantEventRevoked ↔ P ≠ ∅ ∧ C = ∅) ∧
  (gd_EventType d = GrantEventDowngraded ↔ C ≠ ∅ ∧ P ⊈ C).
Proof. apply delta_cases. Qed.

(** ** Concurrent reconciliations *)

(** A transaction that a worker has prepared and not yet committed. *)
Abbreviation prepared := (SaveGrantSnapshotInput * option AppendGrantEventInput)%type.

Section concurrent.
Context {MR : MapRange}.
Variable format_time : Time → string.
Variable json_column : gmap string value → gmap string value.

(** The types of the events that record a change of the grants; the events of the other types (the service
    notes re-consent requests and their completion) repeat grants that others record. *)
Definition delta_types : list string := [GrantEventExpanded; GrantEventDowngraded; GrantEventRevoked].

(** Workers read and commit independently, and note events of other types. *)
Inductive worker_step : GrantDB * list prepared → GrantDB * list prepared → Prop :=
| WorkerRead db ps aware env now connectionID requested granted metadata input delta event :
    reconcile_read (store := sql_grant_store format_time json_column) aware db env now connectionID requested granted metadata = Ok (input, delta, event) →
    worker_step (db, ps) (db, (input, event) :: ps)
| WorkerCommit db ps1 ps2 env input event :
    worker_step (db, ps1 ++ (input, event) :: ps2)
                ((Grant_SaveSnapshotAndEvent format_time db env input event).2, ps1 ++ ps2)
| WorkerNote db ps env input :
    TrimSpace (ge_EventType input) ∉ delta_types →
    worker_step (db, ps) ((Grant_AppendEvent db env input).2, ps).

(** A reconciliation over the transactional store is a read step and a commit step of one worker. *)
Lemma reconcile_steps aware db read commit append now connectionID requested granted metadata ps :
  rtc worker_step (db, ps)
    ((reconcileGrantSnapshot (store := sql_grant_store format_time json_column) true aware db read commit append now connectionID
        requested granted metadata).2, ps).
Proof.
  unfold reconcileGrantSnapshot, reconcile_write.
  destruct (reconcile_read _ _ _ _ _ _ _ _) as [[[input delta] event]|e] eqn:Hread; [|apply rtc_refl].
  eapply rtc_l; [by eapply WorkerRead|]. eapply rtc_l; [by apply (WorkerCommit db [] ps commit input event)|].
  simpl. by destruct (Grant_SaveSnapshotAndEvent _ _ _ _ _) as [[] db'].
Qed.

Inductive reachable (connections : gmap string connectionRow) : GrantDB * list prepared → Prop :=
| reachable_init : reachable connections (mkGrantDB connections ∅ [], [])
| reachable_step st st' : reachable connections st → worker_step st st' → reachable connections st'.

(** The set of grants the events of a connection add up to. *)
Definition apply_event (X : gset string) (e : grantEventRecord) : gset string :=
  if decide (ger_EventType e ∈ delta_types)
  then (X ∪ list_to_set (ger_AddedGrants e)) ∖ list_to_set (ger_RemovedGrants e) else X.
Definition replayed (db : GrantDB) (c : string) : gset string :=
  foldl apply_event ∅ (filter (λ e, ger_ConnectionID e = c) (gdb_events db)).

Definition connections_keyed (m : gmap string connectionRow) : Prop := ∀ k r, m !! k = Some r → cr_ID r = k.

Definition snapshots_keyed (db : GrantDB) : Prop :=
  ∀ c v r, gdb_snapshots db !! (c, v) = Some r → gsr_ConnectionID r = c ∧ gsr_Version r = v.

(** The versions of the connection are 1..n. *)
Definition chain (db : GrantDB) (c : string) (n : Z) : Prop :=
  (0 ≤ n)%Z ∧ ∀ v, is_Some (gdb_snapshots db !! (c, v)) ↔ (1 ≤ v ≤ n)%Z.

Definition granted_at (db : GrantDB) (c : string) (v : Z) : list string :=
  default [] (gsr_GrantedGrants <$> gdb_snapshots db !! (c, v)).

(** A prepared transaction was computed from the snapshot just below its version. *)
Definition prepared_ok (db : GrantDB) (p : prepared) : Prop :=
  let c := TrimSpace (sgs_ConnectionID p.1) in
  let v := sgs_Version p.1 in
  (v = 1%Z ∨ is_Some (gdb_snapshots db !! (c, v - 1)%Z)) ∧
  let d := ComputeGrantDelta (granted_at db c (v - 1)) (sgs_Granted p.1) in
  match p.2 with
  | None => gd_EventType d = ""
  | Some e => gd_EventType d ≠ "" ∧ ge_EventType e = gd_EventType d ∧ ge_Added e = gd_Added d ∧ ge_Removed e = gd_Removed d
  end.

Record grants_inv (st : GrantDB * list prepared) : Prop := {
  gi_connections : connections_keyed (gdb_connections st.1);
  gi_keyed : snapshots_keyed st.1;
  gi_chain : ∀ c, ∃ n, chain st.1 c n ∧ replayed st.1 c = grants (granted_at st.1 c n);
  gi_prepared : Forall (prepared_ok st.1) st.2 }.

Lemma latest_of_max rows r :
  latest_of rows = Some r → r ∈ rows ∧ Forall (λ r', (gsr_Version r' ≤ gsr_Version r)%Z) rows.
Proof.
  unfold latest_of. assert (H : ∀ best,
    foldl (λ best r, Some (match best with None => r | Some b => newer b r end)) best rows = Some r →
    (best = Some r ∨ r ∈ rows) ∧ Forall (λ r', (gsr_Version r' ≤ gsr_Version r)%Z) rows ∧
    (∀ b, best = Some b → (gsr_Version b ≤ gsr_Version r)%Z)).
  { induction rows as [|x rows IH]; intros best; simpl.
    - intros ->. split_and!; auto. intros b [= ->]. lia.
    - intros (Hin & Hall & Hb)%IH. specialize (Hb _ eq_refl).
      destruct best as [b|]; [unfold newer in *; destruct (Z.ltb_spec (gsr_Version b) (gsr_Version x))|].
      + split_and!; [destruct Hin as [[= ->]|]; set_solver|constructor; [lia|done]|intros ? [= <-]; lia].
      + split_and!; [destruct Hin as [[= ->]|]; set_solver|constructor; [lia|done]|intros ? [= <-]; lia].
      + split_and!; [destruct Hin as [[= ->]|]; set_solver|constructor; [lia|done]|done]. }
  intros ([|] & ? & _)%H; done.
Qed.

Lemma latest_of_None rows : latest_of rows = None → rows = [].
Proof.
  unfold latest_of. destruct rows as [|x rows]; [done|]. simpl. generalize x. induction rows as [|y rows IH]; intros z; simpl; [done|]. intros H. by apply IH in H.
Qed.

Lemma elem_of_snapshots_of db c r :
  snapshots_keyed db → r ∈ snapshots_of db c ↔ gdb_snapshots db !! (c, gsr_Version r) = Some r.
Proof.
  intros Hk. unfold snapshots_of. rewrite list_elem_of_filter, list_elem_of_fmap. split.
  - intros [<- ([[c' v] r'] & -> & Hin%elem_of_map_to_list)]. simpl. destruct (Hk _ _ _ Hin) as [-> ->]. done.
  - intros Hr. split; [by destruct (Hk _ _ _ Hr)|]. exists ((c, gsr_Version r), r). split; [done|]. by apply elem_of_map_to_list.
Qed.

Lemma latest_chain db c n :
  snapshots_keyed db → chain db c n → latest_of (snapshots_of db c) = gdb_snapshots db !! (c, n).
Proof.
  intros Hk [Hn Hc]. destruct (latest_of _) as [r|] eqn:E.
  - apply latest_of_max in E as [Hin Hall]. apply elem_of_snapshots_of in Hin; [|done].
    assert (Hv : (1 ≤ gsr_Version r ≤ n)%Z) by (apply Hc; eauto).
    assert (Hs : is_Some (gdb_snapshots db !! (c, n))) by (apply Hc; lia). destruct Hs as [r' Hr'].
    destruct (Hk _ _ _ Hr') as [_ Hv']. rewrite Forall_forall in Hall.
    specialize (Hall r'). rewrite elem_of_snapshots_of, Hv' in Hall by done. specialize (Hall Hr').
    replace n with (gsr_Version r) by lia. done.
  - apply latest_of_None in E. destruct (gdb_snapshots db !! (c, n)) as [r|] eqn:Hr; [|done].
    destruct (Hk _ _ _ Hr) as [_ Hv]. assert (Hin : r ∈ snapshots_of db c) by (apply elem_of_snapshots_of; [done|by rewrite Hv]).
    rewrite E in Hin. by apply not_elem_of_nil in Hin.
Qed.

Lemma granted_at_0 db c n : chain db c n → granted_at db c 0 = [].
Proof.
  intros [Hn Hc]. unfold granted_at. destruct (gdb_snapshots db !! (c, 0%Z)) as [r|] eqn:E; [|done].
  assert (1 ≤ 0 ≤ n)%Z by (apply Hc; eauto). lia.
Qed.

Lemma delta_type previous current :
  gd_EventType (ComputeGrantDelta previous current) ≠ "" →
  TrimSpace (gd_EventType (ComputeGrantDelta previous current)) ∈ delta_types.
Proof.
  unfold ComputeGrantDelta. cbv zeta. simpl gd_EventType. intros Ht. apply (bool_decide_unpack _).
  by destruct (_ && _); [|destruct (0 <? _); [|destruct (0 <? _)]].
Qed.

#[local] Opaque ComputeGrantDelta.

Lemma reconcile_read_ok aware db env now connectionID requested granted metadata input delta event :
  snapshots_keyed db → (∀ c, ∃ n, chain db c n) →
  reconcile_read (store := sql_grant_store format_time json_column) aware db env now connectionID requested granted metadata = Ok (input, delta, event) →
  prepared_ok db (input, event).
Proof.
  intros Hk Hch. unfold reconcile_read. cbv zeta.
  destruct (provider_normalized aware _) as [g|e]; [|done]. simpl.
  unfold latest_snapshot. simpl gst_GetLatestSnapshot. unfold Grant_GetLatestSnapshot. destruct (env_fault env 0); [done|]. simpl.
  destruct (Hch (TrimSpace connectionID)) as [n Hn]. rewrite (latest_chain db _ n Hk Hn).
  unfold prepared_ok. simpl. destruct (gdb_snapshots db !! (TrimSpace connectionID, n)) as [r|] eqn:Hr; simpl.
  - destruct (Hk _ _ _ Hr) as [_ Hv]. rewrite Hv. intros [= <- <- <-]. simpl.
    replace (n + 1 - 1)%Z with n by lia. split; [right; eauto|]. unfold granted_at. rewrite Hr. simpl.
    destruct (String.eqb_spec (gd_EventType (ComputeGrantDelta (gsr_GrantedGrants r) g)) ""); [done|by split_and!].
  - intros [= <- <- <-]. simpl. split; [by left|]. change (1 - 1)%Z with 0%Z. rewrite (granted_at_0 db _ n Hn).
    destruct (String.eqb_spec (gd_EventType (ComputeGrantDelta [] g)) ""); [done|by split_and!].
Qed.

(** A committed transaction extends the chain of its connection by one. *)
Lemma commit_cases db env input event :
  connections_keyed (gdb_connections db) → prepared_ok db (input, event) → (∀ c, ∃ n, chain db c n) →
  let c := TrimSpace (sgs_ConnectionID input) in
  let db' := (Grant_SaveSnapshotAndEvent format_time db env input event).2 in
  db' = db ∨ ∃ n r evs, chain db c n ∧ sgs_Version input = (n + 1)%Z ∧
    gsr_ConnectionID r = c ∧ gsr_Version r = (n + 1)%Z ∧ gsr_GrantedGrants r = sgs_Granted input ∧
    db' = mkGrantDB (gdb_connections db) (<[(c, n + 1)%Z := r]> (gdb_snapshots db)) (gdb_events db ++ evs) ∧
    match event with
    | None => evs = []
    | Some e => ∃ x, evs = [x] ∧ ger_ConnectionID x = c ∧
        ger_EventType x = TrimSpace (ge_EventType e) ∧ ger_AddedGrants x = ge_Added e ∧ ger_RemovedGrants x = ge_Removed e
    end.
Proof.
  intros Hck [Hprev _] Hch c db'. simpl in Hprev. unfold db', Grant_SaveSnapshotAndEvent, RunInTx.
  destruct (env_fault env 0); [by left|]. unfold loadConnectionTx. fold c in Hprev |- *.
  destruct (String.eqb c ""); [by left|]. destruct (gdb_connections db !! c) as [cr|] eqn:Hc; [|by left]. simpl.
  pose proof (Hck _ _ Hc) as Hid. unfold saveSnapshotTx. rewrite Hid.
  destruct (Z.leb_spec (sgs_Version input) 0) as [|Hpos]; [by left|].
  destruct (gdb_snapshots db !! (c, sgs_Version input)) as [|] eqn:Hnew; [by left|].
  destruct (Hch c) as [n Hn]. pose proof Hn as [Hn0 Hiff].
  assert (Hv : sgs_Version input = (n + 1)%Z).
  { assert (¬ (1 ≤ sgs_Version input ≤ n)%Z) by (rewrite <- Hiff, Hnew; by apply is_Some_None).
    destruct Hprev as [|Hp%Hiff]; lia. }
  cbv zeta. simpl. rewrite Hv. destruct event as [e|].
  - unfold appendEventTx. simpl. destruct (String.eqb (TrimSpace (ge_EventType e)) ""); [by left|]. right.
    exists n. do 2 eexists. split_and!; [exact Hn|done| | | |reflexivity|eexists; split_and!]; by simpl.
  - right. exists n. eexists _, []. split_and!; [exact Hn|done| | | |rewrite app_nil_r; reflexivity|done]; by simpl.
Qed.

Lemma replay_app db c evs :
  foldl apply_event ∅ (filter (λ e, ger_ConnectionID e = c) (gdb_events db ++ evs))
  = foldl apply_event (replayed db c) (filter (λ e, ger_ConnectionID e = c) evs).
Proof. unfold replayed. by rewrite filter_app, foldl_app. Qed.

(** The prepared transactions survive any growth of the snapshots. *)
Lemma prepared_ok_grow db db' p :
  (∀ c, ∃ n, chain db c n) → (∀ c, ∃ n, chain db' c n) → gdb_snapshots db ⊆ gdb_snapshots db' →
  prepared_ok db p → prepared_ok db' p.
Proof.
  intros Hch Hch' Hsub [Hprev Hd]. set (c := TrimSpace (sgs_ConnectionID p.1)) in *. set (v := sgs_Version p.1) in *.
  assert (Hg : granted_at db' c (v - 1) = granted_at db c (v - 1)).
  { destruct Hprev as [Hv|[r Hr]].
    - rewrite Hv. change (1 - 1)%Z with 0%Z. destruct (Hch c) as [n Hn], (Hch' c) as [n' Hn'].
      by rewrite (granted_at_0 db c n), (granted_at_0 db' c n').
    - unfold granted_at. by rewrite Hr, (lookup_weaken _ _ _ _ Hr Hsub). }
  unfold prepared_ok. fold c v. rewrite Hg. split; [|done].
  destruct Hprev as [|[r Hr]]; [by left|right]. exists r. by eapply lookup_weaken.
Qed.

Lemma apply_delta previous current :
  (grants previous ∪ list_to_set (gd_Added (ComputeGrantDelta previous current)))
    ∖ list_to_set (gd_Removed (ComputeGrantDelta previous current)) = grants current.
Proof.
  destruct (delta_added previous current) as (_ & _ & ->). destruct (delta_removed previous current) as (_ & _ & ->).
  apply set_eq. intros g. destruct (decide (g ∈ grants previous)), (decide (g ∈ grants current)); set_solver.
Qed.

Lemma chain_unique db c n m : chain db c n → chain db c m → m = n.
Proof.
  intros [Hn H1] [Hm H2]. assert (∀ v, (1 ≤ v ≤ m)%Z ↔ (1 ≤ v ≤ n)%Z) as H by (intros v; by rewrite <- H1, <- H2).
  pose proof (H m). pose proof (H n). lia.
Qed.

(** The database after a commit: the chain grows, and the event accounts for the difference. *)
Definition extended (db : GrantDB) (c : string) (n : Z) (r : grantSnapshotRecord) (evs : list grantEventRecord) : GrantDB :=
  mkGrantDB (gdb_connections db) (<[(c, n + 1)%Z := r]> (gdb_snapshots db)) (gdb_events db ++ evs).

Lemma extended_chain db c n r evs : chain db c n → chain (extended db c n r evs) c (n + 1).
Proof.
  intros [Hn Hiff]. split; [lia|]. intros v. simpl. destruct (decide (v = n + 1)%Z) as [->|Hv'].
  - rewrite lookup_insert_eq. split; [lia|eauto].
  - rewrite lookup_insert_ne by congruence. rewrite Hiff. lia.
Qed.

Lemma extended_other db c n r evs c' m :
  c' ≠ c → Forall (λ x, ger_ConnectionID x = c) evs →
  chain db c' m → replayed db c' = grants (granted_at db c' m) →
  chain (extended db c n r evs) c' m ∧
  replayed (extended db c n r evs) c' = grants (granted_at (extended db c n r evs) c' m).
Proof.
  intros Hne Hevs [Hm Hiff] Hrep.
  assert (Hsame : ∀ v, gdb_snapshots (extended db c n r evs) !! (c', v) = gdb_snapshots db !! (c', v))
    by (intros v; simpl; rewrite lookup_insert_ne; congruence).
  split; [split; [done|]; intros v; by rewrite Hsame|].
  unfold granted_at. rewrite Hsame. unfold replayed, extended. simpl. rewrite replay_app.
  assert (filter (λ e, ger_ConnectionID e = c') evs = []) as ->; [|exact Hrep].
  clear -Hevs Hne. induction Hevs as [|x evs Hx _ IH]; [done|]. by rewrite filter_cons, decide_False by congruence.
Qed.

Lemma extended_replay db c n r evs input event :
  sgs_Version input = (n + 1)%Z → c = TrimSpace (sgs_ConnectionID input) →
  gsr_GrantedGrants r = sgs_Granted input → prepared_ok db (input, event) →
  match event with
  | None => evs = []
  | Some e => ∃ x, evs = [x] ∧ ger_ConnectionID x = c ∧
        ger_EventType x = TrimSpace (ge_EventType e) ∧ ger_AddedGrants x = ge_Added e ∧ ger_RemovedGrants x = ge_Removed e
  end →
  replayed db c = grants (granted_at db c n) →
  replayed (extended db c n r evs) c = grants (granted_at (extended db c n r evs) c (n + 1)).
Proof.
  intros Hv Hc Hrg [_ Hd] Hevs Hrep. simpl in Hd. rewrite <- Hc, Hv in Hd. replace (n + 1 - 1)%Z with n in Hd by lia.
  unfold granted_at at 1. simpl. rewrite lookup_insert_eq. simpl. rewrite Hrg.
  unfold replayed, extended. simpl. rewrite replay_app, Hrep. destruct event as [e|].
  - destruct Hevs as (x & -> & Hxc & Hxt & Hxa & Hxr). destruct Hd as (Hne & Hdt & Hda & Hdr).
    rewrite filter_cons, decide_True by done. simpl. unfold apply_event. rewrite Hxt, Hdt, decide_True by (by apply delta_type).
    rewrite Hxa, Hxr, Hda, Hdr. apply apply_delta.
  - subst evs. simpl. by apply (delta_cases (granted_at db c n) (sgs_Granted input)).
Qed.

Lemma commit_inv db ps1 ps2 env input event :
  grants_inv (db, ps1 ++ (input, event) :: ps2) →
  grants_inv ((Grant_SaveSnapshotAndEvent format_time db env input event).2, ps1 ++ ps2).
Proof.
  intros [Hck Hk Hch Hps]. simpl in *.
  assert (Hchain : ∀ c, ∃ n, chain db c n) by (intros c; destruct (Hch c) as (n & ? & _); eauto).
  apply Forall_app in Hps as [Hps1 Hps2]. apply Forall_cons in Hps2 as [Hp Hps2].
  pose proof (commit_cases db env input event Hck Hp Hchain) as Hcases. cbv zeta in Hcases.
  destruct Hcases as [->|(n & r & evs & Hn & Hv & Hrc & Hrv & Hrg & -> & Hevs)].
  { split; simpl; auto. apply Forall_app; auto. }
  set (c := TrimSpace (sgs_ConnectionID input)) in *. fold (extended db c n r evs).
  assert (Hall : Forall (λ x, ger_ConnectionID x = c) evs).
  { destruct event as [e|]; [|by subst evs]. destruct Hevs as (x & -> & ? & _). by repeat constructor. }
  assert (Hchain' : ∀ c', ∃ m, chain (extended db c n r evs) c' m ∧
    replayed (extended db c n r evs) c' = grants (granted_at (extended db c n r evs) c' m)).
  { intros c'. destruct (Hch c') as (m & Hm & Hrep). destruct (decide (c' = c)) as [->|Hne].
    - rewrite (chain_unique db c n m) in Hrep by done. exists (n + 1)%Z.
      split; [by apply extended_chain|by eapply extended_replay].
    - exists m. by apply extended_other. }
  assert (Hnone : gdb_snapshots db !! (c, n + 1)%Z = None).
  { destruct (gdb_snapshots db !! (c, n + 1)%Z) as [x|] eqn:E; [|done].
    destruct Hn as [_ Hiff]. assert (1 ≤ n + 1 ≤ n)%Z by (apply Hiff; eauto). lia. }
  assert (Hgrow : ∀ p, prepared_ok db p → prepared_ok (extended db c n r evs) p).
  { intros p. apply prepared_ok_grow; [done| |simpl; by apply insert_subseteq].
    intros c'. destruct (Hchain' c') as (m & ? & _). eauto. }
  split; simpl; [done| |done|].
  - intros c' v x. simpl. rewrite lookup_insert_Some. intros [[[= <- <-] <-]|[_ Hx]]; [done|by apply Hk].
  - apply Forall_app; split; (eapply Forall_impl; [eassumption|exact Hgrow]).
Qed.

Lemma note_inv db ps env input :
  TrimSpace (ge_EventType input) ∉ delta_types →
  grants_inv (db, ps) → grants_inv ((Grant_AppendEvent db env input).2, ps).
Proof.
  intros Hnote [Hck Hk Hch Hps]. simpl in *. unfold Grant_AppendEvent, RunInTx.
  destruct (env_fault env 0); [by split|].
  destruct (loadConnectionTx db (ge_ConnectionID input)) as [cr|e]; [|by split]. simpl.
  unfold appendEventTx. destruct (String.eqb _ ""); [by split|]. simpl.
  split; simpl; [done|done| |done]. intros c. destruct (Hch c) as (n & Hn & Hrep). exists n. split; [done|].
  unfold granted_at. simpl. unfold replayed. simpl. rewrite replay_app.
  rewrite filter_cons. destruct (decide _); simpl; [|exact Hrep].
  unfold apply_event. simpl. by rewrite decide_False.
Qed.

Lemma worker_step_inv st st' : grants_inv st → worker_step st st' → grants_inv st'.
Proof.
  intros Hinv Hstep. destruct Hstep; [|by apply commit_inv|by apply note_inv].
  destruct Hinv as [Hck Hk Hch Hps]. split; simpl in *; auto. constructor; [|done].
  eapply reconcile_read_ok; [done| |done]. intros c. destruct (Hch c) as (n & ? & _). eauto.
Qed.

(** C3: the grant history is consistent under concurrency.  Whatever the interleaving of the workers'
    reads and commits (stale reads, refused transactions and re-consent notes included), the
    versions of a connection's snapshots are 1, 2, ..., n without gaps, and replaying the committed
    delta events (expanded, downgraded, revoked) of the connection from the empty set gives exactly the
    grants of its latest snapshot. *)
Theorem grant_history_consistent connections db ps c :
  connections_keyed connections → reachable connections (db, ps) →
  ∃ n, (0 ≤ n)%Z ∧ (∀ v, is_Some (gdb_snapshots db !! (c, v)) ↔ (1 ≤ v ≤ n)%Z) ∧
    replayed db c = match latest_of (snapshots_of db c) with
                    | Some r => grants (gsr_GrantedGrants r) | None => ∅ end.
Proof.
  intros Hck Hreach. assert (Hinv : grants_inv (db, ps)).
  { revert Hreach. generalize (db, ps). intros st Hst. induction Hst as [|st st' _ IH Hstep].
    - split; simpl; [done|intros c' v r; simpl; by rewrite ?lookup_empty| |constructor].
      intros c'. exists 0%Z. split; [split; [lia|]|done].
      intros v. simpl. rewrite lookup_empty. split; [by intros []|lia].
    - by eapply worker_step_inv. }
  destruct Hinv as [_ Hk Hch _]. simpl in *. destruct (Hch c) as (n & Hn & Hrep). exists n.
  destruct Hn as [Hn Hiff]. split_and!; [done|done|]. rewrite Hrep, (latest_chain db c n) by done.
  unfold granted_at. by destruct (gdb_snapshots db !! (c, n)).
Qed.
End concurrent.

(** Two workers read before either commits: the first commit is version 1, the second is refused. *)
Section demo.
#[local] Existing Instance key_order_range.
Definition no_format : Time → string := λ _, "".
Definition json_id : gmap string value → gmap string value := λ m, m.
Definition demo_connections : gmap string connectionRow := {[ "c1" := mkConnRow "c1" "gh" "org" "1" ]}.
Definition demo_db0 : GrantDB := mkGrantDB demo_connections ∅ [].
Definition demo_input (granted : list string) : SaveGrantSnapshotInput := mkSaveSnapshot "c1" 1 [] granted 5 ∅.
Definition demo_grant_event (added : list string) : option AppendGrantEventInput :=
  Some (mkGrantEvent "c1" "expanded" added [] 5 ∅).
Definition demo_db1 : GrantDB :=
  (Grant_SaveSnapshotAndEvent no_format demo_db0 (quiet 6 "") (demo_input ["repo"]) (demo_grant_event ["repo"])).2.
Definition demo_db2 : GrantDB :=
  (Grant_SaveSnapshotAndEvent no_format demo_db1 (quiet 7 "") (demo_input ["user"]) (demo_grant_event ["user"])).2.

Lemma demo_reachable : reachable no_format json_id demo_connections (demo_db2, []).
Proof.
  eapply reachable_step; [|apply (WorkerCommit _ _ demo_db1 [] [] (quiet 7 "") (demo_input ["user"]) (demo_grant_event ["user"]))].
  eapply reachable_step; [|apply (WorkerCommit _ _ demo_db0 [(demo_input ["user"], demo_grant_event ["user"])] [] (quiet 6 "")
    (demo_input ["repo"]) (demo_grant_event ["repo"]))].
  eapply reachable_step; [|apply (WorkerRead _ _ demo_db0 [(demo_input ["repo"], demo_grant_event ["repo"])] None (quiet 5 "") 5 "c1" [] ["User "] ∅
    (demo_input ["user"]) (mkDelta "expanded" ["user"] []) (demo_grant_event ["user"])); vm_compute; reflexivity].
  eapply reachable_step; [|apply (WorkerRead _ _ demo_db0 [] None (quiet 5 "") 5 "c1" [] ["repo"] ∅
    (demo_input ["repo"]) (mkDelta "expanded" ["repo"] []) (demo_grant_event ["repo"])); vm_compute; reflexivity].
  apply reachable_init.
Defined.

Lemma grant_history_consistent_witness :
  ∃ n, (0 ≤ n)%Z ∧ (∀ v, is_Some (gdb_snapshots demo_db2 !! ("c1", v)) ↔ (1 ≤ v ≤ n)%Z) ∧
    replayed demo_db2 "c1" = match latest_of (snapshots_of demo_db2 "c1") with
                    | Some r => grants (gsr_GrantedGrants r) | None => ∅ end.
Proof.
  apply (grant_history_consistent no_format json_id demo_connections demo_db2 [] "c1").
  - intros k r. unfold demo_connections. rewrite lookup_singleton_Some. by intros [<- <-].
  - exact demo_reachable.
Defined.
End demo.

