(* ===== verification/Permissions.v ===== *)
(** * Providers, permissions and connection resolution
    (src/core/registry.go, src/core/permission_evaluator.go, src/core/inheritance.go)

    The provider registry, the evaluation of a capability against the grants of a connection, and the
    strict isolation policy.  The connection store and the grant store are interfaces here:
    functions that may fail with any error. *)

From S2P Require Import Prelude GoStrings GoValues Domain Contracts Grants.
From Stdlib Require Import ZArith Lia.
From stdpp Require Import base decidable list gmap strings sorting.

Local Open Scope string_scope.
Local Open Scope nat_scope.
Local Open Scope list_scope.

(** What the registry and the evaluator see of a provider. *)
Record Provider := mkProvider { prov_ID : string; prov_Capabilities : list CapabilityDescriptor }.

Inductive registry_error := RegErrNil | RegErrIDRequired | RegErrExists (id : string).

Abbreviation ProviderRegistry := (gmap string Provider).

Section registry.
Context {MR : MapRange}.

Definition Registry_Register (r : ProviderRegistry) (provider : option Provider) : outcome registry_error ProviderRegistry :=
  match provider with
  | None => Fail RegErrNil
  | Some p =>
    let id := TrimSpace (prov_ID p) in
    if String.eqb id "" then Fail RegErrIDRequired
    else match r !! id with
         | Some _ => Fail (RegErrExists id)
         | None => Ok (<[id := p]> r)
         end
  end.

Definition Registry_Get (r : ProviderRegistry) (providerID : string) : option Provider :=
  let id := TrimSpace providerID in if String.eqb id "" then None else r !! id.

Definition Registry_List (r : ProviderRegistry) : list Provider :=
  omap (λ id, r !! id) (sortStrings (map_range r).*1).
End registry.

Definition findCapabilityDescriptor (capabilities : list CapabilityDescriptor) (capability : string)
    : option CapabilityDescriptor :=
  head (filter (λ d, EqualFold (TrimSpace (cap_Name d)) (TrimSpace capability) = true) capabilities).

(** ** Permissions *)

Inductive permission_error (E : Type) :=
| PErrConnectionRequired | PErrCapabilityRequired
| PErrProviderNotFound (providerID : string)
| PErrStore (cause : E).
Arguments PErrConnectionRequired {E}. Arguments PErrCapabilityRequired {E}.
Arguments PErrProviderNotFound {E}. Arguments PErrStore {E}.

Section evaluator.
Context {MR : MapRange} {E : Type}.

Record GrantPermissionEvaluator := mkEvaluator {
  pe_ConnectionStore : option (string → outcome E Connection);
  pe_GrantStore : option (string → outcome E (option GrantSnapshot));
  pe_Registry : option ProviderRegistry }.

(** [map[string]struct{}] of the normalised grants of a snapshot. *)
Definition snapshot_set (snapshot : option GrantSnapshot) : grant_set :=
  match snapshot with
  | None => ∅
  | Some s => foldl (λ set g, <[g := tt]> set) ∅ (normalizeGrants (gs_Granted s))
  end.

Definition decide_capability (descriptor : CapabilityDescriptor) (capability : string) (granted : grant_set)
    : PermissionDecision :=
  let missingRequired := missingGrants (cap_RequiredGrants descriptor) granted in
  if 0 <? length missingRequired
  then mkDecision false capability "required grants are missing" missingRequired CapabilityDeniedBehaviorBlock
  else
    let missingOptional := missingGrants (cap_OptionalGrants descriptor) granted in
    if (0 <? length missingOptional) && String.eqb (cap_DeniedBehavior descriptor) CapabilityDeniedBehaviorDegrade
    then mkDecision true capability "optional grants missing; degrade behavior selected" missingOptional CapabilityDeniedBehaviorDegrade
    else mkDecision true capability "" []
           (if String.eqb (cap_DeniedBehavior descriptor) "" then CapabilityDeniedBehaviorBlock else cap_DeniedBehavior descriptor).

Definition unsupported (capability : string) : PermissionDecision :=
  mkDecision false capability "capability is not supported by provider" [] CapabilityDeniedBehaviorBlock.

Definition EvaluateCapability (e : GrantPermissionEvaluator) (connectionID capability : string)
    : outcome (permission_error E) PermissionDecision :=
  if blank connectionID then Fail PErrConnectionRequired
  else if blank capability then Fail PErrCapabilityRequired
  else match pe_ConnectionStore e, pe_Registry e with
  | Some getConnection, Some registry =>
    match getConnection connectionID with
    | Fail err => Fail (PErrStore err)
    | Ok connection =>
      match Registry_Get registry (conn_ProviderID connection) with
      | None => Fail (PErrProviderNotFound (conn_ProviderID connection))
      | Some provider =>
        match findCapabilityDescriptor (prov_Capabilities provider) capability with
        | None => Ok (unsupported capability)
        | Some descriptor =>
          match pe_GrantStore e with
          | None => Ok (decide_capability descriptor capability ∅)
          | Some getSnapshot =>
            match getSnapshot connectionID with
            | Fail err => Fail (PErrStore err)
            | Ok snapshot => Ok (decide_capability descriptor capability (snapshot_set snapshot))
            end
          end
        end
      end
    end
  | _, _ => Ok (mkDecision true capability "" [] "")
  end.
End evaluator.
Arguments GrantPermissionEvaluator : clear implicits.

(** ** Connection resolution *)

Section isolation.
Context {E : Type}.
(** The text of a scope validation error ([err.Error()]). *)
Variable scope_error_text : domain_error → string.

Definition ResolveConnection (findByScope : option (string → ScopeRef → outcome E (list Connection)))
    (providerID : string) (requested : ScopeRef) : outcome E ConnectionResolution :=
  match ScopeRef_Validate requested with
  | Fail err => Ok (mkResolution ConnectionResolutionNotFound emptyConnection None (scope_error_text err))
  | Ok _ =>
    match findByScope with
    | None => Ok (mkResolution ConnectionResolutionNotFound emptyConnection None "connection store unavailable")
    | Some find =>
      match find (TrimSpace providerID) requested with
      | Fail err => Fail err
      | Ok connections =>
        let active := filter (λ c, conn_Status c = ConnectionStatusActive) connections in
        match active with
        | [c] => Ok (mkResolution ConnectionResolutionDirect c None "")
        | [] => Ok (mkResolution ConnectionResolutionNotFound emptyConnection None "no active direct connection")
        | _ => Ok (mkResolution ConnectionResolutionAmbiguous emptyConnection None
                     "multiple active direct connections found; connection_id is required")
        end
      end
    end
  end.
End isolation.

Definition allowProviderInheritance (providerID : string) (enabledProviders : list string) : bool :=
  let id := TrimSpace providerID in
  if String.eqb id "" then false
  else existsb (λ candidate, EqualFold (TrimSpace candidate) id) enabledProviders.

(** ** The capability gate *)

Section gate.
Context {MR : MapRange} {E : Type}.

Definition granted_by (snapshot : option GrantSnapshot) : gset string :=
  match snapshot with Some s => grants (gs_Granted s) | None => ∅ end.

Lemma snapshot_set_None snapshot g : snapshot_set snapshot !! g = None ↔ g ∉ granted_by snapshot.
Proof.
  unfold snapshot_set, granted_by. destruct snapshot as [s|]; [|rewrite lookup_empty; set_solver].
  rewrite <- elem_of_normalizeGrants.
  assert (H : ∀ l (set : grant_set), foldl (λ set g, <[g := tt]> set) set l !! g = None ↔ set !! g = None ∧ g ∉ l).
  { induction l as [|x l IH]; intros set; simpl; [set_solver|]. rewrite IH, lookup_insert_None. set_solver. }
  rewrite H, lookup_empty. naive_solver.
Qed.

Lemma missingGrants_lists required (snapshot : option GrantSnapshot) :
  lists_set (missingGrants required (snapshot_set snapshot)) (grants required ∖ granted_by snapshot).
Proof.
  unfold missingGrants. apply sortStrings_lists.
  - apply NoDup_filter. by destruct (normalizeGrants_lists required) as (_ & ? & _).
  - intros g. rewrite list_elem_of_filter, snapshot_set_None, elem_of_normalizeGrants. set_solver.
Qed.

Lemma missing_none required snapshot :
  (0 <? length (missingGrants required (snapshot_set snapshot))) = false ↔ grants required ⊆ granted_by snapshot.
Proof.
  pose proof (lists_set_empty _ _ (missingGrants_lists required snapshot)) as H.
  destruct (0 <? _); split; intros Hx; try done.
  - destruct H as [H _]. exfalso. apply H; [done|]. set_solver.
  - destruct (decide (grants required ∖ granted_by snapshot = ∅)) as [He|He]; [by apply empty_difference_subseteq_L|].
    by apply H in He.
Qed.

(** C19: a capability is allowed exactly when its provider has it and every grant it requires is in the
    latest snapshot of the connection (compared up to case and blanks; without a snapshot nothing is granted).
    A refusal for grants lists exactly the missing required grants, sorted; a capability that degrades lists
    exactly the missing optional ones. *)
Theorem capability_gate (e : GrantPermissionEvaluator E) connectionID capability
    getConnection registry getSnapshot connection provider snapshot :
  TrimSpace connectionID ≠ "" → TrimSpace capability ≠ "" →
  pe_ConnectionStore e = Some getConnection → pe_Registry e = Some registry → pe_GrantStore e = Some getSnapshot →
  getConnection connectionID = Ok connection → Registry_Get registry (conn_ProviderID connection) = Some provider →
  getSnapshot connectionID = Ok snapshot →
  ∃ d, EvaluateCapability e connectionID capability = Ok d ∧
    match findCapabilityDescriptor (prov_Capabilities provider) capability with
    | None => pd_Allowed d = false
    | Some desc =>
      let G := granted_by snapshot in
      (pd_Allowed d = true ↔ grants (cap_RequiredGrants desc) ⊆ G) ∧
      (pd_Allowed d = false → lists_set (pd_MissingGrants d) (grants (cap_RequiredGrants desc) ∖ G)) ∧
      (pd_Allowed d = true → cap_DeniedBehavior desc = CapabilityDeniedBehaviorDegrade →
         lists_set (pd_MissingGrants d) (grants (cap_OptionalGrants desc) ∖ G))
    end.
Proof.
  intros Hc Hk Hcs Hreg Hgs Hget Hprov Hsnap. unfold EvaluateCapability.
  apply blank_false in Hc, Hk. rewrite Hc, Hk, Hcs, Hreg, Hget, Hprov, Hgs, Hsnap.
  destruct (findCapabilityDescriptor _ _) as [desc|]; [|by eexists]. eexists. split; [done|]. cbv zeta.
  unfold decide_capability. cbv zeta. pose proof (missing_none (cap_RequiredGrants desc) snapshot) as Hreq.
  pose proof (missing_none (cap_OptionalGrants desc) snapshot) as Hopt.
  destruct (0 <? length (missingGrants (cap_RequiredGrants desc) _)).
  { simpl. split_and!; [split; [done|intros ?%Hreq; done]|intros _; apply missingGrants_lists|done]. }
  destruct (0 <? length (missingGrants (cap_OptionalGrants desc) _)); simpl;
    (destruct (String.eqb_spec (cap_DeniedBehavior desc) CapabilityDeniedBehaviorDegrade) as [Hd|Hd]); simpl;
    (split_and!; [split; [intros _; by apply Hreq|done]|done|intros _ ?]); try done; try apply missingGrants_lists.
  assert (Hs : grants (cap_OptionalGrants desc) ⊆ granted_by snapshot) by (by apply Hopt).
  split_and!; [constructor|constructor|]. set_solver.
Qed.

(** Strict isolation.  A resolution is direct only for a scope that is valid and has exactly one
    active connection among those the store finds for the trimmed provider id and that very
    scope, and then names this connection; several active connections are reported as ambiguous, never chosen
    among. *)
Theorem strict_isolation (text : domain_error → string) (find : string → ScopeRef → outcome E (list Connection))
    providerID requested res :
  ResolveConnection text (Some find) providerID requested = Ok res →
  (res_Outcome res = ConnectionResolutionDirect ↔
     ScopeRef_Validate requested = Ok tt ∧
     ∃ cs, find (TrimSpace providerID) requested = Ok cs ∧
       filter (λ c, conn_Status c = ConnectionStatusActive) cs = [res_Connection res]) ∧
  (res_Outcome res = ConnectionResolutionAmbiguous ↔
     ScopeRef_Validate requested = Ok tt ∧
     ∃ cs c1 c2 rest, find (TrimSpace providerID) requested = Ok cs ∧
       filter (λ c, conn_Status c = ConnectionStatusActive) cs = c1 :: c2 :: rest).
Proof.
  unfold ResolveConnection. destruct (ScopeRef_Validate requested) as [[]|err].
  2:{ intros [= <-]. simpl. split; split; try done; intros [? _]; done. }
  destruct (find (TrimSpace providerID) requested) as [cs|e]; [|done].
  destruct (filter _ cs) as [|c1 [|c2 rest]] eqn:Ef; intros [= <-]; simpl; split; split; intros H; try done;
    try (by split; [done|eauto 10]); destruct H as (_ & cs' & H); naive_solver congruence.
Qed.
End gate.

(** ** Concrete evaluations *)

Section demo.
#[local] Existing Instance key_order_range.
Definition demo_conn : Connection := mkConnection "c1" "gh" "org" "1" "" ConnectionStatusActive "" "" 0 0.
Definition demo_cap : CapabilityDescriptor := mkCapability "issues.write" ["repo"; "Issues "] [] "".
Definition demo_provider : Provider := mkProvider "gh" [demo_cap].
Definition demo_evaluator : GrantPermissionEvaluator string :=
  mkEvaluator (Some (λ _, Ok demo_conn)) (Some (λ _, Ok (Some (mkSnapshot "c1" 1 [] ["REPO"] 0 ∅))))
    (Some {[ "gh" := demo_provider ]}).

Lemma capability_gate_witness :
  ∃ d, EvaluateCapability demo_evaluator "c1" "Issues.Write" = Ok d ∧
    ((pd_Allowed d = true ↔ grants ["repo"; "Issues "] ⊆ grants ["REPO"]) ∧
     (pd_Allowed d = false → lists_set (pd_MissingGrants d) (grants ["repo"; "Issues "] ∖ grants ["REPO"])) ∧
     (pd_Allowed d = true → "" = CapabilityDeniedBehaviorDegrade →
        lists_set (pd_MissingGrants d) (grants [] ∖ grants ["REPO"]))).
Proof.
  apply (capability_gate demo_evaluator "c1" "Issues.Write" (λ _, Ok demo_conn) {[ "gh" := demo_provider ]}
    (λ _, Ok (Some (mkSnapshot "c1" 1 [] ["REPO"] 0 ∅))) demo_conn demo_provider
    (Some (mkSnapshot "c1" 1 [] ["REPO"] 0 ∅))).
  - vm_compute. congruence.
  - vm_compute. congruence.
  - reflexivity.
  - reflexivity.
  - reflexivity.
  - reflexivity.
  - vm_compute. reflexivity.
  - reflexivity.
Defined.

Example demo_refused :
  pd_MissingGrants <$> match EvaluateCapability demo_evaluator "c1" "Issues.Write" with Ok d => Some d | Fail _ => None end
  = Some ["issues"].
Proof. vm_compute. reflexivity. Qed.

Lemma strict_isolation_witness :
  let find := λ (_ : string) (_ : ScopeRef), Ok (E := string) [demo_conn] in
  let res := mkResolution ConnectionResolutionDirect demo_conn None "" in
  res_Outcome res = ConnectionResolutionDirect ↔
    ScopeRef_Validate (mkScopeRef "org" "1") = Ok tt ∧
    ∃ cs, find "gh" (mkScopeRef "org" "1") = Ok cs ∧
      filter (λ c, conn_Status c = ConnectionStatusActive) cs = [res_Connection res].
Proof.
  intros find res.
  apply (strict_isolation (λ _, "") find " gh" (mkScopeRef "org" "1") res).
  vm_compute. reflexivity.
Defined.
End demo.
