(* ===== verification/Refresh.v ===== *)
(** * Credential refresh (src/core/refresh_runner.go, src/core/credential_freshness.go, parts of src/core/service.go)

    The connection lock, the retry loop around [Service.Refresh], and the decisions about a
    credential: when it is to be refreshed and when the refreshed one is to be saved.  The refresh itself
    (an authentication strategy and the stores behind it) and the status update are
    parameters of the loop. *)

From S2P Require Import Prelude GoStrings GoValues Domain Contracts Backoff Grants.
From Stdlib Require Import ZArith Lia.
From stdpp Require Import base decidable list gmap strings.

Local Open Scope string_scope.
Local Open Scope nat_scope.
Local Open Scope list_scope.

(** ** The in-memory connection lock *)

Inductive lock_error := LErrIDRequired | LErrHeld (connectionID : string).

(** [locks]: the end of the lease of each locked connection. *)
Abbreviation MemoryConnectionLocker := (gmap string Time).

(** A handle: its connection, and whether its [sync.Once] has fired. *)
Record memoryLockHandle := mkHandle { lh_connectionID : string; lh_done : bool }.

Definition Lock_Acquire (locks : MemoryConnectionLocker) (now : Time) (connectionID : string) (ttl : Duration)
    : outcome lock_error memoryLockHandle * MemoryConnectionLocker :=
  let connectionID := TrimSpace connectionID in
  if String.eqb connectionID "" then (Fail LErrIDRequired, locks)
  else
    let ttl := if (ttl <=? 0)%Z then defaultRefreshLockTTL else ttl in
    let acquired := (Ok (mkHandle connectionID false), <[connectionID := addTime now ttl]> locks) in
    match locks !! connectionID with
    | Some until => if Before now until then (Fail (LErrHeld connectionID), locks) else acquired
    | None => acquired
    end.

Definition Lock_Unlock (locks : MemoryConnectionLocker) (h : memoryLockHandle) : memoryLockHandle * MemoryConnectionLocker :=
  if lh_done h then (h, locks) else (mkHandle (lh_connectionID h) true, delete (lh_connectionID h) locks).

(** ** Refresh errors *)

(** The categories of rich errors the code names (others keep their name). *)
Inductive category := CategoryAuth | CategoryAuthz | CategoryValidation | CategoryNotFound | CategoryOther (name : string).

#[export] Instance category_eq_dec : EqDecision category.
Proof. solve_decision. Defined.

(** What the code looks at in an error: category and text code of a rich error in the chain, and the message. *)
Record refresh_error := mkRefreshError { re_Rich : option (category * string); re_Message : string }.

Definition isUnrecoverableRefreshError (err : refresh_error) : bool :=
  let rich :=
    match re_Rich err with
    | None => false
    | Some (cat, textCode) =>
      bool_decide (cat ∈ [CategoryAuth; CategoryAuthz; CategoryValidation; CategoryNotFound])
      || bool_decide (TrimSpace (ToUpper textCode) ∈ ["TOKEN_EXPIRED"; "UNAUTHORIZED"; "FORBIDDEN"])
    end in
  let msg := ToLower (TrimSpace (re_Message err)) in
  rich || Contains msg "invalid_grant" || Contains msg "invalid refresh token"
  || Contains msg "reauthorization required" || Contains msg "re-auth required".

(** ** The retry loop *)

Record RefreshRunResult := mkRunResult { rr_Attempts : Z; rr_PendingReauth : bool }.
Definition emptyRunResult : RefreshRunResult := mkRunResult 0 false.

Inductive run_error :=
| RunErrIDRequired | RunErrLock (e : lock_error) | RunErrRefresh (e : refresh_error) | RunErrCancelled.

Section refresh_loop.
(** The state of the stores behind the service. *)
Context {W : Type}.
(** [s.Refresh], the [attempt]-th call. *)
Variable refresh : Z → W → outcome refresh_error unit * W.
(** [s.connectionStore.UpdateStatus id pending_reauth reason]; its error is ignored. *)
Variable update_status : string → string → string → W → W.
(** Does waiting out the [attempt]-th delay end with the context cancelled? *)
Variable cancelled : Z → Duration → bool.
Variable scheduler : option (Z → Duration).

Definition transitionConnectionToPendingReauth (connectionID : string) (source : refresh_error) (w : W) : W :=
  let reason := TrimSpace (re_Message source) in
  update_status connectionID ConnectionStatusPendingReauth (if String.eqb reason "" then "refresh failed" else reason) w.

Definition waitWithContext (attempt : Z) (delay : Duration) : bool :=
  if (delay <=? 0)%Z then false else cancelled attempt delay.

Definition retry_delay (attempt : Z) : Duration :=
  match scheduler with Some f => f attempt | None => defaultRefreshInitialBackoff end.

(** The loop from [attempt] on; [fuel] is the number of attempts left after this one. *)
Fixpoint refresh_loop (fuel : nat) (connectionID : string) (attempt : Z) (w : W)
    : RefreshRunResult * option run_error * W :=
  match refresh attempt w with
  | (Ok _, w') => (mkRunResult attempt false, None, w')
  | (Fail err, w') =>
    let stops_here := (mkRunResult attempt true, Some (RunErrRefresh err),
                    transitionConnectionToPendingReauth connectionID err w') in
    if isUnrecoverableRefreshError err then stops_here
    else match fuel with
    | O => stops_here
    | S fuel' =>
      if waitWithContext attempt (retry_delay attempt)
      then (mkRunResult attempt false, Some RunErrCancelled, w')
      else refresh_loop fuel' connectionID (attempt + 1) w'
    end
  end.

Definition effective_attempts (maxAttempts : Z) : Z :=
  if (maxAttempts <? 1)%Z then defaultRefreshMaxAttempts else maxAttempts.

(** The lock is held around the loop and released when it returns; [None] is no locker. *)
Definition RunRefreshWithRetry (locks : option MemoryConnectionLocker) (now : Time) (requestID : string)
    (maxAttempts : Z) (lockTTL : Duration) (w : W)
    : RefreshRunResult * option run_error * option MemoryConnectionLocker * W :=
  let connectionID := TrimSpace requestID in
  if String.eqb connectionID "" then (emptyRunResult, Some RunErrIDRequired, locks, w)
  else
    let maxAttempts := effective_attempts maxAttempts in
    let lockTTL := if (lockTTL <=? 0)%Z then defaultRefreshLockTTL else lockTTL in
    let loop := refresh_loop (Z.to_nat (maxAttempts - 1)) connectionID 1 w in
    match locks with
    | None => (loop.1.1, loop.1.2, None, loop.2)
    | Some ls =>
      match Lock_Acquire ls now connectionID lockTTL with
      | (Fail e, ls') => (emptyRunResult, Some (RunErrLock e), Some ls', w)
      | (Ok handle, ls') => (loop.1.1, loop.1.2, Some (Lock_Unlock ls' handle).2, loop.2)
      end
    end.
End refresh_loop.

(** ** Credentials *)

Definition DefaultCredentialExpiringSoonWindow : Duration := (5 * Minute)%Z.
Definition DefaultCredentialRefreshLeadWindow : Duration := (5 * Minute)%Z.

Record CredentialTokenState := mkTokenState {
  ts_ExpiresAt : option Time; ts_HasAccessToken : bool; ts_HasRefreshToken : bool;
  ts_CanAutoRefresh : bool; ts_IsExpired : bool; ts_IsExpiringSoon : bool }.

(** [clock] is what [time.Now] reads where the given time is zero. *)
Definition ResolveCredentialTokenState (clock now : Time) (credential : ActiveCredential) (expiringSoonWindow : Duration)
    : CredentialTokenState :=
  let now := if IsZero now then clock else now in
  let window := if (expiringSoonWindow <=? 0)%Z then DefaultCredentialExpiringSoonWindow else expiringSoonWindow in
  let hasAccess := negb (blank (ac_AccessToken credential)) in
  let hasRefresh := negb (blank (ac_RefreshToken credential)) in
  let canAuto := ac_Refreshable credential && hasRefresh in
  match ac_ExpiresAt credential with
  | None => mkTokenState None hasAccess hasRefresh canAuto false false
  | Some expiresAt =>
    if negb (After expiresAt now) then mkTokenState (Some expiresAt) hasAccess hasRefresh canAuto true false
    else mkTokenState (Some expiresAt) hasAccess hasRefresh canAuto false (negb (After expiresAt (addTime now window)))
  end.

Definition ShouldRefreshCredential (clock now : Time) (state : CredentialTokenState) (refreshLeadWindow : Duration) : bool :=
  if negb (ts_CanAutoRefresh state) then false
  else if negb (ts_HasAccessToken state) then true
  else match ts_ExpiresAt state with
  | None => false
  | Some expiresAt =>
    let lead := if (refreshLeadWindow <=? 0)%Z then DefaultCredentialRefreshLeadWindow else refreshLeadWindow in
    let now := if IsZero now then clock else now in
    negb (After expiresAt (addTime now lead))
  end.

Definition resolveRefreshGrantedGrants (result : RefreshResult) : list string :=
  if 0 <? length (rr_GrantedGrants result) then rr_GrantedGrants result
  else if 0 <? length (ac_GrantedScopes (rr_Credential result)) then ac_GrantedScopes (rr_Credential result)
  else [].

Section persist.
Context {MR : MapRange}.

Definition sameStringSliceSet (left right : list string) : bool :=
  let lset := toGrantSet left in
  let rset := toGrantSet right in
  if negb (size lset =? size rset) then false
  else forallb (λ v, bool_decide (is_Some (rset !! v))) (map_range lset).*1.

Definition sameTimePointer (left right : option Time) : bool :=
  match left, right with
  | None, None => true
  | Some l, Some r => (l =? r)%Z
  | _, _ => false
  end.

Definition shouldPersistRefreshedCredential (current refreshed : ActiveCredential) : bool :=
  let currentToken := TrimSpace (ac_AccessToken current) in
  let refreshedToken := TrimSpace (ac_AccessToken refreshed) in
  if negb (EqualFold (TrimSpace (ac_TokenType current)) (TrimSpace (ac_TokenType refreshed))) then true
  else if negb (String.eqb refreshedToken "") && negb (String.eqb currentToken refreshedToken) then true
  else if String.eqb refreshedToken "" && String.eqb currentToken ""
          && negb (blank (ac_RefreshToken refreshed))
          && negb (String.eqb (TrimSpace (ac_RefreshToken current)) (TrimSpace (ac_RefreshToken refreshed))) then true
  else if negb (Bool.eqb (ac_Refreshable current) (ac_Refreshable refreshed)) then true
  else if negb (sameStringSliceSet (ac_RequestedScopes current) (ac_RequestedScopes refreshed)) then true
  else if negb (sameStringSliceSet (ac_GrantedScopes current) (ac_GrantedScopes refreshed)) then true
  else if negb (sameTimePointer (ac_ExpiresAt current) (ac_ExpiresAt refreshed)) then true
  else if negb (sameTimePointer (ac_RotatesAt current) (ac_RotatesAt refreshed)) then true
  else false.
End persist.

(** ** Lock theorems *)

Inductive lock_op :=
| OpAcquire (now : Time) (connectionID : string) (ttl : Duration)
| OpUnlock (h : memoryLockHandle).

Definition lock_step (locks : MemoryConnectionLocker) (op : lock_op) : MemoryConnectionLocker :=
  match op with
  | OpAcquire now id ttl => (Lock_Acquire locks now id ttl).2
  | OpUnlock h => (Lock_Unlock locks h).2
  end.
Definition lock_run : MemoryConnectionLocker → list lock_op → MemoryConnectionLocker := foldl lock_step.

Definition effective_ttl (ttl : Duration) : Duration := if (ttl <=? 0)%Z then defaultRefreshLockTTL else ttl.

Lemma Acquire_ok locks now id ttl h locks' :
  Lock_Acquire locks now id ttl = (Ok h, locks') →
  TrimSpace id ≠ "" ∧ h = mkHandle (TrimSpace id) false ∧ locks' = <[TrimSpace id := (now + effective_ttl ttl)%Z]> locks ∧
  (∀ until, locks !! TrimSpace id = Some until → (until ≤ now)%Z).
Proof.
  unfold Lock_Acquire. destruct (String.eqb_spec (TrimSpace id) ""); [done|]. fold (effective_ttl ttl).
  destruct (locks !! TrimSpace id) as [until|]; [destruct (Before now until) eqn:Hb; [done|]|];
    intros [= <- <-]; split_and!; auto; intros ? [= <-]; by go_times.
Qed.

Lemma Acquire_held locks now id ttl until :
  TrimSpace id ≠ "" → locks !! TrimSpace id = Some until → (now < until)%Z →
  Lock_Acquire locks now id ttl = (Fail (LErrHeld (TrimSpace id)), locks).
Proof.
  intros Hne Hu Hlt. unfold Lock_Acquire. destruct (String.eqb_spec (TrimSpace id) ""); [done|].
  rewrite Hu. by assert (Before now until = true) as -> by (by apply Before_lt).
Qed.

(** What others may do without touching the lock of a connection before [until]. *)
Definition lock_bystander (k : string) (until : Time) (op : lock_op) : Prop :=
  match op with
  | OpAcquire now _ _ => (now < until)%Z
  | OpUnlock h => lh_done h = true ∨ lh_connectionID h ≠ k
  end.

Lemma lock_run_kept locks ops k until :
  locks !! k = Some until → Forall (lock_bystander k until) ops → lock_run locks ops !! k = Some until.
Proof.
  intros Hk Hops. revert locks Hk. induction Hops as [|op ops Hop _ IH]; intros locks Hk; [done|]. apply IH.
  destruct op as [now id ttl|h]; simpl in *.
  - destruct (Lock_Acquire locks now id ttl) as [[h|e] locks'] eqn:E.
    + destruct (Acquire_ok _ _ _ _ _ _ E) as (_ & _ & -> & Hu). simpl.
      rewrite lookup_insert_ne; [done|]. intros <-. specialize (Hu _ Hk). lia.
    + unfold Lock_Acquire in E. by go_cases_in E.
  - unfold Lock_Unlock. destruct (lh_done h) eqn:Hd; [done|]. simpl. destruct Hop as [|Hne]; [done|].
    by rewrite lookup_delete_ne.
Qed.

(** The refresh lock excludes.  Once a connection is locked, every attempt to lock it before the end of
    the lease fails and leaves the locks unchanged, whatever locks are taken in between, as long as no
    handle of this connection that is still usable is unlocked. *)
Theorem refresh_lock_exclusive locks now id ttl h locks' ops t id' ttl' :
  Lock_Acquire locks now id ttl = (Ok h, locks') →
  Forall (lock_bystander (TrimSpace id) (now + effective_ttl ttl)) ops →
  (t < now + effective_ttl ttl)%Z → TrimSpace id' = TrimSpace id →
  Lock_Acquire (lock_run locks' ops) t id' ttl' = (Fail (LErrHeld (TrimSpace id)), lock_run locks' ops).
Proof.
  intros Ha Hops Ht Hid. destruct (Acquire_ok _ _ _ _ _ _ Ha) as (Hne & _ & -> & _).
  rewrite <- Hid. apply (Acquire_held _ _ _ _ (now + effective_ttl ttl)%Z); rewrite ?Hid; auto.
  apply lock_run_kept; [apply lookup_insert_eq|done].
Qed.

(** An expired holder breaks the lock of its successor (a defect of the code: handles carry no
    token).  When the lease of a first holder has run out, a second one has locked the connection, and the
    first one then unlocks, a third party obtains the lock although the second lease has not ended. *)
Theorem stale_unlock_breaks_exclusion locks t1 id ttl1 h1 locks1 t2 ttl2 h2 locks2 t3 ttl3 :
  Lock_Acquire locks t1 id ttl1 = (Ok h1, locks1) →
  Lock_Acquire locks1 t2 id ttl2 = (Ok h2, locks2) →
  (t3 < t2 + effective_ttl ttl2)%Z →
  ∃ h3 locks3, Lock_Acquire (Lock_Unlock locks2 h1).2 t3 id ttl3 = (Ok h3, locks3) ∧
    (Lock_Acquire locks2 t3 id ttl3).1 = Fail (LErrHeld (TrimSpace id)).
Proof.
  intros H1 H2 Ht. destruct (Acquire_ok _ _ _ _ _ _ H1) as (Hne & -> & -> & _).
  destruct (Acquire_ok _ _ _ _ _ _ H2) as (_ & _ & -> & _).
  unfold Lock_Unlock. simpl. unfold Lock_Acquire at 1. destruct (String.eqb_spec (TrimSpace id) ""); [done|].
  rewrite lookup_delete_eq. do 2 eexists. split; [reflexivity|].
  by erewrite Acquire_held; [..|apply lookup_insert_eq|].
Qed.

(** ** The retry loop *)

Section loop_theorems.
Context {W : Type}.
Variable refresh : Z → W → outcome refresh_error unit * W.
Variable update_status : string → string → string → W → W.
Variable cancelled : Z → Duration → bool.
Variable scheduler : option (Z → Duration).
Abbreviation loop := (refresh_loop refresh update_status cancelled scheduler).
Abbreviation stopped := (λ k, waitWithContext cancelled k (retry_delay scheduler k)).

(** The stores after the first [k] refresh calls. *)
Fixpoint after_refreshes (w : W) (k : nat) : W :=
  match k with O => w | S k' => (refresh (Z.of_nat k) (after_refreshes w k')).2 end.
Definition refresh_outcome (w : W) (k : nat) : outcome refresh_error unit := (refresh (Z.of_nat (S k)) (after_refreshes w k)).1.

(** How a run that made [n] calls may end. *)
Definition run_ends (connectionID : string) (w : W) (max : Z) (n : nat)
    (res : RefreshRunResult * option run_error * W) : Prop :=
  let w' := after_refreshes w n in
  match refresh_outcome w (pred n) with
  | Ok _ => res = (mkRunResult (Z.of_nat n) false, None, w')
  | Fail err =>
    if isUnrecoverableRefreshError err || (Z.of_nat n =? max)%Z
    then res = (mkRunResult (Z.of_nat n) true, Some (RunErrRefresh err),
                transitionConnectionToPendingReauth update_status connectionID err w')
    else stopped (Z.of_nat n) = true ∧ res = (mkRunResult (Z.of_nat n) false, Some RunErrCancelled, w')
  end.

(** A call after which the loop goes on. *)
Definition goes_on (w : W) (k : nat) : Prop :=
  ∃ err, refresh_outcome w k = Fail err ∧ isUnrecoverableRefreshError err = false ∧ stopped (Z.of_nat (S k)) = false.

Lemma refresh_loop_spec fuel connectionID w k :
  (∀ j, j < k → goes_on w j) →
  ∃ n, (k < n ≤ k + S fuel) ∧ (∀ j, j < pred n → goes_on w j) ∧
    run_ends connectionID w (Z.of_nat (k + S fuel)) n
      (loop fuel connectionID (Z.of_nat (S k)) (after_refreshes w k)).
Proof.
  revert k. induction fuel as [|fuel IH]; intros k Hgo; cbn [refresh_loop];
    destruct (refresh (Z.of_nat (S k)) (after_refreshes w k)) as [o w'] eqn:E;
    assert (Ho : refresh_outcome w k = o) by (unfold refresh_outcome; by rewrite E);
    assert (Hw : after_refreshes w (S k) = w') by (cbn [after_refreshes]; by rewrite E).
  - exists (S k). split; [lia|]. split; [done|]. unfold run_ends. rewrite Hw. simpl pred. rewrite Ho.
    destruct o as [u|err]; [done|]. rewrite Nat.add_1_r, Z.eqb_refl, orb_true_r.
    by destruct (isUnrecoverableRefreshError err).
  - destruct o as [u|err].
    + exists (S k). split; [lia|]. split; [done|]. unfold run_ends. rewrite Hw. simpl pred. by rewrite Ho.
    + destruct (isUnrecoverableRefreshError err) eqn:Hu.
      { exists (S k). split; [lia|]. split; [done|]. unfold run_ends. rewrite Hw. simpl pred. by rewrite Ho, Hu. }
      destruct (stopped (Z.of_nat (S k))) eqn:Hs.
      { exists (S k). split; [lia|]. split; [done|]. unfold run_ends. rewrite Hw. simpl pred. rewrite Ho, Hu.
        assert ((Z.of_nat (S k) =? Z.of_nat (k + S (S fuel)))%Z = false) as -> by (apply Z.eqb_neq; lia). done. }
      destruct (IH (S k)) as (n & Hn & Hgo' & Hend).
      { intros j Hj. destruct (decide (j = k)) as [->|]; [|apply Hgo; lia]. by exists err. }
      exists n. split; [lia|]. split; [done|]. rewrite Hw in Hend.
      replace (Z.of_nat (S k) + 1)%Z with (Z.of_nat (S (S k))) by lia.
      replace (k + S (S fuel)) with (S k + S fuel) by lia. exact Hend.
Qed.

(** A refresh run ends, and ends right.  With the lock obtained, the run makes between one and
    the maximum number of refresh calls (3 by default); every call but the last failed with an error
    that may be retried; after the last, the run either returns the success, or has moved the
    connection to pending re-authentication because the error was unrecoverable or the attempts were used
    up, or was cancelled while waiting, without touching the connection's status in these cases.  The lock is
    free again afterwards. *)
Theorem refresh_run_outcome locks now requestID maxAttempts lockTTL w h locks' :
  Lock_Acquire locks now (TrimSpace requestID) (effective_ttl lockTTL) = (Ok h, locks') →
  let max := effective_attempts maxAttempts in
  let res := RunRefreshWithRetry refresh update_status cancelled scheduler (Some locks) now requestID maxAttempts lockTTL w in
  ∃ n, (1 ≤ Z.of_nat n ≤ max)%Z ∧ (∀ j, j < pred n → goes_on w j) ∧
    run_ends (TrimSpace requestID) w max n (res.1.1.1, res.1.1.2, res.2) ∧
    res.1.2 = Some (delete (TrimSpace requestID) locks).
Proof.
  intros Ha max res. destruct (Acquire_ok _ _ _ _ _ _ Ha) as (Hne & Hh & Hl & _). rewrite TrimSpace_idem in Hne, Hh, Hl.
  unfold res, RunRefreshWithRetry. destruct (String.eqb_spec (TrimSpace requestID) "") as [|_]; [done|]. cbv zeta.
  fold (effective_ttl lockTTL). rewrite Ha. fold max. simpl.
  assert (Hmax : (1 ≤ max)%Z) by (unfold max, effective_attempts, defaultRefreshMaxAttempts; destruct (Z.ltb_spec maxAttempts 1); lia).
  destruct (refresh_loop_spec (Z.to_nat (max - 1)) (TrimSpace requestID) w 0) as (n & Hn & Hgo & Hend); [lia|].
  replace (Z.of_nat (0 + S (Z.to_nat (max - 1)))) with max in Hend by lia.
  exists n. split; [lia|]. split; [done|]. simpl in Hend. split.
  - change (Z.of_nat 1) with 1%Z in Hend. by destruct (loop (Z.to_nat (max - 1)) (TrimSpace requestID) 1 w) as [[r e] w'].
  - rewrite Hh, Hl. unfold Lock_Unlock. simpl. by rewrite delete_insert_eq.
Qed.
End loop_theorems.

(** ** Saving a refreshed credential *)

Section persist_theorems.
Context {MR : MapRange}.

Lemma sameStringSliceSet_true l r : sameStringSliceSet l r = true ↔ grants l = grants r.
Proof.
  unfold sameStringSliceSet. rewrite <- !size_dom. fold (grants l) (grants r).
  assert (Hsub : forallb (λ v, bool_decide (is_Some (toGrantSet r !! v))) (map_range (toGrantSet l)).*1 = true
    ↔ grants l ⊆ grants r).
  { rewrite forallb_forall. split.
    - intros H g Hg. specialize (H g). rewrite <- list_elem_of_In, keys_perm, elem_of_elements, bool_decide_eq_true in H.
      unfold grants. rewrite elem_of_dom. by apply H.
    - intros H g. rewrite <- list_elem_of_In, keys_perm, elem_of_elements, bool_decide_eq_true, <- elem_of_dom. apply H. }
  destruct (Nat.eqb_spec (size (grants l)) (size (grants r))) as [Hs|Hs]; simpl.
  - rewrite Hsub. split; [|intros ->; done]. intros Hsub'. apply leibniz_equiv, set_subseteq_size_equiv; [done|lia].
  - split; [done|]. intros Heq. by rewrite Heq in Hs.
Qed.

Lemma sameTimePointer_true l r : sameTimePointer l r = true ↔ l = r.
Proof. destruct l, r; simpl; rewrite ?Z.eqb_eq; naive_solver. Qed.

Lemma tail_agrees current refreshed :
  (if negb (Bool.eqb (ac_Refreshable current) (ac_Refreshable refreshed)) then true
   else if negb (sameStringSliceSet (ac_RequestedScopes current) (ac_RequestedScopes refreshed)) then true
   else if negb (sameStringSliceSet (ac_GrantedScopes current) (ac_GrantedScopes refreshed)) then true
   else if negb (sameTimePointer (ac_ExpiresAt current) (ac_ExpiresAt refreshed)) then true
   else if negb (sameTimePointer (ac_RotatesAt current) (ac_RotatesAt refreshed)) then true else false) = false →
  ac_Refreshable current = ac_Refreshable refreshed ∧
  grants (ac_RequestedScopes current) = grants (ac_RequestedScopes refreshed) ∧
  grants (ac_GrantedScopes current) = grants (ac_GrantedScopes refreshed) ∧
  ac_ExpiresAt current = ac_ExpiresAt refreshed ∧ ac_RotatesAt current = ac_RotatesAt refreshed.
Proof.
  destruct (Bool.eqb _ _) eqn:H1; simpl; [|done].
  destruct (sameStringSliceSet (ac_RequestedScopes _) _) eqn:H2; simpl; [|done].
  destruct (sameStringSliceSet (ac_GrantedScopes _) _) eqn:H3; simpl; [|done].
  destruct (sameTimePointer (ac_ExpiresAt _) _) eqn:H4; simpl; [|done].
  destruct (sameTimePointer (ac_RotatesAt _) _) eqn:H5; simpl; [|done]. intros _.
  split_and!; [by apply eqb_prop|by apply sameStringSliceSet_true|by apply sameStringSliceSet_true
    |by apply sameTimePointer_true|by apply sameTimePointer_true].
Qed.

(** What an unsaved refresh can lose.  When the service decides not to save the refreshed credential, the
    credential it keeps has the same token type (up to case), refreshability, requested and granted scopes (as
    sets), expiry and rotation times, and the same access token unless the provider returned none; and
    whenever the provider returned an access token, the refresh token it returned plays no part in
    the decision, so a rotated refresh token that comes with an unchanged access token is not saved. *)
Theorem unsaved_refresh_agrees current refreshed :
  (shouldPersistRefreshedCredential current refreshed = false →
     EqualFold (TrimSpace (ac_TokenType current)) (TrimSpace (ac_TokenType refreshed)) = true ∧
     (TrimSpace (ac_AccessToken refreshed) = "" ∨ TrimSpace (ac_AccessToken current) = TrimSpace (ac_AccessToken refreshed)) ∧
     ac_Refreshable current = ac_Refreshable refreshed ∧
     grants (ac_RequestedScopes current) = grants (ac_RequestedScopes refreshed) ∧
     grants (ac_GrantedScopes current) = grants (ac_GrantedScopes refreshed) ∧
     ac_ExpiresAt current = ac_ExpiresAt refreshed ∧ ac_RotatesAt current = ac_RotatesAt refreshed) ∧
  (∀ token, TrimSpace (ac_AccessToken refreshed) ≠ "" →
     shouldPersistRefreshedCredential current refreshed =
     shouldPersistRefreshedCredential current
       (mkActiveCredential (ac_ConnectionID refreshed) (ac_TokenType refreshed) (ac_AccessToken refreshed) token
          (ac_RequestedScopes refreshed) (ac_GrantedScopes refreshed) (ac_ExpiresAt refreshed) (ac_Refreshable refreshed)
          (ac_RotatesAt refreshed) (ac_Metadata refreshed))).
Proof.
  unfold shouldPersistRefreshedCredential. cbv zeta. split.
  - destruct (EqualFold _ _); simpl; [|done].
    destruct (String.eqb_spec (TrimSpace (ac_AccessToken refreshed)) "") as [Hr|Hr]; simpl.
    + destruct (String.eqb (TrimSpace (ac_AccessToken current)) "" && _ && _); [done|]. intros H.
      split; [done|]. split; [by left|]. revert H. apply tail_agrees.
    + destruct (String.eqb_spec (TrimSpace (ac_AccessToken current)) (TrimSpace (ac_AccessToken refreshed))) as [Hc|]; simpl; [|done].
      intros H. split; [done|]. split; [by right|]. revert H. apply tail_agrees.
  - intros token Hr. simpl. by destruct (String.eqb_spec (TrimSpace (ac_AccessToken refreshed)) ""); [done|].
Qed.
End persist_theorems.

(** ** Concrete runs *)

Definition demo_lock := Lock_Acquire ∅ 100 "c1" 30.

Lemma refresh_lock_exclusive_witness :
  Lock_Acquire (lock_run demo_lock.2 [OpAcquire 110 "c2" 5; OpUnlock (mkHandle "c2" false)]) 129 " c1" 5
  = (Fail (LErrHeld "c1"), lock_run demo_lock.2 [OpAcquire 110 "c2" 5; OpUnlock (mkHandle "c2" false)]).
Proof.
  apply (refresh_lock_exclusive ∅ 100 "c1" 30 (mkHandle "c1" false) demo_lock.2).
  - vm_compute. reflexivity.
  - constructor; [vm_compute; reflexivity|]. constructor; [right; vm_compute; congruence|]. constructor.
  - vm_compute. reflexivity.
  - reflexivity.
Defined.

Lemma stale_unlock_breaks_exclusion_witness :
  let second := Lock_Acquire demo_lock.2 131 "c1" 30 in
  ∃ h3 locks3, Lock_Acquire (Lock_Unlock second.2 (mkHandle "c1" false)).2 140 "c1" 30 = (Ok h3, locks3) ∧
    (Lock_Acquire second.2 140 "c1" 30).1 = Fail (LErrHeld "c1").
Proof.
  intros second.
  apply (stale_unlock_breaks_exclusion ∅ 100 "c1" 30 (mkHandle "c1" false) demo_lock.2 131 30 (mkHandle "c1" false) second.2 140 30).
  - vm_compute. reflexivity.
  - vm_compute. reflexivity.
  - vm_compute. reflexivity.
Defined.

(** The first call times out, the second is told that the grant is invalid. *)
Definition demo_refresh (attempt : Z) (w : list string) : outcome refresh_error unit * list string :=
  (Fail (mkRefreshError None (if (attempt =? 1)%Z then "timeout" else "oauth: Invalid_Grant")), w).
Definition demo_update (id status reason : string) (w : list string) : list string := reason :: w.

Lemma refresh_run_outcome_witness :
  let res := RunRefreshWithRetry demo_refresh demo_update (λ _ _, false) None (Some ∅) 100 " c1" 0 0 [] in
  ∃ n, (1 ≤ Z.of_nat n ≤ 3)%Z ∧ (∀ j, j < pred n → goes_on demo_refresh (λ _ _, false) None [] j) ∧
    run_ends demo_refresh demo_update (λ _ _, false) None "c1" [] 3 n (res.1.1.1, res.1.1.2, res.2) ∧
    res.1.2 = Some (delete "c1" ∅).
Proof.
  apply (refresh_run_outcome demo_refresh demo_update (λ _ _, false) None ∅ 100 " c1" 0 0 []
    (mkHandle "c1" false) (<["c1" := (100 + defaultRefreshLockTTL)%Z]> ∅)).
  vm_compute. reflexivity.
Defined.

(** A rotated refresh token is dropped. *)
Example rotated_refresh_token_not_saved :
  let cred token := mkActiveCredential "c1" "bearer" "at" token [] [] None true None ∅ in
  shouldPersistRefreshedCredential (MR := key_order_range) (cred "rt-1") (cred "rt-2") = false.
Proof. vm_compute. reflexivity. Qed.
