(* ===== verification/ServiceTypes.v ===== *)
(** * Types and interfaces of the service (src/core/contracts.go, src/core/auth_strategy_runtime.go)

    The requests and results of the service's operations, the store interfaces it is written against, and
    the authentication strategies, which are what the service sees of a provider. *)

From S2P Require Import Prelude GoStrings GoValues Domain OAuthState Contracts Permissions.
From Stdlib Require Import ZArith.
From stdpp Require Import base decidable list gmap strings.

Local Open Scope string_scope.
Local Open Scope list_scope.

(** ** Inputs of the stores *)

Record CreateConnectionInput := mkCreateConnection {
  cc_ProviderID : string; cc_Scope : ScopeRef; cc_ExternalAccountID : string; cc_Status : string }.

Record SaveCredentialInput := mkSaveCredential {
  sc_ConnectionID : string; sc_EncryptedPayload : string; sc_PayloadFormat : string; sc_PayloadVersion : Z;
  sc_TokenType : string; sc_RequestedScopes : list string; sc_GrantedScopes : list string;
  sc_ExpiresAt : option Time; sc_Refreshable : bool; sc_RotatesAt : option Time; sc_Status : string;
  sc_EncryptionKeyID : string; sc_EncryptionVersion : Z }.

(** The stores of one database [W].  The environment of a call is its clock, a fresh identifier and the faults of its
    statements. *)
Class ConnectionStore (E W : Type) := {
  cs_Create : W → CallEnv → CreateConnectionInput → outcome E Connection * W;
  cs_Get : W → CallEnv → string → outcome E Connection;
  cs_FindByScope : W → CallEnv → string → ScopeRef → outcome E (list Connection);
  cs_FindByScopeAndExternalAccount : W → CallEnv → string → ScopeRef → string → outcome E (option Connection);
  cs_UpdateStatus : W → CallEnv → string → string → string → outcome E unit * W }.

Class CredentialStore (E W : Type) := {
  ks_SaveNewVersion : W → CallEnv → SaveCredentialInput → outcome E Credential * W;
  ks_GetActiveByConnection : W → CallEnv → string → outcome E Credential;
  ks_RevokeActive : W → CallEnv → string → string → outcome E unit * W }.

(** ** Authentication strategies *)

Record AuthBeginRequest := mkAuthBegin {
  ab_Scope : ScopeRef; ab_RedirectURI : string; ab_State : string; ab_RequestedRaw : list string;
  ab_Metadata : gmap string value }.

(** [AuthBeginResponse] and [BeginAuthResponse] have the same fields. *)
Record BeginAuthResponse := mkBeginResponse {
  br_URL : string; br_State : string; br_RequestedGrants : list string; br_Metadata : gmap string value }.

Record BeginAuthRequest := mkBeginAuth {
  ba_ProviderID : string; ba_Scope : ScopeRef; ba_RedirectURI : string; ba_State : string;
  ba_RequestedGrants : list string; ba_Metadata : gmap string value }.

Record AuthCompleteRequest := mkAuthComplete {
  aq_Scope : ScopeRef; aq_Code : string; aq_State : string; aq_RedirectURI : string; aq_Metadata : gmap string value }.

(** [AuthCompleteResponse] and [CompleteAuthResponse] have the same fields. *)
Record AuthCompleteResponse := mkCompleteResponse {
  ar_ExternalAccountID : string; ar_Credential : ActiveCredential; ar_RequestedGrants : list string;
  ar_GrantedGrants : list string; ar_Metadata : gmap string value }.

Definition AuthKindOAuth2AuthCode := "oauth2_auth_code".

Record AuthStrategy := mkStrategy {
  as_Type : string;
  as_Begin : AuthBeginRequest → outcome string BeginAuthResponse;
  as_Complete : AuthCompleteRequest → outcome string AuthCompleteResponse;
  as_Refresh : ActiveCredential → outcome string RefreshResult }.

(** The methods of a provider, with those of the optional interfaces [AuthStrategyProvider] and
    [GrantAwareProvider]. *)
Record ProviderMethods := mkMethods {
  pm_AuthKind : string;
  pm_BeginAuth : BeginAuthRequest → outcome string BeginAuthResponse;
  pm_CompleteAuth : CompleteAuthRequest → outcome string AuthCompleteResponse;
  pm_Refresh : ActiveCredential → outcome string RefreshResult;
  pm_AuthStrategy : option AuthStrategy;
  pm_NormalizeGrantedPermissions : option (list string → outcome string (list string)) }.

Definition normalizeAuthKind (kind : string) : string := TrimSpace (ToLower kind).

Definition authKindRequiresCallbackState (kind : string) : bool :=
  let normalized := normalizeAuthKind kind in
  String.eqb normalized AuthKindOAuth2AuthCode || String.eqb normalized "oauth2".

Definition strategyRequiresCallbackState (strategy : AuthStrategy) : bool :=
  authKindRequiresCallbackState (as_Type strategy).

Definition providerBackedAuthStrategy (provider : Provider) (m : ProviderMethods) : AuthStrategy :=
  mkStrategy (normalizeAuthKind (pm_AuthKind m))
    (λ req, pm_BeginAuth m (mkBeginAuth (prov_ID provider) (ab_Scope req) (ab_RedirectURI req) (ab_State req)
              (ab_RequestedRaw req) (copyAnyMap (ab_Metadata req))))
    (λ req, pm_CompleteAuth m (mkCompleteAuth (prov_ID provider) (aq_Scope req) (aq_Code req) (aq_State req)
              (aq_RedirectURI req) (copyAnyMap (aq_Metadata req))))
    (pm_Refresh m).

Definition resolveAuthStrategy (provider : Provider) (m : ProviderMethods) : AuthStrategy :=
  match pm_AuthStrategy m with
  | Some strategy => strategy
  | None => providerBackedAuthStrategy provider m
  end.

(** ** Requests and results of the service *)

Record ConnectRequest := mkConnect {
  cq_ProviderID : string; cq_Scope : ScopeRef; cq_RedirectURI : string; cq_State : string;
  cq_RequestedGrants : list string; cq_Metadata : gmap string value }.

Record ReconsentRequest := mkReconsent {
  rc_ConnectionID : string; rc_RedirectURI : string; rc_State : string; rc_RequestedGrants : list string;
  rc_Metadata : gmap string value }.

Record CallbackCompletion := mkCompletion { cp_Connection : Connection; cp_Credential : Credential }.

Record RefreshRequest := mkRefreshRequest {
  rq_ProviderID : string; rq_ConnectionID : string; rq_Credential : option ActiveCredential }.

Record InvokeCapabilityRequest := mkInvoke {
  iq_ProviderID : string; iq_Scope : ScopeRef; iq_Capability : string; iq_Payload : gmap string value;
  iq_ConnectionID : string }.

Record CapabilityResult := mkCapabilityResult {
  cr_Allowed : bool; cr_Mode : string; cr_Reason : string; cr_Connection : Connection;
  cr_Metadata : gmap string value }.

Definition CallbackURLResolveFlowConnect := "connect".
Definition CallbackURLResolveFlowReconsent := "reconsent".

Record CallbackURLResolveRequest := mkResolveURL {
  cu_ProviderID : string; cu_Scope : ScopeRef; cu_ConnectionID : string; cu_Flow : string;
  cu_RequestedGrants : list string; cu_Metadata : gmap string value }.
