(* ===== verification/Connections.v ===== *)
(** * The database of the service: connections, credentials, grants
    (src/store/sql/connection_store.go, credential_store.go, domain_adapters.go, models.go)

    The tables are maps from their keys to rows, each statement or transaction is one step, and the unique
    indexes of the schema are checked where rows are inserted.  Identifiers are assigned by the repository:
    the environment's uuid.  [UpdateStatus] reads a row and writes it back; as no operation changes another
    column, this is one update of its status columns. *)

From S2P Require Import Prelude GoStrings GoValues Domain Contracts Grants ServiceTypes.
From Stdlib Require Import ZArith Lia.
From stdpp Require Import base decidable list gmap strings sorting.

Local Open Scope string_scope.
Local Open Scope nat_scope.
Local Open Scope list_scope.

(** ** Rows *)

Record connectionRecord := mkConnectionRecord {
  cn_ID : string; cn_ProviderID : string; cn_ScopeType : string; cn_ScopeID : string;
  cn_ExternalAccountID : string; cn_Status : string; cn_InheritsFromConnectionID : option string;
  cn_LastError : string; cn_CreatedAt : Time; cn_UpdatedAt : Time; cn_DeletedAt : option Time }.

Record credentialRecord := mkCredentialRecord {
  kr_ID : string; kr_ConnectionID : string; kr_Version : Z; kr_EncryptedPayload : string; kr_PayloadFormat : string;
  kr_PayloadVersion : Z; kr_TokenType : string; kr_RequestedScopes : list string; kr_GrantedScopes : list string;
  kr_ExpiresAt : option Time; kr_RotatesAt : option Time; kr_Refreshable : bool; kr_Status : string;
  kr_GrantVersion : Z; kr_EncryptionKeyID : string; kr_EncryptionVersion : Z; kr_RevocationReason : string;
  kr_CreatedAt : Time; kr_UpdatedAt : Time }.

Abbreviation connection_table := (gmap string connectionRecord).
Abbreviation credential_table := (gmap (string * Z) credentialRecord).

Record ServiceDB := mkServiceDB {
  db_connections : connection_table; db_credentials : credential_table;
  db_snapshots : gmap (string * Z) grantSnapshotRecord; db_grant_events : list grantEventRecord }.

Inductive sql_error :=
| SqlErrScope (e : domain_error) | SqlErrProviderRequired | SqlErrExternalAccountRequired
| SqlErrConnectionRequired | SqlErrNotFound (id : string) | SqlErrDuplicateKey
| SqlErrPayloadRequired | SqlErrKeyIDRequired | SqlErrKeyVersion
| SqlErrNoActiveCredential (connectionID : string)
| SqlErrGrants (e : grant_error) | SqlErrDatabase (cause : string).

Definition with_connections (db : ServiceDB) (t : connection_table) : ServiceDB :=
  mkServiceDB t (db_credentials db) (db_snapshots db) (db_grant_events db).
Definition with_credentials (db : ServiceDB) (t : credential_table) : ServiceDB :=
  mkServiceDB (db_connections db) t (db_snapshots db) (db_grant_events db).

(** ** Connections *)

(** The row of a new connection, with the identifier the repository gives it. *)
Definition newConnectionRecord (id : string) (input : CreateConnectionInput) (now : Time) : connectionRecord :=
  mkConnectionRecord id (cc_ProviderID input) (scope_Type (cc_Scope input)) (scope_ID (cc_Scope input))
    (cc_ExternalAccountID input) (cc_Status input) None "" now now None.

Definition connection_toDomain (r : connectionRecord) : Connection :=
  mkConnection (cn_ID r) (cn_ProviderID r) (cn_ScopeType r) (cn_ScopeID r) (cn_ExternalAccountID r) (cn_Status r)
    (default "" (cn_InheritsFromConnectionID r)) (cn_LastError r) (cn_CreatedAt r) (cn_UpdatedAt r).

Definition live_row (r : connectionRecord) : bool := match cn_DeletedAt r with None => true | Some _ => false end.

(** [uq_service_connections_active_scope] *)
Definition natural_key (r : connectionRecord) : string * string * string * string :=
  (cn_ProviderID r, cn_ScopeType r, cn_ScopeID r, cn_ExternalAccountID r).

Definition key_taken (t : connection_table) (r : connectionRecord) : bool :=
  existsb (λ r', live_row r' && bool_decide (natural_key r' = natural_key r)) (map_to_list t).*2.

Definition insert_connection (t : connection_table) (r : connectionRecord) : option connection_table :=
  match t !! cn_ID r with
  | Some _ => None
  | None => if live_row r && key_taken t r then None else Some (<[cn_ID r := r]> t)
  end.

Definition Connection_Create (db : ServiceDB) (env : CallEnv) (input : CreateConnectionInput)
    : outcome sql_error Connection * ServiceDB :=
  match ScopeRef_Validate (cc_Scope input) with
  | Fail e => (Fail (SqlErrScope e), db)
  | Ok _ =>
    if blank (cc_ProviderID input) then (Fail SqlErrProviderRequired, db)
    else if blank (cc_ExternalAccountID input) then (Fail SqlErrExternalAccountRequired, db)
    else
      let status := if blank (cc_Status input) then ConnectionStatusActive else cc_Status input in
      let record := newConnectionRecord (env_uuid env)
        (mkCreateConnection (cc_ProviderID input) (cc_Scope input) (cc_ExternalAccountID input) status) (env_now env) in
      match env_fault env 0 with
      | Some err => (Fail (SqlErrDatabase err), db)
      | None =>
        match insert_connection (db_connections db) record with
        | None => (Fail SqlErrDuplicateKey, db)
        | Some t => (Ok (connection_toDomain record), with_connections db t)
        end
      end
  end.

(** [GetByID]: the rows not softly deleted. *)
Definition connection_by_id (db : ServiceDB) (id : string) : option connectionRecord :=
  match db_connections db !! id with
  | Some r => if live_row r then Some r else None
  | None => None
  end.

Definition Connection_Get (db : ServiceDB) (env : CallEnv) (id : string) : outcome sql_error Connection :=
  match env_fault env 0 with
  | Some err => Fail (SqlErrDatabase err)
  | None =>
    match connection_by_id db (TrimSpace id) with
    | Some r => Ok (connection_toDomain r)
    | None => Fail (SqlErrNotFound (TrimSpace id))
    end
  end.

(** [ORDER BY created_at ASC, id ASC]; among rows of equal age [FindByScope] leaves the order open. *)
Definition created_before (r1 r2 : connectionRecord) : Prop :=
  (cn_CreatedAt r1 < cn_CreatedAt r2)%Z ∨ cn_CreatedAt r1 = cn_CreatedAt r2 ∧ String.le (cn_ID r1) (cn_ID r2).
#[export] Instance created_before_dec r1 r2 : Decision (created_before r1 r2).
Proof. apply _. Defined.

Definition select_connections (db : ServiceDB) (cond : connectionRecord → bool) : list connectionRecord :=
  merge_sort created_before (filter (λ r, live_row r && cond r = true) (map_to_list (db_connections db)).*2).

Definition in_scope (providerID : string) (scope : ScopeRef) (r : connectionRecord) : bool :=
  String.eqb (cn_ProviderID r) providerID && String.eqb (cn_ScopeType r) (TrimSpace (scope_Type scope))
  && String.eqb (cn_ScopeID r) (TrimSpace (scope_ID scope)).

Definition Connection_FindByScope (db : ServiceDB) (env : CallEnv) (providerID : string) (scope : ScopeRef)
    : outcome sql_error (list Connection) :=
  match ScopeRef_Validate scope with
  | Fail e => Fail (SqlErrScope e)
  | Ok _ =>
    match env_fault env 0 with
    | Some err => Fail (SqlErrDatabase err)
    | None => Ok (connection_toDomain <$> select_connections db (in_scope (TrimSpace providerID) scope))
    end
  end.

Definition Connection_FindByScopeAndExternalAccount (db : ServiceDB) (env : CallEnv) (providerID : string)
    (scope : ScopeRef) (externalAccountID : string) : outcome sql_error (option Connection) :=
  match ScopeRef_Validate scope with
  | Fail e => Fail (SqlErrScope e)
  | Ok _ =>
    let providerID := TrimSpace providerID in
    let externalAccountID := TrimSpace externalAccountID in
    if String.eqb providerID "" then Fail SqlErrProviderRequired
    else if String.eqb externalAccountID "" then Fail SqlErrExternalAccountRequired
    else match env_fault env 0 with
    | Some err => Fail (SqlErrDatabase err)
    | None =>
      Ok (connection_toDomain <$> head (select_connections db (λ r,
            in_scope providerID scope r && String.eqb (cn_ExternalAccountID r) externalAccountID)))
    end
  end.

Definition connection_set (r : connectionRecord) (status lastError : string) (now : Time) : connectionRecord :=
  mkConnectionRecord (cn_ID r) (cn_ProviderID r) (cn_ScopeType r) (cn_ScopeID r) (cn_ExternalAccountID r)
    status (cn_InheritsFromConnectionID r) lastError (cn_CreatedAt r) now (cn_DeletedAt r).

Definition Connection_UpdateStatus (db : ServiceDB) (env : CallEnv) (id status reason : string)
    : outcome sql_error unit * ServiceDB :=
  let trimmedID := TrimSpace id in
  if String.eqb trimmedID "" then (Fail SqlErrConnectionRequired, db)
  else match env_fault env 0 with
  | Some err => (Fail (SqlErrDatabase err), db)
  | None =>
    match connection_by_id db trimmedID with
    | None => (Fail (SqlErrNotFound trimmedID), db)
    | Some current =>
      match env_fault env 1 with
      | Some err => (Fail (SqlErrDatabase err), db)
      | None =>
        (Ok tt, with_connections db
           (<[trimmedID := connection_set current (TrimSpace status) (TrimSpace reason) (env_now env)]> (db_connections db)))
      end
    end
  end.

#[export] Instance sql_connection_store : ConnectionStore sql_error ServiceDB :=
  {| cs_Create := Connection_Create; cs_Get := Connection_Get; cs_FindByScope := Connection_FindByScope;
     cs_FindByScopeAndExternalAccount := Connection_FindByScopeAndExternalAccount;
     cs_UpdateStatus := Connection_UpdateStatus |}.

(** ** Credentials *)

Definition CredentialPayloadFormatLegacyToken := "legacy_token".
Definition CredentialPayloadFormatJSONV1 := "active_credential_json".
Definition CredentialPayloadVersionV1 : Z := 1.

Definition newCredentialRecord (id : string) (input : SaveCredentialInput) (version : Z) (now : Time) : credentialRecord :=
  mkCredentialRecord id (sc_ConnectionID input) version (sc_EncryptedPayload input)
    (if String.eqb (sc_PayloadFormat input) "" then CredentialPayloadFormatLegacyToken else sc_PayloadFormat input)
    (if (sc_PayloadVersion input <=? 0)%Z then CredentialPayloadVersionV1 else sc_PayloadVersion input)
    (sc_TokenType input) (sc_RequestedScopes input) (sc_GrantedScopes input) (sc_ExpiresAt input) (sc_RotatesAt input)
    (sc_Refreshable input) (sc_Status input) version (sc_EncryptionKeyID input) (sc_EncryptionVersion input) "" now now.

Definition credential_toDomain (r : credentialRecord) : Credential :=
  mkCredential (kr_ID r) (kr_ConnectionID r) (kr_Version r) (kr_EncryptedPayload r) (kr_PayloadFormat r)
    (kr_PayloadVersion r) (kr_TokenType r) (kr_RequestedScopes r) (kr_GrantedScopes r)
    (default zeroTime (kr_ExpiresAt r)) (kr_Refreshable r) (default zeroTime (kr_RotatesAt r)) (kr_Status r)
    (kr_CreatedAt r) (kr_UpdatedAt r).

Definition credentials_of (t : credential_table) (connectionID : string) : list credentialRecord :=
  filter (λ r, kr_ConnectionID r = connectionID) (map_to_list t).*2.

(** [COALESCE(MAX(version), 0) + 1] *)
Definition nextVersion (t : credential_table) (connectionID : string) : Z :=
  (foldr (λ r n, Z.max (kr_Version r) n) 0 (credentials_of t connectionID) + 1)%Z.

Definition is_active_of (connectionID : string) (r : credentialRecord) : bool :=
  String.eqb (kr_ConnectionID r) connectionID && String.eqb (kr_Status r) CredentialStatusActive.

Definition credential_set (r : credentialRecord) (status reason : string) (now : Time) : credentialRecord :=
  mkCredentialRecord (kr_ID r) (kr_ConnectionID r) (kr_Version r) (kr_EncryptedPayload r) (kr_PayloadFormat r)
    (kr_PayloadVersion r) (kr_TokenType r) (kr_RequestedScopes r) (kr_GrantedScopes r) (kr_ExpiresAt r) (kr_RotatesAt r)
    (kr_Refreshable r) status (kr_GrantVersion r) (kr_EncryptionKeyID r) (kr_EncryptionVersion r) reason
    (kr_CreatedAt r) now.

(** The update that revokes the active credentials of a connection. *)
Definition revoke_active (t : credential_table) (connectionID reason : string) (now : Time) : credential_table :=
  (λ r, if is_active_of connectionID r then credential_set r CredentialStatusRevoked reason now else r) <$> t.

(** [UNIQUE(connection_id, version)] and [uq_service_credentials_active] *)
Definition insert_credential (t : credential_table) (r : credentialRecord) : option credential_table :=
  match t !! (kr_ConnectionID r, kr_Version r) with
  | Some _ => None
  | None =>
    if String.eqb (kr_Status r) CredentialStatusActive
       && existsb (is_active_of (kr_ConnectionID r)) (map_to_list t).*2 then None
    else Some (<[(kr_ConnectionID r, kr_Version r) := r]> t)
  end.

Definition Credential_SaveNewVersion (db : ServiceDB) (env : CallEnv) (input : SaveCredentialInput)
    : outcome sql_error Credential * ServiceDB :=
  let connectionID := TrimSpace (sc_ConnectionID input) in
  if String.eqb connectionID "" then (Fail SqlErrConnectionRequired, db)
  else
    let status := if blank (sc_Status input) then CredentialStatusActive else sc_Status input in
    let format := TrimSpace (sc_PayloadFormat input) in
    let format := if String.eqb format "" then CredentialPayloadFormatLegacyToken else format in
    let version := if (sc_PayloadVersion input <=? 0)%Z then CredentialPayloadVersionV1 else sc_PayloadVersion input in
    let keyID := TrimSpace (sc_EncryptionKeyID input) in
    if String.eqb (sc_EncryptedPayload input) "" then (Fail SqlErrPayloadRequired, db)
    else if String.eqb keyID "" then (Fail SqlErrKeyIDRequired, db)
    else if (sc_EncryptionVersion input <=? 0)%Z then (Fail SqlErrKeyVersion, db)
    else
      let input := mkSaveCredential connectionID (sc_EncryptedPayload input) format version (sc_TokenType input)
        (sc_RequestedScopes input) (sc_GrantedScopes input) (sc_ExpiresAt input) (sc_Refreshable input) (sc_RotatesAt input)
        status keyID (sc_EncryptionVersion input) in
      match env_fault env 0 with
      | Some err => (Fail (SqlErrDatabase err), db)
      | None =>
        let t := db_credentials db in
        let next := nextVersion t connectionID in
        let t := if String.eqb status CredentialStatusActive then revoke_active t connectionID "rotated" (env_now env) else t in
        let record := newCredentialRecord (env_uuid env) input next (env_now env) in
        match insert_credential t record with
        | None => (Fail SqlErrDuplicateKey, db)
        | Some t' => (Ok (credential_toDomain record), with_credentials db t')
        end
      end.

(** [ORDER BY version DESC LIMIT 1] *)
Definition newest (rows : list credentialRecord) : option credentialRecord :=
  foldl (λ best r, Some (match best with
                         | Some b => if (kr_Version b <? kr_Version r)%Z then r else b
                         | None => r
                         end)) None rows.

Definition Credential_GetActiveByConnection (db : ServiceDB) (env : CallEnv) (connectionID : string)
    : outcome sql_error Credential :=
  match env_fault env 0 with
  | Some err => Fail (SqlErrDatabase err)
  | None =>
    match newest (filter (λ r, is_active_of (TrimSpace connectionID) r = true) (map_to_list (db_credentials db)).*2) with
    | Some r => Ok (credential_toDomain r)
    | None => Fail (SqlErrNoActiveCredential connectionID)
    end
  end.

Definition Credential_RevokeActive (db : ServiceDB) (env : CallEnv) (connectionID reason : string)
    : outcome sql_error unit * ServiceDB :=
  let connectionID := TrimSpace connectionID in
  if String.eqb connectionID "" then (Fail SqlErrConnectionRequired, db)
  else
    let reason := if blank reason then "revoked" else TrimSpace reason in
    match env_fault env 0 with
    | Some err => (Fail (SqlErrDatabase err), db)
    | None => (Ok tt, with_credentials db (revoke_active (db_credentials db) connectionID reason (env_now env)))
    end.

#[export] Instance sql_credential_store : CredentialStore sql_error ServiceDB :=
  {| ks_SaveNewVersion := Credential_SaveNewVersion; ks_GetActiveByConnection := Credential_GetActiveByConnection;
     ks_RevokeActive := Credential_RevokeActive |}.

(** ** Grants, over the same database *)

Section grants.
Variable format_time : Time → string.
Variable json_column : gmap string value → gmap string value.

(** What the grant store sees of the database. *)
Definition grant_view (db : ServiceDB) : GrantDB :=
  mkGrantDB (omap (λ r, if live_row r
                        then Some (mkConnRow (cn_ID r) (cn_ProviderID r) (cn_ScopeType r) (cn_ScopeID r)) else None)
               (db_connections db))
    (db_snapshots db) (db_grant_events db).

Definition with_grants (db : ServiceDB) (o : outcome grant_error unit * GrantDB) : outcome sql_error unit * ServiceDB :=
  (match o.1 with Ok u => Ok u | Fail e => Fail (SqlErrGrants e) end,
   mkServiceDB (db_connections db) (db_credentials db) (gdb_snapshots o.2) (gdb_events o.2)).

Definition db_grant_store : GrantStore sql_error ServiceDB :=
  {| gst_SaveSnapshot db env input := with_grants db (Grant_SaveSnapshot format_time (grant_view db) env input);
     gst_GetLatestSnapshot db env id :=
       match Grant_GetLatestSnapshot json_column (grant_view db) env id with
       | Ok s => Ok s | Fail e => Fail (SqlErrGrants e) end;
     gst_AppendEvent db env input := with_grants db (Grant_AppendEvent (grant_view db) env input);
     gst_SaveSnapshotAndEvent db env input event :=
       with_grants db (Grant_SaveSnapshotAndEvent format_time (grant_view db) env input event) |}.
End grants.

(** ** Credential versions *)

Record credentials_wf (t : credential_table) : Prop := {
  kw_keyed : ∀ c v r, t !! (c, v) = Some r → kr_ConnectionID r = c ∧ kr_Version r = v;
  kw_chain : ∀ c, ∃ n, (0 ≤ n)%Z ∧ ∀ v, is_Some (t !! (c, v)) ↔ (1 ≤ v ≤ n)%Z;
  kw_active : ∀ c v v' r r', t !! (c, v) = Some r → t !! (c, v') = Some r' →
    kr_Status r = CredentialStatusActive → kr_Status r' = CredentialStatusActive → v = v' }.

Lemma elem_of_rows {K A} `{Countable K} (t : gmap K A) r : r ∈ (map_to_list t).*2 ↔ ∃ k, t !! k = Some r.
Proof.
  rewrite list_elem_of_fmap. split.
  - intros ([k x] & -> & Hx). exists k. by apply elem_of_map_to_list.
  - intros [k Hk]. exists (k, r). split; [done|]. by apply elem_of_map_to_list.
Qed.

Lemma max_version_spec (l : list credentialRecord) n :
  (0 ≤ n)%Z → (∀ r, r ∈ l → (kr_Version r ≤ n)%Z) → (n = 0%Z ∨ ∃ r, r ∈ l ∧ kr_Version r = n) →
  foldr (λ r m, Z.max (kr_Version r) m) 0%Z l = n.
Proof.
  revert n. induction l as [|x l IH]; intros n Hn Hle Hin; simpl.
  - destruct Hin as [->|(r & Hr & _)]; [done|]. by apply elem_of_nil in Hr.
  - assert (Hx : (kr_Version x ≤ n)%Z) by (apply Hle; left).
    assert (Hfold : (foldr (λ r m, Z.max (kr_Version r) m) 0 l ≤ n)%Z).
    { clear IH Hin Hx. induction l as [|y l IHl]; simpl; [lia|]. apply Z.max_lub; [apply Hle; right; left|].
      apply IHl. intros r Hr. apply Hle. apply elem_of_cons in Hr as [->|Hr]; [left|by right; right]. }
    destruct Hin as [->|(r & [->|Hr]%elem_of_cons & Hv)]; [| |].
    + assert (0 ≤ foldr (λ r m, Z.max (kr_Version r) m) 0 l)%Z by (clear; induction l; simpl; lia). lia.
    + lia.
    + rewrite (IH n); [lia|done|intros r' Hr'; apply Hle; by right|eauto].
Qed.

Lemma nextVersion_spec t c n :
  credentials_wf t → (0 ≤ n)%Z → (∀ v, is_Some (t !! (c, v)) ↔ (1 ≤ v ≤ n)%Z) → nextVersion t c = (n + 1)%Z.
Proof.
  intros Hwf Hn Hiff. unfold nextVersion. f_equal. apply max_version_spec; [done| |].
  - intros r [Hc [[c' v] Hr]%elem_of_rows]%list_elem_of_filter. destruct (kw_keyed _ Hwf _ _ _ Hr) as [Hc' ->].
    rewrite Hc in Hc'. subst c'. assert (1 ≤ v ≤ n)%Z by (apply Hiff; eauto). lia.
  - destruct (decide (n = 0)%Z) as [|Hne]; [by left|right].
    destruct (proj2 (Hiff n)) as [r Hr]; [lia|]. destruct (kw_keyed _ Hwf _ _ _ Hr) as [Hc Hv]. exists r. split; [|done].
    apply list_elem_of_filter. split; [done|]. apply elem_of_rows. eauto.
Qed.

Lemma revoke_lookup t c reason now k :
  revoke_active t c reason now !! k
  = (λ r, if is_active_of c r then credential_set r CredentialStatusRevoked reason now else r) <$> t !! k.
Proof. unfold revoke_active. by rewrite lookup_fmap. Qed.

Lemma is_active_of_spec c r : is_active_of c r = true ↔ kr_ConnectionID r = c ∧ kr_Status r = CredentialStatusActive.
Proof. unfold is_active_of. rewrite andb_true_iff, !String.eqb_eq. done. Qed.

Lemma revoke_wf t c reason now : credentials_wf t → credentials_wf (revoke_active t c reason now).
Proof.
  intros [Hk Hc Ha]. split.
  - intros c' v r. rewrite revoke_lookup, fmap_Some. intros (r0 & Hr0 & ->). destruct (Hk _ _ _ Hr0).
    by destruct (is_active_of c r0).
  - intros c'. destruct (Hc c') as (n & Hn & Hiff). exists n. split; [done|]. intros v.
    by rewrite revoke_lookup, fmap_is_Some.
  - intros c' v v' r r'. rewrite !revoke_lookup, !fmap_Some. intros (r0 & Hr0 & ->) (r1 & Hr1 & ->).
    destruct (is_active_of c r0), (is_active_of c r1); simpl; try done. by apply (Ha c').
Qed.

Lemma revoke_no_active t c reason now k r :
  revoke_active t c reason now !! k = Some r → is_active_of c r = false.
Proof.
  rewrite revoke_lookup, fmap_Some. intros (r0 & Hr0 & ->). destruct (is_active_of c r0) eqn:E; [|done].
  apply not_true_is_false. rewrite is_active_of_spec. simpl. by intros [_ ?].
Qed.

Lemma existsb_active (t : credential_table) c : existsb (is_active_of c) (map_to_list t).*2 = true ↔ ∃ k r, t !! k = Some r ∧ is_active_of c r = true.
Proof.
  rewrite existsb_exists. split.
  - intros (r & Hr%list_elem_of_In & Ha). apply elem_of_rows in Hr as [k Hk]. eauto.
  - intros (k & r & Hk & Ha). exists r. split; [|done]. apply list_elem_of_In, elem_of_rows. eauto.
Qed.

(** Inserting the next version into a table without another active credential, if it is active itself. *)
Lemma insert_credential_wf t r n :
  credentials_wf t → (0 ≤ n)%Z → (∀ v, is_Some (t !! (kr_ConnectionID r, v)) ↔ (1 ≤ v ≤ n)%Z) →
  kr_Version r = (n + 1)%Z →
  (kr_Status r = CredentialStatusActive → ∀ k r', t !! k = Some r' → is_active_of (kr_ConnectionID r) r' = false) →
  insert_credential t r = Some (<[(kr_ConnectionID r, kr_Version r) := r]> t) ∧
  credentials_wf (<[(kr_ConnectionID r, kr_Version r) := r]> t).
Proof.
  intros [Hk Hc Ha] Hn Hiff Hv Hno.
  assert (Hnone : t !! (kr_ConnectionID r, kr_Version r) = None).
  { apply eq_None_not_Some. rewrite Hiff. lia. }
  split.
  - unfold insert_credential. rewrite Hnone. destruct (String.eqb_spec (kr_Status r) CredentialStatusActive) as [Hs|]; [|done].
    destruct (existsb _ _) eqn:E; [|done]. apply existsb_active in E as (k & r' & Hk' & Hr'). by rewrite (Hno Hs k r') in Hr'.
  - split.
    + intros c v r'. rewrite lookup_insert_Some. intros [[[=<- <-] <-]|[_ Hr']]; [done|by apply Hk].
    + intros c. destruct (decide (c = kr_ConnectionID r)) as [->|Hne].
      * exists (n + 1)%Z. split; [lia|]. intros v. destruct (decide (v = n + 1)%Z) as [->|Hnv].
        -- rewrite <- Hv, lookup_insert_eq. split; [lia|eauto].
        -- rewrite lookup_insert_ne by congruence. rewrite Hiff. lia.
      * destruct (Hc c) as (m & Hm & Hiff'). exists m. split; [done|]. intros v.
        rewrite lookup_insert_ne by congruence. apply Hiff'.
    + intros c v v' r1 r2. rewrite !lookup_insert_Some.
      assert (Hclash : ∀ v r', t !! (kr_ConnectionID r, v) = Some r' → kr_Status r = CredentialStatusActive →
        kr_Status r' = CredentialStatusActive → False).
      { intros w r' Hr' Hs Hs'. pose proof (Hno Hs _ _ Hr') as Hf. apply not_true_iff_false in Hf. apply Hf.
        apply is_active_of_spec. split; [|done]. by destruct (Hk _ _ _ Hr'). }
      intros [[[=<- <-] <-]|[_ H1]] [[[=<-] <-]|[_ H2]] Hs1 Hs2; [done| | |by apply (Ha c v v' r1 r2)].
      * exfalso. by eapply Hclash.
      * exfalso. by eapply Hclash.
Qed.

(** What a successful save does: the active versions are revoked if the new one is active, and the next version is
    added. *)
Definition saved_input (input : SaveCredentialInput) : SaveCredentialInput :=
  mkSaveCredential (TrimSpace (sc_ConnectionID input)) (sc_EncryptedPayload input)
    (if String.eqb (TrimSpace (sc_PayloadFormat input)) "" then CredentialPayloadFormatLegacyToken
     else TrimSpace (sc_PayloadFormat input))
    (if (sc_PayloadVersion input <=? 0)%Z then CredentialPayloadVersionV1 else sc_PayloadVersion input)
    (sc_TokenType input) (sc_RequestedScopes input) (sc_GrantedScopes input) (sc_ExpiresAt input) (sc_Refreshable input)
    (sc_RotatesAt input) (if blank (sc_Status input) then CredentialStatusActive else sc_Status input)
    (TrimSpace (sc_EncryptionKeyID input)) (sc_EncryptionVersion input).

Definition rotated (t : credential_table) (input : SaveCredentialInput) (now : Time) : credential_table :=
  if String.eqb (sc_Status input) CredentialStatusActive then revoke_active t (sc_ConnectionID input) "rotated" now else t.

Definition valid_save (input : SaveCredentialInput) : bool :=
  negb (blank (sc_ConnectionID input)) && negb (String.eqb (sc_EncryptedPayload input) "")
  && negb (blank (sc_EncryptionKeyID input)) && (0 <? sc_EncryptionVersion input)%Z.

Lemma rotated_wf t input now : credentials_wf t → credentials_wf (rotated t input now).
Proof. intros Hwf. unfold rotated. destruct (String.eqb _ _); [by apply revoke_wf|done]. Qed.

Lemma rotated_is_Some t input now k : is_Some (rotated t input now !! k) ↔ is_Some (t !! k).
Proof. unfold rotated. destruct (String.eqb _ _); [|done]. by rewrite revoke_lookup, fmap_is_Some. Qed.

Lemma Save_cases db env input :
  credentials_wf (db_credentials db) →
  let input' := saved_input input in
  let record := newCredentialRecord (env_uuid env) input' (nextVersion (db_credentials db) (sc_ConnectionID input')) (env_now env) in
  let t' := <[(kr_ConnectionID record, kr_Version record) := record]> (rotated (db_credentials db) input' (env_now env)) in
  (valid_save input = true ∧ env_fault env 0 = None ∧
   Credential_SaveNewVersion db env input = (Ok (credential_toDomain record), with_credentials db t') ∧ credentials_wf t') ∨
  ((valid_save input = false ∨ is_Some (env_fault env 0)) ∧ ∃ e, Credential_SaveNewVersion db env input = (Fail e, db)).
Proof.
  intros Hwf input' record t'. unfold Credential_SaveNewVersion, valid_save, blank.
  destruct (String.eqb (TrimSpace (sc_ConnectionID input)) "") eqn:E1; [right; eauto|].
  destruct (String.eqb (sc_EncryptedPayload input) "") eqn:E2; [right; eauto|].
  destruct (String.eqb (TrimSpace (sc_EncryptionKeyID input)) "") eqn:E3; [right; eauto|].
  destruct (Z.leb_spec (sc_EncryptionVersion input) 0) as [Hv|Hv].
  { right. split; [left|by eexists]. simpl. by apply Z.ltb_ge. }
  destruct (env_fault env 0) as [err|] eqn:E4; [right; eauto|left].
  change (if String.eqb _ CredentialStatusActive then revoke_active (db_credentials db) _ _ _ else db_credentials db)
    with (rotated (db_credentials db) input' (env_now env)).
  change (newCredentialRecord _ _ _ _) with record.
  destruct (kw_chain _ Hwf (sc_ConnectionID input')) as (n & Hn & Hiff).
  pose proof (nextVersion_spec _ _ _ Hwf Hn Hiff) as Hnext.
  pose proof (rotated_wf (db_credentials db) input' (env_now env) Hwf) as Hrot.
  destruct (insert_credential_wf (rotated (db_credentials db) input' (env_now env)) record n) as [Hins Hwf']; [done|done| |done| |].
  - intros v. rewrite rotated_is_Some. apply Hiff.
  - change (kr_Status record) with (sc_Status input'). intros Hs k r'. unfold rotated.
    rewrite (proj2 (String.eqb_eq _ _) Hs). apply revoke_no_active.
  - rewrite Hins. split_and!; [|done|done|done]. simpl. by apply Z.ltb_lt.
Qed.

(** ** Histories of a credential table *)

Inductive credential_op :=
| OpSaveCredential (env : CallEnv) (input : SaveCredentialInput)
| OpRevokeCredential (env : CallEnv) (connectionID reason : string).

Definition credential_step (db : ServiceDB) (op : credential_op) : ServiceDB :=
  match op with
  | OpSaveCredential env input => (Credential_SaveNewVersion db env input).2
  | OpRevokeCredential env c reason => (Credential_RevokeActive db env c reason).2
  end.
Definition credential_run : ServiceDB → list credential_op → ServiceDB := foldl credential_step.

Definition op_connection (op : credential_op) : string :=
  match op with OpSaveCredential _ input => TrimSpace (sc_ConnectionID input) | OpRevokeCredential _ c _ => TrimSpace c end.

Lemma credential_step_cases db op :
  credentials_wf (db_credentials db) →
  credentials_wf (db_credentials (credential_step db op)) ∧
  ∀ c v r, db_credentials db !! (c, v) = Some r →
    (c ≠ op_connection op ∨ kr_Status r ≠ CredentialStatusActive) →
    db_credentials (credential_step db op) !! (c, v) = Some r.
Proof.
  intros Hwf.
  assert (Hkeep : ∀ c' reason now c v r, db_credentials db !! (c, v) = Some r →
    (c ≠ c' ∨ kr_Status r ≠ CredentialStatusActive) → revoke_active (db_credentials db) c' reason now !! (c, v) = Some r).
  { intros c' reason now c v r Hr Hor. rewrite revoke_lookup, Hr. simpl. f_equal.
    destruct (is_active_of c' r) eqn:E; [|done]. apply is_active_of_spec in E as [Hc Hs].
    destruct (kw_keyed _ Hwf _ _ _ Hr) as [Hc2 _]. destruct Hor as [Hor|Hor]; congruence. }
  destruct op as [env input|env c' reason]; simpl.
  - destruct (Save_cases db env input Hwf) as [(_ & _ & -> & Hwf')|(_ & e & ->)]; [|by split]. simpl.
    split; [done|]. intros c v r Hr Hor. rewrite lookup_insert_ne.
    + unfold rotated. destruct (String.eqb _ _); [|done]. by apply Hkeep.
    + intros [=Hc Hv]. destruct (kw_chain _ Hwf c) as (n & Hn & Hiff).
      assert (1 ≤ v ≤ n)%Z by (apply Hiff; eauto). rewrite Hc in Hv.
      rewrite (nextVersion_spec _ _ _ Hwf Hn Hiff) in Hv. lia.
  - unfold Credential_RevokeActive. destruct (String.eqb _ ""); [by split|]. destruct (env_fault env 0); [by split|]. simpl.
    split; [by apply revoke_wf|]. intros c v r. apply Hkeep.
Qed.

Lemma credential_run_cases db ops :
  credentials_wf (db_credentials db) →
  credentials_wf (db_credentials (credential_run db ops)) ∧
  ∀ c v r, db_credentials db !! (c, v) = Some r →
    (Forall (λ op, op_connection op ≠ c) ops ∨ kr_Status r ≠ CredentialStatusActive) →
    db_credentials (credential_run db ops) !! (c, v) = Some r.
Proof.
  revert db. induction ops as [|op ops IH]; intros db Hwf; [by split|]. simpl.
  destruct (credential_step_cases db op Hwf) as [Hwf1 Hkeep]. destruct (IH _ Hwf1) as [Hwf2 Hrun]. split; [done|].
  intros c v r Hr Hor. apply Hrun.
  - apply Hkeep; [done|]. destruct Hor as [[Hne _]%Forall_cons|]; [left; congruence|by right].
  - destruct Hor as [[_ ?]%Forall_cons|]; [by left|by right].
Qed.

Lemma empty_credentials_wf : credentials_wf ∅.
Proof.
  split.
  - intros c v r. by rewrite lookup_empty.
  - intros c. exists 0%Z. split; [done|]. intros v. rewrite lookup_empty. split; [by intros []|lia].
  - intros c v v' r r'. by rewrite lookup_empty.
Qed.

(** The active credential of a connection is found. *)
Lemma newest_unique rows r : r ∈ rows → (∀ r', r' ∈ rows → r' = r) → newest rows = Some r.
Proof.
  intros Hin Hall. unfold newest.
  assert (Hfold : ∀ l b, (∀ r', r' ∈ l → r' = r) → b = r →
    foldl (λ best r0, Some (match best with Some b => if (kr_Version b <? kr_Version r0)%Z then r0 else b | None => r0 end))
      (Some b) l = Some r).
  { induction l as [|x l IH]; intros b Hl ->; simpl; [done|]. apply IH; [intros r' Hr'; apply Hl; by right|].
    destruct (_ <? _)%Z; [apply Hl; left|done]. }
  destruct rows as [|x rows]; [by apply elem_of_nil in Hin|]. simpl. apply Hfold; [intros r' Hr'; apply Hall; by right|].
  apply Hall. left.
Qed.

Lemma GetActive_found db env connectionID v r :
  credentials_wf (db_credentials db) → env_fault env 0 = None →
  db_credentials db !! (TrimSpace connectionID, v) = Some r → kr_Status r = CredentialStatusActive →
  Credential_GetActiveByConnection db env connectionID = Ok (credential_toDomain r).
Proof.
  intros Hwf Hf Hr Hs. unfold Credential_GetActiveByConnection. rewrite Hf.
  destruct (kw_keyed _ Hwf _ _ _ Hr) as [Hc Hv]. rewrite (newest_unique _ r); [done| |].
  - apply list_elem_of_filter. rewrite is_active_of_spec. split; [done|]. apply elem_of_rows. eauto.
  - intros r' [[Hc' Hs']%is_active_of_spec [[c' v'] Hr']%elem_of_rows]%list_elem_of_filter.
    destruct (kw_keyed _ Hwf _ _ _ Hr') as [Hc2 _]. rewrite Hc' in Hc2. subst c'.
    assert (v' = v) as -> by (by eapply (kw_active _ Hwf)). congruence.
Qed.

Lemma GetActive_none db env connectionID :
  (∀ k r, db_credentials db !! k = Some r → is_active_of (TrimSpace connectionID) r = false) →
  ∃ e, Credential_GetActiveByConnection db env connectionID = Fail e.
Proof.
  intros Hno. unfold Credential_GetActiveByConnection. destruct (env_fault env 0); [eauto|].
  destruct (filter _ _) as [|r rows] eqn:E; [eauto|]. exfalso.
  assert (Hin : r ∈ filter (λ r, is_active_of (TrimSpace connectionID) r = true) (map_to_list (db_credentials db)).*2)
    by (rewrite E; left).
  apply list_elem_of_filter in Hin as [Ha [k Hk]%elem_of_rows]. by rewrite (Hno _ _ Hk) in Ha.
Qed.

(** C25: credentials rotate.  Over every history of saves and revocations (failed ones included): the versions of a
    connection are 1, 2, ..., n without gaps and at most one of them is active; a version that is no longer active never
    changes again; a credential saved as active is the one the store returns until another operation on its
    connection; and once the active credential is revoked none is returned. *)
Theorem credential_rotation db0 ops :
  db_credentials db0 = ∅ →
  let db := credential_run db0 ops in
  (∀ c, (∃ n, (0 ≤ n)%Z ∧ ∀ v, is_Some (db_credentials db !! (c, v)) ↔ (1 ≤ v ≤ n)%Z) ∧
     ∀ v v' r r', db_credentials db !! (c, v) = Some r → db_credentials db !! (c, v') = Some r' →
       kr_Status r = CredentialStatusActive → kr_Status r' = CredentialStatusActive → v = v') ∧
  (∀ ops' k r, db_credentials db !! k = Some r → kr_Status r ≠ CredentialStatusActive →
     db_credentials (credential_run db ops') !! k = Some r) ∧
  (∀ env input cred db' ops' env', Credential_SaveNewVersion db env input = (Ok cred, db') →
     cred_Status cred = CredentialStatusActive →
     Forall (λ op, op_connection op ≠ TrimSpace (sc_ConnectionID input)) ops' → env_fault env' 0 = None →
     Credential_GetActiveByConnection (credential_run db' ops') env' (sc_ConnectionID input) = Ok cred) ∧
  (∀ env c reason db' env', Credential_RevokeActive db env c reason = (Ok tt, db') →
     ∃ e, Credential_GetActiveByConnection db' env' c = Fail e).
Proof.
  intros H0 db. assert (Hwf : credentials_wf (db_credentials db)).
  { apply credential_run_cases. rewrite H0. apply empty_credentials_wf. }
  split_and!.
  - intros c. split; [apply (kw_chain _ Hwf)|apply (kw_active _ Hwf)].
  - intros ops' [c v] r Hr Hs. apply credential_run_cases; [done|done|by right].
  - intros env input cred db' ops' env' Hsave Hact Hops Hf.
    destruct (Save_cases db env input Hwf) as [(_ & _ & Heq & Hwf')|(_ & e & Heq)]; [|congruence].
    rewrite Heq in Hsave. injection Hsave as <- <-.
    destruct (credential_run_cases (with_credentials db _) ops' Hwf') as [Hwf2 Hkeep].
    eapply GetActive_found; [exact Hwf2|done| |exact Hact].
    apply Hkeep; [|by left]. apply lookup_insert_eq.
  - intros env c reason db' env' Hrev. apply GetActive_none. intros k r.
    revert Hrev. unfold Credential_RevokeActive. destruct (String.eqb _ ""); [done|]. destruct (env_fault env 0); [done|].
    intros [= <-]. apply revoke_no_active.
Qed.

Section demo.
Definition empty_db : ServiceDB := mkServiceDB ∅ ∅ ∅ [].
Definition demo_save (token : string) : SaveCredentialInput :=
  mkSaveCredential "c1" token "active_credential_json" 1 "bearer" [] [] None true None CredentialStatusActive "k1" 1.

(** The second of two saves is returned; the first is revoked, and it stays so. *)
Lemma credential_rotation_witness :
  let db1 := credential_run empty_db [OpSaveCredential (quiet 5 "u1") (demo_save "s1")] in
  let save2 := Credential_SaveNewVersion db1 (quiet 6 "u2") (demo_save "s2") in
  Credential_GetActiveByConnection (credential_run save2.2 [OpRevokeCredential (quiet 7 "") "c2" ""]) (quiet 8 "") " c1"
    = Credential_GetActiveByConnection save2.2 (quiet 8 "") "c1" ∧
  (∃ cred, save2.1 = Ok cred ∧ cred_Version cred = 2%Z ∧
     Credential_GetActiveByConnection (credential_run save2.2 [OpRevokeCredential (quiet 7 "") "c2" ""]) (quiet 8 "") "c1" = Ok cred).
Proof.
  split; [vm_compute; reflexivity|].
  destruct (credential_rotation empty_db [OpSaveCredential (quiet 5 "u1") (demo_save "s1")] eq_refl) as (_ & _ & Hsaved & _).
  eexists. split; [vm_compute; reflexivity|]. split; [vm_compute; reflexivity|].
  apply (Hsaved (quiet 6 "u2") (demo_save "s2")).
  - vm_compute. reflexivity.
  - vm_compute. reflexivity.
  - repeat constructor. vm_compute. discriminate.
  - reflexivity.
Defined.
End demo.
