(* ===== verification/Credentials.v ===== *)
(** * Credential payloads (src/core/credential_codec.go and the payload functions of src/core/service.go)

    A credential is encoded by a codec, encrypted by the secret provider and stored; it is read back by decrypting and
    decoding.  [encoding/json] and the secret provider are parameters. *)

From S2P Require Import Prelude GoStrings GoValues Domain Contracts ServiceTypes Connections.
From Stdlib Require Import ZArith Lia Ascii String.
From stdpp Require Import base decidable list gmap strings.

Local Open Scope string_scope.
Local Open Scope nat_scope.
Local Open Scope list_scope.

Inductive payload_error :=
| PayErrSecretProvider | PayErrEncode (cause : string) | PayErrEmptyPlaintext | PayErrEncrypt (cause : string)
| PayErrEmptyCiphertext | PayErrNotEncrypted | PayErrDecrypt (cause : string) | PayErrDecode (cause : string)
| PayErrEmptyPayload | PayErrLegacyNoToken | PayErrLegacyEmpty
| PayErrVersion (version : Z) (format : string) | PayErrFormat (format : string).

Record CredentialCodec := mkCodec {
  cd_Format : string; cd_Version : Z;
  cd_Encode : ActiveCredential → outcome payload_error string;
  cd_Decode : string → outcome payload_error ActiveCredential }.

(** [sp_Metadata] is the optional interface [secretProviderMetadata]. *)
Record SecretProvider := mkSecretProvider {
  sp_Encrypt : string → outcome string string; sp_Decrypt : string → outcome string string;
  sp_Metadata : option (string * Z) }.

(** ** Codecs *)

Section json_codec.
(** [json.Marshal] and [json.Unmarshal] on the payload struct, whose fields are those of [ActiveCredential]. *)
Variable json_Marshal : ActiveCredential → outcome string string.
Variable json_Unmarshal : string → outcome string ActiveCredential.

Definition trimmed_payload (c : ActiveCredential) : ActiveCredential :=
  mkActiveCredential (TrimSpace (ac_ConnectionID c)) (TrimSpace (ac_TokenType c)) (TrimSpace (ac_AccessToken c))
    (TrimSpace (ac_RefreshToken c)) (ac_RequestedScopes c) (ac_GrantedScopes c) (ac_ExpiresAt c) (ac_Refreshable c)
    (ac_RotatesAt c) (copyAnyMap (ac_Metadata c)).

Definition JSON_Encode (credential : ActiveCredential) : outcome payload_error string :=
  match json_Marshal (trimmed_payload credential) with Ok s => Ok s | Fail e => Fail (PayErrEncode e) end.

Definition JSON_Decode (payload : string) : outcome payload_error ActiveCredential :=
  if String.eqb payload "" then Fail PayErrEmptyPayload
  else match json_Unmarshal payload with
       | Ok decoded => Ok (trimmed_payload decoded)
       | Fail e => Fail (PayErrDecode e)
       end.

Definition JSONCredentialCodec : CredentialCodec :=
  mkCodec CredentialPayloadFormatJSONV1 CredentialPayloadVersionV1 JSON_Encode JSON_Decode.

Definition Legacy_Encode (credential : ActiveCredential) : outcome payload_error string :=
  let token := TrimSpace (ac_AccessToken credential) in
  let token := if String.eqb token "" then TrimSpace (ac_RefreshToken credential) else token in
  if String.eqb token "" then Fail PayErrLegacyNoToken else Ok token.

Definition Legacy_Decode (payload : string) : outcome payload_error ActiveCredential :=
  let token := TrimSpace payload in
  if String.eqb token "" then Fail PayErrLegacyEmpty
  else Ok (mkActiveCredential "" "" token "" [] [] None false None ∅).

Definition LegacyTokenCredentialCodec : CredentialCodec :=
  mkCodec CredentialPayloadFormatLegacyToken CredentialPayloadVersionV1 Legacy_Encode Legacy_Decode.

(** ** The service's payload functions; [None] is a dependency that is not configured *)

Definition encryptCredentialPayload (secret : option SecretProvider) (codec : option CredentialCodec)
    (credential : ActiveCredential) : outcome payload_error (string * string * Z * string * Z) :=
  match secret with
  | None => Fail PayErrSecretProvider
  | Some sp =>
    let codec := default JSONCredentialCodec codec in
    match cd_Encode codec credential with
    | Fail e => Fail e
    | Ok plaintext =>
      if String.eqb plaintext "" then Fail PayErrEmptyPlaintext
      else match sp_Encrypt sp plaintext with
      | Fail e => Fail (PayErrEncrypt e)
      | Ok encrypted =>
        if String.eqb encrypted "" then Fail PayErrEmptyCiphertext
        else if String.eqb encrypted plaintext then Fail PayErrNotEncrypted
        else
          let keyID := match sp_Metadata sp with
                       | Some (id, _) => if blank id then "managed" else TrimSpace id
                       | None => "managed" end in
          let version := match sp_Metadata sp with
                         | Some (_, v) => if (0 <? v)%Z then v else 1%Z
                         | None => 1%Z end in
          Ok (encrypted, keyID, version, cd_Format codec, cd_Version codec)
      end
    end
  end.

Definition codecForCredential (codec : option CredentialCodec) (credential : Credential) : outcome payload_error CredentialCodec :=
  let format := ToLower (TrimSpace (cred_PayloadFormat credential)) in
  let format := if String.eqb format "" then CredentialPayloadFormatLegacyToken else format in
  let version := if (cred_PayloadVersion credential <=? 0)%Z then CredentialPayloadVersionV1 else cred_PayloadVersion credential in
  let legacy :=
    if String.eqb format (cd_Format LegacyTokenCredentialCodec) then
      if negb (version =? cd_Version LegacyTokenCredentialCodec)%Z then Fail (PayErrVersion version format)
      else Ok LegacyTokenCredentialCodec
    else Fail (PayErrFormat format) in
  match codec with
  | None => legacy
  | Some primary =>
    if String.eqb format (ToLower (TrimSpace (cd_Format primary))) then
      if negb (version =? cd_Version primary)%Z then Fail (PayErrVersion version format) else Ok primary
    else legacy
  end.

(** The payload of a stored credential: decrypted and decoded, if there is one. *)
Definition decoded_payload (secret : option SecretProvider) (codec : option CredentialCodec) (credential : Credential)
    : outcome payload_error ActiveCredential :=
  if String.eqb (cred_EncryptedPayload credential) ""
  then Ok (mkActiveCredential (cred_ConnectionID credential) "" "" "" [] [] None false None ∅)
  else match secret with
  | None => Fail PayErrSecretProvider
  | Some sp =>
    match sp_Decrypt sp (cred_EncryptedPayload credential) with
    | Fail e => Fail (PayErrDecrypt e)
    | Ok decrypted => (let* c := codecForCredential codec credential in cd_Decode c decrypted)%go
    end
  end.

(** The gaps of the decoded payload are filled from the columns of the row. *)
Definition filled_from (credential : Credential) (active : ActiveCredential) : ActiveCredential :=
  mkActiveCredential
    (if blank (ac_ConnectionID active) then cred_ConnectionID credential else ac_ConnectionID active)
    (if blank (ac_TokenType active) then cred_TokenType credential else ac_TokenType active)
    (ac_AccessToken active) (ac_RefreshToken active)
    (match ac_RequestedScopes active with [] => cred_RequestedScopes credential | l => l end)
    (match ac_GrantedScopes active with [] => cred_GrantedScopes credential | l => l end)
    (match ac_ExpiresAt active with
     | None => if IsZero (cred_ExpiresAt credential) then None else Some (cred_ExpiresAt credential)
     | t => t end)
    (ac_Refreshable active || cred_Refreshable credential)
    (match ac_RotatesAt active with
     | None => if IsZero (cred_RotatesAt credential) then None else Some (cred_RotatesAt credential)
     | t => t end)
    (ac_Metadata active).

Definition credentialToActive (secret : option SecretProvider) (codec : option CredentialCodec) (credential : Credential)
    : outcome payload_error ActiveCredential :=
  (let* active := decoded_payload secret codec credential in Ok (filled_from credential active))%go.

(** The input with which the service saves a credential, in [CompleteCallback] and [Refresh]. *)
Definition save_input (connectionID : string) (credential : ActiveCredential) (enc : string * string * Z * string * Z)
    : SaveCredentialInput :=
  let '(encrypted, keyID, keyVersion, format, version) := enc in
  mkSaveCredential connectionID encrypted format version (ac_TokenType credential) (ac_RequestedScopes credential)
    (ac_GrantedScopes credential) (ac_ExpiresAt credential) (ac_Refreshable credential) (ac_RotatesAt credential)
    CredentialStatusActive keyID keyVersion.
End json_codec.

(** ** Round trip *)

Definition with_metadata (c : ActiveCredential) (m : gmap string value) : ActiveCredential :=
  mkActiveCredential (ac_ConnectionID c) (ac_TokenType c) (ac_AccessToken c) (ac_RefreshToken c) (ac_RequestedScopes c)
    (ac_GrantedScopes c) (ac_ExpiresAt c) (ac_Refreshable c) (ac_RotatesAt c) m.

Section roundtrip.
Variable json_Marshal : ActiveCredential → outcome string string.
Variable json_Unmarshal : string → outcome string ActiveCredential.
(** What [encoding/json] does to a map of dynamic values. *)
Variable json_map : gmap string value → gmap string value.
Abbreviation JSON := (JSONCredentialCodec json_Marshal json_Unmarshal).

(** A struct is read back from its encoding, up to the types of its dynamic values. *)
Definition json_inverts : Prop :=
  ∀ c s, json_Marshal c = Ok s → json_Unmarshal s = Ok (with_metadata c (json_map (ac_Metadata c))).

(** The secret provider decrypts what it encrypted. *)
Definition decrypts (sp : SecretProvider) : Prop := ∀ p c, sp_Encrypt sp p = Ok c → sp_Decrypt sp c = Ok p.

Lemma encrypted_payload sp cred enc :
  encryptCredentialPayload json_Marshal json_Unmarshal (Some sp) (Some JSON) cred = Ok enc →
  ∃ plaintext encrypted keyID version, JSON_Encode json_Marshal cred = Ok plaintext ∧ plaintext ≠ "" ∧
    sp_Encrypt sp plaintext = Ok encrypted ∧ encrypted ≠ "" ∧ encrypted ≠ plaintext ∧
    keyID ≠ "" ∧ TrimSpace keyID = keyID ∧ (0 < version)%Z ∧
    enc = (encrypted, keyID, version, CredentialPayloadFormatJSONV1, CredentialPayloadVersionV1).
Proof.
  unfold encryptCredentialPayload. simpl. destruct (JSON_Encode _ cred) as [plaintext|] eqn:Hp; [|done].
  destruct (String.eqb_spec plaintext ""); [done|]. destruct (sp_Encrypt sp plaintext) as [encrypted|] eqn:He; [|done].
  destruct (String.eqb_spec encrypted ""); [done|]. destruct (String.eqb_spec encrypted plaintext); [done|].
  intros [= <-]. do 4 eexists. split_and!; [done..| | | |reflexivity].
  - destruct (sp_Metadata sp) as [[id v]|]; [|done]. destruct (blank id) eqn:Hb; [done|]. by apply blank_false.
  - destruct (sp_Metadata sp) as [[id v]|]; [|done]. destruct (blank id); [done|]. apply TrimSpace_idem.
  - destruct (sp_Metadata sp) as [[id v]|]; [|lia]. destruct (Z.ltb_spec 0 v); lia.
Qed.

Lemma decoded_stored sp cred plaintext encrypted stored :
  json_inverts → decrypts sp → JSON_Encode json_Marshal cred = Ok plaintext → plaintext ≠ "" →
  sp_Encrypt sp plaintext = Ok encrypted → encrypted ≠ "" →
  cred_EncryptedPayload stored = encrypted → cred_PayloadFormat stored = CredentialPayloadFormatJSONV1 →
  cred_PayloadVersion stored = CredentialPayloadVersionV1 →
  decoded_payload (Some sp) (Some JSON) stored
  = Ok (trimmed_payload (with_metadata (trimmed_payload cred) (json_map (ac_Metadata cred)))).
Proof.
  intros Hjson Hdec Hp Hne He Hne' Hs Hf Hv. unfold decoded_payload. rewrite Hs.
  rewrite (proj2 (String.eqb_neq _ _) Hne'). rewrite (Hdec _ _ He). unfold codecForCredential. rewrite Hf, Hv. simpl.
  unfold JSON_Decode. rewrite (proj2 (String.eqb_neq _ _) Hne). unfold JSON_Encode in Hp.
  destruct (json_Marshal (trimmed_payload cred)) as [s|] eqn:Hm; [|done]. injection Hp as ->. by rewrite (Hjson _ _ Hm).
Qed.

(** C26: a saved credential is read back.  When the service encrypts a credential with its JSON codec and saves it, the
    store returns the saved row as the active one of the connection, and decrypting and decoding it gives the credential
    again: its tokens, token type and connection trimmed (the connection filled in if it had none), its scopes,
    expiry, rotation time and refreshability unchanged, its metadata as JSON returns it.  The plaintext itself is
    never what is stored. *)
Theorem credential_payload_roundtrip sp cred enc connectionID db env stored db' env' :
  json_inverts → decrypts sp → credentials_wf (db_credentials db) →
  encryptCredentialPayload json_Marshal json_Unmarshal (Some sp) (Some JSON) cred = Ok enc →
  Credential_SaveNewVersion db env (save_input connectionID cred enc) = (Ok stored, db') →
  env_fault env' 0 = None →
  Credential_GetActiveByConnection db' env' connectionID = Ok stored ∧
  JSON_Encode json_Marshal cred ≠ Ok (cred_EncryptedPayload stored) ∧
  ∃ loaded, credentialToActive (Some sp) (Some JSON) stored = Ok loaded ∧
    trimmed_payload loaded =
      mkActiveCredential
        (if blank (ac_ConnectionID cred) then TrimSpace connectionID else TrimSpace (ac_ConnectionID cred))
        (TrimSpace (ac_TokenType cred)) (TrimSpace (ac_AccessToken cred)) (TrimSpace (ac_RefreshToken cred))
        (ac_RequestedScopes cred) (ac_GrantedScopes cred) (ac_ExpiresAt cred) (ac_Refreshable cred) (ac_RotatesAt cred)
        (json_map (ac_Metadata cred)).
Proof.
  intros Hjson Hdec Hwf Henc Hsave Hf.
  destruct (encrypted_payload sp cred enc Henc) as (plaintext & encrypted & keyID & version & Hp & Hpne & He & Hene & Hdiff & _ & _ & _ & ->).
  destruct (Save_cases db env (save_input connectionID cred (encrypted, keyID, version, CredentialPayloadFormatJSONV1, CredentialPayloadVersionV1)) Hwf) as [(_ & _ & Heq & Hwf')|(_ & e & Heq)];
    [|congruence].
  rewrite Heq in Hsave. injection Hsave as <- <-. split_and!.
  - eapply GetActive_found; [exact Hwf'|done|apply lookup_insert_eq|reflexivity].
  - simpl. rewrite Hp. congruence.
  - eexists. split.
    + unfold credentialToActive. by rewrite (decoded_stored sp cred plaintext encrypted).
    + unfold trimmed_payload, filled_from. simpl. unfold blank. rewrite !TrimSpace_idem. f_equal.
      * destruct (String.eqb (TrimSpace (ac_ConnectionID cred)) ""); by rewrite ?TrimSpace_idem.
      * destruct (String.eqb (TrimSpace (ac_TokenType cred)) ""); by rewrite ?TrimSpace_idem.
      * by destruct (ac_RequestedScopes cred).
      * by destruct (ac_GrantedScopes cred).
      * by destruct (ac_ExpiresAt cred).
      * by destruct (ac_Refreshable cred).
      * by destruct (ac_RotatesAt cred).
Qed.
End roundtrip.

(** An encoder for credentials that are a bare token, and a secret provider that prefixes a key byte. *)
Section demo.
Definition bare_token (token : string) : ActiveCredential := mkActiveCredential "" "" token "" [] [] None false None ∅.
Definition demo_marshal (c : ActiveCredential) : outcome string string :=
  match c with
  | mkActiveCredential "" "" token "" [] [] None false None m =>
    match map_to_list m with [] => Ok ("{" +:+ token) | _ => Fail "unsupported" end
  | _ => Fail "unsupported"
  end.
Definition demo_unmarshal (s : string) : outcome string ActiveCredential :=
  match s with String "{"%char token => Ok (bare_token token) | _ => Fail "syntax" end.
Definition demo_secret : SecretProvider :=
  mkSecretProvider (λ p, Ok (String "k"%char p)) (λ c, match c with String _ p => Ok p | _ => Fail "short" end) (Some ("key-7 ", 3%Z)).

Lemma demo_inverts : json_inverts demo_marshal demo_unmarshal (λ m, m).
Proof.
  intros c s. unfold demo_marshal. repeat (case_match; try done). intros [= <-].
  match goal with H : map_to_list _ = [] |- _ => apply map_to_list_empty_iff in H; subst end. done.
Defined.

Lemma credential_payload_roundtrip_witness :
  let enc := ("k{abc", "key-7", 3%Z, "active_credential_json", 1%Z) in
  let saved := Credential_SaveNewVersion empty_db (quiet 5 "u1") (save_input "c1" (bare_token " abc ") enc) in
  ∃ stored, saved.1 = Ok stored ∧ Credential_GetActiveByConnection saved.2 (quiet 6 "") "c1" = Ok stored ∧
    ∃ loaded, credentialToActive (Some demo_secret) (Some (JSONCredentialCodec demo_marshal demo_unmarshal)) stored = Ok loaded ∧
      trimmed_payload loaded = mkActiveCredential "c1" "" "abc" "" [] [] None false None ∅.
Proof.
  eexists. split; [vm_compute; reflexivity|].
  destruct (credential_payload_roundtrip demo_marshal demo_unmarshal (λ m, m) demo_secret (bare_token " abc ")
    ("k{abc", "key-7", 3%Z, "active_credential_json", 1%Z) "c1" empty_db (quiet 5 "u1")
    (mkCredential "u1" "c1" 1 "k{abc" "active_credential_json" 1 "" [] [] 0%Z false 0%Z "active" 5%Z 5%Z)
    (Credential_SaveNewVersion empty_db (quiet 5 "u1") (save_input "c1" (bare_token " abc ")
       ("k{abc", "key-7", 3%Z, "active_credential_json", 1%Z))).2 (quiet 6 "")) as (Hget & _ & Hload).
  - exact demo_inverts.
  - intros p c [= <-]. reflexivity.
  - exact empty_credentials_wf.
  - vm_compute. reflexivity.
  - vm_compute. reflexivity.
  - reflexivity.
  - split; [exact Hget|]. destruct Hload as (loaded & Hl & Ht). exists loaded. split; [exact Hl|].
    rewrite Ht. vm_compute. reflexivity.
Defined.
End demo.
