(* ===== verification/Service.v ===== *)
(** * The service (src/core/service.go)

    The operations that compose the stores: [Connect], [StartReconsent], [CompleteCallback], [Refresh], [Revoke],
    [InvokeCapability], and [EnsureCredentialFresh] (src/core/credential_freshness.go).  They are written against the
    interfaces of the stores; a dependency that may be missing is a flag or an option of the service.  Errors are
    the values before the configured error mapper; logging and metrics are left out.  An operation takes one
    environment per store call, numbered in the order of the text. *)

From S2P Require Import Prelude GoStrings GoValues Domain Backoff OAuthState Contracts Grants Permissions Refresh.
From S2P Require Import ServiceTypes Connections Credentials.
From Stdlib Require Import ZArith Lia.
From stdpp Require Import base decidable list gmap strings sorting.

Local Open Scope string_scope.
Local Open Scope nat_scope.
Local Open Scope list_scope.

Inductive service_error (E : Type) :=
| SErrScope (e : domain_error)
| SErrRegistryUnavailable | SErrProviderNotFound (id : string) | SErrProviderIDRequired
| SErrConnectionIDRequired | SErrConnectionStoreRequired | SErrExternalAccountRequired
| SErrNoProviderID (connectionID : string)
| SErrProviderMismatch (connectionID : string) | SErrScopeMismatch (connectionID : string)
| SErrCallbackTarget | SErrCallbackAccount | SErrNoCredential | SErrCapabilityUnsupported (capability : string)
| SErrCallbackURL (cause : string) | SErrGenerateState (cause : string) | SErrStrategy (cause : string)
| SErrOAuth (e : oauth_error) | SErrLock (e : lock_error) | SErrPayload (e : payload_error)
| SErrGrants (e : reconcile_error E) | SErrPermission (e : permission_error E) | SErrStore (e : E).
Arguments SErrScope {E}. Arguments SErrRegistryUnavailable {E}. Arguments SErrProviderNotFound {E}.
Arguments SErrProviderIDRequired {E}. Arguments SErrConnectionIDRequired {E}. Arguments SErrConnectionStoreRequired {E}.
Arguments SErrExternalAccountRequired {E}. Arguments SErrNoProviderID {E}. Arguments SErrProviderMismatch {E}.
Arguments SErrScopeMismatch {E}. Arguments SErrCallbackTarget {E}. Arguments SErrCallbackAccount {E}.
Arguments SErrNoCredential {E}. Arguments SErrCapabilityUnsupported {E}. Arguments SErrCallbackURL {E}.
Arguments SErrGenerateState {E}. Arguments SErrStrategy {E}. Arguments SErrOAuth {E}. Arguments SErrLock {E}.
Arguments SErrPayload {E}. Arguments SErrGrants {E}. Arguments SErrPermission {E}. Arguments SErrStore {E}.

(** ** State and error of an operation *)

(** The database, the OAuth state store and the locks; [None] is one that is not configured. *)
Record SvcState (W O : Type) := mkSvcState {
  s_db : W; s_oauth : option O; s_locks : option MemoryConnectionLocker }.
Arguments mkSvcState {W O}. Arguments s_db {W O}. Arguments s_oauth {W O}. Arguments s_locks {W O}.

Definition with_db {W O} (s : SvcState W O) (db : W) : SvcState W O := mkSvcState db (s_oauth s) (s_locks s).

Section monad.
Context {E W O : Type}.

Definition svc (A : Type) : Type := SvcState W O → outcome (service_error E) A * SvcState W O.

Definition sret {A} (a : A) : svc A := λ s, (Ok a, s).
Definition sfail {A} (e : service_error E) : svc A := λ s, (Fail e, s).
Definition sbind {A B} (m : svc A) (k : A → svc B) : svc B :=
  λ s, match m s with (Ok a, s') => k a s' | (Fail e, s') => (Fail e, s') end.

(** A pure step that may fail, a read of the database, a write, and a write whose error the code ignores. *)
Definition lift {X A} (wrap : X → service_error E) (o : outcome X A) : svc A :=
  match o with Ok a => sret a | Fail e => sfail (wrap e) end.
Definition db_read {X A} (wrap : X → service_error E) (f : W → outcome X A) : svc A := λ s, lift wrap (f (s_db s)) s.
Definition db_write {X A} (wrap : X → service_error E) (f : W → outcome X A * W) : svc A :=
  λ s, let '(o, db) := f (s_db s) in lift wrap o (with_db s db).
Definition db_try {A} (f : W → outcome E A * W) : svc unit := λ s, (Ok tt, with_db s (f (s_db s)).2).
Definition swhen (b : bool) (m : svc unit) : svc unit := if b then m else sret tt.

Lemma sbind_Ok {A B} (m : svc A) (k : A → svc B) s b s' :
  sbind m k s = (Ok b, s') → ∃ a s1, m s = (Ok a, s1) ∧ k a s1 = (Ok b, s').
Proof. unfold sbind. destruct (m s) as [[a|e] s1]; [eauto|done]. Qed.

Lemma db_write_Ok {X A} (wrap : X → service_error E) (f : W → outcome X A * W) s a s' :
  db_write wrap f s = (Ok a, s') → f (s_db s) = (Ok a, s_db s') ∧ s' = with_db s (s_db s').
Proof. unfold db_write. destruct (f (s_db s)) as [[x|e] db]; [|done]. by intros [= -> <-]. Qed.
End monad.
Arguments svc : clear implicits.

Declare Scope svc_scope.
Delimit Scope svc_scope with svc.
Notation "'let!' x ':=' m 'in' k" := (sbind m (λ x, k)) (at level 10, x pattern, m at level 100, k at level 200) : svc_scope.
Notation "m ;; k" := (sbind m (λ _, k)) (at level 100, right associativity) : svc_scope.

Section service.
Context {MR : MapRange} {E W O : Type} {conns : ConnectionStore E W} {creds : CredentialStore E W}
  {gstore : GrantStore E W} {oauth : OAuthStateStore O}.
Variable methods : Provider → ProviderMethods.
Variable json_Marshal : ActiveCredential → outcome string string.
Variable json_Unmarshal : string → outcome string ActiveCredential.
(** The text of a scope validation error. *)
Variable scope_error_text : domain_error → string.
Abbreviation M := (svc E W O).
Local Open Scope svc_scope.

Record Service := mkService {
  svc_registry : option ProviderRegistry;
  svc_connectionStore : bool; svc_credentialStore : bool; svc_grantStore : bool; svc_grantTx : bool;
  svc_secretProvider : option SecretProvider; svc_credentialCodec : option CredentialCodec;
  svc_requireRedirect : bool; svc_enabledProviders : list string;
  svc_inheritancePolicy : option (W → string → ScopeRef → outcome E ConnectionResolution);
  svc_permissionEvaluator : option (W → string → string → outcome (permission_error E) PermissionDecision);
  svc_callbackURLResolver : option (CallbackURLResolveRequest → outcome string string) }.

Definition resolveProvider (v : Service) (providerID : string) : M Provider :=
  match svc_registry v with
  | None => sfail SErrRegistryUnavailable
  | Some registry =>
    let providerID := TrimSpace providerID in
    match Registry_Get registry providerID with
    | Some provider => sret provider
    | None => sfail (SErrProviderNotFound providerID)
    end
  end.

Definition resolveCallbackURL (v : Service) (req : CallbackURLResolveRequest) : M string :=
  match svc_callbackURLResolver v with
  | None => sret ""
  | Some resolve => let! url := lift SErrCallbackURL (resolve req) in sret (TrimSpace url)
  end.

(** [reconcileGrantSnapshot] of a service with or without a grant store; calls [n], [n+1], [n+2]. *)
Definition emptySnapshot : GrantSnapshot := mkSnapshot "" 0 [] [] zeroTime ∅.

Definition reconcile (v : Service) (env : nat → CallEnv) (n : nat) (provider : Provider) (connectionID : string)
    (requested granted : list string) (metadata : gmap string value) : M (GrantSnapshot * GrantDelta) :=
  if negb (svc_grantStore v) then sret (emptySnapshot, mkDelta "" [] [])
  else db_write SErrGrants (λ db,
    reconcileGrantSnapshot (svc_grantTx v) (pm_NormalizeGrantedPermissions (methods provider)) db
      (env n) (env (n + 1)) (env (n + 2)) (env_now (env (n + 1))) connectionID requested granted metadata).

(** The encrypted credential is saved as the next version. *)
Definition saveCredential (v : Service) (e : CallEnv) (connectionID : string) (credential : ActiveCredential) : M Credential :=
  let! enc := lift SErrPayload
    (encryptCredentialPayload json_Marshal json_Unmarshal (svc_secretProvider v) (svc_credentialCodec v) credential) in
  db_write SErrStore (λ db, ks_SaveNewVersion db e (save_input connectionID credential enc)).

(** ** Connecting *)

(** [random] is what [generateOAuthState] returns. *)
Definition Connect (v : Service) (env : nat → CallEnv) (random : outcome string string) (req : ConnectRequest) : M BeginAuthResponse :=
  lift SErrScope (ScopeRef_Validate (cq_Scope req)) ;;
  let redirect := TrimSpace (cq_RedirectURI req) in
  let! redirect :=
    if String.eqb redirect "" then
      resolveCallbackURL v (mkResolveURL (cq_ProviderID req) (cq_Scope req) "" CallbackURLResolveFlowConnect
        (cq_RequestedGrants req) (copyAnyMap (cq_Metadata req)))
    else sret redirect in
  let! provider := resolveProvider v (cq_ProviderID req) in
  let strategy := resolveAuthStrategy provider (methods provider) in
  let state := TrimSpace (cq_State req) in
  let! state :=
    if String.eqb state "" && strategyRequiresCallbackState strategy then lift SErrGenerateState random else sret state in
  let! start := lift SErrStrategy (as_Begin strategy (mkAuthBegin (cq_Scope req) redirect state (cq_RequestedGrants req) (cq_Metadata req))) in
  let response := mkBeginResponse (br_URL start)
    (if blank (br_State start) then state else br_State start)
    (match br_RequestedGrants start with [] => cq_RequestedGrants req | l => l end) (copyAnyMap (br_Metadata start)) in
  (λ s, match s_oauth s with
        | Some o =>
          if strategyRequiresCallbackState strategy then
            let '(saved, o') := oss_Save o (env_now (env 1))
              (mkOAuthState (br_State response) (cq_ProviderID req) (cq_Scope req) redirect (br_RequestedGrants response)
                 (copyAnyMap (cq_Metadata req)) (env_now (env 0)) zeroTime) in
            lift SErrOAuth saved (mkSvcState (s_db s) (Some o') (s_locks s))
          else (Ok tt, s)
        | None => (Ok tt, s)
        end) ;;
  sret response.

Definition StartReconsent (v : Service) (env : nat → CallEnv) (random : outcome string string) (req : ReconsentRequest) : M BeginAuthResponse :=
  if negb (svc_connectionStore v) then sfail SErrConnectionStoreRequired
  else
    let connectionID := TrimSpace (rc_ConnectionID req) in
    if String.eqb connectionID "" then sfail SErrConnectionIDRequired
    else
      let! connection := db_read SErrStore (λ db, cs_Get db (env 0) connectionID) in
      db_write SErrStore (λ db, cs_UpdateStatus db (env 1) connectionID ConnectionStatusNeedsReconsent "re-consent requested") ;;
      let! requested :=
        λ s, (Ok (match rc_RequestedGrants req with
                  | [] => if svc_grantStore v then
                            match gst_GetLatestSnapshot (s_db s) (env 2) connectionID with
                            | Ok (Some snapshot) => gs_Requested snapshot
                            | _ => []
                            end
                          else []
                  | l => l
                  end), s) in
      swhen (svc_grantStore v) (db_try (λ db, gst_AppendEvent db (env 3)
        (mkGrantEvent connectionID GrantEventReconsentRequested (normalizeGrants requested) [] (env_now (env 3))
           (copyAnyMap (rc_Metadata req))))) ;;
      let metadata := <["connection_id" := VString connectionID]> (copyAnyMap (rc_Metadata req)) in
      let scope := mkScopeRef (conn_ScopeType connection) (conn_ScopeID connection) in
      let redirect := TrimSpace (rc_RedirectURI req) in
      let! redirect :=
        if String.eqb redirect "" then
          resolveCallbackURL v (mkResolveURL (conn_ProviderID connection) scope connectionID CallbackURLResolveFlowReconsent
            requested (copyAnyMap metadata))
        else sret redirect in
      Connect v (λ n, env (n + 4)) random
        (mkConnect (conn_ProviderID connection) scope redirect (rc_State req) requested metadata).

(** ** Completing a callback *)

Definition findCallbackConnection (v : Service) (env : nat → CallEnv) (providerID : string) (scope : ScopeRef)
    (externalAccountID targetConnectionID : string) : M (option Connection) :=
  let targetConnectionID := TrimSpace targetConnectionID in
  if negb (String.eqb targetConnectionID "") then
    let! target := db_read SErrStore (λ db, cs_Get db (env 0) targetConnectionID) in
    if negb (EqualFold (TrimSpace (conn_ProviderID target)) (TrimSpace providerID))
       || negb (EqualFold (TrimSpace (conn_ScopeType target)) (TrimSpace (scope_Type scope)))
       || negb (String.eqb (TrimSpace (conn_ScopeID target)) (TrimSpace (scope_ID scope)))
    then sfail SErrCallbackTarget
    else if negb (String.eqb (TrimSpace (conn_ExternalAccountID target)) (TrimSpace externalAccountID))
    then sfail SErrCallbackAccount
    else sret (Some target)
  else db_read SErrStore (λ db, cs_FindByScopeAndExternalAccount db (env 0) providerID scope externalAccountID).

(** The connection the callback is for: found and re-activated, or created.  The flag tells whether it was waiting for
    re-consent. *)
Definition callbackConnection (v : Service) (env : nat → CallEnv) (providerID : string) (scope : ScopeRef)
    (externalAccountID : string) (metadata : gmap string value) : M (Connection * bool) :=
  if negb (svc_connectionStore v) then
    sret (mkConnection "" providerID (scope_Type scope) (scope_ID scope) externalAccountID ConnectionStatusActive "" "" zeroTime zeroTime,
          false)
  else
    let! found := findCallbackConnection v env providerID scope externalAccountID (readStringMetadata metadata ["connection_id"]) in
    match found with
    | Some existing =>
      db_write SErrStore (λ db, cs_UpdateStatus db (env 1) (conn_ID existing) ConnectionStatusActive "") ;;
      sret (conn_set existing ConnectionStatusActive "" (conn_UpdatedAt existing),
            String.eqb (conn_Status existing) ConnectionStatusNeedsReconsent)
    | None =>
      let! created := db_write SErrStore (λ db, cs_Create db (env 1)
        (mkCreateConnection providerID scope externalAccountID ConnectionStatusActive)) in
      sret (created, false)
    end.

(** The credential of a service without a credential store. *)
Definition unsavedCredential (connectionID : string) (c : ActiveCredential) : Credential :=
  mkCredential "" connectionID 0 "" "" 0 (ac_TokenType c) (ac_RequestedScopes c) (ac_GrantedScopes c)
    (default zeroTime (ac_ExpiresAt c)) false (default zeroTime (ac_RotatesAt c)) CredentialStatusActive zeroTime zeroTime.

(** The state check; the clock is read by the consuming and, on a mismatch, by the restoring call. *)
Definition callbackState (v : Service) (env : nat → CallEnv) (strategy : AuthStrategy) (req : CompleteAuthRequest)
    : M CompleteAuthRequest :=
  if strategyRequiresCallbackState strategy then
    let! record :=
      λ s, match s_oauth s with
           | None => (Ok (mkOAuthState "" "" (mkScopeRef "" "") "" [] ∅ zeroTime zeroTime), s)
           | Some o =>
             let '(r, o') := consumeOAuthCallbackState (svc_requireRedirect v) o (env_now (env 0)) (env_now (env 1)) req in
             lift SErrOAuth r (mkSvcState (s_db s) (Some o') (s_locks s))
           end in
    sret (applyOAuthStateContext req record)
  else sret req.

Definition CompleteCallback (v : Service) (env : nat → CallEnv) (req : CompleteAuthRequest) : M CallbackCompletion :=
  lift SErrScope (ScopeRef_Validate (ca_Scope req)) ;;
  let! provider := resolveProvider v (ca_ProviderID req) in
  let strategy := resolveAuthStrategy provider (methods provider) in
  let! req := callbackState v env strategy req in
  let! result := lift SErrStrategy (as_Complete strategy
    (mkAuthComplete (ca_Scope req) (ca_Code req) (ca_State req) (ca_RedirectURI req) (copyAnyMap (ca_Metadata req)))) in
  let providerID := TrimSpace (prov_ID provider) in
  let scope := mkScopeRef (TrimSpace (ToLower (scope_Type (ca_Scope req)))) (TrimSpace (scope_ID (ca_Scope req))) in
  let externalAccountID := TrimSpace (ar_ExternalAccountID result) in
  if String.eqb externalAccountID "" then sfail SErrExternalAccountRequired
  else
    let! (connection, wasNeedsReconsent) :=
      callbackConnection v (λ n, env (n + 2)) providerID scope externalAccountID (ca_Metadata req) in
    let! credential :=
      if svc_credentialStore v then saveCredential v (env 4) (conn_ID connection) (ar_Credential result)
      else sret (unsavedCredential (conn_ID connection) (ar_Credential result)) in
    let requestedGrants := match ar_RequestedGrants result with [] => ac_RequestedScopes (ar_Credential result) | l => l end in
    let grantedGrants := match ar_GrantedGrants result with [] => ac_GrantedScopes (ar_Credential result) | l => l end in
    let! (_, delta) := reconcile v env 5 provider (conn_ID connection) requestedGrants grantedGrants (ca_Metadata req) in
    swhen (wasNeedsReconsent && svc_grantStore v) (db_try (λ db, gst_AppendEvent db (env 8)
      (mkGrantEvent (conn_ID connection) GrantEventReconsentCompleted (gd_Added delta) (gd_Removed delta) (env_now (env 8))
         (copyAnyMap (ca_Metadata req))))) ;;
    sret (mkCompletion connection credential).

Definition CompleteReconsent (v : Service) (env : nat → CallEnv) (req : CompleteAuthRequest) : M CallbackCompletion :=
  CompleteCallback v env req.

(** ** Refreshing *)

Definition transitionConnectionToNeedsReconsent (v : Service) (env : nat → CallEnv) (connectionID reason : string) : M unit :=
  if negb (svc_connectionStore v) then sret tt
  else
    let reason := if blank reason then "re-consent required" else TrimSpace reason in
    db_write SErrStore (λ db, cs_UpdateStatus db (env 0) connectionID ConnectionStatusNeedsReconsent reason) ;;
    swhen (svc_grantStore v) (db_try (λ db, gst_AppendEvent db (env 1)
      (mkGrantEvent connectionID GrantEventReconsentRequested [] [] (env_now (env 1)) {[ "reason" := VString reason ]}))).

(** The provider of the connection, which the one of the request has to agree with. *)
Definition refreshProviderID (v : Service) (e : CallEnv) (connectionID requested : string) : M string :=
  let! resolved :=
    if svc_connectionStore v then
      let! connection := db_read SErrStore (λ db, cs_Get db e connectionID) in
      let connectionProviderID := TrimSpace (conn_ProviderID connection) in
      if String.eqb connectionProviderID "" then sfail (SErrNoProviderID connectionID)
      else if String.eqb requested "" then sret connectionProviderID
      else if negb (EqualFold requested connectionProviderID) then sfail (SErrProviderMismatch connectionID)
      else sret requested
    else sret requested in
  if String.eqb resolved "" then sfail SErrProviderIDRequired else sret resolved.

Definition refreshCredential (v : Service) (e : CallEnv) (connectionID : string) (given : option ActiveCredential) : M ActiveCredential :=
  match given with
  | Some c => sret c
  | None =>
    if svc_credentialStore v then
      let! stored := db_read SErrStore (λ db, ks_GetActiveByConnection db e connectionID) in
      lift SErrPayload (credentialToActive (svc_secretProvider v) (svc_credentialCodec v) stored)
    else sfail SErrNoCredential
  end.

(** [Refresh] with the lock held. *)
Definition Refresh_locked (v : Service) (env : nat → CallEnv) (connectionID : string) (req : RefreshRequest) : M RefreshResult :=
  let! providerID := refreshProviderID v (env 0) connectionID (TrimSpace (rq_ProviderID req)) in
  let! provider := resolveProvider v providerID in
  let strategy := resolveAuthStrategy provider (methods provider) in
  let! activeCred := refreshCredential v (env 1) connectionID (rq_Credential req) in
  let! result := lift SErrStrategy (as_Refresh strategy activeCred) in
  swhen (svc_credentialStore v && shouldPersistRefreshedCredential activeCred (rr_Credential result))
    (saveCredential v (env 2) connectionID (rr_Credential result) ;; sret tt) ;;
  swhen (svc_connectionStore v)
    (db_write SErrStore (λ db, cs_UpdateStatus db (env 3) connectionID ConnectionStatusActive "")) ;;
  let! (snapshot, _) := reconcile v env 4 provider connectionID (ac_RequestedScopes (rr_Credential result))
    (resolveRefreshGrantedGrants result) (rr_Metadata result) in
  swhen (0 <? length (missingRequiredProviderGrants (prov_Capabilities provider) (gs_Granted snapshot)))
    (transitionConnectionToNeedsReconsent v (λ n, env (n + 7)) connectionID "required grants missing after refresh") ;;
  sret result.

(** [held] is the connection whose lock the context carries, the empty string if there is none. *)
Definition isRefreshLockHeld (held connectionID : string) : bool := String.eqb (TrimSpace held) (TrimSpace connectionID).

Definition Refresh (v : Service) (env : nat → CallEnv) (held : string) (req : RefreshRequest) : M RefreshResult :=
  let connectionID := TrimSpace (rq_ConnectionID req) in
  if String.eqb connectionID "" then sfail SErrConnectionIDRequired
  else λ s,
    match s_locks s with
    | Some locks =>
      if isRefreshLockHeld held connectionID then Refresh_locked v env connectionID req s
      else match Lock_Acquire locks (env_now (env 0)) connectionID defaultRefreshLockTTL with
      | (Fail e, locks') => (Fail (SErrLock e), mkSvcState (s_db s) (s_oauth s) (Some locks'))
      | (Ok handle, locks') =>
        let '(res, s') := Refresh_locked v env connectionID req (mkSvcState (s_db s) (s_oauth s) (Some locks')) in
        (res, mkSvcState (s_db s') (s_oauth s') ((λ ls, (Lock_Unlock ls handle).2) <$> s_locks s'))
      end
    | None => Refresh_locked v env connectionID req s
    end.

Record EnsureCredentialFreshRequest := mkEnsureRequest {
  ef_ProviderID : string; ef_ConnectionID : string; ef_Credential : option ActiveCredential;
  ef_RefreshLeadWindow : Duration; ef_ExpiringSoonWindow : Duration }.

Record EnsureCredentialFreshResult := mkEnsureResult {
  er_Credential : ActiveCredential; er_State : CredentialTokenState; er_RefreshAttempted : bool; er_Refreshed : bool }.

Definition with_connection (c : ActiveCredential) (connectionID : string) : ActiveCredential :=
  if blank (ac_ConnectionID c)
  then mkActiveCredential connectionID (ac_TokenType c) (ac_AccessToken c) (ac_RefreshToken c) (ac_RequestedScopes c)
         (ac_GrantedScopes c) (ac_ExpiresAt c) (ac_Refreshable c) (ac_RotatesAt c) (ac_Metadata c)
  else c.

(** A failed refresh returns the credential as it was along with the error. *)
Definition EnsureCredentialFresh (v : Service) (env : nat → CallEnv) (held : string) (req : EnsureCredentialFreshRequest)
    : M (EnsureCredentialFreshResult * option (service_error E)) :=
  let connectionID := TrimSpace (ef_ConnectionID req) in
  let connectionID := match ef_Credential req with
                      | Some c => if String.eqb connectionID "" then TrimSpace (ac_ConnectionID c) else connectionID
                      | None => connectionID end in
  if String.eqb connectionID "" then sfail SErrConnectionIDRequired
  else
    let soon := if (ef_ExpiringSoonWindow req <=? 0)%Z then DefaultCredentialExpiringSoonWindow else ef_ExpiringSoonWindow req in
    let lead := if (ef_RefreshLeadWindow req <=? 0)%Z then DefaultCredentialRefreshLeadWindow else ef_RefreshLeadWindow req in
    let! active := refreshCredential v (env 0) connectionID (ef_Credential req) in
    let active := with_connection active connectionID in
    let now := env_now (env 1) in
    let state := ResolveCredentialTokenState now now active soon in
    if negb (ShouldRefreshCredential now now state lead) then sret (mkEnsureResult active state false false, None)
    else
      λ s, match Refresh v (λ n, env (n + 2)) held
                   (mkRefreshRequest (TrimSpace (ef_ProviderID req)) connectionID (Some active)) s with
           | (Fail e, s') => (Ok (mkEnsureResult active state true false, Some e), s')
           | (Ok refreshResult, s') =>
             let refreshed := with_connection (rr_Credential refreshResult) connectionID in
             (Ok (mkEnsureResult refreshed (ResolveCredentialTokenState now now refreshed soon) true true, None), s')
           end.

(** ** Revoking *)

Definition Revoke (v : Service) (env : nat → CallEnv) (connectionID reason : string) : M unit :=
  if blank connectionID then sfail SErrConnectionIDRequired
  else
    swhen (svc_credentialStore v) (db_write SErrStore (λ db, ks_RevokeActive db (env 0) connectionID reason)) ;;
    swhen (svc_connectionStore v)
      (db_write SErrStore (λ db, cs_UpdateStatus db (env 1) connectionID ConnectionStatusDisconnected reason)).

(** ** Invoking a capability *)

Definition resolveConnection (v : Service) (e : CallEnv) (db : W) (providerID : string) (requested : ScopeRef)
    : outcome E ConnectionResolution :=
  let strict := ResolveConnection scope_error_text
    (if svc_connectionStore v then Some (λ p sc, cs_FindByScope db e p sc) else None) providerID requested in
  if negb (allowProviderInheritance providerID (svc_enabledProviders v)) then strict
  else match svc_inheritancePolicy v with
       | None => strict
       | Some policy => policy db providerID requested
       end.

(** The connection a request names, or the one its scope resolves to. *)
Definition capabilityConnection (v : Service) (e : CallEnv) (req : InvokeCapabilityRequest) : M ConnectionResolution :=
  let requestedConnectionID := TrimSpace (iq_ConnectionID req) in
  if negb (String.eqb requestedConnectionID "") then
    if negb (svc_connectionStore v) then sfail SErrConnectionStoreRequired
    else
      let! connection := db_read SErrStore (λ db, cs_Get db e requestedConnectionID) in
      if negb (EqualFold (TrimSpace (conn_ProviderID connection)) (TrimSpace (iq_ProviderID req)))
      then sfail (SErrProviderMismatch requestedConnectionID)
      else if (negb (blank (scope_Type (iq_Scope req))) || negb (blank (scope_ID (iq_Scope req))))
              && (negb (EqualFold (TrimSpace (conn_ScopeType connection)) (TrimSpace (scope_Type (iq_Scope req))))
                  || negb (String.eqb (TrimSpace (conn_ScopeID connection)) (TrimSpace (scope_ID (iq_Scope req)))))
      then sfail (SErrScopeMismatch requestedConnectionID)
      else if negb (String.eqb (conn_Status connection) ConnectionStatusActive)
      then sret (mkResolution ConnectionResolutionNotFound emptyConnection None "connection is not active")
      else sret (mkResolution ConnectionResolutionDirect connection None "")
  else db_read SErrStore (λ db, resolveConnection v e db (iq_ProviderID req) (iq_Scope req)).

Definition InvokeCapability (v : Service) (env : nat → CallEnv) (req : InvokeCapabilityRequest) : M CapabilityResult :=
  let! provider := resolveProvider v (iq_ProviderID req) in
  match findCapabilityDescriptor (prov_Capabilities provider) (iq_Capability req) with
  | None => sfail (SErrCapabilityUnsupported (iq_Capability req))
  | Some descriptor =>
    let! resolution := capabilityConnection v (env 0) req in
    if String.eqb (res_Outcome resolution) ConnectionResolutionNotFound
       || String.eqb (res_Outcome resolution) ConnectionResolutionAmbiguous
    then sret (mkCapabilityResult false CapabilityDeniedBehaviorBlock (res_Reason resolution) emptyConnection ∅)
    else
      let! decision :=
        match svc_permissionEvaluator v with
        | None => sret (mkDecision true (iq_Capability req) "" [] (cap_DeniedBehavior descriptor))
        | Some evaluate =>
          let! d := db_read SErrPermission (λ db, evaluate db (conn_ID (res_Connection resolution)) (iq_Capability req)) in
          sret (if String.eqb (pd_Mode d) ""
                then mkDecision (pd_Allowed d) (pd_Capability d) (pd_Reason d) (pd_MissingGrants d) (cap_DeniedBehavior descriptor)
                else d)
        end in
      let metadata := {[ "resolution" := VString (res_Outcome resolution) ]} in
      let metadata := match pd_MissingGrants decision with [] => metadata | l => <["missing_grants" := VStrings l]> metadata end in
      sret (mkCapabilityResult (pd_Allowed decision) (pd_Mode decision) (pd_Reason decision) (res_Connection resolution) metadata)
  end.
End service.

(** ** The service over the SQL database *)

Section sql_service.
Context {MR : MapRange} {O : Type} {oauth : OAuthStateStore O}.
Variable methods : Provider → ProviderMethods.
Variable json_Marshal : ActiveCredential → outcome string string.
Variable json_Unmarshal : string → outcome string ActiveCredential.
Variable scope_error_text : domain_error → string.
Variable format_time : Time → string.
Variable json_column : gmap string value → gmap string value.
#[local] Instance sql_grants : GrantStore sql_error ServiceDB := db_grant_store format_time json_column.
Abbreviation service := (@Service sql_error ServiceDB).
Abbreviation state := (SvcState ServiceDB O).
Abbreviation refresh := (Refresh methods json_Marshal json_Unmarshal).
Abbreviation invoke := (InvokeCapability scope_error_text).
Implicit Types (v : service) (s : state).

Lemma UpdateStatus_ok db env id status reason db' :
  Connection_UpdateStatus db env id status reason = (Ok tt, db') →
  ∃ r, connection_by_id db (TrimSpace id) = Some r ∧
    db' = with_connections db (<[TrimSpace id := connection_set r (TrimSpace status) (TrimSpace reason) (env_now env)]> (db_connections db)).
Proof.
  unfold Connection_UpdateStatus. destruct (String.eqb _ ""); [done|]. destruct (env_fault env 0); [done|].
  destruct (connection_by_id db _) as [r|]; [|done]. destruct (env_fault env 1); [done|]. intros [= <-]. eauto.
Qed.

Lemma sbind_eq {A B} (m : svc sql_error ServiceDB O A) (k : A → svc sql_error ServiceDB O B) s a s1 :
  m s = (Ok a, s1) → sbind m k s = k a s1.
Proof. unfold sbind. by intros ->. Qed.

Lemma sbind_Fail {A B} (m : svc sql_error ServiceDB O A) (k : A → svc sql_error ServiceDB O B) s e s1 :
  m s = (Fail e, s1) → sbind m k s = (Fail e, s1).
Proof. unfold sbind. by intros ->. Qed.

(** Operations that only read. *)
Lemma resolveProvider_reads v id s :
  resolveProvider v id s = (match svc_registry v with
                            | None => Fail SErrRegistryUnavailable
                            | Some registry => match Registry_Get registry (TrimSpace id) with
                                               | Some p => Ok p | None => Fail (SErrProviderNotFound (TrimSpace id)) end
                            end, s).
Proof. unfold resolveProvider. by repeat case_match. Qed.

Lemma refreshProviderID_reads v e c p s : (refreshProviderID v e c p s).2 = s.
Proof.
  unfold refreshProviderID, sbind, db_read, lift, sret, sfail.
  destruct (svc_connectionStore v); simpl; [|by destruct (String.eqb p "")].
  destruct (Connection_Get (s_db s) e c) as [conn|]; [|done].
  destruct (String.eqb (TrimSpace (conn_ProviderID conn)) "") eqn:E; [done|].
  destruct (String.eqb p "") eqn:E'; [by rewrite E|]. destruct (negb _); [done|]. by rewrite E'.
Qed.

Lemma refreshCredential_none v e c s :
  (∀ env, ∃ e, Credential_GetActiveByConnection (s_db s) env c = Fail e) →
  ∃ e', refreshCredential v e c None s = (Fail e', s).
Proof.
  intros Hno. unfold refreshCredential. destruct (svc_credentialStore v); [|by eexists].
  destruct (Hno e) as [e' He']. erewrite sbind_Fail; [by eexists|]. unfold db_read. simpl. by rewrite He'.
Qed.

(** A refresh that has to load the credential fails without an active one, and changes nothing. *)
Lemma Refresh_locked_no_credential v env c req s :
  rq_Credential req = None → (∀ env, ∃ e, Credential_GetActiveByConnection (s_db s) env c = Fail e) →
  ∃ e, Refresh_locked methods json_Marshal json_Unmarshal v env c req s = (Fail e, s).
Proof.
  intros Hreq Hno. unfold Refresh_locked. rewrite Hreq.
  pose proof (refreshProviderID_reads v (env 0) c (TrimSpace (rq_ProviderID req)) s) as Hro.
  destruct (refreshProviderID _ _ _ _ s) as [[p|e] s1] eqn:Hp; simpl in Hro; subst s1;
    [rewrite (sbind_eq _ _ _ _ _ Hp)|rewrite (sbind_Fail _ _ _ _ _ Hp); by eexists].
  pose proof (resolveProvider_reads v p s) as Hprov.
  destruct (match svc_registry v with None => _ | Some _ => _ end) as [provider|e];
    [rewrite (sbind_eq _ _ _ _ _ Hprov)|rewrite (sbind_Fail _ _ _ _ _ Hprov); by eexists].
  destruct (refreshCredential_none v (env 1) c s) as [e He]; [done|]. rewrite (sbind_Fail _ _ _ _ _ He). by eexists.
Qed.

Lemma Refresh_no_credential v env held req s :
  rq_Credential req = None → (∀ env, ∃ e, Credential_GetActiveByConnection (s_db s) env (TrimSpace (rq_ConnectionID req)) = Fail e) →
  ∃ e s', refresh v env held req s = (Fail e, s') ∧ s_db s' = s_db s.
Proof.
  intros Hreq Hno. unfold Refresh. destruct (String.eqb _ ""); [by do 2 eexists|].
  assert (Hfail : ∀ s0, s_db s0 = s_db s →
    ∃ e, Refresh_locked methods json_Marshal json_Unmarshal v env (TrimSpace (rq_ConnectionID req)) req s0 = (Fail e, s0)).
  { intros s0 Hs0. apply Refresh_locked_no_credential; [done|]. by rewrite Hs0. }
  destruct (s_locks s) as [locks|]; [|destruct (Hfail s) as [e He]; [done|]; rewrite He; by do 2 eexists].
  destruct (isRefreshLockHeld _ _); [destruct (Hfail s) as [e He]; [done|]; rewrite He; by do 2 eexists|].
  destruct (Lock_Acquire _ _ _ _) as [[handle|e] locks']; [|by do 2 eexists].
  destruct (Hfail (mkSvcState (s_db s) (s_oauth s) (Some locks'))) as [e He]; [done|]. rewrite He. by do 2 eexists.
Qed.

(** ** The connection a capability is invoked on *)

(** Every row is stored under its identifier. *)
Definition connections_by_id (t : connection_table) : Prop := ∀ id r, t !! id = Some r → cn_ID r = id.

Definition active_row (db : ServiceDB) (c : Connection) : Prop :=
  ∃ id r, db_connections db !! id = Some r ∧ live_row r = true ∧ cn_Status r = ConnectionStatusActive ∧ c = connection_toDomain r.

Lemma select_row db cond r : r ∈ select_connections db cond ↔ (∃ id, db_connections db !! id = Some r) ∧ live_row r = true ∧ cond r = true.
Proof.
  unfold select_connections. rewrite merge_sort_Permutation, list_elem_of_filter, elem_of_rows, andb_true_iff. tauto.
Qed.

Lemma strict_active v e db providerID scope res :
  svc_connectionStore v = true → svc_inheritancePolicy v = None →
  resolveConnection scope_error_text v e db providerID scope = Ok res →
  res_Outcome res ≠ ConnectionResolutionNotFound → res_Outcome res ≠ ConnectionResolutionAmbiguous →
  active_row db (res_Connection res).
Proof.
  intros Hc Hp. unfold resolveConnection. rewrite Hc, Hp. intros Hres Hn Ha.
  assert (Hstrict : ResolveConnection scope_error_text (Some (λ p sc, Connection_FindByScope db e p sc)) providerID scope = Ok res)
    by (by destruct (negb _)). clear Hres.
  revert Hstrict. unfold ResolveConnection. destruct (ScopeRef_Validate scope) as [|err] eqn:Hs; [|by intros [= <-]].
  unfold Connection_FindByScope. rewrite Hs. destruct (env_fault e 0); [done|].
  destruct (filter _ _) as [|c [|]] eqn:Hf; [by intros [= <-]| |by intros [= <-]]. intros [= <-]. simpl.
  assert (Hin : c ∈ [c]) by left. rewrite <- Hf in Hin.
  apply list_elem_of_filter in Hin as [Hact (r & -> & Hr)%list_elem_of_fmap].
  apply select_row in Hr as ([id Hid] & Hlive & _). exists id, r. done.
Qed.

Lemma named_active v e req s res s' :
  svc_connectionStore v = true → svc_inheritancePolicy v = None →
  capabilityConnection scope_error_text v e req s = (Ok res, s') →
  s' = s ∧ (res_Outcome res ≠ ConnectionResolutionNotFound → res_Outcome res ≠ ConnectionResolutionAmbiguous →
            active_row (s_db s) (res_Connection res)).
Proof.
  intros Hc Hp. unfold capabilityConnection. rewrite Hc.
  destruct (negb (String.eqb (TrimSpace (iq_ConnectionID req)) "")) eqn:Hid; simpl negb; cbv iota.
  - unfold sbind, db_read, lift, sret, sfail. simpl. unfold Connection_Get.
    destruct (env_fault e 0); [done|]. unfold connection_by_id.
    destruct (db_connections (s_db s) !! _) as [r|] eqn:Hr; [|done]. destruct (live_row r) eqn:Hl; [|done].
    case_match; [done|]. case_match; [done|]. case_match eqn:Hst; intros [= <- <-]; (split; [done|]); intros Hn _; [done|].
    exists (TrimSpace (TrimSpace (iq_ConnectionID req))), r. split_and!; [done|done| |done].
    apply negb_false_iff, String.eqb_eq in Hst. done.
  - unfold db_read, lift, sret, sfail. destruct (resolveConnection _ _ _ _ _ _) as [res'|] eqn:Hr; [|done].
    intros [= -> <-]. split; [done|]. by eapply strict_active.
Qed.

(** A capability is allowed only on a connection with a live, active row. *)
Lemma invoke_active v env req s r s' :
  svc_connectionStore v = true → svc_inheritancePolicy v = None →
  invoke v env req s = (Ok r, s') → cr_Allowed r = true → active_row (s_db s) (cr_Connection r).
Proof.
  intros Hc Hp. unfold InvokeCapability. intros Hinv Hall.
  apply sbind_Ok in Hinv as (provider & s1 & Hprov & Hinv). rewrite resolveProvider_reads in Hprov.
  assert (s1 = s) as -> by congruence. clear Hprov.
  destruct (findCapabilityDescriptor _ _) as [descriptor|]; [|done].
  apply sbind_Ok in Hinv as (res & s2 & Hres & Hinv). apply named_active in Hres as [-> Hact]; [|done|done].
  destruct (String.eqb_spec (res_Outcome res) ConnectionResolutionNotFound) as [|Hn]; simpl orb in Hinv.
  { injection Hinv as <- <-. done. }
  destruct (String.eqb_spec (res_Outcome res) ConnectionResolutionAmbiguous) as [|Ha].
  { injection Hinv as <- <-. done. }
  apply sbind_Ok in Hinv as (d & s3 & _ & Hinv). injection Hinv as <- <-. simpl. by apply Hact.
Qed.

Lemma RevokeActive_no_active db env c reason db' :
  Credential_RevokeActive db env c reason = (Ok tt, db') →
  ∀ k r, db_credentials db' !! k = Some r → is_active_of (TrimSpace c) r = false.
Proof.
  unfold Credential_RevokeActive. destruct (String.eqb _ ""); [done|]. destruct (env_fault env 0); [done|].
  intros [= <-] k r. apply revoke_no_active.
Qed.

Lemma Revoke_no_active v env s c reason s' :
  svc_connectionStore v = true → svc_credentialStore v = true → Revoke v env c reason s = (Ok tt, s') →
  blank c = false ∧ ∀ k r, db_credentials (s_db s') !! k = Some r → is_active_of (TrimSpace c) r = false.
Proof.
  intros Hc Hk. unfold Revoke. destruct (blank c) eqn:Hb; [done|]. rewrite Hc, Hk. unfold swhen. intros Hrev. split; [done|].
  apply sbind_Ok in Hrev as ([] & s1 & [Hr1 ->]%db_write_Ok & [Hr2 ->]%db_write_Ok). simpl in *.
  apply UpdateStatus_ok in Hr2 as (row & Hrow & ->). exact (RevokeActive_no_active _ _ _ _ _ Hr1).
Qed.


(** ** What the steps of a refresh and a callback leave alone *)

(** Only the grant tables differ. *)
Definition grants_only (s s' : state) : Prop :=
  s_oauth s' = s_oauth s ∧ s_locks s' = s_locks s ∧
  db_connections (s_db s') = db_connections (s_db s) ∧ db_credentials (s_db s') = db_credentials (s_db s).

Lemma reconcile_frame v env n provider c requested granted metadata s :
  grants_only s (reconcile methods v env n provider c requested granted metadata s).2.
Proof.
  unfold reconcile. destruct (negb _); [done|]. unfold db_write, reconcileGrantSnapshot, reconcile_write.
  destruct (reconcile_read _ _ _ _ _ _ _ _) as [[[input delta] event]|e]; [|done]. simpl.
  destruct (svc_grantTx v).
  - by destruct (Grant_SaveSnapshotAndEvent _ _ _ _ _) as [[[]|e] db].
  - destruct (Grant_SaveSnapshot _ _ _ _) as [[[]|e] db]; [|done]. destruct event as [ev|]; [|done]. simpl.
    by destruct (Grant_AppendEvent _ _ _) as [[[]|e] db'].
Qed.

Lemma note_frame (b : bool) e event s s' :
  swhen b (db_try (λ db, gst_AppendEvent db e event)) s = (Ok tt, s') → grants_only s s'.
Proof. destruct b; by intros [= <-]. Qed.

(** The grants a reconciliation records. *)
Lemma reconcile_granted v env n provider c requested granted metadata s snapshot delta s' :
  svc_grantStore v = true →
  reconcile methods v env n provider c requested granted metadata s = (Ok (snapshot, delta), s') →
  provider_normalized (E := sql_error) (pm_NormalizeGrantedPermissions (methods provider)) (normalizeGrants granted)
  = Ok (gs_Granted snapshot).
Proof.
  intros Hg. unfold reconcile. rewrite Hg. simpl. intros [Hrec _]%db_write_Ok. revert Hrec. unfold reconcileGrantSnapshot.
  destruct (reconcile_read _ _ _ _ _ _ _ _) as [[[input delta'] event]|e] eqn:Hr; [|done].
  destruct (reconcile_write _ _ _ _ _ _) as [[[]|e] db']; [|done]. intros [= <- _ _]. simpl.
  revert Hr. unfold reconcile_read. cbv zeta. destruct (provider_normalized _ _) as [g|e]; [|done]. simpl.
  destruct (latest_snapshot _ _ _) as [prev|e]; [|done]. by intros [= <- _ _].
Qed.

(** A saved credential is the active one, and the credentials of other connections are untouched. *)
Lemma saveCredential_ok v e c cred s stored s' :
  credentials_wf (db_credentials (s_db s)) →
  saveCredential json_Marshal json_Unmarshal v e c cred s = (Ok stored, s') →
  s' = with_db s (s_db s') ∧ db_connections (s_db s') = db_connections (s_db s) ∧ credentials_wf (db_credentials (s_db s')) ∧
  (∃ enc, encryptCredentialPayload json_Marshal json_Unmarshal (svc_secretProvider v) (svc_credentialCodec v) cred = Ok enc ∧
     cred_EncryptedPayload stored = enc.1.1.1.1) ∧
  (∀ env', env_fault env' 0 = None → Credential_GetActiveByConnection (s_db s') env' c = Ok stored) ∧
  (∀ c' n, c' ≠ TrimSpace c → db_credentials (s_db s') !! (c', n) = db_credentials (s_db s) !! (c', n)).
Proof.
  intros Hwf Hsave. apply sbind_Ok in Hsave as (enc & s1 & Henc & [Hdb Hs']%db_write_Ok).
  destruct (encryptCredentialPayload _ _ _ _ _) as [enc'|err] eqn:Hpay; [|done]. injection Henc as -> <-.
  destruct enc as [[[[encrypted keyID] keyVersion] format] version]. simpl in Hdb.
  destruct (Save_cases (s_db s) e (save_input c cred (encrypted, keyID, keyVersion, format, version)) Hwf)
    as [(_ & _ & Heq & Hwf')|(_ & err & Heq)]; simpl in Heq; rewrite Heq in Hdb; [|done].
  injection Hdb as <- Hdb. rewrite <- Hdb. split_and!; [congruence|done|done|by eexists| |].
  - intros env' Hf. eapply GetActive_found; [exact Hwf'|done|apply lookup_insert_eq|done].
  - intros c' n Hne. simpl. rewrite lookup_insert_ne by (intros [=]; congruence). unfold rotated. simpl.
    rewrite revoke_lookup. destruct (db_credentials (s_db s) !! (c', n)) as [r|] eqn:Hr; [|done]. simpl. f_equal.
    destruct (is_active_of (TrimSpace c) r) eqn:Ha; [|done]. apply is_active_of_spec in Ha as [Ha _].
    destruct (kw_keyed _ Hwf _ _ _ Hr). congruence.
Qed.

(** ** What a refresh does *)

(** The credential that is refreshed: the one of the request, or the stored one, decrypted. *)
Definition refreshed_from v (db : ServiceDB) (c : string) (given : option ActiveCredential) (used : ActiveCredential) : Prop :=
  match given with
  | Some cred => used = cred
  | None => ∃ e stored, Credential_GetActiveByConnection db e c = Ok stored ∧
                        credentialToActive (svc_secretProvider v) (svc_credentialCodec v) stored = Ok used
  end.

Lemma refreshCredential_ok v e c given s used s' :
  refreshCredential v e c given s = (Ok used, s') → s' = s ∧ refreshed_from v (s_db s) c given used.
Proof.
  unfold refreshCredential. destruct given as [cred|]; [by intros [= -> ->]|].
  destruct (svc_credentialStore v); [|done]. intros (stored & s1 & Hget & Hact)%sbind_Ok.
  revert Hget. unfold db_read. simpl. destruct (Credential_GetActiveByConnection _ _ _) as [k|] eqn:Hk; [|done].
  intros [= -> ->]. revert Hact. destruct (credentialToActive _ _ _) eqn:Ha; [|done]. intros [= <- <-].
  split; [done|]. simpl. eauto.
Qed.

(** The credentials after a refresh of connection [c]. *)
Definition credentials_after v (db db' : ServiceDB) (c : string) (used refreshed : ActiveCredential) : Prop :=
  if shouldPersistRefreshedCredential used refreshed then
    (∃ stored enc, encryptCredentialPayload json_Marshal json_Unmarshal (svc_secretProvider v) (svc_credentialCodec v) refreshed = Ok enc ∧
       cred_EncryptedPayload stored = enc.1.1.1.1 ∧
       ∀ e, env_fault e 0 = None → Credential_GetActiveByConnection db' e c = Ok stored) ∧
    ∀ c' n, c' ≠ TrimSpace c → db_credentials db' !! (c', n) = db_credentials db !! (c', n)
  else db_credentials db' = db_credentials db.

Lemma credentials_after_eq v db db1 db2 c used refreshed :
  db_credentials db2 = db_credentials db1 → credentials_after v db db1 c used refreshed → credentials_after v db db2 c used refreshed.
Proof. unfold credentials_after, Credential_GetActiveByConnection. by intros ->. Qed.

Lemma persisted v e c used refreshed s s' :
  svc_credentialStore v = true → credentials_wf (db_credentials (s_db s)) →
  swhen (svc_credentialStore v && shouldPersistRefreshedCredential used refreshed)
    (sbind (saveCredential json_Marshal json_Unmarshal v e c refreshed) (λ _, sret tt)) s = (Ok tt, s') →
  s' = with_db s (s_db s') ∧ db_connections (s_db s') = db_connections (s_db s) ∧
  credentials_after v (s_db s) (s_db s') c used refreshed.
Proof.
  intros -> Hwf. unfold credentials_after. simpl. destruct (shouldPersistRefreshedCredential _ _).
  - intros (stored & s1 & Hsave & [= <-])%sbind_Ok.
    destruct (saveCredential_ok v e c refreshed s stored s1 Hwf Hsave) as (-> & Hc & _ & (enc & Henc & Hp) & Hget & Hoth).
    split_and!; [done|done| |done]. eauto.
  - intros [= <-]. by destruct s.
Qed.

Lemma transition_ok v env c reason s s' :
  svc_connectionStore v = true → transitionConnectionToNeedsReconsent v env c reason s = (Ok tt, s') →
  s_oauth s' = s_oauth s ∧ s_locks s' = s_locks s ∧ db_credentials (s_db s') = db_credentials (s_db s) ∧
  ∃ row row', connection_by_id (s_db s) (TrimSpace c) = Some row ∧ cn_Status row' = ConnectionStatusNeedsReconsent ∧
    natural_key row' = natural_key row ∧
    db_connections (s_db s') = <[TrimSpace c := row']> (db_connections (s_db s)).
Proof.
  unfold transitionConnectionToNeedsReconsent. intros ->. simpl.
  intros ([] & s1 & [(row & Hrow & Hdb)%UpdateStatus_ok Hs1]%db_write_Ok & Hnote)%sbind_Ok.
  apply note_frame in Hnote as (Ho & Hl & Hc & Hk). rewrite Ho, Hl, Hc, Hk, Hs1, Hdb. simpl. split_and!; [done..|].
  by refine (ex_intro _ row (ex_intro _ _ (conj Hrow (conj _ (conj _ eq_refl))))).
Qed.

Lemma refreshProviderID_ok v e c requested s p s' :
  svc_connectionStore v = true → refreshProviderID v e c requested s = (Ok p, s') →
  s' = s ∧ ∃ row, connection_by_id (s_db s) (TrimSpace c) = Some row ∧ EqualFold p (TrimSpace (cn_ProviderID row)) = true.
Proof.
  intros Hc. pose proof (refreshProviderID_reads v e c requested s) as Hro. intros Hp. rewrite Hp in Hro. simpl in Hro.
  split; [done|]. revert Hp. unfold refreshProviderID. rewrite Hc.
  intros (p' & s1 & (conn & s2 & Hget & Hp)%sbind_Ok & Hlast)%sbind_Ok.
  assert (p = p') as -> by (revert Hlast; destruct (String.eqb p' ""); [done|by intros [= -> _]]). clear Hlast.
  revert Hget. unfold db_read. simpl. unfold Connection_Get. destruct (env_fault e 0); [done|].
  destruct (connection_by_id _ _) as [row|]; [|done]. intros [= <- <-]. exists row. split; [done|].
  revert Hp. destruct (String.eqb (TrimSpace _) ""); [done|]. destruct (String.eqb requested "").
  - intros [= <- _]. apply EqualFold_refl.
  - destruct (EqualFold requested _) eqn:Hf; [|done]. by intros [= <- _].
Qed.

(** What a successful refresh has done, from database [db] to [db']. *)
Definition refresh_effect v (db db' : ServiceDB) (c : string) (req : RefreshRequest) (result : RefreshResult) : Prop :=
  ∃ registry p provider used granted row row',
    svc_registry v = Some registry ∧ Registry_Get registry (TrimSpace p) = Some provider ∧
    connection_by_id db c = Some row ∧ EqualFold p (TrimSpace (cn_ProviderID row)) = true ∧
    refreshed_from v db c (rq_Credential req) used ∧
    as_Refresh (resolveAuthStrategy provider (methods provider)) used = Ok result ∧
    credentials_after v db db' c used (rr_Credential result) ∧
    provider_normalized (E := sql_error) (pm_NormalizeGrantedPermissions (methods provider))
      (normalizeGrants (resolveRefreshGrantedGrants result)) = Ok granted ∧
    db_connections db' = <[c := row']> (db_connections db) ∧ natural_key row' = natural_key row ∧
    (cn_Status row' = ConnectionStatusActive ∧ (∀ d, d ∈ prov_Capabilities provider → grants (cap_RequiredGrants d) ⊆ grants granted) ∨
     cn_Status row' = ConnectionStatusNeedsReconsent ∧
       ¬ ∀ d, d ∈ prov_Capabilities provider → grants (cap_RequiredGrants d) ⊆ grants granted).

(** The last step: a connection whose required grants are missing is marked for re-consent. *)
Lemma marked v env c reason s row capabilities granted s' :
  svc_connectionStore v = true → db_connections (s_db s) !! TrimSpace c = Some row → cn_Status row = ConnectionStatusActive →
  swhen (0 <? length (missingRequiredProviderGrants capabilities granted))
    (transitionConnectionToNeedsReconsent v env c reason) s = (Ok tt, s') →
  s_oauth s' = s_oauth s ∧ s_locks s' = s_locks s ∧ db_credentials (s_db s') = db_credentials (s_db s) ∧
  ∃ row', db_connections (s_db s') = <[TrimSpace c := row']> (db_connections (s_db s)) ∧ natural_key row' = natural_key row ∧
    (cn_Status row' = ConnectionStatusActive ∧ (∀ d, d ∈ capabilities → grants (cap_RequiredGrants d) ⊆ grants granted) ∨
     cn_Status row' = ConnectionStatusNeedsReconsent ∧
       ¬ ∀ d, d ∈ capabilities → grants (cap_RequiredGrants d) ⊆ grants granted).
Proof.
  intros Hc Hrow Hact Hrun. pose proof (missingRequired_nil capabilities granted) as Hnil.
  destruct (missingRequiredProviderGrants capabilities granted) as [|g l]; simpl in Hrun.
  - injection Hrun as <-. split_and!; [done..|]. exists row. rewrite insert_id by done. split_and!; [done..|]. left. split; [done|]. by apply Hnil.
  - apply transition_ok in Hrun as (Ho & Hl & Hk & row1 & row' & Hrow1 & Hst & Hkey & Hconn); [|done].
    split_and!; [done..|]. exists row'. split; [done|]. split; [|right; split; [done|by intros ?%Hnil]].
    revert Hrow1. unfold connection_by_id. rewrite Hrow. destruct (live_row row); [|done]. by intros [= ->].
Qed.

Lemma Refresh_locked_ok v env c req s result s' :
  svc_connectionStore v = true → svc_credentialStore v = true → svc_grantStore v = true →
  credentials_wf (db_credentials (s_db s)) → TrimSpace c = c →
  Refresh_locked methods json_Marshal json_Unmarshal v env c req s = (Ok result, s') →
  s_oauth s' = s_oauth s ∧ s_locks s' = s_locks s ∧ refresh_effect v (s_db s) (s_db s') c req result.
Proof.
  intros Hc Hk Hg Hwf Htrim Hrun.
  apply sbind_Ok in Hrun as (p & s1 & (-> & row & Hrow & Hp)%refreshProviderID_ok & Hrun); [|done].
  apply sbind_Ok in Hrun as (provider & s1 & Hprov & Hrun). rewrite resolveProvider_reads in Hprov.
  destruct (svc_registry v) as [registry|] eqn:Hreg; [|done].
  destruct (Registry_Get registry (TrimSpace p)) as [provider'|] eqn:Hget; [|done]. injection Hprov as -> <-.
  apply sbind_Ok in Hrun as (used & s1 & [-> Hused]%refreshCredential_ok & Hrun).
  apply sbind_Ok in Hrun as (result' & s1 & Hresult & Hrun).
  destruct (as_Refresh _ used) as [res|] eqn:Hstrategy; [|done]. injection Hresult as -> <-.
  apply sbind_Ok in Hrun as ([] & s1 & (Hs1 & Hconn1 & Hafter)%persisted & Hrun); [|done..].
  rewrite Hc in Hrun. unfold swhen at 1 in Hrun.
  apply sbind_Ok in Hrun as ([] & s2 & [(row2 & Hrow2 & Hdb2)%UpdateStatus_ok Hs2]%db_write_Ok & Hrun).
  apply sbind_Ok in Hrun as ([snapshot delta] & s3 & Hrec & Hrun).
  pose proof (reconcile_granted _ _ _ _ _ _ _ _ _ _ _ _ Hg Hrec) as Hgranted.
  pose proof (reconcile_frame v env 4 provider c (ac_RequestedScopes (rr_Credential result'))
    (resolveRefreshGrantedGrants result') (rr_Metadata result') s2) as (Ho3 & Hl3 & Hc3 & Hk3).
  rewrite Hrec in Ho3, Hl3, Hc3, Hk3. simpl in Ho3, Hl3, Hc3, Hk3.
  apply sbind_Ok in Hrun as ([] & s4 & Hmiss & [= <- <-]).
  apply (marked v _ c _ _ (connection_set row2 (TrimSpace ConnectionStatusActive) (TrimSpace "") (env_now (env 3)))) in Hmiss
    as (Ho4 & Hl4 & Hk4 & row' & Hconn4 & Hkey & Hstatus); [|done|rewrite Hc3, Hdb2; apply lookup_insert_eq|done].
  rewrite Htrim in *. split_and!.
  - by rewrite Ho4, Ho3, Hs2, Hs1.
  - by rewrite Hl4, Hl3, Hs2, Hs1.
  - exists registry, p, provider, used, (gs_Granted snapshot), row, row'. split_and!; try done.
    + apply (credentials_after_eq _ _ (s_db s1)); [|done]. by rewrite Hk4, Hk3, Hdb2.
    + rewrite Hconn4, Hc3, Hdb2. simpl. by rewrite insert_insert_eq, Hconn1.
    + revert Hrow2. unfold connection_by_id. rewrite Hconn1. fold (connection_by_id (s_db s) c). rewrite Hrow. by intros [= ->].
Qed.

(** C5: what a refresh does.  A successful [Refresh] has refreshed the credential of the request, or else the stored
    one, with the strategy of the connection's provider.  If the result is to be persisted
    ([shouldPersistRefreshedCredential]), the new credential, encrypted, is now the active one of the connection;
    otherwise the credentials are as they were.
    The connection is active again, or waits for re-consent exactly when a grant that a capability of the
    provider requires was not granted; no other connection and no other connection's credentials have changed; and
    the lock the refresh took is released, whereas the lock of the caller is left alone. *)
Theorem refresh_effects v env held req s result s' :
  svc_connectionStore v = true → svc_credentialStore v = true → svc_grantStore v = true →
  credentials_wf (db_credentials (s_db s)) →
  refresh v env held req s = (Ok result, s') →
  refresh_effect v (s_db s) (s_db s') (TrimSpace (rq_ConnectionID req)) req result ∧
  s_oauth s' = s_oauth s ∧
  s_locks s' = if isRefreshLockHeld held (rq_ConnectionID req) then s_locks s
               else delete (TrimSpace (rq_ConnectionID req)) <$> s_locks s.
Proof.
  intros Hc Hk Hg Hwf. unfold Refresh, isRefreshLockHeld. rewrite TrimSpace_idem.
  assert (Htrim := TrimSpace_idem (rq_ConnectionID req)).
  destruct (String.eqb_spec (TrimSpace (rq_ConnectionID req)) "") as [|Hne]; [done|].
  destruct (s_locks s) as [locks|] eqn:Hlocks.
  - destruct (String.eqb (TrimSpace held) _).
    + intros (Ho & Hl & Heff)%Refresh_locked_ok; [|done..]. split_and!; [done|done|congruence].
    + destruct (Lock_Acquire _ _ _ _) as [[handle|e] locks'] eqn:Hacq; [|done].
      destruct (Acquire_ok _ _ _ _ _ _ Hacq) as (_ & -> & -> & _). rewrite Htrim.
      destruct (Refresh_locked _ _ _ _ _ _ _ _) as [res s1] eqn:Hrun. intros [= -> <-].
      apply Refresh_locked_ok in Hrun as (Ho & Hl & Heff); [|done..]. simpl in *. split_and!; [done|done|].
      rewrite Hl. simpl. by rewrite delete_insert_eq.
  - intros (Ho & Hl & Heff)%Refresh_locked_ok; [|done..]. split_and!; [done|done|].
    rewrite Hl, Hlocks. by destruct (String.eqb _ _).
Qed.

(** ** What a callback does *)

(** The connection is one of the provider, the scope and the account. *)
Definition belongs_to (providerID : string) (scope : ScopeRef) (externalAccountID : string) (c : Connection) : Prop :=
  EqualFold (TrimSpace (conn_ProviderID c)) (TrimSpace providerID) = true ∧
  EqualFold (TrimSpace (conn_ScopeType c)) (TrimSpace (scope_Type scope)) = true ∧
  TrimSpace (conn_ScopeID c) = TrimSpace (scope_ID scope) ∧
  TrimSpace (conn_ExternalAccountID c) = TrimSpace externalAccountID.

Lemma findCallbackConnection_ok v env providerID scope externalAccountID target s found s' :
  findCallbackConnection v env providerID scope externalAccountID target s = (Ok found, s') →
  s' = s ∧ ∀ c, found = Some c → belongs_to providerID scope externalAccountID c.
Proof.
  unfold findCallbackConnection. destruct (String.eqb (TrimSpace target) ""); simpl.
  - unfold db_read. destruct (Connection_FindByScopeAndExternalAccount _ _ _ _ _) as [o|] eqn:Hfind; [|done].
    intros [= <- <-]. split; [done|]. intros c ->. revert Hfind. unfold Connection_FindByScopeAndExternalAccount.
    repeat (case_match; try done). intros [= Hf].
    apply fmap_Some in Hf as (r & Hr%head_Some_elem_of & ->). apply select_row in Hr as (_ & _ & Hcond). unfold in_scope in Hcond.
    rewrite !andb_true_iff, !String.eqb_eq in Hcond. destruct Hcond as [[[Hp Ht] Hi] Ha].
    unfold belongs_to. simpl. rewrite Hp, Ht, Hi, Ha, !TrimSpace_idem, !EqualFold_refl. done.
  - intros (c & s1 & Hget & Hrest)%sbind_Ok.
    assert (s1 = s) as -> by (revert Hget; unfold db_read; simpl; destruct (Connection_Get _ _ _); [by intros [=]|done]).
    revert Hrest. case_match eqn:H1; [done|]. case_match eqn:H2; [done|]. intros [= <- <-]. split; [done|]. intros c' [= <-].
    rewrite !orb_false_iff, !negb_false_iff, ?String.eqb_eq in *. unfold belongs_to. naive_solver.
Qed.

Lemma Create_ok db e input conn db' :
  Connection_Create db e input = (Ok conn, db') →
  ∃ row, conn = connection_toDomain row ∧ cn_ID row = env_uuid e ∧ live_row row = true ∧
    natural_key row = (cc_ProviderID input, scope_Type (cc_Scope input), scope_ID (cc_Scope input), cc_ExternalAccountID input) ∧
    cn_Status row = (if blank (cc_Status input) then ConnectionStatusActive else cc_Status input) ∧
    db' = with_connections db (<[env_uuid e := row]> (db_connections db)).
Proof.
  unfold Connection_Create. destruct (ScopeRef_Validate _); [|done]. destruct (blank (cc_ProviderID input)); [done|].
  destruct (blank (cc_ExternalAccountID input)); [done|]. destruct (env_fault e 0); [done|].
  destruct (insert_connection _ _) as [t|] eqn:Ht; [|done]. intros [= <- <-]. revert Ht. unfold insert_connection.
  destruct (_ !! _); [done|]. destruct (_ && _); [done|]. intros [= <-]. eexists. split; [reflexivity|done].
Qed.

Lemma callbackConnection_ok v env providerID scope externalAccountID metadata s conn was s' :
  svc_connectionStore v = true → TrimSpace (env_uuid (env 1)) = env_uuid (env 1) →
  callbackConnection v env providerID scope externalAccountID metadata s = (Ok (conn, was), s') →
  s_oauth s' = s_oauth s ∧ db_credentials (s_db s') = db_credentials (s_db s) ∧
  belongs_to providerID scope externalAccountID conn ∧
  (∃ row, db_connections (s_db s') !! TrimSpace (conn_ID conn) = Some row ∧ live_row row = true ∧ cn_Status row = ConnectionStatusActive) ∧
  (∀ id, id ≠ TrimSpace (conn_ID conn) → db_connections (s_db s') !! id = db_connections (s_db s) !! id).
Proof.
  intros Hc Huuid. unfold callbackConnection. rewrite Hc. simpl.
  intros (found & s1 & [-> Hfound]%findCallbackConnection_ok & Hrun)%sbind_Ok. destruct found as [existing|].
  - apply sbind_Ok in Hrun as ([] & s2 & [(row & Hrow & Hdb)%UpdateStatus_ok Hs2]%db_write_Ok & [= <- _ <-]).
    rewrite Hdb, Hs2. simpl. split_and!; [done|done|exact (Hfound _ eq_refl)| |].
    + eexists. split; [apply lookup_insert_eq|]. split; [|done]. revert Hrow. unfold connection_by_id. repeat case_match; naive_solver.
    + intros id Hne. by rewrite lookup_insert_ne.
  - apply sbind_Ok in Hrun as (created & s2 & [Hcreate Hs2]%db_write_Ok & [= <- _ <-]).
    apply Create_ok in Hcreate as (row & -> & Hid & Hlive & [= Hp Ht Hi Ha] & Hst & Hdb).
    rewrite Hdb, Hs2. simpl in *. rewrite Hid, Huuid. split_and!; [done|done| | |].
    + unfold belongs_to. simpl. by rewrite Hp, Ht, Hi, Ha, !EqualFold_refl.
    + eexists. by split; [apply lookup_insert_eq|].
    + intros id Hne. by rewrite lookup_insert_ne.
Qed.

(** The connection and the credential a completed callback leaves. *)
Definition completed (db db' : ServiceDB) (completion : CallbackCompletion) : Prop :=
  let c := conn_ID (cp_Connection completion) in
  (∃ row, db_connections db' !! TrimSpace c = Some row ∧ live_row row = true ∧ cn_Status row = ConnectionStatusActive) ∧
  (∀ e, env_fault e 0 = None → Credential_GetActiveByConnection db' e c = Ok (cp_Credential completion)) ∧
  (∀ id, id ≠ TrimSpace c → db_connections db' !! id = db_connections db !! id) ∧
  (∀ id n, id ≠ TrimSpace c → db_credentials db' !! (id, n) = db_credentials db !! (id, n)).

Lemma callbackState_db v env strategy req s : s_db (callbackState v env strategy req s).2 = s_db s.
Proof.
  unfold callbackState. destruct (strategyRequiresCallbackState strategy); [|done]. unfold sbind.
  destruct (s_oauth s); [|done]. by destruct (consumeOAuthCallbackState _ _ _ _ _) as [[r|e] o'].
Qed.

Lemma CompleteCallback_ok v env req s completion s' :
  svc_connectionStore v = true → svc_credentialStore v = true → credentials_wf (db_credentials (s_db s)) →
  TrimSpace (env_uuid (env 3)) = env_uuid (env 3) →
  CompleteCallback methods json_Marshal json_Unmarshal v env req s = (Ok completion, s') →
  ∃ registry provider req' s1 result,
    svc_registry v = Some registry ∧ Registry_Get registry (TrimSpace (ca_ProviderID req)) = Some provider ∧
    let strategy := resolveAuthStrategy provider (methods provider) in
    callbackState v env strategy req s = (Ok req', s1) ∧ s_oauth s' = s_oauth s1 ∧
    as_Complete strategy (mkAuthComplete (ca_Scope req') (ca_Code req') (ca_State req') (ca_RedirectURI req') (copyAnyMap (ca_Metadata req')))
      = Ok result ∧
    belongs_to (prov_ID provider) (mkScopeRef (ToLower (scope_Type (ca_Scope req'))) (scope_ID (ca_Scope req')))
      (ar_ExternalAccountID result) (cp_Connection completion) ∧
    completed (s_db s) (s_db s') completion.
Proof.
  intros Hc Hk Hwf Huuid Hrun.
  apply sbind_Ok in Hrun as (? & s0 & Hval & Hrun). destruct (ScopeRef_Validate _); [|done]. injection Hval as _ <-.
  apply sbind_Ok in Hrun as (provider & s1 & Hprov & Hrun). rewrite resolveProvider_reads in Hprov.
  destruct (svc_registry v) as [registry|] eqn:Hreg; [|done].
  destruct (Registry_Get registry _) as [provider'|] eqn:Hget; [|done]. injection Hprov as -> <-.
  apply sbind_Ok in Hrun as (req' & s1 & Hstate & Hrun).
  pose proof (callbackState_db v env (resolveAuthStrategy provider (methods provider)) req s) as Hdb1.
  rewrite Hstate in Hdb1. simpl in Hdb1.
  apply sbind_Ok in Hrun as (result & s2 & Hresult & Hrun).
  destruct (as_Complete _ _) as [res|] eqn:Hstrategy; [|done]. injection Hresult as -> <-. cbv zeta in Hrun.
  destruct (String.eqb (TrimSpace (ar_ExternalAccountID result)) ""); [done|].
  apply sbind_Ok in Hrun as ([conn was] & s2 & Hconn & Hrun).
  apply callbackConnection_ok in Hconn as (Ho2 & Hk2 & Hbel & Hrow & Hothers); [|done|done].
  apply sbind_Ok in Hrun as (cred & s3 & Hsave & Hrun). rewrite Hk in Hsave.
  apply saveCredential_ok in Hsave as (Hs3 & Hconn3 & _ & _ & Hactive & Hcreds); [|by rewrite Hk2, Hdb1].
  apply sbind_Ok in Hrun as ([snapshot delta] & s4 & Hrec & Hrun).
  match type of Hrec with reconcile _ _ _ _ _ ?c ?r ?g ?m _ = _ =>
    pose proof (reconcile_frame v env 5 provider c r g m s3) as (Ho4 & _ & Hc4 & Hk4) end.
  rewrite Hrec in Ho4, Hc4, Hk4. simpl in Ho4, Hc4, Hk4.
  apply sbind_Ok in Hrun as ([] & s5 & (Ho5 & _ & Hc5 & Hk5)%note_frame & [= <- <-]).
  exists registry, provider, req', s1, result. cbv zeta. split_and!; try done.
  - by rewrite Ho5, Ho4, Hs3.
  - revert Hbel. unfold belongs_to. simpl. by rewrite !TrimSpace_idem.
  - unfold completed, Credential_GetActiveByConnection. simpl. rewrite Hc5, Hc4, Hconn3, Hk5, Hk4. split_and!; [done|done| |].
    + intros id Hne. by rewrite Hothers, Hdb1.
    + intros id n Hne. by rewrite Hcreds, Hk2, Hdb1.
Qed.
End sql_service.

(** ** The service with the in-memory OAuth state store *)

Section callback.
Context {MR : MapRange}.
Variable methods : Provider → ProviderMethods.
Variable json_Marshal : ActiveCredential → outcome string string.
Variable json_Unmarshal : string → outcome string ActiveCredential.
Variable format_time : Time → string.
Variable json_column : gmap string value → gmap string value.
#[local] Instance callback_grants : GrantStore sql_error ServiceDB := db_grant_store format_time json_column.
Abbreviation complete := (CompleteCallback methods json_Marshal json_Unmarshal).
Abbreviation service := (@Service sql_error ServiceDB).
Abbreviation state := (SvcState ServiceDB MemoryOAuthStateStore).
Implicit Types (v : service) (s : state).

Lemma callbackState_ok v env strategy req s o req' s' :
  strategyRequiresCallbackState strategy = true → s_oauth s = Some o → store_wf o →
  callbackState v env strategy req s = (Ok req', s') →
  ∃ record o', s_oauth s' = Some o' ∧ TrimSpace (ca_State req) ≠ "" ∧
    oas_entries o !! TrimSpace (ca_State req) = Some record ∧ os_expired (env_now (env 0)) record = false ∧
    callback_matches (svc_requireRedirect v) req record ∧ oas_entries o' !! TrimSpace (ca_State req) = None ∧
    req' = applyOAuthStateContext req record.
Proof.
  intros Hst Ho Hwf. unfold callbackState. rewrite Hst. intros (record & s1 & Hcons & [= <- <-])%sbind_Ok.
  rewrite Ho in Hcons. destruct (consumeOAuthCallbackState _ _ _ _ _) as [[r|e] o'] eqn:Hrun; [|done].
  injection Hcons as -> <-. apply consume_accepted in Hrun as (Hne & Hr & Hexp & Hm & _ & Hgone); [|done].
  by exists record, o'.
Qed.

(** A callback whose state is not pending is rejected and changes no table. *)
Lemma callback_rejected v env registry provider req s o :
  svc_registry v = Some registry → Registry_Get registry (TrimSpace (ca_ProviderID req)) = Some provider →
  strategyRequiresCallbackState (resolveAuthStrategy provider (methods provider)) = true →
  s_oauth s = Some o → TrimSpace (ca_State req) ≠ "" → oas_entries o !! TrimSpace (ca_State req) = None →
  ∃ e s', complete v env req s = (Fail e, s') ∧ s_db s' = s_db s ∧
    (ScopeRef_Validate (ca_Scope req) = Ok tt → e = SErrOAuth ErrOAuthStateNotFound).
Proof.
  intros Hreg Hget Hst Ho Hne Hnone. unfold CompleteCallback.
  destruct (ScopeRef_Validate (ca_Scope req)) as [u|e]; [|by do 2 eexists].
  rewrite (sbind_eq _ _ s u s) by done.
  rewrite (sbind_eq _ _ s provider s) by (by rewrite resolveProvider_reads, Hreg, Hget).
  pose proof (unknown_state_fails (svc_requireRedirect v) o (env_now (env 0)) (env_now (env 1)) req Hne Hnone) as Hfail.
  destruct (consumeOAuthCallbackState (svc_requireRedirect v) o (env_now (env 0)) (env_now (env 1)) req) as [r o'] eqn:Hrun.
  simpl in Hfail. subst r.
  rewrite (sbind_Fail _ _ s (SErrOAuth ErrOAuthStateNotFound) (mkSvcState (s_db s) (Some o') (s_locks s))).
  - by do 2 eexists.
  - unfold callbackState. rewrite Hst. apply sbind_Fail. by rewrite Ho, Hrun.
Qed.

End callback.

(** ** Concrete runs *)

Section demo.
#[local] Existing Instance key_order_range.
#[local] Instance demo_grants : GrantStore sql_error ServiceDB := db_grant_store (λ _, "") (λ m, m).
Definition demo_provider : Provider := mkProvider "github" [mkCapability "repo.read" ["repo"] [] CapabilityDeniedBehaviorBlock].
(** A provider that issues the token [code] and refreshes it to [fresh] with the grants [granted]. *)
Definition demo_methods (granted : list string) (_ : Provider) : ProviderMethods :=
  mkMethods "oauth2" (λ _, Fail "unused")
    (λ q, Ok (mkCompleteResponse "acct-1" (bare_token (ca_Code q)) [] ["repo"] ∅))
    (λ _, Ok (mkRefreshResult (bare_token "fresh") granted ∅)) None None.
Definition demo_service : @Service sql_error ServiceDB :=
  mkService (Some {[ "github" := demo_provider ]}) true true true true (Some demo_secret)
    (Some (JSONCredentialCodec demo_marshal demo_unmarshal)) true [] None None None.
Definition demo_env (t : Time) (n : nat) : CallEnv := quiet (t + Z.of_nat n) "id-1".
Definition demo_complete := CompleteCallback (demo_methods ["repo"]) demo_marshal demo_unmarshal demo_service (demo_env 200) (demo_request "github").
Definition demo_start : SvcState ServiceDB MemoryOAuthStateStore := mkSvcState empty_db (Some demo_store) (Some ∅).
Definition demo_connected : SvcState ServiceDB MemoryOAuthStateStore := (demo_complete demo_start).2.


(** A refresh that is granted nothing: the connection then waits for re-consent. *)
Definition demo_unrefreshed : SvcState ServiceDB MemoryOAuthStateStore :=
  mkSvcState (Connection_Create empty_db (quiet 50 "id-1") (mkCreateConnection "github" (mkScopeRef "user" "u1") "acct-1" "")).2
    None (Some ∅).
Definition demo_refresh (granted : list string) :=
  Refresh (O := MemoryOAuthStateStore) (demo_methods granted) demo_marshal demo_unmarshal demo_service (demo_env 300) "".

Lemma refresh_effects_witness :
  let run := demo_refresh [] (mkRefreshRequest "" "id-1" (Some (bare_token "old"))) demo_unrefreshed in
  (∃ result, run.1 = Ok result ∧
     refresh_effect (demo_methods []) demo_marshal demo_unmarshal demo_service (s_db demo_unrefreshed) (s_db run.2) "id-1"
       (mkRefreshRequest "" "id-1" (Some (bare_token "old"))) result) ∧
  cn_Status <$> db_connections (s_db run.2) !! "id-1" = Some ConnectionStatusNeedsReconsent ∧ s_locks run.2 = Some ∅.
Proof.
  intros run.
  assert (Hrun : run = (Ok (mkRefreshResult (bare_token "fresh") [] ∅), run.2)) by (vm_compute; reflexivity).
  destruct (refresh_effects (demo_methods []) demo_marshal demo_unmarshal (λ _, "") (λ m, m) demo_service (demo_env 300) ""
    (mkRefreshRequest "" "id-1" (Some (bare_token "old"))) demo_unrefreshed (mkRefreshResult (bare_token "fresh") [] ∅) run.2)
    as (Heff & _ & Hlocks); [reflexivity|reflexivity|reflexivity|exact empty_credentials_wf|exact Hrun|].
  split_and!.
  - exists (mkRefreshResult (bare_token "fresh") [] ∅). split; [rewrite Hrun; reflexivity|exact Heff].
  - vm_compute. reflexivity.
  - rewrite Hlocks. reflexivity.
Defined.

(** The capability is allowed before the revocation and not after it. *)
Definition demo_invoke := mkInvoke "github" (mkScopeRef "" "") "repo.read" ∅ "id-1".


(** Without a grant store the snapshot after a refresh is empty: the connection of a provider that requires a grant ends up
    waiting for re-consent although the refresh was granted it. *)
Example refresh_without_grant_store :
  let v := mkService (Some {[ "github" := demo_provider ]}) true true false false (Some demo_secret)
    (Some (JSONCredentialCodec demo_marshal demo_unmarshal)) true [] None None None in
  let run := Refresh (O := MemoryOAuthStateStore) (demo_methods ["repo"]) demo_marshal demo_unmarshal v (demo_env 300) ""
    (mkRefreshRequest "" "id-1" None) demo_connected in
  run.1 = Ok (mkRefreshResult (bare_token "fresh") ["repo"] ∅) ∧
  cn_Status <$> db_connections (s_db run.2) !! "id-1" = Some ConnectionStatusNeedsReconsent.
Proof. vm_compute. split; reflexivity. Qed.

(** The case of the scope type: "user" finds the connection, "User" does not. *)
Example scope_case_hides_connection :
  let allowed scopeType :=
    match (InvokeCapability (λ _, "") demo_service (demo_env 500) (mkInvoke "github" (mkScopeRef scopeType "u1") "repo.read" ∅ "")
             demo_connected).1 with Ok r => cr_Allowed r | Fail _ => false end in
  ScopeRef_Validate (mkScopeRef "User" "u1") = Ok tt ∧ allowed "user" = true ∧ allowed "User" = false.
Proof. vm_compute. split_and!; reflexivity. Qed.
End demo.
