(* ===== verification/RefreshRuns.v ===== *)
(** * Refresh runs of the service ([RunRefreshWithRetry] of src/core/refresh_runner.go over [Refresh] of src/core/service.go)

    The retry loop of [Refresh] with the operation of [Service] inside: what a run may change, whatever the database and the provider answer, and what it leaves. *)

From S2P Require Import Prelude GoStrings GoValues Domain Contracts Grants Permissions Refresh ServiceTypes Connections Credentials Service OAuthState Backoff.
From Stdlib Require Import ZArith Lia.
From stdpp Require Import base decidable list gmap strings.

Local Open Scope string_scope.
Local Open Scope nat_scope.
Local Open Scope list_scope.

Section run.
Context {MR : MapRange} {E W O : Type} {conns : ConnectionStore E W} {creds : CredentialStore E W} {grs : GrantStore E W}.
Variable methods : Provider → ProviderMethods.
Variable json_Marshal : ActiveCredential → outcome string string.
Variable json_Unmarshal : string → outcome string ActiveCredential.
(** What [mapError] makes of an error, as far as the loop looks at it: its category, its text code and its text. *)
Variable seen : service_error E → refresh_error.

(** [s.Refresh], called with the lock held; [env n] is the environment of the n-th call. *)
Definition run_attempt (v : Service) (env : nat → nat → CallEnv) (req : RefreshRequest) (attempt : Z) (s : SvcState W O)
    : outcome refresh_error unit * SvcState W O :=
  match Refresh methods json_Marshal json_Unmarshal v (env (Z.to_nat attempt)) (TrimSpace (rq_ConnectionID req)) req s with
  | (Ok _, s') => (Ok tt, s')
  | (Fail e, s') => (Fail (seen e), s')
  end.

(** [transitionConnectionToPendingReauth]; its error is ignored. *)
Definition run_update (v : Service (E := E) (W := W)) (e : CallEnv) (connectionID status reason : string) (s : SvcState W O) : SvcState W O :=
  if svc_connectionStore v then with_db s (cs_UpdateStatus (s_db s) e connectionID status reason).2 else s.

(** While it holds its lock a run does not look at the locks. *)
Definition Service_RunRefreshWithRetry (v : Service) (env : nat → nat → CallEnv) (last : CallEnv) (cancelled : Z → Duration → bool)
    (scheduler : option (Z → Duration)) (now : Time) (req : RefreshRequest) (maxAttempts : Z) (lockTTL : Duration) (s : SvcState W O)
    : RefreshRunResult * option run_error * SvcState W O :=
  let '(res, err, locks, s') := RunRefreshWithRetry (run_attempt v env req) (run_update v last) cancelled scheduler (s_locks s) now
    (rq_ConnectionID req) maxAttempts lockTTL s in
  (res, err, mkSvcState (s_db s') (s_oauth s') locks).
End run.

(** ** What a run may change *)

Section facts.
Context {MR : MapRange} {O : Type}.
Variable methods : Provider → ProviderMethods.
Variable json_Marshal : ActiveCredential → outcome string string.
Variable json_Unmarshal : string → outcome string ActiveCredential.
Variable format_time : Time → string.
Variable json_column : gmap string value → gmap string value.
Variable seen : service_error sql_error → refresh_error.
#[local] Instance sql_grants : GrantStore sql_error ServiceDB := db_grant_store format_time json_column.
Abbreviation service := (@Service sql_error ServiceDB).
Abbreviation state := (SvcState ServiceDB O).
Abbreviation M := (svc sql_error ServiceDB O).
Implicit Types (v : service) (s : state).

Definition same_row (r r' : connectionRecord) : Prop := natural_key r' = natural_key r ∧ cn_DeletedAt r' = cn_DeletedAt r.

(** From [s] to [s'] nothing has changed but the grants, and the status and the credentials of connection [c]. *)
Record touches (c : string) (s s' : state) : Prop := mkTouches {
  tc_oauth : s_oauth s' = s_oauth s;
  tc_locks : s_locks s' = s_locks s;
  tc_credentials : credentials_wf (db_credentials (s_db s)) →
    credentials_wf (db_credentials (s_db s')) ∧
    ∀ c' n, c' ≠ c → db_credentials (s_db s') !! (c', n) = db_credentials (s_db s) !! (c', n);
  tc_others : ∀ c', c' ≠ c → db_connections (s_db s') !! c' = db_connections (s_db s) !! c';
  tc_row : option_Forall2 same_row (db_connections (s_db s) !! c) (db_connections (s_db s') !! c) }.

Lemma touches_refl c s : touches c s s.
Proof. split; try done. by apply option_Forall2_refl. Qed.
Lemma touches_trans c s1 s2 s3 : touches c s1 s2 → touches c s2 s3 → touches c s1 s3.
Proof.
  intros [H1 H2 H3 H4 H5] [G1 G2 G3 G4 G5]. split; [congruence|congruence| | |].
  - intros Hwf. destruct (H3 Hwf) as [Hwf2 Hc2]. destruct (G3 Hwf2) as [Hwf3 Hc3]. split; [done|]. intros c' n Hne. by rewrite Hc3, Hc2.
  - intros c' Hne. by rewrite G4, H4.
  - inversion H5 as [r r2 Hr E1 E2|E1 E2]; rewrite <-E2 in G5; inversion G5 as [r2' r3 Hr2 E3 E4|E3 E4]; constructor. unfold same_row in *. destruct Hr, Hr2. split; congruence.
Qed.
#[local] Hint Resolve touches_refl : core.

(** An operation that touches nothing but [c], whatever it returns. *)
Definition frames {A} (c : string) (m : M A) : Prop := ∀ s, touches c s (m s).2.

Lemma frames_ret {A} c (a : A) : frames c (sret a).
Proof. by intros s. Qed.
Lemma frames_fail {A} c e : frames c (sfail e : M A).
Proof. by intros s. Qed.
Lemma frames_bind {A B} c (m : M A) (k : A → M B) : frames c m → (∀ a, frames c (k a)) → frames c (sbind m k).
Proof.
  intros Hm Hk s. unfold sbind. specialize (Hm s). destruct (m s) as [[a|e] s']; [|done]. eapply touches_trans; [exact Hm|apply Hk].
Qed.
Lemma frames_lift {X A} c (wrap : X → service_error sql_error) (o : outcome X A) : frames c (lift wrap o : M A).
Proof. by destruct o; intros s. Qed.
Lemma frames_read {X A} c (wrap : X → service_error sql_error) (f : ServiceDB → outcome X A) : frames c (db_read wrap f : M A).
Proof. intros s. unfold db_read. apply frames_lift. Qed.
Lemma frames_when c b (m : M unit) : frames c m → frames c (swhen b m).
Proof. destruct b; [done|]. intros _. apply frames_ret. Qed.
Lemma frames_write {X A} c (wrap : X → service_error sql_error) (f : ServiceDB → outcome X A * ServiceDB) :
  (∀ s, touches c s (with_db s (f (s_db s)).2)) → frames c (db_write wrap f : M A).
Proof. intros Hf s. unfold db_write. specialize (Hf s). destruct (f (s_db s)) as [[a|e] db]; exact Hf. Qed.

Lemma touches_status c s e status reason : touches (TrimSpace c) s (with_db s (Connection_UpdateStatus (s_db s) e c status reason).2).
Proof.
  unfold Connection_UpdateStatus. destruct s as [db o ls]. destruct (String.eqb _ ""); [done|]. destruct (env_fault e 0); [done|]. simpl s_db.
  destruct (connection_by_id db (TrimSpace c)) as [r|] eqn:Hr; [|done]. destruct (env_fault e 1); [done|].
  assert (Hrow : db_connections db !! TrimSpace c = Some r) by (revert Hr; unfold connection_by_id; repeat case_match; congruence).
  split; try done; simpl.
  - intros c' Hne. by rewrite lookup_insert_ne.
  - rewrite Hrow, lookup_insert_eq. by constructor.
Qed.
Lemma touches_grants c s s' : grants_only s s' → touches c s s'.
Proof. intros (Ho & Hl & Hc & Hk). split; rewrite ?Ho, ?Hl, ?Hc, ?Hk; try done. by apply option_Forall2_refl. Qed.
Lemma touches_save c s e input : TrimSpace (sc_ConnectionID input) = c → touches c s (with_db s (Credential_SaveNewVersion (s_db s) e input).2).
Proof.
  intros Hc. destruct s as [db o ls]. simpl s_db.
  assert (Hconn : db_connections (Credential_SaveNewVersion db e input).2 = db_connections db).
  { unfold Credential_SaveNewVersion. by repeat case_match. }
  split; simpl; rewrite ?Hconn; try done; [|by apply option_Forall2_refl].
  intros Hwf. destruct (Save_cases db e input Hwf) as [(_ & _ & -> & Hwf')|(_ & err & ->)]; [|done]. split; [done|].
  intros c' n Hne. simpl. rewrite lookup_insert_ne by (intros [=]; congruence). unfold rotated. case_match; [|done].
  rewrite revoke_lookup. destruct (db_credentials db !! (c', n)) as [r|] eqn:Hr; [|done]. simpl. f_equal.
  destruct (is_active_of _ r) eqn:Ha; [|done]. apply is_active_of_spec in Ha as [Ha _]. destruct (kw_keyed _ Hwf _ _ _ Hr). congruence.
Qed.

(** ** A run touches its connection alone *)

Create HintDb frames.
#[local] Hint Resolve frames_ret frames_fail frames_lift frames_read : frames.
Ltac frame := repeat (first [progress eauto with frames | apply frames_bind; [|intros ?] | apply frames_when | case_match]).

Lemma reconcile_frames c v env n provider id requested granted metadata :
  frames c (reconcile methods v env n provider id requested granted metadata).
Proof. intros s. apply touches_grants, reconcile_frame. Qed.
Lemma refreshProviderID_frames c v e id requested : frames c (refreshProviderID v e id requested).
Proof. intros s. by rewrite refreshProviderID_reads. Qed.
Lemma resolveProvider_frames c v id : frames c (resolveProvider v id).
Proof. intros s. by rewrite resolveProvider_reads. Qed.
Lemma refreshCredential_frames c v e id given : frames c (refreshCredential v e id given).
Proof. unfold refreshCredential. frame. Qed.
Lemma status_frames c e id status reason : TrimSpace id = c → frames c (db_write SErrStore (λ db, cs_UpdateStatus db e id status reason)).
Proof. intros <-. apply frames_write. intros s. apply touches_status. Qed.
Lemma saveCredential_frames c v e id cred : TrimSpace id = c → frames c (saveCredential json_Marshal json_Unmarshal v e id cred).
Proof. intros Hc. unfold saveCredential. frame. apply frames_write. intros s. apply touches_save. by destruct a as [[[[? ?] ?] ?] ?]. Qed.
Lemma note_frames c e event : frames c (db_try (λ db, gst_AppendEvent db e event)).
Proof. intros s. apply touches_grants, (note_frame format_time json_column true e event). reflexivity. Qed.
Lemma transition_frames c v env id reason : TrimSpace id = c → frames c (transitionConnectionToNeedsReconsent v env id reason).
Proof. intros Hc. unfold transitionConnectionToNeedsReconsent. frame; solve [by apply status_frames | apply note_frames]. Qed.
#[local] Hint Resolve reconcile_frames refreshProviderID_frames resolveProvider_frames refreshCredential_frames status_frames saveCredential_frames transition_frames : frames.

Lemma Refresh_locked_frames c v env req : TrimSpace c = c → frames c (Refresh_locked methods json_Marshal json_Unmarshal v env c req).
Proof. intros Hc. unfold Refresh_locked. frame. Qed.

Abbreviation attempt_of v env req := (run_attempt methods json_Marshal json_Unmarshal seen v env req).
Lemma held_Refresh v env req s : TrimSpace (rq_ConnectionID req) ≠ "" →
  Refresh methods json_Marshal json_Unmarshal v env (TrimSpace (rq_ConnectionID req)) req s =
  Refresh_locked methods json_Marshal json_Unmarshal v env (TrimSpace (rq_ConnectionID req)) req s.
Proof.
  intros Hne%String.eqb_neq. unfold Refresh, isRefreshLockHeld. rewrite Hne, String.eqb_refl. by destruct (s_locks s).
Qed.
Lemma attempt_touches v env req n s : TrimSpace (rq_ConnectionID req) ≠ "" → touches (TrimSpace (rq_ConnectionID req)) s (attempt_of v env req n s).2.
Proof.
  intros Hne. unfold run_attempt. rewrite held_Refresh by done.
  pose proof (Refresh_locked_frames (TrimSpace (rq_ConnectionID req)) v (env (Z.to_nat n)) req (TrimSpace_idem _) s) as Hf.
  by destruct (Refresh_locked _ _ _ _ _ _ _ _) as [[r|e] s'].
Qed.
Lemma attempts_touch v env req s k : TrimSpace (rq_ConnectionID req) ≠ "" →
  touches (TrimSpace (rq_ConnectionID req)) s (after_refreshes (attempt_of v env req) s k).
Proof. intros Hne. induction k as [|k IH]; [done|]. eapply touches_trans; [exact IH|]. by apply attempt_touches. Qed.

Lemma attempt_effect v env req n s s' : svc_connectionStore v = true → svc_credentialStore v = true → svc_grantStore v = true →
  TrimSpace (rq_ConnectionID req) ≠ "" → credentials_wf (db_credentials (s_db s)) → attempt_of v env req n s = (Ok tt, s') →
  ∃ result, refresh_effect methods json_Marshal json_Unmarshal v (s_db s) (s_db s') (TrimSpace (rq_ConnectionID req)) req result.
Proof.
  intros Hc Hk Hg Hne Hwf. unfold run_attempt. rewrite held_Refresh by done.
  destruct (Refresh_locked _ _ _ _ _ _ _ _) as [[r|e] s1] eqn:Hrun; [|done]. intros [= <-]. exists r.
  by destruct (Refresh_locked_ok _ _ _ format_time json_column v _ _ req s r s1 Hc Hk Hg Hwf (TrimSpace_idem _) Hrun) as (_ & _ & Heff).
Qed.
Lemma touches_live c s s' : touches c s s' → is_Some (connection_by_id (s_db s) c) → is_Some (connection_by_id (s_db s') c).
Proof.
  intros [_ _ _ _ Hrow]. unfold connection_by_id, live_row. destruct Hrow as [r r' [_ Hd]|]; [|done].
  rewrite Hd. destruct (cn_DeletedAt r); [intros [? ?]|]; done.
Qed.
Lemma pending_status v e c reason s : svc_connectionStore v = true → TrimSpace c = c → c ≠ "" → (∀ n, env_fault e n = None) → is_Some (connection_by_id (s_db s) c) →
  ∃ row, connection_by_id (s_db (run_update v e c ConnectionStatusPendingReauth reason s)) c = Some row ∧ cn_Status row = ConnectionStatusPendingReauth.
Proof.
  intros Hv Hc Hne%String.eqb_neq Hq [r Hr]. unfold run_update. rewrite Hv. simpl. unfold Connection_UpdateStatus. rewrite Hc, Hne, !Hq, Hr. simpl.
  unfold connection_by_id at 1. simpl. rewrite lookup_insert_eq. revert Hr. unfold connection_by_id, live_row. destruct (db_connections _ !! c) as [r'|]; [|done]. simpl.
  destruct (cn_DeletedAt r') eqn:Hd; [done|]. intros [= <-]. rewrite Hd. by eexists.
Qed.

(** How a run on connection [c] may end, from state [s]: with its last call, on what the calls before it left; with the connection waiting for the user, if it is there
    and the database takes the update; or cancelled in a pause. *)
Definition run_result v (last : CallEnv) (req : RefreshRequest) (c : string) (s : state) (res : RefreshRunResult) (err : option run_error) (s' : state) : Prop :=
  match err with
  | None => rr_PendingReauth res = false ∧ ∃ s0 result, touches c s s0 ∧ refresh_effect methods json_Marshal json_Unmarshal v (s_db s0) (s_db s') c req result
  | Some (RunErrRefresh _) => rr_PendingReauth res = true ∧
      ((∀ n, env_fault last n = None) → is_Some (connection_by_id (s_db s) c) → ∃ row, connection_by_id (s_db s') c = Some row ∧ cn_Status row = ConnectionStatusPendingReauth)
  | Some RunErrCancelled => rr_PendingReauth res = false
  | _ => False
  end.

End facts.

(** ** A run *)

Module RefreshRunsExample.
#[local] Existing Instance key_order_range.
#[local] Instance demo_grants : GrantStore sql_error ServiceDB := db_grant_store (λ _, "") (λ m, m).
Definition told (e : service_error sql_error) : refresh_error := mkRefreshError None (match e with SErrStrategy cause => cause | _ => "internal" end).
(** The database fails in the first attempt, after the new credential was saved; the second attempt goes through. *)
Definition env (n k : nat) : CallEnv := mkEnv (300 + 10 * Z.of_nat n + Z.of_nat k)%Z ("id-" +:+ Itoa (Z.of_nat n))
  (λ _, if (n =? 1)%nat && (k =? 3)%nat then Some "connection reset" else None).
Definition req := mkRefreshRequest "" " id-1" (Some (bare_token "old")).
Definition run (granted : list string) := Service_RunRefreshWithRetry (O := MemoryOAuthStateStore) (demo_methods granted) demo_marshal demo_unmarshal told demo_service
  env (quiet 900 "") (λ _ _, false) None 290 req 0 0 demo_unrefreshed.


(** The credential of the first attempt was kept, though the attempt failed: the second one stores another version. *)
Example failed_attempt_leaves_version : (map_to_list (db_credentials (s_db (run ["repo"]).2))).*1 ≡ₚ [("id-1", 1%Z); ("id-1", 2%Z)].
Proof. vm_compute. first [reflexivity | apply Permutation_swap]. Qed.

(** A provider that says the grant is invalid: one call, and the connection waits for the user. *)
Definition refused (_ : Provider) : ProviderMethods := mkMethods "oauth2" (λ _, Fail "unused") (λ _, Fail "unused") (λ _, Fail "oauth: invalid_grant") None None.
Example refused_run_waits :
  let '(res, err, s') := Service_RunRefreshWithRetry (O := MemoryOAuthStateStore) refused demo_marshal demo_unmarshal told demo_service env (quiet 900 "") (λ _ _, false) None 290 req 5 0 demo_unrefreshed in
  res = mkRunResult 1 true ∧ cn_Status <$> db_connections (s_db s') !! "id-1" = Some ConnectionStatusPendingReauth.
Proof. vm_compute. split; reflexivity. Qed.
End RefreshRunsExample.
