(* ===== verification/GoHTTP.v ===== *)
(** * Requests: what the code uses of [net/http], [net/url] and [strings]

    Header maps with canonical keys, query values with their parser and encoder, and requests.  Parsing a
    URL and printing it are parameters of the functions that use them; a URL is known by its host, its path and its raw query. *)

From S2P Require Import Prelude GoStrings GoURL.
From Stdlib Require Import ZArith NArith Ascii String Lia.
From stdpp Require Import base decidable list gmap strings sorting.

Local Open Scope string_scope.
Local Open Scope nat_scope.
Local Open Scope list_scope.

(** ** Strings *)

(** [strings.ReplaceAll] of a substring that is not empty; a step drops at least one byte, so the length is enough fuel. *)
Fixpoint replace_go (fuel : nat) (s old new : string) : string :=
  match fuel with
  | O => s
  | S fuel' =>
    match s with
    | EmptyString => EmptyString
    | String c s' =>
      if HasPrefix s old then new +:+ replace_go fuel' (String.substring (String.length old) (String.length s) s) old new
      else String c (replace_go fuel' s' old new)
    end
  end.
Definition ReplaceAll (s old new : string) : string := replace_go (String.length s) s old new.

(** [strings.TrimPrefix] *)
Definition TrimPrefix (s prefix : string) : string :=
  if HasPrefix s prefix then String.substring (String.length prefix) (String.length s - String.length prefix) s else s.

(** [strings.SplitN(s, sep, 2)] and [strings.Cut] at a one-byte separator: before and after its first occurrence. *)
Fixpoint CutChar (sep : ascii) (s : string) : option (string * string) :=
  match s with
  | EmptyString => None
  | String c s' =>
    if Ascii.eqb c sep then Some ("", s')
    else match CutChar sep s' with Some (a, b) => Some (String c a, b) | None => None end
  end.

(** [strings.Fields]: the maximal runs of bytes that are not part of a white-space rune; the word read so far comes first. *)
Definition end_word (r : string * list string) : list string := if String.eqb r.1 "" then r.2 else r.1 :: r.2.
Fixpoint fields_go (l : list ascii) : string * list string :=
  match l with
  | [] => ("", [])
  | a :: l1 =>
    let word := let r := fields_go l1 in (String a r.1, r.2) in
    if ws1 a then ("", end_word (fields_go l1))
    else match l1 with
    | [] => word
    | b :: l2 =>
      if ws2 a b then ("", end_word (fields_go l2))
      else match l2 with
      | [] => word
      | c :: l3 => if ws3 a b c then ("", end_word (fields_go l3)) else word
      end
    end
  end.
Definition Fields (s : string) : list string := end_word (fields_go (list_ascii_of_string s)).

Definition Join (sep : string) (l : list string) : string := String.concat sep l.

(** ** Headers *)

Abbreviation Header := (gmap string (list string)).

(** The bytes of a header field name. *)
Definition token_byte (c : ascii) : bool :=
  let b := byte_of c in
  ((48 <=? b) && (b <=? 57) || (65 <=? b) && (b <=? 90) || (97 <=? b) && (b <=? 122))%N
  || bool_decide (c ∈ list_ascii_of_string "!#$%&'*+-.^_`|~").

Fixpoint canonical_bytes (upper : bool) (l : list ascii) : list ascii :=
  match l with
  | [] => []
  | c :: l' => (if upper then upper_ascii c else lower_ascii c) :: canonical_bytes (Ascii.eqb c "-") l'
  end.

(** [textproto.CanonicalMIMEHeaderKey] *)
Definition CanonicalHeaderKey (k : string) : string :=
  let l := list_ascii_of_string k in
  if forallb token_byte l then string_of_list_ascii (canonical_bytes true l) else k.

Definition Header_Set (h : Header) (key value : string) : Header := <[CanonicalHeaderKey key := [value]]> h.
Definition Header_Del (h : Header) (key : string) : Header := delete (CanonicalHeaderKey key) h.
Definition Header_Get (h : Header) (key : string) : string :=
  match h !! CanonicalHeaderKey key with Some (v :: _) => v | _ => "" end.

(** ** Query values *)

Abbreviation Values := (gmap string (list string)).

Definition Values_Set (q : Values) (key value : string) : Values := <[key := [value]]> q.
Definition Values_Del (q : Values) (key : string) : Values := delete key q.
Definition Values_Get (q : Values) (key : string) : string :=
  match q !! key with Some (v :: _) => v | _ => "" end.
Definition Values_Add (q : Values) (key value : string) : Values := <[key := default [] (q !! key) ++ [value]]> q.

(** One [key=value] setting; settings that do not parse are dropped. *)
Definition parse_setting (q : Values) (setting : string) : Values :=
  if String.eqb setting "" || bool_decide (";"%char ∈ list_ascii_of_string setting) then q
  else
    let (k, v) := default (setting, "") (CutChar "=" setting) in
    match QueryUnescape k, QueryUnescape v with
    | Some k, Some v => Values_Add q k v
    | _, _ => q
    end.

(** [URL.Query] *)
Definition ParseQuery (raw : string) : Values := foldl parse_setting ∅ (SplitChar "&" raw).

(** [Values.Encode]: sorted by key. *)
Definition Values_Encode (q : Values) : string :=
  Join "&" (sortStrings (map_to_list q).*1 ≫= λ k,
    (λ v, QueryEscape k +:+ "=" +:+ QueryEscape v) <$> default [] (q !! k)).

(** ** Requests *)

(** [u_Rest] is what else a parsed URL holds. *)
Record URL := mkURL { u_Host : string; u_Path : string; u_RawQuery : string; u_Rest : string }.

Definition u_Query (u : URL) : Values := ParseQuery (u_RawQuery u).
Definition u_with_query (u : URL) (raw : string) : URL := mkURL (u_Host u) (u_Path u) raw (u_Rest u).

(** A body is read in full and put back, so it is its content. *)
Record HttpRequest := mkHttpRequest { hr_Method : string; hr_URL : URL; hr_Header : Header; hr_Body : option string }.

Definition hr_with_header (r : HttpRequest) (h : Header) : HttpRequest := mkHttpRequest (hr_Method r) (hr_URL r) h (hr_Body r).
Definition hr_with_url (r : HttpRequest) (u : URL) : HttpRequest := mkHttpRequest (hr_Method r) u (hr_Header r) (hr_Body r).
Definition hr_set (r : HttpRequest) (key value : string) : HttpRequest := hr_with_header r (Header_Set (hr_Header r) key value).

(** [http.NewRequestWithContext]: the method has to be a token; the URL is parsed again. *)
Definition valid_method (m : string) : bool :=
  negb (String.eqb m "") && forallb token_byte (list_ascii_of_string m).

(** A response with the bytes its body gives until the end or the error; a client as what it answers to a request. *)
Record HttpResponse := mkHttpResponse { hp_Status : Z; hp_Header : Header; hp_Body : string; hp_ReadError : option string }.
Abbreviation HTTPDoer := (HttpRequest → outcome string HttpResponse).
Definition status_ok (r : HttpResponse) : bool := ((200 <=? hp_Status r) && (hp_Status r <? 300))%Z.
(** [io.ReadAll(io.LimitReader(body, limit + 1))] gives more than [limit] bytes. *)
Definition exceeds (limit : Z) (r : HttpResponse) : bool := (limit <? Z.of_nat (String.length (hp_Body r)))%Z.

Example canonical_ex : CanonicalHeaderKey "x-amz-DATE" = "X-Amz-Date" ∧ CanonicalHeaderKey "a b" = "a b".
Proof. split; reflexivity. Qed.
Example query_ex : Values_Encode (ParseQuery "b=2&a=1%20x&b=3&c;d=1&e") = "a=1+x&b=2&b=3&e=".
Proof. reflexivity. Qed.
Example replace_ex : ReplaceAll "a+b++c%7E" "+" "%20" = "a%20b%20%20c%7E" ∧ ReplaceAll "%7E7%7E" "%7E" "~" = "~7~".
Proof. split; reflexivity. Qed.
Example fields_ex : Fields "  a  b " = ["a"; "b"].
Proof. reflexivity. Qed.

(** ** Lemmas *)

Lemma lower_upper c : lower_ascii (upper_ascii c) = lower_ascii c.
Proof.
  apply Ascii.eqb_eq. by apply (forall_ascii (λ c, Ascii.eqb (lower_ascii (upper_ascii c)) (lower_ascii c))).
Qed.

(** Canonical keys differ from the keys only in case. *)
Lemma ToLower_canonical k : ToLower (CanonicalHeaderKey k) = ToLower k.
Proof.
  unfold CanonicalHeaderKey. destruct (forallb _ _); [|done]. unfold ToLower, map_string.
  rewrite list_ascii_of_string_of_list_ascii. f_equal. generalize true.
  induction (list_ascii_of_string k) as [|c l IH]; intros u; simpl; [done|]. rewrite IH. f_equal.
  destruct u; [apply lower_upper|apply lower_ascii_idem].
Qed.

Lemma Header_Set_other h k v k' : k' ≠ CanonicalHeaderKey k → Header_Set h k v !! k' = h !! k'.
Proof. intros Hne. unfold Header_Set. by rewrite lookup_insert_ne. Qed.

Lemma Header_Get_Set r k v : Header_Get (hr_Header (hr_set r k v)) k = v.
Proof. unfold Header_Get. simpl. unfold Header_Set. by rewrite lookup_insert_eq. Qed.

(** ** Parsing what was encoded *)

(** The bytes an escaped text is made of. *)
Definition escaped_char (c : ascii) : bool := url_unreserved c || Ascii.eqb c "+" || Ascii.eqb c "%".
Lemma QueryEscape_escaped s : Forall (λ c, escaped_char c = true) (list_ascii_of_string (QueryEscape s)).
Proof.
  induction s as [|c s IH]; [constructor|]. cbn [QueryEscape]. destruct (url_unreserved c) eqn:Hu; [|destruct (Ascii.eqb c " ")].
  - constructor; [|done]. unfold escaped_char. by rewrite Hu.
  - by constructor.
  - assert (H : escaped_char (upperhex (byte_of c / 16)) && escaped_char (upperhex (byte_of c mod 16)) = true)
      by (by apply (forall_ascii (λ c, escaped_char (upperhex (byte_of c / 16)) && escaped_char (upperhex (byte_of c mod 16))))).
    apply andb_true_iff in H as [H1 H2]. by repeat constructor.
Qed.
Lemma escaped_char_plain c d : escaped_char c = true → escaped_char d = false → Ascii.eqb c d = false.
Proof. intros Hc Hd. apply Ascii.eqb_neq. congruence. Qed.
Lemma QueryEscape_without d s : escaped_char d = false → Forall (λ c, Ascii.eqb c d = false) (list_ascii_of_string (QueryEscape s)).
Proof. intros Hd. eapply Forall_impl; [apply QueryEscape_escaped|]. intros c Hc. by apply escaped_char_plain. Qed.

Lemma CutChar_app sep s t : Forall (λ c, Ascii.eqb c sep = false) (list_ascii_of_string s) → CutChar sep (s +:+ String sep t) = Some (s, t).
Proof.
  induction s as [|c s IH]; simpl; [by rewrite Ascii.eqb_refl|]. intros [Hc Hs]%Forall_cons. by rewrite Hc, (IH Hs).
Qed.
Lemma SplitChar_Join sep (l : list string) : l ≠ [] → Forall (λ s, Forall (λ c, Ascii.eqb c sep = false) (list_ascii_of_string s)) l →
  SplitChar sep (Join (String sep "") l) = l.
Proof.
  intros Hne Hl. induction Hl as [|s l Hs Hl IH]; [done|]. unfold Join in *. cbn. destruct l as [|t l]; [by apply SplitChar_plain|].
  change (s +:+ String sep "" +:+ String.concat (String sep "") (t :: l)) with (s +:+ String sep (String.concat (String sep "") (t :: l))).
  rewrite SplitChar_app by done. by rewrite IH.
Qed.

Definition setting (k v : string) : string := QueryEscape k +:+ "=" +:+ QueryEscape v.
Lemma setting_without d k v : escaped_char d = false → Ascii.eqb "=" d = false → Forall (λ c, Ascii.eqb c d = false) (list_ascii_of_string (setting k v)).
Proof.
  intros Hd He. unfold setting. rewrite !list_ascii_app. apply Forall_app_2; [by apply QueryEscape_without|]. cbn. constructor; [done|].
  by apply QueryEscape_without.
Qed.
Lemma parse_setting_spec q k v : parse_setting q (setting k v) = Values_Add q k v.
Proof.
  unfold parse_setting. destruct (String.eqb_spec (setting k v) "") as [He|_].
  { exfalso. apply (f_equal list_ascii_of_string) in He. unfold setting in He. rewrite !list_ascii_app in He. by destruct (list_ascii_of_string (QueryEscape k)). }
  rewrite bool_decide_eq_false_2; cbn [orb].
  - change (setting k v) with (QueryEscape k +:+ String "=" (QueryEscape v)). rewrite CutChar_app by (by apply QueryEscape_without). cbv beta iota delta [default from_option id]. by rewrite !QueryUnescape_QueryEscape.
  - intros Hin. pose proof (setting_without ";" k v eq_refl eq_refl) as Hf. rewrite Forall_forall in Hf. by apply Hf in Hin.
Qed.

Lemma parse_values q k vs : vs ≠ [] → q !! k = None → foldl parse_setting q (setting k <$> vs) = <[k := vs]> q.
Proof.
  intros Hne Hk. assert (Hgen : ∀ vs us, foldl parse_setting (<[k := us]> q) (setting k <$> vs) = <[k := us ++ vs]> q).
  { clear. induction vs as [|v vs IH]; intros us; [by rewrite app_nil_r|]. cbn. rewrite parse_setting_spec. unfold Values_Add.
    rewrite lookup_insert_eq, insert_insert_eq. cbn. by rewrite IH, <-app_assoc. }
  destruct vs as [|v vs]; [done|]. cbn. rewrite parse_setting_spec. unfold Values_Add. rewrite Hk. cbn. apply Hgen.
Qed.

(** Every key with its values comes back, if each has one. *)
Lemma ParseQuery_Encode q : map_Forall (λ _ vs, vs ≠ []) q → ParseQuery (Values_Encode q) = q.
Proof.
  intros Hq. unfold ParseQuery, Values_Encode.
  change (λ k, (λ v, QueryEscape k +:+ "=" +:+ QueryEscape v) <$> default [] (q !! k)) with (λ k, setting k <$> default [] (q !! k)).
  set (keys := sortStrings (map_to_list q).*1).
  assert (Hkeys : ∀ k, k ∈ keys ↔ is_Some (q !! k)).
  { intros k. unfold keys. rewrite elem_of_sortStrings, list_elem_of_fmap. split.
    - intros ([k' vs] & -> & Hin). apply elem_of_map_to_list in Hin. by eexists.
    - intros [vs Hvs]. exists (k, vs). by rewrite elem_of_map_to_list. }
  assert (Hnd : NoDup keys) by (unfold keys; rewrite sortStrings_perm; apply NoDup_fst_map_to_list).
  assert (Hfold : ∀ l acc, NoDup l → (∀ k, k ∈ l → acc !! k = None ∧ is_Some (q !! k)) →
    foldl parse_setting acc (l ≫= λ k, setting k <$> default [] (q !! k)) = list_to_map ((λ k, (k, default [] (q !! k))) <$> l) ∪ acc).
  { induction l as [|k l IH]; intros acc Hn Hl; [symmetry; apply map_empty_union|]. apply NoDup_cons in Hn as [Hk Hn]. cbn [mbind list_bind]. rewrite foldl_app.
    destruct (Hl k) as [Hacc [vs Hvs]]; [by left|]. rewrite Hvs. cbn [default from_option].
    rewrite parse_values by (by try apply (Hq _ _ Hvs)). rewrite IH; [|done|].
    - cbn [fmap list_fmap list_to_map foldr]. rewrite Hvs. cbn. rewrite <-insert_union_l, insert_union_r; [done|].
      apply not_elem_of_list_to_map_1. intros (kv & Hkv & Hin)%list_elem_of_fmap. apply list_elem_of_fmap in Hin as (k' & -> & Hin). cbn in Hkv. by subst.
    - intros k' Hk'. split; [|apply Hl; by right]. rewrite lookup_insert_ne; [|by intros ->]. apply Hl. by right. }
  destruct (decide (keys = [])) as [Hnil|Hne].
  { rewrite Hnil. cbn. symmetry. apply map_eq. intros k. rewrite lookup_empty. destruct (q !! k) eqn:Hk; [|done].
    assert (k ∈ keys) as Hin by (apply Hkeys; by eexists). rewrite Hnil in Hin. by apply elem_of_nil in Hin. }
  rewrite SplitChar_Join.
  - rewrite Hfold; [|done|intros k Hk; split; [by rewrite lookup_empty|by apply Hkeys]]. rewrite map_union_empty. apply map_eq. intros k.
    destruct (q !! k) as [vs|] eqn:Hk.
    + apply elem_of_list_to_map_1.
      { rewrite <-list_fmap_compose. cbn. by rewrite list_fmap_id. }
      apply list_elem_of_fmap. exists k. rewrite Hk. split; [done|]. apply Hkeys. by eexists.
    + apply not_elem_of_list_to_map_1. intros (kv & -> & Hin)%list_elem_of_fmap. apply list_elem_of_fmap in Hin as (k' & -> & Hin). cbn in Hk.
      apply Hkeys in Hin as [vs Hvs]. congruence.
  - destruct keys as [|k keys']; [done|]. cbn. destruct (Hkeys k) as [Hk _]. destruct Hk as [vs Hvs]; [by left|]. rewrite Hvs. cbn.
    destruct vs as [|v vs]; [by specialize (Hq _ _ Hvs)|]. done.
  - apply Forall_forall. intros s (k & Hs & _)%list_elem_of_bind. apply list_elem_of_fmap in Hs as (v & -> & _). by apply setting_without.
Qed.
