(* ===== verification/Signers.v ===== *)
(** * Request signing (src/core/signer.go, src/core/sigv4_signer.go)

    The signers a service puts on outgoing requests, and how one is chosen for a credential.  SHA-256, HMAC and the printing of
    dates are parameters; the canonical forms that AWS signature version 4 hashes are modelled in full. *)

From S2P Require Import Prelude GoStrings GoValues GoURL GoHTTP Domain Contracts ServiceTypes Permissions.
From Stdlib Require Import ZArith NArith Ascii String Lia.
From stdpp Require Import base decidable list gmap strings sorting.

Local Open Scope string_scope.
Local Open Scope nat_scope.
Local Open Scope list_scope.

(** ** Metadata *)

Fixpoint firstNonEmpty (values : list string) : string :=
  match values with
  | [] => ""
  | value :: rest => if blank value then firstNonEmpty rest else TrimSpace value
  end.

(** An [AuthKind] is its string; the values of the model have no byte slices and no [fmt.Stringer]. *)
Fixpoint metadataString (metadata : gmap string value) (keys : list string) : string :=
  match keys with
  | [] => ""
  | key :: rest =>
    let continue := metadataString metadata rest in
    if String.eqb key "" then continue
    else match metadata !! key with
         | Some (VString s) => if blank s then continue else TrimSpace s
         | _ => continue
         end
  end.

Definition metadataBool (metadata : gmap string value) (key : string) : bool :=
  if blank key then false
  else match metadata !! key with
       | Some (VBool b) => b
       | Some (VString s) => match ParseBool (TrimSpace s) with Some b => b | None => false end
       | _ => false
       end.

Definition compressSpaces (value : string) : string := GoHTTP.Join " " (Fields (TrimSpace value)).

(** ** Signers *)

Definition AuthKindAPIKey := "api_key".
Definition AuthKindPAT := "pat".
Definition AuthKindHMAC := "hmac".
Definition AuthKindMTLS := "mtls".
Definition AuthKindBasic := "basic".
Definition AuthKindAWSSigV4 := "aws_sigv4".

Inductive sign_error :=
| SignErrTokenRequired (text : string) | SignErrMode (mode : string) | SignErrProfile | SignErrOther (cause : string).

(** The texts of the errors; [quote] is the verb [%q]. *)
Definition sign_error_text (quote : string → string) (e : sign_error) : string :=
  match e with
  | SignErrTokenRequired text => text
  | SignErrMode mode => "core: unsupported aws sigv4 signing mode " +:+ quote mode
  | SignErrProfile => "core: aws sigv4 requires access key, secret, region, and service"
  | SignErrOther cause => cause
  end.

Record AWSSigV4Signer := mkSigV4 {
  aw_AccessKeyID : string; aw_SecretAccessKey : string; aw_SessionToken : string; aw_Region : string; aw_Service : string;
  aw_Mode : string; aw_QueryExpiry : Duration; aw_UnsignedPayload : bool; aw_AccessTokenHeader : string }.

Definition emptySigV4 : AWSSigV4Signer := mkSigV4 "" "" "" "" "" "" 0 false "".

(** [OtherSigner] is a signer that is not of this package. *)
Inductive Signer :=
| BearerTokenSigner
| APIKeySigner (header prefix queryParam : string)
| PATSigner
| HMACSigner (signatureHeader timestampHeader : string) (now : option Time)
| BasicAuthSigner
| MTLSSigner
| SigV4Signer (s : AWSSigV4Signer)
| OtherSigner (sign : HttpRequest → ActiveCredential → outcome string HttpRequest).

Definition setQueryValue (u : URL) (key value : string) : URL :=
  u_with_query u (Values_Encode (Values_Set (u_Query u) key value)).

Definition hex_digit (n : N) : ascii := ascii_of_N (if (n <? 10)%N then 48 + n else 87 + n)%N.
Fixpoint hex_EncodeToString (s : string) : string :=
  match s with
  | EmptyString => ""
  | String c s' => String (hex_digit (byte_of c / 16)) (String (hex_digit (byte_of c mod 16)) (hex_EncodeToString s'))
  end.

(** [Time.Unix] *)
Definition unixSeconds (t : Time) : Z := (t / Second - unixEpochSeconds)%Z.

Section signing.
Context {MR : MapRange}.
Variable sha256 : string → string.
Variable hmacSHA256 : string → string → string.
(** [Time.Format] of a layout, and [URL.EscapedPath]. *)
Variable time_Format : Time → string → string.
Variable EscapedPath : URL → string.

Definition sha256Hex (payload : string) : string := hex_EncodeToString (sha256 payload).

Definition readRequestBodyHash (req : HttpRequest) : string := sha256Hex (default "" (hr_Body req)).

Definition APIKey_Sign (header prefix queryParam : string) (req : HttpRequest) (cred : ActiveCredential)
    : outcome sign_error HttpRequest :=
  let key := TrimSpace (ac_AccessToken cred) in
  if String.eqb key "" then Fail (SignErrTokenRequired "core: api key token is required for signing")
  else
    let header := if blank header then "X-API-Key" else TrimSpace header in
    let req := if blank queryParam then req else hr_with_url req (setQueryValue (hr_URL req) (TrimSpace queryParam) key) in
    let value := if blank prefix then key else TrimSpace prefix +:+ " " +:+ key in
    Ok (hr_set req header value).

(** [BearerTokenSigner] and [BasicAuthSigner] *)
Definition token_Sign (scheme required : string) (req : HttpRequest) (cred : ActiveCredential) : outcome sign_error HttpRequest :=
  let token := TrimSpace (ac_AccessToken cred) in
  if String.eqb token "" then Fail (SignErrTokenRequired required) else Ok (hr_set req "Authorization" (scheme +:+ " " +:+ token)).

Definition HMAC_Sign (signatureHeader timestampHeader : string) (now : Time) (req : HttpRequest) (cred : ActiveCredential)
    : outcome sign_error HttpRequest :=
  let secret := TrimSpace (ac_AccessToken cred) in
  if String.eqb secret "" then Fail (SignErrTokenRequired "core: hmac secret is required for signing")
  else
    let signatureHeader := if blank signatureHeader then "X-Signature" else TrimSpace signatureHeader in
    let timestampHeader := if blank timestampHeader then "X-Timestamp" else TrimSpace timestampHeader in
    let timestamp := Itoa (unixSeconds now) in
    let canonical := GoHTTP.Join "
" [ToUpper (TrimSpace (hr_Method req)); u_Path (hr_URL req); timestamp; readRequestBodyHash req] in
    let signature := hex_EncodeToString (hmacSHA256 secret canonical) in
    Ok (hr_set (hr_set req timestampHeader timestamp) signatureHeader signature).

(** ** AWS signature version 4 *)

Definition defaultAWSSigV4Mode := "header".
Definition defaultAWSSigV4QueryExpiry : Duration := (5 * Minute)%Z.
Definition defaultAWSSigV4AccessTokenHeader := "x-amz-access-token".

(** The profile has the fields of the signer, resolved. *)
Definition resolveProfile (s : AWSSigV4Signer) (cred : ActiveCredential) : outcome sign_error AWSSigV4Signer :=
  let metadata := ac_Metadata cred in
  let mode := firstNonEmpty [lowerTrim (aw_Mode s); lowerTrim (metadataString metadata ["aws_signing_mode"; "signing_mode"]);
                             defaultAWSSigV4Mode] in
  if negb (String.eqb mode "header") && negb (String.eqb mode "query") then Fail (SignErrMode mode)
  else
    let accessKeyID := firstNonEmpty [TrimSpace (aw_AccessKeyID s); metadataString metadata ["aws_access_key_id"; "access_key_id"]] in
    let secretAccessKey := firstNonEmpty [TrimSpace (aw_SecretAccessKey s);
                                          metadataString metadata ["aws_secret_access_key"; "secret_access_key"]] in
    let region := firstNonEmpty [TrimSpace (aw_Region s); metadataString metadata ["aws_region"; "region"]] in
    let service := firstNonEmpty [TrimSpace (aw_Service s); metadataString metadata ["aws_service"; "service"]] in
    if String.eqb accessKeyID "" || String.eqb secretAccessKey "" || String.eqb region "" || String.eqb service ""
    then Fail SignErrProfile
    else
      let sessionToken := firstNonEmpty [TrimSpace (aw_SessionToken s); metadataString metadata ["aws_session_token"; "session_token"]] in
      let accessTokenHeader := firstNonEmpty [lowerTrim (aw_AccessTokenHeader s);
                                              lowerTrim (metadataString metadata ["aws_access_token_header"])] in
      let accessTokenHeader :=
        if String.eqb accessTokenHeader "" && negb (blank (ac_AccessToken cred)) then defaultAWSSigV4AccessTokenHeader
        else accessTokenHeader in
      let queryExpiry :=
        if (aw_QueryExpiry s <=? 0)%Z then
          let raw := metadataString metadata ["aws_signing_expires"; "aws_query_expires"] in
          if String.eqb raw "" then aw_QueryExpiry s
          else match Atoi (TrimSpace raw) with
               | Some seconds => if (0 <? seconds)%Z then wrap64 (seconds * Second) else aw_QueryExpiry s
               | None => aw_QueryExpiry s
               end
        else aw_QueryExpiry s in
      let queryExpiry := if (queryExpiry <=? 0)%Z then defaultAWSSigV4QueryExpiry else queryExpiry in
      Ok (mkSigV4 accessKeyID secretAccessKey sessionToken region service mode queryExpiry
            (aw_UnsignedPayload s || metadataBool metadata "aws_unsigned_payload") accessTokenHeader).

Definition canonicalURI (u : URL) : string := if String.eqb (EscapedPath u) "" then "/" else EscapedPath u.

(** The values of a header that are not blank, or nothing if there are none. *)
Definition cleaned (values : list string) : list string :=
  omap (λ v, if blank v then None else Some (compressSpaces (TrimSpace v))) values.

Definition normalized_step (m : gmap string string) (kv : string * list string) : gmap string string :=
  let lower := ToLower (TrimSpace kv.1) in
  if String.eqb lower "" || String.eqb lower "authorization" then m
  else match cleaned kv.2 with [] => m | l => <[lower := GoHTTP.Join "," l]> m end.

Definition canonicalHeaderBlock (headers : Header) (host : string) : string * string :=
  let normalized := foldl normalized_step {[ "host" := ToLower (TrimSpace host) ]} (map_range headers) in
  let keys := sortStrings (map_range normalized).*1 in
  (foldr (λ key rest, key +:+ ":" +:+ default "" (normalized !! key) +:+ "
" +:+ rest) "" keys, GoHTTP.Join ";" keys).

Definition awsQueryEscape (value : string) : string :=
  let escaped := QueryEscape value in
  let escaped := ReplaceAll escaped "+" "%20" in
  let escaped := ReplaceAll escaped "*" "%2A" in
  ReplaceAll escaped "%7E" "~".

(** [sort.Slice] by key and then by value; equal entries are the same entry. *)
Definition entry_le (a b : string * string) : Prop := String.le a.1 b.1 ∧ a.1 ≠ b.1 ∨ a.1 = b.1 ∧ String.le a.2 b.2.
#[local] Instance entry_le_dec a b : Decision (entry_le a b).
Proof. apply _. Defined.

Definition canonicalQueryString (query : Values) : string :=
  let values := map_range query ≫= λ kl,
    match kl.2 with
    | [] => [(awsQueryEscape kl.1, "")]
    | l => (λ v, (awsQueryEscape kl.1, awsQueryEscape v)) <$> l
    end in
  GoHTTP.Join "&" ((λ e, e.1 +:+ "=" +:+ e.2) <$> merge_sort entry_le values).

Definition awsSigV4Signature (secretAccessKey dateStamp region service stringToSign : string) : string :=
  let kDate := hmacSHA256 ("AWS4" +:+ secretAccessKey) dateStamp in
  let kRegion := hmacSHA256 kDate region in
  let kService := hmacSHA256 kRegion service in
  let kSigning := hmacSHA256 kService "aws4_request" in
  hex_EncodeToString (hmacSHA256 kSigning stringToSign).

Definition credential_scope (profile : AWSSigV4Signer) (dateStamp : string) : string :=
  dateStamp +:+ "/" +:+ aw_Region profile +:+ "/" +:+ aw_Service profile +:+ "/aws4_request".

(** The signature of a canonical request. *)
Definition request_signature (profile : AWSSigV4Signer) (amzDate dateStamp canonicalRequest : string) : string :=
  awsSigV4Signature (aw_SecretAccessKey profile) dateStamp (aw_Region profile) (aw_Service profile)
    (GoHTTP.Join "
" ["AWS4-HMAC-SHA256"; amzDate; credential_scope profile dateStamp; sha256Hex canonicalRequest]).

Definition payload_hash (profile : AWSSigV4Signer) (req : HttpRequest) : string :=
  if aw_UnsignedPayload profile then "UNSIGNED-PAYLOAD" else readRequestBodyHash req.

(** The canonical request of a request whose headers are set. *)
Definition header_canonical (req : HttpRequest) (payloadHash : string) : string :=
  let block := canonicalHeaderBlock (hr_Header req) (u_Host (hr_URL req)) in
  GoHTTP.Join "
" [ToUpper (TrimSpace (hr_Method req)); canonicalURI (hr_URL req); canonicalQueryString (u_Query (hr_URL req));
   block.1; block.2; payloadHash].

(** The access token is sent in a header of its own. *)
Definition set_access_token (profile : AWSSigV4Signer) (cred : ActiveCredential) (req : HttpRequest) : HttpRequest :=
  if negb (String.eqb (aw_AccessTokenHeader profile) "") && negb (blank (ac_AccessToken cred))
  then hr_set req (aw_AccessTokenHeader profile) (TrimSpace (ac_AccessToken cred)) else req.

Definition signAWSSigV4Header (req : HttpRequest) (cred : ActiveCredential) (profile : AWSSigV4Signer) (amzDate dateStamp : string)
    : HttpRequest :=
  let req := hr_with_header req (Header_Del (hr_Header req) "Authorization") in
  let req := hr_set req "X-Amz-Date" amzDate in
  let payloadHash := payload_hash profile req in
  let req := hr_set req "X-Amz-Content-Sha256" payloadHash in
  let req := if String.eqb (aw_SessionToken profile) "" then req else hr_set req "X-Amz-Security-Token" (aw_SessionToken profile) in
  let req := set_access_token profile cred req in
  let signedHeaders := (canonicalHeaderBlock (hr_Header req) (u_Host (hr_URL req))).2 in
  let signature := request_signature profile amzDate dateStamp (header_canonical req payloadHash) in
  hr_set req "Authorization" ("AWS4-HMAC-SHA256 Credential=" +:+ aw_AccessKeyID profile +:+ "/" +:+ credential_scope profile dateStamp
    +:+ ", SignedHeaders=" +:+ signedHeaders +:+ ", Signature=" +:+ signature).

(** [QueryExpiry] in whole seconds, at most a week.  Up to a week [Duration.Seconds] is exact enough for the conversion to
    [int] to be the integer part. *)
Definition query_expires (profile : AWSSigV4Signer) : Z :=
  let expires := Z.quot (aw_QueryExpiry profile) Second in
  let expires := if (expires <=? 0)%Z then Z.quot defaultAWSSigV4QueryExpiry Second else expires in
  if (604800 <? expires)%Z then 604800%Z else expires.

Definition query_canonical (req : HttpRequest) (query : Values) (payloadHash : string) : string :=
  GoHTTP.Join "
" [ToUpper (TrimSpace (hr_Method req)); canonicalURI (hr_URL req); canonicalQueryString query;
   "host:" +:+ ToLower (TrimSpace (u_Host (hr_URL req))) +:+ "
"; "host"; payloadHash].

Definition signAWSSigV4Query (req : HttpRequest) (cred : ActiveCredential) (profile : AWSSigV4Signer) (amzDate dateStamp : string)
    : HttpRequest :=
  let query := u_Query (hr_URL req) in
  let query := Values_Set query "X-Amz-Algorithm" "AWS4-HMAC-SHA256" in
  let query := Values_Set query "X-Amz-Credential" (aw_AccessKeyID profile +:+ "/" +:+ credential_scope profile dateStamp) in
  let query := Values_Set query "X-Amz-Date" amzDate in
  let query := Values_Set query "X-Amz-Expires" (Itoa (query_expires profile)) in
  let query := Values_Set query "X-Amz-SignedHeaders" "host" in
  let query := if String.eqb (aw_SessionToken profile) "" then query
               else Values_Set query "X-Amz-Security-Token" (aw_SessionToken profile) in
  let req := set_access_token profile cred req in
  let query := Values_Del query "X-Amz-Signature" in
  let payloadHash := payload_hash profile req in
  let signature := request_signature profile amzDate dateStamp (query_canonical req query payloadHash) in
  let query := Values_Set query "X-Amz-Signature" signature in
  let req := hr_with_url req (u_with_query (hr_URL req) (canonicalQueryString query)) in
  hr_with_header req (Header_Del (hr_Header req) "Authorization").

Definition SigV4_Sign (s : AWSSigV4Signer) (now : Time) (req : HttpRequest) (cred : ActiveCredential) : outcome sign_error HttpRequest :=
  match resolveProfile s cred with
  | Fail e => Fail e
  | Ok profile =>
    let amzDate := time_Format now "20060102T150405Z" in
    let dateStamp := time_Format now "20060102" in
    Ok (if String.eqb (aw_Mode profile) "query" then signAWSSigV4Query req cred profile amzDate dateStamp
        else signAWSSigV4Header req cred profile amzDate dateStamp)
  end.

(** [Signer.Sign]; [now] is the clock. *)
Definition Sign (signer : Signer) (now : Time) (req : HttpRequest) (cred : ActiveCredential) : outcome sign_error HttpRequest :=
  match signer with
  | BearerTokenSigner => token_Sign "Bearer" "core: access token is required for bearer signing" req cred
  | APIKeySigner header prefix queryParam => APIKey_Sign header prefix queryParam req cred
  | PATSigner => APIKey_Sign "Authorization" "token" "" req cred
  | HMACSigner sh th fixed => HMAC_Sign sh th (default now fixed) req cred
  | BasicAuthSigner => token_Sign "Basic" "core: basic auth token is required for signing" req cred
  | MTLSSigner => Ok req
  | SigV4Signer s => SigV4_Sign s now req cred
  | OtherSigner f => match f req cred with Ok r => Ok r | Fail e => Fail (SignErrOther e) end
  end.
End signing.

(** ** Choosing a signer *)

Definition resolveCredentialAuthKind (cred : ActiveCredential) : string :=
  let raw := metadataString (ac_Metadata cred) ["auth_kind"] in
  if negb (String.eqb raw "") then lowerTrim raw
  else if negb (blank (ac_TokenType cred)) then lowerTrim (ac_TokenType cred)
  else "".

Definition resolveAuthKindSigner (cred : ActiveCredential) : option Signer :=
  let md := ac_Metadata cred in
  let authKind := normalizeAuthKind (resolveCredentialAuthKind cred) in
  if String.eqb authKind AuthKindAPIKey then
    Some (APIKeySigner (firstNonEmpty [metadataString md ["api_key_header"]; "X-API-Key"])
            (metadataString md ["api_key_prefix"]) (metadataString md ["api_key_query_param"]))
  else if String.eqb authKind AuthKindPAT then Some PATSigner
  else if String.eqb authKind AuthKindHMAC then
    let raw := metadataString md ["hmac_timestamp_unix"] in
    let now := if String.eqb raw "" then None
               else match ParseInt10 (TrimSpace raw) with
                    | Some unix => if (0 <? unix)%Z then Some (timeUnix unix) else None
                    | None => None
                    end in
    Some (HMACSigner (firstNonEmpty [metadataString md ["signature_header"]; "X-Signature"])
            (firstNonEmpty [metadataString md ["timestamp_header"]; "X-Timestamp"]) now)
  else if String.eqb authKind AuthKindBasic then Some BasicAuthSigner
  else if String.eqb authKind AuthKindMTLS then Some MTLSSigner
  else if String.eqb authKind AuthKindAWSSigV4 then Some (SigV4Signer emptySigV4)
  else None.

(** [provider] is the signer of a provider that implements [ProviderSigner] ([Some None] if that one is nil), [default_signer]
    the one of the service. *)
Definition resolveSignerForProvider (provider : option (option Signer)) (default_signer : option Signer) : option Signer :=
  match provider with Some (Some s) => Some s | _ => default_signer end.

Definition resolveSignerForCredential (provider : option (option Signer)) (default_signer : option Signer)
    (cred : option ActiveCredential) : option Signer :=
  let for_provider := resolveSignerForProvider provider default_signer in
  let by_kind c := match resolveAuthKindSigner c with Some s => Some s | None => for_provider end in
  match for_provider, provider with
  | Some s, Some _ => Some s
  | _, _ =>
    match cred with
    | None => for_provider
    | Some c => match default_signer with
                | None | Some BearerTokenSigner => by_kind c
                | _ => for_provider
                end
    end
  end.

(** ** Canonical forms *)

#[local] Instance entry_le_trans : Transitive entry_le.
Proof.
  intros [a1 a2] [b1 b2] [c1 c2]. unfold entry_le. simpl. intros [[H1 H2]|[-> H1]] [[H3 H4]|[-> H3]]; [left|left..|right]; auto.
  - split; [by etrans|]. intros ->. apply H2. by apply (anti_symm String.le).
  - split; [done|]. by etrans.
Qed.
#[local] Instance entry_le_antisymm : AntiSymm (=) entry_le.
Proof.
  intros [a1 a2] [b1 b2]. unfold entry_le. simpl. intros [[H1 H2]|[-> H1]] [[H3 H4]|[E H3]]; subst; try done.
  - destruct H2. by apply (anti_symm String.le).
  - f_equal. by apply (anti_symm String.le).
Qed.
#[local] Instance entry_le_total : Total entry_le.
Proof.
  intros [a1 a2] [b1 b2]. unfold entry_le. simpl. destruct (decide (a1 = b1)) as [->|Hne].
  - destruct (total String.le a2 b2); auto.
  - destruct (total String.le a1 b1); auto 10.
Qed.

(** The canonical query does not depend on the order the values are visited in. *)
Lemma canonicalQueryString_agree (MR1 MR2 : MapRange) (q : Values) :
  canonicalQueryString (MR := MR1) q = canonicalQueryString (MR := MR2) q.
Proof.
  unfold canonicalQueryString. f_equal. f_equal. apply (Sorted_unique entry_le); [apply Sorted_merge_sort, _..|].
  rewrite !merge_sort_Permutation. apply bind_Permutation. by rewrite !map_range_perm.
Qed.

(** No two header names are equal up to case and surrounding space, as in a request read from the wire. *)
Definition distinct_names (h : Header) : Prop :=
  ∀ k1 k2, is_Some (h !! k1) → is_Some (h !! k2) → lowerTrim k1 = lowerTrim k2 → k1 = k2.

Lemma distinct_names_list (h : Header) : NoDup (lowerTrim <$> (map_to_list h).*1) → distinct_names h.
Proof.
  intros Hnd k1 k2 [v1 H1] [v2 H2] E.
  assert (Hin : ∀ k v, h !! k = Some v → k ∈ (map_to_list h).*1).
  { intros k v Hk. apply list_elem_of_fmap. exists (k, v). split; [done|]. by apply elem_of_map_to_list. }
  apply Hin, list_elem_of_lookup in H1 as [i Hi]. apply Hin, list_elem_of_lookup in H2 as [j Hj].
  assert (i = j) as ->; [|congruence].
  eapply NoDup_lookup; [done|by rewrite list_lookup_fmap, Hi|by rewrite list_lookup_fmap, Hj, E].
Qed.

Lemma normalized_step_comm m a b :
  lowerTrim a.1 ≠ lowerTrim b.1 → normalized_step (normalized_step m a) b = normalized_step (normalized_step m b) a.
Proof.
  unfold normalized_step. rewrite !ToLower_TrimSpace. fold (lowerTrim a.1) (lowerTrim b.1). intros Hne.
  repeat case_match; try done. by rewrite insert_insert_ne.
Qed.

(** The canonical headers do not depend on the order the headers are visited in, nor on the authorization header. *)
Lemma canonicalHeaderBlock_agree (MR1 MR2 : MapRange) (h1 h2 : Header) (host : string) :
  distinct_names h1 → (∀ k v, lowerTrim k ≠ "authorization" → h1 !! k = Some v ↔ h2 !! k = Some v) →
  canonicalHeaderBlock (MR := MR1) h1 host = canonicalHeaderBlock (MR := MR2) h2 host.
Proof.
  intros Hd Ha. set (P := λ kv : string * list string, lowerTrim kv.1 ≠ "authorization").
  assert (Hskip : ∀ m kv, ¬ P kv → normalized_step m kv = m).
  { intros m kv HP. unfold P in HP. apply dec_stable in HP. unfold normalized_step. rewrite ToLower_TrimSpace.
    fold (lowerTrim kv.1). by rewrite HP. }
  unfold canonicalHeaderBlock.
  rewrite (foldl_filter _ P (map_range (MapRange := MR1) h1)), (foldl_filter _ P (map_range (MapRange := MR2) h2)) by done.
  assert (Hnd : ∀ (MR : MapRange) (h : Header), NoDup (filter P (map_range h))).
  { intros MR h. apply NoDup_filter. eapply NoDup_fmap_1, NoDup_map_range. }
  rewrite (foldl_permutation _ _ (filter P (map_range (MapRange := MR2) h2))); [|apply Hnd| |].
  - set (n := foldl _ _ _). rewrite (sortStrings_unique _ (map_range (MapRange := MR2) n).*1); [done|].
    by rewrite !map_range_perm.
  - intros [k1 v1] [k2 v2] b [_ H1%elem_of_map_range]%list_elem_of_filter [_ H2%elem_of_map_range]%list_elem_of_filter Hne.
    apply normalized_step_comm. intros E. apply Hd in E; [|by simpl; eauto..]. simplify_eq/=.
  - apply NoDup_Permutation; [apply Hnd..|]. intros [k v]. rewrite !list_elem_of_filter, !elem_of_map_range.
    unfold P. naive_solver.
Qed.

Lemma canonical_authorization k : CanonicalHeaderKey k = "Authorization" → lowerTrim k = "authorization".
Proof. intros E. unfold lowerTrim. by rewrite <-ToLower_canonical, E. Qed.

Section sigv4_facts.
Context {MR : MapRange}.
Variable sha256 : string → string.
Variable hmacSHA256 : string → string → string.
Variable EscapedPath : URL → string.

(** The request as it is when its canonical form is taken. *)
Definition header_prepared (req : HttpRequest) (cred : ActiveCredential) (profile : AWSSigV4Signer) (amzDate : string) : HttpRequest :=
  let req := hr_with_header req (Header_Del (hr_Header req) "Authorization") in
  let req := hr_set req "X-Amz-Date" amzDate in
  let req := hr_set req "X-Amz-Content-Sha256" (payload_hash sha256 profile req) in
  let req := if String.eqb (aw_SessionToken profile) "" then req else hr_set req "X-Amz-Security-Token" (aw_SessionToken profile) in
  set_access_token profile cred req.

(** What the authorization header says. *)
Definition authorization (profile : AWSSigV4Signer) (dateStamp signedHeaders signature : string) : string :=
  "AWS4-HMAC-SHA256 Credential=" +:+ aw_AccessKeyID profile +:+ "/" +:+ credential_scope profile dateStamp
    +:+ ", SignedHeaders=" +:+ signedHeaders +:+ ", Signature=" +:+ signature.

Lemma prepared_fields req cred profile amzDate :
  let p := header_prepared req cred profile amzDate in
  hr_Method p = hr_Method req ∧ hr_URL p = hr_URL req ∧ hr_Body p = hr_Body req.
Proof. unfold header_prepared, set_access_token. by repeat case_match. Qed.

Lemma payload_hash_body profile r1 r2 : hr_Body r1 = hr_Body r2 → payload_hash sha256 profile r1 = payload_hash sha256 profile r2.
Proof. intros E. unfold payload_hash, readRequestBodyHash. by rewrite E. Qed.

Lemma signAWSSigV4Header_prepared req cred profile amzDate dateStamp :
  let p := header_prepared req cred profile amzDate in
  signAWSSigV4Header sha256 hmacSHA256 EscapedPath req cred profile amzDate dateStamp =
  hr_set p "Authorization" (authorization profile dateStamp (canonicalHeaderBlock (hr_Header p) (u_Host (hr_URL p))).2
    (request_signature sha256 hmacSHA256 profile amzDate dateStamp
       (header_canonical EscapedPath p (payload_hash sha256 profile req)))).
Proof. done. Qed.

(** Preparing a signed request again changes nothing but the authorization header. *)
Lemma prepared_again req cred profile amzDate v :
  header_prepared (hr_set (header_prepared req cred profile amzDate) "Authorization" v) cred profile amzDate =
  header_prepared req cred profile amzDate.
Proof.
  unfold header_prepared. rewrite !(payload_hash_body profile (hr_set _ "X-Amz-Date" _) req) by (unfold set_access_token; by repeat case_match).
  generalize (payload_hash sha256 profile req). intros hash.
  assert (Hu : ∃ added : Header, ∀ r,
    set_access_token profile cred (let r := hr_set (hr_set r "X-Amz-Date" amzDate) "X-Amz-Content-Sha256" hash in
      if String.eqb (aw_SessionToken profile) "" then r else hr_set r "X-Amz-Security-Token" (aw_SessionToken profile)) =
    hr_with_header r (added ∪ hr_Header r)).
  { unfold set_access_token, hr_set, hr_with_header, Header_Set. repeat case_match; eexists; intros r; simpl; f_equal;
      rewrite <-(map_empty_union (hr_Header r)) at 1; rewrite !insert_union_l; reflexivity. }
  destruct Hu as [added Hu]. rewrite !Hu. unfold hr_with_header, hr_set, Header_Set, Header_Del; simpl. f_equal.
  apply map_eq; intros k. rewrite !lookup_union, !lookup_delete, lookup_insert, lookup_union, lookup_delete.
  destruct (added !! k), (hr_Header req !! k); repeat case_decide; done.
Qed.

(** C36: a request signed with AWS signature version 4 in header mode carries the signature of its own canonical form: whoever
    recomputes it over the request as sent, leaving out the authorization header, visiting the headers in any order, finds the
    signature and the list of signed headers that the authorization header states; and signing it again at the same time leaves it
    as it is.  The header names have to be distinct up to case. *)
Theorem sigv4_header_verifies (MR' : MapRange) req cred profile amzDate dateStamp :
  let r := signAWSSigV4Header (MR := MR) sha256 hmacSHA256 EscapedPath req cred profile amzDate dateStamp in
  distinct_names (hr_Header r) →
  Header_Get (hr_Header r) "Authorization" =
    authorization profile dateStamp (canonicalHeaderBlock (MR := MR') (hr_Header r) (u_Host (hr_URL r))).2
      (request_signature sha256 hmacSHA256 profile amzDate dateStamp
         (header_canonical (MR := MR') EscapedPath r (payload_hash sha256 profile r))) ∧
  signAWSSigV4Header (MR := MR) sha256 hmacSHA256 EscapedPath r cred profile amzDate dateStamp = r.
Proof.
  cbv zeta. rewrite (signAWSSigV4Header_prepared req), signAWSSigV4Header_prepared. cbv zeta. set (p := header_prepared req cred profile amzDate).
  set (w := authorization _ _ _ _). intros Hd. destruct (prepared_fields req cred profile amzDate) as (Hm & Hu & Hb). fold p in Hm, Hu, Hb.
  assert (Hblock : canonicalHeaderBlock (MR := MR') (hr_Header (hr_set p "Authorization" w)) (u_Host (hr_URL p)) =
    canonicalHeaderBlock (MR := MR) (hr_Header p) (u_Host (hr_URL p))).
  { apply canonicalHeaderBlock_agree; [done|]. intros k v Hk. unfold hr_set, hr_with_header. simpl.
    by rewrite Header_Set_other by (intros ->; by destruct Hk). }
  pose proof (prepared_again req cred profile amzDate w) as Hagain. fold p in Hagain.
  rewrite !Hagain, (payload_hash_body profile (hr_set p _ _) req) by done. unfold header_canonical.
  change (hr_URL (hr_set p "Authorization" w)) with (hr_URL p).
  rewrite Hblock, (canonicalQueryString_agree MR' MR). split; [|reflexivity].
  rewrite Header_Get_Set. reflexivity.
Qed.

(** The expiry of a signed query is between one second and a week, whatever the profile asks for. *)
Lemma query_expires_bounds profile : (1 ≤ query_expires profile ≤ 604800)%Z.
Proof. unfold query_expires, defaultAWSSigV4QueryExpiry. change (Z.quot (5 * Minute) Second) with 300%Z. repeat case_match; lia. Qed.
End sigv4_facts.

Lemma sigv4_header_verifies_witness :
  let MR := key_order_range in
  let profile := mkSigV4 "AKIA" "secret" "" "us-east-1" "execute-api" "header" 0 false "x-amz-access-token" in
  let req := mkHttpRequest "get" (mkURL "api.example.com" "/orders" "b=2&a=1" "") {[ "Accept" := ["text/json"] ]} None in
  let cred := mkActiveCredential "" "" "token" "" [] [] None false None ∅ in
  let r := signAWSSigV4Header (MR := MR) (λ s, "#" +:+ s) (λ k s, s) u_Path req cred profile "20250102T030405Z" "20250102" in
  distinct_names (hr_Header r) ∧
  Header_Get (hr_Header r) "Authorization" =
    authorization profile "20250102" "accept;host;x-amz-access-token;x-amz-content-sha256;x-amz-date"
      (request_signature (λ s, "#" +:+ s) (λ k s, s) profile "20250102T030405Z" "20250102"
         (header_canonical (MR := MR) u_Path r (payload_hash (λ s, "#" +:+ s) profile r))).
Proof.
  cbv zeta. assert (Hd : ∀ h : Header, bool_decide (NoDup (lowerTrim <$> (map_to_list h).*1)) = true → distinct_names h).
  { intros h Hh. apply distinct_names_list. exact (bool_decide_eq_true_1 _ Hh). }
  split; [apply Hd; vm_compute; reflexivity|].
  etransitivity; [apply (sigv4_header_verifies (MR := key_order_range) (λ s, "#" +:+ s) (λ k s, s) u_Path key_order_range)|].
  - apply Hd; vm_compute; reflexivity.
  - vm_compute. reflexivity.
Defined.
