(* ===== verification/Errors.v ===== *)
(** * Service errors (src/core/errors.go, src/core/contracts.go, src/ratelimit/policy.go)

    The envelope every error of the service is put in: an HTTP code, a category and a text code.  An [error] is known by its
    text and by what [errors.As] and [errors.Is] find in its chain.  The library github.com/goliatone/go-errors is an
    interface: constructors that keep the category they are given, and its own mapper. *)

From S2P Require Import Prelude GoStrings GoValues Domain Contracts OAuthState RateLimit.
From Stdlib Require Import ZArith String Lia.
From stdpp Require Import base decidable list gmap strings.

Local Open Scope string_scope.
Local Open Scope list_scope.

(** ** Errors *)

(** [goerrors.Category]; [CategoryOther] is one that src/core/errors.go does not name. *)
Inductive Category :=
| CategoryBadInput | CategoryValidation | CategoryNotFound | CategoryAuth | CategoryAuthz | CategoryConflict
| CategoryRateLimit | CategoryOperation | CategoryExternal | CategoryInternal | CategoryOther (name : string).
#[export] Instance Category_eq_dec : EqDecision Category.
Proof. solve_decision. Defined.

(** [goerrors.Error] *)
Record RichError := mkRich {
  re_Category : Category; re_Code : Z; re_TextCode : string; re_Message : string; re_Metadata : gmap string value }.

Definition WithCode (e : RichError) (code : Z) : RichError :=
  mkRich (re_Category e) code (re_TextCode e) (re_Message e) (re_Metadata e).
Definition WithTextCode (e : RichError) (textCode : string) : RichError :=
  mkRich (re_Category e) (re_Code e) textCode (re_Message e) (re_Metadata e).
Definition WithMessage (e : RichError) (message : string) : RichError :=
  mkRich (re_Category e) (re_Code e) (re_TextCode e) message (re_Metadata e).
Definition WithMetadata (e : RichError) (metadata : gmap string value) : RichError :=
  mkRich (re_Category e) (re_Code e) (re_TextCode e) (re_Message e) (mapsCopy (re_Metadata e) metadata).

(** The errors the code compares with [errors.Is]. *)
Inductive sentinel :=
| IsSyncJobNotFound | IsSyncCursorConflict | IsInvalidSyncJobMode | IsInvalidSyncJobScope | IsEmbeddedAuthUnsupported
| IsContextCanceled | IsDeadlineExceeded.
#[export] Instance sentinel_eq_dec : EqDecision sentinel.
Proof. solve_decision. Defined.

(** An [error]: its text, the [goerrors.Error] in its chain, the result of [ToServiceError] of the first error in its chain that
    has this method, and the sentinels in its chain. *)
Record GoError := mkGoError {
  err_Text : string; err_Rich : option RichError; err_Convertible : option (option RichError); err_Is : list sentinel }.

(** [fmt.Errorf] without [%w]. *)
Definition plainError (text : string) : GoError := mkGoError text None None [].

Definition errorsIs (err : GoError) (s : sentinel) : bool := bool_decide (s ∈ err_Is err).

(** What the code relies on of the errors library. *)
Class GoErrors := {
  goerrors_New : string → Category → RichError;
  goerrors_Wrap : GoError → Category → string → RichError;
  goerrors_MapToError : GoError → option RichError;
  New_Category : ∀ m c, re_Category (goerrors_New m c) = c;
  Wrap_Category : ∀ e c m, re_Category (goerrors_Wrap e c m) = c }.

(** ** Text codes *)

Definition ServiceErrorBadInput := "SERVICE_BAD_INPUT".
Definition ServiceErrorNotFound := "SERVICE_NOT_FOUND".
Definition ServiceErrorUnauthorized := "SERVICE_UNAUTHORIZED".
Definition ServiceErrorForbidden := "SERVICE_FORBIDDEN".
Definition ServiceErrorConflict := "SERVICE_CONFLICT".
Definition ServiceErrorOperationFailed := "SERVICE_OPERATION_FAILED".
Definition ServiceErrorExternalFailure := "SERVICE_EXTERNAL_FAILURE".
Definition ServiceErrorProviderNotFound := "SERVICE_PROVIDER_NOT_FOUND".
Definition ServiceErrorCapabilityUnsupported := "SERVICE_CAPABILITY_UNSUPPORTED".
Definition ServiceErrorOAuthStateInvalid := "SERVICE_OAUTH_STATE_INVALID".
Definition ServiceErrorEmbeddedAuthUnsupported := "SERVICE_EMBEDDED_AUTH_UNSUPPORTED".
Definition ServiceErrorReplayDetected := "SERVICE_REPLAY_DETECTED".
Definition ServiceErrorRefreshLocked := "SERVICE_REFRESH_LOCKED".
Definition ServiceErrorRateLimited := "SERVICE_RATE_LIMITED".
Definition ServiceErrorProviderOperationFailed := "SERVICE_PROVIDER_OPERATION_FAILED".
Definition ServiceErrorSyncJobNotFound := "SERVICE_SYNC_JOB_NOT_FOUND".
Definition ServiceErrorSyncCursorConflict := "SERVICE_SYNC_CURSOR_CONFLICT".
Definition ServiceErrorInternal := "SERVICE_INTERNAL_ERROR".

Definition defaultServiceTextCode (category : Category) : string :=
  match category with
  | CategoryBadInput | CategoryValidation => ServiceErrorBadInput
  | CategoryNotFound => ServiceErrorNotFound
  | CategoryAuth => ServiceErrorUnauthorized
  | CategoryAuthz => ServiceErrorForbidden
  | CategoryConflict => ServiceErrorConflict
  | CategoryRateLimit => ServiceErrorRateLimited
  | CategoryOperation => ServiceErrorOperationFailed
  | CategoryExternal => ServiceErrorExternalFailure
  | _ => ServiceErrorInternal
  end.

Definition serviceHTTPStatus (category : Category) : Z :=
  match category with
  | CategoryBadInput | CategoryValidation => StatusBadRequest
  | CategoryNotFound => StatusNotFound
  | CategoryAuth => StatusUnauthorized
  | CategoryAuthz => StatusForbidden
  | CategoryConflict => StatusConflict
  | CategoryRateLimit => StatusTooManyRequests
  | _ => StatusInternalServerError
  end.

(** ** The mapper *)

Definition ensureServiceErrorEnvelope (err : RichError) : RichError :=
  let err := if (re_Code err =? 0)%Z then WithCode err (serviceHTTPStatus (re_Category err)) else err in
  let err := if blank (re_TextCode err) then WithTextCode err (defaultServiceTextCode (re_Category err)) else err in
  if bool_decide (re_Category err = CategoryInternal) && blank (re_Message err)
  then WithMessage err "An unexpected error occurred" else err.

Section mapper.
Context {GE : GoErrors}.

Definition newServiceError (message : string) (category : Category) (textCode : string) : RichError :=
  ensureServiceErrorEnvelope (WithTextCode (goerrors_New message category) textCode).

Definition newServiceErrorFromSource (source : GoError) (category : Category) (textCode : string) : RichError :=
  ensureServiceErrorEnvelope (WithTextCode (goerrors_Wrap source category (err_Text source)) textCode).

(** The classes of sentinel errors, and the classes told by the words of the text. *)
Definition sentinel_class (err : GoError) : option (Category * string) :=
  if errorsIs err IsSyncJobNotFound then Some (CategoryNotFound, ServiceErrorSyncJobNotFound)
  else if errorsIs err IsSyncCursorConflict then Some (CategoryConflict, ServiceErrorSyncCursorConflict)
  else if errorsIs err IsInvalidSyncJobMode || errorsIs err IsInvalidSyncJobScope then Some (CategoryBadInput, ServiceErrorBadInput)
  else if errorsIs err IsEmbeddedAuthUnsupported then Some (CategoryOperation, ServiceErrorEmbeddedAuthUnsupported)
  else None.

Definition text_class (msg : string) : option (Category * string) :=
  if Contains msg "provider" && Contains msg "not registered" then Some (CategoryNotFound, ServiceErrorProviderNotFound)
  else if Contains msg "capability" && Contains msg "not supported" then Some (CategoryOperation, ServiceErrorCapabilityUnsupported)
  else if Contains msg "oauth callback state" || Contains msg "oauth state" then Some (CategoryAuth, ServiceErrorOAuthStateInvalid)
  else if Contains msg "replay" then Some (CategoryConflict, ServiceErrorReplayDetected)
  else if Contains msg "lock already held" || Contains msg "refresh lock" then Some (CategoryConflict, ServiceErrorRefreshLocked)
  else if Contains msg "throttl" || Contains msg "rate limit" then Some (CategoryRateLimit, ServiceErrorRateLimited)
  else if Contains msg "required" || Contains msg "invalid" || Contains msg "mismatch" then Some (CategoryBadInput, ServiceErrorBadInput)
  else None.

Definition serviceErrorMapper (err : GoError) : option RichError :=
  match err_Rich err with
  | Some richErr => Some (ensureServiceErrorEnvelope richErr)
  | None =>
    match err_Convertible err with
    | Some (Some mapped) => Some (ensureServiceErrorEnvelope mapped)
    | _ =>
      let msg := lowerTrim (err_Text err) in
      match sentinel_class err with
      | Some (category, textCode) => Some (newServiceErrorFromSource err category textCode)
      | None =>
        match text_class msg with
        | Some (category, textCode) => Some (newServiceError (err_Text err) category textCode)
        | None => ensureServiceErrorEnvelope <$> goerrors_MapToError err
        end
      end
    end
  end.

(** [mapError] of a service whose mapper is the default one: what the caller gets. *)
Definition asRich (e : RichError) : GoError := mkGoError (re_Message e) (Some e) None [].
Definition mapError (err : GoError) : GoError :=
  match serviceErrorMapper err with Some mapped => asRich mapped | None => err end.

(** ** Errors of the components *)

(** [ThrottledError]; [text] prints a duration. *)
Definition throttled_text (quote : string → string) (text : Duration → string) (e : ThrottledError) : string :=
  "ratelimit: provider " +:+ quote (TrimSpace (te_ProviderID e)) +:+ " bucket " +:+ quote (TrimSpace (te_BucketKey e))
    +:+ " throttled for " +:+ text (te_RetryAfter e).

Definition Throttled_ToServiceError (quote : string → string) (text : Duration → string) (e : ThrottledError) : RichError :=
  let metadata := {[ "provider_id" := VString (TrimSpace (te_ProviderID e)); "bucket_key" := VString (TrimSpace (te_BucketKey e)) ]} in
  let metadata := if (0 <? te_RetryAfter e)%Z then <["retry_after_ms" := VInt Int64K (Z.quot (te_RetryAfter e) Millisecond)]> metadata
                  else metadata in
  WithMetadata (WithTextCode (WithCode (goerrors_New (throttled_text quote text e) CategoryRateLimit) StatusTooManyRequests)
    ServiceErrorRateLimited) metadata.

Definition rate_error_value (quote : string → string) (text : Duration → string) (e : rate_error) : GoError :=
  match e with
  | ErrStateNotFound => plainError "ratelimit: state not found"
  | ErrStore cause => plainError cause
  | ErrThrottled t => mkGoError (throttled_text quote text t) None (Some (Some (Throttled_ToServiceError quote text t))) []
  end.

(** The errors of the OAuth state checks; a failed restore joins both. *)
Fixpoint oauth_error_text (e : oauth_error) : string :=
  match e with
  | ErrOAuthStateRequired => "core: oauth state is required"
  | ErrOAuthStateNotFound => "core: oauth state not found"
  | ErrCallbackStateRequired => "core: oauth callback state is required"
  | ErrCallbackProviderMismatch => "core: oauth callback state provider mismatch"
  | ErrCallbackScopeMismatch => "core: oauth callback state scope mismatch"
  | ErrCallbackRedirectMismatch => "core: oauth callback state redirect mismatch"
  | ErrCallbackRedirectRequired => "core: oauth callback redirect uri is required"
  | ErrRestoreFailed validation restore => oauth_error_text validation +:+ "
core: restore oauth callback state: " +:+ oauth_error_text restore
  end.

(** ** Theorems *)

Lemma defaultServiceTextCode_not_blank c : blank (defaultServiceTextCode c) = false.
Proof. by destruct c. Qed.
Lemma serviceHTTPStatus_range c : (400 ≤ serviceHTTPStatus c ≤ 500)%Z.
Proof. by destruct c. Qed.

(** A complete envelope. *)
Definition enveloped (e : RichError) : Prop :=
  re_Code e ≠ 0%Z ∧ blank (re_TextCode e) = false ∧ (re_Category e = CategoryInternal → blank (re_Message e) = false).

Lemma ensure_enveloped e : enveloped (ensureServiceErrorEnvelope e).
Proof.
  pose proof (serviceHTTPStatus_range (re_Category e)). pose proof (defaultServiceTextCode_not_blank (re_Category e)).
  unfold enveloped, ensureServiceErrorEnvelope.
  destruct (Z.eqb_spec (re_Code e) 0); simpl; destruct (blank (re_TextCode e)) eqn:?; simpl;
    destruct (bool_decide_reflect (re_Category e = CategoryInternal)); simpl; destruct (blank (re_Message e)) eqn:?;
    simpl; split_and!; try done; lia.
Qed.

(** Completing an envelope keeps what is there. *)
Lemma ensure_complete e : enveloped e → ensureServiceErrorEnvelope e = e.
Proof.
  intros (Hc & Ht & Hm). unfold ensureServiceErrorEnvelope. destruct (Z.eqb_spec (re_Code e) 0); [done|]. rewrite Ht.
  destruct (bool_decide_reflect (re_Category e = CategoryInternal)) as [Hi|]; [|done]. by rewrite (Hm Hi).
Qed.

Lemma ensure_Category e : re_Category (ensureServiceErrorEnvelope e) = re_Category e.
Proof. unfold ensureServiceErrorEnvelope. by repeat case_match. Qed.
Lemma ensure_TextCode e : blank (re_TextCode e) = false → re_TextCode (ensureServiceErrorEnvelope e) = re_TextCode e.
Proof. intros Ht. unfold ensureServiceErrorEnvelope. destruct (Z.eqb_spec (re_Code e) 0); simpl; rewrite Ht; by case_match. Qed.

Lemma mapper_enveloped err e : serviceErrorMapper err = Some e → enveloped e.
Proof.
  intros H. assert (∃ x, e = ensureServiceErrorEnvelope x) as [x ->]; [|apply ensure_enveloped].
  unfold serviceErrorMapper, newServiceError, newServiceErrorFromSource in H.
  assert (Hmap : ensureServiceErrorEnvelope <$> goerrors_MapToError err = Some e → ∃ x, e = ensureServiceErrorEnvelope x).
  { intros (x & _ & ->)%fmap_Some. by eexists. }
  destruct (err_Rich err); [by simplify_eq; eexists|].
  destruct (err_Convertible err) as [[]|]; [by simplify_eq; eexists|..];
    (destruct (sentinel_class err) as [[]|]; [by simplify_eq; eexists|]);
    (destruct (text_class _) as [[]|]; [by simplify_eq; eexists|auto]).
Qed.

Lemma text_class_codes msg category textCode : text_class msg = Some (category, textCode) → blank textCode = false.
Proof. unfold text_class. intros H. repeat (case_match; simplify_eq/=); done. Qed.

(** C31: an error that reaches a caller through the default mapper carries a complete envelope (a non-zero HTTP code, a text code, and
    a message if it is an internal error), mapping it again changes nothing, an error that already had an envelope or converts
    to one keeps its category, its code and its text code, and a plain error is classified by the first rule its text matches. *)
Theorem error_envelope err e :
  serviceErrorMapper err = Some e →
  enveloped e ∧ serviceErrorMapper (mapError err) = Some e ∧
  (∀ r, err_Rich err = Some r ∨ err_Rich err = None ∧ err_Convertible err = Some (Some r) →
     re_Category e = re_Category r ∧ (re_Code r ≠ 0%Z → re_Code e = re_Code r) ∧
     (blank (re_TextCode r) = false → re_TextCode e = re_TextCode r)) ∧
  (err_Rich err = None → (∀ r, err_Convertible err ≠ Some (Some r)) → err_Is err = [] → ∀ category textCode,
     text_class (lowerTrim (err_Text err)) = Some (category, textCode) → re_Category e = category ∧ re_TextCode e = textCode).
Proof.
  intros He. pose proof (mapper_enveloped _ _ He) as Henv. split; [done|]. split; [|split].
  - unfold mapError. rewrite He. unfold serviceErrorMapper. simpl. by rewrite ensure_complete.
  - intros r Hr.
    assert (e = ensureServiceErrorEnvelope r) as ->.
    { unfold serviceErrorMapper in He. destruct Hr as [Hr|[Hr Hc]]; rewrite Hr in He; [|rewrite Hc in He]; by simplify_eq. }
    split; [apply ensure_Category|]. split; [|apply ensure_TextCode]. intros Hcode. unfold ensureServiceErrorEnvelope.
    destruct (Z.eqb_spec (re_Code r) 0); [done|]. by repeat case_match.
  - intros Hr Hc Hi category textCode Ht. pose proof (text_class_codes _ _ _ Ht) as Hb.
    assert (e = newServiceError (err_Text err) category textCode) as ->.
    { unfold serviceErrorMapper, sentinel_class, errorsIs in He. rewrite Hr, Hi in He. simpl in He. rewrite Ht in He.
      destruct (err_Convertible err) as [[r|]|]; [by destruct (Hc r)|..]; by simplify_eq. }
    unfold newServiceError. rewrite ensure_Category. simpl. rewrite New_Category. split; [done|]. by rewrite ensure_TextCode.
Qed.

(** The errors a failed state check returns over the in-memory store. *)
Definition callback_errors : list oauth_error :=
  let mismatches := [ErrCallbackProviderMismatch; ErrCallbackScopeMismatch; ErrCallbackRedirectMismatch; ErrCallbackRedirectRequired] in
  [ErrOAuthStateRequired; ErrOAuthStateNotFound; ErrCallbackStateRequired] ++ mismatches
  ++ ((λ e, ErrRestoreFailed e ErrOAuthStateRequired) <$> mismatches).

Lemma consume_errors `{MR : MapRange} requireRedirect (s s' : MemoryOAuthStateStore) now nowSave req e :
  consumeOAuthCallbackState requireRedirect s now nowSave req = (Fail e, s') → e ∈ callback_errors.
Proof.
  unfold consumeOAuthCallbackState, restoreOnValidationFailure. simpl. unfold OAuth_Save, OAuth_Consume. intros H.
  repeat (case_match; simplify_eq/=); apply list_elem_of_In; simpl; tauto.
Qed.

(** A callback whose state check fails is answered with 401 and [SERVICE_OAUTH_STATE_INVALID], also when the state could not be
    put back; only the missing redirect URI of a matching callback is a bad request. *)
Theorem callback_failures_classified `{MR : MapRange} requireRedirect (s s' : MemoryOAuthStateStore) now nowSave req e :
  consumeOAuthCallbackState requireRedirect s now nowSave req = (Fail e, s') →
  ∃ r, serviceErrorMapper (plainError (oauth_error_text e)) = Some r ∧
    (re_Category r, re_TextCode r) =
      match e with
      | ErrCallbackRedirectRequired => (CategoryBadInput, ServiceErrorBadInput)
      | _ => (CategoryAuth, ServiceErrorOAuthStateInvalid)
      end.
Proof.
  intros H%consume_errors. unfold callback_errors in H. simpl in H.
  assert (Hc : ∀ category textCode, text_class (lowerTrim (oauth_error_text e)) = Some (category, textCode) →
    ∃ r, serviceErrorMapper (plainError (oauth_error_text e)) = Some r ∧ (re_Category r, re_TextCode r) = (category, textCode)).
  { intros category textCode Ht. exists (newServiceError (oauth_error_text e) category textCode). split.
    - unfold serviceErrorMapper, sentinel_class, errorsIs. simpl. by rewrite Ht.
    - pose proof (text_class_codes _ _ _ Ht). unfold newServiceError. by rewrite ensure_Category, ensure_TextCode; simpl; [rewrite New_Category|]. }
  repeat (apply elem_of_cons in H as [->|H]; [apply Hc; vm_compute; reflexivity|]).
  by apply not_elem_of_nil in H.
Qed.
End mapper.

(** A minimal errors library, for evaluation. *)
Definition demo_errors : GoErrors :=
  {| goerrors_New := λ m c, mkRich c 0 "" m ∅; goerrors_Wrap := λ _ c m, mkRich c 0 "" m ∅;
     goerrors_MapToError := λ e, Some (mkRich CategoryInternal 0 "" (err_Text e) ∅);
     New_Category := λ _ _, eq_refl; Wrap_Category := λ _ _ _, eq_refl |}.

Lemma error_envelope_witness :
  let err := plainError "core: replay detected" in
  let e := mkRich CategoryConflict 409 "SERVICE_REPLAY_DETECTED" "core: replay detected" ∅ in
  serviceErrorMapper (GE := demo_errors) err = Some e ∧ serviceErrorMapper (GE := demo_errors) (mapError (GE := demo_errors) err) = Some e.
Proof. cbv zeta. split; [reflexivity|]. by apply (error_envelope (GE := demo_errors) (plainError "core: replay detected")). Defined.

#[local] Existing Instance key_order_range.
Lemma callback_failures_classified_witness :
  let req := mkCompleteAuth "github" (mkScopeRef "user" "1") "code" " " "" ∅ in
  let s := mkOAuthStore 0 0 ∅ in
  consumeOAuthCallbackState true s 0 0 req = (Fail ErrCallbackStateRequired, s) ∧
  ∃ r, serviceErrorMapper (GE := demo_errors) (plainError "core: oauth callback state is required") = Some r ∧
    (re_Category r, re_TextCode r) = (CategoryAuth, ServiceErrorOAuthStateInvalid).
Proof.
  cbv zeta. split; [reflexivity|].
  by apply (callback_failures_classified (GE := demo_errors) true (mkOAuthStore 0 0 ∅) (mkOAuthStore 0 0 ∅) 0 0
    (mkCompleteAuth "github" (mkScopeRef "user" "1") "code" " " "" ∅) ErrCallbackStateRequired).
Defined.
