(* ===== verification/ProviderOps.v ===== *)
(** * The provider operation runtime (src/core/provider_operation_runtime.go, src/core/capability_operation_runtime.go)

    [ExecuteProviderOperation] resolves a request to an adapter, a credential, a signer and a rate limit bucket, and calls the
    adapter until it answers or the attempts are used up; [InvokeCapabilityOperation] does so for a capability that is
    granted.  The transport, the clocks, SHA-256 and HMAC, and the parsing and printing of URLs are parameters; what
    the runtime does to the outside is its state: the requests sent and the pauses made. *)

From S2P Require Import Prelude GoStrings GoValues GoURL GoHTTP Domain Backoff OAuthState Contracts Grants Permissions RateLimit.
From S2P Require Import Refresh ServiceTypes Connections Credentials Service Signers Errors.
From Stdlib Require Import ZArith Ascii String Lia.
From stdpp Require Import base decidable list gmap strings.

Local Open Scope string_scope.
Local Open Scope nat_scope.
Local Open Scope list_scope.

(** ** Requests and results (src/core/contracts.go) *)

Record TransportRequest := mkTransportRequest {
  tr_Method : string; tr_URL : string; tr_Headers : gmap string string; tr_Query : gmap string string; tr_Body : string;
  tr_Metadata : gmap string value; tr_Timeout : Duration; tr_MaxResponseBodyBytes : Z; tr_Idempotency : string }.

Record TransportResponse := mkTransportResponse {
  tp_StatusCode : Z; tp_Headers : gmap string string; tp_Body : string; tp_Metadata : gmap string value }.
Definition emptyResponse : TransportResponse := mkTransportResponse 0 ∅ "" ∅.
Definition emptyMeta : ProviderResponseMeta := mkResponseMeta 0 ∅ None ∅.

(** An adapter answers a request in the light of those it got before. *)
Record TransportAdapter := mkAdapter {
  ta_Kind : string; ta_Do : list TransportRequest → TransportRequest → outcome GoError TransportResponse }.

(** [Sleep] returns nil or an error, in the light of the pauses before; [ShouldRetry] may be missing, too. *)
Record ProviderOperationRetryPolicy := mkRetry {
  rp_MaxAttempts : Z; rp_InitialBackoff : Duration; rp_MaxBackoff : Duration; rp_RetryableStatusCodes : list Z;
  rp_Sleep : option (list Duration → Duration → option GoError);
  rp_ShouldRetry : option (Provider → Z → Z → option GoError → ProviderResponseMeta → bool * Duration) }.

Abbreviation ProviderResponseNormalizer := (TransportResponse → outcome GoError ProviderResponseMeta).

Record ProviderOperationRequest := mkOperationRequest {
  po_ProviderID : string; po_ConnectionID : string; po_Scope : ScopeRef; po_Operation : string; po_BucketKey : string;
  po_TransportKind : string; po_TransportConfig : gmap string value; po_TransportRequest : TransportRequest;
  po_Adapter : option TransportAdapter; po_Credential : option ActiveCredential; po_IdempotencyKey : string;
  po_Retry : ProviderOperationRetryPolicy; po_Metadata : gmap string value; po_Normalize : option ProviderResponseNormalizer }.

Record ProviderOperationResult := mkOperationResult {
  or_ProviderID : string; or_ConnectionID : string; or_Operation : string; or_TransportKind : string; or_AuthStrategy : string;
  or_Idempotency : string; or_Response : TransportResponse; or_Meta : ProviderResponseMeta; or_Attempts : Z; or_Retried : bool;
  or_Metadata : gmap string value }.
Definition emptyOperationResult : ProviderOperationResult :=
  mkOperationResult "" "" "" "" "" "" emptyResponse emptyMeta 0 false ∅.

Definition or_with_attempts (r : ProviderOperationResult) (n : Z) : ProviderOperationResult :=
  mkOperationResult (or_ProviderID r) (or_ConnectionID r) (or_Operation r) (or_TransportKind r) (or_AuthStrategy r)
    (or_Idempotency r) (or_Response r) (or_Meta r) n (or_Retried r) (or_Metadata r).
Definition or_with_retried (r : ProviderOperationResult) : ProviderOperationResult :=
  mkOperationResult (or_ProviderID r) (or_ConnectionID r) (or_Operation r) (or_TransportKind r) (or_AuthStrategy r)
    (or_Idempotency r) (or_Response r) (or_Meta r) (or_Attempts r) true (or_Metadata r).
Definition or_with_response (r : ProviderOperationResult) (response : TransportResponse) (meta : ProviderResponseMeta)
    : ProviderOperationResult :=
  mkOperationResult (or_ProviderID r) (or_ConnectionID r) (or_Operation r) (or_TransportKind r) (or_AuthStrategy r)
    (or_Idempotency r) response meta (or_Attempts r) (or_Retried r) (or_Metadata r).

Record InvokeCapabilityOperationRequest := mkInvokeOperation {
  io_ProviderID : string; io_Scope : ScopeRef; io_Capability : string; io_Payload : gmap string value; io_ConnectionID : string;
  io_Operation : string; io_BucketKey : string; io_TransportKind : string; io_TransportConfig : gmap string value;
  io_Retry : ProviderOperationRetryPolicy; io_Metadata : gmap string value }.

Record CapabilityOperationResolveRequest := mkResolveOperation {
  ro_ProviderID : string; ro_Scope : ScopeRef; ro_Capability : string; ro_Payload : gmap string value; ro_Connection : Connection;
  ro_Decision : CapabilityResult; ro_Operation : string; ro_BucketKey : string; ro_TransportKind : string;
  ro_TransportConfig : gmap string value; ro_Metadata : gmap string value }.

Record CapabilityOperationResult := mkCapabilityOperation {
  co_Capability : CapabilityResult; co_Executed : bool; co_Operation : ProviderOperationResult }.

Record ProviderOperationError := mkOperationError {
  oe_ProviderID : string; oe_Operation : string; oe_Attempt : Z; oe_MaxAttempts : Z; oe_StatusCode : Z; oe_Retryable : bool;
  oe_Idempotency : string; oe_TransportKind : string; oe_Cause : option GoError }.

Definition OperationError_Error (e : ProviderOperationError) : string :=
  let base := "core: provider operation failed" in
  let base := if String.eqb (oe_ProviderID e) "" then base else base +:+ " provider=" +:+ oe_ProviderID e in
  let base := if String.eqb (oe_Operation e) "" then base else base +:+ " operation=" +:+ oe_Operation e in
  if (0 <? oe_StatusCode e)%Z then base +:+ " status=" +:+ Itoa (oe_StatusCode e) else base.

Definition operation_metadata (e : ProviderOperationError) : gmap string value :=
  {[ "provider_id" := VString (oe_ProviderID e); "operation" := VString (oe_Operation e); "attempt" := VInt IntK (oe_Attempt e);
     "max_attempts" := VInt IntK (oe_MaxAttempts e); "status_code" := VInt IntK (oe_StatusCode e);
     "retryable" := VBool (oe_Retryable e); "idempotency" := VString (oe_Idempotency e);
     "transport_kind" := VString (oe_TransportKind e) ]}.

Definition OperationError_ToServiceError {GE : GoErrors} (e : ProviderOperationError) : RichError :=
  let '(category, textCode, code) :=
    if (oe_StatusCode e =? StatusTooManyRequests)%Z then (CategoryRateLimit, ServiceErrorRateLimited, StatusTooManyRequests)
    else if (oe_StatusCode e =? StatusUnauthorized)%Z then (CategoryAuth, ServiceErrorUnauthorized, StatusUnauthorized)
    else if (oe_StatusCode e =? StatusForbidden)%Z then (CategoryAuthz, ServiceErrorForbidden, StatusForbidden)
    else (CategoryExternal, ServiceErrorProviderOperationFailed,
          if (400 <=? oe_StatusCode e)%Z then oe_StatusCode e else StatusBadGateway) in
  let message := match oe_Cause e with Some cause => err_Text cause | None => OperationError_Error e end in
  WithMetadata (WithTextCode (WithCode (goerrors_New message category) code) textCode) (operation_metadata e).

(** ** Retry policy *)

Definition defaultProviderOperationKind := "rest".
Definition defaultProviderOperationInitialBackoff : Duration := (200 * Millisecond)%Z.
Definition defaultProviderOperationMaxBackoff : Duration := (5 * Second)%Z.
Definition defaultProviderOperationRetryStatuses : list Z :=
  [StatusTooManyRequests; StatusInternalServerError; StatusBadGateway; StatusServiceUnavailable; StatusGatewayTimeout].

Definition normalizeProviderRetryPolicy (p : ProviderOperationRetryPolicy) : ProviderOperationRetryPolicy :=
  let maxAttempts := if (rp_MaxAttempts p <=? 0)%Z then 1%Z else rp_MaxAttempts p in
  let initial := if (rp_InitialBackoff p <=? 0)%Z then defaultProviderOperationInitialBackoff else rp_InitialBackoff p in
  let maximum := if (rp_MaxBackoff p <=? 0)%Z then defaultProviderOperationMaxBackoff else rp_MaxBackoff p in
  let maximum := if (maximum <? initial)%Z then initial else maximum in
  let statuses := match rp_RetryableStatusCodes p with [] => defaultProviderOperationRetryStatuses | l => l end in
  mkRetry maxAttempts initial maximum statuses (rp_Sleep p) (rp_ShouldRetry p).

Definition isZeroProviderRetryPolicy (p : ProviderOperationRetryPolicy) : bool :=
  if (0 <? rp_MaxAttempts p)%Z then false
  else if (0 <? rp_InitialBackoff p)%Z || (0 <? rp_MaxBackoff p)%Z then false
  else if 0 <? length (rp_RetryableStatusCodes p) then false
  else match rp_Sleep p, rp_ShouldRetry p with None, None => true | _, _ => false end.

Definition isContextCancellation (err : GoError) : bool := errorsIs err IsContextCanceled || errorsIs err IsDeadlineExceeded.

Definition shouldRetryProviderOperation (provider : Provider) (policy : ProviderOperationRetryPolicy) (attempt : Z)
    (opErr : option GoError) (meta : ProviderResponseMeta) : bool * Duration :=
  let default_delay := defaultRetryDelayForAttempt (rp_InitialBackoff policy) (rp_MaxBackoff policy) attempt (rm_RetryAfter meta) in
  if (rp_MaxAttempts policy <=? attempt)%Z then (false, 0%Z)
  else match rp_ShouldRetry policy with
  | Some f =>
    let (retry, delay) := f provider attempt (rp_MaxAttempts policy) opErr meta in
    if negb retry then (false, 0%Z) else (true, if (delay <=? 0)%Z then default_delay else delay)
  | None =>
    match opErr with
    | Some err => if isContextCancellation err then (false, 0%Z) else (true, default_delay)
    | None => if bool_decide (rm_StatusCode meta ∈ rp_RetryableStatusCodes policy) then (true, default_delay) else (false, 0%Z)
    end
  end.

(** ** Requests *)

Definition copyStringMap (m : gmap string string) : gmap string string := m.

Definition cloneTransportRequest (r : TransportRequest) : TransportRequest :=
  mkTransportRequest (tr_Method r) (tr_URL r) (copyStringMap (tr_Headers r)) (copyStringMap (tr_Query r)) (tr_Body r)
    (copyAnyMap (tr_Metadata r)) (tr_Timeout r) (tr_MaxResponseBodyBytes r) (tr_Idempotency r).

(** src/core/observability.go *)
Definition normalizeOperation (operation : string) : string :=
  ReplaceAll (ReplaceAll (lowerTrim operation) " " "_") "-" "_".

(** src/core/capability_operation_runtime.go *)
Fixpoint firstNonEmptyTrimmed (values : list string) : string :=
  match values with
  | [] => ""
  | v :: rest => if blank v then firstNonEmptyTrimmed rest else TrimSpace v
  end.

Definition mergeProviderOperationMetadata (base extras : gmap string value) : gmap string value := mapsCopy (copyAnyMap base) extras.

Definition parseAuthDirective (header key : string) : string :=
  let target := lowerTrim key in
  let fix go parts :=
    match parts with
    | [] => ""
    | part :: rest =>
      match CutChar "=" (TrimSpace part) with
      | None => go rest
      | Some (a, b) =>
        let k := ToLower (TrimSpace (TrimPrefix a "AWS4-HMAC-SHA256 ")) in
        if String.eqb k target then TrimSpace b else go rest
      end
    end in
  go (SplitChar "," header).

Definition parseSigV4CredentialScope (value : string) : option (string * string) :=
  match SplitChar "/" (TrimSpace value) with
  | _ :: _ :: region :: service :: _ :: _ =>
    let region := TrimSpace region in
    let service := TrimSpace service in
    if String.eqb region "" || String.eqb service "" then None else Some (region, service)
  | _ => None
  end.

Definition collectSigningMetadata (req : HttpRequest) (credential : ActiveCredential) : option (gmap string value) :=
  if negb (String.eqb (normalizeAuthKind (resolveCredentialAuthKind credential)) AuthKindAWSSigV4) then None
  else
    let md := ac_Metadata credential in
    let region := metadataString md ["aws_region"; "region"] in
    let service := metadataString md ["aws_service"; "service"] in
    let query := u_Query (hr_URL req) in
    let metadata := {[ "signing_profile" := VString AuthKindAWSSigV4; "signed_host" := VString (u_Host (hr_URL req)) ]} in
    let authHeader := TrimSpace (Header_Get (hr_Header req) "Authorization") in
    let querySigned := TrimSpace (Values_Get query "X-Amz-SignedHeaders") in
    let '(metadata, scope) :=
      if HasPrefix authHeader "AWS4-HMAC-SHA256" then
        let metadata := <["signing_mode" := VString "header"]> metadata in
        let signedHeaders := parseAuthDirective authHeader "SignedHeaders" in
        (if String.eqb signedHeaders "" then metadata else <["signed_headers" := VString signedHeaders]> metadata,
         parseSigV4CredentialScope (parseAuthDirective authHeader "Credential"))
      else if negb (String.eqb querySigned "") then
        (<["signed_headers" := VString querySigned]> (<["signing_mode" := VString "query"]> metadata),
         parseSigV4CredentialScope (Values_Get query "X-Amz-Credential"))
      else (metadata, None) in
    let '(region, service) := default (region, service) scope in
    let metadata := if String.eqb region "" then metadata else <["signed_region" := VString region]> metadata in
    let metadata := if String.eqb service "" then metadata else <["signed_service" := VString service]> metadata in
    let signedAt := firstNonEmpty [TrimSpace (Header_Get (hr_Header req) "X-Amz-Date"); TrimSpace (Values_Get query "X-Amz-Date")] in
    let metadata := if String.eqb signedAt "" then metadata else <["signed_at" := VString signedAt]> metadata in
    let expires := TrimSpace (Values_Get query "X-Amz-Expires") in
    Some (if String.eqb expires "" then metadata else <["signing_expires_seconds" := VString expires]> metadata).

(** ** The runtime *)

(** The interface [RateLimitPolicy]; the state is the policy's own. *)
Class RateLimitPolicy (R : Type) := {
  rl_BeforeCall : R → Time → RateLimitKey → option GoError * R;
  rl_AfterCall : R → Time → RateLimitKey → ProviderResponseMeta → option GoError * R }.

(** What one attempt reads from its environment: the clock of each of its parts, and whether the context ends before a timer. *)
Record AttemptEnv := mkAttemptEnv {
  at_before : Time; at_sign : Time; at_parsed : Time; at_retry : Time; at_after : Time; at_done : option GoError }.

(** What the runtime leaves behind: the rate limit state, the requests sent and the pauses made, oldest first. *)
Record OpWorld (R : Type) := mkOpWorld { ow_rate : R; ow_sent : list TransportRequest; ow_slept : list Duration }.
Arguments mkOpWorld {R}. Arguments ow_rate {R}. Arguments ow_sent {R}. Arguments ow_slept {R}.

Record resolvedProviderOperationRequest := mkResolved {
  rv_provider : Provider; rv_adapter : TransportAdapter; rv_signer : option Signer; rv_credential : option ActiveCredential;
  rv_connectionID : string; rv_operation : string; rv_transportKind : string; rv_authStrategy : string;
  rv_transportRequest : TransportRequest; rv_idempotencyKey : string; rv_rateLimitKey : RateLimitKey; rv_rateLimitEnabled : bool }.

(** An error before the mapper, an error of the operation in its envelope, or the error of a pause. *)
Inductive op_error (E : Type) :=
| OpErrService (e : service_error E) | OpErrNoResolver | OpErrAdapter (e : GoError)
| OpErrOperation (e : ProviderOperationError) (envelope : RichError) | OpErrSleep (e : GoError)
| OpErrNotSupported (providerID : string) | OpErrResolve (e : GoError) | OpErrNoSigner | OpErrSign (e : GoError).
Arguments OpErrService {E}. Arguments OpErrNoResolver {E}. Arguments OpErrAdapter {E}. Arguments OpErrOperation {E}.
Arguments OpErrSleep {E}. Arguments OpErrNotSupported {E}. Arguments OpErrResolve {E}. Arguments OpErrNoSigner {E}. Arguments OpErrSign {E}.

Section runtime.
Context {MR : MapRange} {GE : GoErrors} {E W O R : Type} {conns : ConnectionStore E W} {creds : CredentialStore E W}
  {gstore : GrantStore E W} {oauth : OAuthStateStore O} {rate : RateLimitPolicy R}.
Variable methods : Provider → ProviderMethods.
Variable scope_error_text : domain_error → string.
Variable sha256 : string → string.
Variable hmacSHA256 : string → string → string.
Variable time_Format : Time → string → string.
Variable time_Parse : string → string → option Time.
Variable EscapedPath : URL → string.
Variable url_Parse : string → outcome string URL.
Variable url_String : URL → string.
Variable quote : string → string.

(** ** Responses *)

(** The clock is read once to compare and once to subtract. *)
Definition parseRetryAfterHeader (now1 now2 : Time) (headers : gmap string string) : option Duration :=
  let raw := headerValue headers "retry-after" in
  if String.eqb raw "" then None
  else
    let by_date :=
      let at_layout layout :=
        match time_Parse layout raw with
        | Some retryAt => if After retryAt now1 then Some (subTime retryAt now2) else None
        | None => None
        end in
      match at_layout RFC1123 with Some d => Some d | None => at_layout RFC1123Z end in
    match Atoi raw with
    | Some seconds => if (0 <? seconds)%Z then Some (wrap64 (seconds * Second)) else by_date
    | None => by_date
    end.

Definition normalizeProviderOperationResponse (now1 now2 : Time) (normalizer : option ProviderResponseNormalizer)
    (response : TransportResponse) : outcome GoError ProviderResponseMeta :=
  match normalizer with
  | Some f => f response
  | None => Ok (mkResponseMeta (tp_StatusCode response) (copyStringMap (tp_Headers response))
                  (parseRetryAfterHeader now1 now2 (tp_Headers response)) (copyAnyMap (tp_Metadata response)))
  end.

(** The difference of both clocks in seconds, if it is half a minute or more; the dates are in whole seconds. *)
Definition computeSigningClockSkewHint (signing : option (gmap string value)) (headers : gmap string string) : option Z :=
  match signing ≫= (λ s, s !! "signed_at") with
  | None => None
  | Some rawSignedAt =>
    let signedAtValue := TrimSpace (Sprint rawSignedAt) in
    if String.eqb signedAtValue "" then None
    else match time_Parse "20060102T150405Z" signedAtValue with
    | None => None
    | Some signedAt =>
      let rawResponseDate := headerValue headers "date" in
      if String.eqb rawResponseDate "" then None
      else match (match time_Parse RFC1123 rawResponseDate with Some t => Some t | None => time_Parse RFC1123Z rawResponseDate end) with
      | None => None
      | Some responseDate =>
        let diff := subTime responseDate signedAt in
        if (Z.abs diff <? 30 * Second)%Z then None else Some (Z.quot diff Second)
      end
    end
  end.

(** ** Signing *)

Definition transportToHTTPRequest (request : TransportRequest) : outcome GoError HttpRequest :=
  let method := TrimSpace (ToUpper (tr_Method request)) in
  let method := if String.eqb method "" then "GET" else method in
  let rawURL := TrimSpace (tr_URL request) in
  if String.eqb rawURL "" then Fail (plainError "core: transport request url is required")
  else match url_Parse rawURL with
  | Fail cause => Fail (plainError cause)
  | Ok parsed =>
    let query := foldl (λ q kv, Values_Set q (TrimSpace kv.1) (TrimSpace kv.2)) (u_Query parsed) (map_range (tr_Query request)) in
    let parsed := u_with_query parsed (Values_Encode query) in
    if negb (valid_method method) then Fail (plainError ("net/http: invalid method " +:+ quote method))
    else match url_Parse (url_String parsed) with
    | Fail cause => Fail (plainError cause)
    | Ok u =>
      Ok (mkHttpRequest method u (foldl (λ h kv, Header_Set h kv.1 kv.2) ∅ (map_range (tr_Headers request))) (Some (tr_Body request)))
    end
  end.

(** The last value of every header and of every query parameter is kept. *)
Definition httpToTransportRequest (req : HttpRequest) (original : TransportRequest) : TransportRequest :=
  let out := cloneTransportRequest original in
  mkTransportRequest (hr_Method req) (url_String (hr_URL req)) (omap last (hr_Header req)) (omap last (u_Query (hr_URL req)))
    (default (tr_Body out) (hr_Body req)) (tr_Metadata out) (tr_Timeout out) (tr_MaxResponseBodyBytes out) (tr_Idempotency out).

Definition signProviderTransportRequest (now : Time) (signer : Signer) (request : TransportRequest) (credential : ActiveCredential)
    : outcome GoError (TransportRequest * option (gmap string value)) :=
  match transportToHTTPRequest request with
  | Fail e => Fail e
  | Ok httpRequest =>
    match Sign sha256 hmacSHA256 time_Format EscapedPath signer now httpRequest credential with
    | Fail e => Fail (plainError (sign_error_text quote e))
    | Ok signed => Ok (httpToTransportRequest signed request, collectSigningMetadata signed credential)
    end
  end.

(** ** Idempotency keys *)

Definition canonicalTransportRequestURL (rawURL : string) (query : gmap string string) : string :=
  let trimmedURL := TrimSpace rawURL in
  match url_Parse trimmedURL with
  | Fail _ => trimmedURL
  | Ok parsed =>
    let values := foldl (λ q kv, if blank kv.1 then q else Values_Set q (TrimSpace kv.1) (TrimSpace kv.2))
                    (u_Query parsed) (map_range query) in
    url_String (u_with_query parsed (Values_Encode values))
  end.

Definition generateIdempotencyKey (providerID connectionID operation : string) (request : TransportRequest) : string :=
  let canonicalURL := canonicalTransportRequestURL (tr_URL request) (tr_Query request) in
  sha256Hex sha256 (lowerTrim providerID +:+ "|" +:+ TrimSpace connectionID +:+ "|" +:+ lowerTrim operation +:+ "|"
    +:+ TrimSpace (ToUpper (tr_Method request)) +:+ "|" +:+ canonicalURL +:+ "|" +:+ tr_Body request).

(** ** Resolving a request *)

(** The service with what the runtime needs beyond [Service]: whether there is a rate limit policy, the default signer, and the
    transport resolver. *)
Record OpService := mkOpService {
  ops_service : Service (E := E) (W := W); ops_rateLimitPolicy : bool; ops_signer : option Signer;
  ops_transportResolver : option (string → gmap string value → outcome GoError TransportAdapter) }.
(** The signer of a provider, and its resolver of capability operations. *)
Variable provider_signer : Provider → option (option Signer).
Variable provider_resolver : Provider → option (CapabilityOperationResolveRequest → outcome GoError ProviderOperationRequest).

Definition resolveProviderOperationAdapter (s : OpService) (req : ProviderOperationRequest) : outcome (op_error E) (TransportAdapter * string) :=
  let transportKind := lowerTrim (po_TransportKind req) in
  match po_Adapter req with
  | Some adapter =>
    let transportKind := if String.eqb transportKind "" then lowerTrim (ta_Kind adapter) else transportKind in
    Ok (adapter, if String.eqb transportKind "" then defaultProviderOperationKind else transportKind)
  | None =>
    match ops_transportResolver s with
    | None => Fail OpErrNoResolver
    | Some build =>
      let transportKind := if String.eqb transportKind "" then defaultProviderOperationKind else transportKind in
      match build transportKind (copyAnyMap (po_TransportConfig req)) with
      | Ok adapter => Ok (adapter, transportKind)
      | Fail e => Fail (OpErrAdapter e)
      end
    end
  end.

Definition resolveProviderOperationCredential (s : OpService) (e : CallEnv) (db : W) (req : ProviderOperationRequest)
    (connectionID : string) : outcome (service_error E) (option ActiveCredential) :=
  let v := ops_service s in
  match po_Credential req with
  | Some c => Ok (Some c)
  | None =>
    if blank connectionID || negb (svc_credentialStore v) then Ok None
    else match ks_GetActiveByConnection db e connectionID with
    | Fail err => Fail (SErrStore err)
    | Ok stored =>
      match credentialToActive (svc_secretProvider v) (svc_credentialCodec v) stored with
      | Fail err => Fail (SErrPayload err)
      | Ok active => Ok (Some active)
      end
    end
  end.

Definition or_service {A} (o : outcome (service_error E) A) : outcome (op_error E) A :=
  match o with Ok a => Ok a | Fail e => Fail (OpErrService e) end.

(** The connection of a request and the provider it is for. *)
Definition operation_connection (v : Service (E := E) (W := W)) (e : CallEnv) (db : W) (providerID connectionID : string)
    : outcome (service_error E) (string * option Connection) :=
  if negb (String.eqb connectionID "") && svc_connectionStore v then
    match cs_Get db e connectionID with
    | Fail err => Fail (SErrStore err)
    | Ok connection =>
      let providerID := if String.eqb providerID "" then TrimSpace (conn_ProviderID connection) else providerID in
      if negb (EqualFold providerID (conn_ProviderID connection)) then Fail (SErrProviderMismatch connectionID)
      else Ok (providerID, Some connection)
    end
  else Ok (providerID, None).

Definition with_idempotency (r : TransportRequest) (key : string) (headers : gmap string string) : TransportRequest :=
  mkTransportRequest (tr_Method r) (tr_URL r) headers (tr_Query r) (tr_Body r) (tr_Metadata r) (tr_Timeout r)
    (tr_MaxResponseBodyBytes r) key.

(** The operation that is sent, and its idempotency key. *)
Definition operation_request (providerID connectionID : string) (req : ProviderOperationRequest) : TransportRequest * string :=
  let transportRequest := cloneTransportRequest (po_TransportRequest req) in
  let key := TrimSpace (po_IdempotencyKey req) in
  let key := if String.eqb key "" then TrimSpace (tr_Idempotency transportRequest) else key in
  let key := if String.eqb key "" then generateIdempotencyKey providerID connectionID (po_Operation req) transportRequest else key in
  let headers := copyStringMap (tr_Headers transportRequest) in
  let headers := match headers !! "Idempotency-Key" with Some _ => headers | None => <["Idempotency-Key" := key]> headers end in
  (with_idempotency transportRequest key headers, key).

Definition operation_name (req : ProviderOperationRequest) (transportRequest : TransportRequest) (transportKind : string) : string :=
  let operation := TrimSpace (po_Operation req) in
  if String.eqb operation "" then
    let method := TrimSpace (ToUpper (tr_Method transportRequest)) in
    let method := if String.eqb method "" then "GET" else method in
    normalizeOperation (method +:+ "_" +:+ transportKind)
  else operation.

(** The rate limit bucket of a request, if there is one. *)
Definition operation_bucket (policy : bool) (req : ProviderOperationRequest) (connection : option Connection) (providerID operation : string)
    : option RateLimitKey :=
  let scope := mkScopeRef (lowerTrim (scope_Type (po_Scope req))) (TrimSpace (scope_ID (po_Scope req))) in
  let scope :=
    match connection with
    | Some c => if String.eqb (scope_Type scope) "" && String.eqb (scope_ID scope) "" && negb (String.eqb (conn_ID c) "")
                then mkScopeRef (conn_ScopeType c) (conn_ScopeID c) else scope
    | None => scope
    end in
  let bucketKey := lowerTrim (po_BucketKey req) in
  let bucketKey := if String.eqb bucketKey "" then normalizeOperation operation else bucketKey in
  let bucketKey := if String.eqb bucketKey "" then "default" else bucketKey in
  if policy && negb (String.eqb (scope_Type scope) "") && negb (String.eqb (scope_ID scope) "") then
    match ScopeRef_Validate scope with
    | Ok _ => Some (mkRateLimitKey providerID (scope_Type scope) (scope_ID scope) bucketKey)
    | Fail _ => None
    end
  else None.

(** [env 0] is the read of the connection, [env 1] that of the credential. *)
Definition resolveProviderOperationRequest (s : OpService) (env : nat → CallEnv) (st : SvcState W O) (req : ProviderOperationRequest)
    : outcome (op_error E) resolvedProviderOperationRequest :=
  (let v := ops_service s in
   let db := s_db st in
   let connectionID := TrimSpace (po_ConnectionID req) in
   let* (providerID, connection) := or_service (operation_connection v (env 0) db (TrimSpace (po_ProviderID req)) connectionID) in
   if String.eqb providerID "" then Fail (OpErrService SErrProviderIDRequired)
   else
     let* provider := or_service (resolveProvider (O := O) v providerID st).1 in
     let authStrategy := normalizeAuthKind (as_Type (resolveAuthStrategy provider (methods provider))) in
     let* (adapter, transportKind) := resolveProviderOperationAdapter s req in
     let '(transportRequest, idempotencyKey) := operation_request providerID connectionID req in
     let* credential := or_service (resolveProviderOperationCredential s (env 1) db req connectionID) in
     let signer := resolveSignerForCredential (provider_signer provider) (ops_signer s) credential in
     let operation := operation_name req transportRequest transportKind in
     let bucket := operation_bucket (ops_rateLimitPolicy s) req connection providerID operation in
     Ok (mkResolved provider adapter signer credential connectionID operation transportKind authStrategy transportRequest
           idempotencyKey (default (mkRateLimitKey "" "" "" "") bucket) (bool_decide (is_Some bucket))))%go.

(** [Service.SignRequest] (src/core/signer.go); [env 0] is the read of the connection, [env 1] that of the credential. *)
Definition SignRequest (s : OpService) (env : nat → CallEnv) (now : Time) (st : SvcState W O) (providerID connectionID : string)
    (req : HttpRequest) (cred : option ActiveCredential) : outcome (op_error E) HttpRequest :=
  (let v := ops_service s in
   let connectionID := TrimSpace connectionID in
   let resolvedProviderID := TrimSpace providerID in
   let* resolvedProviderID := or_service (
     if svc_connectionStore v && negb (String.eqb connectionID "") then
       match cs_Get (s_db st) (env 0) connectionID with
       | Fail err => Fail (SErrStore err)
       | Ok connection =>
         let connectionProviderID := TrimSpace (conn_ProviderID connection) in
         if String.eqb connectionProviderID "" then Fail (SErrNoProviderID connectionID)
         else if String.eqb resolvedProviderID "" then Ok connectionProviderID
         else if negb (EqualFold resolvedProviderID connectionProviderID) then Fail (SErrProviderMismatch connectionID)
         else Ok resolvedProviderID
       end
     else Ok resolvedProviderID) in
   if String.eqb resolvedProviderID "" then Fail (OpErrService SErrProviderIDRequired)
   else
     let* provider := or_service (resolveProvider (O := O) v resolvedProviderID st).1 in
     let* active := or_service (
       match cred with
       | Some c => Ok c
       | None =>
         if svc_credentialStore v then
           if String.eqb connectionID "" then Fail SErrConnectionIDRequired
           else match ks_GetActiveByConnection (s_db st) (env 1) connectionID with
           | Fail err => Fail (SErrStore err)
           | Ok stored => match credentialToActive (svc_secretProvider v) (svc_credentialCodec v) stored with
                          | Fail err => Fail (SErrPayload err)
                          | Ok active => Ok active
                          end
           end
         else Fail SErrNoCredential
       end) in
     match resolveSignerForCredential (provider_signer provider) (ops_signer s) (Some active) with
     | None => Fail OpErrNoSigner
     | Some signer =>
       match Sign sha256 hmacSHA256 time_Format EscapedPath signer now req active with
       | Fail e => Fail (OpErrSign (plainError (sign_error_text quote e)))
       | Ok signed => Ok signed
       end
     end)%go.

(** ** One attempt *)

Definition wrapProviderOperationError (resolved : resolvedProviderOperationRequest) (attempt maxAttempts statusCode : Z)
    (source : GoError) (retryable : bool) : op_error E :=
  let '(category, textCode) :=
    if (statusCode =? StatusTooManyRequests)%Z || Contains (ToLower (err_Text source)) "throttl"
    then (CategoryRateLimit, ServiceErrorRateLimited) else (CategoryExternal, ServiceErrorProviderOperationFailed) in
  let opErr := mkOperationError (prov_ID (rv_provider resolved)) (rv_operation resolved) attempt maxAttempts statusCode retryable
    (rv_idempotencyKey resolved) (rv_transportKind resolved) (Some source) in
  let asError := mkGoError (OperationError_Error opErr) (err_Rich source) (Some (Some (OperationError_ToServiceError opErr))) (err_Is source) in
  OpErrOperation opErr (ensureServiceErrorEnvelope
    (WithMetadata (WithTextCode (goerrors_Wrap asError category (err_Text source)) textCode) (operation_metadata opErr))).

(** A pause; the timer of a retry without a [Sleep] runs against the context. *)
Definition sleepProviderRetry (w : OpWorld R) (sleepFn : option (list Duration → Duration → option GoError)) (ended : option GoError)
    (delay : Duration) : option GoError * OpWorld R :=
  if (delay <=? 0)%Z then (None, w)
  else
    let w' := mkOpWorld (ow_rate w) (ow_sent w) (ow_slept w ++ [delay]) in
    match sleepFn with Some f => (f (ow_slept w) delay, w') | None => (ended, w') end.

(** The loop goes on with the error of the attempt, or the operation returns. *)
Inductive attempt_verdict :=
| Retry (result : ProviderOperationResult) (lastErr : op_error E)
| Return (result : ProviderOperationResult) (err : option (op_error E)).

(** What is done when an attempt failed with [opErr] or ended with [meta]: [stop] is returned unless it is tried again. *)
Definition retry_or (retry : ProviderOperationRetryPolicy) (resolved : resolvedProviderOperationRequest) (env : AttemptEnv) (attempt : Z)
    (result : ProviderOperationResult) (opErr : option GoError) (meta : ProviderResponseMeta) (stop : option (op_error E))
    (lastErr : op_error E) (w : OpWorld R) : attempt_verdict * OpWorld R :=
  let (shouldRetry, delay) := shouldRetryProviderOperation (rv_provider resolved) retry attempt opErr meta in
  if negb shouldRetry then (Return result stop, w)
  else
    let result := or_with_retried result in
    let (sleepErr, w) := sleepProviderRetry w (rp_Sleep retry) (at_done env) delay in
    match sleepErr with
    | Some e => (Return result (Some (OpErrSleep e)), w)
    | None => (Retry result lastErr, w)
    end.

Definition send (w : OpWorld R) (request : TransportRequest) : OpWorld R := mkOpWorld (ow_rate w) (ow_sent w ++ [request]) (ow_slept w).
Definition with_rate (w : OpWorld R) (r : R) : OpWorld R := mkOpWorld r (ow_sent w) (ow_slept w).

(** The call of the adapter with a request that is signed, and what is made of its response. *)
Definition attempt_call (req : ProviderOperationRequest) (retry : ProviderOperationRetryPolicy) (resolved : resolvedProviderOperationRequest)
    (env : AttemptEnv) (attempt : Z) (result : ProviderOperationResult) (request : TransportRequest)
    (signingMetadata : option (gmap string value)) (w : OpWorld R) : attempt_verdict * OpWorld R :=
  let wrap status source retryable := wrapProviderOperationError resolved attempt (rp_MaxAttempts retry) status source retryable in
  let sent := ow_sent w in
  let w := send w request in
  match ta_Do (rv_adapter resolved) sent request with
  | Fail callErr =>
    retry_or retry resolved env attempt result (Some callErr) emptyMeta (Some (wrap 0%Z callErr true)) (wrap 0%Z callErr true) w
  | Ok response =>
    match normalizeProviderOperationResponse (at_parsed env) (at_retry env) (po_Normalize req) response with
    | Fail e => (Return result (Some (wrap (tp_StatusCode response) e false)), w)
    | Ok meta =>
      let metadata := mergeProviderOperationMetadata (rm_Metadata meta) (default ∅ signingMetadata) in
      let metadata := match computeSigningClockSkewHint signingMetadata (tp_Headers response) with
                      | Some hint => <["clock_skew_hint_seconds" := VInt Int64K hint]> metadata
                      | None => metadata
                      end in
      let meta := mkResponseMeta (rm_StatusCode meta) (rm_Headers meta) (rm_RetryAfter meta) metadata in
      let result := or_with_response result response meta in
      let status := rm_StatusCode meta in
      let (afterErr, w) :=
        if rv_rateLimitEnabled resolved then
          let (afterErr, r) := rl_AfterCall (ow_rate w) (at_after env) (rv_rateLimitKey resolved) meta in (afterErr, with_rate w r)
        else (None, w) in
      match afterErr with
      | Some afterErr =>
        retry_or retry resolved env attempt result (Some afterErr) meta (Some (wrap status afterErr true)) (wrap status afterErr true) w
      | None =>
        retry_or retry resolved env attempt result None meta
          (if (400 <=? status)%Z
           then Some (wrap status (plainError ("provider operation returned status " +:+ Itoa status)) false) else None)
          (wrap status (plainError ("provider operation status " +:+ Itoa status +:+ " marked retryable")) true) w
      end
    end
  end.

Definition op_attempt (req : ProviderOperationRequest) (retry : ProviderOperationRetryPolicy) (resolved : resolvedProviderOperationRequest)
    (env : AttemptEnv) (attempt : Z) (result : ProviderOperationResult) (w : OpWorld R) : attempt_verdict * OpWorld R :=
  let wrap source retryable := wrapProviderOperationError resolved attempt (rp_MaxAttempts retry) 0%Z source retryable in
  let result := or_with_attempts result attempt in
  let transportRequest := cloneTransportRequest (rv_transportRequest resolved) in
  let (beforeErr, w) :=
    if rv_rateLimitEnabled resolved then
      let (beforeErr, r) := rl_BeforeCall (ow_rate w) (at_before env) (rv_rateLimitKey resolved) in (beforeErr, with_rate w r)
    else (None, w) in
  match beforeErr with
  | Some beforeErr =>
    retry_or retry resolved env attempt result (Some beforeErr) emptyMeta (Some (wrap beforeErr true)) (wrap beforeErr true) w
  | None =>
    match rv_signer resolved, rv_credential resolved with
    | Some signer, Some credential =>
      match signProviderTransportRequest (at_sign env) signer transportRequest credential with
      | Fail signErr => (Return result (Some (wrap signErr false)), w)
      | Ok (signed, metadata) => attempt_call req retry resolved env attempt result signed metadata w
      end
    | _, _ => attempt_call req retry resolved env attempt result transportRequest None w
    end
  end.

(** ** The loop; the fuel is the number of attempts left. *)
Fixpoint op_loop (fuel : nat) (req : ProviderOperationRequest) (retry : ProviderOperationRetryPolicy)
    (resolved : resolvedProviderOperationRequest) (env : Z → AttemptEnv) (attempt : Z) (result : ProviderOperationResult)
    (lastErr : option (op_error E)) (w : OpWorld R) : ProviderOperationResult * option (op_error E) * OpWorld R :=
  match fuel with
  | 0 =>
    (result, match lastErr with
             | Some e => Some e
             | None => Some (wrapProviderOperationError resolved (rp_MaxAttempts retry) (rp_MaxAttempts retry)
                               (rm_StatusCode (or_Meta result)) (plainError "provider operation exceeded retry attempts") true)
             end, w)
  | S fuel' =>
    match op_attempt req retry resolved (env attempt) attempt result w with
    | (Return result err, w) => (result, err, w)
    | (Retry result lastErr, w) => op_loop fuel' req retry resolved env (attempt + 1) result (Some lastErr) w
    end
  end.

Definition ExecuteProviderOperation (s : OpService) (env : nat → CallEnv) (aenv : Z → AttemptEnv) (st : SvcState W O)
    (req : ProviderOperationRequest) (w : OpWorld R) : ProviderOperationResult * option (op_error E) * OpWorld R :=
  match resolveProviderOperationRequest s env st req with
  | Fail e => (emptyOperationResult, Some e, w)
  | Ok resolved =>
    let result := mkOperationResult (prov_ID (rv_provider resolved)) (rv_connectionID resolved) (rv_operation resolved)
      (rv_transportKind resolved) (rv_authStrategy resolved) (rv_idempotencyKey resolved) emptyResponse emptyMeta 0 false
      (copyAnyMap (po_Metadata req)) in
    let retry := normalizeProviderRetryPolicy (po_Retry req) in
    op_loop (Z.to_nat (rp_MaxAttempts retry)) req retry resolved aenv 1 result None w
  end.

(** ** Capability operations *)

Definition emptyCapabilityResult : CapabilityResult := mkCapabilityResult false "" "" emptyConnection ∅.
Definition emptyCapabilityOperation : CapabilityOperationResult :=
  mkCapabilityOperation emptyCapabilityResult false emptyOperationResult.

(** What the request and the decision fill in of the operation the provider resolved. *)
Definition completed_operation (req : InvokeCapabilityOperationRequest) (decision : CapabilityResult) (op : ProviderOperationRequest)
    : ProviderOperationRequest :=
  let connection := cr_Connection decision in
  let scope :=
    if blank (scope_Type (po_Scope op)) && blank (scope_ID (po_Scope op)) then
      let scope := mkScopeRef (TrimSpace (conn_ScopeType connection)) (TrimSpace (conn_ScopeID connection)) in
      if blank (scope_Type scope) || blank (scope_ID scope) then io_Scope req else scope
    else po_Scope op in
  mkOperationRequest (firstNonEmptyTrimmed [po_ProviderID op; io_ProviderID req])
    (firstNonEmptyTrimmed [po_ConnectionID op; conn_ID connection; io_ConnectionID req]) scope
    (firstNonEmptyTrimmed [po_Operation op; io_Operation req; io_Capability req])
    (firstNonEmptyTrimmed [po_BucketKey op; io_BucketKey req])
    (firstNonEmptyTrimmed [po_TransportKind op; io_TransportKind req])
    (if bool_decide (po_TransportConfig op = ∅) then copyAnyMap (io_TransportConfig req) else po_TransportConfig op)
    (po_TransportRequest op) (po_Adapter op) (po_Credential op) (po_IdempotencyKey op)
    (if isZeroProviderRetryPolicy (po_Retry op) then io_Retry req else po_Retry op)
    (mergeProviderOperationMetadata (po_Metadata op) (io_Metadata req)) (po_Normalize op).

(** [env 0] is that of [InvokeCapability]; the operation takes [env 1] and [env 2]. *)
Definition InvokeCapabilityOperation (s : OpService) (env : nat → CallEnv) (aenv : Z → AttemptEnv) (st : SvcState W O)
    (req : InvokeCapabilityOperationRequest) (w : OpWorld R) : CapabilityOperationResult * option (op_error E) * OpWorld R :=
  let v := ops_service s in
  match (InvokeCapability scope_error_text v env
           (mkInvoke (io_ProviderID req) (io_Scope req) (io_Capability req) (copyAnyMap (io_Payload req)) (io_ConnectionID req)) st).1 with
  | Fail e => (emptyCapabilityOperation, Some (OpErrService e), w)
  | Ok decision =>
    if negb (cr_Allowed decision) && String.eqb (cr_Mode decision) CapabilityDeniedBehaviorBlock
    then (mkCapabilityOperation decision false emptyOperationResult, None, w)
    else match (resolveProvider (O := O) v (io_ProviderID req) st).1 with
    | Fail e => (emptyCapabilityOperation, Some (OpErrService e), w)
    | Ok provider =>
      match provider_resolver provider with
      | None => (emptyCapabilityOperation, Some (OpErrNotSupported (io_ProviderID req)), w)
      | Some resolve =>
        match resolve (mkResolveOperation (io_ProviderID req) (io_Scope req) (io_Capability req) (copyAnyMap (io_Payload req))
                         (cr_Connection decision) decision (io_Operation req) (io_BucketKey req) (io_TransportKind req)
                         (copyAnyMap (io_TransportConfig req)) (copyAnyMap (io_Metadata req))) with
        | Fail e => (emptyCapabilityOperation, Some (OpErrResolve e), w)
        | Ok op =>
          match ExecuteProviderOperation s (λ n, env (n + 1)) aenv st (completed_operation req decision op) w with
          | (_, Some e, w') => (emptyCapabilityOperation, Some e, w')
          | (operation, None, w') => (mkCapabilityOperation decision true operation, None, w')
          end
        end
      end
    end
  end.

(** ** Attempts *)

Abbreviation wrapped := wrapProviderOperationError.

(** An error of the operation itself, in a complete envelope. *)
Definition operation_error (resolved : resolvedProviderOperationRequest) (attempt : Z) (err : op_error E) : Prop :=
  ∃ e envelope, err = OpErrOperation e envelope ∧ oe_Attempt e = attempt ∧ oe_Idempotency e = rv_idempotencyKey resolved ∧
    enveloped envelope.

Lemma wrapped_operation_error resolved attempt maxAttempts status source retryable :
  operation_error resolved attempt (wrapped resolved attempt maxAttempts status source retryable).
Proof.
  unfold wrapped. case_match; simplify_eq. eexists _, _. split_and!; [reflexivity|done|done|apply ensure_enveloped].
Qed.

Lemma shouldRetry_attempts provider policy attempt opErr meta delay :
  shouldRetryProviderOperation provider policy attempt opErr meta = (true, delay) → (attempt < rp_MaxAttempts policy)%Z.
Proof. unfold shouldRetryProviderOperation. destruct (Z.leb_spec (rp_MaxAttempts policy) attempt); [done|lia]. Qed.

Lemma retry_or_cases retry resolved env attempt result opErr meta stop lastErr w v w' :
  retry_or retry resolved env attempt result opErr meta stop lastErr w = (v, w') →
  ow_sent w' = ow_sent w ∧ ow_rate w' = ow_rate w ∧
  (v = Return result stop ∨ (∃ e, v = Return (or_with_retried result) (Some (OpErrSleep e))) ∨
   v = Retry (or_with_retried result) lastErr ∧ (attempt < rp_MaxAttempts retry)%Z).
Proof.
  unfold retry_or, sleepProviderRetry. destruct (shouldRetryProviderOperation _ _ _ _ _) as [[] delay] eqn:Hs; simpl.
  - apply shouldRetry_attempts in Hs. intros H. repeat (case_match; simplify_eq/=); eauto 10.
  - intros [= <- <-]. auto.
Qed.

(** What an attempt may do: at most one call, with the idempotency key of the operation, another attempt only below the limit,
    and success only with a response whose status is no error. *)
Definition attempt_effect (retry : ProviderOperationRetryPolicy) (resolved : resolvedProviderOperationRequest) (attempt : Z)
    (result : ProviderOperationResult) (w : OpWorld R) (v : attempt_verdict) (calls : list TransportRequest) : Prop :=
  length calls ≤ 1 ∧ Forall (λ r, tr_Idempotency r = tr_Idempotency (rv_transportRequest resolved)) calls ∧
  match v with
  | Retry r e => (attempt < rp_MaxAttempts retry)%Z ∧ or_Attempts r = attempt ∧ or_Idempotency r = or_Idempotency result
  | Return r (Some e) =>
    or_Attempts r = attempt ∧ or_Idempotency r = or_Idempotency result ∧ (operation_error resolved attempt e ∨ ∃ g, e = OpErrSleep g)
  | Return r None =>
    or_Attempts r = attempt ∧ or_Idempotency r = or_Idempotency result ∧ (rm_StatusCode (or_Meta r) < 400)%Z ∧
    ∃ request, calls = [request] ∧ ta_Do (rv_adapter resolved) (ow_sent w) request = Ok (or_Response r)
  end.

(** The cases of [retry_or] that end an attempt without success. *)
Lemma retry_or_effect retry resolved env attempt (result result0 : ProviderOperationResult) opErr meta stop lastErr w0 w v w' calls :
  retry_or retry resolved env attempt result opErr meta stop lastErr w = (v, w') → or_Attempts result = attempt →
  or_Idempotency result = or_Idempotency result0 → length calls ≤ 1 →
  Forall (λ r, tr_Idempotency r = tr_Idempotency (rv_transportRequest resolved)) calls →
  attempt_effect retry resolved attempt result0 w0 (Return result stop) calls →
  attempt_effect retry resolved attempt result0 w0 v calls.
Proof.
  intros Hr Ha Hi Hl Hf Hstop. apply retry_or_cases in Hr as (_ & _ & [->|[(e & ->)|[-> Hlt]]]); [done| |]; (split; [done|]; split; [done|]); simpl; eauto.
Qed.

Lemma error_effect retry resolved attempt result0 w0 (result : ProviderOperationResult) e calls :
  or_Attempts result = attempt → or_Idempotency result = or_Idempotency result0 → length calls ≤ 1 →
  Forall (λ r, tr_Idempotency r = tr_Idempotency (rv_transportRequest resolved)) calls → operation_error resolved attempt e →
  attempt_effect retry resolved attempt result0 w0 (Return result (Some e)) calls.
Proof. intros. split; [done|]. split; [done|]. simpl. auto. Qed.

Lemma attempt_call_effect req retry resolved env attempt result result0 request signing w v w' :
  attempt_call req retry resolved env attempt result request signing w = (v, w') → or_Attempts result = attempt →
  or_Idempotency result = or_Idempotency result0 → tr_Idempotency request = tr_Idempotency (rv_transportRequest resolved) →
  ow_sent w' = ow_sent w ++ [request] ∧ attempt_effect retry resolved attempt result0 w v [request].
Proof.
  intros H Ha Hi Hk. unfold attempt_call in H.
  assert (Hf : Forall (λ r, tr_Idempotency r = tr_Idempotency (rv_transportRequest resolved)) [request]) by auto.
  destruct (ta_Do _ _ _) as [response|callErr] eqn:Hdo.
  - destruct (normalizeProviderOperationResponse _ _ _ _) as [meta|e].
    + set (m := mkResponseMeta _ _ _ _) in H. set (after := if rv_rateLimitEnabled resolved then _ else _) in H.
      assert (Hs : ow_sent after.2 = ow_sent w ++ [request]).
      { subst after. destruct (rv_rateLimitEnabled resolved); [|done]. by destruct (rl_AfterCall _ _ _ _). }
      destruct after as [[afterErr|] w1]; simpl in Hs.
      * split; [apply retry_or_cases in H as (Hsent & _); congruence|].
        eapply retry_or_effect; [exact H|done|done|simpl; lia|done|]. apply error_effect; [done|done|simpl; lia|done|apply wrapped_operation_error].
      * split; [apply retry_or_cases in H as (Hsent & _); congruence|].
        eapply retry_or_effect; [exact H|done|done|simpl; lia|done|].
        destruct (Z.leb_spec 400 (rm_StatusCode m)); [apply error_effect; [done|done|simpl; lia|done|apply wrapped_operation_error]|].
        split; [simpl; lia|]. split; [done|]. simpl. eauto 10.
    + injection H as <- <-. split; [done|]. apply error_effect; [done|done|simpl; lia|done|apply wrapped_operation_error].
  - split; [apply retry_or_cases in H as (Hsent & _); by rewrite Hsent|].
    eapply retry_or_effect; [exact H|done|done|simpl; lia|done|]. apply error_effect; [done|done|simpl; lia|done|apply wrapped_operation_error].
Qed.

Lemma signed_idempotency now signer request credential signed metadata :
  signProviderTransportRequest now signer request credential = Ok (signed, metadata) → tr_Idempotency signed = tr_Idempotency request.
Proof. unfold signProviderTransportRequest. intros H. repeat (case_match; simplify_eq/=); done. Qed.

Lemma op_attempt_effect req retry resolved env attempt result w v w' :
  op_attempt req retry resolved env attempt result w = (v, w') →
  ∃ calls, ow_sent w' = ow_sent w ++ calls ∧ attempt_effect retry resolved attempt result w v calls.
Proof.
  intros H. unfold op_attempt in H. set (before := if rv_rateLimitEnabled resolved then _ else _) in H.
  assert (Hs : ow_sent before.2 = ow_sent w).
  { subst before. destruct (rv_rateLimitEnabled resolved); [|done]. by destruct (rl_BeforeCall _ _ _). }
  destruct before as [[beforeErr|] w1]; simpl in Hs.
  - exists []. rewrite app_nil_r. split; [apply retry_or_cases in H as (Hsent & _); congruence|].
    eapply retry_or_effect; [exact H|done|done|simpl; lia|done|]. apply error_effect; [done|done|simpl; lia|done|apply wrapped_operation_error].
  - assert (Hcall : ∀ request signing, tr_Idempotency request = tr_Idempotency (rv_transportRequest resolved) →
      attempt_call req retry resolved env attempt (or_with_attempts result attempt) request signing w1 = (v, w') →
      ∃ calls, ow_sent w' = ow_sent w ++ calls ∧ attempt_effect retry resolved attempt result w v calls).
    { intros request signing Hk Hc. eapply attempt_call_effect in Hc as [Hsent Heff]; [|done|done|done].
      exists [request]. split; [congruence|]. unfold attempt_effect in *. by rewrite Hs in Heff. }
    destruct (rv_signer resolved) as [signer|], (rv_credential resolved) as [credential|]; try (eapply Hcall; [|exact H]; reflexivity).
    destruct (signProviderTransportRequest _ _ _ _) as [[signed metadata]|signErr] eqn:Hsign.
    + eapply Hcall; [|exact H]. apply signed_idempotency in Hsign. by rewrite Hsign.
    + injection H as <- <-. exists []. rewrite app_nil_r. split; [done|].
      apply error_effect; [done|done|simpl; lia|done|apply wrapped_operation_error].
Qed.

(** ** The whole operation *)

(** The loop ends within its fuel with the outcome of its last attempt. *)
Lemma op_loop_effect fuel : ∀ req retry resolved env attempt result lastErr w,
  fuel = Z.to_nat (rp_MaxAttempts retry - attempt + 1) → (1 ≤ attempt ≤ rp_MaxAttempts retry)%Z →
  ∃ result' err w' calls, op_loop fuel req retry resolved env attempt result lastErr w = (result', err, w') ∧
    ow_sent w' = ow_sent w ++ calls ∧ (Z.of_nat (length calls) ≤ or_Attempts result' - attempt + 1)%Z ∧
    (attempt ≤ or_Attempts result' ≤ rp_MaxAttempts retry)%Z ∧
    Forall (λ r, tr_Idempotency r = tr_Idempotency (rv_transportRequest resolved)) calls ∧ or_Idempotency result' = or_Idempotency result ∧
    match err with
    | Some e => operation_error resolved (or_Attempts result') e ∨ ∃ g, e = OpErrSleep g
    | None => (rm_StatusCode (or_Meta result') < 400)%Z ∧
              ∃ earlier request, calls = earlier ++ [request] ∧
                ta_Do (rv_adapter resolved) (ow_sent w ++ earlier) request = Ok (or_Response result')
    end.
Proof.
  induction fuel as [|fuel IH]; intros req retry resolved env attempt result lastErr w Hf Hb; [lia|]. simpl.
  destruct (op_attempt _ _ _ _ _ _ _) as [v w1] eqn:Ha. apply op_attempt_effect in Ha as (calls & Hsent & Hl & Hk & Hv).
  destruct v as [r e|r err].
  - destruct Hv as (Hlt & Hat & Hid).
    destruct (IH req retry resolved env (attempt + 1)%Z r (Some e) w1) as (r' & err & w' & calls' & -> & Hsent' & Hl' & Hb' & Hk' & Hi' & Hr');
      [lia|lia|].
    eexists r', err, w', (calls ++ calls'). rewrite Hsent', Hsent, app_assoc. split; [done|]. split; [done|].
    rewrite length_app. split; [lia|]. split; [lia|]. split; [by apply Forall_app|]. split; [congruence|].
    destruct err as [e'|]; [done|]. destruct Hr' as (Hst & earlier & request & -> & Hdo). split; [done|].
    exists (calls ++ earlier), request. rewrite app_assoc. split; [done|]. by rewrite app_assoc, <-Hsent.
  - eexists r, err, w1, calls. split; [done|]. split; [done|]. destruct err as [e|].
    + destruct Hv as (Hat & Hid & He). rewrite Hat. split; [lia|]. split; [lia|]. auto.
    + destruct Hv as (Hat & Hid & Hst & request & -> & Hdo). rewrite Hat. split; [simpl; lia|]. split; [lia|].
      split; [done|]. split; [done|]. split; [done|]. exists [], request. by rewrite app_nil_r.
Qed.

Lemma op_loop_fuel fuel : ∀ req retry resolved env attempt result lastErr w extra,
  fuel = Z.to_nat (rp_MaxAttempts retry - attempt + 1) → (1 ≤ attempt ≤ rp_MaxAttempts retry)%Z →
  op_loop (fuel + extra) req retry resolved env attempt result lastErr w = op_loop fuel req retry resolved env attempt result lastErr w.
Proof.
  induction fuel as [|fuel IH]; intros req retry resolved env attempt result lastErr w extra Hf Hb; [lia|]. simpl.
  destruct (op_attempt _ _ _ _ _ _ _) as [[r e|r err] w1] eqn:Ha; [|done].
  apply op_attempt_effect in Ha as (calls & _ & _ & _ & Hlt & _). apply IH; lia.
Qed.

(** ** What a resolved operation is *)

Lemma resolve_inv s env st req rv :
  resolveProviderOperationRequest s env st req = Ok rv →
  tr_Idempotency (rv_transportRequest rv) = rv_idempotencyKey rv ∧
  is_Some (tr_Headers (rv_transportRequest rv) !! "Idempotency-Key") ∧
  resolveProviderOperationAdapter s req = Ok (rv_adapter rv, rv_transportKind rv) ∧
  resolveProviderOperationCredential s (env 1) (s_db st) req (TrimSpace (po_ConnectionID req)) = Ok (rv_credential rv).
Proof.
  unfold resolveProviderOperationRequest, obind. intros H.
  destruct (or_service (operation_connection _ _ _ _ _)) as [[providerID connection]|]; [|done].
  destruct (String.eqb providerID ""); [done|]. destruct (or_service (resolveProvider _ _ _).1) as [provider|]; [|done].
  destruct (resolveProviderOperationAdapter s req) as [[adapter kind]|]; [|done].
  destruct (operation_request providerID _ req) as [tr key] eqn:Hop.
  destruct (resolveProviderOperationCredential _ _ _ _ _) as [credential|]; [|done]. injection H as <-. simpl.
  unfold operation_request in Hop. injection Hop as <- <-. split_and!; try done. simpl. case_match; [eauto|]. rewrite lookup_insert_eq. eauto.
Qed.

(** C7: an operation calls its adapter at most as often as its retry policy allows (once without one), every call carries the idempotency
    key that the result reports, and the operation always ends: with an error whose envelope is complete and names the
    attempt it comes from, with the error of a pause, or successfully, with the adapter's answer to the last call and a status
    below 400.  The loop needs no more iterations than the attempts allowed: with more of them nothing changes, so the error after the
    loop is never returned.  An operation that cannot be resolved makes no call. *)
Theorem operation_attempts s env aenv st req w :
  ∃ result err w' calls, ExecuteProviderOperation s env aenv st req w = (result, err, w') ∧
    ow_sent w' = ow_sent w ++ calls ∧
    (Z.of_nat (length calls) ≤ or_Attempts result ≤ Z.max 1 (rp_MaxAttempts (po_Retry req)))%Z ∧
    (∀ r, r ∈ calls → tr_Idempotency r = or_Idempotency result) ∧
    match resolveProviderOperationRequest s env st req with
    | Fail e => err = Some e ∧ calls = []
    | Ok resolved =>
      (∀ extra, let retry := normalizeProviderRetryPolicy (po_Retry req) in
         op_loop (Z.to_nat (rp_MaxAttempts retry) + extra) req retry resolved aenv 1
           (mkOperationResult (prov_ID (rv_provider resolved)) (rv_connectionID resolved) (rv_operation resolved)
             (rv_transportKind resolved) (rv_authStrategy resolved) (rv_idempotencyKey resolved) emptyResponse emptyMeta 0 false
             (copyAnyMap (po_Metadata req))) None w = (result, err, w')) ∧
      match err with
      | Some e => operation_error resolved (or_Attempts result) e ∨ ∃ g, e = OpErrSleep g
      | None => (rm_StatusCode (or_Meta result) < 400)%Z ∧
                ∃ earlier request, calls = earlier ++ [request] ∧
                  ta_Do (rv_adapter resolved) (ow_sent w ++ earlier) request = Ok (or_Response result)
      end
    end.
Proof.
  unfold ExecuteProviderOperation. destruct (resolveProviderOperationRequest _ _ _ _) as [rv|e] eqn:Hr.
  - set (retry := normalizeProviderRetryPolicy (po_Retry req)). set (result0 := mkOperationResult _ _ _ _ _ _ _ _ _ _ _).
    assert (Hm : rp_MaxAttempts retry = Z.max 1 (rp_MaxAttempts (po_Retry req))).
    { subst retry. simpl. destruct (Z.leb_spec (rp_MaxAttempts (po_Retry req)) 0); lia. }
    destruct (op_loop_effect (Z.to_nat (rp_MaxAttempts retry)) req retry rv aenv 1 result0 None w)
      as (result & err & w' & calls & Hl & Hsent & Hlen & Hb & Hk & Hi & He); [lia|lia|].
    exists result, err, w', calls. split; [done|]. split; [done|]. split; [lia|].
    apply resolve_inv in Hr as (Hkey & _). split.
    { intros r Hin. rewrite Forall_forall in Hk. rewrite (Hk r Hin), Hkey. by rewrite Hi. }
    split; [|done]. intros extra. cbv zeta. rewrite <-Hl. apply op_loop_fuel; lia.
  - eexists _, _, w, []. rewrite app_nil_r. split; [done|]. split; [done|]. simpl. split; [lia|]. split; [set_solver|done].
Qed.

(** ** Refused operations *)

(** When the policy refuses every attempt, the loop ends without a call, with the refusal or the error of a pause. *)
Lemma op_loop_refused fuel : ∀ req retry resolved env attempt result lastErr w,
  fuel = Z.to_nat (rp_MaxAttempts retry - attempt + 1) → (1 ≤ attempt ≤ rp_MaxAttempts retry)%Z →
  rv_rateLimitEnabled resolved = true →
  (∀ n, ∃ e, rl_BeforeCall (ow_rate w) (at_before (env n)) (rv_rateLimitKey resolved) = (Some e, ow_rate w) ∧
     Contains (ToLower (err_Text e)) "throttl" = true) →
  ∃ result' err w', op_loop fuel req retry resolved env attempt result lastErr w = (result', Some err, w') ∧
    ow_sent w' = ow_sent w ∧ ow_rate w' = ow_rate w ∧
    ((∃ e envelope, err = OpErrOperation e envelope ∧ re_Category envelope = CategoryRateLimit ∧
        re_TextCode envelope = ServiceErrorRateLimited) ∨ ∃ g, err = OpErrSleep g).
Proof.
  induction fuel as [|fuel IH]; intros req retry resolved env attempt result lastErr w Hf Hb Hen Href; [lia|]. simpl.
  unfold op_attempt. rewrite Hen. destruct (Href attempt) as (e & -> & Ht).
  destruct (retry_or _ _ _ _ _ _ _ _ _ _) as [v w1] eqn:Hr. apply retry_or_cases in Hr as (Hsent & Hrate & Hv). simpl in Hsent, Hrate.
  destruct Hv as [->|[(g & ->)|[-> Hlt]]].
  - eexists _, _, _. split; [done|]. split; [done|]. split; [done|]. left. unfold wrapProviderOperationError. rewrite Ht, orb_true_r.
    eexists _, _. split; [done|]. rewrite ensure_Category, ensure_TextCode by done. simpl. by rewrite Wrap_Category.
  - eexists _, _, _. split; [done|]. eauto.
  - destruct (IH req retry resolved env (attempt + 1)%Z (or_with_retried (or_with_attempts result attempt))
      (Some (wrapped resolved attempt (rp_MaxAttempts retry) 0 e true)) w1) as (r & err & w' & Hl & Hs & Hra & He); [lia|lia|done|by rewrite Hrate|].
    eexists _, _, _. split; [exact Hl|]. split; [congruence|]. split; [congruence|done].
Qed.

(** ** Denied capabilities *)

(** An evaluator that blocks what it denies. *)
Definition blocks_denied (evaluate : W → string → string → outcome (permission_error E) PermissionDecision) : Prop :=
  ∀ db c capability d, evaluate db c capability = Ok d → pd_Allowed d = false → pd_Mode d = CapabilityDeniedBehaviorBlock.

Lemma grant_evaluator_blocks (evaluator : W → GrantPermissionEvaluator E) : blocks_denied (λ db, EvaluateCapability (evaluator db)).
Proof.
  intros db c capability d. unfold EvaluateCapability, decide_capability, unsupported. intros H Hd.
  repeat (case_match; simplify_eq/=); done.
Qed.

(** A decision that does not allow a capability blocks it. *)
Lemma denied_blocks v env req st decision st' evaluate :
  svc_permissionEvaluator v = Some evaluate → blocks_denied evaluate →
  InvokeCapability (O := O) scope_error_text v env req st = (Ok decision, st') → cr_Allowed decision = false →
  cr_Mode decision = CapabilityDeniedBehaviorBlock.
Proof.
  intros Hev Hbl H Hd. unfold InvokeCapability in H. apply sbind_Ok in H as (provider & s1 & _ & H).
  destruct (findCapabilityDescriptor _ _) as [descriptor|]; [|done]. apply sbind_Ok in H as (res & s2 & _ & H).
  destruct (_ || _); [by injection H as <- <-|]. apply sbind_Ok in H as (d & s3 & Hdec & H). injection H as <- <-. simpl in *.
  rewrite Hev in Hdec. apply sbind_Ok in Hdec as (d0 & s4 & Hd0 & Hdec). injection Hdec as <- <-.
  unfold db_read, lift in Hd0. destruct (evaluate _ _ _) as [d1|] eqn:He; [|done]. injection Hd0 as <- <-.
  specialize (Hbl _ _ _ _ He). destruct (String.eqb_spec (pd_Mode d1) "") as [Hm|Hm]; simpl in *; [|auto].
  rewrite Hbl in Hm by done. done.
Qed.

(** No call is made for a capability that is not allowed.  With the grant evaluator, an operation of a capability reaches the
    provider only if the capability was allowed on an active connection; a denied one returns the decision, without an error and
    without being executed. *)
Theorem capability_operation_gated s env aenv st req w (evaluator : W → GrantPermissionEvaluator E) result err w' :
  svc_permissionEvaluator (ops_service s) = Some (λ db, EvaluateCapability (evaluator db)) →
  InvokeCapabilityOperation s env aenv st req w = (result, err, w') →
  (ow_sent w' ≠ ow_sent w ∨ co_Executed result = true →
    ∃ decision, (InvokeCapability scope_error_text (ops_service s) env
      (mkInvoke (io_ProviderID req) (io_Scope req) (io_Capability req) (io_Payload req) (io_ConnectionID req)) st).1 = Ok decision ∧
      cr_Allowed decision = true) ∧
  (∀ decision, (InvokeCapability scope_error_text (ops_service s) env
      (mkInvoke (io_ProviderID req) (io_Scope req) (io_Capability req) (io_Payload req) (io_ConnectionID req)) st).1 = Ok decision →
    cr_Allowed decision = false →
    result = mkCapabilityOperation decision false emptyOperationResult ∧ err = None ∧ w' = w).
Proof.
  intros Hev H. unfold InvokeCapabilityOperation, copyAnyMap in H.
  destruct (InvokeCapability _ _ _ _ _) as [[decision|e] st'] eqn:Hi; simpl in H |- *.
  - pose proof (denied_blocks _ _ _ _ _ _ _ Hev (grant_evaluator_blocks evaluator) Hi) as Hbl.
    destruct (cr_Allowed decision) eqn:Ha; [split; [by eauto|congruence]|]. rewrite Hbl in H by done. simpl in H.
    injection H as <- <- <-. split; [naive_solver|]. by intros ? [= <-].
  - injection H as <- <- <-. split; [naive_solver|done].
Qed.
End runtime.

(** ** The runtime over the components *)

Section adaptive.
Context {MR : MapRange} {GE : GoErrors}.
Variable time_Parse : string → string → option Time.
Variable quote : string → string.
Variable duration_text : Duration → string.

(** The adaptive policy of src/ratelimit/policy.go as the policy of the runtime. *)
Definition adaptive_policy : RateLimitPolicy (AdaptivePolicy MemoryStateStore) := {|
  rl_BeforeCall := λ p now key,
    (match BeforeCall p now key with Ok _ => None | Fail e => Some (rate_error_value quote duration_text e) end, p);
  rl_AfterCall := λ p now key meta,
    let (o, store) := AfterCall time_Parse p now key meta in
    (match o with Ok _ => None | Fail e => Some (rate_error_value quote duration_text e) end, mkPolicy store (pol_Backoff p)) |}.

Lemma throttled_text_says e : Contains (ToLower (throttled_text quote duration_text e)) "throttl" = true.
Proof.
  unfold throttled_text, ToLower. rewrite !map_string_app. do 4 apply Contains_app_r. by apply Contains_app_l.
Qed.
End adaptive.

(** A 429 response throttles the operations that come after it.  An operation whose bucket is the one that was answered
    with 429, up to case and surrounding blanks, makes no call as long as the delay the response asked for has not passed, however
    often it is retried; it fails with the category and the text code of a rate limit, unless a pause fails first. *)
Theorem throttled_operation_waits {MR : MapRange} {GE : GoErrors} {E W O : Type} {conns : ConnectionStore E W}
    {creds : CredentialStore E W}
    methods sha256 hmacSHA256 time_Format time_Parse EscapedPath url_Parse url_String quote duration_text provider_signer
    (s : OpService (E := E) (W := W)) env aenv (st : SvcState W O) req resolved p items now key res sent slept :
  let execute := ExecuteProviderOperation (rate := adaptive_policy time_Parse quote duration_text) methods sha256 hmacSHA256
    time_Format time_Parse EscapedPath url_Parse url_String quote provider_signer in
  resolveProviderOperationRequest methods sha256 url_Parse url_String provider_signer s env st req = Ok resolved →
  rv_rateLimitEnabled resolved = true → normalizeKey (rv_rateLimitKey resolved) = normalizeKey key →
  pol_Store p = Some items → keyed items → rm_StatusCode res = StatusTooManyRequests →
  let until := (now + throttle_delay time_Parse p res now (st_Attempts (bucket items key) + 1))%Z in
  let p' := policy_with p (items_after (AfterCall time_Parse p now key res)) in
  (∀ n, (at_before (aenv n) < until)%Z) →
  ∃ result err w', execute s env aenv st req (mkOpWorld p' sent slept) = (result, Some err, w') ∧
    ow_sent w' = sent ∧ ow_rate w' = p' ∧
    ((∃ e envelope, err = OpErrOperation e envelope ∧ re_Category envelope = CategoryRateLimit ∧
        re_TextCode envelope = ServiceErrorRateLimited) ∨ ∃ g, err = OpErrSleep g).
Proof.
  intros execute Hr Hen Hkey Hp Hk Hc until p' Ht. unfold execute, ExecuteProviderOperation. rewrite Hr.
  set (retry := normalizeProviderRetryPolicy (po_Retry req)).
  assert (Hm : (1 ≤ rp_MaxAttempts retry)%Z).
  { subst retry. simpl. destruct (Z.leb_spec (rp_MaxAttempts (po_Retry req)) 0); lia. }
  set (result0 := mkOperationResult _ _ _ _ _ _ _ _ _ _ _). set (w := mkOpWorld p' sent slept).
  destruct (op_loop_refused (E := E) (rate := adaptive_policy time_Parse quote duration_text) sha256 hmacSHA256 time_Format time_Parse
    EscapedPath url_Parse url_String quote (Z.to_nat (rp_MaxAttempts retry)) req retry resolved aenv 1 result0 None w)
    as (r & err & w' & Hl & Hrest); [lia|lia|exact Hen| |by exists r, err, w'].
  intros n. simpl. rewrite (BeforeCall_bucket p' (items_after (AfterCall time_Parse p now key res))) by done.
  assert (Hb : bucket (items_after (AfterCall time_Parse p now key res)) (rv_rateLimitKey resolved)
      = updated_state time_Parse p (bucket items key) now res).
  { unfold bucket at 1. rewrite Hkey. fold (bucket (items_after (AfterCall time_Parse p now key res)) key). by apply bucket_after. }
  rewrite Hb. destruct (throttled_bucket time_Parse p (bucket items key) now res Hc) as [Hu _].
  fold until in Hu. unfold blocked_until. rewrite Hu. specialize (Ht n). apply Before_lt in Ht. rewrite Ht. eexists. split; [done|]. apply throttled_text_says.
Qed.

(** A revoked connection cannot be called.  After a successful [Revoke], an operation on the connection that has to load the stored
    credential fails, and no call is made, whatever the provider, the adapter and the retry policy. *)
Theorem revoked_operation_fails {MR : MapRange} {GE : GoErrors} {O R : Type} {rate : RateLimitPolicy R}
    methods sha256 hmacSHA256 time_Format time_Parse EscapedPath url_Parse url_String quote provider_signer
    (s : OpService (E := sql_error) (W := ServiceDB)) renv c reason (st st' : SvcState ServiceDB O) env aenv req (w : OpWorld R) :
  svc_connectionStore (ops_service s) = true → svc_credentialStore (ops_service s) = true →
  Revoke (ops_service s) renv c reason st = (Ok tt, st') →
  TrimSpace (po_ConnectionID req) = TrimSpace c → po_Credential req = None →
  ∃ e, ExecuteProviderOperation methods sha256 hmacSHA256 time_Format time_Parse EscapedPath url_Parse url_String quote provider_signer
    s env aenv st' req w = (emptyOperationResult, Some e, w).
Proof.
  intros Hc Hk Hrev Hid Hcred. apply Revoke_no_active in Hrev as [Hb Hno]; [|done|done].
  unfold ExecuteProviderOperation. destruct (resolveProviderOperationRequest _ _ _ _ _ _ _ _ _) as [rv|e] eqn:Hr; [exfalso|by exists e].
  apply resolve_inv in Hr as (_ & _ & _ & Hr). unfold resolveProviderOperationCredential in Hr.
  rewrite Hcred, Hid, blank_TrimSpace, Hb, Hk in Hr. simpl in Hr.
  destruct (GetActive_none (s_db st') (env 1) (TrimSpace c)) as [e He]; [by rewrite TrimSpace_idem|]. by rewrite He in Hr.
Qed.

(** ** Idempotency keys *)

(** No two query keys are the same up to surrounding space. *)
Definition distinct_keys (query : gmap string string) : Prop :=
  ∀ k1 k2, is_Some (query !! k1) → is_Some (query !! k2) → TrimSpace k1 = TrimSpace k2 → k1 = k2.

(** The idempotency key that is generated for a request depends only on the request, not on the order its query parameters are visited
    in, as long as their names differ by more than surrounding space. *)
Theorem idempotency_key_stable (MR1 MR2 : MapRange) sha256 url_Parse url_String providerID connectionID operation request :
  distinct_keys (tr_Query request) →
  generateIdempotencyKey (MR := MR1) sha256 url_Parse url_String providerID connectionID operation request =
  generateIdempotencyKey (MR := MR2) sha256 url_Parse url_String providerID connectionID operation request.
Proof.
  intros Hd. unfold generateIdempotencyKey, canonicalTransportRequestURL. destruct (url_Parse _) as [u|]; [|done].
  rewrite (foldl_permutation _ (map_range (MapRange := MR1) _) (map_range (MapRange := MR2) (tr_Query request))); [done| | |].
  - eapply NoDup_fmap_1, NoDup_map_range.
  - intros [k1 v1] [k2 v2] q H1%elem_of_map_range H2%elem_of_map_range Hne. simpl.
    destruct (blank k1), (blank k2); try done. unfold Values_Set. apply insert_insert_ne. intros E.
    apply Hd in E; [|by eauto..]. congruence.
  - by rewrite !map_range_perm.
Qed.

(** ** Evaluations *)

Section demo.
#[local] Existing Instance key_order_range.
#[local] Existing Instance demo_errors.
#[local] Instance demo_rate : RateLimitPolicy (AdaptivePolicy MemoryStateStore) := adaptive_policy no_dates (λ s, s) (λ _, "").

Definition demo_parse (s : string) : outcome string URL := Ok (mkURL "" s "" "").
Definition demo_print (u : URL) : string := u_Path u +:+ "?" +:+ u_RawQuery u.
(** The first answer of a host is 503, the next is 200. *)
Definition demo_adapter : TransportAdapter :=
  mkAdapter "rest" (λ sent _, Ok (mkTransportResponse (if 0 <? length sent then 200%Z else 503%Z) ∅ "" ∅)).
Definition demo_transport (query : gmap string string) : TransportRequest := mkTransportRequest "get" "/repos" ∅ query "" ∅ 0 0 "".
Definition demo_retry : ProviderOperationRetryPolicy := mkRetry 3 0 0 [] (Some (λ _ _, None)) None.
Definition demo_operation : ProviderOperationRequest :=
  mkOperationRequest "" "id-1" (mkScopeRef "" "") "repos.list" "" "" ∅ (demo_transport ∅) (Some demo_adapter) None "" demo_retry ∅ None.
(** A service with the grant evaluator over its own database. *)
Definition demo_evaluator (granted : list string) (db : ServiceDB) : GrantPermissionEvaluator sql_error :=
  mkEvaluator (Some (λ c, Connection_Get db (quiet 0 "") c)) (Some (λ c, Ok (Some (mkSnapshot c 1 granted granted 0 ∅))))
    (svc_registry demo_service).
Definition demo_ops (granted : list string) : OpService (E := sql_error) (W := ServiceDB) :=
  let v := demo_service in
  mkOpService (mkService (svc_registry v) true true true true (svc_secretProvider v) (svc_credentialCodec v) true [] None
    (Some (λ db, EvaluateCapability (demo_evaluator granted db))) None) true (Some BearerTokenSigner) None.
Definition demo_attempt (n : Z) : AttemptEnv := mkAttemptEnv 300 300 300 300 300 None.
Abbreviation demo_execute := (ExecuteProviderOperation (demo_methods ["repo"]) (λ s, s) (λ k s, s) (λ _ _, "") no_dates
  (λ u, u_Path u) demo_parse demo_print (λ s, s) (λ _, None)).
Definition demo_resolver (_ : Provider) : option (CapabilityOperationResolveRequest → outcome GoError ProviderOperationRequest) :=
  Some (λ _, Ok demo_operation).
Abbreviation demo_capability := (InvokeCapabilityOperation (demo_methods ["repo"]) (λ _, "") (λ s, s) (λ k s, s) (λ _ _, "") no_dates
  (λ u, u_Path u) demo_parse demo_print (λ s, s) (λ _, None) demo_resolver).
Definition demo_world : OpWorld (AdaptivePolicy MemoryStateStore) := mkOpWorld demo_policy [] [].

(** A request that is answered with 503 is sent again after the initial pause, signed with the stored token. *)
Example operation_retries :
  let '(result, err, w) := demo_execute (demo_ops []) (demo_env 400) demo_attempt demo_connected demo_operation demo_world in
  err = None ∧ or_Attempts result = 2%Z ∧ or_Retried result = true ∧ ow_slept w = [200 * Millisecond]%Z ∧
  (λ r, tr_Headers r !! "Authorization") <$> ow_sent w = [Some "Bearer code"; Some "Bearer code"].
Proof. vm_compute. split_and!; reflexivity. Qed.

Lemma capability_operation_gated_witness :
  let req := mkInvokeOperation "github" (mkScopeRef "" "") "repo.read" ∅ "id-1" "" "" "" ∅ demo_retry ∅ in
  let run granted := demo_capability (demo_ops granted) (demo_env 400) demo_attempt demo_connected req demo_world in
  co_Executed (run ["repo"]).1.1 = true ∧ length (ow_sent (run ["repo"]).2) = 2 ∧
  co_Executed (run []).1.1 = false ∧ (run []).2 = demo_world.
Proof.
  intros req run. split; [vm_compute; reflexivity|]. split; [vm_compute; reflexivity|]. split; [vm_compute; reflexivity|].
  destruct (capability_operation_gated (demo_methods ["repo"]) (λ _, "") (λ s, s) (λ k s, s) (λ _ _, "") no_dates
    (λ u, u_Path u) demo_parse demo_print (λ s, s) (λ _, None) demo_resolver (demo_ops []) (demo_env 400) demo_attempt demo_connected req demo_world
    (demo_evaluator []) (run []).1.1 (run []).1.2 (run []).2) as [_ Hdenied]; [reflexivity|rewrite <-!surjective_pairing; reflexivity|].
  assert (Ha : match (InvokeCapability (λ _, "") (ops_service (demo_ops [])) (demo_env 400)
    (mkInvoke "github" (mkScopeRef "" "") "repo.read" ∅ "id-1") demo_connected).1 with
    | Ok d => cr_Allowed d = false | Fail _ => False end) by (vm_compute; reflexivity).
  destruct (InvokeCapability _ _ _ _ _).1 as [d|] eqn:Hd in Ha; [|destruct Ha]. by destruct (Hdenied d Hd Ha) as (_ & _ & Hw).
Defined.

Lemma throttled_operation_waits_witness :
  let key := mkRateLimitKey " GitHub" "user" "u1" "repos.list" in
  let p := policy_with demo_policy (items_after (AfterCall no_dates demo_policy 100 key (response 429 ∅))) in
  ∃ result err w', demo_execute (demo_ops []) (demo_env 400) demo_attempt demo_connected demo_operation (mkOpWorld p [] []) =
    (result, Some err, w') ∧ or_Attempts result = 3%Z ∧ ow_sent w' = [].
Proof.
  intros key p.
  destruct (resolveProviderOperationRequest (demo_methods ["repo"]) (λ s, s) demo_parse demo_print (λ _, None) (demo_ops []) (demo_env 400)
    demo_connected demo_operation) as [rv|] eqn:Hrv; [|vm_compute in Hrv; discriminate Hrv].
  assert (Hkey : rv_rateLimitEnabled rv = true ∧ normalizeKey (rv_rateLimitKey rv) = normalizeKey key)
    by (vm_compute in Hrv; injection Hrv as <-; split; vm_compute; reflexivity).
  destruct (throttled_operation_waits (demo_methods ["repo"]) (λ s, s) (λ k s, s) (λ _ _, "") no_dates (λ u, u_Path u) demo_parse demo_print
    (λ s, s) (λ _, "") (λ _, None) (demo_ops []) (demo_env 400) demo_attempt demo_connected demo_operation rv demo_policy ∅ 100 key
    (response 429 ∅) [] []) as (result & err & w' & Hex & Hsent & _);
    [exact Hrv|apply Hkey|apply Hkey|reflexivity|exact empty_keyed|reflexivity|intros n; vm_compute; reflexivity|].
  exists result, err, w'. split; [exact Hex|]. split; [|exact Hsent].
  transitivity (or_Attempts (result, Some err, w').1.1); [reflexivity|]. rewrite <-Hex. vm_compute. reflexivity.
Defined.

Lemma revoked_operation_fails_witness :
  let revoked := Revoke demo_service (demo_env 400) "id-1" "user" demo_connected in
  let ops := mkOpService demo_service true (Some BearerTokenSigner) None in
  revoked.1 = Ok tt ∧
  (demo_execute ops (demo_env 500) demo_attempt demo_connected demo_operation demo_world).1.2 = None ∧
  ∃ e, demo_execute ops (demo_env 500) demo_attempt revoked.2 demo_operation demo_world = (emptyOperationResult, Some e, demo_world).
Proof.
  intros revoked ops. split; [vm_compute; reflexivity|]. split; [vm_compute; reflexivity|].
  apply (revoked_operation_fails (demo_methods ["repo"]) (λ s, s) (λ k s, s) (λ _ _, "") no_dates (λ u, u_Path u) demo_parse demo_print
    (λ s, s) (λ _, None) ops (demo_env 400) "id-1" "user" demo_connected revoked.2);
    [reflexivity|reflexivity|vm_compute; reflexivity|vm_compute; reflexivity|reflexivity].
Defined.

(** The order in which a map is visited, reversed. *)
Definition reverse_range : MapRange :=
  {| map_range := λ A m, reverse (map_to_list m); map_range_perm := λ A m, reverse_Permutation (map_to_list m) |}.

Lemma idempotency_key_stable_witness :
  let request := demo_transport {[ "page" := "1"; "sort" := "asc" ]} in
  let key MR := generateIdempotencyKey (MR := MR) (λ s, s) demo_parse demo_print "github" "id-1" "repos.list" request in
  distinct_keys (tr_Query request) ∧ key key_order_range = key reverse_range.
Proof.
  intros request key.
  assert (Hd : distinct_keys (tr_Query request)).
  { intros k1 k2 H1%elem_of_dom H2%elem_of_dom. revert H1 H2. simpl.
    rewrite !dom_insert_L, !dom_singleton_L. rewrite !elem_of_union, !elem_of_singleton.
    intros [->| ->] [->| ->] E; done. }
  split; [exact Hd|]. by apply (idempotency_key_stable key_order_range reverse_range).
Defined.

(** Query keys that are the same up to surrounding space overwrite each other in the order the map is visited in, so that two attempts of one
    request may get two keys. *)
Example idempotency_key_order :
  let request := demo_transport {[ "page" := "1"; "page " := "2" ]} in
  let key MR := generateIdempotencyKey (MR := MR) (λ s, s) demo_parse demo_print "github" "id-1" "repos.list" request in
  key key_order_range ≠ key reverse_range.
Proof. vm_compute. discriminate. Qed.
End demo.
