(* ===== verification/RateLimitStores.v ===== *)
(** * Rate limit state in the database (src/store/sql/rate_limit_state_store.go, cached_rate_limit_state_store.go)

    The SQL store of rate limit states and the cache in front of it, both implementations of the interface [StateStore] of
    src/ratelimit/policy.go.  The repository library and the cache service are known by what the stores rely on: a row is
    found by its natural key, an upsert replaces it or inserts it, and the cache forgets what it likes. *)

From S2P Require Import Prelude GoStrings GoValues GoURL GoHTTP Domain Contracts Backoff RateLimit.
From Stdlib Require Import ZArith NArith Ascii String Lia.
From stdpp Require Import base decidable list gmap strings.

Local Open Scope string_scope.
Local Open Scope nat_scope.
Local Open Scope list_scope.

(** What [AfterCall] does with its store. *)
Lemma AfterCall_store {MR : MapRange} {S} {store : StateStore S} time_Parse (p : AdaptivePolicy S) (s : S) now key res :
  pol_Store p = Some s →
  AfterCall time_Parse p now key res =
    let upsert state := let (r, s') := ss_Upsert s (updated_state time_Parse p state now res) in (r, Some s') in
    match ss_Get s (normalizeKey key) with
    | Ok state => upsert state
    | Fail ErrStateNotFound => upsert (emptyState (normalizeKey key))
    | Fail e => (Fail e, Some s)
    end.
Proof. intros Hs. unfold AfterCall. by rewrite Hs. Qed.

(** ** Rows *)

Record rateLimitStateRecord := mkRateRow {
  rr_ID : string; rr_ProviderID : string; rr_ScopeType : string; rr_ScopeID : string; rr_BucketKey : string;
  rr_Limit : Z; rr_Remaining : Z; rr_ResetAt : option Time; rr_RetryAfter : option Z; rr_Metadata : gmap string value;
  rr_CreatedAt : Time; rr_UpdatedAt : Time }.

Definition stateMetaAttempts := "_attempts".
Definition stateMetaLastStatus := "_last_status".
Definition stateMetaThrottledUntil := "_throttled_until".
Definition RFC3339Nano := "2006-01-02T15:04:05.999999999Z07:00".

Definition normalizeRateLimitKey (key : RateLimitKey) : RateLimitKey :=
  mkRateLimitKey (lowerTrim (rk_ProviderID key)) (lowerTrim (rk_ScopeType key)) (TrimSpace (rk_ScopeID key)) (lowerTrim (rk_BucketKey key)).

Definition validateRateLimitKey (key : RateLimitKey) : outcome rate_error unit :=
  if blank (rk_ProviderID key) then Fail (ErrStore "sqlstore: rate-limit provider id is required")
  else if blank (rk_ScopeType key) then Fail (ErrStore "sqlstore: rate-limit scope type is required")
  else if blank (rk_ScopeID key) then Fail (ErrStore "sqlstore: rate-limit scope id is required")
  else if blank (rk_BucketKey key) then Fail (ErrStore "sqlstore: rate-limit bucket key is required")
  else Ok tt.

(** The unique key of the table. *)
Definition row_key (key : RateLimitKey) : string * string * string * string :=
  (rk_ProviderID key, rk_ScopeType key, rk_ScopeID key, rk_BucketKey key).
Abbreviation rate_table := (gmap (string * string * string * string) rateLimitStateRecord).

Definition durationToSecondsPointer (input : option Duration) : option Z :=
  match input with
  | None => None
  | Some d =>
    if (d <=? 0)%Z then None
    else let seconds := Z.quot d Second in Some (if (seconds <=? 0)%Z then 1%Z else seconds)
  end.

(** A float is truncated; [oor] is the result of a conversion out of range. *)
Definition float_to_int (oor m e : Z) : Z :=
  let z := if (0 <=? e)%Z then (m * 2 ^ e)%Z else Z.quot m (2 ^ (- e)) in
  if in_int64b z then z else oor.

Definition read_int (oor : Z) (raw : value) : option Z :=
  match raw with
  | VInt IntK z | VInt Int64K z => Some z
  | VFloat64 m e _ => Some (float_to_int oor m e)
  | VString s => Atoi (TrimSpace s)
  | _ => None
  end.

Definition readIntMetadata (oor : Z) (metadata : gmap string value) (key : string) : option Z := metadata !! key ≫= read_int oor.

Section sql.
Variable time_Parse : string → string → option Time.
Variable time_Format : Time → string → string.
(** What a JSON column reads back, and which errors are those of a duplicated key. *)
Variable json_column : gmap string value → gmap string value.
Variable isDuplicatedKey : string → bool.
Variable oor : Z.

Definition parseTimeMetadata (input : value) : option Time :=
  match input with
  | VString s => time_Parse RFC3339Nano (TrimSpace s)
  | _ => None
  end.

Definition rate_toDomain (r : rateLimitStateRecord) : State :=
  let metadata := copyAnyMap (rr_Metadata r) in
  let retryAfter := match rr_RetryAfter r with
                    | Some s => if (0 <? s)%Z then Some (wrap64 (s * Second)) else None
                    | None => None
                    end in
  let '(attempts, metadata) := match readIntMetadata oor metadata stateMetaAttempts with
                               | Some n => (n, delete stateMetaAttempts metadata) | None => (0%Z, metadata) end in
  let '(status, metadata) := match readIntMetadata oor metadata stateMetaLastStatus with
                             | Some n => (n, delete stateMetaLastStatus metadata) | None => (0%Z, metadata) end in
  let '(until, metadata) := match metadata !! stateMetaThrottledUntil with
                            | Some raw => (parseTimeMetadata raw, delete stateMetaThrottledUntil metadata)
                            | None => (None, metadata) end in
  mkState (mkRateLimitKey (rr_ProviderID r) (rr_ScopeType r) (rr_ScopeID r) (rr_BucketKey r)) (rr_Limit r) (rr_Remaining r)
    (rr_ResetAt r) retryAfter until status attempts (rr_UpdatedAt r) metadata.

Definition composeRateLimitMetadata (st : State) : gmap string value :=
  let metadata := copyAnyMap (st_Metadata st) in
  let metadata := if (0 <? st_Attempts st)%Z then <[stateMetaAttempts := VInt IntK (st_Attempts st)]> metadata
                  else delete stateMetaAttempts metadata in
  let metadata := if (0 <? st_LastStatus st)%Z then <[stateMetaLastStatus := VInt IntK (st_LastStatus st)]> metadata
                  else delete stateMetaLastStatus metadata in
  match st_ThrottledUntil st with
  | Some until => <[stateMetaThrottledUntil := VString (time_Format until RFC3339Nano)]> metadata
  | None => delete stateMetaThrottledUntil metadata
  end.

Definition rateLimitStateFromDomain (uuid : string) (st : State) : rateLimitStateRecord :=
  let key := st_Key st in
  mkRateRow uuid (rk_ProviderID key) (rk_ScopeType key) (rk_ScopeID key) (rk_BucketKey key) (st_Limit st) (st_Remaining st)
    (st_ResetAt st) (durationToSecondsPointer (st_RetryAfter st)) (composeRateLimitMetadata st) (st_UpdatedAt st) (st_UpdatedAt st).

(** A row as a query returns it. *)
Definition read_row (r : rateLimitStateRecord) : rateLimitStateRecord :=
  mkRateRow (rr_ID r) (rr_ProviderID r) (rr_ScopeType r) (rr_ScopeID r) (rr_BucketKey r) (rr_Limit r) (rr_Remaining r) (rr_ResetAt r)
    (rr_RetryAfter r) (json_column (rr_Metadata r)) (rr_CreatedAt r) (rr_UpdatedAt r).

(** ** The store *)

Definition RateLimit_Get (t : rate_table) (env : CallEnv) (key : RateLimitKey) : outcome rate_error State :=
  let key := normalizeRateLimitKey key in
  match validateRateLimitKey key with
  | Fail e => Fail e
  | Ok _ =>
    match env_fault env 0 with
    | Some cause => Fail (ErrStore cause)
    | None => match t !! row_key key with
              | None => Fail ErrStateNotFound
              | Some r => Ok (rate_toDomain (read_row r))
              end
    end
  end.

(** The repository's upsert: the row of the key keeps its id and [created_at]. *)
Definition upsert_row (t : rate_table) (r : rateLimitStateRecord) : rate_table :=
  let key := (rr_ProviderID r, rr_ScopeType r, rr_ScopeID r, rr_BucketKey r) in
  <[key := match t !! key with
           | Some old => mkRateRow (rr_ID old) (rr_ProviderID r) (rr_ScopeType r) (rr_ScopeID r) (rr_BucketKey r) (rr_Limit r)
                           (rr_Remaining r) (rr_ResetAt r) (rr_RetryAfter r) (rr_Metadata r) (rr_CreatedAt old) (rr_UpdatedAt r)
           | None => r
           end]> t.

(** A duplicated key (another worker inserted the row in between) is tried once more. *)
Definition RateLimit_Upsert (t : rate_table) (env : CallEnv) (st : State) : outcome rate_error unit * rate_table :=
  let st := set_key st (normalizeRateLimitKey (st_Key st)) in
  match validateRateLimitKey (st_Key st) with
  | Fail e => (Fail e, t)
  | Ok _ =>
    let updatedAt := if IsZero (st_UpdatedAt st) then env_now env else st_UpdatedAt st in
    let st := mkState (st_Key st) (st_Limit st) (st_Remaining st) (st_ResetAt st) (st_RetryAfter st) (st_ThrottledUntil st)
                (st_LastStatus st) (st_Attempts st) updatedAt (copyAnyMap (st_Metadata st)) in
    let record := rateLimitStateFromDomain (env_uuid env) st in
    match env_fault env 1 with
    | None => (Ok tt, upsert_row t record)
    | Some cause =>
      if negb (isDuplicatedKey cause) then (Fail (ErrStore cause), t)
      else match env_fault env 2 with
           | None => (Ok tt, upsert_row t record)
           | Some cause => (Fail (ErrStore cause), t)
           end
    end
  end.

(** The store with the environment of its next call. *)
Record SqlStateStore := mkSqlStore { sr_table : rate_table; sr_env : CallEnv }.

#[export] Instance SqlStateStore_store : StateStore SqlStateStore := {|
  ss_Get := λ s key, RateLimit_Get (sr_table s) (sr_env s) key;
  ss_Upsert := λ s st, let (o, t) := RateLimit_Upsert (sr_table s) (sr_env s) st in (o, mkSqlStore t (sr_env s)) |}.

(** ** What is read back *)

(** What the code relies on of a JSON column: numbers that a float holds exactly, strings, and absent keys. *)
Record json_reads : Prop := {
  json_int : ∀ m k n, m !! k = Some (VInt IntK n) → (0 ≤ n ≤ 2 ^ 53)%Z → ∃ v, json_column m !! k = Some v ∧ read_int oor v = Some n;
  json_string : ∀ m k s, m !! k = Some (VString s) → json_column m !! k = Some (VString s);
  json_absent : ∀ m k, m !! k = None → json_column m !! k = None }.
(** The times that RFC 3339 can print: up to the end of the year 9999. *)
Definition printable (t : Time) : Prop := (0 ≤ t < 315537897600 * Second)%Z.
Definition nanos_roundtrip : Prop := ∀ t, printable t → time_Parse RFC3339Nano (TrimSpace (time_Format t RFC3339Nano)) = Some t.
Definition printable_state (st : State) : Prop := ∀ u, st_ThrottledUntil st = Some u → printable u.

(** What the policy reads of a state. *)
Definition same_limits (a b : State) : Prop :=
  st_Key a = st_Key b ∧ st_Limit a = st_Limit b ∧ st_Remaining a = st_Remaining b ∧ st_ResetAt a = st_ResetAt b ∧
  st_ThrottledUntil a = st_ThrottledUntil b ∧ st_Attempts a = st_Attempts b.

#[export] Instance same_limits_equiv : Equivalence same_limits.
Proof. split; unfold same_limits; intros ?*; naive_solver congruence. Qed.

Lemma from_toDomain st uuid : json_reads → nanos_roundtrip → printable_state st → (0 ≤ st_Attempts st ≤ 2 ^ 53)%Z →
  same_limits (rate_toDomain (read_row (rateLimitStateFromDomain uuid st))) st.
Proof.
  intros HJ HN HP Ha. unfold rate_toDomain. simpl rr_Metadata. unfold copyAnyMap. set (m := composeRateLimitMetadata st).
  assert (Hatt : readIntMetadata oor (json_column m) stateMetaAttempts = (if (0 <? st_Attempts st)%Z then Some (st_Attempts st) else None)).
  { unfold readIntMetadata.
    assert (Hm : m !! stateMetaAttempts = if (0 <? st_Attempts st)%Z then Some (VInt IntK (st_Attempts st)) else None).
    { subst m. unfold composeRateLimitMetadata. destruct (st_ThrottledUntil st); [rewrite lookup_insert_ne by done|rewrite lookup_delete_ne by done];
        (destruct (0 <? st_LastStatus st)%Z; [rewrite lookup_insert_ne by done|rewrite lookup_delete_ne by done]);
        (destruct (0 <? st_Attempts st)%Z; [apply lookup_insert_eq|apply lookup_delete_eq]). }
    destruct (0 <? st_Attempts st)%Z; [|by rewrite (json_absent HJ _ _ Hm)].
    destruct (json_int HJ _ _ _ Hm Ha) as (v & -> & Hv). done. }
  assert (Hunt : json_column m !! stateMetaThrottledUntil = (λ u, VString (time_Format u RFC3339Nano)) <$> st_ThrottledUntil st).
  { subst m. unfold composeRateLimitMetadata. destruct (st_ThrottledUntil st); simpl.
    - apply (json_string HJ). apply lookup_insert_eq.
    - apply (json_absent HJ). apply lookup_delete_eq. }
  rewrite Hatt. destruct (Z.ltb_spec 0 (st_Attempts st));
    (destruct (readIntMetadata _ _ stateMetaLastStatus); rewrite ?lookup_delete_ne, Hunt by done;
     destruct (st_ThrottledUntil st) as [u|] eqn:Eu; unfold same_limits; simpl; rewrite ?HN, ?Eu by (by apply HP);
     destruct (st_Key st); simpl; (split_and!; try done; lia)).
Qed.

(** ** The policy over both stores *)

Context {MR : MapRange}.
Abbreviation call := (Time * RateLimitKey * ProviderResponseMeta)%type.
Abbreviation policy := (AdaptivePolicy MemoryStateStore).
Implicit Types (p : policy) (items : MemoryStateStore) (t : rate_table).

Definition sql_policy p t (now : Time) : AdaptivePolicy SqlStateStore := mkPolicy (Some (mkSqlStore t (quiet now ""))) (pol_Backoff p).
Definition sql_after_step p t (c : call) : rate_table :=
  match (AfterCall time_Parse (sql_policy p t c.1.1) c.1.1 c.1.2 c.2).2 with Some s => sr_table s | None => t end.
Definition sql_after_run p : rate_table → list call → rate_table := foldl (sql_after_step p).

(** A key the database accepts and the in-memory store keeps apart from others. *)
Definition usable_key (key : RateLimitKey) : Prop :=
  validateRateLimitKey (normalizeKey key) = Ok tt ∧ plain_key (normalizeKey key).

(** The state of a bucket in the table. *)
Definition sql_bucket t (key : RateLimitKey) : State :=
  default (emptyState (normalizeKey key)) (rate_toDomain ∘ read_row <$> t !! row_key (normalizeKey key)).

(** Rows carry their key, and both stores have the same buckets. *)
Definition stores_agree (n : Z) items t : Prop :=
  keyed items ∧ ∀ key, usable_key key →
    (is_Some (items !! stateKey (normalizeKey key)) ↔ is_Some (t !! row_key (normalizeKey key))) ∧
    same_limits (sql_bucket t key) (bucket items key) ∧ (0 ≤ st_Attempts (bucket items key) ≤ n)%Z ∧
    st_Key (bucket items key) = normalizeKey key.

Lemma normalizeRateLimitKey_eq key : normalizeRateLimitKey key = normalizeKey key.
Proof. done. Qed.

Lemma row_key_inj k1 k2 : row_key k1 = row_key k2 → k1 = k2.
Proof. destruct k1, k2. unfold row_key. simpl. congruence. Qed.

Lemma updated_state_same p (q : AdaptivePolicy SqlStateStore) a b now res : pol_Backoff p = pol_Backoff q → same_limits b a →
  same_limits (updated_state time_Parse q b now res) (updated_state time_Parse p a now res).
Proof.
  intros Hp (Hk & Hl & Hr & Hre & Hu & Ha). unfold updated_state. rewrite Hk, Hl, Hr, Hre, Ha, Hp.
  destruct (isThrottledResponse _ _ _ _ _ _); unfold same_limits; simpl; auto 10.
Qed.

Lemma Get_bucket t now uuid key : validateRateLimitKey (normalizeKey key) = Ok tt →
  RateLimit_Get t (quiet now uuid) (normalizeKey key) =
    match t !! row_key (normalizeKey key) with Some _ => Ok (sql_bucket t key) | None => Fail ErrStateNotFound end.
Proof.
  intros Hv. unfold RateLimit_Get. rewrite normalizeRateLimitKey_eq, normalizeKey_idem, Hv. simpl env_fault. unfold sql_bucket.
  by destruct (t !! row_key (normalizeKey key)).
Qed.

Lemma missing_bucket t key : t !! row_key (normalizeKey key) = None → sql_bucket t key = emptyState (normalizeKey key).
Proof. unfold sql_bucket. by intros ->. Qed.

(** What a bucket answers before a call. *)
Lemma sql_BeforeCall p t now at_ key : validateRateLimitKey (normalizeKey key) = Ok tt →
  BeforeCall (sql_policy p t now) at_ key =
    match blocked_until (sql_bucket t key) at_ with
    | Some until => Fail (ErrThrottled (mkThrottled (rk_ProviderID (st_Key (sql_bucket t key)))
        (rk_BucketKey (st_Key (sql_bucket t key))) (subTime until at_)))
    | None => Ok tt
    end.
Proof.
  intros Hv. unfold BeforeCall.
  change (pol_Store (sql_policy p t now)) with (Some (mkSqlStore t (quiet now ""))). cbv iota.
  change (ss_Get (mkSqlStore t (quiet now "")) (normalizeKey key)) with (RateLimit_Get t (quiet now "") (normalizeKey key)).
  rewrite Get_bucket by done. destruct (t !! row_key (normalizeKey key)) eqn:E; [|by rewrite missing_bucket].
  generalize (sql_bucket t key). intros st. unfold blocked_until. by repeat case_match.
Qed.

Lemma sql_AfterCall p t now key res : validateRateLimitKey (normalizeKey key) = Ok tt →
  sql_after_step p t (now, key, res) = (RateLimit_Upsert t (quiet now "") (updated_state time_Parse (sql_policy p t now) (sql_bucket t key) now res)).2.
Proof.
  intros Hv. unfold sql_after_step. rewrite (AfterCall_store _ _ (mkSqlStore t (quiet now ""))) by done. cbn [fst snd].
  change (ss_Get (mkSqlStore t (quiet now "")) (normalizeKey key)) with (RateLimit_Get t (quiet now "") (normalizeKey key)).
  rewrite Get_bucket by done.
  assert (Hup : ∀ st, (let (r, s') := ss_Upsert (mkSqlStore t (quiet now "")) st in (r, Some s')).2 =
    Some (mkSqlStore (RateLimit_Upsert t (quiet now "") st).2 (quiet now ""))).
  { intros st. change (ss_Upsert (mkSqlStore t (quiet now "")) st) with
      (let (o, t') := RateLimit_Upsert t (quiet now "") st in (o, mkSqlStore t' (quiet now ""))).
    by destruct (RateLimit_Upsert t (quiet now "") st). }
  destruct (t !! row_key (normalizeKey key)) eqn:E; rewrite Hup; [done|]. by rewrite missing_bucket.
Qed.

(** The row an upsert leaves is read back with the limits of the state. *)
Lemma Upsert_reads t now st : json_reads → nanos_roundtrip → normalizeKey (st_Key st) = st_Key st →
  validateRateLimitKey (st_Key st) = Ok tt → printable_state st → (0 ≤ st_Attempts st ≤ 2 ^ 53)%Z →
  ∃ r, (RateLimit_Upsert t (quiet now "") st).2 = <[row_key (st_Key st) := r]> t ∧ same_limits (rate_toDomain (read_row r)) st.
Proof.
  intros HJ HN Hn Hv HP Ha. unfold RateLimit_Upsert. rewrite normalizeRateLimitKey_eq. cbn [st_Key set_key]. rewrite Hn, Hv.
  cbn [env_fault quiet snd]. unfold upsert_row. cbn [rateLimitStateFromDomain rr_ProviderID rr_ScopeType rr_ScopeID rr_BucketKey st_Key].
  eexists. split; [reflexivity|].
  set (st' := mkState _ _ _ _ _ _ _ _ _ _).
  assert (Hs : same_limits st' st) by (unfold same_limits; auto 10).
  assert (Hd : same_limits (rate_toDomain (read_row (rateLimitStateFromDomain "" st'))) st')
    by (by apply from_toDomain).
  etransitivity; [|exact Hs]. destruct (t !! _) as [old|]; exact Hd.
Qed.

Lemma agree_step n p items t c : json_reads → nanos_roundtrip → (n < 2 ^ 53)%Z → (0 ≤ n)%Z → usable_key c.1.2 →
  printable_state (bucket (after_step time_Parse p items c) c.1.2) → stores_agree n items t → stores_agree (n + 1) (after_step time_Parse p items c) (sql_after_step p t c).
Proof.
  destruct c as [[now key] res]. cbn [fst snd]. intros HJ HN Hn Hn0 Hu HP [Hk Hag]. pose proof Hu as [Hv Hplain].
  destruct (Hag key Hu) as (Hsome & Hsame & Hatt & Hkey).
  destruct (AfterCall_items time_Parse (policy_with p items) items now key res eq_refl Hk) as [Hitems Hkeyed].
  unfold after_step. cbn [fst snd]. split; [done|].
  set (st' := updated_state time_Parse (policy_with p items) (bucket items key) now res) in *.
  assert (Hst' : st_Key st' = normalizeKey key) by (subst st'; by rewrite updated_state_key, Hkey).
  assert (Hatt' : (0 ≤ st_Attempts st' ≤ n + 1)%Z).
  { subst st'. unfold updated_state. destruct (isThrottledResponse _ _ _ _ _ _); cbn [st_Attempts]; lia. }
  rewrite sql_AfterCall by done. set (sq := updated_state time_Parse (sql_policy p t now) (sql_bucket t key) now res).
  assert (Hsq : same_limits sq st') by (by apply updated_state_same).
  assert (Hsk : st_Key sq = normalizeKey key) by (destruct Hsq as [-> _]; done).
  assert (Hsa : st_Attempts sq = st_Attempts st') by (by destruct Hsq as (_ & _ & _ & _ & _ & ->)).
  assert (HPsq : printable_state sq).
  { unfold after_step in HP. cbn [fst snd] in HP. rewrite (bucket_after time_Parse _ items) in HP by done. intros u Hu2. apply HP. fold st'.
    destruct Hsq as (_ & _ & _ & _ & <- & _). done. }
  destruct (Upsert_reads t now sq HJ HN) as (r & Htab & Hr); [by rewrite Hsk, normalizeKey_idem|by rewrite Hsk|done|lia|].
  rewrite Htab, Hitems, Hsk. intros key' Hu'. pose proof Hu' as [Hv' Hplain'].
  destruct (decide (normalizeKey key' = normalizeKey key)) as [E|E].
  - unfold sql_bucket, bucket. rewrite E, !lookup_insert_eq. simpl. split_and!; try done; try lia. by etransitivity.
  - unfold sql_bucket, bucket. rewrite !lookup_insert_ne.
    + destruct (Hag key' Hu') as (? & ? & ? & ?). split_and!; try done; unfold bucket in *; lia.
    + intros Eq. apply E. symmetry. by apply row_key_inj.
    + intros Eq. apply E. symmetry. by apply stateKey_inj.
Qed.

Lemma agree_run p calls : json_reads → nanos_roundtrip → ∀ n items t,
  Forall (λ c : call, usable_key c.1.2) calls → (∀ l key, l `prefix_of` calls → printable_state (bucket (after_run time_Parse p items l) key)) →
  (0 ≤ n)%Z → (n + Z.of_nat (length calls) ≤ 2 ^ 53)%Z → stores_agree n items t →
  stores_agree (n + Z.of_nat (length calls)) (after_run time_Parse p items calls) (sql_after_run p t calls).
Proof.
  intros HJ HN. induction calls as [|c calls IH]; intros n items t Hu HP Hn Hl Hag; cbn [length] in *.
  - by rewrite Z.add_0_r.
  - apply Forall_cons in Hu as [Hc Hu]. unfold after_run, sql_after_run. cbn [foldl].
    replace (n + Z.of_nat (S (length calls)))%Z with ((n + 1) + Z.of_nat (length calls))%Z by lia.
    apply IH; [done| |lia|lia|].
    + intros l key Hl'. apply (HP (c :: l)). by apply prefix_cons.
    + apply agree_step; auto; [lia|]. apply (HP [c]). apply prefix_cons, prefix_nil.
Qed.

(** C23: the adaptive policy decides the same over the database as over the in-memory store.  After any history of provider responses (up to
    2^53 of them, for keys that the database accepts and the in-memory store does not confuse), [BeforeCall] answers every such
    key alike over both stores, with the same retry hint, although the database keeps the attempts and the end of the throttling in a JSON
    column and rounds the retry hint to seconds.  No throttling may last beyond the year 9999, which RFC 3339 cannot print. *)
Theorem sql_store_agrees p calls key now at_ :
  json_reads → nanos_roundtrip → Forall (λ c : call, usable_key c.1.2) calls → (Z.of_nat (length calls) ≤ 2 ^ 53)%Z →
  (∀ l k, l `prefix_of` calls → printable_state (bucket (after_run time_Parse p ∅ l) k)) → usable_key key →
  BeforeCall (sql_policy p (sql_after_run p ∅ calls) now) at_ key =
  BeforeCall (policy_with p (after_run time_Parse p ∅ calls)) at_ key.
Proof.
  intros HJ HN Hu Hl HP Hkey.
  assert (H0 : stores_agree 0 ∅ ∅).
  { split; [intros k st; by rewrite lookup_empty|]. intros k Hk. unfold sql_bucket, bucket. rewrite !lookup_empty. simpl.
    split_and!; try done; lia. }
  apply (agree_run p calls HJ HN 0) in H0; [|done|done|lia|lia]. destruct H0 as [_ Hag]. destruct (Hag key Hkey) as (_ & Hs & _).
  rewrite sql_BeforeCall by apply Hkey. rewrite (BeforeCall_bucket _ (after_run time_Parse p ∅ calls)) by done.
  destruct Hs as (Hk & Hli & Hre & Hrs & Hun & Hat). unfold blocked_until. by rewrite Hk, Hre, Hrs, Hun.
Qed.
End sql.

(** ** The cached store *)

Definition rateLimitStateCacheKeyPrefix := "go-services::ratelimit_state::v1".

Definition RateLimitStateCacheKey (key : RateLimitKey) : outcome rate_error string :=
  let normalized := normalizeRateLimitKey key in
  match validateRateLimitKey normalized with
  | Fail e => Fail e
  | Ok _ => Ok (GoHTTP.Join "::" (rateLimitStateCacheKeyPrefix :: (PathEscape <$>
      [rk_ProviderID normalized; rk_ScopeType normalized; rk_ScopeID normalized; rk_BucketKey normalized])))
  end.

Definition cloneRateLimitState (st : State) : State := set_key st (normalizeRateLimitKey (st_Key st)).

(** The laws of a state store: on the keys it keeps apart, writing a state changes no other bucket, and a failed write changes
    nothing. *)
Class StateStoreLaws (S : Type) {store : StateStore S} := {
  ssl_domain : RateLimitKey → Prop;
  ssl_frame : ∀ s st s' o key, ss_Upsert s st = (o, s') → ssl_domain key → ssl_domain (st_Key st) →
    normalizeKey key ≠ normalizeKey (st_Key st) → ss_Get s' key = ss_Get s key;
  ssl_failed : ∀ s st s' e, ss_Upsert s st = (Fail e, s') → s' = s }.

#[export] Program Instance MemoryStateStore_laws : StateStoreLaws MemoryStateStore := {|
  ssl_domain := λ key, plain_key (normalizeKey key) |}.
Next Obligation.
  intros items st items' o key [= <- <-] Hk Hst Hne. simpl. unfold State_Get. rewrite lookup_insert_ne; [done|].
  intros E. apply Hne. symmetry. by apply stateKey_inj.
Qed.
Next Obligation. by intros items st items' e [= ? ?]. Qed.

#[export] Program Instance SqlStateStore_laws time_Parse time_Format json_column isDuplicatedKey oor :
  StateStoreLaws SqlStateStore (store := SqlStateStore_store time_Parse time_Format json_column isDuplicatedKey oor) := {|
  ssl_domain := λ _, True |}.
Next Obligation.
  intros time_Parse time_Format json_column isDuplicatedKey oor s st s' o key Hup _ _ Hne. cbn [ss_Get ss_Upsert SqlStateStore_store] in *.
  unfold RateLimit_Upsert in Hup. destruct (validateRateLimitKey _); [|by injection Hup as <- <-].
  set (row := rateLimitStateFromDomain _ _ _) in Hup.
  assert (Hrow : (rr_ProviderID row, rr_ScopeType row, rr_ScopeID row, rr_BucketKey row) = row_key (normalizeKey (st_Key st))) by done.
  assert (Hget : RateLimit_Get time_Parse json_column oor (upsert_row (sr_table s) row) (sr_env s) key =
    RateLimit_Get time_Parse json_column oor (sr_table s) (sr_env s) key).
  { unfold RateLimit_Get, upsert_row. rewrite Hrow, lookup_insert_ne; [done|]. intros E%row_key_inj. by apply Hne. }
  destruct (env_fault (sr_env s) 1) as [cause|]; [|by injection Hup as <- <-].
  destruct (isDuplicatedKey cause); [|by injection Hup as <- <-]. simpl in Hup.
  destruct (env_fault (sr_env s) 2); by injection Hup as <- <-.
Qed.
Next Obligation.
  intros time_Parse time_Format json_column isDuplicatedKey oor s st s' e Hup. cbn [ss_Upsert SqlStateStore_store] in *.
  unfold RateLimit_Upsert in Hup. destruct s as [t env]. simpl in *. repeat (case_match; simplify_eq/=); done.
Qed.

Section cached.
Context {S : Type} {store : StateStore S}.

(** The store behind and the entries of the cache service. *)
Record CachedRateLimitStateStore := mkCached { ch_base : S; ch_cache : gmap string State }.

(** [GetOrFetch] returns the entry of the key, or fetches it and keeps it; a failed fetch is not kept. *)
Definition fetched (s : S) (normalized : RateLimitKey) : outcome rate_error State :=
  match ss_Get s normalized with
  | Fail e => Fail e
  | Ok st => Ok (cloneRateLimitState (set_key st (normalizeRateLimitKey (st_Key st))))
  end.

Definition Cached_Get (c : CachedRateLimitStateStore) (key : RateLimitKey) : outcome rate_error State * CachedRateLimitStateStore :=
  let normalized := normalizeRateLimitKey key in
  match RateLimitStateCacheKey normalized with
  | Fail e => (Fail e, c)
  | Ok cacheKey =>
    match ch_cache c !! cacheKey with
    | Some st => (Ok (cloneRateLimitState st), c)
    | None =>
      match fetched (ch_base c) normalized with
      | Fail e => (Fail e, c)
      | Ok st => (Ok (cloneRateLimitState st), mkCached (ch_base c) (<[cacheKey := st]> (ch_cache c)))
      end
    end
  end.

(** [fault] is the error of [cache.Delete]. *)
Definition Cached_Upsert (c : CachedRateLimitStateStore) (fault : option string) (st : State)
    : outcome rate_error unit * CachedRateLimitStateStore :=
  let st := set_key st (normalizeRateLimitKey (st_Key st)) in
  match validateRateLimitKey (st_Key st) with
  | Fail e => (Fail e, c)
  | Ok _ =>
    let (o, base) := ss_Upsert (ch_base c) st in
    match o with
    | Fail e => (Fail e, mkCached base (ch_cache c))
    | Ok _ =>
      match RateLimitStateCacheKey (st_Key st) with
      | Fail e => (Fail e, mkCached base (ch_cache c))
      | Ok cacheKey =>
        match fault with
        | Some cause => (Fail (ErrStore cause), mkCached base (ch_cache c))
        | None => (Ok tt, mkCached base (delete cacheKey (ch_cache c)))
        end
      end
    end
  end.

(** ** The cache is not seen *)

Definition colon_free (s : string) : Prop := Forall (λ c, Ascii.eqb c ":" = false) (list_ascii_of_string s).
Definition colon_free_key (k : RateLimitKey) : Prop :=
  colon_free (rk_ProviderID k) ∧ colon_free (rk_ScopeType k) ∧ colon_free (rk_ScopeID k) ∧ colon_free (rk_BucketKey k).

Lemma cache_key_inj k1 k2 c : colon_free_key (normalizeKey k1) → colon_free_key (normalizeKey k2) →
  RateLimitStateCacheKey k1 = Ok c → RateLimitStateCacheKey k2 = Ok c → normalizeKey k1 = normalizeKey k2.
Proof.
  unfold RateLimitStateCacheKey. intros H1 H2. destruct (validateRateLimitKey _) as [[]|]; [|done]. destruct (validateRateLimitKey _) as [[]|]; [|done].
  rewrite (normalizeRateLimitKey_eq k1), (normalizeRateLimitKey_eq k2). generalize dependent (normalizeKey k2). generalize dependent (normalizeKey k1).
  intros [p1 t1 i1 b1] (Hp1 & Ht1 & Hi1 & Hb1) [p2 t2 i2 b2] (Hp2 & Ht2 & Hi2 & Hb2) E1 E2. simpl in *.
  assert (Hs : ∀ p t i b, colon_free p → colon_free t → colon_free i → colon_free b →
    SplitChar ":" (PathEscape p +:+ "::" +:+ PathEscape t +:+ "::" +:+ PathEscape i +:+ "::" +:+ PathEscape b) =
    [PathEscape p; ""; PathEscape t; ""; PathEscape i; ""; PathEscape b]).
  { intros p t i b Hp%PathEscape_colon Ht%PathEscape_colon Hi%PathEscape_colon Hb%PathEscape_colon.
    assert (Hsep : ∀ a rest, Forall (λ c, Ascii.eqb c ":" = false) (list_ascii_of_string a) →
      SplitChar ":" (a +:+ "::" +:+ rest) = a :: "" :: SplitChar ":" rest).
    { intros a rest Ha. change ("::" +:+ rest) with (String ":" (String ":" rest)). rewrite SplitChar_app by done. done. }
    by rewrite !Hsep, SplitChar_plain by done. }
  assert (E' : PathEscape p1 +:+ "::" +:+ PathEscape t1 +:+ "::" +:+ PathEscape i1 +:+ "::" +:+ PathEscape b1 =
    PathEscape p2 +:+ "::" +:+ PathEscape t2 +:+ "::" +:+ PathEscape i2 +:+ "::" +:+ PathEscape b2).
  { apply (inj (String.append "::")), (inj (String.append rateLimitStateCacheKeyPrefix)). congruence. }
  pose proof (Hs p1 t1 i1 b1 Hp1 Ht1 Hi1 Hb1) as S1. rewrite E', Hs in S1 by done. injection S1 as Ep Et Ei Eb.
  f_equal; by apply PathEscape_inj.
Qed.

Context {laws : StateStoreLaws S}.

Inductive cache_op := OpGet (key : RateLimitKey) | OpUpsert (st : State) | OpExpire (cacheKey : string).
Inductive cache_result := GotState (o : outcome rate_error State) | Upserted (o : outcome rate_error unit) | Expired.

Definition cached_exec (c : CachedRateLimitStateStore) (op : cache_op) : cache_result * CachedRateLimitStateStore :=
  match op with
  | OpGet key => let (o, c') := Cached_Get c key in (GotState o, c')
  | OpUpsert st => let (o, c') := Cached_Upsert c None st in (Upserted o, c')
  | OpExpire cacheKey => (Expired, mkCached (ch_base c) (delete cacheKey (ch_cache c)))
  end.

(** The same operations on the store behind the cache. *)
Definition base_exec (s : S) (op : cache_op) : cache_result * S :=
  match op with
  | OpGet key =>
    (GotState match validateRateLimitKey (normalizeKey key) with
              | Fail e => Fail e
              | Ok _ => match ss_Get s (normalizeKey key) with Fail e => Fail e | Ok st => Ok (cloneRateLimitState st) end
              end, s)
  | OpUpsert st =>
    let st := set_key st (normalizeKey (st_Key st)) in
    match validateRateLimitKey (st_Key st) with
    | Fail e => (Upserted (Fail e), s)
    | Ok _ => let (o, s') := ss_Upsert s st in (Upserted o, s')
    end
  | OpExpire _ => (Expired, s)
  end.

Fixpoint exec_all {T} (exec : T → cache_op → cache_result * T) (t : T) (ops : list cache_op) : list cache_result :=
  match ops with
  | [] => []
  | op :: ops => let (r, t') := exec t op in r :: exec_all exec t' ops
  end.

(** Keys that neither the store nor the cache confuses. *)
Definition separate (key : RateLimitKey) : Prop := ssl_domain (normalizeKey key) ∧ colon_free_key (normalizeKey key).
Definition separate_op (op : cache_op) : Prop :=
  match op with OpGet key => separate key | OpUpsert st => separate (st_Key st) | OpExpire _ => True end.

Definition coherent (c : CachedRateLimitStateStore) : Prop :=
  ∀ key cacheKey st, separate key → RateLimitStateCacheKey key = Ok cacheKey → ch_cache c !! cacheKey = Some st →
    fetched (ch_base c) (normalizeKey key) = Ok st.

Lemma cloneRateLimitState_idem st : cloneRateLimitState (cloneRateLimitState st) = cloneRateLimitState st.
Proof. unfold cloneRateLimitState. cbn [set_key st_Key]. rewrite !normalizeRateLimitKey_eq. by rewrite normalizeKey_idem. Qed.

Lemma fetched_clone s key : fetched s key = match ss_Get s key with Fail e => Fail e | Ok st => Ok (cloneRateLimitState st) end.
Proof. unfold fetched. destruct (ss_Get s key); [|done]. f_equal. apply cloneRateLimitState_idem. Qed.

Lemma cacheKey_normalized key : RateLimitStateCacheKey (normalizeKey key) = RateLimitStateCacheKey key.
Proof. unfold RateLimitStateCacheKey. rewrite !normalizeRateLimitKey_eq. by rewrite normalizeKey_idem. Qed.

Lemma coherent_get c key : coherent c → separate key →
  let '(r, c') := cached_exec c (OpGet key) in
  r = (base_exec (ch_base c) (OpGet key)).1 ∧ ch_base c' = ch_base c ∧ coherent c'.
Proof.
  intros Hc Hk. unfold cached_exec, base_exec, Cached_Get. rewrite !normalizeRateLimitKey_eq. cbn [fst]. rewrite cacheKey_normalized.
  destruct (RateLimitStateCacheKey key) as [ck|e] eqn:Hck.
  - assert (Hv : validateRateLimitKey (normalizeKey key) = Ok tt).
    { unfold RateLimitStateCacheKey in Hck. rewrite normalizeRateLimitKey_eq in Hck. by destruct (validateRateLimitKey _) as [[]|]. }
    rewrite Hv. destruct (ch_cache c !! ck) as [st|] eqn:Hst.
    + apply (Hc _ _ _ Hk Hck) in Hst as Hf. rewrite fetched_clone in Hf. split_and!; [|done|done].
      destruct (ss_Get _ _); [|done]. injection Hf as <-. by rewrite cloneRateLimitState_idem.
    + destruct (fetched (ch_base c) (normalizeKey key)) as [st|e] eqn:Hf; pose proof Hf as Hf'; rewrite fetched_clone in Hf'.
      * destruct (ss_Get _ _); [|done]. injection Hf' as <-. rewrite cloneRateLimitState_idem. split_and!; [done|done|].
        intros key' ck' st' Hk' Hck'. simpl. rewrite lookup_insert_Some. intros [[<- <-]|[Hne Hst']]; [|by eapply Hc].
        destruct Hk as [_ Hcol], Hk' as [_ Hcol']. by rewrite (cache_key_inj key' key ck).
      * destruct (ss_Get _ _); [done|]. injection Hf' as <-. by split_and!.
  - unfold RateLimitStateCacheKey in Hck. rewrite normalizeRateLimitKey_eq in Hck.
    destruct (validateRateLimitKey _); [done|]. injection Hck as <-. by split_and!.
Qed.

Lemma coherent_upsert c st : coherent c → separate (st_Key st) →
  let '(r, c') := cached_exec c (OpUpsert st) in
  r = (base_exec (ch_base c) (OpUpsert st)).1 ∧ ch_base c' = (base_exec (ch_base c) (OpUpsert st)).2 ∧ coherent c'.
Proof.
  intros Hc Hk. unfold cached_exec, base_exec, Cached_Upsert. rewrite normalizeRateLimitKey_eq.
  set (st' := set_key st (normalizeKey (st_Key st))). assert (Hst' : st_Key st' = normalizeKey (st_Key st)) by done. rewrite Hst'.
  destruct (validateRateLimitKey (normalizeKey (st_Key st))) as [[]|e] eqn:Hv; [|by split_and!].
  destruct (ss_Upsert (ch_base c) st') as [[[]|e] s'] eqn:Hup.
  - assert (Hkeyd : ∃ ck, RateLimitStateCacheKey (normalizeKey (st_Key st)) = Ok ck).
    { unfold RateLimitStateCacheKey. rewrite !normalizeRateLimitKey_eq. rewrite normalizeKey_idem, Hv. eauto. }
    destruct Hkeyd as [ck Hck]. rewrite Hck. split_and!; [done|done|].
    intros key' ck' e' Hk' Hck'. simpl. rewrite lookup_delete_Some. intros [Hne He'].
    rewrite <-(Hc _ _ _ Hk' Hck' He'), !fetched_clone. assert (Hn : normalizeKey key' ≠ normalizeKey (st_Key st)).
    { intros E. apply Hne. rewrite <-cacheKey_normalized, E, Hck in Hck'. congruence. }
    rewrite (ssl_frame _ _ _ _ (normalizeKey key') Hup); [done|apply Hk'|rewrite Hst'; apply Hk|].
    by rewrite Hst', !normalizeKey_idem.
  - rewrite (ssl_failed _ _ _ _ Hup). by split_and!.
Qed.

(** The cache is not seen.  Over any state store that keeps its keys apart, a sequence of reads, writes and expirations of cache
    entries gives, through the cached store, exactly the results of the same reads and writes on the store behind it: a write is visible
    to the next read, however long an entry was cached.  The parts of the keys must not contain colons. *)
Theorem cached_store_transparent (s : S) ops :
  Forall separate_op ops → exec_all cached_exec (mkCached s ∅) ops = exec_all base_exec s ops.
Proof.
  assert (Hgen : ∀ c, coherent c → Forall separate_op ops → exec_all cached_exec c ops = exec_all base_exec (ch_base c) ops);
    [|intros H; apply (Hgen (mkCached s ∅)); [|done]; intros key ck st _ _; simpl; by rewrite lookup_empty].
  induction ops as [|op ops IH]; intros c Hc Hops; [done|]. apply Forall_cons in Hops as [Hop Hops]. cbn [exec_all].
  destruct op as [key|st|ck].
  - pose proof (coherent_get c key Hc Hop) as Hg. destruct (cached_exec c (OpGet key)) as [r c'], (base_exec (ch_base c) (OpGet key)) as [r' s'] eqn:Hb.
    destruct Hg as (-> & Hbase & Hc'). simpl. injection Hb as <- <-. by rewrite IH, Hbase.
  - pose proof (coherent_upsert c st Hc Hop) as Hg. destruct (cached_exec c (OpUpsert st)) as [r c'], (base_exec (ch_base c) (OpUpsert st)) as [r' s'].
    destruct Hg as (-> & Hbase & Hc'). simpl in *. by rewrite IH, Hbase.
  - simpl. rewrite IH; [done| |done]. intros key ck' st Hk Hck. simpl. rewrite lookup_delete_Some. intros [_ ?]. by eapply Hc.
Qed.
End cached.

(** ** Evaluations *)

Section demo.
#[local] Existing Instance key_order_range.

(** Times printed as numbers, columns that keep their values. *)
Definition number_format (t : Time) (_ : string) : string := Itoa t.
Definition number_parse (_ s : string) : option Time := digits_value 0 s.

Lemma number_roundtrip : nanos_roundtrip number_parse number_format.
Proof.
  intros t [Ht _]. unfold number_parse, number_format.
  rewrite TrimSpace_visible by (by apply Itoa_visible). by apply digits_value_Itoa.
Qed.

Lemma plain_json : json_reads (λ m, m) 0.
Proof. split; [|done|done]. intros m k n Hm _. by eexists. Qed.

Definition key_a : RateLimitKey := mkRateLimitKey "GitHub" "org" "1" "api".

Lemma usable_a : usable_key key_a.
Proof. split; [reflexivity|]. repeat split; repeat constructor. Qed.

Lemma printable_a l k : l `prefix_of` [(100%Z, key_a, response 429 ∅)] →
  printable_state (bucket (after_run number_parse demo_policy ∅ l) k).
Proof.
  intros [l' Hl]. destruct l as [|c l].
  - intros u Hu. unfold bucket in Hu. cbn [after_run foldl] in Hu. by rewrite lookup_empty in Hu.
  - destruct l; [|done]. injection Hl as <- _. unfold bucket.
    change (after_run number_parse demo_policy ∅ [(100%Z, key_a, response 429 ∅)]) with
      (items_after (AfterCall number_parse (policy_with demo_policy ∅) 100 key_a (response 429 ∅))).
    set (items := items_after _). destruct (items !! stateKey (normalizeKey k)) as [st|] eqn:E; [|by intros u].
    assert (Hp : map_Forall (λ _ st, st_ThrottledUntil st = Some (100 + Second)%Z) items).
    { refine (bool_decide_unpack _ _). vm_compute. exact I. }
    intros u Hu. cbn [default from_option id] in Hu. rewrite (Hp _ _ E : st_ThrottledUntil _ = _) in Hu. injection Hu as <-. split; vm_compute; congruence.
Qed.

Lemma sql_store_agrees_witness :
  let t := sql_after_run number_parse number_format (λ m, m) (λ _, false) 0 demo_policy ∅ [(100%Z, key_a, response 429 ∅)] in
  BeforeCall (store := SqlStateStore_store number_parse number_format (λ m, m) (λ _, false) 0) (sql_policy demo_policy t 300) 300
    (mkRateLimitKey "github" "ORG" "1" "api") = Fail (ErrThrottled (mkThrottled "github" "api" (Second - 200))).
Proof.
  cbv zeta. etransitivity;
    [apply (sql_store_agrees number_parse number_format (λ m, m) (λ _, false) 0 demo_policy [(100%Z, key_a, response 429 ∅)]
       (mkRateLimitKey "github" "ORG" "1" "api") 300 300 plain_json number_roundtrip)|].
  - constructor; [exact usable_a|constructor].
  - vm_compute. congruence.
  - exact printable_a.
  - split; [reflexivity|]. repeat split; repeat constructor.
  - vm_compute. reflexivity.
Defined.

Lemma cached_store_transparent_witness :
  let st := mkState key_a 60 10 None None None 200 0 5 ∅ in
  let ops := [OpGet key_a; OpUpsert st; OpGet key_a; OpExpire "x"; OpGet (mkRateLimitKey "github " "ORG" "1" "API")] in
  exec_all cached_exec (mkCached (∅ : MemoryStateStore) ∅) ops =
    [GotState (Fail ErrStateNotFound); Upserted (Ok tt); GotState (Ok (cloneRateLimitState st)); Expired; GotState (Ok (cloneRateLimitState st))].
Proof.
  cbv zeta. etransitivity; [apply (cached_store_transparent (laws := MemoryStateStore_laws) (∅ : MemoryStateStore))|].
  - repeat constructor.
  - vm_compute. reflexivity.
Defined.

(** A path segment may hold colons, so that the cache confuses buckets: the state of the bucket "z" of the scope "x::y" is returned for the
    bucket "y::z" of the scope "x", which the store does not have. *)
Example cache_confuses_buckets :
  let k1 := mkRateLimitKey "p" "org" "x::y" "z" in
  let k2 := mkRateLimitKey "p" "org" "x" "y::z" in
  let base := (State_Upsert ∅ (mkState k1 0 0 None None (Some 1000%Z) 429 1 5 ∅)).2 in
  let c := (Cached_Get (mkCached base ∅) k1).2 in
  RateLimitStateCacheKey k1 = RateLimitStateCacheKey k2 ∧ ss_Get base k2 = Fail ErrStateNotFound ∧
  (∃ st, (Cached_Get c k2).1 = Ok st ∧ st_ThrottledUntil st = Some 1000%Z).
Proof. cbv zeta. split; [reflexivity|]. split; [reflexivity|]. eexists. split; reflexivity. Qed.
End demo.
