(* ===== verification/Sync.v ===== *)
(** * Sync jobs and cursors (src/store/sql/sync_job_store.go, sync_cursor_store.go, src/core/service_sync_jobs.go,
    service_sync_cursor.go, src/sync/orchestrator.go)

    The tables of sync jobs, of the idempotency tuples that bind a request to its job, and of cursors; the operations of the service over
    them; and the orchestrator that moves a job through its life cycle.  The unique keys of the schema are the keys of the tables; a
    transaction is one step, except that of [Advance], whose read takes no lock: its two statements are given apart. *)

From S2P Require Import Prelude GoStrings GoValues Domain OAuthState Contracts Permissions ServiceTypes Grants Refresh Connections Credentials.
From S2P Require Import Service.
From Stdlib Require Import ZArith String Lia.
From stdpp Require Import base decidable list gmap strings.

Local Open Scope string_scope.
Local Open Scope nat_scope.
Local Open Scope list_scope.

(** ** Requests, results and rows *)

Record CreateSyncJobRequest := mkCreateJob {
  cj_ProviderID : string; cj_ScopeType : string; cj_ScopeID : string; cj_ConnectionID : string; cj_Mode : string;
  cj_IdempotencyKey : string; cj_RequestedBy : string; cj_Metadata : gmap string value }.
Record CreateSyncJobResult := mkCreateJobResult { jr_Job : SyncJob; jr_Created : bool }.
Record GetSyncJobRequest := mkGetJob {
  gj_SyncJobID : string; gj_ProviderID : string; gj_ScopeType : string; gj_ScopeID : string; gj_ConnectionID : string }.
Record CreateSyncJobStoreInput := mkJobInput {
  ji_ProviderID : string; ji_Scope : ScopeRef; ji_ConnectionID : string; ji_Mode : string; ji_IdempotencyKey : string;
  ji_RequestedBy : string; ji_Metadata : gmap string value }.

Record UpsertSyncCursorInput := mkUpsertCursor {
  uc_ConnectionID : string; uc_ProviderID : string; uc_ResourceType : string; uc_ResourceID : string; uc_Cursor : string;
  uc_LastSyncedAt : option Time; uc_Status : string; uc_Metadata : gmap string value }.
Record AdvanceSyncCursorInput := mkAdvanceCursor {
  av_ConnectionID : string; av_ProviderID : string; av_ResourceType : string; av_ResourceID : string; av_ExpectedCursor : string;
  av_Cursor : string; av_LastSyncedAt : option Time; av_Status : string; av_Metadata : gmap string value }.

(** The columns of a job are the fields of [SyncJob]. *)
Record syncJobIdempotencyRecord := mkIdemRow {
  ir_ID : string; ir_ScopeType : string; ir_ScopeID : string; ir_ProviderID : string; ir_ConnectionID : string; ir_Mode : string;
  ir_IdempotencyKey : string; ir_SyncJobID : string; ir_RequestedBy : string; ir_CreatedAt : Time; ir_UpdatedAt : Time }.
Record syncCursorRecord := mkCursorRow {
  crow_ID : string; crow_ConnectionID : string; crow_ProviderID : string; crow_ResourceType : string; crow_ResourceID : string;
  crow_Cursor : string; crow_Status : string; crow_LastSyncedAt : option Time; crow_Metadata : gmap string value; crow_CreatedAt : Time;
  crow_UpdatedAt : Time }.

(** [(scope type, scope id, provider, mode, key)] and [(connection, provider, resource type, resource id)]. *)
Abbreviation idem_key := (string * string * string * string * string)%type.
Abbreviation cursor_key := (string * string * string * string)%type.
Record SyncDB := mkSyncDB {
  sy_jobs : gmap string SyncJob; sy_idem : gmap idem_key syncJobIdempotencyRecord; sy_cursors : gmap cursor_key syncCursorRecord }.

Definition with_jobs (db : SyncDB) (t : gmap string SyncJob) : SyncDB := mkSyncDB t (sy_idem db) (sy_cursors db).
Definition with_cursors (db : SyncDB) (t : gmap cursor_key syncCursorRecord) : SyncDB := mkSyncDB (sy_jobs db) (sy_idem db) t.

Inductive sync_error :=
| SyErrRequired (text : string) | SyErrInvalidScope (detail : string) | SyErrInvalidMode (mode : string)
| SyErrJobNotFound (id : string) | SyErrCursorNotFound | SyErrCursorConflict | SyErrReplay | SyErrUnique | SyErrDB (cause : string).

(** ** The job store *)

Section stores.
(** What a JSON column reads back, and the text of a scope validation error. *)
Variable json_column : gmap string value → gmap string value.
Variable scope_error_text : domain_error → string.

Definition job_with_metadata (j : SyncJob) (m : gmap string value) : SyncJob :=
  mkSyncJob (job_ID j) (job_ConnectionID j) (job_ProviderID j) (job_Mode j) (job_Checkpoint j) (job_Status j) (job_Attempts j)
    (job_NextAttemptAt j) m (job_CreatedAt j) (job_UpdatedAt j).

(** [newSyncJobRecord]: both times are [now]. *)
Definition newSyncJobRecord (j : SyncJob) (now : Time) : SyncJob :=
  mkSyncJob (job_ID j) (job_ConnectionID j) (job_ProviderID j) (job_Mode j) (job_Checkpoint j) (job_Status j) (job_Attempts j)
    (job_NextAttemptAt j) (copyAnyMap (job_Metadata j)) now now.

Definition insert_job (t : gmap string SyncJob) (j : SyncJob) : option (gmap string SyncJob) :=
  match t !! job_ID j with Some _ => None | None => Some (<[job_ID j := j]> t) end.

Definition SyncJob_Create (db : SyncDB) (env : CallEnv) (job : SyncJob) : outcome sync_error SyncJob * SyncDB :=
  let connectionID := TrimSpace (job_ConnectionID job) in
  let providerID := TrimSpace (job_ProviderID job) in
  if String.eqb connectionID "" || String.eqb providerID "" then (Fail (SyErrRequired "connection id and provider id"), db)
  else
    let id := if blank (job_ID job) then env_uuid env else job_ID job in
    let mode := if String.eqb (job_Mode job) "" then SyncJobModeIncremental else job_Mode job in
    let status := if String.eqb (job_Status job) "" then SyncJobStatusQueued else job_Status job in
    let record := newSyncJobRecord (mkSyncJob id connectionID providerID mode (job_Checkpoint job) status (job_Attempts job)
                    (job_NextAttemptAt job) (job_Metadata job) (job_CreatedAt job) (job_UpdatedAt job)) (env_now env) in
    match env_fault env 0 with
    | Some cause => (Fail (SyErrDB cause), db)
    | None => match insert_job (sy_jobs db) record with
              | None => (Fail SyErrUnique, db)
              | Some t => (Ok record, with_jobs db t)
              end
    end.

Definition SyncJob_Get (db : SyncDB) (env : CallEnv) (id : string) : outcome sync_error SyncJob :=
  match env_fault env 0 with
  | Some cause => Fail (SyErrDB cause)
  | None => match sy_jobs db !! TrimSpace id with
            | None => Fail (SyErrJobNotFound id)
            | Some j => Ok (job_with_metadata j (json_column (job_Metadata j)))
            end
  end.

(** An update of a row that is not there changes nothing and succeeds. *)
Definition SyncJob_Update (db : SyncDB) (env : CallEnv) (job : SyncJob) : outcome sync_error SyncJob * SyncDB :=
  let id := TrimSpace (job_ID job) in
  if String.eqb id "" then (Fail (SyErrRequired "job id"), db)
  else
    let record := mkSyncJob id (job_ConnectionID job) (job_ProviderID job) (job_Mode job) (job_Checkpoint job) (job_Status job)
                    (job_Attempts job) (job_NextAttemptAt job) (copyAnyMap (job_Metadata job)) (job_CreatedAt job) (env_now env) in
    match env_fault env 0 with
    | Some cause => (Fail (SyErrDB cause), db)
    | None => (Ok record, match sy_jobs db !! id with
                          | Some _ => with_jobs db (<[id := record]> (sy_jobs db))
                          | None => db
                          end)
    end.

Definition normalizeCreateSyncJobStoreInput (input : CreateSyncJobStoreInput) : outcome sync_error CreateSyncJobStoreInput :=
  let n := mkJobInput (TrimSpace (ji_ProviderID input))
    (mkScopeRef (lowerTrim (scope_Type (ji_Scope input))) (TrimSpace (scope_ID (ji_Scope input)))) (TrimSpace (ji_ConnectionID input))
    (lowerTrim (ji_Mode input)) (TrimSpace (ji_IdempotencyKey input)) (TrimSpace (ji_RequestedBy input)) (copyAnyMap (ji_Metadata input)) in
  if String.eqb (ji_ProviderID n) "" then Fail (SyErrRequired "provider id")
  else match ScopeRef_Validate (ji_Scope n) with
  | Fail e => Fail (SyErrInvalidScope (scope_error_text e))
  | Ok _ =>
    if String.eqb (ji_ConnectionID n) "" then Fail (SyErrRequired "connection id")
    else if String.eqb (ji_Mode n) SyncJobModeFull || String.eqb (ji_Mode n) SyncJobModeDelta then Ok n
    else Fail (SyErrInvalidMode (ji_Mode input))
  end.

Definition tuple_of (scope : ScopeRef) (providerID mode idempotencyKey : string) : idem_key :=
  (scope_Type scope, scope_ID scope, providerID, mode, idempotencyKey).

(** The transaction: the job and its tuple are inserted together or not at all.  [rowID] is the second uuid. *)
Definition createSyncJobWithIdempotency (db : SyncDB) (env : CallEnv) (rowID : string) (input : CreateSyncJobStoreInput) (job : SyncJob)
    : outcome sync_error SyncJob * SyncDB :=
  let now := env_now env in
  let record := newSyncJobRecord (mkSyncJob (env_uuid env) (job_ConnectionID job) (job_ProviderID job) (job_Mode job) (job_Checkpoint job)
                  (job_Status job) 0 (job_NextAttemptAt job) (job_Metadata job) now now) now in
  match env_fault env 0 with
  | Some cause => (Fail (SyErrDB cause), db)
  | None =>
    match insert_job (sy_jobs db) record with
    | None => (Fail SyErrUnique, db)
    | Some t =>
      let row := mkIdemRow rowID (scope_Type (ji_Scope input)) (scope_ID (ji_Scope input)) (ji_ProviderID input) (ji_ConnectionID input)
                   (ji_Mode input) (ji_IdempotencyKey input) (job_ID record) (ji_RequestedBy input) now now in
      match env_fault env 1 with
      | Some cause => (Fail (SyErrDB cause), db)
      | None =>
        let key := tuple_of (ji_Scope input) (ji_ProviderID input) (ji_Mode input) (ji_IdempotencyKey input) in
        match sy_idem db !! key with
        | Some _ => (Fail SyErrReplay, db)
        | None => (Ok record, mkSyncDB t (<[key := row]> (sy_idem db)) (sy_cursors db))
        end
      end
    end
  end.

Definition findSyncJobIdempotency (db : SyncDB) (env : CallEnv) (scope : ScopeRef) (providerID mode idempotencyKey : string)
    : outcome sync_error (option syncJobIdempotencyRecord) :=
  match env_fault env 0 with
  | Some cause => Fail (SyErrDB cause)
  | None =>
    Ok match sy_idem db !! tuple_of (mkScopeRef (lowerTrim (scope_Type scope)) (TrimSpace (scope_ID scope))) (TrimSpace providerID)
               (lowerTrim mode) (TrimSpace idempotencyKey) with
       | Some r => if blank (ir_ID r) then None else Some r
       | None => None
       end
  end.

(** [env n] is the environment of the n-th call and [other n] what other workers do before it. *)
Definition SyncJob_CreateSyncJob (db : SyncDB) (env : nat → CallEnv) (other : nat → SyncDB → SyncDB) (rowID : string)
    (input : CreateSyncJobStoreInput) : outcome sync_error CreateSyncJobResult * SyncDB :=
  match normalizeCreateSyncJobStoreInput input with
  | Fail e => (Fail e, db)
  | Ok n =>
    let metadata := if String.eqb (ji_RequestedBy n) "" then copyAnyMap (ji_Metadata n)
                    else <["requested_by" := VString (ji_RequestedBy n)]> (copyAnyMap (ji_Metadata n)) in
    let job := mkSyncJob "" (ji_ConnectionID n) (ji_ProviderID n) (ji_Mode n) "" SyncJobStatusQueued 0 None metadata zeroTime zeroTime in
    let idempotencyKey := TrimSpace (ji_IdempotencyKey n) in
    if String.eqb idempotencyKey "" then
      match SyncJob_Create db (env 0) job with
      | (Ok created, db') => (Ok (mkCreateJobResult created true), db')
      | (Fail e, db') => (Fail e, db')
      end
    else
      match createSyncJobWithIdempotency db (env 0) rowID n job with
      | (Ok created, db') => (Ok (mkCreateJobResult created true), db')
      | (Fail SyErrReplay, db') =>
        let db1 := other 0 db' in
        match findSyncJobIdempotency db1 (env 1) (ji_Scope n) (ji_ProviderID n) (ji_Mode n) idempotencyKey with
        | Fail e => (Fail e, db1)
        | Ok None => (Fail (SyErrJobNotFound ""), db1)
        | Ok (Some record) =>
          if blank (ir_SyncJobID record) then (Fail (SyErrJobNotFound ""), db1)
          else
            let db2 := other 1 db1 in
            match SyncJob_Get db2 (env 2) (ir_SyncJobID record) with
            | Fail e => (Fail e, db2)
            | Ok existing => (Ok (mkCreateJobResult existing false), db2)
            end
        end
      | (Fail e, db') => (Fail e, db')
      end
  end.

(** ** The cursor store *)

Definition cursor_toDomain (r : syncCursorRecord) : SyncCursor :=
  mkSyncCursor (crow_ID r) (crow_ConnectionID r) (crow_ProviderID r) (crow_ResourceType r) (crow_ResourceID r) (crow_Cursor r)
    (default zeroTime (crow_LastSyncedAt r)) (crow_Status r) (copyAnyMap (crow_Metadata r)) (crow_CreatedAt r) (crow_UpdatedAt r).

Definition newSyncCursorRecord (id : string) (input : UpsertSyncCursorInput) (now : Time) : syncCursorRecord :=
  mkCursorRow id (uc_ConnectionID input) (uc_ProviderID input) (uc_ResourceType input) (uc_ResourceID input) (uc_Cursor input)
    (uc_Status input) (uc_LastSyncedAt input) (copyAnyMap (uc_Metadata input)) now now.

(** The newest of the cursors of a resource, over all providers. *)
Definition newer_cursor (best : option syncCursorRecord) (r : syncCursorRecord) : option syncCursorRecord :=
  match best with
  | Some b => if (crow_UpdatedAt b <? crow_UpdatedAt r)%Z then Some r else best
  | None => Some r
  end.
Definition Cursor_Get (db : SyncDB) (env : CallEnv) (connectionID resourceType resourceID : string) : outcome sync_error SyncCursor :=
  let connectionID := TrimSpace connectionID in
  let resourceType := TrimSpace resourceType in
  let resourceID := TrimSpace resourceID in
  if String.eqb connectionID "" || String.eqb resourceType "" || String.eqb resourceID ""
  then Fail (SyErrRequired "connection id, resource type, and resource id")
  else match env_fault env 0 with
  | Some cause => Fail (SyErrDB cause)
  | None =>
    let rows := filter (λ r, crow_ConnectionID r = connectionID ∧ crow_ResourceType r = resourceType ∧ crow_ResourceID r = resourceID)
                  (map_to_list (sy_cursors db)).*2 in
    match foldl newer_cursor None rows with
    | None => Fail SyErrCursorNotFound
    | Some r => Ok (cursor_toDomain r)
    end
  end.

Definition key_of_cursor (input : UpsertSyncCursorInput) : cursor_key :=
  (uc_ConnectionID input, uc_ProviderID input, uc_ResourceType input, uc_ResourceID input).

(** The fields trimmed, a missing status filled in, and the checks both writers make. *)
Definition trimmed_cursor (input : UpsertSyncCursorInput) : UpsertSyncCursorInput :=
  mkUpsertCursor (TrimSpace (uc_ConnectionID input)) (TrimSpace (uc_ProviderID input)) (TrimSpace (uc_ResourceType input))
    (TrimSpace (uc_ResourceID input)) (TrimSpace (uc_Cursor input)) (uc_LastSyncedAt input)
    (if blank (uc_Status input) then "active" else TrimSpace (uc_Status input)) (copyAnyMap (uc_Metadata input)).
Definition cursor_checks (input : UpsertSyncCursorInput) : option sync_error :=
  if String.eqb (uc_ConnectionID input) "" || String.eqb (uc_ProviderID input) ""
  then Some (SyErrRequired "connection id and provider id")
  else if String.eqb (uc_ResourceType input) "" || String.eqb (uc_ResourceID input) ""
  then Some (SyErrRequired "resource type and resource id")
  else if String.eqb (uc_Cursor input) "" then Some (SyErrRequired "cursor")
  else None.

Definition cursor_set (r : syncCursorRecord) (input : UpsertSyncCursorInput) (lastSyncedAt : option Time) (now : Time) : syncCursorRecord :=
  mkCursorRow (crow_ID r) (crow_ConnectionID r) (crow_ProviderID r) (crow_ResourceType r) (crow_ResourceID r) (uc_Cursor input) (uc_Status input)
    lastSyncedAt (copyAnyMap (uc_Metadata input)) (crow_CreatedAt r) now.

(** The transaction is one step, so that a row another worker inserts in between shows up as a fault. *)
Definition Cursor_Upsert (db : SyncDB) (env : CallEnv) (input : UpsertSyncCursorInput) : outcome sync_error SyncCursor * SyncDB :=
  let n := trimmed_cursor input in
  match cursor_checks n with
  | Some e => (Fail e, db)
  | None =>
    match env_fault env 0 with
    | Some cause => (Fail (SyErrDB cause), db)
    | None =>
      let row := match sy_cursors db !! key_of_cursor n with
                 | None => newSyncCursorRecord (env_uuid env) n (env_now env)
                 | Some r => cursor_set r n (uc_LastSyncedAt n) (env_now env)
                 end in
      match env_fault env 1 with
      | Some cause => (Fail (SyErrDB cause), db)
      | None => (Ok (cursor_toDomain row), with_cursors db (<[key_of_cursor n := row]> (sy_cursors db)))
      end
    end
  end.

Definition advance_input (input : AdvanceSyncCursorInput) : UpsertSyncCursorInput :=
  trimmed_cursor (mkUpsertCursor (av_ConnectionID input) (av_ProviderID input) (av_ResourceType input) (av_ResourceID input)
    (av_Cursor input) (av_LastSyncedAt input) (av_Status input) (av_Metadata input)).

(** The two statements of [Advance]: the read with the comparison of cursors, and the write of the row it decided on. *)
Definition advance_read (db : SyncDB) (env : CallEnv) (input : AdvanceSyncCursorInput) : outcome sync_error (option syncCursorRecord) :=
  let n := advance_input input in
  let expected := TrimSpace (av_ExpectedCursor input) in
  match cursor_checks n with
  | Some e => Fail e
  | None =>
    match env_fault env 0 with
    | Some cause => Fail (SyErrDB cause)
    | None =>
      match sy_cursors db !! key_of_cursor n with
      | None => if String.eqb expected "" then Ok None else Fail SyErrCursorConflict
      | Some r => if negb (String.eqb expected "") && negb (EqualFold (crow_Cursor r) expected) then Fail SyErrCursorConflict else Ok (Some r)
      end
    end
  end.

Definition advance_write (db : SyncDB) (env : CallEnv) (input : AdvanceSyncCursorInput) (found : option syncCursorRecord)
    : outcome sync_error SyncCursor * SyncDB :=
  let n := advance_input input in
  let row := match found with
             | None => newSyncCursorRecord (env_uuid env) n (env_now env)
             | Some r => cursor_set r n (match uc_LastSyncedAt n with Some t => Some t | None => crow_LastSyncedAt r end) (env_now env)
             end in
  match env_fault env 1 with
  | Some cause => (Fail (SyErrDB cause), db)
  | None =>
    match found, sy_cursors db !! key_of_cursor n with
    | None, Some _ => (Fail SyErrUnique, db)
    | Some _, None => (Ok (cursor_toDomain row), db)
    | _, _ => (Ok (cursor_toDomain row), with_cursors db (<[key_of_cursor n := row]> (sy_cursors db)))
    end
  end.

Definition Cursor_Advance (db : SyncDB) (env : CallEnv) (input : AdvanceSyncCursorInput) : outcome sync_error SyncCursor * SyncDB :=
  match advance_read db env input with
  | Fail e => (Fail e, db)
  | Ok found => advance_write db env input found
  end.
End stores.

(** ** The operations of the service *)

(** The interface of the job store that the service is written against. *)
Class SyncJobStore (W : Type) := {
  sj_CreateSyncJob : W → (nat → CallEnv) → CreateSyncJobStoreInput → outcome sync_error CreateSyncJobResult * W;
  sj_GetSyncJob : W → CallEnv → string → outcome sync_error SyncJob }.
Class SyncCursorStore (W : Type) := {
  sc_Get : W → CallEnv → string → string → string → outcome sync_error SyncCursor;
  sc_Upsert : W → CallEnv → UpsertSyncCursorInput → outcome sync_error SyncCursor * W;
  sc_Advance : W → CallEnv → AdvanceSyncCursorInput → outcome sync_error SyncCursor * W }.

Inductive sync_service_error (E : Type) :=
| SyncErr (e : sync_error) | SyncErrConnection (e : E) | SyncErrConnectionStore | SyncErrNoStore.
Arguments SyncErr {E}. Arguments SyncErrConnection {E}. Arguments SyncErrConnectionStore {E}. Arguments SyncErrNoStore {E}.

Section service.
Context {MR : MapRange} {E W J : Type} {conns : ConnectionStore E W} {jobs : SyncJobStore J} {cursors : SyncCursorStore J}.
Variable scope_error_text : domain_error → string.

Definition parseSyncJobCreateMode (mode : string) : outcome sync_error string :=
  let normalized := lowerTrim mode in
  if String.eqb normalized SyncJobModeFull || String.eqb normalized SyncJobModeDelta then Ok normalized else Fail (SyErrInvalidMode mode).

Definition normalizeCreateSyncJobRequest (req : CreateSyncJobRequest) : outcome sync_error (CreateSyncJobRequest * ScopeRef) :=
  let n := mkCreateJob (TrimSpace (cj_ProviderID req)) (lowerTrim (cj_ScopeType req)) (TrimSpace (cj_ScopeID req))
    (TrimSpace (cj_ConnectionID req)) (lowerTrim (cj_Mode req)) (TrimSpace (cj_IdempotencyKey req)) (TrimSpace (cj_RequestedBy req))
    (copyAnyMap (cj_Metadata req)) in
  if String.eqb (cj_ProviderID n) "" then Fail (SyErrRequired "provider id")
  else
    let scope := mkScopeRef (cj_ScopeType n) (cj_ScopeID n) in
    match ScopeRef_Validate scope with
    | Fail e => Fail (SyErrInvalidScope (scope_error_text e))
    | Ok _ =>
      match parseSyncJobCreateMode (cj_Mode n) with
      | Fail e => Fail e
      | Ok mode => Ok (mkCreateJob (cj_ProviderID n) (cj_ScopeType n) (cj_ScopeID n) (cj_ConnectionID n) mode (cj_IdempotencyKey n)
                         (cj_RequestedBy n) (cj_Metadata n), scope)
      end
    end.

(** The scope is returned if the request has one. *)
Definition normalizeGetSyncJobRequest (req : GetSyncJobRequest) : outcome sync_error (GetSyncJobRequest * option ScopeRef) :=
  let n := mkGetJob (TrimSpace (gj_SyncJobID req)) (TrimSpace (gj_ProviderID req)) (lowerTrim (gj_ScopeType req))
    (TrimSpace (gj_ScopeID req)) (TrimSpace (gj_ConnectionID req)) in
  if String.eqb (gj_SyncJobID n) "" then Fail (SyErrRequired "sync job id")
  else
    let hasScopeType := negb (String.eqb (gj_ScopeType n) "") in
    let hasScopeID := negb (String.eqb (gj_ScopeID n) "") in
    if xorb hasScopeType hasScopeID then Fail (SyErrInvalidScope "scope type and scope id must both be provided")
    else if negb hasScopeType then Ok (n, None)
    else
      let scope := mkScopeRef (gj_ScopeType n) (gj_ScopeID n) in
      match ScopeRef_Validate scope with
      | Fail e => Fail (SyErrInvalidScope (scope_error_text e))
      | Ok _ => Ok (n, Some scope)
      end.

Definition resolveSyncJobConnection (v : Service (E := E) (W := W)) (e : CallEnv) (db : W) (providerID : string) (scope : ScopeRef)
    (connectionID : string) : outcome (sync_service_error E) Connection :=
  let connectionID := TrimSpace connectionID in
  if negb (String.eqb connectionID "") then
    if negb (svc_connectionStore v) then Fail SyncErrConnectionStore
    else match cs_Get db e connectionID with
    | Fail err => Fail (SyncErrConnection err)
    | Ok connection =>
      if negb (EqualFold (TrimSpace (conn_ProviderID connection)) (TrimSpace providerID))
         || negb (EqualFold (TrimSpace (conn_ScopeType connection)) (TrimSpace (scope_Type scope)))
         || negb (String.eqb (TrimSpace (conn_ScopeID connection)) (TrimSpace (scope_ID scope)))
      then Fail (SyncErr (SyErrInvalidScope "connection does not match provider/scope"))
      else Ok connection
    end
  else match resolveConnection scope_error_text v e db providerID scope with
  | Fail err => Fail (SyncErrConnection err)
  | Ok resolution =>
    if String.eqb (res_Outcome resolution) ConnectionResolutionDirect || String.eqb (res_Outcome resolution) ConnectionResolutionInherited
    then Ok (res_Connection resolution)
    else if String.eqb (res_Outcome resolution) ConnectionResolutionAmbiguous
    then Fail (SyncErr (SyErrInvalidScope "ambiguous connection for provider/scope"))
    else Fail (SyncErr (SyErrInvalidScope "no connection found for provider/scope"))
  end.

(** [store] is false if there is no job store; the connection is read with [env 0], the store is called with the others. *)
Definition CreateSyncJob (v : Service (E := E) (W := W)) (store : bool) (env : nat → CallEnv) (db : W) (j : J) (req : CreateSyncJobRequest)
    : outcome (sync_service_error E) CreateSyncJobResult * J :=
  if negb store then (Fail SyncErrNoStore, j)
  else match normalizeCreateSyncJobRequest req with
  | Fail e => (Fail (SyncErr e), j)
  | Ok (n, scope) =>
    match resolveSyncJobConnection v (env 0) db (cj_ProviderID n) scope (cj_ConnectionID n) with
    | Fail e => (Fail e, j)
    | Ok connection =>
      let (o, j') := sj_CreateSyncJob j (λ k, env (k + 1)) (mkJobInput (cj_ProviderID n) scope (conn_ID connection) (cj_Mode n)
                       (cj_IdempotencyKey n) (cj_RequestedBy n) (copyAnyMap (cj_Metadata n))) in
      (match o with Ok r => Ok r | Fail e => Fail (SyncErr e) end, j')
    end
  end.

Definition GetSyncJob (v : Service (E := E) (W := W)) (store : bool) (env : nat → CallEnv) (db : W) (j : J) (req : GetSyncJobRequest)
    : outcome (sync_service_error E) SyncJob :=
  if negb store then Fail SyncErrNoStore
  else match normalizeGetSyncJobRequest req with
  | Fail e => Fail (SyncErr e)
  | Ok (n, scope) =>
    let notFound := Fail (SyncErr (SyErrJobNotFound (gj_SyncJobID n))) in
    match sj_GetSyncJob j (env 0) (gj_SyncJobID n) with
    | Fail e => Fail (SyncErr e)
    | Ok job =>
      if negb (String.eqb (gj_ProviderID n) "") && negb (EqualFold (TrimSpace (job_ProviderID job)) (gj_ProviderID n)) then notFound
      else if negb (String.eqb (gj_ConnectionID n) "") && negb (EqualFold (TrimSpace (job_ConnectionID job)) (gj_ConnectionID n)) then notFound
      else match scope with
      | None => Ok job
      | Some scope =>
        if negb (svc_connectionStore v) then Fail SyncErrConnectionStore
        else match cs_Get db (env 1) (TrimSpace (job_ConnectionID job)) with
        | Fail _ => notFound
        | Ok connection =>
          if negb (EqualFold (TrimSpace (conn_ScopeType connection)) (scope_Type scope))
             || negb (String.eqb (TrimSpace (conn_ScopeID connection)) (scope_ID scope)) then notFound
          else Ok job
        end
      end
    end
  end.

Definition LoadSyncCursor (store : bool) (e : CallEnv) (j : J) (connectionID resourceType resourceID : string)
    : outcome (sync_service_error E) SyncCursor :=
  if negb store then Fail SyncErrNoStore
  else match sc_Get j e (TrimSpace connectionID) (TrimSpace resourceType) (TrimSpace resourceID) with
       | Ok c => Ok c | Fail err => Fail (SyncErr err) end.

Definition AdvanceSyncCursor (store : bool) (e : CallEnv) (j : J) (input : AdvanceSyncCursorInput)
    : outcome (sync_service_error E) SyncCursor * J :=
  if negb store then (Fail SyncErrNoStore, j)
  else
    let n := mkAdvanceCursor (TrimSpace (av_ConnectionID input)) (TrimSpace (av_ProviderID input)) (TrimSpace (av_ResourceType input))
      (TrimSpace (av_ResourceID input)) (TrimSpace (av_ExpectedCursor input)) (TrimSpace (av_Cursor input)) (av_LastSyncedAt input)
      (TrimSpace (av_Status input)) (av_Metadata input) in
    if String.eqb (av_ConnectionID n) "" || String.eqb (av_ProviderID n) ""
    then (Fail (SyncErr (SyErrRequired "connection id and provider id")), j)
    else if String.eqb (av_ResourceType n) "" || String.eqb (av_ResourceID n) ""
    then (Fail (SyncErr (SyErrRequired "resource type and resource id")), j)
    else if String.eqb (av_Cursor n) "" then (Fail (SyncErr (SyErrRequired "cursor")), j)
    else let (o, j') := sc_Advance j e n in (match o with Ok c => Ok c | Fail err => Fail (SyncErr err) end, j').
End service.

(** ** The orchestrator (src/sync/orchestrator.go) *)

Record BootstrapRequest := mkBootstrap {
  bs_ConnectionID : string; bs_ProviderID : string; bs_ResourceType : string; bs_ResourceID : string; bs_Metadata : gmap string value }.
Record BackfillRequest := mkBackfill {
  bf_ConnectionID : string; bf_ProviderID : string; bf_ResourceType : string; bf_ResourceID : string; bf_From : option Time;
  bf_To : option Time; bf_Metadata : gmap string value }.

(** The interface of the job store of the orchestrator. *)
Class OrchestratorJobs (W : Type) := {
  oj_Create : W → CallEnv → SyncJob → outcome sync_error SyncJob * W;
  oj_Get : W → CallEnv → string → outcome sync_error SyncJob;
  oj_Update : W → CallEnv → SyncJob → outcome sync_error SyncJob * W }.

Definition mergeAnyMap (left right : gmap string value) : gmap string value := mapsCopy (mapsCopy ∅ left) right.

Section orchestrator.
Context {W : Type} {jobs : OrchestratorJobs W} {cursors : SyncCursorStore W}.
Variable time_Format : Time → string → string.
Abbreviation result := (outcome sync_error SyncJob * W)%type.

(** [withCursors] tells whether there is a cursor store; [env 0] is the environment of its call, [env 1] that of the job store, [env 2] has the
    clock and the uuid of the orchestrator. *)
Definition start (withCursors : bool) (env : nat → CallEnv) (w : W) (job : SyncJob) (resourceType resourceID : string)
    (metadata : gmap string value) : result :=
  if blank (job_ConnectionID job) || blank (job_ProviderID job) then (Fail (SyErrRequired "connection id and provider id"), w)
  else
    let now := env_now (env 2) in
    let resourceType := TrimSpace resourceType in
    let resourceID := TrimSpace resourceID in
    let checkpoint :=
      if withCursors && negb (String.eqb resourceType "") && negb (String.eqb resourceID "") then
        match sc_Get w (env 0) (job_ConnectionID job) resourceType resourceID with
        | Ok c => TrimSpace (cursor_Cursor c)
        | Fail _ => job_Checkpoint job
        end
      else job_Checkpoint job in
    oj_Create w (env 1) (mkSyncJob (env_uuid (env 2)) (job_ConnectionID job) (job_ProviderID job) (job_Mode job) checkpoint (job_Status job) 0
      (job_NextAttemptAt job) (mergeAnyMap (job_Metadata job) metadata) now now).

Definition new_job (connectionID providerID mode : string) (metadata : gmap string value) : SyncJob :=
  mkSyncJob "" (TrimSpace connectionID) (TrimSpace providerID) mode "" SyncJobStatusQueued 0 None metadata zeroTime zeroTime.
Definition resource_metadata (resourceType resourceID : string) : gmap string value :=
  {[ "resource_type" := VString (TrimSpace resourceType); "resource_id" := VString (TrimSpace resourceID) ]}.

Definition StartBootstrap (withCursors : bool) (env : nat → CallEnv) (w : W) (req : BootstrapRequest) : result :=
  start withCursors env w (new_job (bs_ConnectionID req) (bs_ProviderID req) SyncJobModeBootstrap
    (resource_metadata (bs_ResourceType req) (bs_ResourceID req))) (bs_ResourceType req) (bs_ResourceID req) (bs_Metadata req).

Definition StartBackfill (withCursors : bool) (env : nat → CallEnv) (w : W) (req : BackfillRequest) : result :=
  let metadata := resource_metadata (bf_ResourceType req) (bf_ResourceID req) in
  let layout := "2006-01-02T15:04:05.999999999Z07:00" in
  let metadata := match bf_From req with Some t => <["from" := VString (time_Format t layout)]> metadata | None => metadata end in
  let metadata := match bf_To req with Some t => <["to" := VString (time_Format t layout)]> metadata | None => metadata end in
  start withCursors env w (new_job (bf_ConnectionID req) (bf_ProviderID req) SyncJobModeBackfill metadata)
    (bf_ResourceType req) (bf_ResourceID req) (bf_Metadata req).

Definition StartIncremental (withCursors : bool) (env : nat → CallEnv) (w : W) (connectionID providerID resourceType resourceID : string)
    (metadata : gmap string value) : result :=
  start withCursors env w (new_job connectionID providerID SyncJobModeIncremental (resource_metadata resourceType resourceID))
    resourceType resourceID metadata.

(** [env 0] is the read, [env 1] the write and [env 2] the clock of the orchestrator. *)
Definition Resume (env : nat → CallEnv) (w : W) (jobID : string) : outcome sync_error unit * W :=
  let jobID := TrimSpace jobID in
  if String.eqb jobID "" then (Fail (SyErrRequired "job id"), w)
  else match oj_Get w (env 0) jobID with
  | Fail e => (Fail e, w)
  | Ok job =>
    if String.eqb (job_Status job) SyncJobStatusSucceeded then (Ok tt, w)
    else
      let status := if String.eqb (job_Status job) SyncJobStatusFailed then SyncJobStatusQueued else job_Status job in
      let (o, w') := oj_Update w (env 1) (mkSyncJob (job_ID job) (job_ConnectionID job) (job_ProviderID job) (job_Mode job)
        (job_Checkpoint job) status (wrap64 (job_Attempts job + 1)) (job_NextAttemptAt job) (job_Metadata job) (job_CreatedAt job)
        (env_now (env 2))) in
      (match o with Ok _ => Ok tt | Fail e => Fail e end, w')
  end.

Definition SaveCheckpoint (env : nat → CallEnv) (w : W) (jobID checkpoint : string) (metadata : gmap string value) : result :=
  match oj_Get w (env 0) (TrimSpace jobID) with
  | Fail e => (Fail e, w)
  | Ok job =>
    oj_Update w (env 1) (mkSyncJob (job_ID job) (job_ConnectionID job) (job_ProviderID job) (job_Mode job) (TrimSpace checkpoint)
      SyncJobStatusRunning (job_Attempts job) (job_NextAttemptAt job) (mergeAnyMap (job_Metadata job) metadata) (job_CreatedAt job)
      (env_now (env 2)))
  end.

(** The second write has the environment [env 3]. *)
Definition Complete (env : nat → CallEnv) (w : W) (jobID checkpoint : string) (metadata : gmap string value) : result :=
  match SaveCheckpoint env w jobID checkpoint metadata with
  | (Fail e, w') => (Fail e, w')
  | (Ok job, w') => oj_Update w' (env 3) (job_set job SyncJobStatusSucceeded (env_now (env 2)))
  end.

(** [cause] is the text of the error, or [None]. *)
Definition Fail_job (env : nat → CallEnv) (w : W) (jobID : string) (cause : option string) (nextAttemptAt : option Time) : result :=
  match oj_Get w (env 0) (TrimSpace jobID) with
  | Fail e => (Fail e, w)
  | Ok job =>
    let metadata := mergeAnyMap (job_Metadata job) {[ "last_error" := VString (TrimSpace (default "<nil>" cause)) ]} in
    oj_Update w (env 1) (mkSyncJob (job_ID job) (job_ConnectionID job) (job_ProviderID job) (job_Mode job) (job_Checkpoint job)
      SyncJobStatusFailed (wrap64 (job_Attempts job + 1)) (match nextAttemptAt with Some t => Some t | None => job_NextAttemptAt job end)
      metadata (job_CreatedAt job) (env_now (env 2)))
  end.
End orchestrator.

(** ** The database as the stores *)

Section instances.
Variable json_column : gmap string value → gmap string value.
Variable scope_error_text : domain_error → string.

Definition db_jobs : OrchestratorJobs SyncDB := {|
  oj_Create := SyncJob_Create; oj_Get := SyncJob_Get json_column; oj_Update := SyncJob_Update |}.
Definition db_cursors : SyncCursorStore SyncDB := {| sc_Get := Cursor_Get; sc_Upsert := Cursor_Upsert; sc_Advance := Cursor_Advance |}.
(** The uuid of the tuple is that of the last environment; nobody else writes in between. *)
Definition db_sync_jobs : SyncJobStore SyncDB := {|
  sj_CreateSyncJob := λ db env input,
    SyncJob_CreateSyncJob json_column scope_error_text db env (λ _ db, db) (env_uuid (env 3)) input;
  sj_GetSyncJob := SyncJob_Get json_column |}.
End instances.
