(* ===== verification/SyncFacts.v ===== *)
(** * Facts about sync jobs and cursors

    Histories of the sync tables, idempotency of job creation, comparison of cursors, the life cycle the orchestrator follows, and what a
    guarded read discloses. *)

From S2P Require Import Prelude GoStrings GoValues Domain OAuthState Contracts Permissions ServiceTypes Grants Refresh Connections Credentials.
From S2P Require Import Service Sync.
From Stdlib Require Import ZArith String Lia.
From stdpp Require Import base decidable list gmap strings relations.

Local Open Scope string_scope.
Local Open Scope nat_scope.
Local Open Scope list_scope.

(** ** Histories *)

(** A write of any worker. *)
Inductive sync_op :=
| SopCreate (env : CallEnv) (job : SyncJob)
| SopUpdate (env : CallEnv) (job : SyncJob)
| SopCreateIdem (env : CallEnv) (rowID : string) (input : CreateSyncJobStoreInput) (job : SyncJob)
| SopUpsert (env : CallEnv) (input : UpsertSyncCursorInput)
| SopAdvance (env : CallEnv) (input : AdvanceSyncCursorInput).

Definition sync_step (db : SyncDB) (op : sync_op) : SyncDB :=
  match op with
  | SopCreate env job => (SyncJob_Create db env job).2
  | SopUpdate env job => (SyncJob_Update db env job).2
  | SopCreateIdem env rowID input job => (createSyncJobWithIdempotency db env rowID input job).2
  | SopUpsert env input => (Cursor_Upsert db env input).2
  | SopAdvance env input => (Cursor_Advance db env input).2
  end.

(** Identifiers as [uuid.NewString] makes them. *)
Definition good_id (id : string) : Prop := TrimSpace id = id ∧ blank id = false.
Definition good_op (op : sync_op) : Prop :=
  match op with
  | SopCreateIdem env rowID _ _ => good_id (env_uuid env) ∧ good_id rowID
  | _ => True
  end.

Inductive sync_steps : SyncDB → SyncDB → Prop :=
| steps_nil db : sync_steps db db
| steps_cons db op db' : good_op op → sync_steps (sync_step db op) db' → sync_steps db db'.

(** A tuple names the job it was inserted with, and jobs and tuples do not go away. *)
Definition sync_wf (db : SyncDB) : Prop :=
  (∀ id j, sy_jobs db !! id = Some j → job_ID j = id) ∧
  ∀ k r, sy_idem db !! k = Some r → good_id (ir_ID r) ∧ good_id (ir_SyncJobID r) ∧ is_Some (sy_jobs db !! ir_SyncJobID r).
(** Everything in [db] is still there in [db']. *)
Definition grows (db db' : SyncDB) : Prop :=
  (∀ id, is_Some (sy_jobs db !! id) → is_Some (sy_jobs db' !! id)) ∧ sy_idem db ⊆ sy_idem db'.

#[export] Instance grows_preorder : PreOrder grows.
Proof.
  split; [split; [done|reflexivity]|]. intros a b c [H1 H2] [H3 H4]. split; [auto|by etransitivity].
Qed.

Definition keyed_jobs (t : gmap string SyncJob) : Prop := ∀ id j, t !! id = Some j → job_ID j = id.

Lemma keyed_insert t id j : keyed_jobs t → job_ID j = id → keyed_jobs (<[id := j]> t).
Proof. intros Ht Hj k x. rewrite lookup_insert_Some. intros [[<- <-]|[_ Hx]]; auto. Qed.

Lemma grows_wf_same db db' : sync_wf db → sy_idem db' = sy_idem db → keyed_jobs (sy_jobs db') →
  (∀ id, is_Some (sy_jobs db !! id) → is_Some (sy_jobs db' !! id)) → sync_wf db' ∧ grows db db'.
Proof.
  intros [_ Hwf] Hi Hk Hj. split; [|split; [done|by rewrite Hi]]. split; [done|]. intros k r. rewrite Hi. intros Hr.
  destruct (Hwf k r Hr) as (? & ? & ?). auto.
Qed.
Lemma unchanged_jobs db db' : sync_wf db → sy_idem db' = sy_idem db → sy_jobs db' = sy_jobs db → sync_wf db' ∧ grows db db'.
Proof. intros Hwf Hi Hj. apply grows_wf_same; [done|done|rewrite Hj; exact (proj1 Hwf)|by rewrite Hj]. Qed.

Lemma insert_job_grows t j t' : insert_job t j = Some t' → t' = <[job_ID j := j]> t ∧ t !! job_ID j = None.
Proof. unfold insert_job. destruct (t !! job_ID j) eqn:E; [done|]. by intros [= <-]. Qed.

Lemma is_Some_insert {A} (t : gmap string A) k x id : is_Some (t !! id) → is_Some (<[k := x]> t !! id).
Proof. intros H. destruct (decide (k = id)) as [->|]; [rewrite lookup_insert_eq; eauto|by rewrite lookup_insert_ne]. Qed.

Lemma createIdem_cases db env rowID input job o db' :
  createSyncJobWithIdempotency db env rowID input job = (o, db') →
  let key := tuple_of (ji_Scope input) (ji_ProviderID input) (ji_Mode input) (ji_IdempotencyKey input) in
  (∃ record row, o = Ok record ∧ job_ID record = env_uuid env ∧ sy_idem db !! key = None ∧ ir_ID row = rowID ∧
     ir_SyncJobID row = env_uuid env ∧
     db' = mkSyncDB (<[env_uuid env := record]> (sy_jobs db)) (<[key := row]> (sy_idem db)) (sy_cursors db)) ∨
  (∃ e, o = Fail e ∧ db' = db ∧ (e = SyErrReplay → is_Some (sy_idem db !! key))).
Proof.
  unfold createSyncJobWithIdempotency. intros H. destruct (env_fault env 0); [right; simplify_eq; by eexists|].
  destruct (insert_job _ _) as [t|] eqn:Hi; [|right; simplify_eq; by eexists]. apply insert_job_grows in Hi as [-> Hn].
  destruct (env_fault env 1); [right; simplify_eq; by eexists|].
  destruct (sy_idem db !! _) eqn:Hk; simplify_eq; [right; by eexists; eauto|left]. do 2 eexists. split; [reflexivity|]. split; [done|]. split; [done|].
  split; [|split]; [| |reflexivity]; done.
Qed.

Lemma sync_step_grows db op : good_op op → sync_wf db → sync_wf (sync_step db op) ∧ grows db (sync_step db op).
Proof.
  intros Hop Hwf. destruct op as [env job|env job|env rowID input job|env input|env input]; simpl.
  - unfold SyncJob_Create. repeat case_match; simpl; try by apply unchanged_jobs.
    all: match goal with H : insert_job _ _ = Some _ |- _ => apply insert_job_grows in H as [-> _] end.
    all: apply grows_wf_same; [done|done|apply keyed_insert; [exact (proj1 Hwf)|done]|intros id; simpl; apply is_Some_insert].
  - unfold SyncJob_Update. repeat case_match; simpl; try by apply unchanged_jobs.
    apply grows_wf_same; [done|done|apply keyed_insert; [exact (proj1 Hwf)|done]|]. intros id. simpl. apply is_Some_insert.
  - destruct (createSyncJobWithIdempotency _ _ _ _ _) as [o db'] eqn:H. simpl.
    apply createIdem_cases in H as [(record & row & -> & Hid & Hn & Hrow & Hjob & ->)|(e & -> & -> & _)]; [|by apply unchanged_jobs].
    destruct Hop as [Hu Hr], Hwf as [Hk Hwf]. split; [split|].
    + by apply keyed_insert.
    + intros k r. simpl. rewrite lookup_insert_Some. intros [[<- <-]|[Hne Hk']].
      * rewrite Hrow, Hjob. split_and!; [done..|]. rewrite lookup_insert_eq. eauto.
      * destruct (Hwf k r Hk') as (? & ? & ?). auto using is_Some_insert.
    + split; [intros id; simpl; apply is_Some_insert|]. simpl. by apply insert_subseteq.
  - unfold Cursor_Upsert. repeat case_match; simpl; by apply unchanged_jobs.
  - unfold Cursor_Advance, advance_write. repeat case_match; simpl; by apply unchanged_jobs.
Qed.

Lemma sync_steps_grows db db' : sync_steps db db' → sync_wf db → sync_wf db' ∧ grows db db'.
Proof.
  induction 1 as [db|db op db' Hop Hs IH]; intros Hwf; [done|]. apply (sync_step_grows _ op Hop) in Hwf as [Hwf Hg].
  destruct (IH Hwf) as [Hwf' Hg']. split; [done|by etransitivity].
Qed.

(** ** Idempotent creation *)

Section idempotency.
Variable json_column : gmap string value → gmap string value.
Variable scope_error_text : domain_error → string.
Abbreviation create := (SyncJob_CreateSyncJob json_column scope_error_text).
Abbreviation normalize := (normalizeCreateSyncJobStoreInput scope_error_text).

Definition input_tuple (n : CreateSyncJobStoreInput) : idem_key :=
  tuple_of (ji_Scope n) (ji_ProviderID n) (ji_Mode n) (ji_IdempotencyKey n).

Lemma normalized_fields input n : normalize input = Ok n →
  n = mkJobInput (TrimSpace (ji_ProviderID input))
    (mkScopeRef (lowerTrim (scope_Type (ji_Scope input))) (TrimSpace (scope_ID (ji_Scope input)))) (TrimSpace (ji_ConnectionID input))
    (lowerTrim (ji_Mode input)) (TrimSpace (ji_IdempotencyKey input)) (TrimSpace (ji_RequestedBy input)) (copyAnyMap (ji_Metadata input)) ∧
  ji_Mode n ∈ [SyncJobModeFull; SyncJobModeDelta].
Proof.
  unfold normalizeCreateSyncJobStoreInput. intros H. case_match; [done|]. case_match; [|done]. case_match; [done|].
  case_match eqn:Hm; [|done]. injection H as <-. split; [done|].
  apply orb_true_iff in Hm as [Hm|Hm]; apply String.eqb_eq in Hm; rewrite Hm; set_solver.
Qed.

(** The tuple of a request that the store accepts is looked up as it was inserted. *)
Lemma normalized_tuple input n : normalize input = Ok n →
  tuple_of (mkScopeRef (lowerTrim (scope_Type (ji_Scope n))) (TrimSpace (scope_ID (ji_Scope n)))) (TrimSpace (ji_ProviderID n))
    (lowerTrim (ji_Mode n)) (TrimSpace (TrimSpace (ji_IdempotencyKey n))) = input_tuple n.
Proof.
  intros H. apply normalized_fields in H as [-> _]. unfold input_tuple, tuple_of. cbn [ji_Scope ji_ProviderID ji_Mode ji_IdempotencyKey scope_Type scope_ID].
  by rewrite !lowerTrim_idem, !TrimSpace_idem.
Qed.

(** What a successful creation leaves: the tuple of the request names the job that is returned. *)
Lemma create_binds db env other rowID input n r db' :
  sync_wf db → good_id (env_uuid (env 0)) → good_id rowID → (∀ i d, sync_steps d (other i d)) →
  normalize input = Ok n → blank (ji_IdempotencyKey n) = false →
  create db env other rowID input = (Ok r, db') →
  sync_wf db' ∧ grows db db' ∧
  (∃ row, sy_idem db' !! input_tuple n = Some row ∧ ir_SyncJobID row = job_ID (jr_Job r)) ∧
  (jr_Created r = false ↔ is_Some (sy_idem db !! input_tuple n)).
Proof.
  intros Hwf Hu Hrow Ho Hn Hb H. unfold SyncJob_CreateSyncJob in H. rewrite Hn in H.
  assert (String.eqb (TrimSpace (ji_IdempotencyKey n)) "" = false) as Hk by exact Hb. rewrite Hk in H.
  destruct (createSyncJobWithIdempotency _ _ _ _ _) as [o d] eqn:Hc.
  match type of Hc with createSyncJobWithIdempotency _ _ _ _ ?job = _ =>
    pose proof (sync_step_grows db (SopCreateIdem (env 0) rowID n job) (conj Hu Hrow) Hwf) as Hg end.
  cbn [sync_step] in Hg. rewrite Hc in Hg. cbn [snd] in Hg.
  apply createIdem_cases in Hc as [(record & row & -> & Hid & Hnone & _ & Hjob & ->)|(e & -> & -> & Hrep)].
  - injection H as <- <-. simpl. destruct Hg as [Hwf' Hg]. split_and!; [done|done| |].
    + exists row. unfold input_tuple. rewrite lookup_insert_eq. split; [done|congruence].
    + unfold input_tuple. rewrite Hnone. split; [done|by intros []].
  - destruct e; simplify_eq/=. specialize (Hrep eq_refl). destruct Hrep as [row Hr].
    destruct (sync_steps_grows _ _ (Ho 0 db) Hwf) as [Hwf1 Hg1]. set (d1 := other 0 db) in *.
    destruct (sync_steps_grows _ _ (Ho 1 d1) Hwf1) as [Hwf2 Hg2]. set (d2 := other 1 d1) in *.
    assert (Hr1 : sy_idem d1 !! input_tuple n = Some row) by (destruct Hg1 as [_ Hs]; by eapply lookup_weaken).
    assert (Hr2 : sy_idem d2 !! input_tuple n = Some row) by (destruct Hg2 as [_ Hs]; by eapply lookup_weaken).
    unfold findSyncJobIdempotency in H. destruct (env_fault (env 1) 0); [done|].
    rewrite (normalized_tuple input n Hn), Hr1 in H. destruct (proj2 Hwf1 _ _ Hr1) as ([_ Hid] & [Htrim Hjb] & _).
    rewrite Hid, Hjb in H. unfold SyncJob_Get in H. destruct (env_fault (env 2) 0); [done|]. rewrite Htrim in H.
    destruct (sy_jobs d2 !! ir_SyncJobID row) as [j|] eqn:Hj; [|done]. injection H as <- <-. simpl.
    split_and!; [done|by etransitivity| |].
    + exists row. split; [done|]. symmetry. by apply (proj1 Hwf2).
    + split; [by eauto|done].
Qed.

(** With the database answering and a fresh identifier, a creation succeeds. *)
Lemma create_succeeds db env other rowID input n :
  sync_wf db → (∀ i d, sync_steps d (other i d)) → (∀ i k, env_fault (env i) k = None) → sy_jobs db !! env_uuid (env 0) = None →
  normalize input = Ok n → blank (ji_IdempotencyKey n) = false → ∃ r db', create db env other rowID input = (Ok r, db').
Proof.
  intros Hwf Ho Hf Hfresh Hn Hb. unfold SyncJob_CreateSyncJob. rewrite Hn.
  assert (String.eqb (TrimSpace (ji_IdempotencyKey n)) "" = false) as -> by exact Hb.
  unfold createSyncJobWithIdempotency, insert_job. rewrite !Hf. cbn [newSyncJobRecord job_ID]. rewrite Hfresh.
  destruct (sy_idem db !! tuple_of _ _ _ _) as [row|] eqn:Hr; [|eauto]. fold (input_tuple n) in Hr.
  destruct (sync_steps_grows _ _ (Ho 0 db) Hwf) as [Hwf1 [_ Hg1]]. destruct (sync_steps_grows _ _ (Ho 1 (other 0 db)) Hwf1) as [Hwf2 [Hj2 _]].
  assert (Hr1 : sy_idem (other 0 db) !! input_tuple n = Some row) by by eapply lookup_weaken.
  unfold findSyncJobIdempotency. rewrite Hf, (normalized_tuple input n Hn), Hr1.
  destruct (proj2 Hwf1 _ _ Hr1) as ([_ Hid] & [Htrim Hjb] & Hjob). rewrite Hid, Hjb. unfold SyncJob_Get. rewrite Hf, Htrim.
  destruct (Hj2 _ Hjob) as [j ->]. eauto.
Qed.

(** Creating a sync job is idempotent: once a request with a key has succeeded, a request with the same scope, provider, mode and key
    that succeeds later returns the very same job and says that it did not create it, whatever other workers do to the sync tables in between
    and during the call; and the second request does succeed if the database answers and the identifiers are fresh. *)
Theorem sync_job_idempotent db env1 env2 other1 other2 row1 row2 input1 input2 n1 n2 r1 db1 db2 :
  sync_wf db → good_id (env_uuid (env1 0)) → good_id (env_uuid (env2 0)) → good_id row1 → good_id row2 →
  (∀ i d, sync_steps d (other1 i d)) → (∀ i d, sync_steps d (other2 i d)) →
  normalize input1 = Ok n1 → normalize input2 = Ok n2 → input_tuple n2 = input_tuple n1 → blank (ji_IdempotencyKey n1) = false →
  create db env1 other1 row1 input1 = (Ok r1, db1) → sync_steps db1 db2 →
  (∀ r2 db3, create db2 env2 other2 row2 input2 = (Ok r2, db3) → job_ID (jr_Job r2) = job_ID (jr_Job r1) ∧ jr_Created r2 = false) ∧
  ((∀ i k, env_fault (env2 i) k = None) → sy_jobs db2 !! env_uuid (env2 0) = None →
   ∃ r2 db3, create db2 env2 other2 row2 input2 = (Ok r2, db3)).
Proof.
  intros Hwf Hu1 Hu2 Hr1 Hr2 Ho1 Ho2 Hn1 Hn2 Ht Hb1 H1 Hs.
  assert (Hb2 : blank (ji_IdempotencyKey n2) = false) by (unfold input_tuple, tuple_of in Ht; by injection Ht as _ _ _ _ ->).
  destruct (create_binds _ _ _ _ _ _ _ _ Hwf Hu1 Hr1 Ho1 Hn1 Hb1 H1) as (Hwf1 & _ & (row & Hrow & Hj) & _).
  destruct (sync_steps_grows _ _ Hs Hwf1) as [Hwf2 [_ Hg]]. split; [|intros Hf Hfresh; by eapply create_succeeds].
  intros r2 db3 H2. destruct (create_binds _ _ _ _ _ _ _ _ Hwf2 Hu2 Hr2 Ho2 Hn2 Hb2 H2) as (_ & [_ Hg3] & (row' & Hrow' & Hj') & Hc).
  assert (Hrow2 : sy_idem db2 !! input_tuple n2 = Some row) by (rewrite Ht; by eapply lookup_weaken).
  split; [|apply Hc; by eexists]. pose proof (lookup_weaken _ _ _ _ Hrow2 Hg3). congruence.
Qed.
End idempotency.

Definition demo_db : SyncDB := mkSyncDB ∅ ∅ ∅.
Definition demo_call (uuid : string) (n : nat) : CallEnv := quiet (10 * Z.of_nat n)%Z uuid.
Definition demo_input (requestedBy : string) : CreateSyncJobStoreInput :=
  mkJobInput " acme " (mkScopeRef " Org " "o1") "c1" "FULL" " k-1 " requestedBy ∅.

Lemma empty_wf : sync_wf demo_db.
Proof. split; intros ? ? H; cbn [demo_db sy_jobs sy_idem] in H; by rewrite lookup_empty in H. Qed.

(** The second request comes after another worker has written a cursor. *)
Lemma sync_job_idempotent_witness :
  ∃ r1 db1, SyncJob_CreateSyncJob id (λ _, "") demo_db (demo_call "j-1") (λ _ d, d) "i-1" (demo_input "ana") = (Ok r1, db1) ∧
    (∃ r2 db3, SyncJob_CreateSyncJob id (λ _, "") (sync_step db1 (SopUpsert (demo_call "u" 1) (mkUpsertCursor "c1" "acme" "t" "r" "x" None "" ∅)))
       (demo_call "j-2") (λ _ d, d) "i-2" (demo_input "bob") = (Ok r2, db3)).
Proof.
  do 2 eexists. split; [reflexivity|].
  eapply (sync_job_idempotent id (λ _, "") demo_db (demo_call "j-1") (demo_call "j-2") (λ _ d, d) (λ _ d, d) "i-1" "i-2"
    (demo_input "ana") (demo_input "bob"));
    [apply empty_wf|done|done|done|done|intros; constructor|intros; constructor|reflexivity|reflexivity|reflexivity|reflexivity|reflexivity| |done|].
  - eapply steps_cons; [|apply steps_nil]. done.
  - vm_compute. reflexivity.
Defined.

(** ** Comparison of cursors *)

Abbreviation advance_key input := (key_of_cursor (advance_input input)).

Lemma advance_success db env input c db' : Cursor_Advance db env input = (Ok c, db') →
  ∃ row, db' = with_cursors db (<[advance_key input := row]> (sy_cursors db)) ∧ c = cursor_toDomain row ∧
    crow_Cursor row = TrimSpace (av_Cursor input) ∧ cursor_checks (advance_input input) = None ∧
    (blank (av_ExpectedCursor input) = false →
     ∃ r, sy_cursors db !! advance_key input = Some r ∧ EqualFold (crow_Cursor r) (TrimSpace (av_ExpectedCursor input)) = true).
Proof.
  unfold Cursor_Advance, advance_read, blank. intros H. destruct (cursor_checks _) eqn:Hc; [done|]. destruct (env_fault env 0); [done|].
  destruct (sy_cursors db !! advance_key input) as [r|] eqn:Hr.
  - destruct (negb _ && negb _) eqn:He; [done|]. unfold advance_write in H. destruct (env_fault env 1); [done|]. rewrite Hr in H.
    injection H as <- <-. eexists. split; [reflexivity|]. split_and!; [done..|]. intros Hb. rewrite Hb in He. exists r.
    split; [done|]. by apply negb_false_iff in He.
  - destruct (String.eqb _ "") eqn:He; [|done]. unfold advance_write in H. destruct (env_fault env 1); [done|]. rewrite Hr in H.
    injection H as <- <-. eexists. split; [reflexivity|]. by split_and!.
Qed.

(** [Advance] is a compare-and-set: it succeeds with a non-blank expectation only if the row has that cursor (up to letter case), stores the
    new cursor in that row and touches nothing else; and from then on, as long as the row is not written again, whoever still expects the old
    cursor is refused with a conflict and changes nothing, unless the two cursors differ in letter case only. *)
Theorem cursor_compare_and_set db env1 env2 first second c db1 db2 :
  Cursor_Advance db env1 first = (Ok c, db1) → blank (av_ExpectedCursor first) = false →
  advance_key second = advance_key first → cursor_checks (advance_input second) = None →
  EqualFold (TrimSpace (av_ExpectedCursor second)) (TrimSpace (av_ExpectedCursor first)) = true →
  EqualFold (TrimSpace (av_Cursor first)) (TrimSpace (av_ExpectedCursor first)) = false →
  blank (av_ExpectedCursor second) = false → env_fault env2 0 = None → sy_cursors db2 !! advance_key first = sy_cursors db1 !! advance_key first →
  (∃ r row, sy_cursors db !! advance_key first = Some r ∧ EqualFold (crow_Cursor r) (TrimSpace (av_ExpectedCursor first)) = true ∧
     db1 = with_cursors db (<[advance_key first := row]> (sy_cursors db)) ∧ crow_Cursor row = TrimSpace (av_Cursor first) ∧
     c = cursor_toDomain row) ∧
  Cursor_Advance db2 env2 second = (Fail SyErrCursorConflict, db2).
Proof.
  intros H Hb Hkey Hchk Hsame Hdiff Hb2 Hf Hrow. apply advance_success in H as (row & -> & -> & Hcur & _ & Hexp).
  destruct (Hexp Hb) as (r & Hr & Hre). split; [by exists r, row|]. cbn [with_cursors sy_cursors] in Hrow. rewrite lookup_insert_eq in Hrow.
  unfold Cursor_Advance, advance_read. rewrite Hchk, Hf, Hkey, Hrow, Hcur.
  assert (EqualFold (TrimSpace (av_Cursor first)) (TrimSpace (av_ExpectedCursor second)) = false) as ->.
  { destruct (EqualFold _ (TrimSpace (av_ExpectedCursor second))) eqn:He; [|done]. rewrite <-Hdiff. symmetry.
    apply EqualFold_eq. apply EqualFold_eq in He, Hsame. congruence. }
  unfold blank in Hb2. by rewrite Hb2.
Qed.

Definition demo_advance (expected cursor : string) : AdvanceSyncCursorInput :=
  mkAdvanceCursor "c1" "acme" "contacts" "all" expected cursor None "" ∅.
Definition cursor_at (cursor : string) : SyncDB :=
  (Cursor_Upsert demo_db (demo_call "row" 1) (mkUpsertCursor "c1" "acme" "contacts" "all" cursor None "" ∅)).2.
Definition stored_cursor (db : SyncDB) : option string := crow_Cursor <$> sy_cursors db !! ("c1", "acme", "contacts", "all").

Lemma cursor_compare_and_set_witness :
  ∃ c db1, Cursor_Advance (cursor_at "p1") (demo_call "a" 2) (demo_advance "p1" "p2") = (Ok c, db1) ∧
    Cursor_Advance db1 (demo_call "b" 3) (demo_advance " p1 " "p3") = (Fail SyErrCursorConflict, db1).
Proof.
  do 2 eexists. split; [reflexivity|].
  eapply (cursor_compare_and_set (cursor_at "p1") (demo_call "a" 2) (demo_call "b" 3) (demo_advance "p1" "p2") (demo_advance " p1 " "p3"));
    vm_compute; reflexivity.
Defined.

(** Cursors are compared without regard to case, though providers hand out base64 and other case-sensitive tokens: a worker whose expectation
    is stale is not refused. *)
Example cursor_case_ignored :
  ∃ c db1, Cursor_Advance (cursor_at "QUJD") (demo_call "a" 2) (demo_advance "qujd" "next") = (Ok c, db1) ∧ stored_cursor db1 = Some "next".
Proof. do 2 eexists. split; reflexivity. Qed.

(** The read of [Advance] takes no row lock: two workers that both read the row before either writes both succeed, and the second cursor
    overwrites the first. *)
Example advance_race :
  let db := cursor_at "p1" in
  match advance_read db (demo_call "a" 2) (demo_advance "p1" "p2"), advance_read db (demo_call "b" 3) (demo_advance "p1" "p3") with
  | Ok r1, Ok r2 =>
    let (o1, db1) := advance_write db (demo_call "a" 2) (demo_advance "p1" "p2") r1 in
    let (o2, db2) := advance_write db1 (demo_call "b" 3) (demo_advance "p1" "p3") r2 in
    (obind o1 (λ c, Ok (cursor_Cursor c)), obind o2 (λ c, Ok (cursor_Cursor c)), stored_cursor db2) = (Ok "p2", Ok "p3", Some "p3")
  | _, _ => False
  end.
Proof. vm_compute. reflexivity. Qed.

(** ** The orchestrator and the machine of sync jobs *)

Section orchestrator.
Variable json_column : gmap string value → gmap string value.
Variable time_Format : Time → string → string.
#[local] Existing Instance db_cursors.
#[local] Instance jobs_of : OrchestratorJobs SyncDB := db_jobs json_column.

Inductive orchestrator_op :=
| OrBootstrap (req : BootstrapRequest) | OrBackfill (req : BackfillRequest)
| OrIncremental (connectionID providerID resourceType resourceID : string) (metadata : gmap string value)
| OrResume (jobID : string)
| OrSaveCheckpoint (jobID checkpoint : string) (metadata : gmap string value)
| OrComplete (jobID checkpoint : string) (metadata : gmap string value)
| OrFail (jobID : string) (cause : option string) (nextAttemptAt : option Time).

Definition orchestrator_step (withCursors : bool) (env : nat → CallEnv) (db : SyncDB) (op : orchestrator_op) : SyncDB :=
  match op with
  | OrBootstrap req => (StartBootstrap withCursors env db req).2
  | OrBackfill req => (StartBackfill time_Format withCursors env db req).2
  | OrIncremental c p t r m => (StartIncremental withCursors env db c p t r m).2
  | OrResume id => (Resume env db id).2
  | OrSaveCheckpoint id cp m => (SaveCheckpoint env db id cp m).2
  | OrComplete id cp m => (Complete env db id cp m).2
  | OrFail id cause next => (Fail_job env db id cause next).2
  end.

(** The job a caller reports progress on: [Resume] only asks for it to be run. *)
Definition reported (op : orchestrator_op) : option string :=
  match op with OrSaveCheckpoint id _ _ | OrComplete id _ _ | OrFail id _ _ => Some (TrimSpace id) | _ => None end.
Definition reports_open (db : SyncDB) (op : orchestrator_op) : Prop :=
  ∀ id j, reported op = Some id → sy_jobs db !! id = Some j → job_Status j ≠ SyncJobStatusSucceeded.

Definition job_identity (j : SyncJob) := (job_ID j, job_ConnectionID j, job_ProviderID j, job_Mode j, job_CreatedAt j).
Definition allowed (s t : string) : Prop := syncJobTransitionAllowed s t = true.
Definition known (s : string) : Prop :=
  s ∈ [SyncJobStatusQueued; SyncJobStatusRunning; SyncJobStatusFailed; SyncJobStatusSucceeded].

Lemma known_statuses : known SyncJobStatusQueued ∧ known SyncJobStatusRunning ∧ known SyncJobStatusFailed ∧ known SyncJobStatusSucceeded.
Proof. unfold known. rewrite !elem_of_cons, elem_of_nil. tauto. Qed.
Lemma known_rtc s t : known s → rtc allowed s t → known t.
Proof.
  intros Hs Hr. induction Hr as [|s u t Hsu _ IH]; [done|]. apply IH. exact (table_closed_spec syncJobTransitions s u eq_refl Hsu).
Qed.

(** [j'] is what one operation may make of [j]. *)
Definition follows (j j' : SyncJob) : Prop := rtc allowed (job_Status j) (job_Status j') ∧ job_identity j' = job_identity j.
#[local] Instance follows_preorder : PreOrder follows.
Proof. split; [by split|]. intros a b c [H1 H2] [H3 H4]. split; [by etransitivity|congruence]. Qed.

(** Every job of [db] is still there and followed the machine, and a new job has a known status. *)
Definition all_follow (db db' : SyncDB) : Prop :=
  keyed_jobs (sy_jobs db') ∧ (∀ id j, sy_jobs db !! id = Some j → ∃ j', sy_jobs db' !! id = Some j' ∧ follows j j') ∧
  ∀ id j', sy_jobs db' !! id = Some j' → is_Some (sy_jobs db !! id) ∨ known (job_Status j').
Definition all_known (db : SyncDB) : Prop := ∀ id j, sy_jobs db !! id = Some j → known (job_Status j).

Lemma all_follow_refl db : keyed_jobs (sy_jobs db) → all_follow db db.
Proof. intros Hk. split; [done|]. split; [intros id j Hj; exists j; by split|eauto]. Qed.
Lemma all_follow_trans db1 db2 db3 : all_follow db1 db2 → all_follow db2 db3 → all_follow db1 db3.
Proof.
  intros (_ & H1 & H1') (Hk & H2 & H2'). split; [done|]. split.
  - intros id j Hj. destruct (H1 id j Hj) as (j2 & Hj2 & Hf). destruct (H2 id j2 Hj2) as (j3 & Hj3 & Hf'). exists j3. split; [done|by etransitivity].
  - intros id j3 Hj3. destruct (H2' id j3 Hj3) as [[j2 Hj2]|?]; [|by right]. destruct (H1' id j2 Hj2) as [?|Hs]; [by left|].
    destruct (H2 id j2 Hj2) as (j3' & Hj3' & [Hr _]). simplify_eq. right. by eapply known_rtc.
Qed.
Lemma all_follow_known db db' : all_follow db db' → all_known db → all_known db'.
Proof.
  intros (_ & H1 & H2) Hk id j' Hj'. destruct (H2 id j' Hj') as [[j Hj]|?]; [|done]. destruct (H1 id j Hj) as (? & ? & [Hr _]). simplify_eq.
  eapply known_rtc; eauto.
Qed.
Lemma all_follow_insert db id j' : keyed_jobs (sy_jobs db) → job_ID j' = id →
  (∀ j, sy_jobs db !! id = Some j → follows j j') → is_Some (sy_jobs db !! id) ∨ known (job_Status j') →
  all_follow db (with_jobs db (<[id := j']> (sy_jobs db))).
Proof.
  intros Hk Hid Hf Hn. split; [by apply keyed_insert|]. cbn [with_jobs sy_jobs]. split.
  - intros k j Hj. destruct (decide (id = k)) as [<-|Hne]; [rewrite lookup_insert_eq; eauto|].
    rewrite lookup_insert_ne by done. exists j. by split.
  - intros k j. rewrite lookup_insert_Some. intros [[<- <-]|[_ Hj]]; eauto.
Qed.

Lemma create_follows db env job : keyed_jobs (sy_jobs db) → job_Status job = SyncJobStatusQueued → all_follow db (SyncJob_Create db env job).2.
Proof.
  intros Hk Hq. unfold SyncJob_Create. destruct (_ || _); [by apply all_follow_refl|]. cbv zeta. destruct (env_fault env 0); [by apply all_follow_refl|].
  destruct (insert_job _ _) as [t|] eqn:Hi; [|by apply all_follow_refl]. apply insert_job_grows in Hi as [-> Hn]. cbn [snd].
  apply all_follow_insert; [done|done|rewrite Hn; done|right]. rewrite Hq. apply known_statuses.
Qed.

(** An update of the job that a read returned, with another status. *)
Lemma update_follows db env id j job' : keyed_jobs (sy_jobs db) → sy_jobs db !! TrimSpace id = Some j →
  job_identity job' = job_identity j → rtc allowed (job_Status j) (job_Status job') →
  all_follow db (SyncJob_Update db env job').2 ∧
  ∀ r, (SyncJob_Update db env job').1 = Ok r →
    sy_jobs (SyncJob_Update db env job').2 !! TrimSpace id = Some r ∧ job_Status r = job_Status job' ∧ job_identity r = job_identity job'.
Proof.
  intros Hk Hj Hid Hs. pose proof (Hk _ _ Hj) as Hkey. unfold job_identity in Hid. injection Hid as H1 H2 H3 H4 H5.
  assert (Ht : TrimSpace (job_ID job') = TrimSpace id) by (rewrite H1, Hkey; apply TrimSpace_idem).
  unfold SyncJob_Update. rewrite Ht. destruct (String.eqb _ ""); [by split; [apply all_follow_refl|]|].
  destruct (env_fault env 0); [by split; [apply all_follow_refl|]|]. rewrite Hj. cbn [fst snd]. split.
  - apply all_follow_insert; [done|done| |by eauto]. rewrite Hj. intros ? [= <-]. split; [done|]. unfold job_identity. cbn. congruence.
  - intros r [= <-]. cbn [with_jobs sy_jobs]. rewrite lookup_insert_eq. split_and!; [done..|]. unfold job_identity. cbn. congruence.
Qed.

Lemma allowed_running s : known s → s ≠ SyncJobStatusSucceeded → rtc allowed s SyncJobStatusRunning.
Proof.
  unfold known. rewrite !elem_of_cons, elem_of_nil. intros [->|[->|[->|[->|[]]]]] Hs; [|reflexivity| |done]; by apply rtc_once.
Qed.
Lemma allowed_failed s : known s → s ≠ SyncJobStatusSucceeded → rtc allowed s SyncJobStatusFailed.
Proof.
  unfold known. rewrite !elem_of_cons, elem_of_nil. intros [->|[->|[->|[->|[]]]]] Hs; [| |reflexivity|done]; by apply rtc_once.
Qed.

(** What the read of an operation found. *)
Lemma job_Get_Ok db env id j : SyncJob_Get json_column db env id = Ok j →
  ∃ j0, sy_jobs db !! TrimSpace id = Some j0 ∧ job_Status j = job_Status j0 ∧ job_identity j = job_identity j0.
Proof. unfold SyncJob_Get. destruct (env_fault env 0); [done|]. destruct (sy_jobs db !! _) as [j0|]; [|done]. intros [= <-]. by exists j0. Qed.

Lemma save_follows env db id cp m : keyed_jobs (sy_jobs db) → all_known db → reports_open db (OrSaveCheckpoint id cp m) →
  all_follow db (SaveCheckpoint env db id cp m).2 ∧
  ∀ r, (SaveCheckpoint env db id cp m).1 = Ok r →
    sy_jobs (SaveCheckpoint env db id cp m).2 !! TrimSpace id = Some r ∧ job_Status r = SyncJobStatusRunning.
Proof.
  intros Hk Hs Hopen. unfold SaveCheckpoint. cbn [oj_Get oj_Update jobs_of db_jobs].
  destruct (SyncJob_Get _ _ _ _) as [j|e] eqn:Hg; [|split; [by apply all_follow_refl|done]].
  apply job_Get_Ok in Hg as (j0 & Hj0 & Hst & Hid). rewrite TrimSpace_idem in Hj0.
  edestruct (update_follows db (env 1) id j0) as [H1 H2]; [done|done| | |split; [exact H1|]].
  - rewrite <-Hid. done.
  - apply allowed_running; [by eapply Hs|]. by eapply Hopen.
  - intros r Hr. destruct (H2 r Hr) as (H & H' & _). split; [exact H|]. rewrite H'. done.
Qed.

Lemma orchestrator_step_follows withCursors env db op : keyed_jobs (sy_jobs db) → all_known db → reports_open db op →
  all_follow db (orchestrator_step withCursors env db op).
Proof.
  intros Hk Hs Hopen. destruct op as [req|req|c p t r m|id|id cp m|id cp m|id cause next]; cbn [orchestrator_step].
  1-3: unfold StartBootstrap, StartBackfill, StartIncremental, start; destruct (_ || _); [by apply all_follow_refl|]; by apply create_follows.
  - unfold Resume. destruct (String.eqb _ ""); [by apply all_follow_refl|]. cbn [oj_Get oj_Update jobs_of db_jobs].
    destruct (SyncJob_Get _ _ _ _) as [j|e] eqn:Hg; [|by apply all_follow_refl]. apply job_Get_Ok in Hg as (j0 & Hj0 & Hst & Hid).
    destruct (String.eqb (job_Status j) SyncJobStatusSucceeded) eqn:Hsucc; [by apply all_follow_refl|].
    match goal with |- context [SyncJob_Update db ?e ?job] => pose proof (update_follows db e _ j0 job Hk Hj0) as Hu end.
    destruct (SyncJob_Update _ _ _) as [o db']. cbn [snd] in *. apply Hu.
    + rewrite <-Hid. done.
    + cbn [job_Status]. destruct (String.eqb (job_Status j) SyncJobStatusFailed) eqn:Hf; [|by rewrite Hst].
      apply String.eqb_eq in Hf. rewrite <-Hst, Hf. by apply rtc_once.
  - by apply save_follows.
  - destruct (save_follows env db id cp m Hk Hs Hopen) as [H1 H2]. unfold Complete.
    destruct (SaveCheckpoint env db id cp m) as [[r|e] db'] eqn:Hsave; [|done]. cbn [fst snd] in *.
    destruct (H2 r eq_refl) as [Hr Hrun]. eapply all_follow_trans; [exact H1|].
    apply (update_follows db' (env 3) id r); [apply H1|done|done|]. cbn [job_set job_Status]. rewrite Hrun. by apply rtc_once.
  - unfold Fail_job. cbn [oj_Get oj_Update jobs_of db_jobs].
    destruct (SyncJob_Get _ _ _ _) as [j|e] eqn:Hg; [|by apply all_follow_refl]. apply job_Get_Ok in Hg as (j0 & Hj0 & Hst & Hid).
    rewrite TrimSpace_idem in Hj0. apply (update_follows db (env 1) id j0); [done|done|by rewrite <-Hid|].
    cbn [job_Status]. apply allowed_failed; [by eapply Hs|]. by eapply Hopen.
Qed.

(** Histories of orchestrator calls in which nobody reports progress on a job that has succeeded. *)
Inductive orchestrated : SyncDB → SyncDB → Prop :=
| orch_nil db : orchestrated db db
| orch_cons withCursors env db op db' :
    reports_open db op → orchestrated (orchestrator_step withCursors env db op) db' → orchestrated db db'.

Lemma orchestrated_follows db db' : orchestrated db db' → keyed_jobs (sy_jobs db) → all_known db → all_follow db db'.
Proof.
  induction 1 as [db|withCursors env db op db' Hopen _ IH]; intros Hk Hs; [by apply all_follow_refl|].
  pose proof (orchestrator_step_follows withCursors env db op Hk Hs Hopen) as Hf. eapply all_follow_trans; [exact Hf|].
  apply IH; [apply Hf|by eapply all_follow_known].
Qed.

End orchestrator.

Definition running_db : SyncDB :=
  mkSyncDB {[ "j-1" := mkSyncJob "j-1" "c1" "acme" SyncJobModeFull "" SyncJobStatusRunning 0 None ∅ 0 0 ]} ∅ ∅.


(** The orchestrator itself does not keep to the machine: progress reported late reopens a job that has succeeded, a transition that
    [SyncJob.TransitionTo] refuses. *)
Example late_checkpoint_reopens :
  let done_db := orchestrator_step id (λ _ _, "") true (demo_call "u") running_db (OrComplete "j-1" "cp" ∅) in
  let late_db := orchestrator_step id (λ _ _, "") true (demo_call "u") done_db (OrFail "j-1" (Some "timeout") None) in
  (job_Status <$> sy_jobs done_db !! "j-1", job_Status <$> sy_jobs late_db !! "j-1") = (Some SyncJobStatusSucceeded, Some SyncJobStatusFailed)
  ∧ syncJobTransitionAllowed SyncJobStatusSucceeded SyncJobStatusFailed = false.
Proof. split; vm_compute; reflexivity. Qed.

(** ** What a guarded read discloses *)

Section guarded.
Context {E W : Type} {conns : ConnectionStore E W}.
Variable json_column : gmap string value → gmap string value.
Variable scope_error_text : domain_error → string.
#[local] Instance guarded_jobs : SyncJobStore SyncDB := db_sync_jobs json_column scope_error_text.

(** The guards a request names: the provider, the connection, and the scope of the connection of the job. *)
Definition guards_hold (env : nat → CallEnv) (w : W) (n : GetSyncJobRequest) (scope : option ScopeRef) (job : SyncJob) : Prop :=
  (gj_ProviderID n = "" ∨ EqualFold (TrimSpace (job_ProviderID job)) (gj_ProviderID n) = true) ∧
  (gj_ConnectionID n = "" ∨ EqualFold (TrimSpace (job_ConnectionID job)) (gj_ConnectionID n) = true) ∧
  ∀ s, scope = Some s → ∃ c, cs_Get w (env 1) (TrimSpace (job_ConnectionID job)) = Ok c ∧
    EqualFold (TrimSpace (conn_ScopeType c)) (scope_Type s) = true ∧ TrimSpace (conn_ScopeID c) = scope_ID s.

Lemma guard_spec a b : negb (String.eqb a "") && negb (EqualFold b a) = false ↔ a = "" ∨ EqualFold b a = true.
Proof. destruct (String.eqb_spec a "") as [->|Hne]; simpl; [by split; [left|]|]. rewrite negb_false_iff. naive_solver. Qed.

Lemma normalized_job_id req n scope : normalizeGetSyncJobRequest scope_error_text req = Ok (n, scope) → TrimSpace (gj_SyncJobID n) = gj_SyncJobID n.
Proof.
  unfold normalizeGetSyncJobRequest. destruct (String.eqb _ ""); [done|]. destruct (xorb _ _); [done|]. cbn [gj_SyncJobID].
  destruct (negb _); [intros [= <- <-]; apply TrimSpace_idem|]. destruct (ScopeRef_Validate _); [|done]. intros [= <- <-]. apply TrimSpace_idem.
Qed.

(** A read of a sync job that the caller restricts to a provider, a connection or a scope returns the job if the guards hold; if one of
    them does not, the answer is the very one that a database without the job gives, so that guessing identifiers shows nothing. *)
Theorem sync_job_guarded (v : Service (E := E) (W := W)) env w d req n scope job :
  normalizeGetSyncJobRequest scope_error_text req = Ok (n, scope) → svc_connectionStore v = true → env_fault (env 0) 0 = None →
  sy_jobs d !! gj_SyncJobID n = Some job →
  let read d := GetSyncJob scope_error_text v true env w d req in
  (guards_hold env w n scope job ∧ read d = Ok (job_with_metadata job (json_column (job_Metadata job)))) ∨
  (¬ guards_hold env w n scope job ∧ read d = read (with_jobs d (delete (gj_SyncJobID n) (sy_jobs d))) ∧
   read d = Fail (SyncErr (SyErrJobNotFound (gj_SyncJobID n)))).
Proof.
  intros Hn Hstore Hf Hj read. pose proof (normalized_job_id _ _ _ Hn) as Ht.
  assert (Hmiss : read (with_jobs d (delete (gj_SyncJobID n) (sy_jobs d))) = Fail (SyncErr (SyErrJobNotFound (gj_SyncJobID n)))).
  { unfold read, GetSyncJob. cbn [negb]. rewrite Hn. cbn [sj_GetSyncJob guarded_jobs db_sync_jobs]. unfold SyncJob_Get.
    cbn [with_jobs sy_jobs]. by rewrite Hf, Ht, lookup_delete_eq. }
  rewrite Hmiss. clear Hmiss. unfold read, GetSyncJob. cbn [negb]. rewrite Hn. cbn [sj_GetSyncJob guarded_jobs db_sync_jobs]. unfold SyncJob_Get.
  rewrite Hf, Ht, Hj. cbn [job_with_metadata job_ProviderID job_ConnectionID]. unfold guards_hold.
  destruct (negb (String.eqb (gj_ProviderID n) "") && _) eqn:Hp.
  { right. split; [|done]. intros [H _]. apply guard_spec in H. congruence. }
  destruct (negb (String.eqb (gj_ConnectionID n) "") && _) eqn:Hc.
  { right. split; [|done]. intros (_ & H & _). apply guard_spec in H. congruence. }
  apply guard_spec in Hp, Hc. destruct scope as [s|]; [|left; by split_and!].
  rewrite Hstore. cbn [negb]. destruct (cs_Get _ _ _) as [c|e]; [|right; split; [|done]; intros (_ & _ & H); by destruct (H s eq_refl) as (? & ? & _)].
  destruct (EqualFold (TrimSpace (conn_ScopeType c)) (scope_Type s)) eqn:Hs, (String.eqb_spec (TrimSpace (conn_ScopeID c)) (scope_ID s)); cbn [negb orb].
  1: left; split_and!; [done..| |done]; intros ? [= <-]; by exists c.
  all: right; split; [|done]; intros (_ & _ & H); destruct (H s eq_refl) as (? & [= <-] & ? & ?); congruence.
Qed.
End guarded.

(** The job of [github]'s connection, asked for in its scope and in another. *)
Definition scoped_read (scopeID : string) : GetSyncJobRequest := mkGetJob " j-1 " "GitHub" "user" scopeID "".
Definition connected_job : SyncDB :=
  mkSyncDB {[ "j-1" := mkSyncJob "j-1" "id-1" "github" SyncJobModeFull "" SyncJobStatusRunning 0 None ∅ 0 0 ]} ∅ ∅.

Lemma sync_job_guarded_witness :
  let read scopeID d := GetSyncJob (jobs := db_sync_jobs id (λ _, "")) (λ _, "") demo_service true (demo_env 500) (s_db demo_connected) d
    (scoped_read scopeID) in
  (∃ j, read "u1" connected_job = Ok j) ∧ read "u2" connected_job = read "u2" (with_jobs connected_job (delete "j-1" (sy_jobs connected_job))).
Proof.
  intros read. split; [exists (mkSyncJob "j-1" "id-1" "github" SyncJobModeFull "" SyncJobStatusRunning 0 None ∅ 0 0); vm_compute; reflexivity|].
  destruct (sync_job_guarded id (λ _, "") demo_service (demo_env 500) (s_db demo_connected) connected_job (scoped_read "u2")
    (mkGetJob "j-1" "GitHub" "user" "u2" "") (Some (mkScopeRef "user" "u2"))
    (mkSyncJob "j-1" "id-1" "github" SyncJobModeFull "" SyncJobStatusRunning 0 None ∅ 0 0)) as [[_ H]|(_ & H & _)];
    [vm_compute; reflexivity|reflexivity|reflexivity|vm_compute; reflexivity| |exact H].
  exfalso. vm_compute in H. discriminate H.
Defined.
