(* ===== verification/FormData.v ===== *)
(** * External form data: contracts (src/core/formdata_contracts.go)

    External schemas, mapping specifications, sync bindings, checkpoints, conflicts and identity bindings: the records, the closed sets of
    statuses and the [Validate] methods.  An error is its text, which the compiler of mappings passes on in its issues. *)

From S2P Require Import Prelude GoStrings GoValues Domain.
From Stdlib Require Import ZArith String Lia SpecFloat.
From stdpp Require Import base decidable list gmap strings.

Local Open Scope string_scope.
Local Open Scope nat_scope.
Local Open Scope list_scope.

(** ** Statuses *)

Definition MappingSpecStatusDraft := "draft".
Definition MappingSpecStatusValidated := "validated".
Definition MappingSpecStatusPublished := "published".
Definition MappingSpecStatus_IsValid (s : string) : bool :=
  bool_decide (s ∈ [MappingSpecStatusDraft; MappingSpecStatusValidated; MappingSpecStatusPublished]).

Definition SyncDirectionImport := "import".
Definition SyncDirectionExport := "export".
Definition SyncDirection_IsValid (s : string) : bool := bool_decide (s ∈ [SyncDirectionImport; SyncDirectionExport]).

Definition SyncRunModeDryRun := "dry_run".
Definition SyncRunModeApply := "apply".
Definition SyncRunMode_IsValid (s : string) : bool := bool_decide (s ∈ [SyncRunModeDryRun; SyncRunModeApply]).

Definition SyncRunStatusPlanned := "planned".
Definition SyncRunStatusRunning := "running".
Definition SyncRunStatusSucceeded := "succeeded".
Definition SyncRunStatusFailed := "failed".
Definition SyncRunStatus_IsValid (s : string) : bool :=
  bool_decide (s ∈ [SyncRunStatusPlanned; SyncRunStatusRunning; SyncRunStatusSucceeded; SyncRunStatusFailed]).

Definition SyncBindingStatusActive := "active".
Definition SyncBindingStatusPaused := "paused".
Definition SyncBindingStatus_IsValid (s : string) : bool := bool_decide (s ∈ [SyncBindingStatusActive; SyncBindingStatusPaused]).

Definition IdentityBindingMatchExact := "exact".
Definition IdentityBindingMatchConfident := "confident".
Definition IdentityBindingMatchAmbiguous := "ambiguous".
Definition IdentityBindingMatchUnresolved := "unresolved".
Definition IdentityBindingMatchKind_IsValid (s : string) : bool :=
  bool_decide (s ∈ [IdentityBindingMatchExact; IdentityBindingMatchConfident; IdentityBindingMatchAmbiguous; IdentityBindingMatchUnresolved]).

Definition SyncConflictStatusPending := "pending".
Definition SyncConflictStatusResolved := "resolved".
Definition SyncConflictStatusIgnored := "ignored".
Definition SyncConflictStatus_IsValid (s : string) : bool :=
  bool_decide (s ∈ [SyncConflictStatusPending; SyncConflictStatusResolved; SyncConflictStatusIgnored]).

Definition SyncConflictResolutionResolve := "resolve".
Definition SyncConflictResolutionIgnore := "ignore".
Definition SyncConflictResolutionRetry := "retry".
Definition SyncConflictResolutionAction_IsValid (s : string) : bool :=
  bool_decide (s ∈ [SyncConflictResolutionResolve; SyncConflictResolutionIgnore; SyncConflictResolutionRetry]).

Definition MappingValidationIssueError := "error".
Definition MappingValidationIssueWarning := "warning".

(** ** Records *)

Record ExternalField := mkExternalField {
  ef_Path : string; ef_Type : string; ef_Required : bool; ef_Repeatable : bool; ef_Format : string;
  ef_Constraints : gmap string value; ef_Metadata : gmap string value }.
Record ExternalObjectSchema := mkExternalObject {
  eo_Name : string; eo_PrimaryKey : list string; eo_Fields : list ExternalField; eo_Metadata : gmap string value }.
Record ExternalSchema := mkExternalSchema {
  es_ID : string; es_ProviderID : string; es_Scope : ScopeRef; es_Name : string; es_Version : string;
  es_Objects : list ExternalObjectSchema; es_Metadata : gmap string value; es_CreatedAt : Time; es_UpdatedAt : Time }.

Record MappingRule := mkRule {
  mr_ID : string; mr_SourcePath : string; mr_TargetPath : string; mr_Transform : string; mr_Required : bool; mr_Default : value;
  mr_Constraints : gmap string value; mr_Metadata : gmap string value }.
Record MappingSpec := mkMappingSpec {
  ms_ID : string; ms_SpecID : string; ms_ProviderID : string; ms_Scope : ScopeRef; ms_Name : string; ms_Description : string;
  ms_SourceObject : string; ms_TargetModel : string; ms_SchemaRef : string; ms_Version : Z; ms_Status : string;
  ms_Rules : list MappingRule; ms_Metadata : gmap string value; ms_CreatedAt : Time; ms_UpdatedAt : Time; ms_PublishedAt : option Time }.

(** [float64] as an IEEE 754 binary64 datum. *)
Abbreviation float64 := spec_float.
Definition float_lt (a b : float64) : bool := SFltb a b.
Definition float_le (a b : float64) : bool := SFleb a b.
Definition float_sub (a b : float64) : float64 := SFsub 53 1024 a b.
Definition float_zero : float64 := S754_zero false.
Definition float_one : float64 := S754_finite false 4503599627370496 (-52).

Record IdentityBinding := mkIdentityBinding {
  ib_ID : string; ib_ProviderID : string; ib_Scope : ScopeRef; ib_ConnectionID : string; ib_SyncBindingID : string; ib_SourceObject : string;
  ib_ExternalID : string; ib_InternalType : string; ib_InternalID : string; ib_MatchKind : string; ib_Confidence : float64;
  ib_Metadata : gmap string value; ib_CreatedAt : Time; ib_UpdatedAt : Time }.
Record IdentityCandidate := mkCandidate {
  ca_InternalType : string; ca_InternalID : string; ca_Confidence : float64; ca_Metadata : gmap string value }.
Record ReconcileIdentityRequest := mkReconcile {
  ri_ProviderID : string; ri_Scope : ScopeRef; ri_ConnectionID : string; ri_SyncBindingID : string; ri_SourceObject : string;
  ri_ExternalID : string; ri_Candidates : list IdentityCandidate; ri_Metadata : gmap string value }.
Record ReconcileIdentityResult := mkReconcileResult { rr_Binding : IdentityBinding; rr_Created : bool }.

Record SyncBinding := mkSyncBinding {
  sb_ID : string; sb_ProviderID : string; sb_Scope : ScopeRef; sb_ConnectionID : string; sb_MappingSpecID : string; sb_SourceObject : string;
  sb_TargetModel : string; sb_Direction : string; sb_Status : string; sb_Metadata : gmap string value; sb_CreatedAt : Time; sb_UpdatedAt : Time }.
Record SyncConflict := mkConflict {
  cf_ID : string; cf_ProviderID : string; cf_Scope : ScopeRef; cf_ConnectionID : string; cf_SyncBindingID : string; cf_CheckpointID : string;
  cf_SourceObject : string; cf_ExternalID : string; cf_SourceVersion : string; cf_IdempotencyKey : string; cf_Policy : string;
  cf_Reason : string; cf_Status : string; cf_SourcePayload : gmap string value; cf_TargetPayload : gmap string value;
  cf_Resolution : gmap string value; cf_ResolvedBy : string; cf_ResolvedAt : option Time; cf_Metadata : gmap string value;
  cf_CreatedAt : Time; cf_UpdatedAt : Time }.
Record SyncCheckpoint := mkCheckpoint {
  cp_ID : string; cp_ProviderID : string; cp_Scope : ScopeRef; cp_ConnectionID : string; cp_SyncBindingID : string; cp_Direction : string;
  cp_Cursor : string; cp_Sequence : Z; cp_SourceVersion : string; cp_IdempotencySeed : string; cp_Metadata : gmap string value;
  cp_LastEventAt : option Time; cp_CreatedAt : Time; cp_UpdatedAt : Time }.

Record MappingValidationIssue := mkIssue {
  mi_Code : string; mi_Message : string; mi_Severity : string; mi_RuleID : string; mi_SourcePath : string; mi_TargetPath : string }.
Record ValidateMappingSpecRequest := mkValidateMapping { vm_Spec : MappingSpec; vm_Schema : ExternalSchema }.
Record CompiledMappingRule := mkCompiledRule {
  cr_Rule : MappingRule; cr_SourceType : string; cr_TargetType : string; cr_Transform : string }.
Record CompiledMappingSpec := mkCompiledSpec {
  cm_SpecID : string; cm_Version : Z; cm_SourceObject : string; cm_Rules : list CompiledMappingRule; cm_DeterministicHash : string }.
Record ValidateMappingSpecResult := mkValidateResult {
  vr_Valid : bool; vr_Issues : list MappingValidationIssue; vr_NormalizedSpec : MappingSpec; vr_Compiled : CompiledMappingSpec }.

Record PlanSyncRunRequest := mkPlanRequest {
  pr_Binding : SyncBinding; pr_Mode : string; pr_FromCheckpointID : string; pr_Limit : Z; pr_Metadata : gmap string value }.
Record SyncRunPlan := mkPlan {
  pl_ID : string; pl_BindingID : string; pl_Mode : string; pl_Checkpoint : SyncCheckpoint; pl_EstimatedChanges : Z;
  pl_IdempotencySeed : string; pl_DeterministicHash : string; pl_Metadata : gmap string value; pl_GeneratedAt : Time }.
Record SyncChange := mkChange {
  ch_SourceObject : string; ch_ExternalID : string; ch_SourceVersion : string; ch_Payload : gmap string value; ch_Metadata : gmap string value }.
Record SyncRunResult := mkRunResult {
  sr_RunID : string; sr_Status : string; sr_ProcessedCount : Z; sr_SkippedCount : Z; sr_ConflictCount : Z; sr_FailedCount : Z;
  sr_NextCheckpoint : option SyncCheckpoint; sr_Metadata : gmap string value }.
Record SyncConflictResolution := mkResolution { rs_Action : string; rs_Patch : gmap string value; rs_Reason : string; rs_ResolvedBy : string }.
Record ResolveSyncConflictRequest := mkResolveConflict {
  rq_ProviderID : string; rq_Scope : ScopeRef; rq_ConflictID : string; rq_Resolution : SyncConflictResolution; rq_Metadata : gmap string value }.
Record RecordSyncConflictRequest := mkRecordConflict { rc_Conflict : SyncConflict; rc_Metadata : gmap string value }.
Record SyncChangeLogEntry := mkLogEntry {
  le_ID : string; le_ProviderID : string; le_Scope : ScopeRef; le_ConnectionID : string; le_SyncBindingID : string; le_Direction : string;
  le_SourceObject : string; le_ExternalID : string; le_SourceVersion : string; le_IdempotencyKey : string; le_Payload : gmap string value;
  le_Metadata : gmap string value; le_OccurredAt : Time }.

(** ** Validation *)

(** The first of the conditions that fails gives the error. *)
Fixpoint checks (l : list (bool * string)) : outcome string unit :=
  match l with
  | [] => Ok tt
  | (b, text) :: l => if b then checks l else Fail text
  end.

Lemma checks_Ok l : checks l = Ok tt ↔ Forall (λ c, c.1 = true) l.
Proof.
  induction l as [|[b t] l IH]; simpl; [by split; [constructor|]|]. destruct b; rewrite Forall_cons; simpl; [naive_solver|].
  split; [done|by intros [? _]].
Qed.

Section validate.
(** [strconv.Quote] and the text of a scope validation error. *)
Variable quote : string → string.
Variable scope_error_text : domain_error → string.

Definition scope_check (s : ScopeRef) : bool * string :=
  match ScopeRef_Validate s with Ok _ => (true, "") | Fail e => (false, scope_error_text e) end.
Definition given (s text : string) : bool * string := (negb (blank s), "core: " +:+ text +:+ " is required").

Definition ExternalSchema_Validate (s : ExternalSchema) : outcome string unit :=
  checks [given (es_ProviderID s) "provider id"; scope_check (es_Scope s); given (es_Name s) "schema name";
    (negb (bool_decide (es_Objects s = [])), "core: schema must define at least one object")].

Definition MappingRule_Validate (r : MappingRule) : outcome string unit :=
  checks [given (mr_SourcePath r) "rule source path"; given (mr_TargetPath r) "rule target path"].

Fixpoint rules_check (idx : Z) (rules : list MappingRule) : outcome string unit :=
  match rules with
  | [] => Ok tt
  | r :: rules =>
    match MappingRule_Validate r with
    | Fail e => Fail ("core: invalid mapping rule at index " +:+ Itoa idx +:+ ": " +:+ e)
    | Ok _ => rules_check (idx + 1) rules
    end
  end.

Definition MappingSpec_Validate (s : MappingSpec) : outcome string unit :=
  match checks [given (ms_SpecID s) "mapping spec id"; given (ms_ProviderID s) "provider id"; scope_check (ms_Scope s);
    given (ms_Name s) "mapping spec name"; given (ms_SourceObject s) "source object"; given (ms_TargetModel s) "target model";
    ((1 <=? ms_Version s)%Z, "core: mapping spec version must be >= 1");
    (MappingSpecStatus_IsValid (ms_Status s), "core: invalid mapping spec status " +:+ quote (ms_Status s))] with
  | Fail e => Fail e
  | Ok _ => rules_check 0 (ms_Rules s)
  end.

Definition IdentityBinding_Validate (b : IdentityBinding) : outcome string unit :=
  checks [given (ib_ProviderID b) "provider id"; scope_check (ib_Scope b); given (ib_ConnectionID b) "connection id";
    given (ib_SourceObject b) "source object"; given (ib_ExternalID b) "external id"; given (ib_InternalID b) "internal id";
    (IdentityBindingMatchKind_IsValid (ib_MatchKind b), "core: invalid identity match kind " +:+ quote (ib_MatchKind b));
    (negb (float_lt (ib_Confidence b) float_zero || float_lt float_one (ib_Confidence b)), "core: identity confidence must be in [0,1]")].

Definition SyncBinding_Validate (b : SyncBinding) : outcome string unit :=
  checks [given (sb_ProviderID b) "provider id"; scope_check (sb_Scope b); given (sb_ConnectionID b) "connection id";
    given (sb_MappingSpecID b) "mapping spec id"; given (sb_SourceObject b) "source object"; given (sb_TargetModel b) "target model";
    (SyncDirection_IsValid (sb_Direction b), "core: invalid sync direction " +:+ quote (sb_Direction b));
    (SyncBindingStatus_IsValid (sb_Status b), "core: invalid sync binding status " +:+ quote (sb_Status b))].

Definition SyncConflict_Validate (c : SyncConflict) : outcome string unit :=
  checks [given (cf_ProviderID c) "provider id"; scope_check (cf_Scope c); given (cf_ConnectionID c) "connection id";
    given (cf_SyncBindingID c) "sync binding id"; given (cf_SourceObject c) "source object"; given (cf_ExternalID c) "external id";
    given (cf_Reason c) "conflict reason";
    (SyncConflictStatus_IsValid (cf_Status c), "core: invalid sync conflict status " +:+ quote (cf_Status c))].

Definition SyncCheckpoint_Validate (c : SyncCheckpoint) : outcome string unit :=
  checks [given (cp_ProviderID c) "provider id"; scope_check (cp_Scope c); given (cp_ConnectionID c) "connection id";
    given (cp_SyncBindingID c) "sync binding id";
    (SyncDirection_IsValid (cp_Direction c), "core: invalid checkpoint direction " +:+ quote (cp_Direction c));
    ((0 <=? cp_Sequence c)%Z, "core: checkpoint sequence must be >= 0")].
End validate.

(** ** Events *)

(** [LifecycleEventBus.Publish]: the error of the bus, if any. *)
Class LifecycleEventBus (B : Type) := bus_Publish : B → LifecycleEvent → option string * B.

(** The [copyMetadata] of identity_binding_reconciler.go: a copy has the same entries. *)
Definition copyMetadata (m : gmap string value) : gmap string value := m.

(** src/core/mapping_spec_lifecycle.go *)
Definition sameProviderScope (actualProviderID : string) (actualScope : ScopeRef) (expectedProviderID : string) (expectedScope : ScopeRef) : bool :=
  EqualFold (TrimSpace actualProviderID) (TrimSpace expectedProviderID)
  && EqualFold (TrimSpace (scope_Type actualScope)) (TrimSpace (scope_Type expectedScope))
  && String.eqb (TrimSpace (scope_ID actualScope)) (TrimSpace (scope_ID expectedScope)).

(** A provider id and a scope, trimmed, the scope type in lower case. *)
Definition normalScope (scope : ScopeRef) : ScopeRef := mkScopeRef (lowerTrim (scope_Type scope)) (TrimSpace (scope_ID scope)).
Definition normalizeProviderScope (scope_error_text : domain_error → string) (providerID : string) (scope : ScopeRef)
    : outcome string (string * ScopeRef) :=
  let providerID := TrimSpace providerID in
  let scope := normalScope scope in
  if String.eqb providerID "" then Fail "core: provider id is required"
  else match ScopeRef_Validate scope with
       | Fail e => Fail (scope_error_text e)
       | Ok _ => Ok (providerID, scope)
       end.
