(* ===== verification/MappingLifecycle.v ===== *)
(** * The life cycle of mapping specifications (src/core/mapping_spec_lifecycle.go)

    Drafts are created and edited, marked validated, and published; a published version never changes again.  The store and the event bus are
    interfaces of the repository without an implementation in it: the store is a class with the laws the service relies on, the bus is any. *)

From S2P Require Import Prelude GoStrings GoValues Domain FormData GoHTTP.
From Stdlib Require Import ZArith String Lia.
From stdpp Require Import base decidable list gmap strings.

Local Open Scope string_scope.
Local Open Scope nat_scope.
Local Open Scope list_scope.

(** ** The store *)

(** A version of a specification: provider, scope type, scope id, specification, version. *)
Abbreviation spec_key := (string * string * string * string * Z)%type.
Definition key_of (providerID : string) (scope : ScopeRef) (specID : string) (version : Z) : spec_key :=
  (providerID, scope_Type scope, scope_ID scope, specID, version).
Definition key_of_spec (s : MappingSpec) : spec_key := key_of (ms_ProviderID s) (ms_Scope s) (ms_SpecID s) (ms_Version s).

Class MappingSpecStore (W : Type) := {
  mst_CreateDraft : W → MappingSpec → outcome string MappingSpec * W;
  mst_UpdateDraft : W → MappingSpec → outcome string MappingSpec * W;
  mst_SetStatus : W → string → ScopeRef → string → Z → string → Time → outcome string MappingSpec * W;
  mst_GetVersion : W → string → ScopeRef → string → Z → outcome string (option MappingSpec);
  mst_GetLatest : W → string → ScopeRef → string → outcome string (option MappingSpec);
  mst_ListByScope : W → string → ScopeRef → outcome string (list MappingSpec);
  mst_PublishVersion : W → string → ScopeRef → string → Z → Time → outcome string MappingSpec * W }.

(** [spec.Status = status] and the time columns a store may set. *)
Definition spec_with (s : MappingSpec) (status : string) (publishedAt : option Time) : MappingSpec :=
  mkMappingSpec (ms_ID s) (ms_SpecID s) (ms_ProviderID s) (ms_Scope s) (ms_Name s) (ms_Description s) (ms_SourceObject s) (ms_TargetModel s)
    (ms_SchemaRef s) (ms_Version s) status (ms_Rules s) (ms_Metadata s) (ms_CreatedAt s) (ms_UpdatedAt s) publishedAt.

(** What a specification says, without its row id, status and times. *)
Definition content (s : MappingSpec) :=
  (key_of_spec s, (ms_Name s, ms_Description s, ms_SourceObject s, ms_TargetModel s), (ms_SchemaRef s, ms_Rules s, ms_Metadata s)).

(** The laws: [view] is the table; a failed write leaves it as it was. *)
Class MappingSpecStoreLaws (W : Type) (S : MappingSpecStore W) := {
  view : W → spec_key → option MappingSpec;
  law_GetVersion w p s i v o : mst_GetVersion w p s i v = Ok o → o = view w (key_of p s i v);
  law_GetLatest w p s i o : mst_GetLatest w p s i = Ok o →
    match o with
    | Some l => view w (key_of p s i (ms_Version l)) = Some l ∧ ∀ v, is_Some (view w (key_of p s i v)) → (v ≤ ms_Version l)%Z
    | None => ∀ v, view w (key_of p s i v) = None
    end;
  law_CreateDraft w spec r w' : mst_CreateDraft w spec = (r, w') →
    match r with
    | Ok s => content s = content spec ∧ ms_Status s = ms_Status spec ∧ ∀ k, view w' k = if decide (k = key_of_spec spec) then Some s else view w k
    | Fail _ => ∀ k, view w' k = view w k
    end;
  law_UpdateDraft w spec r w' : mst_UpdateDraft w spec = (r, w') →
    match r with
    | Ok s => content s = content spec ∧ ms_Status s = ms_Status spec ∧ ∀ k, view w' k = if decide (k = key_of_spec spec) then Some s else view w k
    | Fail _ => ∀ k, view w' k = view w k
    end;
  law_SetStatus w p sc i v status now r w' : mst_SetStatus w p sc i v status now = (r, w') →
    match r with
    | Ok s => (∃ old, view w (key_of p sc i v) = Some old ∧ content s = content old) ∧ ms_Status s = status ∧
              ∀ k, view w' k = if decide (k = key_of p sc i v) then Some s else view w k
    | Fail _ => ∀ k, view w' k = view w k
    end;
  law_PublishVersion w p sc i v now r w' : mst_PublishVersion w p sc i v now = (r, w') →
    match r with
    | Ok s => (∃ old, view w (key_of p sc i v) = Some old ∧ content s = content old) ∧ ms_Status s = MappingSpecStatusPublished ∧
              ∀ k, view w' k = if decide (k = key_of p sc i v) then Some s else view w k
    | Fail _ => ∀ k, view w' k = view w k
    end }.

(** ** The service *)

Section lifecycle.
Variable quote : string → string.
Variable scope_error_text : domain_error → string.
(** [sha256.Sum256] in hexadecimal, and [Time.Format]. *)
Variable sha256_hex : string → string.
Variable time_Format : Time → string → string.
Context {W B : Type} {store : MappingSpecStore W} {bus : LifecycleEventBus B}.

Definition normalizeRule (r : MappingRule) : MappingRule :=
  mkRule (TrimSpace (mr_ID r)) (TrimSpace (mr_SourcePath r)) (TrimSpace (mr_TargetPath r)) (TrimSpace (mr_Transform r)) (mr_Required r)
    (mr_Default r) (mr_Constraints r) (mr_Metadata r).
(** The rules are trimmed in the array that the caller passed, which he sees too. *)
Definition normalizeMappingSpec (s : MappingSpec) : MappingSpec :=
  mkMappingSpec (TrimSpace (ms_ID s)) (TrimSpace (ms_SpecID s)) (TrimSpace (ms_ProviderID s)) (normalScope (ms_Scope s)) (TrimSpace (ms_Name s))
    (TrimSpace (ms_Description s)) (TrimSpace (ms_SourceObject s)) (TrimSpace (ms_TargetModel s)) (TrimSpace (ms_SchemaRef s)) (ms_Version s)
    (ms_Status s) (normalizeRule <$> ms_Rules s) (ms_Metadata s) (ms_CreatedAt s) (ms_UpdatedAt s) (ms_PublishedAt s).
Definition with_version (s : MappingSpec) (version : Z) : MappingSpec :=
  mkMappingSpec (ms_ID s) (ms_SpecID s) (ms_ProviderID s) (ms_Scope s) (ms_Name s) (ms_Description s) (ms_SourceObject s) (ms_TargetModel s)
    (ms_SchemaRef s) version (ms_Status s) (ms_Rules s) (ms_Metadata s) (ms_CreatedAt s) (ms_UpdatedAt s) (ms_PublishedAt s).

Definition buildMappingSpecLifecycleEventID (specID : string) (version : Z) (eventName : string) (occurredAt : Time) : string :=
  sha256_hex (GoHTTP.Join "|" [TrimSpace specID; Itoa version; TrimSpace eventName; time_Format occurredAt "2006-01-02T15:04:05.999999999Z07:00"]).

Definition spec_event (spec : MappingSpec) (eventName : string) (occurredAt : Time) : LifecycleEvent :=
  mkLifecycleEvent (buildMappingSpecLifecycleEventID (ms_SpecID spec) (ms_Version spec) eventName occurredAt) eventName (ms_ProviderID spec)
    (scope_Type (ms_Scope spec)) (scope_ID (ms_Scope spec)) "" "services.mapping_specs" occurredAt
    (list_to_map [("spec_id", VString (ms_SpecID spec)); ("version", VInt IntK (ms_Version spec)); ("status", VString (ms_Status spec));
       ("name", VString (ms_Name spec)); ("schema_ref", VString (ms_SchemaRef spec)); ("provider_id", VString (ms_ProviderID spec))])
    (copyMetadata (ms_Metadata spec)).

(** The state: the store and the bus, if there is one.  A result is saved before its event is published. *)
Definition published (now : Time) (eventName : string) (r : outcome string MappingSpec * W) (b : option B)
    : outcome string MappingSpec * (W * option B) :=
  match r with
  | (Fail e, w) => (Fail e, (w, b))
  | (Ok s, w) =>
    match b with
    | None => (Ok s, (w, None))
    | Some bus => let (e, bus') := bus_Publish bus (spec_event s eventName now) in
                  (match e with Some e => Fail e | None => Ok s end, (w, Some bus'))
    end
  end.

Definition spec_name (specID : string) (version : Z) : string := "core: mapping spec " +:+ specID +:+ " version " +:+ Itoa version.

(** The version a draft without one gets. *)
Definition draft_version (w : W) (spec : MappingSpec) : outcome string MappingSpec :=
  if (ms_Version spec =? 0)%Z then
    match mst_GetLatest w (ms_ProviderID spec) (ms_Scope spec) (ms_SpecID spec) with
    | Fail e => Fail e
    | Ok (Some latest) =>
      if negb (String.eqb (ms_Status latest) MappingSpecStatusPublished)
      then Fail "core: latest mapping spec version must be published before creating a new draft"
      else Ok (with_version spec (wrap64 (ms_Version latest + 1)))
    | Ok None => Ok (with_version spec 1)
    end
  else Ok spec.

Definition Spec_CreateDraft (now : Time) (s : W * option B) (spec : MappingSpec) : outcome string MappingSpec * (W * option B) :=
  let (w, b) := s in
  let spec := spec_with (normalizeMappingSpec spec) MappingSpecStatusDraft None in
  match draft_version w spec with
  | Fail e => (Fail e, s)
  | Ok spec =>
    match mst_GetVersion w (ms_ProviderID spec) (ms_Scope spec) (ms_SpecID spec) (ms_Version spec) with
    | Fail e => (Fail e, s)
    | Ok (Some existing) =>
      (Fail (spec_name (ms_SpecID spec) (ms_Version spec) +:+
         if String.eqb (ms_Status existing) MappingSpecStatusPublished then " is immutable once published" else " already exists"), s)
    | Ok None =>
      match MappingSpec_Validate quote scope_error_text spec with
      | Fail e => (Fail e, s)
      | Ok _ => published now "services.mapping_spec.draft_created" (mst_CreateDraft w spec) b
      end
    end
  end.

Definition Spec_UpdateDraft (now : Time) (s : W * option B) (spec : MappingSpec) : outcome string MappingSpec * (W * option B) :=
  let (w, b) := s in
  let spec := normalizeMappingSpec spec in
  if (ms_Version spec <? 1)%Z then (Fail "core: mapping spec version must be >= 1", s)
  else match mst_GetVersion w (ms_ProviderID spec) (ms_Scope spec) (ms_SpecID spec) (ms_Version spec) with
  | Fail e => (Fail e, s)
  | Ok None => (Fail (spec_name (ms_SpecID spec) (ms_Version spec) +:+ " not found"), s)
  | Ok (Some existing) =>
    if String.eqb (ms_Status existing) MappingSpecStatusPublished
    then (Fail (spec_name (ms_SpecID spec) (ms_Version spec) +:+ " is immutable once published"), s)
    else
      let spec := spec_with spec MappingSpecStatusDraft None in
      match MappingSpec_Validate quote scope_error_text spec with
      | Fail e => (Fail e, s)
      | Ok _ => published now "services.mapping_spec.draft_updated" (mst_UpdateDraft w spec) b
      end
  end.

(** The arguments, normalised, and the version they name. *)
Definition current_version (w : W) (providerID : string) (scope : ScopeRef) (specID : string) (version : Z)
    : outcome string (string * ScopeRef * string * MappingSpec) :=
  match normalizeProviderScope scope_error_text providerID scope with
  | Fail e => Fail e
  | Ok (providerID, scope) =>
    let specID := TrimSpace specID in
    if String.eqb specID "" || (version <? 1)%Z then Fail "core: mapping spec id and version are required"
    else match mst_GetVersion w providerID scope specID version with
    | Fail e => Fail e
    | Ok None => Fail (spec_name specID version +:+ " not found for provider/scope")
    | Ok (Some current) =>
      if negb (sameProviderScope (ms_ProviderID current) (ms_Scope current) providerID scope) then Fail "core: mapping spec scope mismatch"
      else Ok (providerID, scope, specID, current)
    end
  end.

Definition Spec_MarkValidated (now : Time) (s : W * option B) (providerID : string) (scope : ScopeRef) (specID : string) (version : Z)
    : outcome string MappingSpec * (W * option B) :=
  let (w, b) := s in
  match current_version w providerID scope specID version with
  | Fail e => (Fail e, s)
  | Ok (providerID, scope, specID, current) =>
    if String.eqb (ms_Status current) MappingSpecStatusPublished
    then (Fail (spec_name specID version +:+ " is already published and immutable"), s)
    else if negb (String.eqb (ms_Status current) MappingSpecStatusDraft) && negb (String.eqb (ms_Status current) MappingSpecStatusValidated)
    then (Fail (spec_name specID version +:+ " cannot transition to validated from " +:+ ms_Status current), s)
    else published now "services.mapping_spec.validated" (mst_SetStatus w providerID scope specID version MappingSpecStatusValidated now) b
  end.

Definition Spec_Publish (now : Time) (s : W * option B) (providerID : string) (scope : ScopeRef) (specID : string) (version : Z)
    : outcome string MappingSpec * (W * option B) :=
  let (w, b) := s in
  match current_version w providerID scope specID version with
  | Fail e => (Fail e, s)
  | Ok (providerID, scope, specID, current) =>
    if String.eqb (ms_Status current) MappingSpecStatusPublished then (Ok current, s)
    else if negb (String.eqb (ms_Status current) MappingSpecStatusValidated)
    then (Fail (spec_name specID version +:+ " must be validated before publish"), s)
    else published now "services.mapping_spec.published" (mst_PublishVersion w providerID scope specID version now) b
  end.

Definition Spec_GetVersion (w : W) (providerID : string) (scope : ScopeRef) (specID : string) (version : Z) : outcome string (option MappingSpec) :=
  match normalizeProviderScope scope_error_text providerID scope with
  | Fail e => Fail e
  | Ok (providerID, scope) =>
    if blank specID || (version <? 1)%Z then Fail "core: mapping spec id and version are required"
    else mst_GetVersion w providerID scope (TrimSpace specID) version
  end.
Definition Spec_GetLatest (w : W) (providerID : string) (scope : ScopeRef) (specID : string) : outcome string (option MappingSpec) :=
  match normalizeProviderScope scope_error_text providerID scope with
  | Fail e => Fail e
  | Ok (providerID, scope) =>
    if blank specID then Fail "core: mapping spec id is required" else mst_GetLatest w providerID scope (TrimSpace specID)
  end.
Definition Spec_ListByScope (w : W) (providerID : string) (scope : ScopeRef) : outcome string (list MappingSpec) :=
  match normalizeProviderScope scope_error_text providerID scope with
  | Fail e => Fail e
  | Ok (providerID, scope) => mst_ListByScope w providerID scope
  end.
End lifecycle.

(** ** Histories *)

Section histories.
Variable quote : string → string.
Variable scope_error_text : domain_error → string.
Variable sha256_hex : string → string.
Variable time_Format : Time → string → string.
Context {W B : Type} {store : MappingSpecStore W} {bus : LifecycleEventBus B} {laws : MappingSpecStoreLaws W store}.
Abbreviation state := (W * option B)%type.
Abbreviation valid s := (MappingSpec_Validate quote scope_error_text s = Ok tt).

Inductive spec_op :=
| OpCreateDraft (spec : MappingSpec) | OpUpdateDraft (spec : MappingSpec)
| OpMarkValidated (providerID : string) (scope : ScopeRef) (specID : string) (version : Z)
| OpPublish (providerID : string) (scope : ScopeRef) (specID : string) (version : Z).

Definition spec_step (now : Time) (s : state) (op : spec_op) : state :=
  match op with
  | OpCreateDraft spec => (Spec_CreateDraft quote scope_error_text sha256_hex time_Format now s spec).2
  | OpUpdateDraft spec => (Spec_UpdateDraft quote scope_error_text sha256_hex time_Format now s spec).2
  | OpMarkValidated p sc i v => (Spec_MarkValidated scope_error_text sha256_hex time_Format now s p sc i v).2
  | OpPublish p sc i v => (Spec_Publish scope_error_text sha256_hex time_Format now s p sc i v).2
  end.

Inductive spec_history : state → state → Prop :=
| history_nil s : spec_history s s
| history_cons now op s s' : spec_history (spec_step now s op) s' → spec_history s s'.

(** What one call may do to one version. *)
Inductive moves (k : spec_key) : option MappingSpec → option MappingSpec → Prop :=
| move_none o : moves k o o
| move_draft o s : from_option (λ old, ms_Status old ≠ MappingSpecStatusPublished) True o → ms_Status s = MappingSpecStatusDraft → valid s →
    key_of_spec s = k → moves k o (Some s)
| move_validated old s : ms_Status old ≠ MappingSpecStatusPublished → ms_Status s = MappingSpecStatusValidated → content s = content old →
    moves k (Some old) (Some s)
| move_published old s : ms_Status old = MappingSpecStatusValidated → ms_Status s = MappingSpecStatusPublished → content s = content old →
    moves k (Some old) (Some s).

Lemma published_state now name (r : outcome string MappingSpec * W) (b : option B) : (published sha256_hex time_Format now name r b).2.1 = r.2.
Proof. unfold published. destruct r as [[s|e] w]; [|done]. destruct b as [b|]; [|done]. by destruct (bus_Publish _ _). Qed.

Lemma content_fields s t : content s = content t →
  ms_SpecID s = ms_SpecID t ∧ ms_ProviderID s = ms_ProviderID t ∧ ms_Scope s = ms_Scope t ∧ ms_Name s = ms_Name t ∧
  ms_SourceObject s = ms_SourceObject t ∧ ms_TargetModel s = ms_TargetModel t ∧ ms_Version s = ms_Version t ∧ ms_Rules s = ms_Rules t.
Proof.
  unfold content, key_of_spec, key_of. intros H. injection H as H1 H2 H3 H4 H5 H6 H7 H8 H9 H10 H11 H12.
  destruct (ms_Scope s), (ms_Scope t); simpl in *. split_and!; congruence.
Qed.

Lemma content_valid s t : content s = content t → MappingSpecStatus_IsValid (ms_Status s) = true → valid t → valid s.
Proof.
  intros (H1 & H2 & H3 & H4 & H5 & H6 & H7 & H8)%content_fields Hs. unfold MappingSpec_Validate. rewrite H1, H2, H3, H4, H5, H6, H7, H8, Hs.
  destruct (checks _) as [[]|] eqn:Hc; [|done]. intros Hr. apply checks_Ok in Hc.
  match goal with |- context [checks ?l] => assert (checks l = Ok tt) as -> end; [|done].
  apply checks_Ok. rewrite !Forall_cons in Hc |- *. tauto.
Qed.
Lemma content_key s t : content s = content t → key_of_spec s = key_of_spec t.
Proof. unfold content. intros H. exact (f_equal (λ t, t.1.1) H). Qed.

(** The write of a draft that the service has checked. *)
Lemma draft_moves w w' spec (r : outcome string MappingSpec) k :
  match r with
  | Ok s => content s = content spec ∧ ms_Status s = ms_Status spec ∧ ∀ k, view w' k = if decide (k = key_of_spec spec) then Some s else view w k
  | Fail _ => ∀ k, view w' k = view w k
  end →
  ms_Status spec = MappingSpecStatusDraft → valid spec →
  from_option (λ old, ms_Status old ≠ MappingSpecStatusPublished) True (view w (key_of_spec spec)) → moves k (view w k) (view w' k).
Proof.
  destruct r as [s|e]; intros H Hd Hv Hold; [|rewrite H; constructor]. destruct H as (Hc & Hs & Hview). rewrite Hview.
  destruct (decide _) as [->|]; [|constructor]. apply move_draft; [done|congruence| |by apply content_key].
  eapply content_valid; [done|by rewrite Hs, Hd|done].
Qed.

Lemma current_version_Ok w p sc i v p' sc' i' old : current_version scope_error_text w p sc i v = Ok (p', sc', i', old) →
  view w (key_of p' sc' i' v) = Some old.
Proof.
  unfold current_version. destruct (normalizeProviderScope _ _ _) as [[? ?]|]; [|done]. destruct (_ || _); [done|].
  destruct (mst_GetVersion _ _ _ _ _) as [[c|]|] eqn:Hg; [|done..]. destruct (negb _); [done|]. intros [= <- <- <- <-].
  by apply law_GetVersion in Hg.
Qed.

Lemma spec_step_moves now s op k : moves k (view s.1 k) (view (spec_step now s op).1 k).
Proof.
  destruct s as [w b]. destruct op as [spec|spec|p sc i v|p sc i v]; cbn [spec_step fst].
  - unfold Spec_CreateDraft. set (d := spec_with _ _ _). destruct (draft_version w d) as [d'|] eqn:Hd; [|constructor].
    destruct (mst_GetVersion _ _ _ _ _) as [[old|]|] eqn:Hg; [constructor| |constructor]. apply law_GetVersion in Hg.
    destruct (MappingSpec_Validate _ _ _) as [[]|] eqn:Hv; [|constructor]. rewrite published_state.
    destruct (mst_CreateDraft w d') as [r w'] eqn:Hc. eapply (draft_moves _ _ d'); [by eapply law_CreateDraft|..|done|].
    + clear -Hd. unfold draft_version in Hd. repeat (case_match; simplify_eq/=); done.
    + unfold key_of_spec. by rewrite <-Hg.
  - unfold Spec_UpdateDraft. set (n := normalizeMappingSpec spec). destruct (_ <? 1)%Z; [constructor|].
    destruct (mst_GetVersion _ _ _ _ _) as [[old|]|] eqn:Hg; [|constructor..]. apply law_GetVersion in Hg.
    destruct (String.eqb_spec (ms_Status old) MappingSpecStatusPublished); [constructor|].
    destruct (MappingSpec_Validate _ _ _) as [[]|] eqn:Hv; [|constructor]. rewrite published_state.
    destruct (mst_UpdateDraft w _) as [r w'] eqn:Hc. eapply draft_moves; [by eapply law_UpdateDraft|done|done|].
    change (key_of_spec (spec_with n MappingSpecStatusDraft None)) with (key_of_spec n). unfold key_of_spec. by rewrite <-Hg.
  - unfold Spec_MarkValidated. destruct (current_version _ _ _ _ _ _) as [[[[p' sc'] i'] old]|] eqn:Hg; [|constructor].
    apply current_version_Ok in Hg. destruct (String.eqb_spec (ms_Status old) MappingSpecStatusPublished); [constructor|].
    destruct (_ && _); [constructor|]. rewrite published_state.
    destruct (mst_SetStatus _ _ _ _ _ _ _) as [[s|e] w'] eqn:Hc; apply law_SetStatus in Hc; cbn [fst snd]; [|rewrite Hc; constructor].
    destruct Hc as ((old' & Ho & Hco) & Hs & Hview). rewrite Hview. destruct (decide _) as [->|]; [|constructor].
    rewrite Hg in Ho |- *. injection Ho as <-. by apply move_validated.
  - unfold Spec_Publish. destruct (current_version _ _ _ _ _ _) as [[[[p' sc'] i'] old]|] eqn:Hg; [|constructor].
    apply current_version_Ok in Hg. destruct (String.eqb_spec (ms_Status old) MappingSpecStatusPublished); [constructor|].
    destruct (String.eqb_spec (ms_Status old) MappingSpecStatusValidated) as [Hv|_]; [|constructor]. cbn [negb]. rewrite published_state.
    destruct (mst_PublishVersion _ _ _ _ _ _) as [[s|?] w'] eqn:Hc; apply law_PublishVersion in Hc; cbn [fst snd]; [|rewrite Hc; constructor].
    destruct Hc as ((old' & Ho & Hco) & Hs & Hview). rewrite Hview. destruct (decide _) as [->|]; [|constructor].
    rewrite Hg in Ho |- *. injection Ho as <-. by apply move_published.
Qed.

Lemma moves_inv k o m : moves k o (Some m) →
  o = Some m ∨
  (from_option (λ old, ms_Status old ≠ MappingSpecStatusPublished) True o ∧ ms_Status m = MappingSpecStatusDraft ∧ valid m ∧ key_of_spec m = k) ∨
  ∃ old, o = Some old ∧ content m = content old ∧
    (ms_Status old ≠ MappingSpecStatusPublished ∧ ms_Status m = MappingSpecStatusValidated ∨
     ms_Status old = MappingSpecStatusValidated ∧ ms_Status m = MappingSpecStatusPublished).
Proof. inversion 1; subst; [by left|right; left; done|right; right..]; eauto 10. Qed.

(** Every row of the table of mapping specifications is a valid specification stored under its own key, over every history of the life
    cycle operations, whatever their arguments and whatever fails: nothing invalid is ever saved. *)
Theorem mapping_specs_well_formed s s' :
  (∀ k m, view s.1 k = Some m → valid m ∧ key_of_spec m = k) → spec_history s s' →
  ∀ k m, view s'.1 k = Some m → valid m ∧ key_of_spec m = k.
Proof.
  intros Hwf Hh. induction Hh as [s|now op s s' _ IH]; [done|]. apply IH. intros k m Hm.
  pose proof (spec_step_moves now s op k) as Hmv. rewrite Hm in Hmv.
  apply moves_inv in Hmv as [Ho|[(_ & _ & Hv & Hk)|(old & Ho & Hc & Hs)]]; [by apply Hwf|done|].
  destruct (Hwf k old Ho) as [Hvo Hko]. split; [|by rewrite <-Hko; apply content_key].
  eapply content_valid; [done| |done]. by destruct Hs as [[_ ->]|[_ ->]].
Qed.

Lemma published_fixed s s' k m : spec_history s s' → view s.1 k = Some m → ms_Status m = MappingSpecStatusPublished → view s'.1 k = Some m.
Proof.
  intros Hh Hm Hp. induction Hh as [s|now op s s' _ IH]; [done|]. apply IH. pose proof (spec_step_moves now s op k) as Hmv. rewrite Hm in Hmv.
  inversion Hmv as [|? ? Hold|? ? Hold|? ? Hold Hs]; [done|by destruct Hold|done|]. rewrite Hp in Hold. done.
Qed.

End histories.

(** ** A table as the store *)

Abbreviation spec_table := (gmap spec_key MappingSpec).
(** The row with the greatest version. *)
Definition newest_version (l : list (spec_key * MappingSpec)) : option (spec_key * MappingSpec) :=
  foldr (λ kv best, match best with Some b => if (b.1.2 <? kv.1.2)%Z then Some kv else best | None => Some kv end) None l.

Lemma newest_version_spec l :
  match newest_version l with Some b => b ∈ l ∧ ∀ kv, kv ∈ l → (kv.1.2 ≤ b.1.2)%Z | None => l = [] end.
Proof.
  induction l as [|kv l IH]; cbn [newest_version foldr]; [done|]. fold (newest_version l). destruct (newest_version l) as [b|].
  - destruct IH as [Hb Hmax]. destruct (Z.ltb_spec b.1.2 kv.1.2); (split; [set_solver|]); intros x [->|Hx]%elem_of_cons; try lia;
      specialize (Hmax x Hx); lia.
  - subst l. split; [set_solver|]. intros x [->|[]%elem_of_nil]%elem_of_cons. lia.
Qed.

Definition table_latest (w : spec_table) (p : string) (s : ScopeRef) (i : string) : outcome string (option MappingSpec) :=
  match newest_version (filter (λ kv, kv.1.1 = (p, scope_Type s, scope_ID s, i)) (map_to_list w)) with
  | None => Ok None
  | Some (k, m) => if (ms_Version m =? k.2)%Z then Ok (Some m) else Fail "corrupt row"
  end.
Definition table_set (w : spec_table) (k : spec_key) (status : string) (publishedAt : option Time) : outcome string MappingSpec * spec_table :=
  match w !! k with
  | Some m => let m' := spec_with m status publishedAt in (Ok m', <[k := m']> w)
  | None => (Fail "no rows", w)
  end.

#[export] Instance table_spec_store : MappingSpecStore spec_table := {
  mst_CreateDraft := λ w s, match w !! key_of_spec s with Some _ => (Fail "unique violation", w) | None => (Ok s, <[key_of_spec s := s]> w) end;
  mst_UpdateDraft := λ w s, match w !! key_of_spec s with Some _ => (Ok s, <[key_of_spec s := s]> w) | None => (Fail "no rows", w) end;
  mst_SetStatus := λ w p s i v status _, table_set w (key_of p s i v) status None;
  mst_GetVersion := λ w p s i v, Ok (w !! key_of p s i v);
  mst_GetLatest := table_latest;
  mst_ListByScope := λ w p s, Ok (filter (λ kv, kv.1.1.1 = (p, scope_Type s, scope_ID s)) (map_to_list w)).*2;
  mst_PublishVersion := λ w p s i v now, table_set w (key_of p s i v) MappingSpecStatusPublished (Some now) }.

Lemma table_insert_view (w : spec_table) k m k' : <[k := m]> w !! k' = if decide (k' = k) then Some m else w !! k'.
Proof. case_decide as Hd; [subst; by rewrite lookup_insert_eq|by rewrite lookup_insert_ne]. Qed.
Lemma table_set_spec w k status publishedAt r w' : table_set w k status publishedAt = (r, w') →
  match r with
  | Ok s => (∃ old, w !! k = Some old ∧ content s = content old) ∧ ms_Status s = status ∧ ∀ k', w' !! k' = if decide (k' = k) then Some s else w !! k'
  | Fail _ => ∀ k', w' !! k' = w !! k'
  end.
Proof.
  unfold table_set. destruct (w !! k) as [m|] eqn:Hm; intros H; injection H as <- <-; [|done]. split; [by exists m|]. split; [done|].
  intros. apply table_insert_view.
Qed.
Lemma table_latest_spec w p s i o : table_latest w p s i = Ok o →
  match o with
  | Some l => w !! key_of p s i (ms_Version l) = Some l ∧ ∀ v, is_Some (w !! key_of p s i v) → (v ≤ ms_Version l)%Z
  | None => ∀ v, w !! key_of p s i v = None
  end.
Proof.
  unfold table_latest. pose proof (newest_version_spec (filter (λ kv, kv.1.1 = (p, scope_Type s, scope_ID s, i)) (map_to_list w))) as Hn.
  assert (Hin : ∀ v m, w !! key_of p s i v = Some m →
    (key_of p s i v, m) ∈ filter (λ kv, kv.1.1 = (p, scope_Type s, scope_ID s, i)) (map_to_list w)).
  { intros v m Hm. rewrite list_elem_of_filter, elem_of_map_to_list. done. }
  destruct (newest_version _) as [[[k v] m]|].
  - destruct Hn as [[Hk Hm]%list_elem_of_filter Hmax]. rewrite elem_of_map_to_list in Hm. cbn [fst snd] in *.
    destruct (Z.eqb_spec (ms_Version m) v) as [<-|]; [|done]. intros [= <-]. rewrite Hk in Hm. split; [done|]. intros v' [m' Hm'].
    exact (Hmax _ (Hin v' m' Hm')).
  - intros [= <-] v. destruct (w !! key_of p s i v) as [m|] eqn:Hm; [|done]. apply Hin in Hm. rewrite Hn in Hm. by apply elem_of_nil in Hm.
Qed.

#[export] Instance table_spec_laws : MappingSpecStoreLaws spec_table table_spec_store.
Proof.
  refine {| view := λ w k, w !! k |}.
  - intros w p s i v o [= <-]. done.
  - intros w p s i o. apply table_latest_spec.
  - intros w spec r w'. simpl. destruct (w !! key_of_spec spec); intros H; injection H as <- <-; [done|].
    split_and!; [done..|]. intros. apply table_insert_view.
  - intros w spec r w'. simpl. destruct (w !! key_of_spec spec); intros H; injection H as <- <-; [|done].
    split_and!; [done..|]. intros. apply table_insert_view.
  - intros w p sc i v status now r w'. apply table_set_spec.
  - intros w p sc i v now r w'. apply table_set_spec.
Defined.

Definition demo_spec (rules : list MappingRule) : MappingSpec :=
  mkMappingSpec "" " contacts" "acme" (mkScopeRef "Org" "o1") "Contacts" "" "contact" "person" "" 0 "" rules ∅ 0 0 None.
Definition demo_rule : MappingRule := mkRule "r1" "email" "email" "" true VNil ∅ ∅.
#[export] Instance silent_bus : LifecycleEventBus unit := λ b _, (None, b).
Abbreviation demo_spec_step := (spec_step (λ s, s) (λ _, "invalid scope") (λ s, s) (λ _ _, "")).
Definition demo_published : spec_table * option unit :=
  let org := mkScopeRef "org" "o1" in
  foldl (demo_spec_step 7) (∅, Some tt)
    [OpCreateDraft (demo_spec [demo_rule]); OpMarkValidated "acme" org "contacts" 1; OpPublish "acme" org "contacts" 1].
Definition demo_key : spec_key := ("acme", "org", "o1", "contacts", 1%Z).

Lemma demo_history (s : spec_table * option unit) ops :
  spec_history (λ s, s) (λ _, "invalid scope") (λ s, s) (λ _ _, "") s (foldl (demo_spec_step 7) s ops).
Proof. revert s. induction ops as [|op ops IH]; intros s; [constructor|]. simpl. econstructor. apply IH. Qed.

Lemma empty_specs (k : spec_key) (m : MappingSpec) : (∅ : spec_table) !! k = Some m → False.
Proof. by rewrite lookup_empty. Qed.

Lemma mapping_specs_well_formed_witness :
  ∃ m, demo_published.1 !! demo_key = Some m ∧ MappingSpec_Validate (λ s, s) (λ _, "invalid scope") m = Ok tt.
Proof.
  eexists. split; [reflexivity|]. pose (start := ((∅ : spec_table), Some tt)).
  apply (mapping_specs_well_formed (λ s, s) (λ _, "invalid scope") (λ s, s) (λ _ _, "") (laws := table_spec_laws) (bus := silent_bus)
    start demo_published) with (k := demo_key); [|apply demo_history|reflexivity].
  intros k m H. destruct (empty_specs k m). exact H.
Defined.


(** A version whose publication could not be announced is published all the same, and calling [Publish] again announces nothing: the event
    is lost. *)
#[local] Instance failing_bus : LifecycleEventBus (list string) :=
  λ b e, match b with [] => (Some "bus down", ["up"]) | _ => (None, b ++ [ev_Name e]) end.
Example publication_event_lost :
  let org := mkScopeRef "org" "o1" in
  let validated := (foldl (demo_spec_step 7) (∅, Some tt)
    [OpCreateDraft (demo_spec [demo_rule]); OpMarkValidated "acme" org "contacts" 1]).1 in
  let publish s := Spec_Publish (λ _, "invalid scope") (λ s, s) (λ _ _, "") 8 s "acme" org "contacts" 1 in
  let first := publish (validated, Some []) in
  let again := publish first.2 in
  (first.1, obind again.1 (λ m, Ok (ms_Status m)), again.2.2) = (Fail "bus down", Ok MappingSpecStatusPublished, Some ["up"]).
Proof. vm_compute. reflexivity. Qed.
