(* ===== verification/MappingCompiler.v ===== *)
(** * The compiler of mapping specifications (src/core/mapping_compiler.go, mapping_transforms.go)

    A specification is checked against the schema of the external system: every rule reads a field that exists, with a known transform whose
    types fit, writes a target of its own, and every required field is mapped.  The transforms are given on dynamic values. *)

From S2P Require Import Prelude GoStrings GoValues Domain FormData MappingLifecycle RateLimitStores.
From Stdlib Require Import ZArith String Lia.
From stdpp Require Import base decidable list gmap strings.

Local Open Scope string_scope.
Local Open Scope nat_scope.
Local Open Scope list_scope.

(** ** Types and transforms *)

Definition normalizePath (path : string) : string := TrimSpace path.
Definition normalizeTransform (transform : string) : string :=
  let candidate := lowerTrim transform in if String.eqb candidate "" then "identity" else candidate.

Definition one_of (s : string) (l : list string) : bool := existsb (String.eqb s) l.

Definition canonicalFieldType (raw : string) : string :=
  let v := lowerTrim raw in
  if one_of v ["int"; "integer"] then "integer"
  else if one_of v ["float"; "double"; "decimal"; "number"] then "number"
  else if one_of v ["bool"; "boolean"] then "boolean"
  else if one_of v ["str"; "string"; "text"] then "string"
  else if one_of v ["timestamp"; "datetime"; "date_time"] then "datetime"
  else v.

Definition isSupportedMappingTransform (transform : string) : bool :=
  one_of transform ["identity"; "to_string"; "to_int"; "to_float"; "to_bool"; "trim"; "lowercase"; "uppercase"; "unix_time_to_rfc3339"].

Definition isMappingTypeCompatible (sourceType targetType transform : string) : bool :=
  let targetType := canonicalFieldType targetType in
  let sourceType := canonicalFieldType sourceType in
  if String.eqb targetType "" || String.eqb sourceType "" then true
  else
    let t := normalizeTransform transform in
    if String.eqb t "identity" then String.eqb sourceType targetType
    else if String.eqb t "to_string" then String.eqb targetType "string"
    else if String.eqb t "to_int" then String.eqb targetType "integer" && one_of sourceType ["string"; "integer"; "number"; "boolean"]
    else if String.eqb t "to_float" then String.eqb targetType "number" && one_of sourceType ["string"; "integer"; "number"]
    else if String.eqb t "to_bool" then String.eqb targetType "boolean" && one_of sourceType ["string"; "integer"; "boolean"]
    else if one_of t ["trim"; "lowercase"; "uppercase"] then String.eqb sourceType "string" && String.eqb targetType "string"
    else if String.eqb t "unix_time_to_rfc3339" then String.eqb targetType "string" && one_of sourceType ["integer"; "number"; "string"]
    else false.

Section transforms.
Variable quote : string → string.
(** What Go leaves to the machine and to the library: the conversion to an integer of a float that is out of range, the conversions of a
    [float32] or [json.Number] (values known only by their text), rounding an integer to a float and printing it, [strconv.ParseFloat], the
    date of a Unix time, the text of a parse error, and the name of a type that the model does not know. *)
Variable oor : Z.
Variables (other_int : string → outcome string Z) (other_float : string → outcome string (Z * Z * string)) (other_bool : string → outcome string bool).
Variable float_of_Z : Z → Z * Z * string.
Variable ParseFloat : string → option (Z * Z * string).
Variable unix_rfc3339 : Z → string.
Variable parse_error : string → string.
Variable other_type : string → string.

(** [%T] *)
Definition type_name (v : value) : string :=
  match v with
  | VNil => "<nil>" | VBool _ => "bool"
  | VInt k _ => match k with IntK => "int" | Int8K => "int8" | Int16K => "int16" | Int32K => "int32" | Int64K => "int64"
                | UintK => "uint" | Uint8K => "uint8" | Uint16K => "uint16" | Uint32K => "uint32" | Uint64K => "uint64" end
  | VFloat64 _ _ _ => "float64" | VString _ => "string" | VStrings _ => "[]string" | VList _ => "[]interface {}"
  | VMap _ => "map[string]interface {}" | VOther text => other_type text
  end.

Definition toIntValue (v : value) : outcome string Z :=
  match v with
  | VInt _ z => Ok (wrap64 z)
  | VFloat64 m e _ => Ok (float_to_int oor m e)
  | VBool b => Ok (if b then 1 else 0)%Z
  | VOther text => other_int text
  | VString s =>
    let candidate := TrimSpace s in
    if String.eqb candidate "" then Fail "core: empty string cannot convert to int"
    else match ParseInt10 candidate with
         | Some z => Ok z
         | None => Fail ("core: parse string as int: " +:+ parse_error candidate)
         end
  | _ => Fail ("core: unsupported int conversion from " +:+ type_name v)
  end.

Definition toFloatValue (v : value) : outcome string (Z * Z * string) :=
  match v with
  | VInt _ z => Ok (float_of_Z z)
  | VFloat64 m e text => Ok (m, e, text)
  | VBool b => Ok (float_of_Z (if b then 1 else 0)%Z)
  | VOther text => other_float text
  | VString s =>
    let candidate := TrimSpace s in
    if String.eqb candidate "" then Fail "core: empty string cannot convert to float"
    else match ParseFloat candidate with
         | Some f => Ok f
         | None => Fail ("core: parse string as float: " +:+ parse_error candidate)
         end
  | _ => Fail ("core: unsupported float conversion from " +:+ type_name v)
  end.

Definition toBoolValue (v : value) : outcome string bool :=
  match v with
  | VBool b => Ok b
  | VInt _ z => Ok (negb (z =? 0)%Z)
  | VFloat64 m _ _ => Ok (negb (m =? 0)%Z)
  | VOther text => other_bool text
  | VString s =>
    let candidate := lowerTrim s in
    if one_of candidate ["true"; "1"; "yes"; "y"] then Ok true
    else if one_of candidate ["false"; "0"; "no"; "n"] then Ok false
    else Fail ("core: parse string as bool: " +:+ quote s)
  | _ => Fail ("core: unsupported bool conversion from " +:+ type_name v)
  end.

Definition toStringStrict (v : value) : outcome string string :=
  match v with
  | VString s => Ok s
  | _ => Fail ("core: expected string input for text transform, got " +:+ type_name v)
  end.

Definition applyMappingTransform (transform : string) (v : value) : outcome string value :=
  let t := normalizeTransform transform in
  if String.eqb t "identity" then Ok v
  else if String.eqb t "to_string" then Ok (VString (Sprint v))
  else if String.eqb t "to_int" then obind (toIntValue v) (λ z, Ok (VInt Int64K z))
  else if String.eqb t "to_float" then obind (toFloatValue v) (λ f, Ok (VFloat64 f.1.1 f.1.2 f.2))
  else if String.eqb t "to_bool" then obind (toBoolValue v) (λ b, Ok (VBool b))
  else if String.eqb t "trim" then obind (toStringStrict v) (λ s, Ok (VString (TrimSpace s)))
  else if String.eqb t "lowercase" then obind (toStringStrict v) (λ s, Ok (VString (ToLower s)))
  else if String.eqb t "uppercase" then obind (toStringStrict v) (λ s, Ok (VString (ToUpper s)))
  else if String.eqb t "unix_time_to_rfc3339" then obind (toIntValue v) (λ z, Ok (VString (unix_rfc3339 z)))
  else Fail ("core: unsupported transform " +:+ quote transform).

(** The schema type of a value. *)
Definition value_type (v : value) : string :=
  match v with VBool _ => "boolean" | VInt _ _ => "integer" | VFloat64 _ _ _ => "number" | VString _ => "string" | _ => "" end.

Lemma string_eqb_if {A} (s t : string) (a b c : A) : (if String.eqb s t then a else b) = c → s = t ∧ a = c ∨ s ≠ t ∧ b = c.
Proof. destruct (String.eqb_spec s t); auto. Qed.

Lemma one_of_spec s l : one_of s l = true ↔ s ∈ l.
Proof. unfold one_of. rewrite existsb_exists. setoid_rewrite <-list_elem_of_In. setoid_rewrite String.eqb_eq. naive_solver. Qed.

Lemma canonicalFieldType_of_canonical t : t ∈ ["integer"; "number"; "boolean"; "string"; ""] → canonicalFieldType t = t.
Proof. rewrite !elem_of_cons, elem_of_nil. intros [->|[->|[->|[->|[->|[]]]]]]; reflexivity. Qed.
Lemma value_type_known v : value_type v ∈ ["integer"; "number"; "boolean"; "string"; ""].
Proof. rewrite !elem_of_cons, elem_of_nil. destruct v; simpl; tauto. Qed.

Lemma obind_Ok {A C} (o : outcome string A) (f : A → C) v : obind o (λ a, Ok (f a)) = Ok v → ∃ a, v = f a.
Proof. destruct o; [|done]. intros [= <-]. eauto. Qed.

(** A transform that converts, and one that only takes texts. *)
Local Ltac conversion v :=
  intros [->%String.eqb_eq Hof]%andb_true_iff; split;
  [by intros v' (z & ->)%obind_Ok|intros Hns; destruct v; try done; eexists; reflexivity].
Local Ltac text_case :=
  cbn [orb]; intros [Hstr%String.eqb_eq ->%String.eqb_eq]%andb_true_iff; split; [by intros v' (z & ->)%obind_Ok|done].

(** C33: the type check of the compiler is sound for the transforms: where it accepts a transform from the type of a field to a declared target
    type, the transform of a value of the field's type, if it succeeds, is a value of the target type; and it can only fail on a text that does
    not parse. *)
Theorem transform_type_sound sourceType targetType transform v :
  isMappingTypeCompatible sourceType targetType transform = true →
  canonicalFieldType sourceType = value_type v → value_type v ≠ "" → canonicalFieldType targetType ≠ "" →
  (∀ v', applyMappingTransform transform v = Ok v' → value_type v' = canonicalFieldType targetType) ∧
  (value_type v ≠ "string" → ∃ v', applyMappingTransform transform v = Ok v').
Proof.
  unfold isMappingTypeCompatible, applyMappingTransform. intros Hc Hs Hv Ht. rewrite Hs in Hc.
  apply String.eqb_neq in Ht as Ht', Hv as Hv'. rewrite Ht', Hv' in Hc. cbn [orb] in Hc.
  generalize dependent (canonicalFieldType targetType). intros target Hc Ht _. generalize dependent (normalizeTransform transform). intros t.
  destruct (String.eqb_spec t "identity") as [_|_]; [intros <-%String.eqb_eq; split; [by intros v' [= <-]|eauto]|].
  destruct (String.eqb_spec t "to_string") as [_|_]; [intros ->%String.eqb_eq; split; [by intros v' [= <-]|eauto]|].
  destruct (String.eqb_spec t "to_int") as [_|_]; [conversion v|]. destruct (String.eqb_spec t "to_float") as [_|_]; [conversion v|].
  destruct (String.eqb_spec t "to_bool") as [_|_]; [conversion v|]. unfold one_of at 1. cbn [existsb].
  destruct (String.eqb_spec t "trim") as [_|_]; [text_case|]. destruct (String.eqb_spec t "lowercase") as [_|_]; [text_case|].
  destruct (String.eqb_spec t "uppercase") as [_|_]; [text_case|]. cbn [orb].
  destruct (String.eqb_spec t "unix_time_to_rfc3339") as [_|_]; [conversion v|done].
Qed.
End transforms.

Lemma transform_type_sound_witness :
  (∃ v', applyMappingTransform (λ s, s) 0 Fail Fail Fail (λ z, (z, 0%Z, "")) (λ _, None) (λ _, "") (λ s, s) (λ s, s) " To_Bool " (VInt IntK 3) = Ok v') ∧
  isMappingTypeCompatible "int" "Boolean" " To_Bool " = true.
Proof.
  split; [|reflexivity].
  apply (transform_type_sound (λ s, s) 0 Fail Fail Fail (λ z, (z, 0%Z, "")) (λ _, None) (λ _, "") (λ s, s) (λ s, s) "int" "Boolean" " To_Bool "
    (VInt IntK 3)); [reflexivity|reflexivity|done|done|done].
Defined.

(** ** Issues *)

Definition mappingIssue (code message ruleID sourcePath targetPath severity : string) : MappingValidationIssue :=
  mkIssue (lowerTrim code) (TrimSpace message) severity (TrimSpace ruleID) (TrimSpace sourcePath) (TrimSpace targetPath).

(** The first pair of texts that differ decides. *)
Fixpoint lex_less (l : list (string * string)) : bool :=
  match l with
  | [] => false
  | (a, b) :: l => if String.eqb a b then lex_less l else String.ltb a b
  end.
Definition lex_keys (a b : list string) : bool := lex_less (zip a b).
Lemma lex_keys_trans a b c : length a = length b → length b = length c → lex_keys a b = true → lex_keys b c = true → lex_keys a c = true.
Proof.
  unfold lex_keys. revert b c. induction a as [|x a IH]; intros [|y b] [|z c]; simpl; try done. intros [= Hl1] [= Hl2].
  destruct (String.eqb_spec x y) as [->|Hxy]; destruct (String.eqb_spec y z) as [->|Hyz]; rewrite ?String.eqb_refl; intros H1 H2.
  - eauto.
  - destruct (String.eqb_spec y z); [done|done].
  - destruct (String.eqb_spec x z); [done|done].
  - pose proof (string_ltb_trans _ _ _ H1 H2) as H. destruct (String.eqb_spec x z) as [->|]; [|done].
    apply string_ltb_asym in H2. congruence.
Qed.
Lemma lex_keys_asym a b : lex_keys a b = true → lex_keys b a = false.
Proof.
  unfold lex_keys. revert b. induction a as [|x a IH]; intros [|y b]; simpl; try done. rewrite (String.eqb_sym y x).
  destruct (String.eqb x y); [apply IH|apply string_ltb_asym].
Qed.

Definition issue_less (left right : MappingValidationIssue) : bool :=
  lex_less [(mi_Severity left, mi_Severity right); (mi_Code left, mi_Code right); (mi_RuleID left, mi_RuleID right);
    (mi_SourcePath left, mi_SourcePath right); (mi_TargetPath left, mi_TargetPath right); (mi_Message left, mi_Message right)].
Definition sortMappingValidationIssues (issues : list MappingValidationIssue) : list MappingValidationIssue := stable_sort issue_less issues.
Definition containsMappingErrors (issues : list MappingValidationIssue) : bool :=
  existsb (λ i, String.eqb (mi_Severity i) MappingValidationIssueError) issues.

(** ** The compiler *)

Definition buildSourceFieldIndexes (object : ExternalObjectSchema) : gmap string ExternalField * gmap string ExternalField :=
  foldl (λ acc f, (<[normalizePath (ef_Path f) := f]> acc.1,
                   if ef_Required f then <[normalizePath (ef_Path f) := f]> acc.2 else acc.2)) (∅, ∅) (eo_Fields object).

Definition findExternalObject (schema : ExternalSchema) (objectName : string) : option ExternalObjectSchema :=
  snd <$> list_find (λ o, normalizePath (eo_Name o) = normalizePath objectName) (es_Objects schema).

Definition deriveExternalSchemaReference (schema : ExternalSchema) : string :=
  if negb (blank (es_ID schema)) then TrimSpace (es_ID schema)
  else
    let name := TrimSpace (es_Name schema) in
    let version := TrimSpace (es_Version schema) in
    if String.eqb name "" then "" else if String.eqb version "" then name else name +:+ "@" +:+ version.

Definition normalizeMappingRule (r : MappingRule) : MappingRule :=
  mkRule (TrimSpace (mr_ID r)) (normalizePath (mr_SourcePath r)) (normalizePath (mr_TargetPath r)) (normalizeTransform (mr_Transform r))
    (mr_Required r) (mr_Default r) (mr_Constraints r) (mr_Metadata r).

(** The first of the keys that has a text. *)
Definition resolveTargetType (r : MappingRule) : string :=
  match omap (λ key, match mr_Constraints r !! key with Some (VString text) => Some text | _ => None end) ["target_type"; "targetType"; "type"] with
  | text :: _ => canonicalFieldType text
  | [] => ""
  end.

Record CompileState := mkCompileState {
  cs_issues : list MappingValidationIssue; cs_mapped : gset string; cs_targets : gmap string string; cs_rules : list CompiledMappingRule }.

Section compile.
Context {MR : MapRange}.
Variable quote : string → string.
Variable scope_error_text : domain_error → string.
(** [json.Marshal] of a compiled specification, and [sha256.Sum256] in hexadecimal. *)
Variable json_compiled : CompiledMappingSpec → outcome string string.
Variable sha256_hex : string → string.

Definition mappingCompiledHash (compiled : CompiledMappingSpec) : outcome string string :=
  match json_compiled compiled with
  | Fail e => Fail ("core: marshal compiled mapping spec: " +:+ e)
  | Ok payload => Ok (sha256_hex payload)
  end.

(** The issues of one rule that do not depend on the other rules. *)
Definition rule_issues (object : ExternalObjectSchema) (fields : gmap string ExternalField) (rule : MappingRule) : list MappingValidationIssue :=
  let issue code message := mappingIssue code message (mr_ID rule) (mr_SourcePath rule) (mr_TargetPath rule) MappingValidationIssueError in
  let field := fields !! normalizePath (mr_SourcePath rule) in
  let transform := normalizeTransform (mr_Transform rule) in
  let targetType := resolveTargetType rule in
  let sourceType := canonicalFieldType (from_option ef_Type "" field) in
  (match field with
   | None => [issue "source_field_not_found" ("core: source field " +:+ quote (mr_SourcePath rule) +:+ " not found in object " +:+ quote (eo_Name object))]
   | Some _ => []
   end) ++
  (if isSupportedMappingTransform transform then [] else [issue "transform_unknown" ("core: unsupported transform " +:+ quote (mr_Transform rule))]) ++
  (if isSupportedMappingTransform transform && bool_decide (is_Some field) && negb (String.eqb targetType "")
      && negb (isMappingTypeCompatible sourceType targetType transform)
   then [issue "type_incompatible" ("core: source type " +:+ quote sourceType +:+ " is not compatible with target type " +:+ quote targetType
           +:+ " using transform " +:+ quote transform)]
   else []).

Definition compile_rule (object : ExternalObjectSchema) (fields : gmap string ExternalField) (st : CompileState) (rule : MappingRule) : CompileState :=
  let rule := normalizeMappingRule rule in
  let sourcePath := normalizePath (mr_SourcePath rule) in
  let targetPath := normalizePath (mr_TargetPath rule) in
  let field := fields !! sourcePath in
  let duplicate := match cs_targets st !! targetPath with
    | Some existing => [mappingIssue "target_path_duplicate" ("core: duplicate target path " +:+ quote (mr_TargetPath rule) +:+ " for rules "
        +:+ quote existing +:+ " and " +:+ quote (mr_ID rule)) (mr_ID rule) (mr_SourcePath rule) (mr_TargetPath rule) MappingValidationIssueError]
    | None => []
    end in
  mkCompileState (cs_issues st ++ rule_issues object fields rule ++ duplicate)
    (match field with Some f => if ef_Required f then {[ sourcePath ]} ∪ cs_mapped st else cs_mapped st | None => cs_mapped st end)
    (match cs_targets st !! targetPath with
     | Some _ => cs_targets st
     | None => if String.eqb targetPath "" then cs_targets st else <[targetPath := mr_ID rule]> (cs_targets st)
     end)
    (cs_rules st ++ [mkCompiledRule rule (canonicalFieldType (from_option ef_Type "" field)) (resolveTargetType rule)
       (normalizeTransform (mr_Transform rule))]).

Definition required_issues (required : gmap string ExternalField) (mapped : gset string) : list MappingValidationIssue :=
  omap (λ path, if bool_decide (path ∈ mapped) then None
                else let name := from_option ef_Path "" (required !! path) in
                     Some (mappingIssue "required_field_unmapped" ("core: required source field " +:+ quote name +:+ " is not mapped") "" name ""
                       MappingValidationIssueError))
    (sortStrings (map_range required).*1).

Definition compiled_less (left right : CompiledMappingRule) : bool :=
  lex_less [(mr_TargetPath (cr_Rule left), mr_TargetPath (cr_Rule right)); (mr_SourcePath (cr_Rule left), mr_SourcePath (cr_Rule right));
    (mr_ID (cr_Rule left), mr_ID (cr_Rule right))].

(** The checks of the schema and of the specification by themselves. *)
Definition spec_issues (schema : ExternalSchema) (spec : MappingSpec) : list MappingValidationIssue :=
  (match ExternalSchema_Validate scope_error_text schema with
   | Fail e => [mappingIssue "invalid_schema" e "" "" "" MappingValidationIssueError] | Ok _ => [] end) ++
  (match MappingSpec_Validate quote scope_error_text spec with
   | Fail e => [mappingIssue "invalid_spec" e "" "" "" MappingValidationIssueError] | Ok _ => [] end) ++
  let reference := deriveExternalSchemaReference schema in
  if negb (String.eqb reference "") && negb (blank (ms_SchemaRef spec)) && negb (String.eqb (normalizePath reference) (normalizePath (ms_SchemaRef spec)))
  then [mappingIssue "schema_drift_detected" ("core: mapping spec schema_ref " +:+ quote (ms_SchemaRef spec) +:+ " differs from active schema "
          +:+ quote reference) "" "" "" MappingValidationIssueWarning]
  else [].

Definition CompileMappingSpec (req : ValidateMappingSpecRequest) : outcome string (CompiledMappingSpec * list MappingValidationIssue) :=
  let spec := normalizeMappingSpec (vm_Spec req) in
  let issues := spec_issues (vm_Schema req) spec in
  match findExternalObject (vm_Schema req) (ms_SourceObject spec) with
  | None =>
    let issues := issues ++ [mappingIssue "source_object_not_found" ("core: source object " +:+ quote (ms_SourceObject spec)
                    +:+ " not found in schema") "" "" "" MappingValidationIssueError] in
    Ok (mkCompiledSpec (ms_SpecID spec) (ms_Version spec) (ms_SourceObject spec) [] "", sortMappingValidationIssues issues)
  | Some object =>
    let (fields, required) := buildSourceFieldIndexes object in
    let st := foldl (compile_rule object fields) (mkCompileState issues ∅ ∅ []) (ms_Rules spec) in
    let issues := cs_issues st ++ required_issues required (cs_mapped st) in
    let compiled := mkCompiledSpec (ms_SpecID spec) (ms_Version spec) (ms_SourceObject spec) (stable_sort compiled_less (cs_rules st)) "" in
    match mappingCompiledHash compiled with
    | Fail e => Fail e
    | Ok hash => Ok (mkCompiledSpec (cm_SpecID compiled) (cm_Version compiled) (cm_SourceObject compiled) (cm_Rules compiled) hash,
                     sortMappingValidationIssues issues)
    end
  end.

Definition ValidateMappingSpec (req : ValidateMappingSpecRequest) : outcome string ValidateMappingSpecResult :=
  match CompileMappingSpec req with
  | Fail e => Fail e
  | Ok (compiled, issues) =>
    let issues := sortMappingValidationIssues issues in
    Ok (mkValidateResult (negb (containsMappingErrors issues)) issues (normalizeMappingSpec (vm_Spec req)) compiled)
  end.
End compile.

(** ** What a valid mapping is *)

Section validity.
Context {MR : MapRange}.
Variable quote : string → string.
Variable scope_error_text : domain_error → string.
Variable json_compiled : CompiledMappingSpec → outcome string string.
Variable sha256_hex : string → string.
Abbreviation errors := containsMappingErrors.

(** A rule reads a field of the object, with a supported transform whose types fit if the target's is declared. *)
Definition rule_ok (fields : gmap string ExternalField) (rule : MappingRule) : Prop :=
  ∃ field, fields !! normalizePath (mr_SourcePath rule) = Some field ∧
    isSupportedMappingTransform (normalizeTransform (mr_Transform rule)) = true ∧
    (resolveTargetType rule ≠ "" →
     isMappingTypeCompatible (canonicalFieldType (ef_Type field)) (resolveTargetType rule) (normalizeTransform (mr_Transform rule)) = true).

(** A specification that may be published: valid by itself, for a valid schema that has its object, with rules that are in order, write
    different targets and map every required field. *)
Definition mapping_ok (schema : ExternalSchema) (spec : MappingSpec) : Prop :=
  ExternalSchema_Validate scope_error_text schema = Ok tt ∧ MappingSpec_Validate quote scope_error_text spec = Ok tt ∧
  ∃ object fields required, findExternalObject schema (ms_SourceObject spec) = Some object ∧
    buildSourceFieldIndexes object = (fields, required) ∧
    Forall (λ r, rule_ok fields (normalizeMappingRule r)) (ms_Rules spec) ∧
    NoDup ((λ r, normalizePath (mr_TargetPath r)) <$> ms_Rules spec) ∧
    ∀ path, is_Some (required !! path) → ∃ r f, r ∈ ms_Rules spec ∧ normalizePath (mr_SourcePath r) = path ∧ fields !! path = Some f ∧ ef_Required f = true.

Lemma errors_app l1 l2 : errors (l1 ++ l2) = errors l1 || errors l2.
Proof. apply existsb_app. Qed.
Lemma errors_sort l : errors (sortMappingValidationIssues l) = errors l.
Proof.
  unfold containsMappingErrors, sortMappingValidationIssues. apply eq_true_iff_eq. rewrite !existsb_exists. setoid_rewrite <-list_elem_of_In.
  by setoid_rewrite elem_of_stable_sort.
Qed.

Lemma rule_issues_ok object fields rule : errors (rule_issues quote object fields rule) = false ↔ rule_ok fields rule.
Proof.
  unfold rule_issues, rule_ok. rewrite !errors_app, !orb_false_iff.
  destruct (fields !! normalizePath (mr_SourcePath rule)) as [f|]; cbn [from_option].
  - destruct (isSupportedMappingTransform _); cbn [andb]; [|split; [by intros (_ & ? & _)|by intros (? & _ & ? & _)]].
    rewrite bool_decide_eq_true_2 by eauto. cbn [andb]. destruct (String.eqb_spec (resolveTargetType rule) "") as [->|Hne]; cbn [negb andb].
    + split; [intros _; exists f; by split_and!|done].
    + destruct (isMappingTypeCompatible _ _ _) eqn:Hc; cbn [negb]; split.
      * intros _. exists f. by split_and!.
      * done.
      * by intros (_ & _ & ?).
      * intros (? & [= <-] & _ & H). specialize (H Hne). congruence.
  - split; [by intros [? _]|by intros (? & ? & _)].
Qed.

Lemma normalizePath_idem p : normalizePath (normalizePath p) = normalizePath p.
Proof. apply TrimSpace_idem. Qed.

Lemma exists_rule_cons (Q : MappingRule → ExternalField → Prop) r rules :
  (∃ r' f, r' ∈ r :: rules ∧ Q r' f) ↔ (∃ f, Q r f) ∨ ∃ r' f, r' ∈ rules ∧ Q r' f.
Proof. setoid_rewrite elem_of_cons. split; [intros (r' & f & [->|Hr] & HQ); eauto|intros [[f HQ]|(r' & f & Hr & HQ)]; eauto 6]. Qed.

(** The loop over the rules, from a state with the targets of the rules before. *)
Lemma compile_rules_ok object fields rules st :
  Forall (λ r, normalizePath (mr_TargetPath r) ≠ "") rules →
  let st' := foldl (compile_rule quote object fields) st rules in
  (errors (cs_issues st') = false ↔
   errors (cs_issues st) = false ∧ Forall (λ r, rule_ok fields (normalizeMappingRule r)) rules ∧
   NoDup ((λ r, normalizePath (mr_TargetPath r)) <$> rules) ∧
   ∀ r, r ∈ rules → cs_targets st !! normalizePath (mr_TargetPath r) = None) ∧
  (∀ path, path ∈ cs_mapped st' ↔
     path ∈ cs_mapped st ∨ ∃ r f, r ∈ rules ∧ normalizePath (mr_SourcePath r) = path ∧ fields !! path = Some f ∧ ef_Required f = true).
Proof.
  revert st. induction rules as [|r rules IH]; intros st Hne; cbn [foldl].
  - split; [|set_solver]. split; [|naive_solver]. intros H. split_and!; [done|constructor|constructor|set_solver].
  - apply Forall_cons in Hne as [Hr Hne]. destruct (IH (compile_rule quote object fields st r) Hne) as [H1 H2]. cbv zeta in *. split.
    + rewrite H1. unfold compile_rule. cbn [cs_issues cs_targets]. rewrite !errors_app, !orb_false_iff, rule_issues_ok.
      change (mr_TargetPath (normalizeMappingRule r)) with (normalizePath (mr_TargetPath r)). rewrite normalizePath_idem.
      set (t := normalizePath (mr_TargetPath r)) in *. rewrite !fmap_cons, NoDup_cons, Forall_cons.
      destruct (cs_targets st !! t) as [x|] eqn:Ht.
      { split; [by intros (( _ & _ & ?) & _)|]. intros (_ & _ & _ & H). specialize (H r ltac:(set_solver)). fold t in H. congruence. }
      destruct (String.eqb_spec t ""); [done|]. split.
      * intros ((Hi & Hok & _) & Hrules & Hnd & Hfree). split_and!; [done|done|done| |done|].
        -- rewrite list_elem_of_fmap. intros (r' & Heq & Hin). specialize (Hfree r' Hin). fold t in Heq. rewrite <-Heq, lookup_insert_eq in Hfree. done.
        -- intros r' [->|Hin]%elem_of_cons; [done|]. specialize (Hfree r' Hin). apply lookup_insert_None in Hfree. tauto.
      * intros (Hi & [Hok Hrules] & [Hnin Hnd] & Hfree). split_and!; [done|done|done|done|done|]. intros r' Hin.
        apply lookup_insert_None. split; [apply Hfree; set_solver|]. intros Heq. apply Hnin. apply list_elem_of_fmap. eauto.
    + intros path. rewrite H2. unfold compile_rule. cbn [cs_mapped].
      change (mr_SourcePath (normalizeMappingRule r)) with (normalizePath (mr_SourcePath r)). rewrite normalizePath_idem, exists_rule_cons.
      destruct (decide (normalizePath (mr_SourcePath r) = path)) as [->|Hp].
      * destruct (fields !! path) as [f|]; [destruct (ef_Required f) eqn:Hreq|]; rewrite ?elem_of_union, ?elem_of_singleton; split; try tauto.
        -- intros _. right. left. by exists f.
        -- intros [?|[(? & _ & [= <-] & ?)|?]]; [by left|congruence|by right].
        -- intros [?|[(? & _ & ? & _)|?]]; [by left|done|by right].
      * assert (¬ (∃ f, normalizePath (mr_SourcePath r) = path ∧ fields !! path = Some f ∧ ef_Required f = true)) as Hno by by intros (? & ? & _).
        destruct (fields !! normalizePath _) as [f|]; [destruct (ef_Required f)|]; rewrite ?elem_of_union, ?elem_of_singleton; split; try tauto.
        intros [[?|?]|?]; [congruence|by left|by right; right].
Qed.

Lemma required_issues_ok required mapped :
  errors (required_issues quote required mapped) = false ↔ ∀ path, is_Some (required !! path) → path ∈ mapped.
Proof.
  unfold required_issues, containsMappingErrors. rewrite <-not_true_iff_false, existsb_exists. setoid_rewrite <-list_elem_of_In.
  setoid_rewrite list_elem_of_omap. setoid_rewrite elem_of_sortStrings. setoid_rewrite list_elem_of_fmap. split.
  - intros H path [f Hf]. destruct (decide (path ∈ mapped)) as [|Hn]; [done|]. destruct H. eexists. split.
    + exists path. split; [exists (path, f); split; [done|by apply elem_of_map_range]|]. rewrite bool_decide_eq_false_2 by done. reflexivity.
    + reflexivity.
  - intros H (i & (path & ([path' f] & -> & Hin%elem_of_map_range) & Hi) & _). cbn [fst] in *.
    rewrite bool_decide_eq_true_2 in Hi; [done|]. apply H. eauto.
Qed.

Lemma spec_issues_ok schema spec : errors (spec_issues quote scope_error_text schema spec) = false ↔
  ExternalSchema_Validate scope_error_text schema = Ok tt ∧ MappingSpec_Validate quote scope_error_text spec = Ok tt.
Proof.
  unfold spec_issues. rewrite !errors_app, !orb_false_iff. destruct (ExternalSchema_Validate _ _) as [[]|]; [|naive_solver].
  destruct (MappingSpec_Validate _ _ _) as [[]|]; [|naive_solver]. split; [done|]. intros _. split_and!; [done..|]. by case_match.
Qed.

Lemma valid_targets spec : MappingSpec_Validate quote scope_error_text spec = Ok tt → Forall (λ r, normalizePath (mr_TargetPath r) ≠ "") (ms_Rules spec).
Proof.
  unfold MappingSpec_Validate. destruct (checks _); [|done]. generalize 0%Z. induction (ms_Rules spec) as [|r l IH]; intros z; [constructor|].
  cbn [rules_check]. destruct (MappingRule_Validate r) as [[]|] eqn:Hr; [|done]. intros H. constructor; [|by eapply IH].
  apply checks_Ok in Hr. rewrite !Forall_cons in Hr. destruct Hr as (_ & Ht & _). by apply negb_true_iff, blank_false in Ht.
Qed.

Lemma validate_exact req r :
  ValidateMappingSpec quote scope_error_text json_compiled sha256_hex req = Ok r →
  (vr_Valid r = true ↔ mapping_ok (vm_Schema req) (normalizeMappingSpec (vm_Spec req))).
Proof.
  unfold ValidateMappingSpec, CompileMappingSpec, mapping_ok. set (spec := normalizeMappingSpec (vm_Spec req)).
  destruct (findExternalObject _ _) as [object|] eqn:Ho.
  - destruct (buildSourceFieldIndexes object) as [fields required] eqn:Hi. cbv zeta. destruct (mappingCompiledHash _ _ _) as [hash|]; [|done].
    intros H. injection H as <-. cbn [vr_Valid]. rewrite negb_true_iff, !errors_sort, errors_app, orb_false_iff, required_issues_ok.
    split.
    + intros [He Hreq].
      assert (Hspec : errors (spec_issues quote scope_error_text (vm_Schema req) spec) = false).
      { clear -He. revert He. generalize (spec_issues quote scope_error_text (vm_Schema req) spec). intros l.
        assert (Hmono : ∀ rules st, errors (cs_issues (foldl (compile_rule quote object fields) st rules)) = false → errors (cs_issues st) = false).
        { induction rules as [|x rules IH]; intros st; [done|]. intros He%IH. unfold compile_rule in He. cbn [cs_issues] in He.
          rewrite errors_app, orb_false_iff in He. tauto. }
        apply (Hmono _ (mkCompileState l ∅ ∅ [])). }
      apply spec_issues_ok in Hspec as [Hs Hm]. destruct (compile_rules_ok object fields (ms_Rules spec)
        (mkCompileState (spec_issues quote scope_error_text (vm_Schema req) spec) ∅ ∅ []) (valid_targets _ Hm)) as [H1 H2].
      apply H1 in He as (_ & Hok & Hnd & _). split_and!; [done..|]. exists object, fields, required. split_and!; [done..|].
      intros path Hp. apply Hreq, H2 in Hp as [Hp|Hp]; [by apply elem_of_empty in Hp|done].
    + intros (Hs & Hm & object' & fields' & required' & [= <-] & Hi' & Hok & Hnd & Hreq). rewrite Hi in Hi'. injection Hi' as <- <-.
      destruct (compile_rules_ok object fields (ms_Rules spec)
        (mkCompileState (spec_issues quote scope_error_text (vm_Schema req) spec) ∅ ∅ []) (valid_targets _ Hm)) as [H1 H2].
      split; [apply H1; split_and!; [by apply spec_issues_ok|done|done|by intros]|]. intros path Hp. apply H2. right. by apply Hreq.
  - intros H. injection H as <-. cbn [vr_Valid]. rewrite negb_true_iff, !errors_sort, errors_app, orb_false_iff.
    split; [by intros [_ ?]|]. by intros (_ & _ & object & ? & ? & ? & _).
Qed.

(** C12: the validation of a mapping specification answers valid exactly for the specifications that are in order: valid schema and
    specification, known source object, rules over existing fields with supported and well-typed transforms, no two rules for one target, and
    every required field mapped.  A difference of schema versions is only a warning. *)
Theorem mapping_validation_exact req r :
  ValidateMappingSpec quote scope_error_text json_compiled sha256_hex req = Ok r →
  (vr_Valid r = true ↔ mapping_ok (vm_Schema req) (normalizeMappingSpec (vm_Spec req))).
Proof. apply validate_exact. Qed.
End validity.

(** ** The order of the rules *)

Section order.
Variable quote : string → string.
Variable scope_error_text : domain_error → string.
Variable json_compiled : CompiledMappingSpec → outcome string string.
Variable sha256_hex : string → string.

Definition with_rules (s : MappingSpec) (rules : list MappingRule) : MappingSpec :=
  mkMappingSpec (ms_ID s) (ms_SpecID s) (ms_ProviderID s) (ms_Scope s) (ms_Name s) (ms_Description s) (ms_SourceObject s) (ms_TargetModel s)
    (ms_SchemaRef s) (ms_Version s) (ms_Status s) rules (ms_Metadata s) (ms_CreatedAt s) (ms_UpdatedAt s) (ms_PublishedAt s).

Definition compiled_rule (fields : gmap string ExternalField) (rule : MappingRule) : CompiledMappingRule :=
  let rule := normalizeMappingRule rule in
  mkCompiledRule rule (canonicalFieldType (from_option ef_Type "" (fields !! normalizePath (mr_SourcePath rule)))) (resolveTargetType rule)
    (normalizeTransform (mr_Transform rule)).

Lemma cs_rules_spec object fields rules st :
  cs_rules (foldl (compile_rule quote object fields) st rules) = cs_rules st ++ (compiled_rule fields <$> rules).
Proof.
  revert st. induction rules as [|r rules IH]; intros st; cbn [foldl fmap list_fmap]; [by rewrite app_nil_r|]. rewrite IH. unfold compile_rule.
  cbn [cs_rules]. by rewrite <-app_assoc.
Qed.

(** The result of a validation, once the source object is found. *)
Lemma validated_object (MR : MapRange) req object fields required :
  let n := normalizeMappingSpec (vm_Spec req) in
  findExternalObject (vm_Schema req) (ms_SourceObject n) = Some object → buildSourceFieldIndexes object = (fields, required) →
  ∃ issues, ValidateMappingSpec quote scope_error_text json_compiled sha256_hex req =
    let rules := stable_sort compiled_less (compiled_rule fields <$> ms_Rules n) in
    match mappingCompiledHash json_compiled sha256_hex (mkCompiledSpec (ms_SpecID n) (ms_Version n) (ms_SourceObject n) rules "") with
    | Fail e => Fail e
    | Ok hash => Ok (mkValidateResult (negb (containsMappingErrors issues)) issues n
                   (mkCompiledSpec (ms_SpecID n) (ms_Version n) (ms_SourceObject n) rules hash))
    end.
Proof.
  intros n Ho Hi. unfold ValidateMappingSpec, CompileMappingSpec. fold n. rewrite Ho, Hi. cbv zeta. rewrite cs_rules_spec. cbn [cs_rules app].
  destruct (mappingCompiledHash _ _ _); [eexists; reflexivity|by exists []].
Qed.

Lemma compiled_less_keys a b : compiled_less a b =
  lex_keys [mr_TargetPath (cr_Rule a); mr_SourcePath (cr_Rule a); mr_ID (cr_Rule a)] [mr_TargetPath (cr_Rule b); mr_SourcePath (cr_Rule b); mr_ID (cr_Rule b)].
Proof. done. Qed.

Lemma compiled_sort_perm fields rules1 rules2 : rules1 ≡ₚ rules2 → NoDup ((λ r, normalizePath (mr_TargetPath r)) <$> rules1) →
  stable_sort compiled_less (compiled_rule fields <$> rules1) = stable_sort compiled_less (compiled_rule fields <$> rules2).
Proof.
  intros Hp Hnd. apply stable_sort_permutation.
  - by apply fmap_Permutation.
  - intros a b c. rewrite !compiled_less_keys. by apply lex_keys_trans.
  - intros a b. rewrite !compiled_less_keys. apply lex_keys_asym.
  - intros i j x y Hi Hj Hij. apply list_lookup_fmap_Some in Hi as (r & -> & Hr). apply list_lookup_fmap_Some in Hj as (r' & -> & Hr').
    assert (Hne : normalizePath (mr_TargetPath r) ≠ normalizePath (mr_TargetPath r')).
    { intros Heq. apply Hij. eapply NoDup_lookup; [exact Hnd|..]; rewrite list_lookup_fmap; [by rewrite Hr|by rewrite Hr', Heq]. }
    rewrite !compiled_less_keys. unfold lex_keys. cbn [zip zip_with lex_less compiled_rule cr_Rule normalizeMappingRule mr_TargetPath].
    destruct (String.eqb_spec (normalizePath (mr_TargetPath r)) (normalizePath (mr_TargetPath r'))); [done|].
    destruct (String.eqb_spec (normalizePath (mr_TargetPath r')) (normalizePath (mr_TargetPath r))); [done|]. by apply string_ltb_total.
Qed.

Lemma rules_check_Ok z rules : rules_check z rules = Ok tt ↔ Forall (λ r, MappingRule_Validate r = Ok tt) rules.
Proof.
  revert z. induction rules as [|r rules IH]; intros z; cbn [rules_check]; [by split; [constructor|]|]. rewrite Forall_cons.
  destruct (MappingRule_Validate r) as [[]|]; [|by split; [|intros [? _]]]. rewrite IH. tauto.
Qed.

Lemma Validate_permuted spec rules : ms_Rules spec ≡ₚ rules → MappingSpec_Validate quote scope_error_text spec = Ok tt →
  MappingSpec_Validate quote scope_error_text (with_rules spec rules) = Ok tt.
Proof.
  intros Hp. unfold MappingSpec_Validate. cbn [with_rules ms_SpecID ms_ProviderID ms_Scope ms_Name ms_SourceObject ms_TargetModel ms_Version ms_Status ms_Rules].
  destruct (checks _); [|done]. rewrite !rules_check_Ok. by rewrite Hp.
Qed.

Lemma mapping_ok_permuted schema spec rules : ms_Rules spec ≡ₚ rules →
  mapping_ok quote scope_error_text schema spec → mapping_ok quote scope_error_text schema (with_rules spec rules).
Proof.
  intros Hp (Hs & Hm & object & fields & required & Ho & Hi & Hok & Hnd & Hreq).
  split_and!; [done|by apply Validate_permuted|]. exists object, fields, required. cbn [with_rules ms_SourceObject ms_Rules].
  split_and!; [done|done|by rewrite <-Hp|by rewrite <-Hp|]. intros path Hpath. destruct (Hreq path Hpath) as (r & f & Hr & H).
  exists r, f. by rewrite <-Hp.
Qed.

(** The result of a compilation does not depend on the order in which the rules of a valid specification are listed, nor on the order in
    which maps are visited: the permuted specification is valid too, and compiles to the same rules with the same deterministic hash. *)
Theorem compilation_order_independent (MR1 MR2 : MapRange) schema spec rules r :
  ms_Rules spec ≡ₚ rules →
  ValidateMappingSpec (MR := MR1) quote scope_error_text json_compiled sha256_hex (mkValidateMapping spec schema) = Ok r → vr_Valid r = true →
  ∃ r', ValidateMappingSpec (MR := MR2) quote scope_error_text json_compiled sha256_hex (mkValidateMapping (with_rules spec rules) schema) = Ok r' ∧
    vr_Valid r' = true ∧ vr_Compiled r' = vr_Compiled r.
Proof.
  intros Hp Hv Hvalid. pose proof (proj1 (validate_exact (MR := MR1) _ _ _ _ _ _ Hv) Hvalid) as Hok. cbn [vm_Schema vm_Spec] in Hok.
  set (n := normalizeMappingSpec spec) in *. assert (Hn : ms_Rules n ≡ₚ normalizeRule <$> rules) by (cbn; by apply fmap_Permutation).
  pose proof (mapping_ok_permuted _ _ _ Hn Hok) as Hok'. destruct Hok as (_ & _ & object & fields & required & Ho & Hi & _ & Hnd & _).
  destruct (validated_object MR1 (mkValidateMapping spec schema) object fields required Ho Hi) as [issues1 H1].
  destruct (validated_object MR2 (mkValidateMapping (with_rules spec rules) schema) object fields required Ho Hi) as [issues2 H2].
  rewrite H1 in Hv. cbn [vm_Spec] in Hv, H2. fold n in Hv.
  change (normalizeMappingSpec (with_rules spec rules)) with (with_rules n (normalizeRule <$> rules)) in H2.
  cbn [with_rules ms_SourceObject ms_SpecID ms_Version ms_Rules] in H2. rewrite <-(compiled_sort_perm fields _ _ Hn Hnd) in H2.
  destruct (mappingCompiledHash _ _ _); [|done]. injection Hv as <-. eexists. split; [exact H2|]. split; [|done].
  by apply (validate_exact (MR := MR2) _ _ _ _ _ _ H2).
Qed.
End order.

Definition demo_field (path type : string) (required : bool) : ExternalField := mkExternalField path type required false "" ∅ ∅.
Definition demo_schema : ExternalSchema :=
  mkExternalSchema "" "acme" (mkScopeRef "org" "o1") "crm" "2" [mkExternalObject "contact" [] [demo_field "email" "text" true; demo_field "age" "int" false] ∅]
    ∅ 0 0.
Definition demo_mapping (rules : list MappingRule) : MappingSpec := with_version (spec_with (demo_spec rules) MappingSpecStatusDraft None) 1.
Definition age_rule : MappingRule := mkRule "r2" " age" "profile.age" "To_String" false VNil {[ "type" := VString "string" ]} ∅.
Abbreviation demo_validate MR := (ValidateMappingSpec (MR := MR) (λ s, s) (λ _, "invalid scope") (λ c, Ok (Itoa (Z.of_nat (length (cm_Rules c))))) (λ s, s)).

(** With the required field mapped, and without. *)
Lemma mapping_validation_exact_witness :
  (∃ r, demo_validate key_order_range (mkValidateMapping (demo_mapping [demo_rule; age_rule]) demo_schema) = Ok r ∧
    mapping_ok (λ s, s) (λ _, "invalid scope") demo_schema (normalizeMappingSpec (demo_mapping [demo_rule; age_rule]))) ∧
  (∃ r, demo_validate key_order_range (mkValidateMapping (demo_mapping [age_rule]) demo_schema) = Ok r ∧
    ¬ mapping_ok (λ s, s) (λ _, "invalid scope") demo_schema (normalizeMappingSpec (demo_mapping [age_rule]))).
Proof.
  split.
  - destruct (demo_validate key_order_range (mkValidateMapping (demo_mapping [demo_rule; age_rule]) demo_schema)) as [r|e] eqn:Hr;
      [|vm_compute in Hr; discriminate]. exists r. split; [done|].
    apply (proj1 (mapping_validation_exact (MR := key_order_range) (λ s, s) (λ _, "invalid scope")
      (λ c, Ok (Itoa (Z.of_nat (length (cm_Rules c))))) (λ s, s) (mkValidateMapping (demo_mapping [demo_rule; age_rule]) demo_schema) r Hr)).
    revert Hr. vm_compute. intros H. injection H as <-. reflexivity.
  - destruct (demo_validate key_order_range (mkValidateMapping (demo_mapping [age_rule]) demo_schema)) as [r|e] eqn:Hr;
      [|vm_compute in Hr; discriminate]. exists r. split; [done|]. intros H.
    apply (proj2 (mapping_validation_exact (MR := key_order_range) (λ s, s) (λ _, "invalid scope")
      (λ c, Ok (Itoa (Z.of_nat (length (cm_Rules c))))) (λ s, s) (mkValidateMapping (demo_mapping [age_rule]) demo_schema) r Hr)) in H.
    revert Hr H. vm_compute. intros Hr. injection Hr as <-. discriminate.
Defined.

Lemma compilation_order_independent_witness :
  ∃ r r', demo_validate key_order_range (mkValidateMapping (demo_mapping [demo_rule; age_rule]) demo_schema) = Ok r ∧
    demo_validate key_order_range (mkValidateMapping (with_rules (demo_mapping [demo_rule; age_rule]) [age_rule; demo_rule]) demo_schema) = Ok r' ∧
    vr_Compiled r' = vr_Compiled r.
Proof.
  destruct (demo_validate key_order_range (mkValidateMapping (demo_mapping [demo_rule; age_rule]) demo_schema)) as [r|e] eqn:Hr; [|vm_compute in Hr; discriminate].
  destruct (compilation_order_independent (λ s, s) (λ _, "invalid scope") (λ c, Ok (Itoa (Z.of_nat (length (cm_Rules c))))) (λ s, s) key_order_range
    key_order_range demo_schema (demo_mapping [demo_rule; age_rule]) [age_rule; demo_rule] r) as (r' & H1 & _ & H2);
    [apply Permutation_swap|exact Hr| |by exists r, r'].
  revert Hr. vm_compute. intros H. injection H as <-. reflexivity.
Defined.
