(* ===== verification/MappingPreview.v ===== *)
(** * The preview of mapping specifications (src/core/mapping_previewer.go)

    The compiled rules are applied to samples.  A sample is a [map[string]any] whose nested maps are shared, not copied: an identity rule puts
    a map of the sample into the output, and [setPathValue] writes into the maps it finds on its way.  So maps live in a heap, and a value of
    type [map[string]any] is a location. *)

From S2P Require Import Prelude GoStrings GoValues Domain GoURL FormData MappingLifecycle MappingCompiler.
From Stdlib Require Import ZArith Ascii String Lia.
From stdpp Require Import base decidable list gmap strings.

Local Open Scope string_scope.
Local Open Scope nat_scope.
Local Open Scope list_scope.

(** ** Maps in a heap *)

Abbreviation loc := nat.
(** [HMap l] is the map at [l]; [HVal v] any other value.  Maps inside slices are never written, and stay values. *)
Inductive hval := HVal (v : value) | HMap (l : loc).
Abbreviation heap := (gmap loc (gmap string hval)).

Definition alloc (h : heap) : loc := fresh (dom h).
Definition cell (h : heap) (l : loc) : gmap string hval := default ∅ (h !! l).
Definition write (h : heap) (l : loc) (key : string) (v : hval) : heap := <[l := <[key := v]> (cell h l)]> h.

(** What a value looks like as a tree.  In a heap without cycles the depth is at most the number of maps. *)
Fixpoint deref_at (fuel : nat) (h : heap) (v : hval) : value :=
  match v with
  | HVal v => v
  | HMap l => match fuel with 0 => VMap ∅ | S fuel => VMap (deref_at fuel h <$> cell h l) end
  end.
Definition deref (h : heap) (v : hval) : value := deref_at (size h) h v.

(** [reflect.DeepEqual] on trees; [other_equal] compares values known only by their text. *)
Section deep_equal.
Variable other_equal : string → string → bool.
Fixpoint DeepEqual (v : value) : value → bool :=
  match v with
  | VNil => λ w, match w with VNil => true | _ => false end
  | VBool b => λ w, match w with VBool b' => Bool.eqb b b' | _ => false end
  | VInt k z => λ w, match w with VInt k' z' => String.eqb (type_name id (VInt k 0)) (type_name id (VInt k' 0)) && (z =? z')%Z | _ => false end
  | VFloat64 m e _ => λ w, match w with VFloat64 m' e' _ => let c := Z.min e e' in (Z.shiftl m (e - c) =? Z.shiftl m' (e' - c))%Z | _ => false end
  | VString s => λ w, match w with VString s' => String.eqb s s' | _ => false end
  | VStrings l => λ w, match w with VStrings l' => bool_decide (l = l') | _ => false end
  | VList l => let eqs := DeepEqual <$> l in
      λ w, match w with VList l' => (length eqs =? length l')%nat && forallb (λ p, p.1 p.2) (zip eqs l') | _ => false end
  | VMap m => let eqs := DeepEqual <$> m in
      λ w, match w with
           | VMap m' => bool_decide (dom eqs = dom m') && forallb (λ p, match m' !! p.1 with Some x => p.2 x | None => false end) (map_to_list eqs)
           | _ => false end
  | VOther t => λ w, match w with VOther t' => other_equal t t' | _ => false end
  end.
End deep_equal.

(** ** Paths *)

Definition path_parts (path : string) : list string := TrimSpace <$> SplitChar "." (normalizePath path).

Fixpoint lookup_parts (h : heap) (current : hval) (parts : list string) : option hval :=
  match parts with
  | [] => Some current
  | part :: parts =>
    if String.eqb part "" then None
    else match current with
         | HMap l => match cell h l !! part with Some next => lookup_parts h next parts | None => None end
         | HVal _ => None
         end
  end.
(** A nil root is [None]. *)
Definition lookupPathValue (h : heap) (root : option loc) (path : string) : option hval :=
  match root with None => None | Some l => lookup_parts h (HMap l) (path_parts path) end.

Fixpoint set_parts (h : heap) (current : loc) (parts : list string) (v : hval) : heap :=
  match parts with
  | [] => h
  | part :: rest =>
    if String.eqb part "" then h
    else match rest with
         | [] => write h current part v
         | _ :: _ =>
           match cell h current !! part with
           | Some (HMap child) => set_parts h child rest v
           | _ => let child := alloc h in set_parts (<[child := ∅]> (write h current part (HMap child))) child rest v
           end
         end
  end.
Definition setPathValue (h : heap) (root : loc) (path : string) (v : hval) : heap := set_parts h root (path_parts path) v.

(** ** The preview *)

Record PreviewFieldDiff := mkDiff {
  pd_RuleID : string; pd_SourcePath : string; pd_TargetPath : string; pd_InputValue : hval; pd_OutputValue : hval; pd_Changed : bool }.
Record PreviewRecord := mkPreviewRecord {
  pv_Input : option loc; pv_Output : loc; pv_Diff : list PreviewFieldDiff; pv_Issues : list MappingValidationIssue }.
Record PreviewReport := mkReport { rp_SampleCount : Z; rp_IssueCount : Z; rp_AppliedRuleCount : Z }.
Record PreviewMappingSpecRequest := mkPreviewRequest { pq_Spec : MappingSpec; pq_Schema : ExternalSchema; pq_Samples : list (option loc) }.
Record PreviewMappingSpecResult := mkPreviewResult {
  ps_Issues : list MappingValidationIssue; ps_Records : list PreviewRecord; ps_Report : PreviewReport; ps_DeterministicHash : string;
  ps_GeneratedAt : Time }.

Section preview.
Variable quote : string → string.
(** The transforms ([applyMappingTransform] with its parameters), [reflect.DeepEqual] on other values, and the hash of the records. *)
Variable transform : string → value → outcome string value.
Variable other_equal : string → string → bool.
Variable preview_hash : heap → list MappingValidationIssue → list PreviewRecord → string → PreviewReport → outcome string string.
(** [MappingSpecValidator.ValidateMappingSpec] *)
Variable validate : ValidateMappingSpecRequest → outcome string ValidateMappingSpecResult.

(** The identity transform returns the very value it is given, a map included. *)
Definition transform_heap (h : heap) (name : string) (v : hval) : outcome string hval :=
  match v with
  | HMap _ => if String.eqb (normalizeTransform name) "identity" then Ok v else obind (transform name (deref h v)) (λ v, Ok (HVal v))
  | HVal w => obind (transform name w) (λ v, Ok (HVal v))
  end.

(** What one sample has produced so far. *)
Record SampleState := mkSample {
  sa_heap : heap; sa_diffs : list PreviewFieldDiff; sa_issues : list MappingValidationIssue; sa_applied : Z }.

Definition apply_rule (sample : option loc) (output : loc) (st : SampleState) (c : CompiledMappingRule) : SampleState :=
  let rule := cr_Rule c in
  let issue code message severity := mappingIssue code message (mr_ID rule) (mr_SourcePath rule) (mr_TargetPath rule) severity in
  let h := sa_heap st in
  match lookupPathValue h sample (mr_SourcePath rule) with
  | None =>
    mkSample h (sa_diffs st) (sa_issues st ++ [issue "preview_source_missing" ("core: source value for path " +:+ quote (mr_SourcePath rule)
      +:+ " was not found in sample") MappingValidationIssueWarning]) (sa_applied st)
  | Some sourceValue =>
    match transform_heap h (cr_Transform c) sourceValue with
    | Fail e =>
      mkSample h (sa_diffs st) (sa_issues st ++ [issue "preview_transform_failed" ("core: transform " +:+ quote (cr_Transform c) +:+ " failed: " +:+ e)
        MappingValidationIssueError]) (sa_applied st)
    | Ok transformed =>
      let h' := setPathValue h output (mr_TargetPath rule) transformed in
      mkSample h' (sa_diffs st ++ [mkDiff (mr_ID rule) (mr_SourcePath rule) (mr_TargetPath rule) sourceValue transformed
          (negb (DeepEqual other_equal (deref h' sourceValue) (deref h' transformed))
           || negb (String.eqb (normalizePath (mr_SourcePath rule)) (normalizePath (mr_TargetPath rule))))])
        (sa_issues st) (sa_applied st + 1)
    end
  end.

Definition diff_less (left right : PreviewFieldDiff) : bool :=
  lex_less [(pd_TargetPath left, pd_TargetPath right); (pd_SourcePath left, pd_SourcePath right); (pd_RuleID left, pd_RuleID right)].

Definition preview_sample (rules : list CompiledMappingRule) (h : heap) (sample : option loc) : SampleState * PreviewRecord :=
  let output := alloc h in
  let st := foldl (apply_rule sample output) (mkSample (<[output := ∅]> h) [] [] 0) rules in
  (st, mkPreviewRecord sample output (stable_sort diff_less (sa_diffs st)) (sortMappingValidationIssues (sa_issues st))).

(** The samples one after the other, in the same heap: the heap, the records, the issues and the rules applied. *)
Definition preview_samples (rules : list CompiledMappingRule) (h : heap) (samples : list (option loc)) : heap * list PreviewRecord * Z * Z :=
  foldl (λ acc sample, let '(h, records, issues, applied) := acc in
    let (st, record) := preview_sample rules h sample in
    (sa_heap st, records ++ [record], issues + Z.of_nat (length (pv_Issues record)), applied + sa_applied st)%Z) (h, [], 0, 0)%Z samples.

Definition PreviewMappingSpec (now : Time) (h : heap) (req : PreviewMappingSpecRequest) : outcome string PreviewMappingSpecResult * heap :=
  match validate (mkValidateMapping (pq_Spec req) (pq_Schema req)) with
  | Fail e => (Fail e, h)
  | Ok result =>
    let '(h', records, issues, applied) := preview_samples (cm_Rules (vr_Compiled result)) h (pq_Samples req) in
    let report := mkReport (Z.of_nat (length (pq_Samples req))) (Z.of_nat (length (vr_Issues result)) + issues) applied in
    match preview_hash h' (vr_Issues result) records (cm_DeterministicHash (vr_Compiled result)) report with
    | Fail e => (Fail ("core: marshal preview payload: " +:+ e), h')
    | Ok hash => (Ok (mkPreviewResult (vr_Issues result) records report hash now), h')
    end
  end.
End preview.

(** ** What a preview does to the samples *)

Section effects.
Variable quote : string → string.
Variable transform : string → value → outcome string value.
Variable other_equal : string → string → bool.
Abbreviation apply_rule := (apply_rule quote transform other_equal).

(** The maps of [h0] are as they were, and nothing outside of it points into it. *)
Definition apart (h0 h : heap) : Prop :=
  (∀ l, l ∈ dom h0 → h !! l = h0 !! l) ∧ (∀ l k l', l ∉ dom h0 → cell h l !! k = Some (HMap l') → l' ∉ dom h0).
(** A heap in which every map that is pointed to exists. *)
Definition closed (h : heap) : Prop := ∀ l k l', cell h l !! k = Some (HMap l') → l' ∈ dom h.

Lemma cell_insert h l m : cell (<[l := m]> h) l = m.
Proof. unfold cell. by rewrite lookup_insert_eq. Qed.
Lemma cell_insert_ne h l l' m : l ≠ l' → cell (<[l := m]> h) l' = cell h l'.
Proof. intros H. unfold cell. by rewrite lookup_insert_ne. Qed.

Lemma apart_insert h0 h l m : apart h0 h → l ∉ dom h0 → (∀ k l', m !! k = Some (HMap l') → l' ∉ dom h0) → apart h0 (<[l := m]> h).
Proof.
  intros [H1 H2] Hl Hm. split.
  - intros l' Hl'. rewrite lookup_insert_ne by (intros ->; done). by apply H1.
  - intros l' k l'' Hl'. destruct (decide (l = l')) as [<-|Hne]; [rewrite cell_insert; apply Hm|]. rewrite cell_insert_ne by done. by apply H2.
Qed.
Lemma apart_write h0 h l k v : apart h0 h → l ∉ dom h0 → (∀ l', v = HMap l' → l' ∉ dom h0) → apart h0 (write h l k v).
Proof.
  intros Ha Hl Hv. apply apart_insert; [done|done|]. intros k' l'. rewrite lookup_insert_Some. intros [[_ ->]|[_ Hk]]; [by apply Hv|].
  by eapply (proj2 Ha).
Qed.
Lemma alloc_apart h0 h : apart h0 h → alloc h ∉ dom h0.
Proof.
  intros [H1 _] Hin. apply (is_fresh (dom h)). unfold alloc in Hin. apply elem_of_dom. rewrite H1 by done. by apply elem_of_dom.
Qed.

Lemma set_parts_apart h0 h current parts v : apart h0 h → current ∉ dom h0 → (∀ l', v = HMap l' → l' ∉ dom h0) → apart h0 (set_parts h current parts v).
Proof.
  revert h current. induction parts as [|part rest IH]; intros h current Ha Hc Hv; [done|]. cbn [set_parts]. destruct (String.eqb part ""); [done|].
  destruct rest as [|part' rest]; [by apply apart_write|]. cbv zeta.
  assert (Hnew : apart h0 (set_parts (<[alloc h := ∅]> (write h current part (HMap (alloc h)))) (alloc h) (part' :: rest) v)).
  { pose proof (alloc_apart _ _ Ha) as Hf. apply IH; [|done|done]. apply apart_insert; [|done|by intros k l'; rewrite lookup_empty].
    apply apart_write; [done|done|]. by intros ? [= <-]. }
  destruct (cell h current !! part) as [[w|child]|] eqn:Hk; [done| |done]. apply IH; [done| |done]. by eapply (proj2 Ha).
Qed.

Lemma lookup_parts_apart h0 h v parts : closed h0 → apart h0 h → (∀ l, v = HMap l → l ∈ dom h0) →
  lookup_parts h v parts = lookup_parts h0 v parts.
Proof.
  intros Hcl [Ha _]. revert v. induction parts as [|part parts IH]; intros v Hv; [done|]. cbn [lookup_parts]. destruct (String.eqb part ""); [done|].
  destruct v as [w|l]; [done|]. assert (cell h l = cell h0 l) as -> by (unfold cell; by rewrite Ha by auto).
  destruct (cell h0 l !! part) as [next|] eqn:Hn; [|done]. apply IH. intros l' ->. by eapply Hcl.
Qed.

(** A rule copies a map of the sample into the output. *)
Definition copies_map (h : heap) (sample : option loc) (c : CompiledMappingRule) : Prop :=
  normalizeTransform (cr_Transform c) = "identity" ∧ ∃ l, lookupPathValue h sample (mr_SourcePath (cr_Rule c)) = Some (HMap l).

Lemma apply_rule_apart h0 sample output st c :
  closed h0 → (∀ l, sample = Some l → l ∈ dom h0) → output ∉ dom h0 → ¬ copies_map h0 sample c →
  apart h0 (sa_heap st) → apart h0 (sa_heap (apply_rule sample output st c)).
Proof.
  intros Hcl Hs Hout Hno Ha. unfold MappingPreview.apply_rule. destruct (lookupPathValue (sa_heap st) sample _) as [v|] eqn:Hl; [|done].
  destruct (transform_heap _ _ _ _) as [t|e] eqn:Ht; [|done]. cbn [sa_heap]. apply set_parts_apart; [done|done|]. intros l' ->.
  destruct Hno. unfold transform_heap in Ht. destruct v as [w|l]; [by destruct (transform _ w)|].
  destruct (String.eqb_spec (normalizeTransform (cr_Transform c)) "identity") as [Hid|_]; [|by destruct (transform _ _)]. split; [done|].
  exists l. rewrite <-Hl. destruct sample as [ls|]; [|done]. symmetry. unfold lookupPathValue. apply lookup_parts_apart; [done|done|].
  intros ? [= <-]. by apply Hs.
Qed.

(** Every rule leaves a difference or an issue. *)
Lemma apply_rule_counts sample output st c :
  let st' := apply_rule sample output st c in
  (sa_applied st' = sa_applied st + Z.of_nat (length (sa_diffs st')) - Z.of_nat (length (sa_diffs st)))%Z ∧
  length (sa_diffs st') + length (sa_issues st') = S (length (sa_diffs st) + length (sa_issues st)).
Proof.
  unfold MappingPreview.apply_rule. destruct (lookupPathValue _ _ _) as [v|]; [destruct (transform_heap _ _ _ _)|]; cbn; rewrite length_app; cbn; lia.
Qed.

Lemma rules_counts sample output rules st :
  let st' := foldl (apply_rule sample output) st rules in
  (sa_applied st' = sa_applied st + Z.of_nat (length (sa_diffs st')) - Z.of_nat (length (sa_diffs st)))%Z ∧
  length (sa_diffs st') + length (sa_issues st') = length rules + (length (sa_diffs st) + length (sa_issues st)).
Proof.
  cbv zeta. induction rules as [|c rules IH] using rev_ind; [cbn; lia|]. rewrite foldl_app. cbn [foldl].
  set (st1 := foldl _ st rules) in *. destruct (apply_rule_counts sample output st1 c) as [H4 H5]. rewrite length_app. cbn [length]. lia.
Qed.

Lemma rules_apart h0 sample output rules st :
  closed h0 → (∀ l, sample = Some l → l ∈ dom h0) → output ∉ dom h0 → (∀ c, c ∈ rules → ¬ copies_map h0 sample c) →
  apart h0 (sa_heap st) → apart h0 (sa_heap (foldl (apply_rule sample output) st rules)).
Proof.
  intros Hcl Hs Hout Hno Ha. induction rules as [|c rules IH] using rev_ind; [done|]. rewrite foldl_app. cbn [foldl].
  apply apply_rule_apart; [done|done|done|apply Hno; set_solver|]. apply IH. intros. apply Hno. set_solver.
Qed.

Abbreviation samples_of := (preview_samples quote transform other_equal).

Lemma preview_samples_app rules h samples sample :
  samples_of rules h (samples ++ [sample]) =
  let '(h1, records, issues, applied) := samples_of rules h samples in
  let (st, record) := preview_sample quote transform other_equal rules h1 sample in
  (sa_heap st, records ++ [record], issues + Z.of_nat (length (pv_Issues record)), applied + sa_applied st)%Z.
Proof. unfold preview_samples. by rewrite foldl_app. Qed.

(** A preview accounts for every rule on every sample: each record has one difference or one issue per rule, and the report counts them; and
    as long as no identity rule copies a map of a sample into the output, every map the samples consist of is left as it was. *)
Theorem preview_effects rules h samples h' records issues applied :
  samples_of rules h samples = (h', records, issues, applied) →
  (pv_Input <$> records = samples ∧ (issues + applied = Z.of_nat (length samples) * Z.of_nat (length rules))%Z ∧
   Forall (λ r, length (pv_Diff r) + length (pv_Issues r) = length rules) records) ∧
  (closed h → (∀ l, Some l ∈ samples → l ∈ dom h) → (∀ c sample, c ∈ rules → sample ∈ samples → ¬ copies_map h sample c) →
   ∀ l, l ∈ dom h → h' !! l = h !! l).
Proof.
  intros Hrun. enough ((pv_Input <$> records = samples ∧ (issues + applied = Z.of_nat (length samples) * Z.of_nat (length rules))%Z ∧
    Forall (λ r, length (pv_Diff r) + length (pv_Issues r) = length rules) records) ∧
    (closed h → (∀ l, Some l ∈ samples → l ∈ dom h) → (∀ c sample, c ∈ rules → sample ∈ samples → ¬ copies_map h sample c) → apart h h'))
    as [H1 H2] by (split; [done|]; intros; by apply H2).
  revert h' records issues applied Hrun. induction samples as [|sample samples IH] using rev_ind; intros h' records issues applied.
  - intros [= <- <- <- <-]. split; [by split_and!|]. intros Hcl _ _. split; [done|]. intros l k l' Hl. unfold cell.
    apply not_elem_of_dom in Hl. by rewrite Hl.
  - rewrite preview_samples_app. destruct (samples_of rules h samples) as [[[h1 records1] issues1] applied1]. cbv zeta. unfold preview_sample.
    set (st := foldl _ _ rules). intros [= <- <- <- <-]. destruct (IH _ _ _ _ eq_refl) as [(Hin & Hsum & Hall) Hap].
    destruct (rules_counts sample (alloc h1) rules (mkSample (<[alloc h1 := ∅]> h1) [] [] 0)) as [Hc1 Hc2]. fold st in Hc1, Hc2.
    cbn [sa_applied sa_diffs sa_issues length] in Hc1, Hc2.
    assert (Hli : length (sortMappingValidationIssues (sa_issues st)) = length (sa_issues st)) by apply Permutation_length, stable_sort_perm.
    assert (Hld : length (stable_sort diff_less (sa_diffs st)) = length (sa_diffs st)) by apply Permutation_length, stable_sort_perm.
    cbn [pv_Issues]. split; [split_and!|].
    + rewrite fmap_app, Hin. done.
    + rewrite length_app, Hli. cbn [length]. lia.
    + apply Forall_app. split; [done|]. constructor; [|constructor]. cbn [pv_Diff pv_Issues]. lia.
    + intros Hcl Hdom Hno. assert (Ha : apart h h1) by (apply Hap; [done|..]; intros; [apply Hdom|apply Hno]; set_solver).
      apply rules_apart; [done|intros l ->; apply Hdom; set_solver|by apply alloc_apart|intros; apply Hno; set_solver|].
      apply apart_insert; [done|by apply alloc_apart|by intros k l'; rewrite lookup_empty].
Qed.
End effects.

(** The sample [{"a": {"x": "1"}, "b": "2"}]. *)
Definition demo_sample : heap := {[ 0 := {[ "a" := HMap 1; "b" := HVal (VString "2") ]}; 1 := {[ "x" := HVal (VString "1") ]} ]}.
Definition identity_rule (source target : string) : CompiledMappingRule := mkCompiledRule (mkRule "" source target "identity" false VNil ∅ ∅) "" "" "identity".
Abbreviation demo_preview rules := (preview_samples (λ s, s) (λ _ v, Ok v) (λ _ _, true) rules demo_sample [Some 0]).

Lemma demo_sample_closed : closed demo_sample.
Proof.
  intros l k l'. unfold cell, demo_sample. destruct (decide (l = 0)) as [->|H0]; [|destruct (decide (l = 1)) as [->|H1]].
  - rewrite lookup_insert_eq. unfold default, id. rewrite lookup_insert_Some, lookup_singleton_Some. intros [[_ [= <-]]|[_ [_ [=]]]].
    apply elem_of_dom. by eexists.
  - rewrite lookup_insert_ne, lookup_singleton_eq by done. unfold default, id. rewrite lookup_singleton_Some. by intros [_ [=]].
  - by rewrite lookup_insert_ne, lookup_singleton_ne by done.
Qed.

Lemma preview_effects_witness :
  let '(h', records, issues, applied) := demo_preview [identity_rule "a.x" "c.d"; identity_rule "z" "e"] in
  (issues + applied = 2)%Z ∧ h' !! 0 = demo_sample !! 0.
Proof.
  destruct (demo_preview [identity_rule "a.x" "c.d"; identity_rule "z" "e"]) as [[[h' records] issues] applied] eqn:Hrun.
  destruct (preview_effects (λ s, s) (λ _ v, Ok v) (λ _ _, true) _ _ _ _ _ _ _ Hrun) as [(_ & Hsum & _) Hsame].
  split; [exact Hsum|]. apply Hsame.
  - apply demo_sample_closed.
  - intros l Hl. apply list_elem_of_singleton in Hl. injection Hl as ->. apply elem_of_dom. by eexists.
  - intros c sample Hc Hs (_ & l & Hl). apply list_elem_of_singleton in Hs. subst sample.
    rewrite !elem_of_cons, elem_of_nil in Hc. destruct Hc as [->|[->|[]]]; vm_compute in Hl; discriminate.
  - apply elem_of_dom. by eexists.
Defined.

(** The nested map of the sample is put into the output by the first rule and written by the second: the caller's sample is changed, and the
    second preview of the same sample shows a different input. *)
Example preview_changes_sample :
  let '(h', _, _, _) := demo_preview [identity_rule "a" "out"; identity_rule "b" "out.extra"] in
  demo_sample !! 1 = Some {[ "x" := HVal (VString "1") ]} ∧
  h' !! 1 = Some {[ "x" := HVal (VString "1"); "extra" := HVal (VString "2") ]}.
Proof. vm_compute. split; reflexivity. Qed.
