(* ===== verification/SyncRuns.v ===== *)
(** * Sync runs and conflicts (src/core/sync_planner_service.go, sync_execution_service.go, sync_conflict_service.go)

    A run is planned from the last checkpoint of a binding and executed change by change: each change is appended to the change log under its
    idempotency key, then the checkpoint is saved.  Conflicts are recorded and settled.  The stores are interfaces: a class for their operations,
    and one for the laws that the services rely on. *)

From S2P Require Import Prelude GoStrings GoValues Domain FormData GoHTTP.
From Stdlib Require Import ZArith String Lia.
From stdpp Require Import base decidable list gmap strings.

Local Open Scope string_scope.
Local Open Scope nat_scope.
Local Open Scope list_scope.

(** ** Stores *)

Class SyncCheckpointStore (W : Type) := {
  cps_Save : W → SyncCheckpoint → outcome string SyncCheckpoint * W;
  cps_GetByID : W → string → ScopeRef → string → outcome string (option SyncCheckpoint);
  cps_GetLatest : W → string → ScopeRef → string → string → outcome string (option SyncCheckpoint) }.
(** [Append] tells whether the entry was new. *)
Class SyncChangeLogStore (L : Type) := cl_Append : L → SyncChangeLogEntry → outcome string bool * L.
Class SyncConflictStore (F : Type) := {
  cfs_Append : F → SyncConflict → outcome string SyncConflict * F;
  cfs_Get : F → string → ScopeRef → string → outcome string SyncConflict;
  cfs_Resolve : F → string → ScopeRef → string → SyncConflictResolution → Time → outcome string SyncConflict * F }.

Record SyncConflictPolicyHook := mkPolicyHook {
  ApplyRecordPolicy : SyncConflict → outcome string SyncConflict;
  ApplyResolutionPolicy : SyncConflict → SyncConflictResolution → outcome string SyncConflictResolution }.

(** ** Helpers *)

Section hashing.
(** [sha256.Sum256] in hexadecimal, and [Time.Format]. *)
Variable sha256_hex : string → string.
Variable time_Format : Time → string → string.

Definition BuildSyncIdempotencyKey (syncBindingID direction externalID sourceVersion : string) : string :=
  let sourceVersion := lowerTrim sourceVersion in
  let sourceVersion := if String.eqb sourceVersion "" then "_" else sourceVersion in
  sha256_hex (GoHTTP.Join "|" [lowerTrim syncBindingID; direction; lowerTrim externalID; sourceVersion]).

Definition buildSyncConflictAuditEventID (conflictID eventName : string) (occurredAt : Time) : string :=
  sha256_hex (GoHTTP.Join "|" [TrimSpace conflictID; TrimSpace eventName; time_Format occurredAt "2006-01-02T15:04:05.999999999Z07:00"]).
End hashing.

Definition normalizeSyncChange (c : SyncChange) : SyncChange :=
  mkChange (TrimSpace (ch_SourceObject c)) (TrimSpace (ch_ExternalID c)) (TrimSpace (ch_SourceVersion c)) (ch_Payload c) (ch_Metadata c).

Definition normalizeSyncBinding (b : SyncBinding) : SyncBinding :=
  mkSyncBinding (TrimSpace (sb_ID b)) (TrimSpace (sb_ProviderID b)) (normalScope (sb_Scope b)) (TrimSpace (sb_ConnectionID b))
    (TrimSpace (sb_MappingSpecID b)) (TrimSpace (sb_SourceObject b)) (TrimSpace (sb_TargetModel b)) (lowerTrim (sb_Direction b))
    (lowerTrim (sb_Status b)) (sb_Metadata b) (sb_CreatedAt b) (sb_UpdatedAt b).

Definition checkpointMatchesBinding (c : SyncCheckpoint) (b : SyncBinding) : bool :=
  sameProviderScope (cp_ProviderID c) (cp_Scope c) (sb_ProviderID b) (sb_Scope b)
  && String.eqb (TrimSpace (cp_ConnectionID c)) (TrimSpace (sb_ConnectionID b)).

(** ** The planner *)

Section planner.
Context {W : Type} {checkpoints : SyncCheckpointStore W}.
Variable quote : string → string.
Variable scope_error_text : domain_error → string.
Variable sha256_hex : string → string.
(** [json.Marshal] of the hashed part of a plan. *)
Variable json_plan : SyncRunPlan → outcome string string.

Definition resolvePlanCheckpoint (w : W) (req : PlanSyncRunRequest) (binding : SyncBinding) (direction : string)
    : outcome string (option SyncCheckpoint) :=
  let from := TrimSpace (pr_FromCheckpointID req) in
  if negb (String.eqb from "") then
    match cps_GetByID w (sb_ProviderID binding) (sb_Scope binding) from with
    | Fail e => Fail e
    | Ok None => Fail ("core: checkpoint " +:+ quote from +:+ " not found")
    | Ok (Some c) =>
      if negb (checkpointMatchesBinding c binding) then Fail "core: checkpoint scope/provider mismatch"
      else if negb (String.eqb (cp_SyncBindingID c) (sb_ID binding)) then Fail "core: checkpoint binding id does not match plan binding id"
      else if negb (String.eqb (cp_Direction c) direction) then Fail "core: checkpoint direction does not match plan direction"
      else Ok (Some c)
    end
  else
    match cps_GetLatest w (sb_ProviderID binding) (sb_Scope binding) (sb_ID binding) direction with
    | Fail e => Fail e
    | Ok None => Ok None
    | Ok (Some c) => if negb (checkpointMatchesBinding c binding) then Fail "core: checkpoint scope/provider mismatch" else Ok (Some c)
    end.

Definition initial_checkpoint (b : SyncBinding) : SyncCheckpoint :=
  mkCheckpoint "" (sb_ProviderID b) (sb_Scope b) (sb_ConnectionID b) (sb_ID b) (sb_Direction b) "" 0 "" "" ∅ None zeroTime zeroTime.

Definition buildSyncRunPlanHash (plan : SyncRunPlan) : outcome string string :=
  match json_plan plan with
  | Fail e => Fail ("core: marshal sync run plan payload: " +:+ e)
  | Ok payload => Ok (sha256_hex payload)
  end.

Definition plan_limit (limit : Z) : Z :=
  let limit := if (limit <=? 0)%Z then 100%Z else limit in if (1000 <? limit)%Z then 1000%Z else limit.

Definition PlanSyncRun (now : Time) (w : W) (req : PlanSyncRunRequest) : outcome string SyncRunPlan :=
  let binding := normalizeSyncBinding (pr_Binding req) in
  match SyncBinding_Validate quote scope_error_text binding with
  | Fail e => Fail e
  | Ok _ =>
    if negb (SyncRunMode_IsValid (pr_Mode req)) then Fail ("core: invalid sync run mode " +:+ quote (pr_Mode req))
    else
      let limit := plan_limit (pr_Limit req) in
      let direction := sb_Direction binding in
      match resolvePlanCheckpoint w req binding direction with
      | Fail e => Fail e
      | Ok found =>
        let checkpoint := default (initial_checkpoint binding) found in
        let metadata := <["planner.from_checkpoint_id" := VString (TrimSpace (pr_FromCheckpointID req))]>
                          (<["planner.limit" := VInt IntK limit]> (copyMetadata (pr_Metadata req))) in
        let seed := BuildSyncIdempotencyKey sha256_hex (sb_ID binding) direction (cp_Cursor checkpoint) (cp_SourceVersion checkpoint) in
        let plan := mkPlan "" (sb_ID binding) (pr_Mode req) checkpoint limit seed "" metadata now in
        match buildSyncRunPlanHash plan with
        | Fail e => Fail e
        | Ok hash => Ok (mkPlan ("plan_" +:+ String.substring 0 24 hash) (sb_ID binding) (pr_Mode req) checkpoint limit seed hash metadata now)
        end
      end
  end.
End planner.

(** ** The execution *)

Section execution.
Context {W L B : Type} {checkpoints : SyncCheckpointStore W} {changelog : SyncChangeLogStore L} {bus : LifecycleEventBus B}.
Variable quote : string → string.
Variable sha256_hex : string → string.
Variable time_Format : Time → string → string.

(** The checkpoint store, the change log, and the event bus if there is one. *)
Record RunStores := mkRunStores { rt_checkpoints : W; rt_log : L; rt_bus : option B }.
Definition with_run_bus (s : RunStores) (b : option B) : RunStores := mkRunStores (rt_checkpoints s) (rt_log s) b.

Definition run_event (now : Time) (runID : string) (c : SyncCheckpoint) (eventName : string) (payload : gmap string value) : LifecycleEvent :=
  mkLifecycleEvent (buildSyncConflictAuditEventID sha256_hex time_Format (runID +:+ "|" +:+ eventName +:+ "|" +:+ Itoa (cp_Sequence c)) eventName now)
    eventName (cp_ProviderID c) (scope_Type (cp_Scope c)) (scope_ID (cp_Scope c)) (cp_ConnectionID c) "services.sync.runs" now
    (mergeMetadata payload (list_to_map [("run_id", VString runID); ("sync_binding_id", VString (cp_SyncBindingID c));
       ("direction", VString (cp_Direction c)); ("sequence", VInt Int64K (cp_Sequence c))]))
    (RedactSensitiveMap (cp_Metadata c)).

Definition publishSyncRunEvent (now : Time) (s : RunStores) (runID : string) (c : SyncCheckpoint) (eventName : string) (payload : gmap string value)
    : option string * RunStores :=
  match rt_bus s with
  | None => (None, s)
  | Some b => let (e, b') := bus_Publish b (run_event now runID c eventName payload) in (e, with_run_bus s (Some b'))
  end.

Definition emptyRunResult : SyncRunResult := mkRunResult "" "" 0 0 0 0 None ∅.
Definition counted (r : SyncRunResult) (processed skipped : Z) : SyncRunResult :=
  mkRunResult (sr_RunID r) (sr_Status r) (sr_ProcessedCount r + processed) (sr_SkippedCount r + skipped) (sr_ConflictCount r) (sr_FailedCount r)
    (sr_NextCheckpoint r) (sr_Metadata r).
Definition failed_run (r : SyncRunResult) (c : SyncCheckpoint) : SyncRunResult :=
  mkRunResult (sr_RunID r) SyncRunStatusFailed (sr_ProcessedCount r) (sr_SkippedCount r) (sr_ConflictCount r) (sr_FailedCount r + 1) (Some c)
    (sr_Metadata r).

(** [return result, err] after the event of the failure, whose own error is dropped. *)
Definition fail_run (now : Time) (s : RunStores) (r : SyncRunResult) (c : SyncCheckpoint) (err : string) : SyncRunResult * option string * RunStores :=
  let s' := (publishSyncRunEvent now s (sr_RunID r) c "services.sync.run.failed"
               (list_to_map [("status", VString SyncRunStatusFailed); ("error", VString err)])).2 in
  (failed_run r c, Some err, s').

Definition checkpoint_at (c : SyncCheckpoint) (sequence : Z) (bindingID direction sourceVersion : string) (now : Time) : SyncCheckpoint :=
  mkCheckpoint (cp_ID c) (cp_ProviderID c) (cp_Scope c) (cp_ConnectionID c) bindingID direction (cp_Cursor c) sequence sourceVersion
    (cp_IdempotencySeed c) (cp_Metadata c) (cp_LastEventAt c) (cp_CreatedAt c) now.

Definition change_key (bindingID direction : string) (change : SyncChange) : string :=
  BuildSyncIdempotencyKey sha256_hex bindingID direction (ch_ExternalID (normalizeSyncChange change)) (ch_SourceVersion (normalizeSyncChange change)).

Definition log_entry (now : Time) (plan : SyncRunPlan) (direction : string) (runMetadata : gmap string value) (c : SyncCheckpoint) (change : SyncChange)
    : SyncChangeLogEntry :=
  let n := normalizeSyncChange change in
  mkLogEntry "" (cp_ProviderID c) (cp_Scope c) (cp_ConnectionID c) (pl_BindingID plan) direction (ch_SourceObject n) (ch_ExternalID n)
    (ch_SourceVersion n) (change_key (pl_BindingID plan) direction change) (RedactSensitiveMap (ch_Payload n))
    (RedactSensitiveMap (mergeMetadata (ch_Metadata n) runMetadata)) now.

(** The loop over the changes.  [clock i k] is the k-th reading of the clock while the i-th change is handled. *)
Fixpoint run_changes (clock : nat → nat → Time) (i : nat) (plan : SyncRunPlan) (direction : string) (runMetadata : gmap string value)
    (changes : list SyncChange) (sequence : Z) (c : SyncCheckpoint) (r : SyncRunResult) (s : RunStores)
    : SyncRunResult * option string * RunStores :=
  match changes with
  | [] =>
    let done := mkRunResult (sr_RunID r) (sr_Status r) (sr_ProcessedCount r) (sr_SkippedCount r) (sr_ConflictCount r) (sr_FailedCount r) (Some c)
                  (sr_Metadata r) in
    let (e, s') := publishSyncRunEvent (clock i 0) s (sr_RunID r) c "services.sync.run.succeeded"
      (list_to_map [("status", VString SyncRunStatusSucceeded); ("processed", VInt IntK (sr_ProcessedCount r));
         ("skipped", VInt IntK (sr_SkippedCount r)); ("failed", VInt IntK (sr_FailedCount r)); ("sequence", VInt Int64K (cp_Sequence c))]) in
    match e with Some e => (emptyRunResult, Some e, s') | None => (done, None, s') end
  | change :: rest =>
    let n := normalizeSyncChange change in
    if String.eqb (ch_ExternalID n) "" then fail_run (clock i 0) s r c "core: sync change external id is required"
    else
      let sequence := wrap64 (sequence + 1) in
      let c := checkpoint_at c sequence (pl_BindingID plan) direction (ch_SourceVersion n) (clock i 0) in
      if String.eqb (pl_Mode plan) SyncRunModeDryRun
      then run_changes clock (S i) plan direction runMetadata rest sequence c (counted r 1 0) s
      else
        match cl_Append (rt_log s) (log_entry (clock i 1) plan direction runMetadata c change) with
        | (Fail e, l) => fail_run (clock i 2) (mkRunStores (rt_checkpoints s) l (rt_bus s)) r c e
        | (Ok applied, l) =>
          let s := mkRunStores (rt_checkpoints s) l (rt_bus s) in
          let r := if applied then counted r 1 0 else counted r 0 1 in
          match cps_Save (rt_checkpoints s) c with
          | (Fail e, w) => fail_run (clock i 2) (mkRunStores w (rt_log s) (rt_bus s)) r c e
          | (Ok saved, w) =>
            let s := mkRunStores w (rt_log s) (rt_bus s) in
            let (e, s') := publishSyncRunEvent (clock i 2) s (sr_RunID r) saved "services.sync.run.checkpoint"
              (list_to_map [("status", VString SyncRunStatusRunning); ("sequence", VInt Int64K (cp_Sequence saved));
                 ("source_version", VString (cp_SourceVersion saved))]) in
            match e with
            | Some e => (emptyRunResult, Some e, s')
            | None => run_changes clock (S i) plan direction runMetadata rest sequence saved r s'
            end
          end
        end
  end.

(** The plan with its binding trimmed, and the checkpoint it starts from. *)
Definition trimmed_plan (p : SyncRunPlan) : SyncRunPlan :=
  mkPlan (pl_ID p) (TrimSpace (pl_BindingID p)) (pl_Mode p) (pl_Checkpoint p) (pl_EstimatedChanges p) (pl_IdempotencySeed p) (pl_DeterministicHash p)
    (pl_Metadata p) (pl_GeneratedAt p).
Definition start_checkpoint (plan : SyncRunPlan) (direction : string) : outcome string SyncCheckpoint :=
  let c := pl_Checkpoint plan in
  let bindingID := if String.eqb (cp_SyncBindingID c) "" then pl_BindingID plan else cp_SyncBindingID c in
  if negb (String.eqb bindingID (pl_BindingID plan)) then Fail "core: checkpoint binding id does not match plan binding id"
  else
    let from := if String.eqb (cp_Direction c) "" then direction else cp_Direction c in
    if negb (String.eqb from direction)
    then Fail ("core: checkpoint direction " +:+ quote from +:+ " does not match run direction " +:+ quote direction)
    else Ok (mkCheckpoint (cp_ID c) (cp_ProviderID c) (cp_Scope c) (cp_ConnectionID c) bindingID from (cp_Cursor c) (cp_Sequence c)
               (cp_SourceVersion c) (cp_IdempotencySeed c) (cp_Metadata c) (cp_LastEventAt c) (cp_CreatedAt c) (cp_UpdatedAt c)).

Definition run (clock : nat → nat → Time) (s : RunStores) (plan : SyncRunPlan) (changes : list SyncChange) (runMetadata : gmap string value)
    (direction : string) : SyncRunResult * option string * RunStores :=
  let plan := trimmed_plan plan in
  if String.eqb (pl_BindingID plan) "" then (emptyRunResult, Some "core: sync run plan binding id is required", s)
  else if negb (SyncRunMode_IsValid (pl_Mode plan)) then (emptyRunResult, Some ("core: invalid sync run mode " +:+ quote (pl_Mode plan)), s)
  else match start_checkpoint plan direction with
  | Fail e => (emptyRunResult, Some e, s)
  | Ok c =>
    let runID := TrimSpace (pl_ID plan) in
    let runID := if String.eqb runID ""
      then "run_" +:+ String.substring 0 16 (BuildSyncIdempotencyKey sha256_hex (pl_BindingID plan) direction (cp_Cursor c) (cp_SourceVersion c))
      else runID in
    let r := mkRunResult runID SyncRunStatusSucceeded 0 0 0 0 None (copyMetadata runMetadata) in
    let (e, s') := publishSyncRunEvent (clock 0 0) s runID c "services.sync.run.started"
      (list_to_map [("status", VString SyncRunStatusRunning); ("mode", VString (pl_Mode plan)); ("direction", VString direction)]) in
    match e with
    | Some e => (emptyRunResult, Some e, s')
    | None => run_changes clock 1 plan direction runMetadata changes (cp_Sequence c) c r s'
    end
  end.

Definition RunSyncImport clock s plan changes metadata := run clock s plan changes metadata SyncDirectionImport.
Definition RunSyncExport clock s plan changes metadata := run clock s plan changes metadata SyncDirectionExport.
End execution.

(** ** Conflicts *)

Section conflicts.
Context {F B : Type} {conflicts : SyncConflictStore F} {bus : LifecycleEventBus B}.
Variable quote : string → string.
Variable scope_error_text : domain_error → string.
Variable sha256_hex : string → string.
Variable time_Format : Time → string → string.

Definition normalizeSyncConflict (c : SyncConflict) : SyncConflict :=
  mkConflict (TrimSpace (cf_ID c)) (TrimSpace (cf_ProviderID c)) (normalScope (cf_Scope c)) (TrimSpace (cf_ConnectionID c))
    (TrimSpace (cf_SyncBindingID c)) (TrimSpace (cf_CheckpointID c)) (TrimSpace (cf_SourceObject c)) (TrimSpace (cf_ExternalID c))
    (TrimSpace (cf_SourceVersion c)) (TrimSpace (cf_IdempotencyKey c)) (TrimSpace (cf_Policy c)) (TrimSpace (cf_Reason c)) (cf_Status c)
    (cf_SourcePayload c) (cf_TargetPayload c) (cf_Resolution c) (TrimSpace (cf_ResolvedBy c)) (cf_ResolvedAt c) (cf_Metadata c)
    (cf_CreatedAt c) (cf_UpdatedAt c).
Definition normalizeSyncConflictResolution (r : SyncConflictResolution) : SyncConflictResolution :=
  mkResolution (lowerTrim (rs_Action r)) (rs_Patch r) (TrimSpace (rs_Reason r)) (TrimSpace (rs_ResolvedBy r)).

(** The conflict as pending, its payloads redacted. *)
Definition pending_conflict (c : SyncConflict) (source target metadata : gmap string value) : SyncConflict :=
  mkConflict (cf_ID c) (cf_ProviderID c) (cf_Scope c) (cf_ConnectionID c) (cf_SyncBindingID c) (cf_CheckpointID c) (cf_SourceObject c)
    (cf_ExternalID c) (cf_SourceVersion c) (cf_IdempotencyKey c) (cf_Policy c) (cf_Reason c) SyncConflictStatusPending source target
    (cf_Resolution c) (cf_ResolvedBy c) (cf_ResolvedAt c) metadata (cf_CreatedAt c) (cf_UpdatedAt c).

Definition conflict_event (now : Time) (c : SyncConflict) (eventName : string) (payload : gmap string value) : LifecycleEvent :=
  mkLifecycleEvent (buildSyncConflictAuditEventID sha256_hex time_Format (cf_ID c) eventName now) eventName (cf_ProviderID c)
    (scope_Type (cf_Scope c)) (scope_ID (cf_Scope c)) (cf_ConnectionID c) "services.sync.conflicts" now
    (mergeMetadata payload (list_to_map [("conflict_id", VString (cf_ID c)); ("sync_binding_id", VString (cf_SyncBindingID c));
       ("status", VString (cf_Status c)); ("source_object", VString (cf_SourceObject c)); ("external_id", VString (cf_ExternalID c));
       ("source_version", VString (cf_SourceVersion c)); ("idempotency_key", VString (cf_IdempotencyKey c));
       ("resolution_state", VString (cf_Status c))]))
    (copyMetadata (cf_Metadata c)).

Definition publishAuditEvent (now : Time) (b : option B) (c : SyncConflict) (eventName : string) (payload : gmap string value) : option string * option B :=
  match b with
  | None => (None, None)
  | Some b => let (e, b') := bus_Publish b (conflict_event now c eventName payload) in (e, Some b')
  end.

Definition RecordSyncConflict (now : Time) (hook : option SyncConflictPolicyHook) (s : F * option B) (req : RecordSyncConflictRequest)
    : outcome string SyncConflict * (F * option B) :=
  let c := normalizeSyncConflict (rc_Conflict req) in
  let c := pending_conflict c (RedactSensitiveMap (cf_SourcePayload c)) (RedactSensitiveMap (cf_TargetPayload c))
             (RedactSensitiveMap (mergeMetadata (cf_Metadata c) (rc_Metadata req))) in
  let decided := match hook with
    | None => Ok c
    | Some h => match ApplyRecordPolicy h c with
                | Fail e => Fail e
                | Ok c => let c := normalizeSyncConflict c in Ok (pending_conflict c (cf_SourcePayload c) (cf_TargetPayload c) (cf_Metadata c))
                end
    end in
  match decided with
  | Fail e => (Fail e, s)
  | Ok c =>
    match SyncConflict_Validate quote scope_error_text c with
    | Fail e => (Fail e, s)
    | Ok _ =>
      match cfs_Append s.1 c with
      | (Fail e, f) => (Fail e, (f, s.2))
      | (Ok saved, f) =>
        let (e, b) := publishAuditEvent now s.2 saved "services.sync.conflict.recorded" {[ "status" := VString SyncConflictStatusPending ]} in
        (match e with Some e => Fail e | None => Ok saved end, (f, b))
      end
    end
  end.

Definition settled (status : string) : bool := String.eqb status SyncConflictStatusResolved || String.eqb status SyncConflictStatusIgnored.

(** [now 0] is the time of the resolution, [now 1] that of the event. *)
Definition ResolveSyncConflict (now : nat → Time) (hook : option SyncConflictPolicyHook) (s : F * option B) (req : ResolveSyncConflictRequest)
    : outcome string SyncConflict * (F * option B) :=
  let conflictID := TrimSpace (rq_ConflictID req) in
  let providerID := TrimSpace (rq_ProviderID req) in
  let scope := normalScope (rq_Scope req) in
  if String.eqb conflictID "" then (Fail "core: conflict id is required", s)
  else if String.eqb providerID "" then (Fail "core: provider id is required", s)
  else match ScopeRef_Validate scope with
  | Fail e => (Fail (scope_error_text e), s)
  | Ok _ =>
    let n := normalizeSyncConflictResolution (rq_Resolution req) in
    let n := mkResolution (rs_Action n) (RedactSensitiveMap (rs_Patch n)) (rs_Reason n) (rs_ResolvedBy n) in
    let invalid a := "core: invalid sync conflict resolution action " +:+ quote a in
    if negb (SyncConflictResolutionAction_IsValid (rs_Action n)) then (Fail (invalid (rs_Action n)), s)
    else match cfs_Get s.1 providerID scope conflictID with
    | Fail e => (Fail e, s)
    | Ok current =>
      if negb (sameProviderScope (cf_ProviderID current) (cf_Scope current) providerID scope) then (Fail "core: conflict scope mismatch", s)
      else if settled (cf_Status current) then (Ok current, s)
      else
        let decided := match hook with
          | None => Ok n
          | Some h => match ApplyResolutionPolicy h current n with
                      | Fail e => Fail e
                      | Ok r => let r := normalizeSyncConflictResolution r in
                                if negb (SyncConflictResolutionAction_IsValid (rs_Action r)) then Fail (invalid (rs_Action r)) else Ok r
                      end
          end in
        match decided with
        | Fail e => (Fail e, s)
        | Ok r =>
          match cfs_Resolve s.1 providerID scope conflictID r (now 0) with
          | (Fail e, f) => (Fail e, (f, s.2))
          | (Ok resolved, f) =>
            let eventName := if String.eqb (rs_Action r) SyncConflictResolutionIgnore then "services.sync.conflict.ignored"
              else if String.eqb (rs_Action r) SyncConflictResolutionRetry then "services.sync.conflict.retry_requested"
              else "services.sync.conflict.resolved" in
            let (e, b) := publishAuditEvent (now 1) s.2 resolved eventName
              (list_to_map [("action", VString (rs_Action r)); ("reason", VString (rs_Reason r)); ("resolved_by", VString (rs_ResolvedBy r))]) in
            (match e with Some e => Fail e | None => Ok resolved end, (f, b))
          end
        end
    end
  end.
End conflicts.

(** ** Laws of the stores *)

(** The log has an entry under a key, once appended. *)
Class ChangeLogLaws (L : Type) (S : SyncChangeLogStore L) := {
  logged : L → string → bool;
  law_Append l e r l' : cl_Append l e = (r, l') →
    match r with
    | Ok applied => applied = negb (logged l (le_IdempotencyKey e)) ∧ ∀ k, logged l' k = logged l k || String.eqb k (le_IdempotencyKey e)
    | Fail _ => ∀ k, logged l' k = logged l k
    end }.

(** What a checkpoint says, without its row id and times. *)
Definition checkpoint_content (c : SyncCheckpoint) :=
  (cp_ProviderID c, cp_Scope c, cp_ConnectionID c, cp_SyncBindingID c, cp_Direction c, cp_Cursor c, cp_Sequence c, cp_SourceVersion c).
(** The checkpoint saved last for a provider, scope, binding and direction. *)
Class CheckpointLaws (W : Type) (S : SyncCheckpointStore W) := {
  latest : W → string → ScopeRef → string → string → option SyncCheckpoint;
  law_Save w c r w' : cps_Save w c = (r, w') →
    match r with
    | Ok s => checkpoint_content s = checkpoint_content c ∧ latest w' (cp_ProviderID c) (cp_Scope c) (cp_SyncBindingID c) (cp_Direction c) = Some s
    | Fail _ => ∀ p sc b d, latest w' p sc b d = latest w p sc b d
    end;
  law_GetLatest_cp w p sc b d o : cps_GetLatest w p sc b d = Ok o → o = latest w p sc b d;
  law_latest_key w p sc b d c : latest w p sc b d = Some c → cp_SyncBindingID c = b ∧ cp_Direction c = d }.

(** ** What a run does *)

(** The keys that a log does not have yet, each counted once. *)
Fixpoint fresh_count (seen : string → bool) (keys : list string) : Z :=
  match keys with
  | [] => 0%Z
  | k :: keys => ((if seen k then 0 else 1) + fresh_count (λ x, seen x || String.eqb x k) keys)%Z
  end.

Lemma fresh_count_ext seen1 seen2 keys : (∀ k, seen1 k = seen2 k) → fresh_count seen1 keys = fresh_count seen2 keys.
Proof.
  revert seen1 seen2. induction keys as [|k keys IH]; intros seen1 seen2 H; cbn [fresh_count]; [done|]. rewrite H. f_equal. apply IH.
  intros. by rewrite H.
Qed.
Lemma fresh_count_seen seen keys : (∀ k, k ∈ keys → seen k = true) → fresh_count seen keys = 0%Z.
Proof.
  revert seen. induction keys as [|k keys IH]; intros seen H; cbn [fresh_count]; [done|]. rewrite H by set_solver. rewrite IH; [done|].
  intros x Hx. rewrite H by set_solver. done.
Qed.

Section run_facts.
Context {W L B : Type} {checkpoints : SyncCheckpointStore W} {changelog : SyncChangeLogStore L} {bus : LifecycleEventBus B}.
Context {log_laws : ChangeLogLaws L changelog} {cp_laws : CheckpointLaws W checkpoints}.
Variable quote : string → string.
Variable sha256_hex : string → string.
Variable time_Format : Time → string → string.
Abbreviation stores := (RunStores (W := W) (L := L) (B := B)).
Abbreviation run_changes := (run_changes sha256_hex time_Format).
Abbreviation run := (run quote sha256_hex time_Format).
Abbreviation keys plan direction changes := (change_key sha256_hex (pl_BindingID plan) direction <$> changes).

Lemma publish_stores now (s : stores) runID c name payload e s' :
  publishSyncRunEvent sha256_hex time_Format now s runID c name payload = (e, s') → rt_checkpoints s' = rt_checkpoints s ∧ rt_log s' = rt_log s.
Proof. unfold publishSyncRunEvent. destruct (rt_bus s); [destruct (bus_Publish _ _)|]; intros [= <- <-]; done. Qed.
Lemma fail_run_stores now (s : stores) r c err r' e s' : fail_run sha256_hex time_Format now s r c err = (r', e, s') →
  e = Some err ∧ rt_checkpoints s' = rt_checkpoints s ∧ rt_log s' = rt_log s.
Proof.
  unfold fail_run. intros H. injection H as _ <- <-. split; [done|]. destruct (publishSyncRunEvent _ _ _ _ _ _ _ _) eqn:Hp.
  by apply publish_stores in Hp.
Qed.

(** One entry appended, whatever happens next. *)
Definition grown (l l' : L) (ks : list string) : Prop := ∀ k, logged l' k = logged l k ∨ k ∈ ks ∧ logged l' k = true.

Lemma grown_refl l l' ks : (∀ k, logged l' k = logged l k) → grown l l' ks.
Proof. intros H k. left. apply H. Qed.
Lemma grown_cons l l1 l' k ks : (∀ x, logged l1 x = logged l x || String.eqb x k) → grown l1 l' ks → grown l l' (k :: ks).
Proof.
  intros H1 H2 x. destruct (H2 x) as [Hx|[Hin Hx]]; [|right; split; [set_solver|done]]. rewrite Hx, H1.
  destruct (String.eqb_spec x k) as [->|]; [|left; apply orb_false_r]. right. split; [set_solver|apply orb_true_r].
Qed.

(** The loop in apply mode. *)
Lemma run_changes_apply clock i plan direction md changes sequence c r (s : stores) r' e s' :
  pl_Mode plan ≠ SyncRunModeDryRun → run_changes clock i plan direction md changes sequence c r s = (r', e, s') →
  grown (rt_log s) (rt_log s') (keys plan direction changes) ∧
  (e = None → (∀ k, k ∈ keys plan direction changes → logged (rt_log s') k = true) ∧ sr_Status r' = sr_Status r ∧
   sr_ProcessedCount r' = (sr_ProcessedCount r + fresh_count (logged (rt_log s)) (keys plan direction changes))%Z ∧
   (sr_ProcessedCount r' + sr_SkippedCount r' = sr_ProcessedCount r + sr_SkippedCount r + Z.of_nat (length changes))%Z).
Proof.
  intros Hmode. revert i sequence c r s. induction changes as [|change changes IH]; intros i sequence c r s; cbn [SyncRuns.run_changes fmap list_fmap].
  - destruct (publishSyncRunEvent _ _ _ _ _ _ _ _) as [[err|] s1] eqn:Hp; apply publish_stores in Hp as [_ Hl]; intros [= <- <- <-].
    + split; [apply grown_refl; by rewrite Hl|done].
    + split; [apply grown_refl; by rewrite Hl|]. intros _. cbn [fresh_count sr_ProcessedCount sr_SkippedCount sr_Status length]. split_and!; [set_solver|done|lia|lia].
  - destruct (String.eqb _ ""); [intros (-> & _ & Hl)%fail_run_stores; split; [apply grown_refl; by rewrite Hl|done]|]. cbv zeta.
    destruct (String.eqb_spec (pl_Mode plan) SyncRunModeDryRun); [done|].
    destruct (cl_Append _ _) as [[applied|err] l1] eqn:Ha; apply law_Append in Ha; cbn [log_entry le_IdempotencyKey] in Ha.
    2: { intros (-> & _ & Hl)%fail_run_stores. split; [apply grown_refl; rewrite Hl; apply Ha|done]. }
    destruct Ha as [-> Hlog]. set (k := change_key _ _ _ change) in *. cbn [rt_checkpoints rt_log rt_bus].
    assert (Hstep : ∀ x, logged l1 x = logged (rt_log s) x || String.eqb x k) by done.
    destruct (cps_Save _ _) as [[saved|err] w1] eqn:Hs.
    2: { intros (-> & _ & Hl)%fail_run_stores. split; [|done]. rewrite Hl. eapply grown_cons; [done|]. by apply grown_refl. }
    destruct (publishSyncRunEvent _ _ _ _ _ _ _ _) as [[err|] s1] eqn:Hp; apply publish_stores in Hp as [_ Hl]; cbn [rt_log] in Hl.
    { intros [= <- <- <-]. split; [|done]. rewrite Hl. eapply grown_cons; [done|]. by apply grown_refl. }
    intros H. apply IH in H as [Hg Hok]. rewrite Hl in *. split; [by eapply grown_cons|]. intros He. destruct (Hok He) as (Hin & Hst & Hp & Hsum).
    assert (Hk : logged (rt_log s') k = true).
    { destruct (Hg k) as [->|[_ ->]]; [|done]. rewrite Hstep, String.eqb_refl. apply orb_true_r. }
    split_and!; [intros x [->|Hx]%elem_of_cons; auto|by rewrite Hst; destruct (negb _)|..]; cbn [fresh_count length].
    + rewrite Hp, (fresh_count_ext _ _ _ Hstep). destruct (logged (rt_log s) k); cbn [negb counted sr_ProcessedCount]; lia.
    + rewrite Hsum. destruct (negb _); cbn [counted sr_ProcessedCount sr_SkippedCount]; lia.
Qed.

(** The loop as a rehearsal. *)
Lemma run_changes_dry clock i plan direction md changes sequence c r (s : stores) r' e s' :
  pl_Mode plan = SyncRunModeDryRun → run_changes clock i plan direction md changes sequence c r s = (r', e, s') →
  rt_checkpoints s' = rt_checkpoints s ∧ rt_log s' = rt_log s ∧
  (e = None → sr_ProcessedCount r' = (sr_ProcessedCount r + Z.of_nat (length changes))%Z).
Proof.
  intros Hmode. revert i sequence c r s. induction changes as [|change changes IH]; intros i sequence c r s; cbn [SyncRuns.run_changes].
  - destruct (publishSyncRunEvent _ _ _ _ _ _ _ _) as [[err|] s1] eqn:Hp; apply publish_stores in Hp as [Hc Hl]; intros [= <- <- <-];
      (split; [done|]; split; [done|]); [done|]. intros _. cbn. lia.
  - destruct (String.eqb _ ""); [intros (-> & ? & ?)%fail_run_stores; done|]. cbv zeta. rewrite Hmode, String.eqb_refl.
    intros (Hc & Hl & Hn)%IH. split_and!; [done..|]. intros He. rewrite (Hn He). cbn. lia.
Qed.

(** What comes before the loop changes nothing but the bus. *)
Lemma run_starts clock (s : stores) plan changes md direction r e s' :
  run clock s plan changes md direction = (r, e, s') →
  (rt_checkpoints s' = rt_checkpoints s ∧ rt_log s' = rt_log s ∧ is_Some e) ∨
  ∃ s1 c r0, rt_checkpoints s1 = rt_checkpoints s ∧ rt_log s1 = rt_log s ∧ sr_ProcessedCount r0 = 0%Z ∧ sr_SkippedCount r0 = 0%Z ∧
    sr_Status r0 = SyncRunStatusSucceeded ∧ run_changes clock 1 (trimmed_plan plan) direction md changes (cp_Sequence c) c r0 s1 = (r, e, s').
Proof.
  unfold SyncRuns.run. cbv zeta. destruct (String.eqb _ ""); [intros [= <- <- <-]; left; eauto|]. destruct (negb _); [intros [= <- <- <-]; left; eauto|].
  destruct (start_checkpoint _ _ _) as [c|]; [|intros [= <- <- <-]; left; eauto].
  destruct (publishSyncRunEvent _ _ _ _ _ _ _ _) as [[err|] s1] eqn:Hp; apply publish_stores in Hp as [Hc Hl].
  - intros [= <- <- <-]. left. eauto.
  - intros H. right. eexists s1, c, _. split_and!; [done|done| | | |exact H]; done.
Qed.


(** ** Planned runs *)

(** No fault: the stores answer and there is no bus that could fail. *)
Lemma run_changes_succeeds clock i plan direction md changes sequence c r (s : stores) :
  (∀ l e, ∃ a l', cl_Append (L := L) l e = (Ok a, l')) → (∀ w c, ∃ c' w', cps_Save (W := W) w c = (Ok c', w')) → rt_bus s = None →
  Forall (λ ch, blank (ch_ExternalID ch) = false) changes → pl_Mode plan = SyncRunModeApply → changes ≠ [] →
  (0 ≤ sequence)%Z → (sequence + Z.of_nat (length changes) ≤ int64_max)%Z →
  ∃ r' s' c', run_changes clock i plan direction md changes sequence c r s = (r', None, s') ∧ sr_NextCheckpoint r' = Some c' ∧
    cp_Sequence c' = (sequence + Z.of_nat (length changes))%Z ∧ cp_ProviderID c' = cp_ProviderID c ∧ cp_Scope c' = cp_Scope c ∧
    cp_ConnectionID c' = cp_ConnectionID c ∧ cp_SyncBindingID c' = pl_BindingID plan ∧ cp_Direction c' = direction ∧
    latest (rt_checkpoints s') (cp_ProviderID c) (cp_Scope c) (pl_BindingID plan) direction = Some c'.
Proof.
  intros Hlog Hsave Hb Hall Hmode Hne Hlo Hhi. revert i sequence c r s Hb Hlo Hhi.
  induction changes as [|ch changes IH]; [done|]; intros i sequence c r s Hb Hlo Hhi. apply Forall_cons in Hall as [Hch Hall]. cbn [length] in Hhi.
  cbn [SyncRuns.run_changes normalizeSyncChange ch_ExternalID ch_SourceVersion]. cbv zeta. unfold blank in Hch. rewrite Hch, Hmode. cbn [String.eqb].
  assert (Hseq : wrap64 (sequence + 1) = (sequence + 1)%Z) by (apply wrap64_id; unfold in_int64, int64_min, int64_max in *; lia). rewrite Hseq.
  destruct (Hlog (rt_log s) (log_entry sha256_hex (clock i 1) plan direction md
    (checkpoint_at c (sequence + 1) (pl_BindingID plan) direction (TrimSpace (ch_SourceVersion ch)) (clock i 0)) ch)) as (a & l' & Ha).
  rewrite Ha. cbn [rt_checkpoints rt_log rt_bus].
  match goal with |- context [cps_Save ?w ?cp] => destruct (Hsave w cp) as (saved & w' & Hsv) end. rewrite Hsv. apply law_Save in Hsv as [Hcont Hlat].
  unfold checkpoint_content in Hcont. cbn [checkpoint_at cp_ProviderID cp_Scope cp_ConnectionID cp_SyncBindingID cp_Direction cp_Cursor cp_Sequence cp_SourceVersion] in Hcont, Hlat.
  injection Hcont as Hp Hsc Hcn Hbd Hdr _ Hsq _. unfold publishSyncRunEvent at 1. cbn [rt_bus]. rewrite Hb.
  destruct changes as [|ch2 changes].
  - cbn [SyncRuns.run_changes]. unfold publishSyncRunEvent. cbn [rt_bus]. do 3 eexists. split; [reflexivity|]. cbn [sr_NextCheckpoint rt_checkpoints length].
    split_and!; [done|lia|congruence..].
  - destruct (IH Hall ltac:(done) (S i) (sequence + 1)%Z saved (if a then counted r 1 0 else counted r 0 1) (mkRunStores w' l' None) eq_refl
      ltac:(lia) ltac:(cbn [length] in *; lia)) as (r' & s' & c' & H1 & H2 & H3 & H4 & H5 & H6 & H7 & H8 & H9).
    exists r', s', c'. split; [exact H1|]. rewrite <-Hp, <-Hsc, <-Hcn. cbn [length] in *. split_and!; [done|lia|done..].
Qed.

Lemma planned scope_error_text json_plan now w req plan :
  PlanSyncRun quote scope_error_text sha256_hex json_plan now w req = Ok plan →
  let n := normalizeSyncBinding (pr_Binding req) in
  pl_BindingID plan = sb_ID n ∧ pl_Mode plan = pr_Mode req ∧
  ∃ found, resolvePlanCheckpoint quote w req n (sb_Direction n) = Ok found ∧ pl_Checkpoint plan = default (initial_checkpoint n) found.
Proof.
  unfold PlanSyncRun. cbv zeta. destruct (SyncBinding_Validate _ _ _); [|done]. destruct (negb _); [done|].
  destruct (resolvePlanCheckpoint _ _ _ _ _) as [found|] eqn:Hf; [|done]. destruct (buildSyncRunPlanHash _ _ _); [|done]. intros [= <-].
  split_and!; [done..|]. by exists found.
Qed.

(** The checkpoint of a plan is one of its binding and direction. *)
Lemma planned_checkpoint (w : W) req n found : resolvePlanCheckpoint quote w req n (sb_Direction n) = Ok found →
  let c := default (initial_checkpoint n) found in cp_SyncBindingID c = sb_ID n ∧ cp_Direction c = sb_Direction n.
Proof.
  unfold resolvePlanCheckpoint. cbv zeta. destruct (negb (String.eqb _ "")).
  - destruct (cps_GetByID _ _ _ _) as [[c|]|]; [|done..]. destruct (negb (checkpointMatchesBinding _ _)); [done|].
    destruct (String.eqb_spec (cp_SyncBindingID c) (sb_ID n)); [|done]. destruct (String.eqb_spec (cp_Direction c) (sb_Direction n)); [|done].
    by intros [= <-].
  - destruct (cps_GetLatest _ _ _ _ _) as [[c|]|] eqn:Hg; [|by intros [= <-]|done]. apply law_GetLatest_cp in Hg.
    destruct (negb _); [done|]. intros [= <-]. cbn [default]. symmetry in Hg. by apply law_latest_key in Hg.
Qed.

End run_facts.

(** ** Tables as the stores *)

Abbreviation checkpoint_table := (gmap (string * string * string * string * string) SyncCheckpoint).
Definition table_latest_cp (w : checkpoint_table) (p : string) (sc : ScopeRef) (b d : string) : option SyncCheckpoint :=
  match w !! (p, scope_Type sc, scope_ID sc, b, d) with
  | Some c => if String.eqb (cp_SyncBindingID c) b && String.eqb (cp_Direction c) d then Some c else None
  | None => None
  end.
#[export] Instance table_checkpoints : SyncCheckpointStore checkpoint_table := {
  cps_Save := λ w c, (Ok c, <[(cp_ProviderID c, scope_Type (cp_Scope c), scope_ID (cp_Scope c), cp_SyncBindingID c, cp_Direction c) := c]> w);
  cps_GetByID := λ w p sc id, Ok (snd <$> list_find (λ c, cp_ID c = id ∧ sameProviderScope (cp_ProviderID c) (cp_Scope c) p sc = true) (map_to_list w).*2);
  cps_GetLatest := λ w p sc b d, Ok (table_latest_cp w p sc b d) }.
#[export] Instance table_checkpoint_laws : CheckpointLaws checkpoint_table table_checkpoints.
Proof.
  refine {| latest := table_latest_cp |}.
  - intros w c r w' H. injection H as <- <-. split; [done|]. unfold table_latest_cp. by rewrite lookup_insert_eq, !String.eqb_refl.
  - by intros w p sc b d o [= <-].
  - intros w p sc b d c. unfold table_latest_cp. destruct (w !! _) as [x|]; [|done]. destruct (_ && _) eqn:H; [|done]. intros [= <-].
    apply andb_true_iff in H as [H1%String.eqb_eq H2%String.eqb_eq]. done.
Defined.

#[export] Instance table_log : SyncChangeLogStore (gmap string SyncChangeLogEntry) :=
  λ l e, match l !! le_IdempotencyKey e with Some _ => (Ok false, l) | None => (Ok true, <[le_IdempotencyKey e := e]> l) end.
#[export] Instance table_log_laws : ChangeLogLaws (gmap string SyncChangeLogEntry) table_log.
Proof.
  refine {| logged := λ l k, bool_decide (is_Some (l !! k)) |}. intros l e r l'. unfold cl_Append, table_log.
  destruct (l !! le_IdempotencyKey e) as [x|] eqn:Hx; intros H; injection H as <- <-.
  - split; [done|]. intros k. destruct (String.eqb_spec k (le_IdempotencyKey e)) as [->|]; [rewrite Hx; done|by rewrite orb_false_r].
  - split; [done|]. intros k. destruct (String.eqb_spec k (le_IdempotencyKey e)) as [->|].
    + rewrite lookup_insert_eq, orb_true_r. done.
    + rewrite lookup_insert_ne by done. by rewrite orb_false_r.
Defined.

Definition demo_binding : SyncBinding :=
  mkSyncBinding " b1 " "acme" (mkScopeRef "Org" "o1") "c1" "contacts" "contact" "person" "Import" "active" ∅ 0 0.
Definition demo_plan_request (mode : string) : PlanSyncRunRequest := mkPlanRequest demo_binding mode "" 0 ∅.
Definition demo_stores : RunStores (W := checkpoint_table) (L := gmap string SyncChangeLogEntry) (B := unit) := mkRunStores ∅ ∅ None.
Definition demo_changes : list SyncChange := [mkChange "contact" "e1" "v1" ∅ ∅; mkChange "contact" "e2" "v1" ∅ ∅; mkChange "contact" "e1" "v1" ∅ ∅].
Abbreviation demo_plan_run := (PlanSyncRun (λ s, s) (λ _, "") (λ s, s) (λ _, Ok "0123456789abcdef01234567")).
#[local] Instance no_bus : LifecycleEventBus unit := λ b _, (None, b).
Definition demo_run (s : RunStores (W := checkpoint_table) (L := gmap string SyncChangeLogEntry) (B := unit)) (plan : SyncRunPlan) (changes : list SyncChange) :=
  run (λ s, s) (λ s, s) (λ _ _, "") (λ _ _, 0%Z) s plan changes ∅ SyncDirectionImport.

Definition demo_plan : SyncRunPlan := match demo_plan_run 1%Z ∅ (demo_plan_request SyncRunModeApply) with Ok p => p | Fail _ =>
  mkPlan "" "" "" (initial_checkpoint demo_binding) 0 "" "" ∅ 0 end.



(** External ids are compared without regard to case, though many systems have ids that differ in case only: the second change is skipped, and
    its payload is lost. *)
Example case_ids_collide :
  let changes := [mkChange "contact" "001xA" "v1" ∅ ∅; mkChange "contact" "001XA" "v1" {[ "name" := VString "another" ]} ∅] in
  let '(r, e, s') := demo_run demo_stores demo_plan changes in
  (e, sr_ProcessedCount r, sr_SkippedCount r, size (rt_log s')) = (None, 1%Z, 1%Z, 1).
Proof. vm_compute. reflexivity. Qed.

(** The parts of a key are joined with a bar that they may contain themselves. *)
Example separator_ids_collide :
  let changes := [mkChange "contact" "a|b" "c" ∅ ∅; mkChange "contact" "a" "b|c" ∅ ∅] in
  let '(r, e, s') := demo_run demo_stores demo_plan changes in (e, sr_ProcessedCount r, sr_SkippedCount r) = (None, 1%Z, 1%Z).
Proof. vm_compute. reflexivity. Qed.

(** ** Settled conflicts *)

(** The ledger of conflicts: an append does not touch what is there, a resolution only the conflict it names. *)
Class ConflictLaws (F : Type) (S : SyncConflictStore F) := {
  conflict_at : F → string → option SyncConflict;
  law_Get_cf f p sc id c : cfs_Get f p sc id = Ok c → conflict_at f id = Some c;
  law_Append_cf f c r f' : cfs_Append f c = (r, f') → ∀ id x, conflict_at f id = Some x → conflict_at f' id = Some x;
  law_Resolve_cf f p sc id res now r f' : cfs_Resolve f p sc id res now = (r, f') → ∀ id', id' ≠ id → conflict_at f' id' = conflict_at f id' }.

Section conflict_facts.
Context {F B : Type} {conflicts : SyncConflictStore F} {bus : LifecycleEventBus B} {laws : ConflictLaws F conflicts}.
Variable quote : string → string.
Variable scope_error_text : domain_error → string.
Variable sha256_hex : string → string.
Variable time_Format : Time → string → string.
Abbreviation ledger := (F * option B)%type.

Inductive conflict_op :=
| OpRecord (now : Time) (hook : option SyncConflictPolicyHook) (req : RecordSyncConflictRequest)
| OpResolve (now : nat → Time) (hook : option SyncConflictPolicyHook) (req : ResolveSyncConflictRequest).
Definition conflict_run (s : ledger) (op : conflict_op) : outcome string SyncConflict * ledger :=
  match op with
  | OpRecord now hook req => RecordSyncConflict quote scope_error_text sha256_hex time_Format now hook s req
  | OpResolve now hook req => ResolveSyncConflict quote scope_error_text sha256_hex time_Format now hook s req
  end.

Lemma conflict_step s op id c : conflict_at s.1 id = Some c → settled (cf_Status c) = true → conflict_at (conflict_run s op).2.1 id = Some c.
Proof.
  intros Hc Hs. destruct op as [now hook req|now hook req]; cbn [conflict_run].
  - unfold RecordSyncConflict. cbv zeta. match goal with |- context [match ?d with Ok _ => _ | Fail _ => _ end] => destruct d as [x|]; [|done] end.
    destruct (SyncConflict_Validate _ _ _); [|done]. destruct (cfs_Append _ _) as [[saved|e] f] eqn:Ha; [|by eapply law_Append_cf].
    destruct (publishAuditEvent _ _ _ _ _ _ _). cbn [fst snd]. by eapply law_Append_cf.
  - unfold ResolveSyncConflict. cbv zeta. destruct (String.eqb _ ""); [done|]. destruct (String.eqb _ ""); [done|]. destruct (ScopeRef_Validate _); [|done].
    destruct (negb _); [done|]. destruct (cfs_Get _ _ _ _) as [current|] eqn:Hg; [|done]. apply law_Get_cf in Hg. destruct (negb _); [done|].
    destruct (settled (cf_Status current)) eqn:Hset; [done|].
    match goal with |- context [match ?d with Ok _ => _ | Fail _ => _ end] => destruct d as [x|]; [|done] end.
    assert (Hne : id ≠ TrimSpace (rq_ConflictID req)) by (intros ->; rewrite Hg in Hc; injection Hc as <-; congruence).
    destruct (cfs_Resolve _ _ _ _ _ _) as [[resolved|e] f] eqn:Hr; [|cbn [fst snd]; by rewrite (law_Resolve_cf _ _ _ _ _ _ _ _ Hr)].
    destruct (publishAuditEvent _ _ _ _ _ _ _). cbn [fst snd]. by rewrite (law_Resolve_cf _ _ _ _ _ _ _ _ Hr).
Qed.

(** A sync conflict that is resolved or ignored is settled for good: no sequence of recordings and resolutions, whatever the policy hooks
    say, changes it; and asking once more to resolve it answers with the settled conflict, writes nothing and announces nothing. *)
Theorem settled_conflicts_final (s : ledger) ops id c :
  conflict_at s.1 id = Some c → settled (cf_Status c) = true →
  let s' := foldl (λ s op, (conflict_run s op).2) s ops in
  conflict_at s'.1 id = Some c ∧
  ∀ now hook req r s2, TrimSpace (rq_ConflictID req) = id → conflict_run s' (OpResolve now hook req) = (r, s2) →
    s2 = s' ∧ (∀ x, r = Ok x → x = c).
Proof.
  intros Hc Hs s'. assert (Hc' : conflict_at s'.1 id = Some c).
  { subst s'. induction ops as [|op ops IH] using rev_ind; [done|]. rewrite foldl_app. cbn [foldl]. by apply conflict_step. }
  split; [done|]. intros now hook req r s2 <-. cbn [conflict_run]. unfold ResolveSyncConflict. cbv zeta.
  destruct (String.eqb _ ""); [by intros [= <- <-]|]. destruct (String.eqb _ ""); [by intros [= <- <-]|].
  destruct (ScopeRef_Validate _); [|by intros [= <- <-]]. destruct (negb _); [by intros [= <- <-]|].
  destruct (cfs_Get _ _ _ _) as [current|] eqn:Hg; [|by intros [= <- <-]]. apply law_Get_cf in Hg. rewrite Hc' in Hg. injection Hg as <-.
  destruct (negb _); [by intros [= <- <-]|]. rewrite Hs. intros [= <- <-]. split; [done|]. by intros ? [= <-].
Qed.
End conflict_facts.

Abbreviation conflict_table := (gmap string SyncConflict).
Definition conflict_with (c : SyncConflict) (status resolvedBy : string) (resolvedAt : Time) : SyncConflict :=
  mkConflict (cf_ID c) (cf_ProviderID c) (cf_Scope c) (cf_ConnectionID c) (cf_SyncBindingID c) (cf_CheckpointID c) (cf_SourceObject c)
    (cf_ExternalID c) (cf_SourceVersion c) (cf_IdempotencyKey c) (cf_Policy c) (cf_Reason c) status (cf_SourcePayload c) (cf_TargetPayload c)
    (cf_Resolution c) resolvedBy (Some resolvedAt) (cf_Metadata c) (cf_CreatedAt c) (cf_UpdatedAt c).
#[export] Instance table_conflicts : SyncConflictStore conflict_table := {
  cfs_Append := λ f c, match f !! cf_ID c with Some _ => (Fail "unique violation", f) | None => (Ok c, <[cf_ID c := c]> f) end;
  cfs_Get := λ f p sc id, match f !! id with Some c => Ok c | None => Fail "conflict not found" end;
  cfs_Resolve := λ f p sc id r now, match f !! id with
    | Some c => let c' := conflict_with c (if String.eqb (rs_Action r) SyncConflictResolutionResolve then SyncConflictStatusResolved
                  else if String.eqb (rs_Action r) SyncConflictResolutionIgnore then SyncConflictStatusIgnored else SyncConflictStatusPending)
                  (rs_ResolvedBy r) now in (Ok c', <[id := c']> f)
    | None => (Fail "conflict not found", f) end }.
#[export] Instance table_conflict_laws : ConflictLaws conflict_table table_conflicts.
Proof.
  refine {| conflict_at := λ f id, f !! id |}.
  - intros f p sc id c. cbn [cfs_Get table_conflicts]. destruct (f !! id); [|done]. by intros [= <-].
  - intros f c r f'. cbn [cfs_Append table_conflicts]. destruct (f !! cf_ID c) eqn:H; intros [= <- <-] id x Hx; [done|].
    rewrite lookup_insert_ne; [done|]. intros <-. congruence.
  - intros f p sc id res now r f'. cbn [cfs_Resolve table_conflicts]. destruct (f !! id); intros [= <- <-] id' Hne; [|done].
    by rewrite lookup_insert_ne.
Defined.

Definition demo_conflict : SyncConflict :=
  mkConflict "x1" "acme" (mkScopeRef "org" "o1") "c1" "b1" "" "contact" "e1" "v1" "" "" "both changed" "" ∅ ∅ ∅ "" None ∅ 0 0.
Definition demo_resolve (action : string) : ResolveSyncConflictRequest :=
  mkResolveConflict "acme" (mkScopeRef "org" "o1") "x1" (mkResolution action ∅ "" "ana") ∅.
Definition demo_ledger : conflict_table * option unit :=
  foldl (λ s op, (conflict_run (λ s, s) (λ _, "") (λ s, s) (λ _ _, "") s op).2) (∅, None)
    [OpRecord 1 None (mkRecordConflict demo_conflict ∅); OpResolve (λ _, 2%Z) None (demo_resolve "Ignore")].

Lemma settled_conflicts_final_witness :
  ∃ c, demo_ledger.1 !! "x1" = Some c ∧ cf_Status c = SyncConflictStatusIgnored ∧
    (conflict_run (λ s, s) (λ _, "") (λ s, s) (λ _ _, "") demo_ledger (OpResolve (λ _, 3%Z) None (demo_resolve "resolve"))).2.1 !! "x1" = Some c.
Proof.
  eexists. split; [vm_compute; reflexivity|]. split; [reflexivity|].
  apply (settled_conflicts_final (laws := table_conflict_laws) (bus := no_bus) (λ s, s) (λ _, "") (λ s, s) (λ _ _, "") demo_ledger
    [OpResolve (λ _, 3%Z) None (demo_resolve "resolve")] "x1"); vm_compute; reflexivity.
Defined.
