(* ===== verification/Identity.v ===== *)
(** * Identity binding reconciliation (src/core/identity_binding_reconciler.go)

    An external record is bound to the best of its candidates if that one is good enough and clearly ahead of the next; whatever the outcome, it
    is recorded, and later calls return what is recorded.  Confidences are IEEE 754 binary64 data, with their rounding and with NaN. *)

From S2P Require Import Prelude GoStrings GoValues Domain FormData.
From Stdlib Require Import ZArith String Lia SpecFloat.
From stdpp Require Import base decidable list gmap strings.

Local Open Scope string_scope.
Local Open Scope nat_scope.
Local Open Scope list_scope.

Class IdentityBindingStore (W : Type) := {
  ibs_Upsert : W → IdentityBinding → outcome string IdentityBinding * W;
  ibs_GetByExternalID : W → string → string → outcome string (option IdentityBinding) }.

(** The thresholds: 0.99, 0.80 and 0.05 unless options say otherwise. *)
Record IdentityBindingReconciler := mkReconciler { rec_exactThreshold : float64; rec_confidentThreshold : float64; rec_ambiguousDelta : float64 }.
Definition NewIdentityBindingReconciler : IdentityBindingReconciler :=
  mkReconciler (S754_finite false 8917127262193582 (-53)) (S754_finite false 7205759403792794 (-53)) (S754_finite false 7205759403792794 (-57)).
(** A threshold outside of [0, 1] is ignored. *)
Definition threshold_ok (t : float64) : bool := negb (float_lt t float_zero || float_lt float_one t).
Definition WithIdentityConfidenceThreshold (t : float64) (r : IdentityBindingReconciler) : IdentityBindingReconciler :=
  if threshold_ok t then mkReconciler (rec_exactThreshold r) t (rec_ambiguousDelta r) else r.
Definition WithIdentityExactThreshold (t : float64) (r : IdentityBindingReconciler) : IdentityBindingReconciler :=
  if threshold_ok t then mkReconciler t (rec_confidentThreshold r) (rec_ambiguousDelta r) else r.
Definition WithIdentityAmbiguousDelta (t : float64) (r : IdentityBindingReconciler) : IdentityBindingReconciler :=
  if threshold_ok t then mkReconciler (rec_exactThreshold r) (rec_confidentThreshold r) t else r.

(** [!=] on floats: NaN differs from everything. *)
Definition float_ne (a b : float64) : bool := negb (SFeqb a b).

Definition candidate_less (left right : IdentityCandidate) : bool :=
  if float_ne (ca_Confidence left) (ca_Confidence right) then float_lt (ca_Confidence right) (ca_Confidence left)
  else if negb (String.eqb (ca_InternalType left) (ca_InternalType right)) then String.ltb (ca_InternalType left) (ca_InternalType right)
  else String.ltb (ca_InternalID left) (ca_InternalID right).

(** The candidate, trimmed, unless it is incomplete or its confidence out of range. *)
Definition usable_candidate (c : IdentityCandidate) : option IdentityCandidate :=
  let c := mkCandidate (TrimSpace (ca_InternalType c)) (TrimSpace (ca_InternalID c)) (ca_Confidence c) (ca_Metadata c) in
  if String.eqb (ca_InternalType c) "" || String.eqb (ca_InternalID c) "" then None
  else if float_lt (ca_Confidence c) float_zero || float_lt float_one (ca_Confidence c) then None
  else Some c.
Definition normalizeCandidates (raw : list IdentityCandidate) : list IdentityCandidate := stable_sort candidate_less (omap usable_candidate raw).

Definition resolveMatchKind (r : IdentityBindingReconciler) (candidates : list IdentityCandidate) : string * option IdentityCandidate * float64 :=
  match candidates with
  | [] => (IdentityBindingMatchUnresolved, None, float_zero)
  | top :: rest =>
    let second := match rest with c :: _ => ca_Confidence c | [] => float_zero end in
    let ambiguous := match rest with _ :: _ => float_le (float_sub (ca_Confidence top) second) (rec_ambiguousDelta r) | [] => false end in
    if ambiguous then (IdentityBindingMatchAmbiguous, Some top, second)
    else if float_le (rec_exactThreshold r) (ca_Confidence top) then (IdentityBindingMatchExact, Some top, second)
    else if float_le (rec_confidentThreshold r) (ca_Confidence top) then (IdentityBindingMatchConfident, Some top, second)
    else (IdentityBindingMatchUnresolved, Some top, second)
  end.

Definition normalizeReconcileIdentityRequest (q : ReconcileIdentityRequest) : ReconcileIdentityRequest :=
  mkReconcile (TrimSpace (ri_ProviderID q)) (normalScope (ri_Scope q)) (TrimSpace (ri_ConnectionID q)) (TrimSpace (ri_SyncBindingID q))
    (TrimSpace (ri_SourceObject q)) (TrimSpace (ri_ExternalID q)) (ri_Candidates q) (ri_Metadata q).

Section reconcile.
Context {W : Type} {store : IdentityBindingStore W}.
Variable scope_error_text : domain_error → string.
(** [fmt.Sprint] of a float. *)
Variable float_text : float64 → string.

Definition float_value (f : float64) : value :=
  match f with
  | S754_zero _ => VFloat64 0 0 (float_text f)
  | S754_finite s m e => VFloat64 (if s then Z.neg m else Z.pos m) e (float_text f)
  | _ => VOther (float_text f)
  end.

(** The binding that records the outcome. *)
Definition reconciled (r : IdentityBindingReconciler) (q : ReconcileIdentityRequest) : IdentityBinding :=
  let candidates := normalizeCandidates (ri_Candidates q) in
  let '(kind, selected, second) := resolveMatchKind r candidates in
  let metadata := <["reconcile.second_confidence" := float_value second]>
                    (<["reconcile.candidate_count" := VInt IntK (Z.of_nat (length candidates))]> (copyMetadata (ri_Metadata q))) in
  let metadata := match selected with
    | None => metadata
    | Some c => <["reconcile.top_internal_id" := VString (ca_InternalID c)]> (<["reconcile.top_internal_type" := VString (ca_InternalType c)]>
                  (<["reconcile.top_confidence" := float_value (ca_Confidence c)]> metadata))
    end in
  let bound := String.eqb kind IdentityBindingMatchExact || String.eqb kind IdentityBindingMatchConfident in
  let '(type, id, confidence) := match selected with
    | Some c => if bound then (ca_InternalType c, ca_InternalID c, ca_Confidence c)
                else if String.eqb kind IdentityBindingMatchAmbiguous then ("", "", ca_Confidence c) else ("", "", float_zero)
    | None => ("", "", float_zero)
    end in
  mkIdentityBinding "" (ri_ProviderID q) (ri_Scope q) (ri_ConnectionID q) (ri_SyncBindingID q) (ri_SourceObject q) (ri_ExternalID q) type id kind
    confidence metadata zeroTime zeroTime.

Definition ReconcileIdentity (r : IdentityBindingReconciler) (w : W) (req : ReconcileIdentityRequest) : outcome string ReconcileIdentityResult * W :=
  let q := normalizeReconcileIdentityRequest req in
  if String.eqb (ri_ProviderID q) "" then (Fail "core: provider id is required", w)
  else match ScopeRef_Validate (ri_Scope q) with
  | Fail e => (Fail (scope_error_text e), w)
  | Ok _ =>
    if String.eqb (ri_ConnectionID q) "" || String.eqb (ri_SyncBindingID q) "" then (Fail "core: connection id and sync binding id are required", w)
    else if String.eqb (ri_SourceObject q) "" || String.eqb (ri_ExternalID q) "" then (Fail "core: source object and external id are required", w)
    else match ibs_GetByExternalID w (ri_SyncBindingID q) (ri_ExternalID q) with
    | Fail e => (Fail e, w)
    | Ok (Some existing) => (Ok (mkReconcileResult existing false), w)
    | Ok None =>
      match ibs_Upsert w (reconciled r q) with
      | (Fail e, w') => (Fail e, w')
      | (Ok saved, w') => (Ok (mkReconcileResult saved true), w')
      end
    end
  end.
End reconcile.

(** ** The order of confidences *)

(** A float that is a number, as a point of a lexicographic order. *)
Definition rank (f : float64) : Z * Z * Z :=
  match f with
  | S754_zero _ => (0, 0, 0)
  | S754_infinity s => (if s then -2 else 2, 0, 0)
  | S754_nan => (0, 0, 0)
  | S754_finite s m e => if s then (-1, -e, Z.neg m) else (1, e, Z.pos m)
  end%Z.
Definition rank_lt (a b : Z * Z * Z) : Prop :=
  (a.1.1 < b.1.1 ∨ a.1.1 = b.1.1 ∧ (a.1.2 < b.1.2 ∨ a.1.2 = b.1.2 ∧ a.2 < b.2))%Z.
Definition number (f : float64) : Prop := f ≠ S754_nan.

Lemma float_lt_rank a b : number a → number b → float_lt a b = true ↔ rank_lt (rank a) (rank b).
Proof.
  unfold number, float_lt, SFltb, rank_lt. destruct a as [s|s| |s m e], b as [s'|s'| |s' m' e']; intros Ha Hb; try done;
    try (destruct s); try (destruct s'); cbn; try (split; [done|lia]); try (split; [lia|done]).
  all: change (PosDef.Pos.compare_cont Eq m m') with (Pos.compare m m').
  all: destruct (Z.compare_spec e e') as [->| |]; [destruct (Pos.compare_spec m m') as [->| |]|..]; cbn; split; intros; lia || done.
Qed.

Lemma float_lt_trans a b c : number a → number b → number c → float_lt a b = false → float_lt b c = false → float_lt a c = false.
Proof.
  intros Ha Hb Hc. rewrite <-!not_true_iff_false, !float_lt_rank by done. unfold rank_lt. lia.
Qed.
Lemma float_lt_asym a b : number a → number b → float_lt a b = true → float_lt b a = false.
Proof. intros Ha Hb. rewrite <-not_true_iff_false, !float_lt_rank by done. unfold rank_lt. lia. Qed.
Lemma float_lt_irrefl a : float_lt a a = false.
Proof.
  destruct a as [s|[]| |[] m e]; try done; unfold float_lt, SFltb; cbn; rewrite Z.compare_refl.
  all: change (PosDef.Pos.compare_cont Eq m m) with (Pos.compare m m); by rewrite Pos.compare_refl.
Qed.
Lemma SFeqb_lt a b : SFeqb a b = true → float_lt a b = false ∧ float_lt b a = false.
Proof.
  unfold SFeqb, float_lt, SFltb. destruct a as [s|[]| |[] m e], b as [s'|[]| |[] m' e']; try done; cbn;
    rewrite (Z.compare_antisym e e'); destruct (Z.compare_spec e e') as [->| |]; cbn; try done.
  all: change (PosDef.Pos.compare_cont Eq m m') with (Pos.compare m m'); change (PosDef.Pos.compare_cont Eq m' m) with (Pos.compare m' m);
    rewrite (Pos.compare_antisym m m'); by destruct (Pos.compare m m').
Qed.

Lemma candidate_less_best a b : number (ca_Confidence a) → number (ca_Confidence b) →
  (candidate_less a b = true → float_lt (ca_Confidence a) (ca_Confidence b) = false) ∧
  (candidate_less a b = false → float_lt (ca_Confidence b) (ca_Confidence a) = false).
Proof.
  intros Ha Hb. unfold candidate_less, float_ne. destruct (SFeqb (ca_Confidence a) (ca_Confidence b)) eqn:He; cbn [negb].
  - apply SFeqb_lt in He as [H1 H2]. done.
  - split; [by apply float_lt_asym|done].
Qed.

Lemma best_candidate raw top rest : Forall (λ c, number (ca_Confidence c)) raw → normalizeCandidates raw = top :: rest →
  top ∈ omap usable_candidate raw ∧ ∀ c, c ∈ omap usable_candidate raw → float_lt (ca_Confidence top) (ca_Confidence c) = false.
Proof.
  intros Hn Hs. split.
  - rewrite <-(elem_of_stable_sort candidate_less). fold (normalizeCandidates raw). rewrite Hs. by left.
  - apply (stable_sort_head candidate_less (λ c, number (ca_Confidence c)) (λ a b, float_lt (ca_Confidence a) (ca_Confidence b) = false) _ _ rest).
    + apply Forall_forall. intros c (c0 & Hin & Hu)%list_elem_of_omap. rewrite Forall_forall in Hn. specialize (Hn c0 Hin).
      unfold usable_candidate in Hu. cbv zeta in Hu. destruct (_ || _); [done|]. destruct (_ || _); [done|]. by injection Hu as <-.
    + intros a b c Ha Hb Hc. by apply float_lt_trans.
    + intros a _. apply float_lt_irrefl.
    + intros a b Ha Hb. by apply candidate_less_best.
    + intros a b Ha Hb. by apply candidate_less_best.
    + exact Hs.
Qed.

(** The laws of the store: at most one binding per external record of a sync binding, the one upserted last. *)
Class IdentityLaws (W : Type) (S : IdentityBindingStore W) := {
  bound_at : W → string → string → option IdentityBinding;
  law_GetByExternalID w b x o : ibs_GetByExternalID w b x = Ok o → o = bound_at w b x;
  law_Upsert_ib w i r w' : ibs_Upsert w i = (r, w') →
    match r with
    | Ok s => bound_at w' (ib_SyncBindingID i) (ib_ExternalID i) = Some s ∧
        (ib_MatchKind s, ib_InternalType s, ib_InternalID s, ib_Confidence s) = (ib_MatchKind i, ib_InternalType i, ib_InternalID i, ib_Confidence i)
    | Fail _ => ∀ b x, bound_at w' b x = bound_at w b x
    end }.

Section identity_facts.
Context {W : Type} {store : IdentityBindingStore W} {laws : IdentityLaws W store}.
Variable scope_error_text : domain_error → string.
Variable float_text : float64 → string.
Abbreviation reconcile := (ReconcileIdentity scope_error_text float_text).

(** The thresholds a match passed. *)
Definition good_enough (r : IdentityBindingReconciler) (kind : string) (confidence : float64) : Prop :=
  kind = IdentityBindingMatchExact ∧ float_le (rec_exactThreshold r) confidence = true ∨
  kind = IdentityBindingMatchConfident ∧ float_le (rec_confidentThreshold r) confidence = true.

Lemma reconciled_cases r q : Forall (λ c, number (ca_Confidence c)) (ri_Candidates q) →
  let b := reconciled float_text r q in
  (ib_InternalID b = "" ∧ ib_InternalType b = "" ∧ ib_MatchKind b ∈ [IdentityBindingMatchAmbiguous; IdentityBindingMatchUnresolved]) ∨
  ∃ top rest, normalizeCandidates (ri_Candidates q) = top :: rest ∧ ib_InternalID b = ca_InternalID top ∧ ib_InternalType b = ca_InternalType top ∧
    ib_Confidence b = ca_Confidence top ∧ good_enough r (ib_MatchKind b) (ca_Confidence top) ∧
    ∀ second rest', rest = second :: rest' → float_le (float_sub (ca_Confidence top) (ca_Confidence second)) (rec_ambiguousDelta r) = false.
Proof.
  intros Hn. unfold reconciled. cbv zeta. destruct (normalizeCandidates (ri_Candidates q)) as [|top rest]; [left; cbn; set_solver|].
  cbn [resolveMatchKind]. set (amb := match rest with [] => false | _ :: _ => _ end).
  assert (Hamb : amb = false → ∀ second rest', rest = second :: rest' →
    float_le (float_sub (ca_Confidence top) (ca_Confidence second)) (rec_ambiguousDelta r) = false) by (intros H second rest' ->; exact H).
  destruct amb; [left; cbn; set_solver|]. destruct (float_le (rec_exactThreshold r) _) eqn:He; [right|].
  { exists top, rest. split_and!; [done..|by left|by apply Hamb]. }
  destruct (float_le (rec_confidentThreshold r) _) eqn:Hc; [right|left; cbn; set_solver].
  exists top, rest. split_and!; [done..|by right|by apply Hamb].
Qed.

(** An external record is bound once and to its best candidate.  The first reconciliation that records it binds it only to a usable candidate
    that no other exceeds, passes the threshold of its kind of match, and is ahead of the next by more than the margin; otherwise no internal
    identity is bound.  Every later reconciliation of the record, with whatever candidates and thresholds, returns what was recorded and writes
    nothing. *)
Theorem identity_bound_once r w req res w' :
  reconcile r w req = (Ok res, w') → Forall (λ c, number (ca_Confidence c)) (ri_Candidates req) →
  (rr_Created res = true →
     let b := rr_Binding res in
     (ib_InternalID b = "" ∧ ib_MatchKind b ∈ [IdentityBindingMatchAmbiguous; IdentityBindingMatchUnresolved]) ∨
     ∃ top, top ∈ omap usable_candidate (ri_Candidates req) ∧ ib_InternalID b = ca_InternalID top ∧ ib_InternalType b = ca_InternalType top ∧
       good_enough r (ib_MatchKind b) (ca_Confidence top) ∧
       (∀ c, c ∈ omap usable_candidate (ri_Candidates req) → float_lt (ca_Confidence top) (ca_Confidence c) = false) ∧
       ∀ second rest, normalizeCandidates (ri_Candidates req) = top :: second :: rest →
         float_le (float_sub (ca_Confidence top) (ca_Confidence second)) (rec_ambiguousDelta r) = false) ∧
  (∀ r2 w2 req2 res2 w3, TrimSpace (ri_SyncBindingID req2) = TrimSpace (ri_SyncBindingID req) → TrimSpace (ri_ExternalID req2) = TrimSpace (ri_ExternalID req) →
     (∀ b x, bound_at w2 b x = bound_at w' b x) → reconcile r2 w2 req2 = (Ok res2, w3) →
     rr_Binding res2 = rr_Binding res ∧ rr_Created res2 = false ∧ w3 = w2).
Proof.
  intros H Hn. set (q := normalizeReconcileIdentityRequest req) in *.
  assert (Hrec : bound_at w' (ri_SyncBindingID q) (ri_ExternalID q) = Some (rr_Binding res) ∧
    (rr_Created res = true → (ib_MatchKind (rr_Binding res), ib_InternalType (rr_Binding res), ib_InternalID (rr_Binding res), ib_Confidence (rr_Binding res)) =
       let i := reconciled float_text r q in (ib_MatchKind i, ib_InternalType i, ib_InternalID i, ib_Confidence i))).
  { unfold ReconcileIdentity in H. cbv zeta in H. fold q in H. destruct (String.eqb _ ""); [done|]. destruct (ScopeRef_Validate _); [|done].
    destruct (_ || _); [done|]. destruct (_ || _); [done|]. destruct (ibs_GetByExternalID _ _ _) as [[x|]|] eqn:Hg; [| |done]; apply law_GetByExternalID in Hg.
    - injection H as <- <-. by rewrite <-Hg.
    - destruct (ibs_Upsert _ _) as [[saved|e] w1] eqn:Hu; [|done]. injection H as <- <-. apply law_Upsert_ib in Hu as [Hb Hf].
      assert (ib_SyncBindingID (reconciled float_text r q) = ri_SyncBindingID q ∧ ib_ExternalID (reconciled float_text r q) = ri_ExternalID q) as [E1 E2].
      { unfold reconciled. cbv zeta. destruct (resolveMatchKind _ _) as [[kind selected] second]. destruct (match selected with None => _ | Some _ => _ end) as [[? ?] ?]. done. }
      rewrite E1, E2 in Hb. done. }
  destruct Hrec as [Hbound Hfields]. split.
  - intros Hc b. specialize (Hfields Hc). cbv zeta in Hfields. injection Hfields as H1 H2 H3 H4.
    destruct (reconciled_cases r q Hn) as [(Hi & _ & Hk)|(top & rest & Hs & Hi & Hty & Hcf & Hgood & Hmargin)].
    + left. subst b. by rewrite H1, H3.
    + right. exists top. destruct (best_candidate _ _ _ Hn Hs) as [Hin Hbest]. subst b. rewrite H1, H2, H3. split_and!; [done..|].
      intros second rest' Hs'. change (ri_Candidates req) with (ri_Candidates q) in Hs'. rewrite Hs in Hs'. injection Hs' as ->. by eapply Hmargin.
  - intros r2 w2 req2 res2 w3 Hb Hx Hview H2. unfold ReconcileIdentity in H2. cbv zeta in H2.
    cbn [normalizeReconcileIdentityRequest ri_SyncBindingID ri_ExternalID] in H2, Hbound. rewrite Hb, Hx in H2.
    destruct (String.eqb _ ""); [done|]. destruct (ScopeRef_Validate _); [|done]. destruct (_ || _); [done|]. destruct (_ || _); [done|].
    destruct (ibs_GetByExternalID _ _ _) as [o|] eqn:Hg; [|done]. apply law_GetByExternalID in Hg. rewrite Hview in Hg.
    change (ri_SyncBindingID q) with (TrimSpace (ri_SyncBindingID req)) in Hbound. change (ri_ExternalID q) with (TrimSpace (ri_ExternalID req)) in Hbound.
    rewrite Hbound in Hg. subst o. by injection H2 as <- <-.
Qed.
End identity_facts.

(** ** A table as the store *)

Abbreviation identity_table := (gmap (string * string) IdentityBinding).
#[export] Instance table_identities : IdentityBindingStore identity_table := {
  ibs_Upsert := λ w i, (Ok i, <[(ib_SyncBindingID i, ib_ExternalID i) := i]> w);
  ibs_GetByExternalID := λ w b x, Ok (w !! (b, x)) }.
#[export] Instance table_identity_laws : IdentityLaws identity_table table_identities.
Proof.
  refine {| bound_at := λ w b x, w !! (b, x) |}.
  - by intros w b x o [= <-].
  - intros w i r w' H. injection H as <- <-. by rewrite lookup_insert_eq.
Defined.

Definition demo_candidate (id : string) (m : positive) (e : Z) : IdentityCandidate := mkCandidate "person" id (S754_finite false m e) ∅.
Definition demo_reconcile (candidates : list IdentityCandidate) : ReconcileIdentityRequest :=
  mkReconcile "acme" (mkScopeRef "org" "o1") "c1" "b1" "contact" " e1 " candidates ∅.
Abbreviation run_reconcile := (ReconcileIdentity (W := identity_table) (λ _, "") (λ _, "") NewIdentityBindingReconciler).

(** Candidates of confidence 0.5 and 0.9: the second is bound, and stays when a better one turns up. *)
Lemma identity_bound_once_witness :
  let '(o, w') := run_reconcile ∅ (demo_reconcile [demo_candidate "p1" 4503599627370496 (-53); demo_candidate "p2" 8106479329266893 (-53)]) in
  let '(o2, w3) := run_reconcile w' (demo_reconcile [demo_candidate "p3" 8917127262193582 (-53)]) in
  ∃ res res2, o = Ok res ∧ o2 = Ok res2 ∧ ib_InternalID (rr_Binding res) = "p2" ∧ rr_Binding res2 = rr_Binding res ∧ w3 = w'.
Proof.
  destruct (run_reconcile ∅ (demo_reconcile [demo_candidate "p1" 4503599627370496 (-53); demo_candidate "p2" 8106479329266893 (-53)])) as [o w'] eqn:H1.
  destruct (run_reconcile w' (demo_reconcile [demo_candidate "p3" 8917127262193582 (-53)])) as [o2 w3] eqn:H2.
  assert (Hw : w' = (run_reconcile ∅ (demo_reconcile [demo_candidate "p1" 4503599627370496 (-53); demo_candidate "p2" 8106479329266893 (-53)])).2)
    by by rewrite H1.
  destruct o as [res|e]; [|apply (f_equal fst) in H1; vm_compute in H1; discriminate].
  destruct o2 as [res2|e]; [|rewrite Hw in H2; apply (f_equal fst) in H2; vm_compute in H2; discriminate].
  destruct (identity_bound_once (laws := table_identity_laws) (λ _, "") (λ _, "") _ _ _ _ _ H1) as [_ Hagain].
  { repeat constructor; discriminate. }
  exists res, res2. split; [reflexivity|]. split; [reflexivity|].
  destruct (Hagain NewIdentityBindingReconciler w' (demo_reconcile [demo_candidate "p3" 8917127262193582 (-53)]) res2 w3 eq_refl eq_refl (λ b x, eq_refl) H2) as (Hb & _ & Hw3).
  split; [|split; [exact Hb|exact Hw3]]. apply (f_equal (λ x, match x.1 with Ok r => ib_InternalID (rr_Binding r) | Fail _ => "" end)) in H1.
  cbn [fst] in H1. rewrite <-H1. vm_compute. reflexivity.
Defined.

(** An ambiguous or unresolved record is saved without an internal id, which [IdentityBinding.Validate] refuses; and since the record is found
    from then on, better candidates are never looked at. *)
Example unresolved_is_sticky :
  let '(_, w') := run_reconcile ∅ (demo_reconcile [demo_candidate "p1" 4503599627370496 (-53)]) in
  let '(o, _) := run_reconcile w' (demo_reconcile [demo_candidate "p2" 8917127262193582 (-53)]) in
  match o with
  | Ok res => (ib_MatchKind (rr_Binding res), IdentityBinding_Validate (λ s, s) (λ _, "") (rr_Binding res))
              = (IdentityBindingMatchUnresolved, Fail "core: internal id is required")
  | Fail _ => False
  end.
Proof. vm_compute. reflexivity. Qed.
