(* ===== verification/Installations.v ===== *)
(** * Installations (src/core/service_installations.go, src/store/sql/installation_store.go)

    The table of installations, its store, and the four operations of the service.  A statement is one step, and so is the transaction of
    [Upsert]; [UpdateStatus] is a read and a write without a transaction, which are given apart.  The schema has a unique index over the active rows
    of a provider, scope and install type. *)

From S2P Require Import Prelude GoStrings GoValues Domain Contracts FormData.
From Stdlib Require Import ZArith String Lia.
From stdpp Require Import base decidable list gmap strings relations.

Local Open Scope string_scope.
Local Open Scope nat_scope.
Local Open Scope list_scope.

Record UpsertInstallationInput := mkUpsertInst {
  ui_ProviderID : string; ui_Scope : ScopeRef; ui_InstallType : string; ui_Status : string; ui_GrantedAt : option Time;
  ui_RevokedAt : option Time; ui_Metadata : gmap string value }.

(** The columns of a row are the fields of [Installation]. *)
Abbreviation InstDB := (gmap string Installation).

Inductive inst_error :=
| InErrRequired (text : string) | InErrScope (e : domain_error) | InErrStatus (status : string) | InErrMustBeActive
| InErrTransition (e : domain_error) | InErrNotFound (id : string) | InErrUnique | InErrDB (cause : string).

(** [parseInstallationStatus] of the service and [parseInstallationStatusValue] of the store are the same function. *)
Definition parseInstallationStatus (status : string) : outcome inst_error string :=
  let normalized := lowerTrim status in
  if String.eqb normalized "" then Ok InstallationStatusActive
  else if String.eqb normalized InstallationStatusActive || String.eqb normalized InstallationStatusSuspended
          || String.eqb normalized InstallationStatusUninstalled || String.eqb normalized InstallationStatusNeedsReconsent
  then Ok normalized
  else Fail (InErrStatus status).

Definition inst_key (r : Installation) : string * string * string * string :=
  (inst_ProviderID r, inst_ScopeType r, inst_ScopeID r, inst_InstallType r).
Definition input_key (n : UpsertInstallationInput) : string * string * string * string :=
  (ui_ProviderID n, scope_Type (ui_Scope n), scope_ID (ui_Scope n), ui_InstallType n).

(** The fields trimmed and the checks that the service and the store both make. *)
Definition normal_install (input : UpsertInstallationInput) : UpsertInstallationInput :=
  mkUpsertInst (TrimSpace (ui_ProviderID input)) (normalScope (ui_Scope input)) (lowerTrim (ui_InstallType input)) (ui_Status input)
    (ui_GrantedAt input) (ui_RevokedAt input) (ui_Metadata input).
Definition checked_install (input : UpsertInstallationInput) : outcome inst_error (UpsertInstallationInput * string) :=
  let n := normal_install input in
  if String.eqb (ui_ProviderID n) "" then Fail (InErrRequired "provider id")
  else match ScopeRef_Validate (ui_Scope n) with
  | Fail e => Fail (InErrScope e)
  | Ok _ =>
    if String.eqb (ui_InstallType n) "" then Fail (InErrRequired "install type")
    else match parseInstallationStatus (ui_Status n) with
    | Fail e => Fail e
    | Ok status => Ok (mkUpsertInst (ui_ProviderID n) (ui_Scope n) (ui_InstallType n) status (ui_GrantedAt n) (ui_RevokedAt n) (ui_Metadata n), status)
    end
  end.

(** ** The store *)

Section store.
Context {MR : MapRange}.
(** What a JSON column reads back, and [Time.Format(time.RFC3339Nano)]. *)
Variable json_column : gmap string value → gmap string value.
Variable rfc3339nano : Time → string.

Definition inst_with (r : Installation) (status : string) (granted revoked : option Time) (m : gmap string value) (now : Time) : Installation :=
  mkInstallation (inst_ID r) (inst_ProviderID r) (inst_ScopeType r) (inst_ScopeID r) (inst_InstallType r) status granted revoked m
    (inst_CreatedAt r) now.
(** A row as a query returns it; [toDomain] copies its fields. *)
Definition install_toDomain (r : Installation) : Installation :=
  inst_with r (inst_Status r) (inst_GrantedAt r) (inst_RevokedAt r) (copyAnyMap (json_column (inst_Metadata r))) (inst_UpdatedAt r).

Definition newInstallationRecord (uuid : string) (n : UpsertInstallationInput) (now : Time) : Installation :=
  mkInstallation uuid (ui_ProviderID n) (scope_Type (ui_Scope n)) (scope_ID (ui_Scope n)) (ui_InstallType n) (ui_Status n) (ui_GrantedAt n)
    (ui_RevokedAt n) (copyAnyMap (ui_Metadata n)) now now.

(** The newest row first; the order of the rows of one time is that of [map_range]. *)
Definition newer (a b : Installation) : bool := (inst_UpdatedAt b <? inst_UpdatedAt a)%Z.
Definition findInstallationTx (db : InstDB) (key : string * string * string * string) : option Installation :=
  head (select_rows newer (λ r, bool_decide (inst_key r = key)) db).

(** The unique index over the active rows. *)
Definition active_clash (db : InstDB) (row : Installation) : bool :=
  String.eqb (inst_Status row) InstallationStatusActive
  && existsb (λ p, negb (String.eqb p.1 (inst_ID row)) && String.eqb (inst_Status p.2) InstallationStatusActive
                   && bool_decide (inst_key p.2 = inst_key row)) (map_to_list db).
Definition insert_installation (db : InstDB) (env : CallEnv) (row : Installation) : outcome inst_error Installation * InstDB :=
  match env_fault env 1 with
  | Some cause => (Fail (InErrDB cause), db)
  | None => match db !! inst_ID row with
            | Some _ => (Fail InErrUnique, db)
            | None => if active_clash db row then (Fail InErrUnique, db) else (Ok row, <[inst_ID row := row]> db)
            end
  end.
Definition update_installation (db : InstDB) (env : CallEnv) (row : Installation) : outcome inst_error Installation * InstDB :=
  match env_fault env 1 with
  | Some cause => (Fail (InErrDB cause), db)
  | None => if active_clash db row then (Fail InErrUnique, db) else (Ok row, <[inst_ID row := row]> db)
  end.

(** A later time of the input replaces that of the row, and an installation that is removed gets a revocation time. *)
Definition upserted (r : Installation) (n : UpsertInstallationInput) (status : string) (now : Time) : Installation :=
  let revoked := match ui_RevokedAt n with Some t => Some t | None => inst_RevokedAt r end in
  inst_with r status (match ui_GrantedAt n with Some t => Some t | None => inst_GrantedAt r end)
    (if String.eqb status InstallationStatusUninstalled && bool_decide (revoked = None) then Some now else revoked)
    (copyAnyMap (ui_Metadata n)) now.

Definition Install_Upsert (db : InstDB) (env : CallEnv) (input : UpsertInstallationInput) : outcome inst_error Installation * InstDB :=
  match checked_install input with
  | Fail e => (Fail e, db)
  | Ok (n, status) =>
    match env_fault env 0 with
    | Some cause => (Fail (InErrDB cause), db)
    | None =>
      match findInstallationTx db (input_key n) with
      | None => if negb (String.eqb status InstallationStatusActive) then (Fail InErrMustBeActive, db)
                else insert_installation db env (newInstallationRecord (env_uuid env) n (env_now env))
      | Some record =>
        match Installation_TransitionTo (Some (install_toDomain record)) status (env_now env) with
        | Fail e => (Fail (InErrTransition e), db)
        | Ok _ => update_installation db env (upserted record n status (env_now env))
        end
      end
    end
  end.

Definition Install_Get (db : InstDB) (env : CallEnv) (id : string) : outcome inst_error Installation :=
  match env_fault env 0 with
  | Some cause => Fail (InErrDB cause)
  | None => match db !! TrimSpace id with Some r => Ok (install_toDomain r) | None => Fail (InErrNotFound (TrimSpace id)) end
  end.

Definition Install_ListByScope (db : InstDB) (env : CallEnv) (providerID : string) (scope : ScopeRef) : outcome inst_error (list Installation) :=
  let providerID := TrimSpace providerID in
  let scope := normalScope scope in
  if String.eqb providerID "" then Fail (InErrRequired "provider id")
  else match ScopeRef_Validate scope with
  | Fail e => Fail (InErrScope e)
  | Ok _ =>
    match env_fault env 0 with
    | Some cause => Fail (InErrDB cause)
    | None => Ok (install_toDomain <$> select_rows newer (λ r, String.eqb (inst_ProviderID r) providerID
        && String.eqb (inst_ScopeType r) (scope_Type scope) && String.eqb (inst_ScopeID r) (scope_ID scope)) db)
    end
  end.

(** The two statements of [UpdateStatus]: the read with the checks, and the write of the row it decided on. *)
Definition status_read (db : InstDB) (env : CallEnv) (id status reason : string) : outcome inst_error Installation :=
  let id := TrimSpace id in
  if String.eqb id "" || String.eqb status "" then Fail (InErrRequired "installation id and status")
  else match parseInstallationStatus status with
  | Fail e => Fail e
  | Ok target =>
    match env_fault env 0 with
    | Some cause => Fail (InErrDB cause)
    | None =>
      match db !! id with
      | None => Fail (InErrNotFound id)
      | Some record =>
        let now := env_now env in
        match Installation_TransitionTo (Some (install_toDomain record)) target now with
        | Fail e => Fail (InErrTransition e)
        | Ok _ =>
          let m := copyAnyMap (json_column (inst_Metadata record)) in
          let m := if blank reason then m
                   else <["status_reason_at" := VString (rfc3339nano now)]> (<["status_reason" := VString (TrimSpace reason)]> m) in
          Ok (inst_with record target (inst_GrantedAt record)
                (if String.eqb target InstallationStatusUninstalled then Some now else inst_RevokedAt record) m now)
        end
      end
    end
  end.
Definition status_write (db : InstDB) (env : CallEnv) (row : Installation) : outcome inst_error unit * InstDB :=
  let (o, db') := update_installation db env row in (match o with Ok _ => Ok tt | Fail e => Fail e end, db').
Definition Install_UpdateStatus (db : InstDB) (env : CallEnv) (id status reason : string) : outcome inst_error unit * InstDB :=
  match status_read db env id status reason with
  | Fail e => (Fail e, db)
  | Ok row => status_write db env row
  end.
End store.

(** ** The service *)

Class InstallationStore (E I : Type) := {
  is_Upsert : I → CallEnv → UpsertInstallationInput → outcome E Installation * I;
  is_Get : I → CallEnv → string → outcome E Installation;
  is_ListByScope : I → CallEnv → string → ScopeRef → outcome E (list Installation);
  is_UpdateStatus : I → CallEnv → string → string → string → outcome E unit * I }.

Inductive inst_service_error (E : Type) := InSvcNoStore | InSvcInput (e : inst_error) | InSvcStore (e : E).
Arguments InSvcNoStore {E}.
Arguments InSvcInput {E} e.
Arguments InSvcStore {E} e.

Section service.
Context {E I : Type} {store : InstallationStore E I}.

Definition from_store {A : Type} (o : outcome E A) : outcome (inst_service_error E) A :=
  match o with Ok a => Ok a | Fail e => Fail (InSvcStore e) end.

(** The installation of the same type that the scope has already; the store is called with [env 0] and [env 1]. *)
Definition UpsertInstallation (configured : bool) (env : nat → CallEnv) (s : I) (input : UpsertInstallationInput)
    : outcome (inst_service_error E) Installation * I :=
  if negb configured then (Fail InSvcNoStore, s)
  else match checked_install input with
  | Fail e => (Fail (InSvcInput e), s)
  | Ok (n, status) =>
    match is_ListByScope s (env 0) (ui_ProviderID n) (ui_Scope n) with
    | Fail e => (Fail (InSvcStore e), s)
    | Ok existing =>
      let upsert := let (o, s') := is_Upsert s (env 1) n in (from_store o, s') in
      match list_find (λ item, EqualFold (TrimSpace (inst_InstallType item)) (ui_InstallType n) = true) existing with
      | Some (_, item) =>
        match Installation_TransitionTo (Some item) status (env_now (env 0)) with
        | Fail e => (Fail (InSvcInput (InErrTransition e)), s)
        | Ok _ => upsert
        end
      | None => if negb (String.eqb status InstallationStatusActive) then (Fail (InSvcInput InErrMustBeActive), s) else upsert
      end
    end
  end.

Definition GetInstallation (configured : bool) (env : CallEnv) (s : I) (id : string) : outcome (inst_service_error E) Installation :=
  if negb configured then Fail InSvcNoStore
  else if blank id then Fail (InSvcInput (InErrRequired "installation id"))
  else from_store (is_Get s env (TrimSpace id)).

Definition ListInstallations (configured : bool) (env : CallEnv) (s : I) (providerID : string) (scope : ScopeRef)
    : outcome (inst_service_error E) (list Installation) :=
  if negb configured then Fail InSvcNoStore
  else if blank providerID then Fail (InSvcInput (InErrRequired "provider id"))
  else match ScopeRef_Validate (normalScope scope) with
  | Fail e => Fail (InSvcInput (InErrScope e))
  | Ok _ => from_store (is_ListByScope s env (TrimSpace providerID) (normalScope scope))
  end.

Definition UpdateInstallationStatus (configured : bool) (env : nat → CallEnv) (s : I) (id status reason : string)
    : outcome (inst_service_error E) unit * I :=
  if negb configured then (Fail InSvcNoStore, s)
  else
    let id := TrimSpace id in
    if String.eqb id "" || String.eqb status "" then (Fail (InSvcInput (InErrRequired "installation id and status")), s)
    else match parseInstallationStatus status with
    | Fail e => (Fail (InSvcInput e), s)
    | Ok target =>
      match is_Get s (env 0) id with
      | Fail e => (Fail (InSvcStore e), s)
      | Ok current =>
        match Installation_TransitionTo (Some current) target (env_now (env 0)) with
        | Fail e => (Fail (InSvcInput (InErrTransition e)), s)
        | Ok _ => let (o, s') := is_UpdateStatus s (env 1) id target (TrimSpace reason) in (from_store o, s')
        end
      end
    end.
End service.

Definition sql_installations {MR : MapRange} (json_column : gmap string value → gmap string value) (rfc3339nano : Time → string)
    : InstallationStore inst_error InstDB :=
  {| is_Upsert := Install_Upsert json_column; is_Get := Install_Get json_column; is_ListByScope := Install_ListByScope json_column;
     is_UpdateStatus := Install_UpdateStatus json_column rfc3339nano |}.

(** ** The rows *)

Definition inst_allowed (s t : string) : Prop := installationTransitionAllowed s t = true.
Definition inst_known (s : string) : Prop := s ∈ installationTransitions.*1.
Definition inst_identity (r : Installation) : string * (string * string * string * string) * Time := (inst_ID r, inst_key r, inst_CreatedAt r).
Definition removed_dated (r : Installation) : Prop := inst_Status r = InstallationStatusUninstalled → is_Some (inst_RevokedAt r).

(** Every row has its own id, a known status and, once removed, a revocation time; and no two rows are for the same thing. *)
Definition inst_row_ok (id : string) (r : Installation) : Prop :=
  inst_ID r = id ∧ inst_known (inst_Status r) ∧ removed_dated r ∧ lowerTrim (inst_InstallType r) = inst_InstallType r.
Definition inst_wf (db : InstDB) : Prop :=
  map_Forall inst_row_ok db ∧ ∀ i j r s, db !! i = Some r → db !! j = Some s → inst_key r = inst_key s → i = j.

(** What an operation may make of a row, and of the table. *)
Definition inst_follows (r r' : Installation) : Prop :=
  rtc inst_allowed (inst_Status r) (inst_Status r') ∧ inst_identity r' = inst_identity r.
Definition inst_evolves (db db' : InstDB) : Prop :=
  inst_wf db' ∧ ∀ id r, db !! id = Some r → ∃ r', db' !! id = Some r' ∧ inst_follows r r'.

#[local] Instance inst_follows_preorder : PreOrder inst_follows.
Proof. split; [by split|]. intros a b c [H1 H2] [H3 H4]. split; [by etransitivity|congruence]. Qed.
Lemma inst_evolves_refl db : inst_wf db → inst_evolves db db.
Proof. intros H. split; [done|]. intros id r Hr. by exists r. Qed.
Lemma inst_evolves_trans a b c : inst_evolves a b → inst_evolves b c → inst_evolves a c.
Proof.
  intros [_ H1] [H H2]. split; [done|]. intros id r Hr. destruct (H1 id r Hr) as (r2 & Hr2 & F). destruct (H2 id r2 Hr2) as (r3 & ? & F').
  exists r3. split; [done|by etransitivity].
Qed.

Lemma parse_known status target : parseInstallationStatus status = Ok target → inst_known target ∧ parseInstallationStatus target = Ok target.
Proof.
  unfold parseInstallationStatus. destruct (String.eqb _ ""); [intros [= <-]; split; [by apply list_elem_of_In; simpl; auto|done]|].
  destruct (_ || _) eqn:H; [|done]. intros [= <-]. rewrite !orb_true_iff, !String.eqb_eq in H.
  destruct H as [[[-> | ->] | ->] | ->]; (split; [apply list_elem_of_In; simpl; tauto|done]).
Qed.
Lemma transition_Ok i target now o : Installation_TransitionTo (Some i) target now = Ok o → rtc inst_allowed (inst_Status i) target.
Proof.
  unfold Installation_TransitionTo. destruct (String.eqb_spec (inst_Status i) target) as [->|_]; [done|].
  destruct (installationTransitionAllowed _ _) eqn:H; [|done]. intros _. by apply rtc_once.
Qed.
(** Whether a transition is allowed depends on the status only. *)
Lemma transition_status i i' target now now' : inst_Status i = inst_Status i' →
  (∃ o, Installation_TransitionTo (Some i) target now = Ok o) ↔ ∃ o, Installation_TransitionTo (Some i') target now' = Ok o.
Proof.
  unfold Installation_TransitionTo. intros ->. destruct (String.eqb _ _); [naive_solver|]. destruct (installationTransitionAllowed _ _); naive_solver.
Qed.

Section facts.
Context {MR : MapRange}.
Variable json_column : gmap string value → gmap string value.
Variable rfc3339nano : Time → string.

Lemma find_Some db key r : findInstallationTx db key = Some r → inst_key r = key ∧ ∃ id, db !! id = Some r.
Proof. by intros [Hk%bool_decide_eq_true Hr]%head_select_Some. Qed.
Lemma find_None db key id r : findInstallationTx db key = None → db !! id = Some r → inst_key r ≠ key.
Proof. intros Hn Hr. by apply (head_select_None _ _ _ _ _ Hn), bool_decide_eq_false in Hr. Qed.

(** Writing a row whose key is its own. *)
Lemma evolves_insert db row : inst_wf db → inst_row_ok (inst_ID row) row →
  (∀ r, db !! inst_ID row = Some r → inst_follows r row) → (∀ id r, db !! id = Some r → inst_key r = inst_key row → id = inst_ID row) →
  inst_evolves db (<[inst_ID row := row]> db).
Proof.
  intros [Hw Hu] Hrow Hf Hk. split; [split; [by apply map_Forall_insert_2|]|].
  - intros i j r s. rewrite !lookup_insert_Some. intros [[<- <-]|[_ Hr]] [[<- <-]|[_ Hs]] He; [done|symmetry in He; symmetry; by eapply Hk|by eapply Hk|by eapply Hu].
  - intros id r Hr. destruct (decide (id = inst_ID row)) as [->|Hne]; [rewrite lookup_insert_eq; eauto|].
    rewrite lookup_insert_ne by done. by exists r.
Qed.
Lemma update_evolves db env r row : inst_wf db → db !! inst_ID r = Some r → inst_identity row = inst_identity r →
  rtc inst_allowed (inst_Status r) (inst_Status row) → inst_known (inst_Status row) → removed_dated row →
  inst_evolves db (update_installation db env row).2.
Proof.
  intros Hw Hr Hid Hs Hk Hd. unfold update_installation. destruct (env_fault env 1); [by apply inst_evolves_refl|].
  destruct (active_clash db row); [by apply inst_evolves_refl|]. injection Hid as H1 H2 H3 H4 H5 H6. cbn [snd].
  destruct (proj1 Hw _ _ Hr) as (_ & _ & _ & Ht). apply evolves_insert; [done| | |].
  - split_and!; [done..|]. by rewrite H5.
  - rewrite H1, Hr. intros ? [= <-]. split; [done|]. unfold inst_identity, inst_key. congruence.
  - intros id r' Hr' Hk'. rewrite H1. eapply Hw; [exact Hr'|exact Hr|]. rewrite Hk'. unfold inst_key. congruence.
Qed.

Lemma upsert_evolves db env input : inst_wf db → inst_evolves db (Install_Upsert json_column db env input).2.
Proof.
  intros Hw. unfold Install_Upsert. destruct (checked_install input) as [[n status]|e] eqn:Hc; [|by apply inst_evolves_refl].
  assert (Hn : inst_known status ∧ ui_Status n = status ∧ lowerTrim (ui_InstallType n) = ui_InstallType n).
  { unfold checked_install in Hc. cbv zeta in Hc. destruct (String.eqb _ ""); [done|]. destruct (ScopeRef_Validate _); [|done].
    destruct (String.eqb _ ""); [done|]. destruct (parseInstallationStatus _) as [t|] eqn:Hp; [|done]. injection Hc as <- <-.
    split_and!; [by eapply parse_known|done|]. cbn. apply lowerTrim_idem. }
  destruct Hn as (Hk & Hst & Ht). destruct (env_fault env 0); [by apply inst_evolves_refl|].
  destruct (findInstallationTx db (input_key n)) as [r|] eqn:Hf.
  - destruct (Installation_TransitionTo _ status _) as [o|] eqn:Htr; [|by apply inst_evolves_refl]. apply transition_Ok in Htr.
    apply find_Some in Hf as [_ [id Hr]]. destruct (proj1 Hw _ _ Hr) as (<- & _ & Hd & _). apply (update_evolves db env r); [done..| ].
    unfold removed_dated, upserted. cbn. intros ->. cbn. destruct (ui_RevokedAt n) as [t|]; cbn; [eauto|].
    destruct (inst_RevokedAt r); cbn; eauto.
  - destruct (String.eqb_spec status InstallationStatusActive) as [->|_]; [|by apply inst_evolves_refl]. cbn [negb].
    unfold insert_installation. destruct (env_fault env 1); [by apply inst_evolves_refl|].
    destruct (db !! _) eqn:Hn; [by apply inst_evolves_refl|]. destruct (active_clash _ _); [by apply inst_evolves_refl|]. cbn [snd].
    apply evolves_insert; [done| |by rewrite Hn|].
    + split_and!; [done|by cbn; rewrite Hst|unfold removed_dated; cbn; by rewrite Hst|done].
    + intros id r Hr He. exfalso. by eapply find_None.
Qed.

Lemma status_evolves db env id status reason : inst_wf db → inst_evolves db (Install_UpdateStatus json_column rfc3339nano db env id status reason).2.
Proof.
  intros Hw. unfold Install_UpdateStatus, status_read. cbv zeta. destruct (_ || _); [by apply inst_evolves_refl|].
  destruct (parseInstallationStatus status) as [target|] eqn:Hp; [|by apply inst_evolves_refl]. destruct (env_fault env 0); [by apply inst_evolves_refl|].
  destruct (db !! _) as [r|] eqn:Hr; [|by apply inst_evolves_refl].
  destruct (Installation_TransitionTo _ target _) as [o|] eqn:Htr; [|by apply inst_evolves_refl]. apply transition_Ok in Htr.
  unfold status_write. destruct (proj1 Hw _ _ Hr) as (Hid & _ & Hd & _). rewrite <-Hid in Hr.
  match goal with |- context [update_installation ?d ?e ?row] => pose proof (update_evolves d e r row Hw Hr) as H; destruct (update_installation d e row) as [o' db'] end.
  cbn [snd] in *. apply H; [done|done|by eapply parse_known|]. unfold removed_dated. cbn. intros ->. cbn. eauto.
Qed.


Abbreviation store := (sql_installations json_column rfc3339nano).

(** ** Histories of service calls *)

Inductive inst_op := InUpsert (input : UpsertInstallationInput) | InUpdateStatus (id status reason : string).
Definition inst_step (env : nat → CallEnv) (db : InstDB) (op : inst_op) : InstDB :=
  match op with
  | InUpsert input => (UpsertInstallation (store := store) true env db input).2
  | InUpdateStatus id status reason => (UpdateInstallationStatus (store := store) true env db id status reason).2
  end.
Inductive inst_history : InstDB → InstDB → Prop :=
| inst_nil db : inst_history db db
| inst_cons env db op db' : inst_history (inst_step env db op) db' → inst_history db db'.

Lemma inst_step_evolves env db op : inst_wf db → inst_evolves db (inst_step env db op).
Proof.
  intros Hw. destruct op as [input|id status reason]; cbn [inst_step].
  - unfold UpsertInstallation. cbn [negb]. destruct (checked_install input) as [[n status]|]; [|by apply inst_evolves_refl].
    cbn [is_ListByScope is_Upsert sql_installations]. destruct (Install_ListByScope _ _ _ _ _) as [existing|]; [|by apply inst_evolves_refl].
    pose proof (upsert_evolves db (env 1) n Hw) as Hu. destruct (Install_Upsert _ _ _ n) as [o db']. cbn [snd] in Hu.
    destruct (list_find _ existing) as [[i item]|].
    + destruct (Installation_TransitionTo _ _ _); [done|by apply inst_evolves_refl].
    + destruct (negb _); [by apply inst_evolves_refl|done].
  - unfold UpdateInstallationStatus. cbn [negb]. cbv zeta. destruct (_ || _); [by apply inst_evolves_refl|].
    destruct (parseInstallationStatus status) as [target|]; [|by apply inst_evolves_refl]. cbn [is_Get is_UpdateStatus sql_installations].
    destruct (Install_Get _ _ _ _); [|by apply inst_evolves_refl]. destruct (Installation_TransitionTo _ _ _); [|by apply inst_evolves_refl].
    pose proof (status_evolves db (env 1) (TrimSpace id) target (TrimSpace reason) Hw) as Hu.
    destruct (Install_UpdateStatus _ _ _ _ _ _ _) as [o db']. done.
Qed.
Lemma inst_history_evolves db db' : inst_history db db' → inst_wf db → inst_evolves db db'.
Proof.
  induction 1 as [db|env db op db' _ IH]; intros Hw; [by apply inst_evolves_refl|].
  pose proof (inst_step_evolves env db op Hw) as Hs. eapply inst_evolves_trans; [exact Hs|]. apply IH, Hs.
Qed.

(** Over every history of service calls, with any arguments and any database faults, there is at most one installation of a type for a
    provider and scope; an installation is never lost, keeps its identity, and its status moves along the transitions that the domain allows: an
    uninstalled one stays so, and has a revocation time. *)
Theorem installation_lifecycle db db' :
  inst_wf db → inst_history db db' →
  (∀ i j r s, db' !! i = Some r → db' !! j = Some s → inst_key r = inst_key s → i = j) ∧
  (∀ id r, db' !! id = Some r → inst_Status r = InstallationStatusUninstalled → is_Some (inst_RevokedAt r)) ∧
  ∀ id r, db !! id = Some r → ∃ r', db' !! id = Some r' ∧ inst_identity r' = inst_identity r ∧
    rtc inst_allowed (inst_Status r) (inst_Status r') ∧
    (inst_Status r = InstallationStatusUninstalled → inst_Status r' = InstallationStatusUninstalled).
Proof.
  intros Hw Hh. destruct (inst_history_evolves db db' Hh Hw) as [[Hr Hu] He]. split_and!; [done|intros id r H; apply (Hr id r H)|].
  intros id r H. destruct (He id r H) as (r' & H' & Hs & Hid). exists r'. split_and!; [done..|]. intros Hun. rewrite Hun in Hs.
  inversion Hs as [|? y ? Hstep]; [done|]. unfold inst_allowed, installationTransitionAllowed in Hstep. by rewrite terminal_step in Hstep.
Qed.

(** ** The checks of the service and of the store *)

Lemma checked_normal input n status : checked_install input = Ok (n, status) →
  TrimSpace (ui_ProviderID n) = ui_ProviderID n ∧ normalScope (ui_Scope n) = ui_Scope n ∧ lowerTrim (ui_InstallType n) = ui_InstallType n ∧
  ui_ProviderID n ≠ "" ∧ ScopeRef_Validate (ui_Scope n) = Ok tt.
Proof.
  unfold checked_install. cbv zeta. destruct (String.eqb_spec (ui_ProviderID (normal_install input)) "") as [|H1]; [done|].
  destruct (ScopeRef_Validate _) as [[]|] eqn:H2; [|done].
  destruct (String.eqb (ui_InstallType _) ""); [done|]. destruct (parseInstallationStatus _) as [t|]; [|done]. intros [= <- <-].
  cbn [normal_install ui_ProviderID ui_Scope ui_InstallType ui_Status ui_GrantedAt ui_RevokedAt ui_Metadata] in *.
  split_and!; [apply TrimSpace_idem|unfold normalScope; cbn [scope_Type scope_ID]; by rewrite TrimSpace_idem, lowerTrim_idem|apply lowerTrim_idem|done|done].
Qed.
Lemma checked_again input n status : checked_install input = Ok (n, status) → checked_install n = Ok (n, status).
Proof.
  intros Hc. destruct (checked_normal _ _ _ Hc) as (Hp & Hs & Ht & Hne & Hv). unfold checked_install in Hc |- *. cbv zeta in Hc |- *.
  revert Hc. destruct (String.eqb (ui_ProviderID (normal_install input)) ""); [done|].
  destruct (ScopeRef_Validate (ui_Scope (normal_install input))); [|done].
  destruct (String.eqb (ui_InstallType (normal_install input)) "") eqn:H3; [done|].
  destruct (parseInstallationStatus (ui_Status (normal_install input))) as [t|] eqn:H4; [|done]. intros [= <- <-].
  unfold normal_install in *. cbn [ui_ProviderID ui_Scope ui_InstallType ui_Status ui_GrantedAt ui_RevokedAt ui_Metadata] in *.
  rewrite Hp, Hs, Ht, Hv, H3, (proj2 (parse_known _ _ H4)). by destruct (String.eqb_spec (TrimSpace (ui_ProviderID input)) "").
Qed.

(** The installation that the service finds in the list is the row that the store finds. *)
Lemma service_finds db env n status input : inst_wf db → env_fault env 0 = None → checked_install input = Ok (n, status) →
  ∃ existing, Install_ListByScope json_column db env (ui_ProviderID n) (ui_Scope n) = Ok existing ∧
    match list_find (λ item, EqualFold (TrimSpace (inst_InstallType item)) (ui_InstallType n) = true) existing, findInstallationTx db (input_key n) with
    | Some (_, item), Some r => inst_Status item = inst_Status r
    | None, None => True
    | _, _ => False
    end.
Proof.
  intros Hw Hf (Hp & Hs & Ht & Hne & Hv)%checked_normal. unfold Install_ListByScope. cbv zeta. rewrite Hp, Hs, Hv, Hf.
  destruct (String.eqb_spec (ui_ProviderID n) "") as [|_]; [done|]. eexists. split; [done|]. set (sel := select_rows _ _ db).
  assert (Hsel : ∀ r, r ∈ sel ↔ (∃ id, db !! id = Some r) ∧
    (inst_ProviderID r, inst_ScopeType r, inst_ScopeID r) = (ui_ProviderID n, scope_Type (ui_Scope n), scope_ID (ui_Scope n))).
  { intros r. unfold sel. rewrite elem_of_select_rows, !andb_true_iff, !String.eqb_eq. naive_solver congruence. }
  assert (Htype : ∀ id r, db !! id = Some r → EqualFold (TrimSpace (inst_InstallType (install_toDomain json_column r))) (ui_InstallType n) = true →
    inst_InstallType r = ui_InstallType n).
  { intros id r Hr He. destruct (proj1 Hw _ _ Hr) as (_ & _ & _ & Hl). apply EqualFold_eq in He.
    change (inst_InstallType (install_toDomain _ r)) with (inst_InstallType r) in He. rewrite <-Hl, <-Ht in He. rewrite <-Hl, <-Ht. by rewrite TrimSpace_lowerTrim, !ToLower_lowerTrim in He. }
  destruct (list_find _ _) as [[i item]|] eqn:Hl; destruct (findInstallationTx db (input_key n)) as [r|] eqn:Hr.
  - apply list_find_Some in Hl as (Hi & He & _). rewrite list_lookup_fmap, fmap_Some in Hi. destruct Hi as (r0 & Hi & ->).
    apply list_elem_of_lookup_2, Hsel in Hi as [[id0 H0] Hk]. apply find_Some in Hr as [Hkr [id Hr]].
    assert (id0 = id) as -> by (eapply (proj2 Hw); [done..|]; rewrite Hkr; unfold inst_key, input_key; rewrite (Htype _ _ H0 He); congruence).
    simplify_eq. done.
  - apply list_find_Some in Hl as (Hi & He & _). rewrite list_lookup_fmap, fmap_Some in Hi. destruct Hi as (r0 & Hi & ->).
    apply list_elem_of_lookup_2, Hsel in Hi as [[id0 H0] Hk]. apply (find_None _ _ _ _ Hr H0).
    unfold inst_key, input_key. rewrite (Htype _ _ H0 He). congruence.
  - apply list_find_None in Hl. rewrite Forall_forall in Hl. apply find_Some in Hr as [Hkr [id Hr]].
    apply (Hl (install_toDomain json_column r)).
    + apply list_elem_of_fmap. exists r. split; [done|]. apply Hsel. split; [eauto|]. unfold inst_key, input_key in Hkr. congruence.
    + assert (inst_InstallType r = ui_InstallType n) as He by (unfold inst_key, input_key in Hkr; congruence).
      change (inst_InstallType (install_toDomain _ r)) with (inst_InstallType r). rewrite He, <-Ht, TrimSpace_lowerTrim. apply EqualFold_refl.
  - done.
Qed.

Lemma update_normal db env id status reason target : String.eqb status "" = false → parseInstallationStatus status = Ok target →
  Install_UpdateStatus json_column rfc3339nano db env (TrimSpace id) target (TrimSpace reason) =
  Install_UpdateStatus json_column rfc3339nano db env id status reason.
Proof.
  intros Hst Hp. unfold Install_UpdateStatus, status_read. cbv zeta. rewrite !TrimSpace_idem, blank_TrimSpace, Hst, Hp.
  destruct (parse_known _ _ Hp) as [Hk ->]. assert (String.eqb target "" = false) as ->; [|done].
  apply String.eqb_neq. intros ->. revert Hk. unfold inst_known. set_solver.
Qed.

(** The checks of the service repeat those of the store: over a well-formed table, when the database answers, [UpsertInstallation] succeeds
    exactly when the store's [Upsert] does, with the same installation, and leaves the same table, whatever the input; and the same holds for
    [UpdateInstallationStatus]. *)
Theorem installation_checks_agree db env input id status reason :
  inst_wf db → env_fault (env 0) 0 = None →
  (let svc := UpsertInstallation (store := store) true env db input in
   let sto := Install_Upsert json_column db (env 1) input in
   svc.2 = sto.2 ∧ ∀ r, svc.1 = Ok r ↔ sto.1 = Ok r) ∧
  (let svc := UpdateInstallationStatus (store := store) true env db id status reason in
   let sto := Install_UpdateStatus json_column rfc3339nano db (env 1) id status reason in
   svc.2 = sto.2 ∧ (svc.1 = Ok tt ↔ sto.1 = Ok tt)).
Proof.
  intros Hw Hf. split.
  - unfold UpsertInstallation. cbn [negb]. destruct (checked_install input) as [[n st]|] eqn:Hc; [|unfold Install_Upsert; rewrite Hc; cbn; naive_solver].
    assert (Hsame : Install_Upsert json_column db (env 1) n = Install_Upsert json_column db (env 1) input).
    { unfold Install_Upsert. by rewrite Hc, (checked_again _ _ _ Hc). }
    destruct (service_finds db (env 0) n st input Hw Hf Hc) as (existing & Hl & Hm). cbn [is_ListByScope is_Upsert sql_installations].
    rewrite Hl, Hsame. clear Hsame. unfold Install_Upsert. rewrite Hc.
    destruct (list_find _ existing) as [[i item]|], (findInstallationTx db (input_key n)) as [r|]; try done.
    + pose proof (transition_status item (install_toDomain json_column r) st (env_now (env 0)) (env_now (env 1)) Hm) as Htr.
      destruct (Installation_TransitionTo (Some item) _ _), (Installation_TransitionTo (Some (install_toDomain _ r)) _ _);
        destruct (env_fault (env 1) 0); try (by cbn; naive_solver); try (by naive_solver); destruct (update_installation _ _ _) as [[]]; cbn; naive_solver.
    + destruct (negb _); destruct (env_fault (env 1) 0); try (by cbn; naive_solver); destruct (insert_installation _ _ _) as [[]]; cbn; naive_solver.
  - unfold UpdateInstallationStatus. cbn [negb]. cbv zeta. destruct (String.eqb (TrimSpace id) "" || String.eqb status "") eqn:Hb.
    { unfold Install_UpdateStatus, status_read. cbv zeta. rewrite Hb. cbn. naive_solver. }
    destruct (parseInstallationStatus status) as [target|] eqn:Hp; cycle 1.
    { unfold Install_UpdateStatus, status_read. cbv zeta. rewrite Hb, Hp. cbn. naive_solver. }
    apply orb_false_iff in Hb as [Hid Hst]. cbn [is_Get is_UpdateStatus sql_installations]. rewrite (update_normal db (env 1) id status reason target Hst Hp).
    unfold Install_Get. rewrite Hf, TrimSpace_idem. unfold Install_UpdateStatus, status_read. cbv zeta. rewrite Hid, Hst, Hp. cbn [orb].
    destruct (db !! TrimSpace id) as [r|]; [|destruct (env_fault (env 1) 0); cbn; naive_solver].
    pose proof (transition_status (install_toDomain json_column r) (install_toDomain json_column r) target (env_now (env 0)) (env_now (env 1)) eq_refl) as Htr.
    destruct (Installation_TransitionTo _ target (env_now (env 0))), (Installation_TransitionTo _ target (env_now (env 1)));
      destruct (env_fault (env 1) 0); try (by cbn; naive_solver); unfold status_write; destruct (update_installation _ _ _) as [[]]; cbn; naive_solver.
Qed.
End facts.

(** ** Examples *)

Definition demo_install : UpsertInstallationInput := mkUpsertInst "shopify" (mkScopeRef "Org" "acme") " Marketplace_App" "" None None ∅.
Definition demo_env : nat → CallEnv := λ i, quiet (Z.of_nat (100 + i)) "i1".
Definition demo_installed : InstDB :=
  {["i1" := mkInstallation "i1" "shopify" "org" "acme" "marketplace_app" "active" None None ∅ 101 101]}.
Definition demo_steps (status : string) : InstDB :=
  inst_step (MR := key_order_range) id (λ _, "") demo_env demo_installed (InUpdateStatus "i1" status "owner left").

Example demo_upsert :
  UpsertInstallation (store := sql_installations (MR := key_order_range) id (λ _, "")) true demo_env ∅ demo_install
  = (Ok (mkInstallation "i1" "shopify" "org" "acme" "marketplace_app" "active" None None ∅ 101 101), demo_installed).
Proof. vm_compute. reflexivity. Qed.

Lemma demo_installed_wf : inst_wf demo_installed.
Proof.
  split; [apply map_Forall_singleton; vm_compute; split_and!; [done|repeat constructor|done|done]|].
  intros i j r s. unfold demo_installed. rewrite !lookup_singleton_Some. naive_solver.
Qed.

(** An installation is removed, and the owner asks for it to be active again. *)
Lemma installation_lifecycle_witness :
  ∃ r', inst_step (MR := key_order_range) id (λ _, "") demo_env (demo_steps "uninstalled") (InUpsert demo_install) !! "i1" = Some r' ∧
    inst_identity r' = ("i1", ("shopify", "org", "acme", "marketplace_app"), 101%Z) ∧
    rtc inst_allowed InstallationStatusActive (inst_Status r').
Proof.
  destruct (installation_lifecycle (MR := key_order_range) id (λ _, "") demo_installed
    (inst_step (MR := key_order_range) id (λ _, "") demo_env (demo_steps "uninstalled") (InUpsert demo_install))) as (_ & _ & H).
  - exact demo_installed_wf.
  - apply (inst_cons _ _ demo_env _ (InUpdateStatus "i1" "uninstalled" "owner left")).
    apply (inst_cons _ _ demo_env _ (InUpsert demo_install)), inst_nil.
  - destruct (H "i1" _ eq_refl) as (r' & Hr & Hid & Hs & _). by exists r'.
Defined.

Lemma installation_checks_agree_witness :
  (UpsertInstallation (store := sql_installations (MR := key_order_range) id (λ _, "")) true demo_env demo_installed demo_install).2
  = (Install_Upsert (MR := key_order_range) id demo_installed (demo_env 1) demo_install).2.
Proof.
  apply (installation_checks_agree (MR := key_order_range) id (λ _, "") demo_installed demo_env demo_install "" "" "");
    [exact demo_installed_wf|reflexivity].
Defined.

(** [UpdateStatus] reads and writes without a transaction: a suspension that was decided before the installation was removed brings it back. *)
Example update_race_reopens :
  let env := demo_env 0 in
  match status_read id (λ _, "") demo_installed env "i1" "suspended" "" with
  | Ok row => (λ r, inst_Status r) <$> (status_write (demo_steps "uninstalled") env row).2 !! "i1" = Some "suspended"
  | Fail _ => False
  end.
Proof. vm_compute. reflexivity. Qed.

(** A status of blanks passes the check for a missing status and is read as "active". *)
Example blank_status_activates :
  (λ r, inst_Status r) <$> inst_step (MR := key_order_range) id (λ _, "") demo_env (demo_steps "suspended") (InUpdateStatus "i1" " " "") !! "i1"
  = Some "active".
Proof. vm_compute. reflexivity. Qed.
