(* ===== verification/Subscriptions.v ===== *)
(** * Subscriptions (src/core/service_subscriptions.go, src/store/sql/subscription_store.go)

    The table of webhook subscriptions, its store, and the three operations of the service over it.  A subscription is identified at the
    provider by its channel; the schema has a unique index over the provider and channel of the rows that are not deleted.  The transaction of
    [Upsert] is one step, and so is the read and write of [UpdateState].  What the provider answers is an argument. *)

From S2P Require Import Prelude GoStrings GoValues Domain OAuthState Contracts Permissions ServiceTypes Grants Refresh Connections Credentials.
From S2P Require Import Service.
From Stdlib Require Import ZArith String Lia.
From stdpp Require Import base decidable list gmap strings.

Local Open Scope string_scope.
Local Open Scope nat_scope.
Local Open Scope list_scope.

(** ** Requests and rows *)

Record SubscribeRequest := mkSubscribe {
  sq_ConnectionID : string; sq_ResourceType : string; sq_ResourceID : string; sq_CallbackURL : string; sq_Metadata : gmap string value }.
Record RenewSubscriptionRequest := mkRenew { rn_SubscriptionID : string; rn_Metadata : gmap string value }.
Record CancelSubscriptionRequest := mkCancel { cn_SubscriptionID : string; cn_Reason : string }.
Record SubscriptionResult := mkSubResult {
  sres_ChannelID : string; sres_RemoteSubscriptionID : string; sres_ExpiresAt : option Time; sres_Metadata : gmap string value }.
Record UpsertSubscriptionInput := mkUpsertSub {
  us_ConnectionID : string; us_ProviderID : string; us_ResourceType : string; us_ResourceID : string; us_ChannelID : string;
  us_RemoteSubscriptionID : string; us_CallbackURL : string; us_VerificationTokenRef : string; us_Status : string; us_ExpiresAt : option Time;
  us_Metadata : gmap string value }.
Record SubscribableProvider := mkSubscribable {
  sp_Subscribe : SubscribeRequest → outcome string SubscriptionResult;
  sp_RenewSubscription : RenewSubscriptionRequest → outcome string SubscriptionResult;
  sp_CancelSubscription : CancelSubscriptionRequest → option string }.

Record subscriptionRecord := mkSubRow {
  sr_ID : string; sr_ConnectionID : string; sr_ProviderID : string; sr_ResourceType : string; sr_ResourceID : string; sr_ChannelID : string;
  sr_RemoteSubscriptionID : string; sr_CallbackURL : string; sr_VerificationTokenRef : string; sr_Status : string; sr_ExpiresAt : option Time;
  sr_Metadata : gmap string value; sr_LastNotifiedAt : option Time; sr_CreatedAt : Time; sr_UpdatedAt : Time; sr_DeletedAt : option Time }.
Abbreviation SubDB := (gmap string subscriptionRecord).

Inductive sub_error :=
| SuErrRequired (text : string) | SuErrNotFound (id : string) | SuErrChannelNotFound (providerID channelID : string) | SuErrUnique
| SuErrDB (cause : string).

(** ** The store *)

Section store.
Context {MR : MapRange}.
(** What a JSON column reads back, and [Time.Format(time.RFC3339Nano)]. *)
Variable json_column : gmap string value → gmap string value.
Variable rfc3339nano : Time → string.

Definition newSubscriptionRecord (uuid : string) (n : UpsertSubscriptionInput) (now : Time) : subscriptionRecord :=
  mkSubRow uuid (us_ConnectionID n) (us_ProviderID n) (us_ResourceType n) (us_ResourceID n) (us_ChannelID n) (us_RemoteSubscriptionID n)
    (us_CallbackURL n) (us_VerificationTokenRef n) (us_Status n) (us_ExpiresAt n) (copyAnyMap (us_Metadata n)) None now now None.
Definition sub_toDomain (r : subscriptionRecord) : Subscription :=
  mkSubscription (sr_ID r) (sr_ConnectionID r) (sr_ProviderID r) (sr_ResourceType r) (sr_ResourceID r) (sr_ChannelID r)
    (sr_RemoteSubscriptionID r) (sr_CallbackURL r) (sr_VerificationTokenRef r) (sr_Status r)
    (match sr_ExpiresAt r with Some t => t | None => zeroTime end) (copyAnyMap (sr_Metadata r)) (sr_CreatedAt r) (sr_UpdatedAt r).
(** A row as a query returns it. *)
Definition sub_read (r : subscriptionRecord) : subscriptionRecord :=
  mkSubRow (sr_ID r) (sr_ConnectionID r) (sr_ProviderID r) (sr_ResourceType r) (sr_ResourceID r) (sr_ChannelID r) (sr_RemoteSubscriptionID r)
    (sr_CallbackURL r) (sr_VerificationTokenRef r) (sr_Status r) (sr_ExpiresAt r) (json_column (sr_Metadata r)) (sr_LastNotifiedAt r)
    (sr_CreatedAt r) (sr_UpdatedAt r) (sr_DeletedAt r).

Definition live (r : subscriptionRecord) : bool := bool_decide (sr_DeletedAt r = None).
Definition on_channel (providerID channelID : string) (r : subscriptionRecord) : bool :=
  live r && String.eqb (sr_ProviderID r) providerID && String.eqb (sr_ChannelID r) channelID.
Definition newer_sub (a b : subscriptionRecord) : bool := (sr_UpdatedAt b <? sr_UpdatedAt a)%Z.
(** A row without an id counts as none. *)
Definition findByProviderChannelTx (db : SubDB) (providerID channelID : string) : option subscriptionRecord :=
  match head (select_rows newer_sub (on_channel (TrimSpace providerID) (TrimSpace channelID)) db) with
  | Some r => if blank (sr_ID r) then None else Some r
  | None => None
  end.

Definition trimmed_sub (input : UpsertSubscriptionInput) : UpsertSubscriptionInput :=
  mkUpsertSub (TrimSpace (us_ConnectionID input)) (TrimSpace (us_ProviderID input)) (TrimSpace (us_ResourceType input))
    (TrimSpace (us_ResourceID input)) (TrimSpace (us_ChannelID input)) (TrimSpace (us_RemoteSubscriptionID input))
    (TrimSpace (us_CallbackURL input)) (TrimSpace (us_VerificationTokenRef input))
    (if blank (us_Status input) then SubscriptionStatusActive else us_Status input) (us_ExpiresAt input) (us_Metadata input).
Definition sub_checks (n : UpsertSubscriptionInput) : option sub_error :=
  if String.eqb (us_ConnectionID n) "" || String.eqb (us_ProviderID n) "" then Some (SuErrRequired "connection id and provider id")
  else if String.eqb (us_ResourceType n) "" || String.eqb (us_ResourceID n) "" then Some (SuErrRequired "resource type and resource id")
  else if String.eqb (us_ChannelID n) "" then Some (SuErrRequired "channel id")
  else if String.eqb (us_CallbackURL n) "" then Some (SuErrRequired "callback url")
  else None.

Definition sub_updated (r : subscriptionRecord) (n : UpsertSubscriptionInput) (now : Time) : subscriptionRecord :=
  mkSubRow (sr_ID r) (us_ConnectionID n) (us_ProviderID n) (us_ResourceType n) (us_ResourceID n) (us_ChannelID n) (us_RemoteSubscriptionID n)
    (us_CallbackURL n) (us_VerificationTokenRef n) (us_Status n) (us_ExpiresAt n) (copyAnyMap (us_Metadata n)) (sr_LastNotifiedAt r)
    (sr_CreatedAt r) now None.

(** The unique index, and the two writes of the transaction. *)
Definition channel_clash (db : SubDB) (row : subscriptionRecord) : bool :=
  existsb (λ p, negb (String.eqb p.1 (sr_ID row)) && on_channel (sr_ProviderID row) (sr_ChannelID row) p.2) (map_to_list db).
Definition write_sub (db : SubDB) (env : CallEnv) (fresh : bool) (row : subscriptionRecord) : outcome sub_error Subscription * SubDB :=
  match env_fault env 1 with
  | Some cause => (Fail (SuErrDB cause), db)
  | None => if channel_clash db row || fresh && bool_decide (is_Some (db !! sr_ID row)) then (Fail SuErrUnique, db)
            else (Ok (sub_toDomain row), <[sr_ID row := row]> db)
  end.

Definition Sub_Upsert (db : SubDB) (env : CallEnv) (input : UpsertSubscriptionInput) : outcome sub_error Subscription * SubDB :=
  let n := trimmed_sub input in
  match sub_checks n with
  | Some e => (Fail e, db)
  | None =>
    match env_fault env 0 with
    | Some cause => (Fail (SuErrDB cause), db)
    | None =>
      match findByProviderChannelTx db (us_ProviderID n) (us_ChannelID n) with
      | None => write_sub db env true (newSubscriptionRecord (env_uuid env) n (env_now env))
      | Some existing => write_sub db env false (sub_updated existing n (env_now env))
      end
    end
  end.

(** [GetByID] does not see deleted rows. *)
Definition sub_by_id (db : SubDB) (id : string) : option subscriptionRecord :=
  match db !! id with Some r => if live r then Some (sub_read r) else None | None => None end.
Definition Sub_Get (db : SubDB) (env : CallEnv) (id : string) : outcome sub_error Subscription :=
  match env_fault env 0 with
  | Some cause => Fail (SuErrDB cause)
  | None => match sub_by_id db (TrimSpace id) with Some r => Ok (sub_toDomain r) | None => Fail (SuErrNotFound (TrimSpace id)) end
  end.

Definition Sub_GetByChannelID (db : SubDB) (env : CallEnv) (providerID channelID : string) : outcome sub_error Subscription :=
  match env_fault env 0 with
  | Some cause => Fail (SuErrDB cause)
  | None => match head (select_rows newer_sub (on_channel (TrimSpace providerID) (TrimSpace channelID)) db) with
            | Some r => Ok (sub_toDomain (sub_read r))
            | None => Fail (SuErrChannelNotFound providerID channelID)
            end
  end.

Definition expires_by (before : Time) (r : subscriptionRecord) : bool :=
  String.eqb (sr_Status r) SubscriptionStatusActive && live r && match sr_ExpiresAt r with Some t => (t <=? before)%Z | None => false end.
Definition sooner (a b : subscriptionRecord) : bool :=
  match sr_ExpiresAt a, sr_ExpiresAt b with Some s, Some t => (s <? t)%Z | _, _ => false end.
Definition Sub_ListExpiring (db : SubDB) (env : CallEnv) (before : Time) : outcome sub_error (list Subscription) :=
  match env_fault env 0 with
  | Some cause => Fail (SuErrDB cause)
  | None => Ok ((λ r, sub_toDomain (sub_read r)) <$> select_rows sooner (expires_by before) db)
  end.

Definition sub_state (r : subscriptionRecord) (status : string) (m : gmap string value) (now : Time) : subscriptionRecord :=
  mkSubRow (sr_ID r) (sr_ConnectionID r) (sr_ProviderID r) (sr_ResourceType r) (sr_ResourceID r) (sr_ChannelID r) (sr_RemoteSubscriptionID r)
    (sr_CallbackURL r) (sr_VerificationTokenRef r) status (sr_ExpiresAt r) m (sr_LastNotifiedAt r) (sr_CreatedAt r) now (sr_DeletedAt r).
Definition reason_metadata (m : gmap string value) (reason : string) (now : Time) : gmap string value :=
  let m := copyAnyMap m in
  if blank reason then m
  else <["status_reason_at" := VString (rfc3339nano now)]> (<["status_reason" := VString (TrimSpace reason)]> m).
Definition Sub_UpdateState (db : SubDB) (env : CallEnv) (id status reason : string) : outcome sub_error unit * SubDB :=
  let trimmedID := TrimSpace id in
  if String.eqb trimmedID "" then (Fail (SuErrRequired "subscription id"), db)
  else match env_fault env 0 with
  | Some cause => (Fail (SuErrDB cause), db)
  | None =>
    match sub_by_id db trimmedID with
    | None => (Fail (SuErrNotFound trimmedID), db)
    | Some r =>
      match env_fault env 1 with
      | Some cause => (Fail (SuErrDB cause), db)
      | None => (Ok tt, <[trimmedID := sub_state r (TrimSpace status) (reason_metadata (sr_Metadata r) reason (env_now env)) (env_now env)]> db)
      end
    end
  end.
End store.

(** ** The service *)

Class SubscriptionStore (X U : Type) := {
  ss_Upsert : U → CallEnv → UpsertSubscriptionInput → outcome X Subscription * U;
  ss_Get : U → CallEnv → string → outcome X Subscription;
  ss_GetByChannelID : U → CallEnv → string → string → outcome X Subscription;
  ss_ListExpiring : U → CallEnv → Time → outcome X (list Subscription);
  ss_UpdateState : U → CallEnv → string → string → string → outcome X unit * U }.

Inductive sub_service_error (E X : Type) :=
| SuSvcNoStore | SuSvcRequired (text : string) | SuSvcConnection (e : E) | SuSvcProvider (e : service_error E)
| SuSvcNotSubscribable (providerID : string) | SuSvcRemote (cause : string) | SuSvcStore (e : X).
Arguments SuSvcNoStore {E X}.
Arguments SuSvcRequired {E X} text.
Arguments SuSvcConnection {E X} e.
Arguments SuSvcProvider {E X} e.
Arguments SuSvcNotSubscribable {E X} providerID.
Arguments SuSvcRemote {E X} cause.
Arguments SuSvcStore {E X} e.

(** [mergeAnyMap]: the right map wins, and a merge that is not empty is dated. *)
Definition mergeAnyMap (rfc3339nano : Time → string) (left right : gmap string value) (now : Time) : gmap string value :=
  if bool_decide (left = ∅) && bool_decide (right = ∅) then ∅
  else let merged := right ∪ left in
       match merged !! "renewed_at" with
       | Some _ => merged
       | None => <["renewed_at" := VString (rfc3339nano now)]> merged
       end.

Section service.
Context {E W O X U : Type} {conns : ConnectionStore E W} {subs : SubscriptionStore X U}.
(** The provider as a [SubscribableProvider], if it is one. *)
Variable subscribable : Provider → option SubscribableProvider.
Variable rfc3339nano : Time → string.
Abbreviation Svc := (Service (E := E) (W := W)).
Abbreviation err := (sub_service_error E X).

Definition subscribable_provider (v : Svc) (st : SvcState W O) (providerID : string) : outcome err SubscribableProvider :=
  match (resolveProvider v providerID st).1 with
  | Fail e => Fail (SuSvcProvider e)
  | Ok provider => match subscribable provider with
                   | None => Fail (SuSvcNotSubscribable providerID)
                   | Some p => Ok p
                   end
  end.
Definition stored {A : Type} (r : outcome X A * U) : outcome err A * U :=
  (match r.1 with Ok a => Ok a | Fail e => Fail (SuSvcStore e) end, r.2).

(** [env 0] is the read of the connection, [env 1] the write. *)
Definition Subscribe (v : Svc) (configured : bool) (env : nat → CallEnv) (st : SvcState W O) (u : U) (req : SubscribeRequest)
    : outcome err Subscription * U :=
  if negb (svc_connectionStore v) || negb configured then (Fail SuSvcNoStore, u)
  else
    let connectionID := TrimSpace (sq_ConnectionID req) in
    if String.eqb connectionID "" then (Fail (SuSvcRequired "connection id"), u)
    else if blank (sq_ResourceType req) then (Fail (SuSvcRequired "resource type"), u)
    else if blank (sq_ResourceID req) then (Fail (SuSvcRequired "resource id"), u)
    else if blank (sq_CallbackURL req) then (Fail (SuSvcRequired "callback url"), u)
    else match cs_Get (s_db st) (env 0) connectionID with
    | Fail e => (Fail (SuSvcConnection e), u)
    | Ok connection =>
      match subscribable_provider v st (conn_ProviderID connection) with
      | Fail e => (Fail e, u)
      | Ok p =>
        match sp_Subscribe p (mkSubscribe connectionID (sq_ResourceType req) (sq_ResourceID req) (sq_CallbackURL req) (sq_Metadata req)) with
        | Fail cause => (Fail (SuSvcRemote cause), u)
        | Ok result =>
          stored (ss_Upsert u (env 1) (mkUpsertSub (conn_ID connection) (conn_ProviderID connection) (TrimSpace (sq_ResourceType req))
            (TrimSpace (sq_ResourceID req)) (TrimSpace (sres_ChannelID result)) (TrimSpace (sres_RemoteSubscriptionID result))
            (TrimSpace (sq_CallbackURL req)) "" SubscriptionStatusActive (sres_ExpiresAt result) (copyAnyMap (sres_Metadata result))))
        end
      end
    end.

(** What a renewal stores: the provider's answer, completed by the subscription as it was. *)
Definition renewed_input (existing : Subscription) (result : SubscriptionResult) (now : Time) : UpsertSubscriptionInput :=
  mkUpsertSub (sub_ConnectionID existing) (sub_ProviderID existing) (sub_ResourceType existing) (sub_ResourceID existing)
    (if blank (sres_ChannelID result) then sub_ChannelID existing else TrimSpace (sres_ChannelID result))
    (if blank (sres_RemoteSubscriptionID result) then sub_RemoteSubscriptionID existing else TrimSpace (sres_RemoteSubscriptionID result))
    (sub_CallbackURL existing) (sub_VerificationTokenRef existing) SubscriptionStatusActive
    (match sres_ExpiresAt result with
     | Some t => Some t
     | None => if IsZero (sub_ExpiresAt existing) then None else Some (sub_ExpiresAt existing)
     end)
    (mergeAnyMap rfc3339nano (sub_Metadata existing) (sres_Metadata result) now).

(** [env 0] is the read, [env 1] the write. *)
Definition RenewSubscription (v : Svc) (configured : bool) (env : nat → CallEnv) (st : SvcState W O) (u : U) (req : RenewSubscriptionRequest)
    : outcome err Subscription * U :=
  if negb configured then (Fail SuSvcNoStore, u)
  else if blank (rn_SubscriptionID req) then (Fail (SuSvcRequired "subscription id"), u)
  else match ss_Get u (env 0) (TrimSpace (rn_SubscriptionID req)) with
  | Fail e => (Fail (SuSvcStore e), u)
  | Ok existing =>
    match subscribable_provider v st (sub_ProviderID existing) with
    | Fail e => (Fail e, u)
    | Ok p =>
      match sp_RenewSubscription p req with
      | Fail cause => (Fail (SuSvcRemote cause), (ss_UpdateState u (env 1) (sub_ID existing) SubscriptionStatusErrored cause).2)
      | Ok result => stored (ss_Upsert u (env 1) (renewed_input existing result (env_now (env 1))))
      end
    end
  end.

Definition CancelSubscription (v : Svc) (configured : bool) (env : nat → CallEnv) (st : SvcState W O) (u : U) (req : CancelSubscriptionRequest)
    : outcome err unit * U :=
  if negb configured then (Fail SuSvcNoStore, u)
  else if blank (cn_SubscriptionID req) then (Fail (SuSvcRequired "subscription id"), u)
  else
    let subscriptionID := TrimSpace (cn_SubscriptionID req) in
    let reason := if blank (cn_Reason req) then "cancelled" else TrimSpace (cn_Reason req) in
    match ss_Get u (env 0) subscriptionID with
    | Fail e => (Fail (SuSvcStore e), u)
    | Ok existing =>
      match subscribable_provider v st (sub_ProviderID existing) with
      | Fail e => (Fail e, u)
      | Ok p =>
        match sp_CancelSubscription p (mkCancel subscriptionID reason) with
        | Some cause => (Fail (SuSvcRemote cause), (ss_UpdateState u (env 1) (sub_ID existing) SubscriptionStatusErrored cause).2)
        | None => stored (ss_UpdateState u (env 1) (sub_ID existing) SubscriptionStatusCancelled reason)
        end
      end
    end.
End service.

Definition sql_subscriptions {MR : MapRange} (json_column : gmap string value → gmap string value) (rfc3339nano : Time → string)
    : SubscriptionStore sub_error SubDB :=
  {| ss_Upsert := Sub_Upsert; ss_Get := Sub_Get json_column; ss_GetByChannelID := Sub_GetByChannelID json_column;
     ss_ListExpiring := Sub_ListExpiring json_column; ss_UpdateState := Sub_UpdateState json_column rfc3339nano |}.

(** ** The rows *)

(** The row as an input of [Upsert], and what a history of operations keeps of it. *)
Definition sub_input (r : subscriptionRecord) : UpsertSubscriptionInput :=
  mkUpsertSub (sr_ConnectionID r) (sr_ProviderID r) (sr_ResourceType r) (sr_ResourceID r) (sr_ChannelID r) (sr_RemoteSubscriptionID r)
    (sr_CallbackURL r) (sr_VerificationTokenRef r) (sr_Status r) (sr_ExpiresAt r) (sr_Metadata r).
Definition sub_identity (r : subscriptionRecord) : string * string * string * Time := (sr_ID r, sr_ProviderID r, sr_ChannelID r, sr_CreatedAt r).

Definition sub_row_ok (id : string) (r : subscriptionRecord) : Prop :=
  sr_ID r = id ∧ TrimSpace id = id ∧ id ≠ "" ∧ sr_Status r ∈ subscriptionTransitions.*1 ∧
  trimmed_sub (sub_input r) = sub_input r ∧ sub_checks (sub_input r) = None.
Definition sub_wf (db : SubDB) : Prop :=
  map_Forall sub_row_ok db ∧
  ∀ i j r s, db !! i = Some r → db !! j = Some s → on_channel (sr_ProviderID r) (sr_ChannelID r) s = true → live r = true → i = j.
Definition sub_evolves (db db' : SubDB) : Prop :=
  sub_wf db' ∧ ∀ id r, db !! id = Some r → ∃ r', db' !! id = Some r' ∧ sub_identity r' = sub_identity r ∧ live r' = live r.

Lemma sub_evolves_refl db : sub_wf db → sub_evolves db db.
Proof. intros H. split; [done|]. intros id r Hr. by exists r. Qed.
Lemma sub_evolves_trans a b c : sub_evolves a b → sub_evolves b c → sub_evolves a c.
Proof.
  intros [_ H1] [H H2]. split; [done|]. intros id r Hr. destruct (H1 id r Hr) as (r2 & Hr2 & F & L). destruct (H2 id r2 Hr2) as (r3 & ? & F' & L').
  exists r3. split_and!; [done|congruence..].
Qed.

Lemma on_channel_true p c r : on_channel p c r = true ↔ live r = true ∧ sr_ProviderID r = p ∧ sr_ChannelID r = c.
Proof. unfold on_channel. rewrite !andb_true_iff, !String.eqb_eq. tauto. Qed.

Lemma channel_clash_false db row :
  channel_clash db row = false ↔ ∀ id r, db !! id = Some r → id ≠ sr_ID row → on_channel (sr_ProviderID row) (sr_ChannelID row) r = false.
Proof.
  unfold channel_clash. rewrite <-not_true_iff_false, existsb_exists. split.
  - intros H id r Hr Hne. apply not_true_iff_false. intros Hc. apply H. exists (id, r).
    split; [by apply list_elem_of_In, elem_of_map_to_list|]. cbn. rewrite Hc, andb_true_r. by apply negb_true_iff, String.eqb_neq.
  - intros H ([id r] & Hr%list_elem_of_In%elem_of_map_to_list & [Hne Hc]%andb_true_iff). cbn in *.
    apply negb_true_iff, String.eqb_neq in Hne. by rewrite (H id r) in Hc.
Qed.

(** A write of a row that stays, or of a new one, keeps the table well-formed. *)
Lemma write_sub_evolves db env fresh row : sub_wf db → sub_row_ok (sr_ID row) row → live row = true →
  (fresh = false → ∃ r, db !! sr_ID row = Some r ∧ sub_identity r = sub_identity row ∧ live r = true) →
  sub_evolves db (write_sub db env fresh row).2.
Proof.
  intros [Hw Hu] Hrow Hl Hold. unfold write_sub. destruct (env_fault env 1); [by apply sub_evolves_refl|].
  destruct (channel_clash db row) eqn:Hc; [by apply sub_evolves_refl|]. rewrite channel_clash_false in Hc.
  destruct (fresh && _) eqn:Hf; [by apply sub_evolves_refl|]. cbn [orb snd]. split; [split; [by apply map_Forall_insert_2|]|].
  - intros i j r s. rewrite !lookup_insert_Some. intros [[<- <-]|[Hi Hr]] [[<- <-]|[Hj Hs]] Ho Hlr; [done| | |by eapply Hu].
    + by rewrite (Hc j s) in Ho.
    + apply on_channel_true in Ho as (_ & Hp & Hch). enough (on_channel (sr_ProviderID row) (sr_ChannelID row) r = false); [|by eapply Hc].
      assert (on_channel (sr_ProviderID row) (sr_ChannelID row) r = true) by (by apply on_channel_true). congruence.
  - intros id r Hr. destruct (decide (id = sr_ID row)) as [->|Hne]; [|rewrite lookup_insert_ne by done; by exists r].
    rewrite lookup_insert_eq. exists row. split; [done|]. destruct fresh.
    + cbn in Hf. rewrite bool_decide_eq_false in Hf. by rewrite Hr in Hf; destruct Hf.
    + destruct (Hold eq_refl) as (r0 & Hr0 & Hid & Hl0). rewrite Hr in Hr0. injection Hr0 as <-. by rewrite Hid, Hl, Hl0.
Qed.

(** Reduces the projections of rows and inputs, and nothing else. *)
Ltac sub_fields :=
  cbn [us_ConnectionID us_ProviderID us_ResourceType us_ResourceID us_ChannelID us_RemoteSubscriptionID us_CallbackURL us_VerificationTokenRef us_Status us_ExpiresAt us_Metadata
    sr_ID sr_ConnectionID sr_ProviderID sr_ResourceType sr_ResourceID sr_ChannelID sr_RemoteSubscriptionID sr_CallbackURL sr_VerificationTokenRef sr_Status sr_ExpiresAt sr_Metadata sr_LastNotifiedAt sr_CreatedAt sr_UpdatedAt sr_DeletedAt
    sub_input sub_state sub_read sub_updated trimmed_sub newSubscriptionRecord] in *.

Lemma trimmed_twice n : trimmed_sub (trimmed_sub n) = trimmed_sub n.
Proof.
  unfold trimmed_sub. sub_fields. rewrite !TrimSpace_idem. f_equal. by destruct (blank (us_Status n)) eqn:H; [|rewrite H].
Qed.

Section facts.
Context {MR : MapRange}.
Variable json_column : gmap string value → gmap string value.
Variable rfc3339nano : Time → string.

Lemma findByProviderChannel_Some db p c r : sub_wf db → findByProviderChannelTx db p c = Some r →
  db !! sr_ID r = Some r ∧ live r = true ∧ sr_ProviderID r = TrimSpace p ∧ sr_ChannelID r = TrimSpace c.
Proof.
  intros [Hw _]. unfold findByProviderChannelTx. destruct (head _) as [r0|] eqn:Hh; [|done]. destruct (blank _); [done|]. intros [= ->].
  apply head_select_Some in Hh as [Hc [id Hr]]. apply on_channel_true in Hc. destruct (Hw id r Hr) as [-> _]. tauto.
Qed.

Lemma sub_upsert_evolves db env input : sub_wf db → TrimSpace (env_uuid env) = env_uuid env → env_uuid env ≠ "" →
  us_Status input = SubscriptionStatusActive → sub_evolves db (Sub_Upsert db env input).2.
Proof.
  intros Hw Ht Hne Hst. unfold Sub_Upsert. destruct (sub_checks (trimmed_sub input)) eqn:Hc; [by apply sub_evolves_refl|].
  destruct (env_fault env 0); [by apply sub_evolves_refl|]. pose proof (trimmed_twice input) as Htw.
  assert (Hs : us_Status (trimmed_sub input) = SubscriptionStatusActive) by (unfold trimmed_sub; cbn [us_Status]; by rewrite Hst).
  destruct (findByProviderChannelTx db _ _) as [r|] eqn:Hf.
  - apply findByProviderChannel_Some in Hf as (Hr & Hl & Hp & Hch); [|done]. destruct (proj1 Hw _ _ Hr) as (_ & Ht' & Hne' & _).
    apply write_sub_evolves; [done| |done|].
    + split_and!; [done..|change (us_Status (trimmed_sub input) ∈ subscriptionTransitions.*1); rewrite Hs; apply list_elem_of_In; simpl; auto| |done]. exact Htw.
    + intros _. exists r. split_and!; [done| |done]. unfold sub_identity. rewrite Hp, Hch. sub_fields. by rewrite !TrimSpace_idem.
  - apply write_sub_evolves; [done| |done|done].
    split_and!; [done..|change (us_Status (trimmed_sub input) ∈ subscriptionTransitions.*1); rewrite Hs; apply list_elem_of_In; simpl; auto| |done]. exact Htw.
Qed.

Lemma sub_by_id_Some db id r : sub_by_id json_column db id = Some r → ∃ r0, db !! id = Some r0 ∧ live r0 = true ∧ r = sub_read json_column r0.
Proof. unfold sub_by_id. destruct (db !! id) as [r0|]; [|done]. destruct (live r0) eqn:Hl; [|done]. intros [= <-]. eauto. Qed.

Lemma sub_state_evolves db env id status reason : sub_wf db → status ∈ subscriptionTransitions.*1 →
  sub_evolves db (Sub_UpdateState json_column rfc3339nano db env id status reason).2.
Proof.
  intros Hw Hs. unfold Sub_UpdateState. cbv zeta. destruct (String.eqb _ ""); [by apply sub_evolves_refl|].
  destruct (env_fault env 0); [by apply sub_evolves_refl|]. destruct (sub_by_id _ _ _) as [r|] eqn:Hg; [|by apply sub_evolves_refl].
  apply sub_by_id_Some in Hg as (r0 & Hr & Hl & ->). destruct (env_fault env 1); [by apply sub_evolves_refl|]. cbn [snd].
  assert (Htr : TrimSpace status = status ∧ blank status = false).
  { apply list_elem_of_In in Hs. simpl in Hs. by destruct Hs as [<-|[<-|[<-|[<-|[]]]]]. }
  destruct Htr as [-> Hb]. destruct Hw as [Hw Hu]. destruct (Hw _ _ Hr) as (Hid & Ht & Hne & _ & Htrim & Hc). split; [split|].
  - apply map_Forall_insert_2; [|done]. split_and!; [done..| |done]. unfold trimmed_sub, sub_input in *. sub_fields. rewrite Hb.
    injection Htrim as H1 H2 H3 H4 H5 H6 H7 H8 _. by rewrite H1, H2, H3, H4, H5, H6, H7, H8.
  - intros i j r s. rewrite !lookup_insert_Some. intros [[<- <-]|[Hi Hr']] [[<- <-]|[Hj Hs']] Ho Hlr; [done| | |by eapply Hu].
    + by apply (Hu _ _ _ _ Hr Hs').
    + apply (Hu _ _ _ _ Hr' Hr); [|done]. by apply on_channel_true in Ho as (_ & ? & ?); apply on_channel_true.
  - intros i r Hr'. destruct (decide (i = TrimSpace id)) as [->|Hn]; [|rewrite lookup_insert_ne by done; by exists r].
    rewrite lookup_insert_eq. simplify_eq. eexists. split; [done|]. by split.
Qed.

Abbreviation store := (sql_subscriptions json_column rfc3339nano).

(** ** Histories of service calls *)

Inductive sub_op := SoSubscribe (req : SubscribeRequest) | SoRenew (req : RenewSubscriptionRequest) | SoCancel (req : CancelSubscriptionRequest).

Context {E W O : Type} {conns : ConnectionStore E W}.
Variable v : Service (E := E) (W := W).

Definition sub_step (subscribable : Provider → option SubscribableProvider) (env : nat → CallEnv) (st : SvcState W O) (db : SubDB) (op : sub_op) : SubDB :=
  match op with
  | SoSubscribe req => (Subscribe (subs := store) subscribable v true env st db req).2
  | SoRenew req => (RenewSubscription (subs := store) subscribable rfc3339nano v true env st db req).2
  | SoCancel req => (CancelSubscription (subs := store) subscribable v true env st db req).2
  end.
(** In every call the providers may answer something else, the connections may be others and any statement may fail. *)
Inductive sub_history : SubDB → SubDB → Prop :=
| sub_nil db : sub_history db db
| sub_cons subscribable env st db op db' :
    TrimSpace (env_uuid (env 1)) = env_uuid (env 1) → env_uuid (env 1) ≠ "" →
    sub_history (sub_step subscribable env st db op) db' → sub_history db db'.

Lemma sub_step_evolves subscribable env st db op : sub_wf db → TrimSpace (env_uuid (env 1)) = env_uuid (env 1) → env_uuid (env 1) ≠ "" →
  sub_evolves db (sub_step subscribable env st db op).
Proof.
  intros Hw Ht Hne. destruct op as [req|req|req]; cbn [sub_step].
  - unfold Subscribe. destruct (_ || _); [by apply sub_evolves_refl|]. cbv zeta.
    destruct (String.eqb _ ""), (blank (sq_ResourceType req)), (blank (sq_ResourceID req)), (blank (sq_CallbackURL req));
      try (by apply sub_evolves_refl). destruct (cs_Get _ _ _) as [c|]; [|by apply sub_evolves_refl].
    destruct (subscribable_provider _ _ _ _) as [p|]; [|by apply sub_evolves_refl]. destruct (sp_Subscribe _ _); [|by apply sub_evolves_refl].
    by apply sub_upsert_evolves.
  - unfold RenewSubscription. cbn [negb]. destruct (blank _); [by apply sub_evolves_refl|]. destruct (ss_Get _ _ _); [|by apply sub_evolves_refl].
    destruct (subscribable_provider _ _ _ _) as [p|]; [|by apply sub_evolves_refl]. destruct (sp_RenewSubscription _ _).
    + by apply sub_upsert_evolves.
    + apply sub_state_evolves; [done|]. apply list_elem_of_In. simpl. auto.
  - unfold CancelSubscription. cbn [negb]. cbv zeta. destruct (blank _); [by apply sub_evolves_refl|].
    destruct (ss_Get _ _ _); [|by apply sub_evolves_refl]. destruct (subscribable_provider _ _ _ _) as [p|]; [|by apply sub_evolves_refl].
    destruct (sp_CancelSubscription _ _); (apply sub_state_evolves; [done|]; apply list_elem_of_In; simpl; auto).
Qed.

(** Over every history of subscribe, renew and cancel calls, whatever the providers answer and whatever fails, no two subscriptions of a
    provider share a channel, every subscription is complete (its texts trimmed, none of the required ones empty, its status one of the domain), and a
    subscription that exists stays, with its id, its provider, its channel and its creation time. *)
Theorem subscriptions_consistent db db' :
  sub_wf db → sub_history db db' →
  sub_wf db' ∧ ∀ id r, db !! id = Some r → ∃ r', db' !! id = Some r' ∧ sub_identity r' = sub_identity r ∧ live r' = live r.
Proof.
  intros Hw Hh. revert Hw. induction Hh as [db|subscribable env st db op db' Ht Hne _ IH]; intros Hw; [by apply sub_evolves_refl|].
  pose proof (sub_step_evolves subscribable env st db op Hw Ht Hne) as Hs. eapply sub_evolves_trans; [exact Hs|]. apply IH, Hs.
Qed.

(** ** Renewal *)

(** The row of a channel is the one the store finds. *)
Lemma findByProviderChannel_row db r : sub_wf db → db !! sr_ID r = Some r → live r = true →
  findByProviderChannelTx db (sr_ProviderID r) (sr_ChannelID r) = Some r.
Proof.
  intros Hw Hr Hl. destruct (proj1 Hw _ _ Hr) as (_ & Ht & Hne & _ & Htrim & _).
  assert (Hpc : TrimSpace (sr_ProviderID r) = sr_ProviderID r ∧ TrimSpace (sr_ChannelID r) = sr_ChannelID r).
  { unfold trimmed_sub, sub_input in Htrim. sub_fields. by injection Htrim. }
  unfold findByProviderChannelTx. destruct Hpc as [-> ->]. destruct (head _) as [r0|] eqn:Hh.
  - apply head_select_Some in Hh as [Hc [id Hr0]]. assert (sr_ID r = id) as <- by (by eapply (proj2 Hw)). rewrite Hr in Hr0. injection Hr0 as <-.
    unfold blank. rewrite Ht. by destruct (String.eqb_spec (sr_ID r) "").
  - apply (head_select_None _ _ _ _ _ Hh) in Hr. assert (on_channel (sr_ProviderID r) (sr_ChannelID r) r = true) by (by apply on_channel_true). congruence.
Qed.

Lemma write_row db env r row : sub_wf db → db !! sr_ID r = Some r → live r = true → sr_ID row = sr_ID r → sr_ProviderID row = sr_ProviderID r →
  sr_ChannelID row = sr_ChannelID r → env_fault env 1 = None →
  write_sub db env false row = (Ok (sub_toDomain row), <[sr_ID r := row]> db).
Proof.
  intros Hw Hr Hl Hid Hp Hc Hf. unfold write_sub. rewrite Hf. assert (channel_clash db row = false) as ->; [|by rewrite Hid].
  apply channel_clash_false. intros id s Hs Hne. apply not_true_iff_false. rewrite Hp, Hc, Hid in *. intros Ho. apply Hne. symmetry.
  by eapply (proj2 Hw).
Qed.

(** What a renewal makes of a row. *)
Definition renewed_row (r : subscriptionRecord) (result : SubscriptionResult) (now : Time) : subscriptionRecord :=
  sub_updated r (trimmed_sub (renewed_input rfc3339nano (sub_toDomain (sub_read json_column r)) result now)) now.

Lemma not_listed db r row : sub_wf db → sr_ID row = sr_ID r → ∀ before e l, expires_by before row = false →
  Sub_ListExpiring json_column (<[sr_ID r := row]> db) e before = Ok l → sr_ID r ∉ sub_ID <$> l.
Proof.
  intros Hw Hid before e l Hexp. unfold Sub_ListExpiring. destruct (env_fault e 0); [done|]. intros [= <-]. rewrite <-list_fmap_compose.
  intros (s & Hs & [He [id Hids]]%elem_of_select_rows)%list_elem_of_fmap. change (sr_ID r = sr_ID s) in Hs.
  apply lookup_insert_Some in Hids as [[<- <-]|[Hne Hids]]; [congruence|]. destruct (proj1 Hw _ _ Hids) as [<- _]. congruence.
Qed.

Lemma renewed_upsert db env r result : sub_wf db → (∀ k, env_fault env k = None) → db !! sr_ID r = Some r → live r = true →
  blank (sres_ChannelID result) = true ∨ TrimSpace (sres_ChannelID result) = sr_ChannelID r →
  let row := renewed_row r result (env_now env) in
  Sub_Upsert db env (renewed_input rfc3339nano (sub_toDomain (sub_read json_column r)) result (env_now env))
    = (Ok (sub_toDomain row), <[sr_ID r := row]> db) ∧
  sub_identity row = sub_identity r ∧ sr_ConnectionID row = sr_ConnectionID r ∧ sr_CallbackURL row = sr_CallbackURL r.
Proof.
  intros Hw Hf Hr Hl Hch row. destruct (proj1 Hw _ _ Hr) as (_ & _ & _ & _ & Htrim & Hck).
  pose proof Htrim as Hfields. unfold trimmed_sub, sub_input in Hfields. sub_fields. injection Hfields as H1 H2 H3 H4 H5 H6 H7 H8 _.
  set (n := renewed_input rfc3339nano (sub_toDomain (sub_read json_column r)) result (env_now env)).
  assert (Hchan : us_ChannelID (trimmed_sub n) = sr_ChannelID r).
  { unfold trimmed_sub, n, renewed_input. sub_fields. destruct (blank (sres_ChannelID result)) eqn:Hb; [done|].
    destruct Hch as [|Hch]; [done|]. by rewrite TrimSpace_idem. }
  assert (Hprov : us_ProviderID (trimmed_sub n) = sr_ProviderID r) by exact H2.
  assert (Hc : sub_checks (trimmed_sub n) = None).
  { unfold sub_checks in *. rewrite Hchan, Hprov. change (us_ConnectionID (trimmed_sub n)) with (TrimSpace (sr_ConnectionID r)).
    change (us_ResourceType (trimmed_sub n)) with (TrimSpace (sr_ResourceType r)).
    change (us_ResourceID (trimmed_sub n)) with (TrimSpace (sr_ResourceID r)). change (us_CallbackURL (trimmed_sub n)) with (TrimSpace (sr_CallbackURL r)).
    by rewrite H1, H3, H4, H7. }
  split_and!; [|change row with (sub_updated r (trimmed_sub n) (env_now env)); unfold sub_identity; sub_fields; by rewrite Hchan, Hprov|exact H1|exact H7].
  unfold Sub_Upsert. cbv zeta. rewrite Hc, Hf, Hchan, Hprov, findByProviderChannel_row by done. by apply write_row.
Qed.

(** A renewal that the provider answers for the channel the subscription has keeps the subscription: it is active under its own id, has the
    expiry of the answer (or its old one), everything else stays in place, and it is not listed as expiring before that time; a renewal that the
    provider refuses marks the subscription errored with the cause, so that it is not listed any more.  No other subscription changes. *)
Theorem subscription_renewal subscribable env (st : SvcState W O) db req p r :
  sub_wf db → (∀ i k, env_fault (env i) k = None) → db !! TrimSpace (rn_SubscriptionID req) = Some r → live r = true →
  subscribable_provider (X := sub_error) subscribable v st (sr_ProviderID r) = Ok p →
  let renew := RenewSubscription (subs := store) subscribable rfc3339nano v true env st db req in
  let now := env_now (env 1) in
  (∀ result, sp_RenewSubscription p req = Ok result →
     blank (sres_ChannelID result) = true ∨ TrimSpace (sres_ChannelID result) = sr_ChannelID r →
     let row := renewed_row r result now in
     renew = (Ok (sub_toDomain row), <[sr_ID r := row]> db) ∧ sub_identity row = sub_identity r ∧
     sr_Status row = SubscriptionStatusActive ∧ sr_ConnectionID row = sr_ConnectionID r ∧ sr_CallbackURL row = sr_CallbackURL r ∧
     (∀ t, sres_ExpiresAt result = Some t → sr_ExpiresAt row = Some t) ∧
     (∀ t, sr_ExpiresAt row = Some t → ∀ before e l, (before < t)%Z → Sub_ListExpiring json_column renew.2 e before = Ok l → sr_ID r ∉ sub_ID <$> l)) ∧
  (∀ cause, sp_RenewSubscription p req = Fail cause →
     let row := sub_state (sub_read json_column r) SubscriptionStatusErrored (reason_metadata rfc3339nano (json_column (sr_Metadata r)) cause now) now in
     renew = (Fail (SuSvcRemote cause), <[sr_ID r := row]> db) ∧
     ∀ before e l, Sub_ListExpiring json_column renew.2 e before = Ok l → sr_ID r ∉ sub_ID <$> l).
Proof.
  intros Hw Hf Hr Hl Hp renew now. destruct (proj1 Hw _ _ Hr) as (Hid & Ht & Hne & _ & Htrim & Hck). rewrite <-Hid in Hr.
  assert (Hget : ss_Get (SubscriptionStore := store) db (env 0) (TrimSpace (rn_SubscriptionID req)) = Ok (sub_toDomain (sub_read json_column r))).
  { cbn [ss_Get sql_subscriptions]. unfold Sub_Get, sub_by_id. by rewrite Hf, TrimSpace_idem, <-Hid, Hr, Hl. }
  assert (Hnb : blank (rn_SubscriptionID req) = false) by (by apply String.eqb_neq).
  unfold renew, RenewSubscription. cbn [negb]. rewrite Hnb, Hget. change (sub_ProviderID (sub_toDomain _)) with (sr_ProviderID r). rewrite Hp. split.
  - intros result -> Hch. set (row := renewed_row r result now). cbn [ss_Upsert sql_subscriptions].
    destruct (renewed_upsert db (env 1) r result Hw (Hf 1) Hr Hl Hch) as (Hup & Hsame & Hconn & Hcb).
    unfold stored. rewrite Hup. cbn [fst snd]. split_and!; [done|done|done|done|done| |].
    + intros t Ht'. unfold row, renewed_row, renewed_input. sub_fields. by rewrite Ht'.
    + intros t Hexp before e l Hb. apply not_listed; [done|by injection Hsame|]. unfold expires_by. change (renewed_row _ _ _) with row. rewrite Hexp.
      destruct (Z.leb_spec t before); [lia|]. by rewrite andb_false_r.
  - intros cause ->. set (row := sub_state (sub_read json_column r) _ _ _). cbn [ss_UpdateState sql_subscriptions].
    assert (Hup : Sub_UpdateState json_column rfc3339nano db (env 1) (sub_ID (sub_toDomain (sub_read json_column r))) SubscriptionStatusErrored cause
                  = (Ok tt, <[sr_ID r := row]> db)).
    { unfold Sub_UpdateState, sub_by_id. cbv zeta. change (sub_ID (sub_toDomain _)) with (sr_ID r). rewrite Hid, Ht.
      destruct (String.eqb_spec (TrimSpace (rn_SubscriptionID req)) ""); [done|]. by rewrite !Hf, <-Hid, Hr, Hl. }
    rewrite Hup. cbn [snd]. split; [done|]. intros before e l. by apply not_listed.
Qed.
End facts.

(** ** Examples *)

(** A provider that answers every call the same, for the connection "id-1" of [demo_connected]. *)
Definition demo_channel (channel : string) (expires : Time) (p : Provider) : option SubscribableProvider :=
  let result := mkSubResult channel "remote-1" (Some expires) ∅ in
  Some (mkSubscribable (λ _, Ok result) (λ _, Ok result) (λ _, None)).
Definition demo_subscribe : SubscribeRequest := mkSubscribe "id-1" "repo" "octo/hello" "https://app/hooks" ∅.
Definition demo_sub_env (t : Time) (uuid : string) (n : nat) : CallEnv := quiet (t + Z.of_nat n) uuid.
Abbreviation demo_sub_step := (sub_step (MR := key_order_range) id (λ _, "now") demo_service).
Definition demo_subscribed : SubDB := demo_sub_step (demo_channel "ch-1" 1000) (demo_sub_env 300 "s-1") demo_connected ∅ (SoSubscribe demo_subscribe).

Definition demo_row : subscriptionRecord :=
  mkSubRow "s-1" "id-1" "github" "repo" "octo/hello" "ch-1" "remote-1" "https://app/hooks" "" "active" (Some 1000%Z) ∅ None 301 301 None.
Lemma demo_subscribed_row : demo_subscribed = {["s-1" := demo_row]}.
Proof. vm_compute. reflexivity. Qed.

Lemma sub_wf_empty : sub_wf ∅.
Proof. split; [apply map_Forall_empty|]. intros i j r s H. by rewrite lookup_empty in H. Qed.
Lemma demo_row_wf : sub_wf {["s-1" := demo_row]}.
Proof.
  split; [apply map_Forall_singleton; vm_compute; split_and!; [done|done|done|repeat constructor|done|done]|].
  intros i j r s. rewrite !lookup_singleton_Some. naive_solver.
Qed.

Lemma subscriptions_consistent_witness :
  let db' := demo_sub_step (demo_channel "ch-2" 2000) (demo_sub_env 900 "s-2") demo_connected demo_subscribed (SoRenew (mkRenew "s-1" ∅)) in
  sub_wf db' ∧ ∃ r', db' !! "s-1" = Some r' ∧ sub_identity r' = ("s-1", "github", "ch-1", 301%Z) ∧ live r' = true.
Proof.
  intros db'. destruct (subscriptions_consistent (MR := key_order_range) (O := MemoryOAuthStateStore) id (λ _, "now") demo_service {["s-1" := demo_row]} db') as [Hw H].
  - exact demo_row_wf.
  - unfold db'. rewrite demo_subscribed_row. eapply (sub_cons _ _ _ (demo_channel "ch-2" 2000) (demo_sub_env 900 "s-2") demo_connected); [reflexivity|discriminate|].
    apply sub_nil.
  - split; [exact Hw|]. apply (H "s-1" demo_row). reflexivity.
Defined.

Lemma subscription_renewal_witness :
  (RenewSubscription (subs := sql_subscriptions (MR := key_order_range) id (λ _, "now")) (demo_channel "ch-1" 2000) (λ _, "now") demo_service true
    (demo_sub_env 900 "s-2") demo_connected {["s-1" := demo_row]} (mkRenew "s-1" ∅)).2
  = <["s-1" := renewed_row id (λ _, "now") demo_row (mkSubResult "ch-1" "remote-1" (Some 2000%Z) ∅) 901]> {["s-1" := demo_row]}.
Proof.
  destruct (subscription_renewal (MR := key_order_range) id (λ _, "now") demo_service (demo_channel "ch-1" 2000) (demo_sub_env 900 "s-2") demo_connected
    {["s-1" := demo_row]} (mkRenew "s-1" ∅) (default (mkSubscribable (λ _, Fail "") (λ _, Fail "") (λ _, None)) (demo_channel "ch-1" 2000 demo_provider))
    demo_row) as [H _].
  - exact demo_row_wf.
  - reflexivity.
  - reflexivity.
  - reflexivity.
  - vm_compute. reflexivity.
  - destruct (H (mkSubResult "ch-1" "remote-1" (Some 2000%Z) ∅) eq_refl (or_intror eq_refl)) as (-> & _). reflexivity.
Defined.

(** A renewal that the provider answers with a new channel inserts a second subscription and leaves the old one active: it is listed as expiring
    for ever, and every renewal of it adds another. *)
Example renewal_forks :
  let db' := demo_sub_step (demo_channel "ch-2" 2000) (demo_sub_env 900 "s-2") demo_connected demo_subscribed (SoRenew (mkRenew "s-1" ∅)) in
  (λ p, (sr_Status p.2, sr_ChannelID p.2)) <$> map_to_list db' = [("active", "ch-1"); ("active", "ch-2")] ∧
  match Sub_ListExpiring (MR := key_order_range) id db' (demo_sub_env 1000 "" 0) 1000 with
  | Ok l => sub_ID <$> l = ["s-1"]
  | Fail _ => False
  end.
Proof. vm_compute. auto. Qed.

(** A cancelled subscription, from which no transition is allowed, is active again after a renewal. *)
Example cancelled_revives :
  let cancelled := demo_sub_step (demo_channel "ch-1" 0) (demo_sub_env 400 "s-2") demo_connected demo_subscribed (SoCancel (mkCancel "s-1" "")) in
  let renewed := demo_sub_step (demo_channel "ch-1" 2000) (demo_sub_env 500 "s-3") demo_connected cancelled (SoRenew (mkRenew "s-1" ∅)) in
  (sr_Status <$> cancelled !! "s-1", sr_Status <$> renewed !! "s-1") = (Some "cancelled", Some "active") ∧
  subscriptionTransitionAllowed "cancelled" "active" = false.
Proof. vm_compute. auto. Qed.
