(* ===== verification/Activity.v ===== *)
(** * The activity log (src/store/sql/activity_store.go, src/core/activity_controls.go)

    The table of activity entries with the operations of its store ([Record], [List], [Prune]), and the sink that records entries in the
    background through a bounded queue.  Every statement of the store is one step.  The sink's worker and its callers run concurrently: one call of
    [Record], one turn of the worker's loop and the closing of the sink are the steps, and where a [select] has several ready cases the choice is an
    argument. *)

From S2P Require Import Prelude GoStrings GoValues Domain Contracts GoHTTP.
From Stdlib Require Import ZArith String Ascii Lia.
From stdpp Require Import base decidable list gmap strings sorting.

Local Open Scope string_scope.
Local Open Scope nat_scope.
Local Open Scope list_scope.

Definition DefaultLifecycleChannel := "services.lifecycle".

Record ServicesActivityFilter := mkActivityFilter {
  af_ProviderID : string; af_ScopeType : string; af_ScopeID : string; af_Action : string; af_Status : string; af_From : option Time;
  af_To : option Time; af_Page : Z; af_PerPage : Z; af_Connections : list string }.
Record ServicesActivityPage := mkActivityPage {
  ap_Items : list ServiceActivityEntry; ap_Page : Z; ap_PerPage : Z; ap_Total : Z; ap_HasNext : bool; ap_NextCursor : string }.
Record ActivityRetentionPolicy := mkRetention { ret_TTL : Duration; ret_RowCap : Z }.

Record activityEntryRecord := mkActivityRow {
  ar_ID : string; ar_ProviderID : string; ar_ScopeType : string; ar_ScopeID : string; ar_ConnectionID : option string;
  ar_InstallationID : option string; ar_SubscriptionID : option string; ar_SyncJobID : option string; ar_Channel : string; ar_Action : string;
  ar_ObjectType : string; ar_ObjectID : string; ar_Actor : string; ar_ActorType : string; ar_Status : string; ar_Metadata : gmap string value;
  ar_CreatedAt : Time }.
Abbreviation ActivityDB := (gmap string activityEntryRecord).

Inductive activity_error := AcErrScope | AcErrDuplicate (id : string) | AcErrDB (cause : string).

(** ** The store *)

Definition metadataString (metadata : gmap string value) (key : string) : string :=
  match metadata !! key with
  | None | Some VNil => ""
  | Some v => let text := TrimSpace (Sprint v) in if String.eqb text "<nil>" then "" else text
  end.

Definition parseObject (v : string) : string * string :=
  let v := TrimSpace v in
  if String.eqb v "" then ("", "")
  else match CutChar ":" v with
  | None => ("event", v)
  | Some (a, b) => (TrimSpace a, TrimSpace b)
  end.

Definition inferActorType (actor : string) : string :=
  let normalized := ToLower (TrimSpace actor) in
  if bool_decide (normalized ∈ ["user"; "system"; "job"; "webhook"]) then normalized else "system".

(** The first of the two that is not empty, and a text as a nullable column. *)
Definition orDefault (s d : string) : string := if String.eqb s "" then d else s.
Definition nullable (s : string) : option string := if String.eqb s "" then None else Some s.

Definition activity_row (uuid : string) (now : Time) (entry : ServiceActivityEntry) : activityEntryRecord :=
  let metadata := copyAnyMap (act_Metadata entry) in
  let text := metadataString metadata in
  let '(objectType, objectID) := parseObject (act_Object entry) in
  let id := orDefault (TrimSpace (act_ID entry)) uuid in
  mkActivityRow id (text "provider_id") (text "scope_type") (text "scope_id") (nullable (text "connection_id")) (nullable (text "installation_id"))
    (nullable (text "subscription_id")) (nullable (text "sync_job_id")) (orDefault (TrimSpace (act_Channel entry)) DefaultLifecycleChannel)
    (orDefault (TrimSpace (act_Action entry)) "lifecycle.event") (orDefault objectType "event") (orDefault objectID id)
    (orDefault (TrimSpace (act_Actor entry)) "system") (orDefault (text "actor_type") (inferActorType (act_Actor entry)))
    (orDefault (TrimSpace (act_Status entry)) ServiceActivityStatusOK) metadata
    (if IsZero (act_CreatedAt entry) then now else act_CreatedAt entry).

(** An entry that names a connection which does not exist violates a foreign key, a fault of the insert. *)
Definition Activity_Record (db : ActivityDB) (env : CallEnv) (entry : ServiceActivityEntry) : outcome activity_error unit * ActivityDB :=
  let row := activity_row (env_uuid env) (env_now env) entry in
  if String.eqb (ar_ProviderID row) "" || String.eqb (ar_ScopeType row) "" || String.eqb (ar_ScopeID row) "" then (Fail AcErrScope, db)
  else match env_fault env 0 with
  | Some cause => (Fail (AcErrDB cause), db)
  | None => match db !! ar_ID row with
            | Some _ => (Fail (AcErrDuplicate (ar_ID row)), db)
            | None => (Ok tt, <[ar_ID row := row]> db)
            end
  end.

Section store.
Context {MR : MapRange}.
(** What a JSON column reads back. *)
Variable json_column : gmap string value → gmap string value.

Definition with_text (key : string) (v : option string) (m : gmap string value) : gmap string value :=
  match v with Some s => <[key := VString (TrimSpace s)]> m | None => m end.
Definition activityRecordToDomain (r : activityEntryRecord) : ServiceActivityEntry :=
  let m := copyAnyMap (json_column (ar_Metadata r)) in
  let m := <["scope_id" := VString (TrimSpace (ar_ScopeID r))]> (<["scope_type" := VString (TrimSpace (ar_ScopeType r))]>
             (<["provider_id" := VString (TrimSpace (ar_ProviderID r))]> m)) in
  let m := with_text "sync_job_id" (ar_SyncJobID r) (with_text "subscription_id" (ar_SubscriptionID r)
             (with_text "installation_id" (ar_InstallationID r) (with_text "connection_id" (ar_ConnectionID r) m))) in
  mkServiceActivityEntry (ar_ID r) (ar_Actor r) (ar_Action r) (TrimSpace (ar_ObjectType r) +:+ ":" +:+ TrimSpace (ar_ObjectID r)) (ar_Channel r)
    (ar_Status r) m (ar_CreatedAt r).

(** A criterion that is blank does not restrict. *)
Definition criterion (wanted actual : string) : bool := blank wanted || String.eqb actual (TrimSpace wanted).
Definition activity_matches (f : ServicesActivityFilter) (r : activityEntryRecord) : bool :=
  criterion (af_ProviderID f) (ar_ProviderID r) && criterion (af_ScopeType f) (ar_ScopeType r) && criterion (af_ScopeID f) (ar_ScopeID r)
  && criterion (af_Action f) (ar_Action r) && criterion (af_Status f) (ar_Status r)
  && match af_From f with Some t => (t <=? ar_CreatedAt r)%Z | None => true end
  && match af_To f with Some t => (ar_CreatedAt r <=? t)%Z | None => true end
  && let ids := filter (λ s, negb (String.eqb s "")) (TrimSpace <$> af_Connections f) in
     bool_decide (ids = []) || match ar_ConnectionID r with Some c => bool_decide (c ∈ ids) | None => false end.

Definition later_row (a b : activityEntryRecord) : bool := (ar_CreatedAt b <? ar_CreatedAt a)%Z.
Definition earlier_row (a b : activityEntryRecord) : bool := (ar_CreatedAt a <? ar_CreatedAt b)%Z.

Definition page_of (f : ServicesActivityFilter) : Z := if (af_Page f <=? 0)%Z then 1%Z else af_Page f.
Definition per_page_of (f : ServicesActivityFilter) : Z := if (af_PerPage f <=? 0)%Z then 25%Z else af_PerPage f.

(** [LIMIT] and [OFFSET] of the selected rows, and the number of them all. *)
Definition Activity_List (db : ActivityDB) (env : CallEnv) (f : ServicesActivityFilter) : outcome activity_error ServicesActivityPage :=
  let page := page_of f in
  let perPage := per_page_of f in
  let offset := wrap64 (wrap64 (page - 1) * perPage) in
  match env_fault env 0 with
  | Some cause => Fail (AcErrDB cause)
  | None =>
    let rows := select_rows later_row (activity_matches f) db in
    let items := activityRecordToDomain <$> take (Z.to_nat perPage) (drop (Z.to_nat offset) rows) in
    let total := Z.of_nat (length rows) in
    let hasNext := (wrap64 (offset + Z.of_nat (length items)) <? total)%Z in
    Ok (mkActivityPage items page perPage total hasNext (if hasNext then Itoa (offset + Z.of_nat (length items)) else ""))
  end.

(** The rows that a [DELETE] removed, as their number, and the ones that stay. *)
Definition delete_rows (gone : activityEntryRecord → bool) (db : ActivityDB) : Z * ActivityDB :=
  let db' := delete_where gone db in ((Z.of_nat (size db) - Z.of_nat (size db'))%Z, db').

(** The three statements: the deletion by age (0), the count (1) and the deletion of the oldest rows (2). *)
Definition prune_age (db : ActivityDB) (env : CallEnv) (policy : ActivityRetentionPolicy) : outcome activity_error Z * ActivityDB :=
  if (0 <? ret_TTL policy)%Z then
    match env_fault env 0 with
    | Some cause => (Fail (AcErrDB cause), db)
    | None => let cutoff := addTime (env_now env) (- ret_TTL policy) in
              let (n, db') := delete_rows (λ r, Before (ar_CreatedAt r) cutoff) db in (Ok n, db')
    end
  else (Ok 0%Z, db).
Definition oldest_ids (db : ActivityDB) (limit : Z) : list string := ar_ID <$> take (Z.to_nat limit) (select_rows earlier_row (λ _, true) db).
Definition prune_cap (db : ActivityDB) (env : CallEnv) (policy : ActivityRetentionPolicy) : outcome activity_error Z * ActivityDB :=
  if (0 <? ret_RowCap policy)%Z then
    match env_fault env 1 with
    | Some cause => (Fail (AcErrDB cause), db)
    | None =>
      let excess := (Z.of_nat (size db) - ret_RowCap policy)%Z in
      if (0 <? excess)%Z then
        match env_fault env 2 with
        | Some cause => (Fail (AcErrDB cause), db)
        | None => let (n, db') := delete_rows (λ r, bool_decide (ar_ID r ∈ oldest_ids db excess)) db in (Ok n, db')
        end
      else (Ok 0%Z, db)
    end
  else (Ok 0%Z, db).

(** [Prune] returns what was deleted before an error too. *)
Definition Activity_Prune (db : ActivityDB) (env : CallEnv) (policy : ActivityRetentionPolicy) : Z * option activity_error * ActivityDB :=
  match prune_age db env policy with
  | (Fail e, db) => (0%Z, Some e, db)
  | (Ok deleted, db) =>
    match prune_cap db env policy with
    | (Fail e, db) => (deleted, Some e, db)
    | (Ok more, db) => ((deleted + more)%Z, None, db)
    end
  end.
End store.

(** ** The sink *)

Class ServicesActivitySink (E A : Type) := {
  as_Record : A → CallEnv → ServiceActivityEntry → outcome E unit * A;
  as_List : A → CallEnv → ServicesActivityFilter → outcome E ServicesActivityPage }.
Class ActivityRetentionPruner (E A : Type) := ap_Prune : A → CallEnv → ActivityRetentionPolicy → Z * option E * A.

(** [stopping] after [close(stopCh)], [running] until the worker has returned. *)
Record OperationalActivitySink (A B : Type) := mkSink {
  os_primary : A; os_fallback : option B; os_policy : ActivityRetentionPolicy; os_buffer : nat; os_queue : list ServiceActivityEntry;
  os_stopping : bool; os_running : bool }.
Arguments mkSink {A B}.
Arguments os_primary {A B}.
Arguments os_fallback {A B}.
Arguments os_policy {A B}.
Arguments os_buffer {A B}.
Arguments os_queue {A B}.
Arguments os_stopping {A B}.
Arguments os_running {A B}.

Inductive sink_error (E : Type) := SinkCancelled | SinkErr (e : E).
Arguments SinkCancelled {E}.
Arguments SinkErr {E} e.

Section sink.
Context {E A B : Type} {primary : ServicesActivitySink E A} {fallback : ServicesActivitySink E B} {pruner : ActivityRetentionPruner E A}.
Abbreviation Sink := (OperationalActivitySink A B).

Definition NewOperationalActivitySink (p : A) (f : option B) (policy : ActivityRetentionPolicy) (bufferSize : Z) : Sink :=
  mkSink p f policy (if (bufferSize <=? 0)%Z then 128 else Z.to_nat bufferSize) [] false true.

Definition with_queue (s : Sink) (q : list ServiceActivityEntry) : Sink :=
  mkSink (os_primary s) (os_fallback s) (os_policy s) (os_buffer s) q (os_stopping s) (os_running s).
Definition with_sinks (s : Sink) (p : A) (f : option B) : Sink :=
  mkSink p f (os_policy s) (os_buffer s) (os_queue s) (os_stopping s) (os_running s).

(** [fallback.Record] if there is a fallback; without one the entry is dropped and the call succeeds. *)
Definition record_fallback (s : Sink) (env : CallEnv) (entry : ServiceActivityEntry) : outcome E unit * Sink :=
  match os_fallback s with
  | None => (Ok tt, s)
  | Some f => let (r, f') := as_Record f env entry in (r, with_sinks s (os_primary s) (Some f'))
  end.

Definition dated (now : Time) (entry : ServiceActivityEntry) : ServiceActivityEntry :=
  mkServiceActivityEntry (act_ID entry) (act_Actor entry) (act_Action entry) (act_Object entry) (act_Channel entry) (act_Status entry)
    (act_Metadata entry) (if IsZero (act_CreatedAt entry) then now else act_CreatedAt entry).

(** [cancelled]: the context is done; [pick]: the [select] takes that case also when the queue has room. *)
Definition Sink_Record (cancelled pick : bool) (s : Sink) (env : CallEnv) (entry : ServiceActivityEntry) : outcome (sink_error E) unit * Sink :=
  let entry := dated (env_now env) entry in
  let room := length (os_queue s) <? os_buffer s in
  if cancelled && (pick || negb room) then (Fail SinkCancelled, s)
  else if room then (Ok tt, with_queue s (os_queue s ++ [entry]))
  else let (r, s') := record_fallback s env entry in (match r with Ok _ => Ok tt | Fail e => Fail (SinkErr e) end, s').

Definition Sink_List (s : Sink) (env : CallEnv) (f : ServicesActivityFilter) : outcome E ServicesActivityPage := as_List (os_primary s) env f.

Definition EnforceRetention (s : Sink) (env : CallEnv) : Z * option E * Sink :=
  let '(n, e, p) := ap_Prune (os_primary s) env (os_policy s) in (n, e, with_sinks s p (os_fallback s)).

(** One turn of the worker's loop; [None] when it blocks or has returned.  [pick]: the [select] takes the stop case also when there is an entry.
    The calls are made with [env 0] and [env 1]. *)
Definition sink_turn (pick : bool) (s : Sink) (env : nat → CallEnv) : option Sink :=
  if negb (os_running s) then None
  else match os_queue s with
  | entry :: rest =>
    if os_stopping s && pick then Some (mkSink (os_primary s) (os_fallback s) (os_policy s) (os_buffer s) (os_queue s) true false)
    else
      let (r, p') := as_Record (os_primary s) (env 0) entry in
      let s' := with_queue (with_sinks s p' (os_fallback s)) rest in
      Some match r with Ok _ => s' | Fail _ => (record_fallback s' (env 1) entry).2 end
  | [] => if os_stopping s then Some (mkSink (os_primary s) (os_fallback s) (os_policy s) (os_buffer s) [] true false) else None
  end.

(** [Close] closes the channel and waits until the worker has returned. *)
Definition Sink_Close (s : Sink) : Sink :=
  mkSink (os_primary s) (os_fallback s) (os_policy s) (os_buffer s) (os_queue s) true (os_running s).
End sink.

#[export] Instance sql_activity_sink {MR : MapRange} (json_column : gmap string value → gmap string value) : ServicesActivitySink activity_error ActivityDB :=
  {| as_Record := Activity_Record; as_List := Activity_List json_column |}.
#[export] Instance sql_activity_pruner {MR : MapRange} : ActivityRetentionPruner activity_error ActivityDB := Activity_Prune.

(** ** Retention *)

Definition keyed_rows (db : ActivityDB) : Prop := map_Forall (λ id r, ar_ID r = id) db.

Section facts.
Context {MR : MapRange}.
Variable json_column : gmap string value → gmap string value.

Lemma record_keyed db env entry : keyed_rows db → keyed_rows (Activity_Record db env entry).2.
Proof.
  intros Hk. unfold Activity_Record. cbv zeta. destruct (_ || _); [done|]. destruct (env_fault env 0); [done|]. destruct (db !! _); [done|].
  by apply map_Forall_insert_2.
Qed.

Lemma delete_rows_spec gone db : delete_rows gone db = ((Z.of_nat (size db) - Z.of_nat (size (delete_where gone db)))%Z, delete_where gone db).
Proof. done. Qed.
Lemma entries_deleted_subseteq (gone : activityEntryRecord → bool) db : delete_where gone db ⊆ db.
Proof. apply map_filter_subseteq. Qed.

Lemma list_filter_all_true {A} (l : list A) : filter (λ _, true) l = l.
Proof. induction l as [|x l IH]; [done|]. rewrite filter_cons_True by done. by f_equal. Qed.
Lemma keyed_subseteq db db' : keyed_rows db → db' ⊆ db → keyed_rows db'.
Proof. intros Hk Hs id r Hr. apply Hk. by eapply lookup_weaken. Qed.
Lemma rows_ids less db : keyed_rows db → ar_ID <$> select_rows less (λ _, true) db ≡ₚ (map_range db).*1.
Proof.
  intros Hk. unfold select_rows. rewrite stable_sort_perm. assert (filter (λ _ : activityEntryRecord, true) (map_range db).*2 = (map_range db).*2) as ->.
  { by apply list_filter_all_true. }
  rewrite <-list_fmap_compose. match goal with |- ?a ≡ₚ ?b => enough (a = b) as -> by done end. apply list_fmap_ext. intros i [id r] Hi. cbn.
  apply list_elem_of_lookup_2, elem_of_map_range in Hi. by apply (Hk id r).
Qed.
Lemma rows_length less db : keyed_rows db → length (select_rows less (λ _, true) db) = size db.
Proof. intros Hk. rewrite <-(length_fmap ar_ID), (rows_ids less) by done. by rewrite length_fmap, length_map_range. Qed.

(** The ids that the deletion by number selects: as many as asked for, none of a newer row than one that stays. *)
Lemma oldest_ids_spec db limit : keyed_rows db → (0 ≤ limit ≤ Z.of_nat (size db))%Z →
  NoDup (oldest_ids db limit) ∧ length (oldest_ids db limit) = Z.to_nat limit ∧ (∀ id, id ∈ oldest_ids db limit → is_Some (db !! id)) ∧
  ∀ id id' r r', id ∈ oldest_ids db limit → id' ∉ oldest_ids db limit → db !! id = Some r → db !! id' = Some r' → (ar_CreatedAt r ≤ ar_CreatedAt r')%Z.
Proof.
  intros Hk Hl. unfold oldest_ids. set (rows := select_rows earlier_row (λ _, true) db).
  assert (Hin : ∀ r, r ∈ rows ↔ db !! ar_ID r = Some r).
  { intros r. unfold rows. rewrite elem_of_select_rows. split; [intros [_ [id Hr]]; by rewrite (Hk _ _ Hr)|eauto]. }
  assert (Hlen : length rows = size db) by (by apply rows_length).
  split_and!.
  - rewrite fmap_take. assert (Hnd : NoDup (ar_ID <$> rows)) by (unfold rows; rewrite rows_ids by done; apply NoDup_map_range).
    rewrite <-(take_drop (Z.to_nat limit)) in Hnd. by apply NoDup_app in Hnd as [Hnd _].
  - rewrite length_fmap, length_take. lia.
  - intros id (r & -> & Hr)%list_elem_of_fmap. apply elem_of_take in Hr as (i & Hr & _). apply list_elem_of_lookup_2, Hin in Hr. eauto.
  - intros id id' r r' (x & -> & Hx)%list_elem_of_fmap Hn Hr Hr'.
    assert (Hxr : x ∈ rows) by (apply elem_of_take in Hx as (i & Hx & _); by eapply list_elem_of_lookup_2).
    apply Hin in Hxr. simplify_eq. assert (Hr'' : r' ∈ rows) by (apply Hin; by rewrite (Hk _ _ Hr')).
    assert (Hd : r' ∈ drop (Z.to_nat limit) rows).
    { rewrite <-(take_drop (Z.to_nat limit) rows), elem_of_app in Hr''. destruct Hr'' as [Ht|]; [|done]. destruct Hn.
      apply list_elem_of_fmap. exists r'. by rewrite (Hk _ _ Hr'). }
    assert (Hs : StronglySorted (λ a b, (ar_CreatedAt a ≤ ar_CreatedAt b)%Z) rows).
    { apply stable_sort_sorted; unfold earlier_row; intros *; [lia|rewrite Z.ltb_lt; lia|rewrite Z.ltb_ge; lia]. }
    rewrite <-(take_drop (Z.to_nat limit) rows) in Hs. apply StronglySorted_app in Hs as [Hs _]. by apply Hs.
Qed.

Lemma delete_oldest_size db limit : keyed_rows db → (0 ≤ limit ≤ Z.of_nat (size db))%Z →
  Z.of_nat (size (delete_where (λ r, bool_decide (ar_ID r ∈ oldest_ids db limit)) db)) = (Z.of_nat (size db) - limit)%Z.
Proof.
  intros Hk Hl. destruct (oldest_ids_spec db limit Hk Hl) as (Hnd & Hlen & Hsub & _). set (ids := oldest_ids db limit) in *.
  assert (Hdom : dom (delete_where (λ r, bool_decide (ar_ID r ∈ ids)) db) = dom db ∖ list_to_set ids).
  { apply set_eq. intros id. rewrite elem_of_difference, elem_of_list_to_set, !elem_of_dom. split.
    - intros [r Hr]. apply delete_where_lookup in Hr as [Hr Hn]. rewrite (Hk _ _ Hr) in Hn. apply bool_decide_eq_false in Hn. eauto.
    - intros [[r Hr] Hn]. exists r. apply delete_where_lookup. split; [done|]. rewrite (Hk _ _ Hr). by apply bool_decide_eq_false. }
  rewrite <-!size_dom, Hdom, size_difference, size_list_to_set by (try done; set_unfold; intros id Hid%Hsub; by apply elem_of_dom). rewrite Hlen.
  rewrite size_dom. lia.
Qed.

(** [Prune] keeps exactly what the policy allows.  With an age limit no older entry is left, with a row limit no more rows than that; an entry is
    deleted only if it was too old, or if the table was over its limit (and is then exactly full) and no entry that stays is older; and the number
    that is returned is the number of entries deleted. *)
Theorem activity_retention db env policy n e db' :
  keyed_rows db → (∀ k, env_fault env k = None) → Activity_Prune db env policy = (n, e, db') →
  let cutoff := addTime (env_now env) (- ret_TTL policy) in
  e = None ∧ db' ⊆ db ∧ n = (Z.of_nat (size db) - Z.of_nat (size db'))%Z ∧
  ((0 < ret_TTL policy)%Z → map_Forall (λ _ r, (cutoff ≤ ar_CreatedAt r)%Z) db') ∧
  ((0 < ret_RowCap policy)%Z → (Z.of_nat (size db') ≤ ret_RowCap policy)%Z) ∧
  ∀ id r, db !! id = Some r → db' !! id = None →
    (0 < ret_TTL policy ∧ ar_CreatedAt r < cutoff)%Z ∨
    (0 < ret_RowCap policy ∧ Z.of_nat (size db') = ret_RowCap policy)%Z ∧ map_Forall (λ _ r', (ar_CreatedAt r ≤ ar_CreatedAt r')%Z) db'.
Proof.
  intros Hk Hf Hp cutoff.
  assert (Hage : ∃ db1, prune_age db env policy = (Ok (Z.of_nat (size db) - Z.of_nat (size db1))%Z, db1) ∧ db1 ⊆ db ∧
    ((0 < ret_TTL policy)%Z → map_Forall (λ _ r, (cutoff ≤ ar_CreatedAt r)%Z) db1) ∧
    ∀ id r, db !! id = Some r → db1 !! id = None → (0 < ret_TTL policy ∧ ar_CreatedAt r < cutoff)%Z).
  { unfold prune_age. rewrite Hf. destruct (Z.ltb_spec 0 (ret_TTL policy)) as [Ht|Ht].
    - eexists. split; [reflexivity|]. split_and!; [apply entries_deleted_subseteq| |].
      + intros _ id r [_ Hr]%delete_where_lookup. by apply Z.ltb_ge in Hr.
      + intros id r Hr Hn. split; [done|]. destruct (Z.lt_ge_cases (ar_CreatedAt r) cutoff) as [|Hge]; [done|].
        assert (delete_where (λ r, Before (ar_CreatedAt r) cutoff) db !! id = Some r) by (apply delete_where_lookup; split; [done|by apply Z.ltb_ge]).
        unfold cutoff in *. congruence.
    - exists db. split; [f_equal; f_equal; lia|]. split_and!; [done|lia|]. intros id r -> . done. }
  destruct Hage as (db1 & Hage & Hsub1 & Hold & Hgone1). unfold Activity_Prune in Hp. rewrite Hage in Hp.
  assert (Hk1 : keyed_rows db1) by (by eapply keyed_subseteq).
  unfold prune_cap in Hp. rewrite !Hf in Hp. destruct (Z.ltb_spec 0 (ret_RowCap policy)) as [Hc|Hc].
  - destruct (Z.ltb_spec 0 (Z.of_nat (size db1) - ret_RowCap policy)) as [Hex|Hex].
    + set (ids := oldest_ids db1 _) in *. rewrite delete_rows_spec in Hp. injection Hp as <- <- <-.
      assert (Hb : (0 ≤ Z.of_nat (size db1) - ret_RowCap policy ≤ Z.of_nat (size db1))%Z) by lia.
      pose proof (delete_oldest_size db1 _ Hk1 Hb) as Hsz. fold ids in Hsz. destruct (oldest_ids_spec db1 _ Hk1 Hb) as (_ & _ & _ & Hord). fold ids in Hord.
      set (db2 := delete_where _ db1) in *. assert (Hsub2 : db2 ⊆ db1) by apply entries_deleted_subseteq.
      split_and!; [done|by etransitivity|lia|intros Ht id r Hr; eapply (Hold Ht id), lookup_weaken; done|lia|].
      intros id r Hr Hn. destruct (db1 !! id) as [r1|] eqn:H1; [|left; by eapply Hgone1]. right. split; [lia|].
      pose proof (lookup_weaken _ _ _ _ H1 Hsub1) as H1'. simplify_eq. intros id' r' Hr'. apply delete_where_lookup in Hr' as [Hr' Hn'].
      apply bool_decide_eq_false in Hn'. rewrite (Hk1 _ _ Hr') in Hn'. apply (Hord id id'); [|done..].
      apply dec_stable. intros Hni. assert (db2 !! id = Some r); [|congruence]. apply delete_where_lookup. split; [done|].
      apply bool_decide_eq_false. by rewrite (Hk1 _ _ H1).
    + injection Hp as <- <- <-. split_and!; [done|done|lia|done|lia|]. intros id r Hr Hn. left. by eapply Hgone1.
  - injection Hp as <- <- <-. split_and!; [done|done|lia|done|lia|]. intros id r Hr Hn. left. by eapply Hgone1.
Qed.

(** ** Pages *)

Lemma chunks_concat {A} (l : list A) p n : concat ((λ k, take p (drop (k * p) l)) <$> seq 0 n) = take (n * p) l.
Proof.
  induction n as [|n IH]; [done|]. rewrite seq_S, fmap_app, concat_app, IH. cbn. rewrite app_nil_r.
  replace (p + n * p) with (n * p + p) by lia. by rewrite <-take_take_drop.
Qed.

Lemma fmap_concat {A B} (f : A → B) (l : list (list A)) : f <$> concat l = concat ((λ x : list A, f <$> x) <$> l).
Proof. induction l as [|x l IH]; [done|]. cbn [concat fmap list_fmap]. by rewrite fmap_app, IH. Qed.

Definition at_page (f : ServicesActivityFilter) (page : Z) : ServicesActivityFilter :=
  mkActivityFilter (af_ProviderID f) (af_ScopeType f) (af_ScopeID f) (af_Action f) (af_Status f) (af_From f) (af_To f) page (af_PerPage f)
    (af_Connections f).
(** The items of the pages 1 to [n]. *)
Definition pages (db : ActivityDB) (env : CallEnv) (f : ServicesActivityFilter) (n : nat) : list ServiceActivityEntry :=
  concat ((λ k, match Activity_List json_column db env (at_page f (Z.of_nat k + 1)) with Ok p => ap_Items p | Fail _ => [] end) <$> seq 0 n).

Lemma page_items db env f k : env_fault env 0 = None → ((Z.of_nat k + 1) * per_page_of f + Z.of_nat (size db) ≤ int64_max)%Z →
  let rows := select_rows later_row (activity_matches f) db in
  ∃ p, Activity_List json_column db env (at_page f (Z.of_nat k + 1)) = Ok p ∧
    ap_Items p = activityRecordToDomain json_column <$> take (Z.to_nat (per_page_of f)) (drop (k * Z.to_nat (per_page_of f)) rows) ∧
    ap_Total p = Z.of_nat (length rows) ∧ ap_HasNext p = (Z.of_nat (S k * Z.to_nat (per_page_of f)) <? Z.of_nat (length rows))%Z.
Proof.
  intros Hf Hb rows. unfold Activity_List. rewrite Hf. cbv zeta.
  change (per_page_of (at_page f _)) with (per_page_of f). change (activity_matches (at_page f _)) with (activity_matches f). fold rows.
  assert (Hpage : page_of (at_page f (Z.of_nat k + 1)) = (Z.of_nat k + 1)%Z) by (unfold page_of; cbn; destruct (Z.leb_spec (Z.of_nat k + 1) 0); lia).
  rewrite Hpage. assert (Hpp : (0 < per_page_of f)%Z) by (unfold per_page_of; destruct (Z.leb_spec (af_PerPage f) 0); lia).
  assert (Hlen : length rows ≤ size db).
  { unfold rows, select_rows. rewrite stable_sort_perm. etransitivity; [apply length_filter|]. by rewrite length_fmap, length_map_range. }
  set (pp := Z.to_nat (per_page_of f)). assert (Hppz : per_page_of f = Z.of_nat pp) by lia.
  assert (Hoff : wrap64 (wrap64 (Z.of_nat k + 1 - 1) * per_page_of f) = Z.of_nat (k * pp)).
  { unfold int64_max in Hb. rewrite (wrap64_id (Z.of_nat k + 1 - 1)), wrap64_id; unfold in_int64, int64_min, int64_max; nia. }
  rewrite Hoff, Nat2Z.id. eexists. split; [reflexivity|]. cbn [ap_Items ap_Total ap_HasNext]. split_and!; [done|done|].
  rewrite length_fmap, length_take, length_drop, wrap64_id by (unfold in_int64, int64_min, int64_max in *; nia). apply eq_true_iff_eq. rewrite !Z.ltb_lt. lia.
Qed.

(** Reading the pages of a listing one after the other gives every matching entry exactly once, the newest first, as long as nobody writes in
    between; and a page says that there is a next one exactly if entries are left. *)
Theorem activity_pages db env f n :
  env_fault env 0 = None → (Z.of_nat n * per_page_of f + Z.of_nat (size db) ≤ int64_max)%Z →
  let rows := select_rows later_row (activity_matches f) db in
  (Z.of_nat (length rows) ≤ Z.of_nat n * per_page_of f)%Z →
  pages db env f n = activityRecordToDomain json_column <$> rows ∧
  StronglySorted (λ a b, (ar_CreatedAt b ≤ ar_CreatedAt a)%Z) rows ∧ (∀ r, r ∈ rows ↔ activity_matches f r = true ∧ ∃ id, db !! id = Some r) ∧
  ∀ k p, k < n → Activity_List json_column db env (at_page f (Z.of_nat k + 1)) = Ok p →
    (ap_HasNext p = true ↔ (Z.of_nat (length (pages db env f (S k))) < Z.of_nat (length rows))%Z).
Proof.
  intros Hf Hb rows Hall. assert (Hpp : (0 < per_page_of f)%Z) by (unfold per_page_of; destruct (Z.leb_spec (af_PerPage f) 0); lia).
  set (pp := Z.to_nat (per_page_of f)). assert (Hppz : per_page_of f = Z.of_nat pp) by lia.
  assert (Hpages : ∀ m, m ≤ n → pages db env f m = activityRecordToDomain json_column <$> take (m * pp) rows).
  { intros m Hm. rewrite <-chunks_concat, fmap_concat, <-list_fmap_compose. unfold pages. f_equal. apply list_fmap_ext. intros i k Hk.
    apply lookup_seq in Hk as [-> Hi]. rewrite Nat.add_0_l. destruct (page_items db env f i Hf) as (p & -> & Hit & _); [nia|]. exact Hit. }
  split_and!.
  - rewrite Hpages by lia. rewrite take_ge by nia. done.
  - apply stable_sort_sorted; unfold later_row; intros *; [lia|rewrite Z.ltb_lt; lia|rewrite Z.ltb_ge; lia].
  - intros r. apply elem_of_select_rows.
  - intros k p Hk Hp. destruct (page_items db env f k Hf) as (p' & Hp' & _ & _ & Hn); [nia|]. rewrite Hp in Hp'. injection Hp' as <-.
    rewrite Hn, Z.ltb_lt, Hpages, length_fmap, length_take by lia. fold rows pp. lia.
Qed.
End facts.

(** ** Histories of the sink *)

Inductive sink_op :=
| SinkOpRecord (cancelled pick : bool) (env : CallEnv) (entry : ServiceActivityEntry)
| SinkOpTurn (pick : bool) (env : nat → CallEnv)
| SinkOpClose.

(** What was put into the queue and what the worker took out of it, with the environment of its call. *)
Record sink_trace (A B : Type) := mkTrace {
  tr_queued : list ServiceActivityEntry; tr_taken : list (CallEnv * ServiceActivityEntry); tr_sink : OperationalActivitySink A B }.
Arguments mkTrace {A B}.
Arguments tr_queued {A B}.
Arguments tr_taken {A B}.
Arguments tr_sink {A B}.

Section history.
Context {E A B : Type} {primary : ServicesActivitySink E A} {fallback : ServicesActivitySink E B}.

Definition sink_step (t : sink_trace A B) (op : sink_op) : sink_trace A B :=
  let s := tr_sink t in
  match op with
  | SinkOpRecord cancelled pick env entry =>
    let s' := (Sink_Record cancelled pick s env entry).2 in
    mkTrace (tr_queued t ++ drop (length (os_queue s)) (os_queue s')) (tr_taken t) s'
  | SinkOpTurn pick env =>
    match sink_turn pick s env with
    | None => t
    | Some s' => mkTrace (tr_queued t) (tr_taken t ++ ((λ e, (env 0, e)) <$> take (length (os_queue s) - length (os_queue s')) (os_queue s))) s'
    end
  | SinkOpClose => mkTrace (tr_queued t) (tr_taken t) (Sink_Close s)
  end.
Definition sink_run (s : OperationalActivitySink A B) (ops : list sink_op) : sink_trace A B := foldl sink_step (mkTrace [] [] s) ops.

Lemma record_fallback_queue (s : OperationalActivitySink A B) env e : let s' := (record_fallback s env e).2 in
  os_queue s' = os_queue s ∧ os_primary s' = os_primary s ∧ os_buffer s' = os_buffer s ∧ os_running s' = os_running s ∧ os_stopping s' = os_stopping s.
Proof. unfold record_fallback. destruct (os_fallback s) as [f|]; [|done]. by destruct (as_Record f env e). Qed.

(** What holds of every trace: nothing is lost or reordered between the callers and the worker. *)
Definition trace_ok (p0 : A) (t : sink_trace A B) : Prop :=
  (tr_taken t).*2 ++ os_queue (tr_sink t) = tr_queued t ∧ length (os_queue (tr_sink t)) ≤ os_buffer (tr_sink t) ∧
  os_primary (tr_sink t) = foldl (λ p x, (as_Record p x.1 x.2).2) p0 (tr_taken t).

Lemma sink_step_ok p0 t op : trace_ok p0 t → trace_ok p0 (sink_step t op) ∧ os_buffer (tr_sink (sink_step t op)) = os_buffer (tr_sink t) ∧
  (os_running (tr_sink t) = false → os_running (tr_sink (sink_step t op)) = false ∧ tr_taken (sink_step t op) = tr_taken t).
Proof.
  destruct t as [queued taken s]. unfold trace_ok. cbn [tr_queued tr_taken tr_sink]. intros (Hq & Hb & Hp). destruct op as [cancelled pick env entry|pick env|].
  - cbn [sink_step tr_sink tr_queued tr_taken]. unfold Sink_Record. cbv zeta. destruct (cancelled && _).
    { cbn [snd]. rewrite drop_all, app_nil_r. split_and!; done. }
    destruct (Nat.ltb_spec (length (os_queue s)) (os_buffer s)) as [Hlt|Hge].
    + cbn [snd os_queue with_queue]. rewrite drop_app_length. cbn [os_buffer os_primary os_running with_queue]. rewrite length_app, app_assoc, Hq. cbn [length]. split_and!; [done|lia|done|done|by intros].
    + pose proof (record_fallback_queue s env (dated (env_now env) entry)) as H. destruct (record_fallback s env _) as [r s']. cbn [snd] in *.
      destruct H as (-> & -> & -> & -> & _). rewrite drop_all, app_nil_r. split_and!; done.
  - cbn [sink_step tr_sink]. destruct (sink_turn pick s env) as [s'|] eqn:Ht; [|by split_and!]. unfold sink_turn in Ht.
    destruct (os_running s) eqn:Hr; [|done]. cbn [negb] in Ht. destruct (os_queue s) as [|e rest] eqn:Hqs.
    { destruct (os_stopping s); [|done]. injection Ht as <-. cbn. rewrite ?app_nil_r in *. split_and!; try done; lia. }
    destruct (os_stopping s && pick).
    { injection Ht as <-. cbn [os_queue os_buffer os_primary os_running tr_taken tr_sink tr_queued]. rewrite ?Hqs, ?Nat.sub_diag, ?take_0. cbn [fmap list_fmap].
      rewrite app_nil_r. split_and!; done. }
    destruct (as_Record (os_primary s) (env 0) e) as [r p'] eqn:Hrec. set (s1 := with_queue (with_sinks s p' (os_fallback s)) rest) in *.
    assert (Hs' : os_queue s' = rest ∧ os_primary s' = p' ∧ os_buffer s' = os_buffer s).
    { injection Ht as <-. destruct r; [done|]. destruct (record_fallback_queue s1 (env 1) e) as (-> & -> & -> & _). done. }
    destruct Hs' as (Hq' & Hp' & Hb'). cbn [tr_taken tr_sink tr_queued]. rewrite Hq', Hp', Hb', ?Hqs. cbn [length].
    replace (S (length rest) - length rest) with 1 by lia. cbn [take fmap list_fmap]. rewrite fmap_app, <-app_assoc. cbn.
    split_and!; [done|cbn in Hb; lia|by rewrite foldl_app; cbn; rewrite <-Hp, Hrec|done|done].
  - cbn. split_and!; done.
Qed.

Lemma sink_run_snoc s ops op : sink_run s (ops ++ [op]) = sink_step (sink_run s ops) op.
Proof. unfold sink_run. by rewrite foldl_app. Qed.

(** A running worker whose sink is not closed takes the whole queue in as many turns. *)
Lemma sink_drains (s : OperationalActivitySink A B) env : os_running s = true → os_stopping s = false →
  os_queue (tr_sink (sink_run s (replicate (length (os_queue s)) (SinkOpTurn false env)))) = [].
Proof.
  cut (∀ n queued taken (s : OperationalActivitySink A B), n = length (os_queue s) → os_running s = true → os_stopping s = false →
    os_queue (tr_sink (foldl sink_step (mkTrace queued taken s) (replicate n (SinkOpTurn false env)))) = []); [intros H; by apply H|].
  clear s. induction n as [|n IH]; intros queued taken s Hn Hr Hs; [by apply nil_length_inv|].
  cbn [replicate foldl sink_step tr_sink]. unfold sink_turn. rewrite Hr, Hs. cbn [negb andb]. destruct (os_queue s) as [|e rest] eqn:Hq; [done|].
  destruct (as_Record (os_primary s) (env 0) e) as [r p']. set (s1 := with_queue (with_sinks s p' (os_fallback s)) rest).
  destruct (record_fallback_queue s1 (env 1) e) as (Hq1 & _ & _ & Hr1 & Hs1). cbn in Hn. injection Hn as Hn.
  destruct r; apply IH; [done..|by rewrite Hq1|by rewrite Hr1|by rewrite Hs1].
Qed.

(** Entries are recorded in the order of the calls.  In every interleaving of callers, worker and [Close], with any failures of the two sinks and any
    choices of the [select]s: the queue is never longer than its buffer, what the worker took out and what is still queued is exactly what was put in, in
    order, and the primary sink was called for the entries taken, in that order and for nothing else.  Until the sink is closed the worker can always
    drain the queue; once it has returned, what is left in the queue is never recorded. *)
Theorem activity_sink_fifo (p0 : A) (f0 : option B) policy size ops :
  let t := sink_run (NewOperationalActivitySink p0 f0 policy size) ops in
  let s := tr_sink t in
  (tr_taken t).*2 ++ os_queue s = tr_queued t ∧ length (os_queue s) ≤ os_buffer s ∧ 0 < os_buffer s ∧
  os_primary s = foldl (λ p x, (as_Record p x.1 x.2).2) p0 (tr_taken t) ∧
  (os_running s = true → os_stopping s = false → ∀ env, ∃ turns, os_queue (tr_sink (sink_run s (replicate turns (SinkOpTurn false env)))) = []) ∧
  (os_running s = false → ∀ more, tr_taken (foldl sink_step t more) = tr_taken t).
Proof.
  intros t s. assert (Ht : trace_ok p0 t ∧ 0 < os_buffer s).
  { unfold s, t. clear s t. induction ops as [|op ops IH] using rev_ind.
    - unfold trace_ok. cbn. split_and!; [done|lia|done|]. destruct (Z.leb_spec size 0); lia.
    - rewrite sink_run_snoc. destruct IH as [IH Hb]. destruct (sink_step_ok p0 _ op IH) as (H & -> & _). done. }
  destruct Ht as [Hok Hb]. destruct Hok as (H1 & H2 & H3). split_and!; [done..| |].
  - intros Hr Hs env. exists (length (os_queue s)). by apply sink_drains.
  - intros Hr more. assert (Hgen : ∀ more t', trace_ok p0 t' → os_running (tr_sink t') = false → tr_taken (foldl sink_step t' more) = tr_taken t').
    { clear. induction more as [|op more IH]; intros t' Hok Hr; [done|]. cbn. destruct (sink_step_ok p0 t' op Hok) as (Hok' & _ & Hstop).
      destruct (Hstop Hr) as [Hr' Ht']. by rewrite IH. }
    by apply Hgen.
Qed.
End history.

(** ** On concrete inputs *)

Definition demo_note (id action : string) (at_ : Time) : ServiceActivityEntry :=
  mkServiceActivityEntry id "user" action "connection:c1" "" "" {["provider_id" := VString "github"; "scope_type" := VString "user"; "scope_id" := VString "u1"]} at_.
Definition demo_log : ActivityDB :=
  foldl (λ db e, (Activity_Record db (quiet 1000 "id") e).2) ∅ [demo_note "a" "one" 100; demo_note "b" "two" 300; demo_note "c" "three" 200; demo_note "d" "four" 700].
Definition demo_policy : ActivityRetentionPolicy := mkRetention 850 2.
Definition demo_all : ServicesActivityFilter := mkActivityFilter "" "" "" "" "" None None 0 3 [].
#[local] Instance demo_MapRange : MapRange := key_order_range.

Lemma demo_log_keyed : keyed_rows demo_log.
Proof. unfold demo_log. cbn [foldl]. repeat apply record_keyed. apply map_Forall_empty. Qed.

(** The age limit removes the entry of 100, the row limit then the oldest of the three that are left. *)
Lemma activity_retention_witness :
  Activity_Prune demo_log (quiet 1000 "id") demo_policy = (2%Z, None, delete "a" (delete "c" demo_log)) ∧
  map_Forall (λ _ r, (150 ≤ ar_CreatedAt r)%Z) (delete "a" (delete "c" demo_log)).
Proof.
  split; [vm_compute; reflexivity|].
  refine (proj1 (proj2 (proj2 (proj2 (activity_retention demo_log (quiet 1000 "id") demo_policy 2 None _ demo_log_keyed (λ _, eq_refl) _)))) _);
    vm_compute; reflexivity.
Defined.

(** Two pages, of three entries and of one. *)
Lemma activity_pages_witness :
  (act_ID <$> pages (λ m, m) demo_log (quiet 1000 "id") demo_all 2) = ["d"; "b"; "c"; "a"] ∧
  pages (λ m, m) demo_log (quiet 1000 "id") demo_all 2 =
    activityRecordToDomain (λ m, m) <$> select_rows later_row (activity_matches demo_all) demo_log.
Proof.
  split; [vm_compute; reflexivity|].
  refine (proj1 (activity_pages (λ m, m) demo_log (quiet 1000 "id") demo_all 2 eq_refl _ _)); vm_compute; discriminate.
Defined.

(** What is still queued when the worker sees that the sink is closed is lost, although [Record] returned without an error; and so is what is recorded
    after [Close], or when the queue is full and there is no fallback. *)
Definition demo_sink : OperationalActivitySink ActivityDB ActivityDB := NewOperationalActivitySink ∅ None demo_policy 2.
Definition demo_record (e : ServiceActivityEntry) : sink_op := SinkOpRecord false false (quiet 1000 "id") e.
Definition demo_turn (pick : bool) : sink_op := SinkOpTurn pick (λ _, quiet 1000 "id").
Example queued_entries_lost :
  let run := sink_run (primary := sql_activity_sink (λ m, m)) (fallback := sql_activity_sink (λ m, m)) demo_sink in
  let logged t := (map_to_list (os_primary (tr_sink t))).*1 in
  (Sink_Record (fallback := sql_activity_sink (λ m, m)) false false demo_sink (quiet 1000 "id") (demo_note "a" "one" 100)).1 = Ok tt ∧
  logged (run [demo_record (demo_note "a" "one" 100); demo_turn true; demo_turn true]) = ["a"] ∧
  logged (run [demo_record (demo_note "a" "one" 100); SinkOpClose; demo_turn true; demo_turn false]) = [] ∧
  logged (run [SinkOpClose; demo_turn true; demo_record (demo_note "a" "one" 100); demo_turn true]) = [] ∧
  logged (run [demo_record (demo_note "a" "one" 100); demo_record (demo_note "b" "two" 100); demo_record (demo_note "c" "three" 100);
               demo_turn true; demo_turn true; demo_turn true]) = ["a"; "b"].
Proof. vm_compute. repeat split. Qed.

(** Recording an entry again under its id fails. *)
Example activity_ids_unique :
  (Activity_Record demo_log (quiet 1000 "id") (demo_note "a" "one" 100)).1 = Fail (AcErrDuplicate "a").
Proof. vm_compute. reflexivity. Qed.
