(* ===== verification/Lifecycle.v ===== *)
(** * Lifecycle hooks and projectors (src/core/lifecycle_hooks.go, src/core/lifecycle_projectors.go, src/store/sql/notification_dispatch_store.go)

    The hooks that run before and after a commit, the registry of projectors, the projector that writes activity entries and the one that sends
    notifications, with the SQL ledger of what was sent.  A hook, a sender or an enricher is code of the application: its effect on its own world, or its
    answer to a request, is an argument. *)

From S2P Require Import Prelude GoStrings GoValues Domain Contracts GoHTTP Outbox Signers Activity.
From Stdlib Require Import ZArith String Ascii Lia.
From stdpp Require Import base decidable list gmap strings sorting.

Local Open Scope string_scope.
Local Open Scope nat_scope.
Local Open Scope list_scope.

Definition DefaultProjectorName := "go-notifications".

(** ** Hooks *)

Record LifecycleHook (W : Type) := mkHook { hook_Name : string; hook_OnEvent : W → LifecycleEvent → outcome string unit * W }.
Arguments mkHook {W}.
Arguments hook_Name {W}.
Arguments hook_OnEvent {W}.

(** The hooks in the order of their registration. *)
Record LifecycleHookCoordinator (W : Type) := mkCoordinator { hc_preCommit : list (LifecycleHook W); hc_postCommit : list (LifecycleHook W) }.
Arguments mkCoordinator {W}.
Arguments hc_preCommit {W}.
Arguments hc_postCommit {W}.

Inductive hook_error :=
| HkErrPreCommit (name cause : string) | HkErrEnqueue (e : outbox_error) | HkErrPostCommit (name cause : string).

Section hooks.
Context {W : Type}.
Implicit Types (c : LifecycleHookCoordinator W).

Definition NewLifecycleHookCoordinator : LifecycleHookCoordinator W := mkCoordinator [] [].
(** A nil hook is not registered. *)
Definition RegisterPreCommit c (hook : option (LifecycleHook W)) : LifecycleHookCoordinator W :=
  match hook with None => c | Some h => mkCoordinator (hc_preCommit c ++ [h]) (hc_postCommit c) end.
Definition RegisterPostCommit c (hook : option (LifecycleHook W)) : LifecycleHookCoordinator W :=
  match hook with None => c | Some h => mkCoordinator (hc_preCommit c) (hc_postCommit c ++ [h]) end.

Definition hookName (hook : LifecycleHook W) : string :=
  let name := TrimSpace (hook_Name hook) in if String.eqb name "" then "unnamed" else name.

Fixpoint run_pre (hooks : list (LifecycleHook W)) (w : W) (event : LifecycleEvent) : outcome hook_error unit * W :=
  match hooks with
  | [] => (Ok tt, w)
  | hook :: rest =>
    match hook_OnEvent hook w event with
    | (Fail err, w') => (Fail (HkErrPreCommit (hookName hook) err), w')
    | (Ok _, w') => run_pre rest w' event
    end
  end.
Definition ExecutePreCommit c (w : W) (event : LifecycleEvent) : outcome hook_error unit * W := run_pre (hc_preCommit c) w event.

Definition ExecutePreCommitAndEnqueue c (w : W) (T : outbox_table) (env : CallEnv) (event : LifecycleEvent)
    : outcome hook_error unit * W * outbox_table :=
  match ExecutePreCommit c w event with
  | (Fail err, w') => (Fail err, w', T)
  | (Ok _, w') =>
    match Outbox_Enqueue T env event with
    | (Fail err, T') => (Fail (HkErrEnqueue err), w', T')
    | (Ok _, T') => (Ok tt, w', T')
    end
  end.

(** The errors that [errors.Join] collects. *)
Fixpoint run_post (hooks : list (LifecycleHook W)) (w : W) (event : LifecycleEvent) : list hook_error * W :=
  match hooks with
  | [] => ([], w)
  | hook :: rest =>
    let (r, w') := hook_OnEvent hook w event in
    let (errs, w'') := run_post rest w' event in
    (match r with Fail err => HkErrPostCommit (hookName hook) err :: errs | Ok _ => errs end, w'')
  end.
Definition ExecutePostCommit c (w : W) (event : LifecycleEvent) : list hook_error * W := run_post (hc_postCommit c) w event.
End hooks.

(** ** The registry of projectors *)

Record LifecycleProjectorRegistry (H : Type) := mkProjectorRegistry { pr_handlers : gmap string H; pr_order : list string }.
Arguments mkProjectorRegistry {H}.
Arguments pr_handlers {H}.
Arguments pr_order {H}.

Section registry.
Context {H : Type}.
Definition NewLifecycleProjectorRegistry : LifecycleProjectorRegistry H := mkProjectorRegistry ∅ [].
Definition Projector_Register (r : LifecycleProjectorRegistry H) (name : string) (handler : option H) : LifecycleProjectorRegistry H :=
  match handler with
  | None => r
  | Some handler =>
    let key := TrimSpace name in
    if String.eqb key "" then r
    else mkProjectorRegistry (<[key := handler]> (pr_handlers r))
           (match pr_handlers r !! key with Some _ => pr_order r | None => sortStrings (pr_order r ++ [key]) end)
  end.
Definition Projector_Handlers (r : LifecycleProjectorRegistry H) : list H := omap (λ key, pr_handlers r !! key) (pr_order r).
End registry.

(** ** The activity projector *)

Definition activityActor (event : LifecycleEvent) : string :=
  let actor := TrimSpace (ev_Source event) in if String.eqb actor "" then "system" else actor.
Definition activityObject (event : LifecycleEvent) : string :=
  if negb (String.eqb (TrimSpace (ev_ConnectionID event)) "") then "connection:" +:+ TrimSpace (ev_ConnectionID event)
  else "provider:" +:+ TrimSpace (ev_ProviderID event).
Definition activityTime (event : LifecycleEvent) (now : Time) : Time := if IsZero (ev_OccurredAt event) then now else ev_OccurredAt event.

(** What the metadata says, if it says error or warn. *)
Definition declared_status (event : LifecycleEvent) : option string :=
  match ev_Metadata event !! "status" with
  | Some raw =>
    let s := ToLower (TrimSpace (Sprint raw)) in
    if String.eqb s ServiceActivityStatusError then Some ServiceActivityStatusError
    else if String.eqb s ServiceActivityStatusWarn then Some ServiceActivityStatusWarn else None
  | None => None
  end.
Definition activityStatus (event : LifecycleEvent) : string :=
  match declared_status event with
  | Some s => s
  | None =>
    let name := ToLower (TrimSpace (ev_Name event)) in
    if Contains name "fail" || Contains name "error" then ServiceActivityStatusError
    else if Contains name "retry" || Contains name "degrad" then ServiceActivityStatusWarn
    else ServiceActivityStatusOK
  end.

Definition copyMap (m : gmap string value) : gmap string value := m.
Definition activityMetadata (event : LifecycleEvent) : gmap string value :=
  let m := copyMap (ev_Metadata event) in
  let m := <["event_name" := VString (TrimSpace (ev_Name event))]> (<["connection_id" := VString (TrimSpace (ev_ConnectionID event))]>
    (<["scope_id" := VString (TrimSpace (ev_ScopeID event))]> (<["scope_type" := VString (TrimSpace (ev_ScopeType event))]>
    (<["provider_id" := VString (TrimSpace (ev_ProviderID event))]> m)))) in
  if decide (ev_Payload event = ∅) then m else <["payload" := VMap (copyMap (ev_Payload event))]> m.

Definition activity_of (now : Time) (event : LifecycleEvent) : ServiceActivityEntry :=
  mkServiceActivityEntry (TrimSpace (ev_ID event)) (activityActor event) (TrimSpace (ev_Name event)) (activityObject event) DefaultLifecycleChannel
    (activityStatus event) (activityMetadata event) (activityTime event now).

Inductive projection_error (E : Type) := PrErrEnrich (cause : string) | PrErrSink (e : E).
Arguments PrErrEnrich {E} cause.
Arguments PrErrSink {E} e.

Definition ActivityProjector_Handle {E A} `{ServicesActivitySink E A} (enricher : option (ServiceActivityEntry → outcome string ServiceActivityEntry))
    (sink : A) (env : CallEnv) (event : LifecycleEvent) : outcome (projection_error E) unit * A :=
  let entry := activity_of (env_now env) event in
  match (match enricher with None => Ok entry | Some enrich => enrich entry end) with
  | Fail err => (Fail (PrErrEnrich err), sink)
  | Ok entry => let (r, sink') := as_Record sink env entry in (match r with Ok _ => Ok tt | Fail e => Fail (PrErrSink e) end, sink')
  end.

(** ** Notifications *)

Record Recipient := mkRecipient { rc_Type : string; rc_ID : string }.
Record NotificationSendRequest := mkSend {
  ns_DefinitionCode : string; ns_Recipients : list Recipient; ns_Event : LifecycleEvent; ns_Metadata : gmap string value }.
Record NotificationDispatchRecord := mkDispatchRecord {
  nd_EventID : string; nd_Projector : string; nd_DefinitionCode : string; nd_RecipientKey : string; nd_IdempotencyKey : string; nd_Status : string;
  nd_Error : string; nd_Metadata : gmap string value }.

Class NotificationDispatchLedger (E L : Type) := {
  dl_Seen : L → CallEnv → string → outcome E bool;
  dl_Record : L → CallEnv → NotificationDispatchRecord → outcome E unit * L }.

Definition formatRecipientKey (recipient : Recipient) : string :=
  let id := TrimSpace (rc_ID recipient) in
  if String.eqb id "" then ""
  else let kind := TrimSpace (rc_Type recipient) in
       if String.eqb kind "" then id else ToLower kind +:+ ":" +:+ id.

Inductive notify_error (E : Type) := NtErrDefinition (cause : string) | NtErrRecipients (cause : string) | NtErrLedger (e : E) | NtErrSend (cause : string).
Arguments NtErrDefinition {E} cause.
Arguments NtErrRecipients {E} cause.
Arguments NtErrLedger {E} e.
Arguments NtErrSend {E} cause.

Section notifications.
(** [sha256.Sum256] and [Time.Format(time.RFC3339Nano)]. *)
Variable sha256 : string → string.
Variable formatNano : Time → string.

Definition buildDispatchID (projectorName definitionCode : string) (event : LifecycleEvent) (recipientKey : string) : string :=
  let eventID := TrimSpace (ev_ID event) in
  let eventID := if String.eqb eventID "" then TrimSpace (ev_Name event) +:+ "|" +:+ formatNano (ev_OccurredAt event) else eventID in
  hex_EncodeToString (sha256 (GoHTTP.Join "|" [TrimSpace projectorName; TrimSpace definitionCode; eventID; TrimSpace recipientKey])).

Context {E L : Type} `{NotificationDispatchLedger E L}.

(** The ledger and the requests the sender has got. *)
Record notify_state := mkNotify { nf_ledger : L; nf_sent : list NotificationSendRequest }.

(** What the sender answers to a request after those it has got before. *)
Abbreviation NotificationSender := (list NotificationSendRequest → NotificationSendRequest → outcome string unit).

Definition dispatch_record (projectorName definitionCode : string) (event : LifecycleEvent) (recipientKey idempotencyKey : string)
    (sent : outcome string unit) : NotificationDispatchRecord :=
  mkDispatchRecord (TrimSpace (ev_ID event)) projectorName definitionCode recipientKey idempotencyKey
    (match sent with Ok _ => "sent" | Fail _ => "failed" end) (match sent with Ok _ => "" | Fail err => err end) (copyMap (ev_Metadata event)).

(** The loop over the recipients; the ledger is called in [envs i] for the i-th of them. *)
Fixpoint notify_recipients (Send : NotificationSender) (projectorName definitionCode : string) (event : LifecycleEvent) (envs : nat → CallEnv)
    (recipients : list Recipient) (st : notify_state) : outcome (notify_error E) unit * notify_state :=
  match recipients with
  | [] => (Ok tt, st)
  | recipient :: rest =>
    let continue := notify_recipients Send projectorName definitionCode event (λ i, envs (S i)) rest in
    let recipientKey := formatRecipientKey recipient in
    if String.eqb recipientKey "" then continue st
    else
      let idempotencyKey := buildDispatchID projectorName definitionCode event recipientKey in
      match dl_Seen (nf_ledger st) (envs 0) idempotencyKey with
      | Fail err => (Fail (NtErrLedger err), st)
      | Ok true => continue st
      | Ok false =>
        let req := mkSend definitionCode [recipient] event (copyMap (ev_Metadata event)) in
        let sent := Send (nf_sent st) req in
        let record := dispatch_record projectorName definitionCode event recipientKey idempotencyKey sent in
        match dl_Record (nf_ledger st) (envs 0) record with
        | (Fail err, ledger) => (Fail (NtErrLedger err), mkNotify ledger (nf_sent st ++ [req]))
        | (Ok _, ledger) =>
          match sent with
          | Fail err => (Fail (NtErrSend err), mkNotify ledger (nf_sent st ++ [req]))
          | Ok _ => continue (mkNotify ledger (nf_sent st ++ [req]))
          end
        end
      end
  end.

Record GoNotificationsProjector := mkNotifications {
  gp_ProjectorName : string; gp_DefinitionResolver : LifecycleEvent → outcome string (string * bool);
  gp_RecipientResolver : LifecycleEvent → outcome string (list Recipient); gp_Sender : NotificationSender }.
Definition NewGoNotificationsProjector (definition : LifecycleEvent → outcome string (string * bool))
    (recipients : LifecycleEvent → outcome string (list Recipient)) (sender : NotificationSender) : GoNotificationsProjector :=
  mkNotifications DefaultProjectorName definition recipients sender.

Definition projector_name (p : GoNotificationsProjector) : string :=
  let name := TrimSpace (gp_ProjectorName p) in if String.eqb name "" then DefaultProjectorName else name.

Definition Notifications_Handle (p : GoNotificationsProjector) (st : notify_state) (envs : nat → CallEnv) (event : LifecycleEvent)
    : outcome (notify_error E) unit * notify_state :=
  match gp_DefinitionResolver p event with
  | Fail err => (Fail (NtErrDefinition err), st)
  | Ok (definitionCode, ok) =>
    let definitionCode := TrimSpace definitionCode in
    if negb ok || String.eqb definitionCode "" then (Ok tt, st)
    else match gp_RecipientResolver p event with
    | Fail err => (Fail (NtErrRecipients err), st)
    | Ok recipients => notify_recipients (gp_Sender p) (projector_name p) definitionCode event envs recipients st
    end
  end.
End notifications.
Arguments mkNotify {L}.
Arguments nf_ledger {L}.
Arguments nf_sent {L}.

(** ** The SQL ledger *)

Record notificationDispatchRecord := mkDispatchRow {
  dr_ID : string; dr_EventID : string; dr_Projector : string; dr_Definition : string; dr_RecipientKey : string; dr_Idempotency : string;
  dr_Status : string; dr_Error : string; dr_Metadata : gmap string value; dr_CreatedAt : Time }.
(** The rows by their unique idempotency key. *)
Abbreviation DispatchDB := (gmap string notificationDispatchRecord).

Inductive dispatch_error :=
| DpErrKey | DpErrEvent | DpErrProjector | DpErrDefinition | DpErrRecipient | DpErrDB (cause : string).

Definition isUniqueConstraintError (cause : string) : bool :=
  let text := ToLower cause in Contains text "unique" || Contains text "duplicate".

(** [Seen] and [Record] of one turn of the loop are the statements 0 and 1. *)
Definition Dispatch_Seen (db : DispatchDB) (env : CallEnv) (idempotencyKey : string) : outcome dispatch_error bool :=
  let key := TrimSpace idempotencyKey in
  if String.eqb key "" then Fail DpErrKey
  else match env_fault env 0 with
  | Some cause => Fail (DpErrDB cause)
  | None => Ok (bool_decide (is_Some (db !! key)))
  end.

(** A key that is there already violates the uniqueness of its column, which counts as recorded. *)
Definition Dispatch_Record (db : DispatchDB) (env : CallEnv) (input : NotificationDispatchRecord) : outcome dispatch_error unit * DispatchDB :=
  if blank (nd_EventID input) then (Fail DpErrEvent, db)
  else if blank (nd_Projector input) then (Fail DpErrProjector, db)
  else if blank (nd_DefinitionCode input) then (Fail DpErrDefinition, db)
  else if blank (nd_RecipientKey input) then (Fail DpErrRecipient, db)
  else if blank (nd_IdempotencyKey input) then (Fail DpErrKey, db)
  else
    let status := orDefault (TrimSpace (nd_Status input)) "sent" in
    let record := mkDispatchRow (env_uuid env) (TrimSpace (nd_EventID input)) (TrimSpace (nd_Projector input)) (TrimSpace (nd_DefinitionCode input))
      (TrimSpace (nd_RecipientKey input)) (TrimSpace (nd_IdempotencyKey input)) status (TrimSpace (nd_Error input)) (copyAnyMap (nd_Metadata input))
      (env_now env) in
    match env_fault env 1 with
    | Some cause => if isUniqueConstraintError cause then (Ok tt, db) else (Fail (DpErrDB cause), db)
    | None => match db !! dr_Idempotency record with
              | Some _ => (Ok tt, db)
              | None => (Ok tt, <[dr_Idempotency record := record]> db)
              end
    end.
#[export] Instance sql_dispatch_ledger : NotificationDispatchLedger dispatch_error DispatchDB :=
  {| dl_Seen := Dispatch_Seen; dl_Record := Dispatch_Record |}.

(** ** What a ledger promises *)

(** [ledger_env]: an environment in which a failing statement fails as what it is. *)
Class DispatchLedgerLaws (E L : Type) `{NotificationDispatchLedger E L} := {
  ledger_keys : L → gset string;
  ledger_env : CallEnv → Prop;
  seen_law l env k b : ledger_env env → dl_Seen l env k = Ok b → b = bool_decide (TrimSpace k ∈ ledger_keys l);
  record_law l env r l' : ledger_env env → dl_Record l env r = (Ok tt, l') → ledger_keys l' = {[TrimSpace (nd_IdempotencyKey r)]} ∪ ledger_keys l;
  record_fail_law l env r e l' : dl_Record l env r = (Fail e, l') → ledger_keys l' = ledger_keys l }.

Definition honest (env : CallEnv) : Prop := ∀ k cause, env_fault env k = Some cause → isUniqueConstraintError cause = false.
#[export] Instance sql_ledger_laws : DispatchLedgerLaws dispatch_error DispatchDB.
Proof.
  refine {| ledger_keys := λ db, dom db; ledger_env := honest |}.
  - intros db env k b _. cbn. unfold Dispatch_Seen. cbv zeta. destruct (String.eqb _ _); [done|]. destruct (env_fault env 0); [done|].
    intros [= <-]. apply bool_decide_ext. by rewrite elem_of_dom.
  - intros db env r db' Hh. cbn. unfold Dispatch_Record. cbv zeta. repeat (destruct (blank _); [done|]).
    destruct (env_fault env 1) as [c|] eqn:Hf; [by rewrite (Hh _ _ Hf)|]. cbn [dr_Idempotency].
    destruct (db !! _) as [row|] eqn:Hrow; intros [= <-]; [|by rewrite dom_insert_L].
    assert (TrimSpace (nd_IdempotencyKey r) ∈ dom db) by (by apply elem_of_dom; eexists). set_solver.
  - intros db env r e db'. cbn. unfold Dispatch_Record. cbv zeta. repeat (destruct (blank _); [by intros [= _ <-]|]).
    destruct (env_fault env 1) as [c|]; [destruct (isUniqueConstraintError c); by intros [= _ <-]|]. by destruct (db !! _).
Defined.

Section sent_once.
Variable sha256 : string → string.
Variable formatNano : Time → string.
Context {E L : Type} `{HL : DispatchLedgerLaws E L}.
Abbreviation Handle := (Notifications_Handle sha256 formatNano (E := E) (L := L)).
Abbreviation key_of := (buildDispatchID sha256 formatNano).

(** The ledger's key of a request to one recipient. *)
Definition request_key (name : string) (req : NotificationSendRequest) : string :=
  match ns_Recipients req with
  | [recipient] => TrimSpace (key_of name (ns_DefinitionCode req) (ns_Event req) (formatRecipientKey recipient))
  | _ => ""
  end.
Definition times_sent (name key : string) (st : notify_state (L := L)) : nat := length (filter (λ req, request_key name req = key) (nf_sent st)).
Definition known (key : string) (st : notify_state (L := L)) : nat := if decide (key ∈ ledger_keys (nf_ledger st)) then 1 else 0.
Definition ledger_failed (r : outcome (notify_error E) unit) : nat := match r with Fail (NtErrLedger _) => 1 | _ => 0 end.

Lemma times_sent_snoc name key l sent req : times_sent name key (mkNotify l (sent ++ [req])) =
  times_sent name key (mkNotify l sent) + if decide (request_key name req = key) then 1 else 0.
Proof. unfold times_sent. cbn [nf_sent]. rewrite filter_app, length_app, filter_cons, filter_nil. by destruct (decide _). Qed.

Lemma notify_recipients_spec Send name code event envs recipients (st st' : notify_state (L := L)) r :
  (∀ i, ledger_env (envs i)) → notify_recipients sha256 formatNano Send name code event envs recipients st = (r, st') →
  ledger_keys (nf_ledger st) ⊆ ledger_keys (nf_ledger st') ∧
  (∀ key, times_sent name key st' + known key st ≤ times_sent name key st + known key st' + ledger_failed r) ∧
  (r = Ok tt → ∀ recipient, recipient ∈ recipients → formatRecipientKey recipient ≠ "" →
     TrimSpace (key_of name code event (formatRecipientKey recipient)) ∈ ledger_keys (nf_ledger st')).
Proof.
  revert envs st. induction recipients as [|rc rest IH]; intros envs st Henv; cbn [notify_recipients].
  { intros [= <- <-]. split_and!; [done|intros; cbn; lia|]. intros _ x Hx. by apply elem_of_nil in Hx. }
  destruct (String.eqb_spec (formatRecipientKey rc) "") as [Hblank|Hkey].
  { intros Hn. destruct (IH _ _ (λ i, Henv (S i)) Hn) as (Hsub & Hcount & Hall). split_and!; [done|done|].
    intros Hr x [->|Hx]%elem_of_cons Hx'; [done|by apply Hall]. }
  set (key := key_of name code event (formatRecipientKey rc)). destruct (dl_Seen _ _ key) as [b|err] eqn:Hseen.
  2:{ intros [= <- <-]. split_and!; [done|intros; cbn; lia|done]. }
  apply seen_law in Hseen; [|apply Henv]. destruct b.
  { symmetry in Hseen. apply bool_decide_eq_true in Hseen. intros Hn. destruct (IH _ _ (λ i, Henv (S i)) Hn) as (Hsub & Hcount & Hall).
    split_and!; [done|done|]. intros Hr x [->|Hx]%elem_of_cons Hx'; [by apply Hsub|by apply Hall]. }
  symmetry in Hseen. apply bool_decide_eq_false in Hseen. set (req := mkSend _ _ _ _). set (sent := Send _ _).
  assert (Hreq : request_key name req = TrimSpace key) by done.
  destruct (dl_Record _ _ _) as [[[]|err] l'] eqn:Hrec.
  2:{ apply record_fail_law in Hrec. intros [= <- <-]. cbn [nf_ledger]. split_and!; [by rewrite Hrec| |done]. intros k. rewrite times_sent_snoc.
    change (times_sent name k (mkNotify l' (nf_sent st))) with (times_sent name k st). unfold known. cbn [nf_ledger ledger_failed]. rewrite Hrec.
    destruct (decide (request_key name req = k)); lia. }
  apply record_law in Hrec; [|apply Henv]. cbn [nd_IdempotencyKey dispatch_record] in Hrec.
  assert (Hstep : ∀ k, times_sent name k (mkNotify l' (nf_sent st ++ [req])) + known k st ≤
    times_sent name k st + known k (mkNotify l' (nf_sent st ++ [req]))).
  { intros k. rewrite times_sent_snoc. change (times_sent name k (mkNotify l' (nf_sent st))) with (times_sent name k st).
    unfold known. cbn [nf_ledger]. rewrite Hrec, Hreq. do 3 (destruct (decide _)); try lia; set_solver. }
  assert (Hgrow : ledger_keys (nf_ledger st) ⊆ ledger_keys l') by set_solver.
  destruct sent as [[]|err].
  - intros Hn. destruct (IH _ _ (λ i, Henv (S i)) Hn) as (Hsub & Hcount & Hall). cbn [nf_ledger] in Hsub. split_and!.
    + by etransitivity.
    + intros k. specialize (Hcount k). specialize (Hstep k). lia.
    + intros Hr x [->|Hx]%elem_of_cons Hx'; [|by apply Hall]. apply Hsub. rewrite Hrec. set_solver.
  - intros [= <- <-]. split_and!; [done|intros k; specialize (Hstep k); cbn [ledger_failed]; lia|done].
Qed.

Lemma Handle_spec p st envs event r st' : (∀ i, ledger_env (envs i)) → Handle p st envs event = (r, st') →
  ledger_keys (nf_ledger st) ⊆ ledger_keys (nf_ledger st') ∧
  (∀ key, times_sent (projector_name p) key st' + known key st ≤ times_sent (projector_name p) key st + known key st' + ledger_failed r).
Proof.
  intros Henv. unfold Notifications_Handle. destruct (gp_DefinitionResolver p event) as [[code ok]|err].
  2:{ intros [= <- <-]. split; [done|intros; cbn; lia]. }
  cbv zeta. destruct (negb ok || _). { intros [= <- <-]. split; [done|intros; cbn; lia]. }
  destruct (gp_RecipientResolver p event) as [rcs|err].
  2:{ intros [= <- <-]. split; [done|intros; cbn; lia]. }
  intros Hn. by destruct (notify_recipients_spec _ _ _ _ _ _ _ _ _ Henv Hn) as (? & ? & _).
Qed.

(** A sequence of deliveries, with the number of those that ended in an error of the ledger. *)
Record delivery := mkDelivery { dv_projector : GoNotificationsProjector; dv_envs : nat → CallEnv; dv_event : LifecycleEvent }.
Fixpoint deliver_all (st : notify_state (L := L)) (ds : list delivery) : nat * notify_state (L := L) :=
  match ds with
  | [] => (0, st)
  | d :: ds => let (r, st) := Handle (dv_projector d) st (dv_envs d) (dv_event d) in let (n, st) := deliver_all st ds in (ledger_failed r + n, st)
  end.

End sent_once.

(** ** Hooks and the registry *)

Section hook_facts.
Context {W : Type}.
Implicit Types (hooks : list (LifecycleHook W)).

(** The world after the given hooks have all been run. *)
Definition after_hooks hooks (w : W) (event : LifecycleEvent) : W := foldl (λ w h, (hook_OnEvent h w event).2) w hooks.
(** The hooks that return no error when each runs after the ones before it, up to the first that does. *)
Fixpoint passing hooks (w : W) (event : LifecycleEvent) : nat :=
  match hooks with
  | [] => 0
  | h :: rest => match hook_OnEvent h w event with (Ok _, w') => S (passing rest w' event) | (Fail _, _) => 0 end
  end.

Lemma run_pre_spec hooks w event :
  passing hooks w event ≤ length hooks ∧ (run_pre hooks w event).2 = after_hooks (take (S (passing hooks w event)) hooks) w event ∧
  ((run_pre hooks w event).1 = Ok tt ↔ passing hooks w event = length hooks).
Proof.
  revert w. induction hooks as [|h rest IH]; intros w; [done|]. cbn [run_pre passing].
  destruct (hook_OnEvent h w event) as [[[]|err] w'] eqn:Hh.
  - destruct (IH w') as (Hle & Hw & Hok). split_and!; [cbn; lia| |by rewrite Hok; cbn; split; [intros ->|intros [=]]].
    rewrite Hw. cbn [take after_hooks foldl]. by rewrite Hh.
  - split_and!; [lia| |split; [done|intros [=]]]. cbn [take after_hooks foldl]. by rewrite take_0, Hh.
Qed.

Lemma run_post_world hooks w event : (run_post hooks w event).2 = after_hooks hooks w event.
Proof.
  revert w. induction hooks as [|h rest IH]; intros w; [done|]. cbn [run_post after_hooks foldl]. destruct (hook_OnEvent h w event) as [r w'].
  specialize (IH w'). by destruct (run_post rest w' event).
Qed.

(** The hooks before a commit guard it, those after it do not.  [ExecutePreCommitAndEnqueue] runs the hooks in the order of their registration up to
    and including the first that fails, and touches the outbox only if none does, by what [Enqueue] does; [ExecutePostCommit] runs every hook whatever
    the others return, and reports an error for each that failed. *)
Theorem hooks_guard_commit (c : LifecycleHookCoordinator W) w T env event r w' T' :
  ExecutePreCommitAndEnqueue c w T env event = (r, w', T') →
  let ran := passing (hc_preCommit c) w event in
  w' = after_hooks (take (S ran) (hc_preCommit c)) w event ∧
  (ran < length (hc_preCommit c) → T' = T ∧ ∃ name cause, r = Fail (HkErrPreCommit name cause)) ∧
  (ran = length (hc_preCommit c) → T' = (Outbox_Enqueue T env event).2 ∧ (r = Ok tt ↔ (Outbox_Enqueue T env event).1 = Ok tt)) ∧
  (ExecutePostCommit c w event).2 = after_hooks (hc_postCommit c) w event ∧
  ((ExecutePostCommit c w event).1 = [] ↔ passing (hc_postCommit c) w event = length (hc_postCommit c)).
Proof.
  intros Hx ran. destruct (run_pre_spec (hc_preCommit c) w event) as (Hle & Hw & Hok). fold ran in Hle, Hw, Hok.
  assert (Hpost : ∀ hooks w, (run_post hooks w event).1 = [] ↔ passing hooks w event = length hooks).
  { clear. induction hooks as [|h rest IH]; intros w; [done|]. cbn [run_post passing]. destruct (hook_OnEvent h w event) as [[[]|err] w1].
    - specialize (IH w1). destruct (run_post rest w1 event) as [errs w2]. cbn [fst] in *. rewrite IH. cbn. lia.
    - destruct (run_post rest w1 event). done. }
  unfold ExecutePreCommitAndEnqueue, ExecutePreCommit in Hx.
  assert (Hkind : ∀ err, (run_pre (hc_preCommit c) w event).1 = Fail err → ∃ name cause, err = HkErrPreCommit name cause).
  { clear. generalize (hc_preCommit c) w. induction l as [|h rest IH]; intros w0 err; cbn [run_pre]; [done|].
    destruct (hook_OnEvent h w0 event) as [[[]|cause] w1]; [apply IH|]. intros [= <-]. eauto. }
  destruct (run_pre (hc_preCommit c) w event) as [[[]|err] w1]; cbn [fst snd] in *.
  - destruct (Outbox_Enqueue T env event) as [[[]|err] T1]; injection Hx as <- <- <-;
      (split_and!; [done| | |apply run_post_world|apply Hpost]; [intros; exfalso; assert (ran = length (hc_preCommit c)) by (by apply Hok); lia|done]).
  - injection Hx as <- <- <-. split_and!; [done| | |apply run_post_world|apply Hpost].
    + intros _. split; [done|]. destruct (Hkind err eq_refl) as (name & cause & ->). eauto.
    + intros Hran. by apply Hok in Hran.
Qed.
End hook_facts.

Section registry_facts.
Context {H : Type}.
Abbreviation register := (λ (r : LifecycleProjectorRegistry H) (c : string * option H), Projector_Register r c.1 c.2).
Definition registrations (calls : list (string * option H)) : LifecycleProjectorRegistry H := foldl register NewLifecycleProjectorRegistry calls.
(** What the calls ask for: the last handler of each name that is not blank. *)
Definition wanted (calls : list (string * option H)) : gmap string H :=
  foldl (λ m c, match c.2 with Some h => if blank c.1 then m else <[TrimSpace c.1 := h]> m | None => m end) ∅ calls.

(** The projectors run in the order of their names, one for every name that was registered, the last of it, whatever the order of the
    registrations. *)
Theorem projectors_in_order calls :
  let r := registrations calls in
  pr_handlers r = wanted calls ∧ Sorted String.le (pr_order r) ∧ NoDup (pr_order r) ∧ (∀ name, name ∈ pr_order r ↔ is_Some (wanted calls !! name)) ∧
  Some <$> Projector_Handlers r = (λ name, wanted calls !! name) <$> pr_order r.
Proof.
  cbv zeta. assert (Hinv : pr_handlers (registrations calls) = wanted calls ∧ Sorted String.le (pr_order (registrations calls)) ∧
    NoDup (pr_order (registrations calls)) ∧ ∀ name, name ∈ pr_order (registrations calls) ↔ is_Some (wanted calls !! name)).
  { induction calls as [|[name h] calls IH] using rev_ind.
    { split_and!; [done|constructor|constructor|]. intros name. cbn. rewrite elem_of_nil, lookup_empty. split; [done|by intros []]. }
    unfold registrations, wanted in *. rewrite !foldl_app. cbn [foldl fst snd]. set (r := foldl register _ calls) in *. set (m := foldl _ ∅ calls) in *.
    destruct IH as (Hm & Hs & Hn & Hin). destruct h as [h|]; [|done]. unfold Projector_Register. cbv zeta. unfold blank.
    destruct (String.eqb_spec (TrimSpace name) "") as [_|_]; [done|]. cbn [pr_handlers pr_order]. rewrite Hm. split; [done|].
    destruct (m !! TrimSpace name) as [h0|] eqn:Hold.
    - split_and!; [done|done|]. intros k. rewrite Hin, lookup_insert_is_Some. split; [|naive_solver].
      destruct (decide (TrimSpace name = k)); [by left|]. by right.
    - split_and!; [apply sortStrings_sorted| |].
      + rewrite sortStrings_perm, NoDup_app. split_and!; [done| |apply NoDup_singleton]. intros k Hk ->%list_elem_of_singleton.
        apply Hin in Hk. rewrite Hold in Hk. by destruct Hk.
      + intros k. rewrite elem_of_sortStrings, elem_of_app, list_elem_of_singleton, Hin, lookup_insert_is_Some.
        destruct (decide (TrimSpace name = k)) as [<-|Hne]; [split; [by left|by right]|]. split; [intros [Hk|Hk]; [by right|by destruct Hne]|].
        intros [Hk|[_ Hk]]; [by destruct Hne|by left]. }
  destruct Hinv as (Hm & Hs & Hn & Hin). split_and!; [done..|]. unfold Projector_Handlers. rewrite Hm.
  assert (Hall : ∀ l : list string, (∀ name, name ∈ l → is_Some (wanted calls !! name)) → Some <$> omap (λ key, wanted calls !! key) l = (λ name, wanted calls !! name) <$> l).
  { induction l as [|k l IH]; intros Hl; [done|]. cbn. destruct (Hl k) as [h ->]; [by left|]. cbn. f_equal. apply IH. intros n' Hn'. apply Hl. by right. }
  apply Hall. intros k. by apply Hin.
Qed.
End registry_facts.

(** ** Deliveries that repeat *)

Section redelivery.
Context {MR : MapRange}.
Variable json_column : gmap string value → gmap string value.
#[local] Existing Instance sql_activity_sink.
Abbreviation project := (ActivityProjector_Handle (E := activity_error) (H := sql_activity_sink json_column) None).

Lemma projected_id uuid now now' event : blank (ev_ID event) = false → ar_ID (activity_row uuid now (activity_of now' event)) = TrimSpace (ev_ID event).
Proof.
  intros Hid. unfold activity_row. destruct (parseObject _) as [t i]. cbn [ar_ID activity_of act_ID]. rewrite TrimSpace_idem. unfold orDefault.
  apply blank_false, String.eqb_neq in Hid. by rewrite Hid.
Qed.

(** The activity projector uses the id of the event as that of its entry, so it handles an event once: when the event is delivered again, because a later
    projector failed, recording it again fails. *)
Lemma activity_redelivery_fails db env event db' env' : blank (ev_ID event) = false →
  (project db env event).1 = Ok tt → (project db env event).2 ⊆ db' → ∃ e, (project db' env' event).1 = Fail e.
Proof.
  intros Hid. unfold ActivityProjector_Handle. cbn [as_Record sql_activity_sink]. unfold Activity_Record. cbv zeta. rewrite !projected_id by done.
  unfold activity_row. destruct (parseObject _) as [t i]. cbn [ar_ProviderID ar_ScopeType ar_ScopeID].
  change (act_Metadata (activity_of (env_now env') event)) with (act_Metadata (activity_of (env_now env) event)).
  destruct (_ || _); [done|]. destruct (env_fault env 0); [done|]. destruct (db !! _); [done|]. cbn [fst snd]. intros _ Hsub.
  destruct (env_fault env' 0) as [c|]; [by eexists|]. eapply lookup_weaken in Hsub; [|apply lookup_insert_eq]. rewrite Hsub. by eexists.
Qed.
End redelivery.

(** ** On concrete inputs *)

Definition demo_sha (s : string) : string := s.
Definition demo_nano (t : Time) : string := Itoa t.
Definition demo_lifecycle : LifecycleEvent :=
  mkLifecycleEvent "evt_1" "connection.refresh_failed" "github" "user" "u1" "c1" "" 500 ∅ ∅.
Definition demo_people : list Recipient := [mkRecipient "User" "u1"; mkRecipient "" " "; mkRecipient "" "team"; mkRecipient "user" "u1"].
Definition demo_answer (ok : list NotificationSendRequest → bool) : list NotificationSendRequest → NotificationSendRequest → outcome string unit :=
  λ before _, if ok before then Ok tt else Fail "timeout".
Definition demo_projector (ok : list NotificationSendRequest → bool) : GoNotificationsProjector :=
  NewGoNotificationsProjector (λ _, Ok ("refresh_failed", true)) (λ _, Ok demo_people) (demo_answer ok).
Definition demo_delivery (ok : list NotificationSendRequest → bool) : delivery :=
  mkDelivery (demo_projector ok) (λ _, quiet 600 "row") demo_lifecycle.
Definition demo_handle (ok : list NotificationSendRequest → bool) (st : notify_state (L := DispatchDB)) :=
  Notifications_Handle demo_sha demo_nano (demo_projector ok) st (λ _, quiet 600 "row") demo_lifecycle.

Lemma quiet_honest now uuid : honest (quiet now uuid).
Proof. intros k cause. done. Qed.


(** A send that failed is in the ledger too: the delivery that repeats the event skips the recipient and succeeds, and nobody is notified. *)
Example failed_notification_never_resent :
  let one := demo_handle (λ before, negb (bool_decide (before = []))) (mkNotify ∅ []) in
  let two := demo_handle (λ _, true) one.2 in
  one.1 = Fail (NtErrSend "timeout") ∧ two.1 = Ok tt ∧
  (ns_Recipients <$> nf_sent two.2) = [[mkRecipient "User" "u1"]; [mkRecipient "" "team"]] ∧
  (dr_Status <$> (map_to_list (nf_ledger two.2)).*2) ≡ₚ ["failed"; "sent"].
Proof. vm_compute. split_and!; [done|done|done|]. first [reflexivity|apply Permutation_swap]. Qed.

(** The activity projector fails on the second delivery of an event, so the dispatcher never reaches the projectors after it. *)
Example redelivery_stuck :
  let project db := ActivityProjector_Handle (H := sql_activity_sink (MR := key_order_range) (λ m, m)) None db (quiet 600 "row") in
  let text (r : outcome (projection_error activity_error) unit) : outcome string unit := match r with Ok _ => Ok tt | Fail _ => Fail "duplicate" end in
  let db1 := (project (∅ : ActivityDB) demo_lifecycle).2 in
  let later_projector : LifecycleEvent → outcome string unit := λ _, Fail "unreachable" in
  dispatchOne (Some [Some (λ ev, text (project ∅ ev).1); Some later_projector]) demo_lifecycle = Fail (OErrProjector 1 "evt_1" "unreachable") ∧
  dispatchOne (Some [Some (λ ev, text (project db1 ev).1); Some (λ _, Ok tt)]) demo_lifecycle = Fail (OErrProjector 0 "evt_1" "duplicate").
Proof. vm_compute. done. Qed.

(** Registering a name again replaces its projector; the order is that of the names. *)
Example projectors_demo :
  Projector_Handlers (registrations [("notify", Some 1); (" activity ", Some 2); ("", Some 3); ("notify", Some 4); ("none", None)]) = [2; 4].
Proof. vm_compute. reflexivity. Qed.

(** The second hook fails: the third does not run, and nothing is queued. *)
Definition demo_hook (name : string) (ok : bool) : LifecycleHook (list string) :=
  mkHook name (λ w _, (if ok then Ok tt else Fail "no", w ++ [name])).
Definition demo_hooks (second : bool) : LifecycleHookCoordinator (list string) :=
  RegisterPreCommit (RegisterPreCommit (RegisterPreCommit NewLifecycleHookCoordinator (Some (demo_hook "a" true))) (Some (demo_hook " b" second))) (Some (demo_hook "c" true)).
Lemma hooks_guard_commit_witness :
  ExecutePreCommitAndEnqueue (demo_hooks false) [] ∅ (quiet 600 "row") demo_lifecycle = (Fail (HkErrPreCommit "b" "no"), ["a"; " b"], ∅) ∧
  size (ExecutePreCommitAndEnqueue (demo_hooks true) [] ∅ (quiet 600 "row") demo_lifecycle).2 = 1 ∧
  after_hooks (take 2 (hc_preCommit (demo_hooks false))) [] demo_lifecycle = ["a"; " b"].
Proof.
  split; [vm_compute; reflexivity|]. split; [vm_compute; reflexivity|].
  exact (eq_sym (proj1 (hooks_guard_commit (demo_hooks false) [] ∅ (quiet 600 "row") demo_lifecycle _ _ _ eq_refl))).
Defined.
