(* ===== verification/Profiles.v ===== *)
(** * Identity profiles (src/identity/resolver.go)

    The resolver that finds out whom a token belongs to: from the claims of an ID token, or else from a user-info endpoint.  JSON parsing, URL parsing
    and the HTTP client are arguments; base64 is that of [GoBase64]. *)

From S2P Require Import Prelude GoStrings GoValues Domain Contracts GoURL GoBase64 GoHTTP Outbox.
From Stdlib Require Import ZArith String Ascii Lia.
From stdpp Require Import base decidable list gmap strings.

Local Open Scope string_scope.
Local Open Scope list_scope.

Definition maxProfileResponseBytes : Z := 1048576.
Definition googleIssuer := "https://accounts.google.com".
Definition githubIssuer := "https://github.com".
Definition googleUserInfoURL := "https://openidconnect.googleapis.com/v1/userinfo".
Definition githubUserInfoURL := "https://api.github.com/user".

Record UserProfile := mkProfile {
  up_ProviderID : string; up_Issuer : string; up_Subject : string; up_Email : string; up_EmailVerified : bool; up_Name : string;
  up_GivenName : string; up_FamilyName : string; up_PictureURL : string; up_Locale : string; up_Raw : gmap string value }.

Definition ExternalAccountID (p : UserProfile) : string :=
  let subject := TrimSpace (up_Subject p) in
  if String.eqb subject "" then ""
  else let issuer := TrimSpace (up_Issuer p) in
       if String.eqb issuer "" then subject else issuer +:+ "|" +:+ subject.

Definition Profile_Map (p : UserProfile) : gmap string value :=
  let text s := VString (TrimSpace s) in
  let m : gmap string value := list_to_map [
    ("provider_id", text (up_ProviderID p)); ("issuer", text (up_Issuer p)); ("subject", text (up_Subject p)); ("external_id", text (ExternalAccountID p));
    ("email", text (up_Email p)); ("email_verified", VBool (up_EmailVerified p)); ("name", text (up_Name p)); ("given_name", text (up_GivenName p));
    ("family_name", text (up_FamilyName p)); ("picture_url", text (up_PictureURL p)); ("locale", text (up_Locale p))] in
  if decide (up_Raw p = ∅) then m else <["raw" := VMap (up_Raw p)]> m.

Inductive identity_error :=
| IdErrTokenRequired | IdErrVerify (cause : string) | IdErrFormat | IdErrBase64 | IdErrClaims (cause : string) | IdErrSubject
| IdErrAccessToken | IdErrRequest (cause : string) | IdErrDo (cause : string) | IdErrRead (cause : string) | IdErrTooLarge | IdErrStatus (status : Z)
| IdErrDecode (cause : string).
(** [ProfileNotFoundError] with its cause. *)
Inductive profile_error := ProfileNotFound (cause : option identity_error).

Definition Profiles_normalizeProviderID (v : string) : string := TrimSpace (ToLower v).

Definition defaultIssuerForProvider (providerID : string) : string :=
  let id := Profiles_normalizeProviderID providerID in
  if bool_decide (id ∈ ["google_calendar"; "google_docs"; "google_drive"; "google_gmail"]) then googleIssuer
  else if String.eqb id "github" then githubIssuer else "".

Abbreviation ProfileNormalizer := (string → string → gmap string value → UserProfile).
Record ProviderUserInfoConfig := mkUserInfo { ui_URL : string; ui_Issuer : string; ui_Normalizer : option ProfileNormalizer }.

Section resolver.
Context {MR : MapRange}.
Variable json_Unmarshal : string → outcome string (gmap string value).
Variable parseURL : string → outcome string URL.
(** What the platform makes of a float that does not fit an integer. *)
Variable f2i_out_of_range : Z.

(** A decoded value is never a [json.Number] or another [Stringer]. *)
Definition readString (v : value) : string :=
  match v with
  | VString s => TrimSpace s
  | VInt IntK z | VInt Int64K z => Itoa z
  | VFloat64 m e _ => Itoa (float_to_int f2i_out_of_range m e)
  | VNil => ""
  | v => TrimSpace (Sprint v)
  end.
Definition readBool (v : value) : bool :=
  match v with
  | VBool b => b
  | VString s => match ParseBool (TrimSpace s) with Some b => b | None => false end
  | VInt IntK z | VInt Int64K z => negb (z =? 0)%Z
  | VFloat64 m _ _ => negb (m =? 0)%Z
  | _ => false
  end.

Definition normalizeOIDCProfile (providerID issuer : string) (payload : gmap string value) : UserProfile :=
  let text k := TrimSpace (readString (mapGet payload k)) in
  let given := text "given_name" in
  let family := text "family_name" in
  mkProfile (Profiles_normalizeProviderID providerID) (TrimSpace issuer) (text "sub") (text "email") (readBool (mapGet payload "email_verified"))
    (if blank (text "name") then TrimSpace (GoHTTP.Join " " [given; family]) else text "name")
    given family (text "picture") (text "locale") payload.

Definition normalizeGitHubProfile (providerID issuer : string) (payload : gmap string value) : UserProfile :=
  let text k := TrimSpace (readString (mapGet payload k)) in
  let subject := text "id" in
  let subject := if String.eqb subject "" then text "node_id" else subject in
  let subject := if String.eqb subject "" then text "login" else subject in
  let name := if String.eqb (text "name") "" then text "login" else text "name" in
  mkProfile (Profiles_normalizeProviderID providerID) (TrimSpace issuer) subject (text "email") false name "" "" (text "avatar_url") (text "locale") payload.

Definition defaultProviderUserInfoConfigs : gmap string ProviderUserInfoConfig :=
  let google := mkUserInfo googleUserInfoURL googleIssuer None in
  list_to_map [("google_calendar", google); ("google_docs", google); ("google_drive", google); ("google_gmail", google);
               ("github", mkUserInfo githubUserInfoURL githubIssuer (Some normalizeGitHubProfile))].

Abbreviation IDTokenVerifier := (string → string → gmap string value → outcome string (gmap string value)).
Record Resolver := mkResolver {
  rs_httpClient : HTTPDoer; rs_idTokenVerifier : option IDTokenVerifier; rs_providerUserInfo : gmap string ProviderUserInfoConfig }.

(** The entries of the configuration replace the defaults, in the order in which the map is ranged over. *)
Definition NewResolver (client : HTTPDoer) (verifier : option IDTokenVerifier) (given : gmap string ProviderUserInfoConfig) : Resolver :=
  mkResolver client verifier
    (foldl (λ m kv, let id := Profiles_normalizeProviderID kv.1 in
                    if String.eqb id "" then m
                    else <[id := mkUserInfo (TrimSpace (ui_URL kv.2)) (TrimSpace (ui_Issuer kv.2)) (ui_Normalizer kv.2)]> m)
           defaultProviderUserInfoConfigs (map_range given)).

Definition merge_into (m base : gmap string value) : gmap string value :=
  foldl (λ m kv, let k := TrimSpace kv.1 in if String.eqb k "" then m else <[k := kv.2]> m) m (map_range base).
Definition Profiles_mergeMetadata (base override : gmap string value) : gmap string value := merge_into (merge_into ∅ base) override.

Definition fetchUserInfo (r : Resolver) (endpoint accessToken : string) : outcome identity_error (gmap string value) :=
  if blank accessToken then Fail IdErrAccessToken
  else match parseURL endpoint with
  | Fail err => Fail (IdErrRequest err)
  | Ok u =>
    let req := hr_set (hr_set (mkHttpRequest "GET" u ∅ None) "Accept" "application/json") "Authorization" ("Bearer " +:+ accessToken) in
    match rs_httpClient r req with
    | Fail err => Fail (IdErrDo err)
    | Ok res =>
      if exceeds maxProfileResponseBytes res then Fail IdErrTooLarge
      else match hp_ReadError res with
      | Some err => Fail (IdErrRead err)
      | None =>
        if negb (status_ok res) then Fail (IdErrStatus (hp_Status res))
        else match json_Unmarshal (hp_Body res) with
        | Fail err => Fail (IdErrDecode err)
        | Ok payload => Ok payload
        end
      end
    end
  end.

Definition decodeJWTPayload (token : string) : outcome identity_error (gmap string value) :=
  match SplitChar "." (TrimSpace token) with
  | _ :: part :: _ =>
    match RawURLDecode part with
    | None => Fail IdErrBase64
    | Some decoded => match json_Unmarshal decoded with Fail err => Fail (IdErrClaims err) | Ok payload => Ok payload end
    end
  | _ => Fail IdErrFormat
  end.

Definition decodeVerifiedOrRawIDToken (r : Resolver) (providerID idToken : string) (metadata : gmap string value)
    : outcome identity_error (gmap string value) :=
  match rs_idTokenVerifier r with
  | Some verify => match verify providerID idToken metadata with Fail err => Fail (IdErrVerify err) | Ok claims => Ok claims end
  | None => decodeJWTPayload idToken
  end.

Definition profileFromIDToken (r : Resolver) (providerID : string) (metadata : gmap string value) : outcome identity_error UserProfile :=
  let idToken := TrimSpace (readString (mapGet metadata "id_token")) in
  if String.eqb idToken "" then Fail IdErrTokenRequired
  else match decodeVerifiedOrRawIDToken r providerID idToken metadata with
  | Fail err => Fail err
  | Ok payload =>
    let issuer := TrimSpace (readString (mapGet payload "iss")) in
    let issuer := if String.eqb issuer "" then defaultIssuerForProvider providerID else issuer in
    let profile := normalizeOIDCProfile providerID issuer payload in
    if blank (up_Subject profile) then Fail IdErrSubject else Ok profile
  end.

(** The endpoint that is asked when the ID token does not tell. *)
Definition userinfo_endpoint (r : Resolver) (id : string) (metadata : gmap string value) : string :=
  let url := TrimSpace (readString (mapGet metadata "userinfo_endpoint")) in
  if String.eqb url "" then match rs_providerUserInfo r !! id with Some c => TrimSpace (ui_URL c) | None => "" end else url.

Definition Resolve (r : Resolver) (providerID : string) (cred : ActiveCredential) (metadata : gmap string value) : outcome profile_error UserProfile :=
  let id := Profiles_normalizeProviderID providerID in
  let merged := Profiles_mergeMetadata (ac_Metadata cred) metadata in
  let from_token := profileFromIDToken r id merged in
  match from_token with
  | Ok profile => Ok profile
  | Fail tokenErr =>
    let url := userinfo_endpoint r id merged in
    if String.eqb url "" then Fail (ProfileNotFound (Some tokenErr))
    else match fetchUserInfo r url (TrimSpace (ac_AccessToken cred)) with
    | Fail err => Fail (ProfileNotFound (Some err))
    | Ok payload =>
      let config := rs_providerUserInfo r !! id in
      let issuer := TrimSpace (readString (mapGet payload "iss")) in
      let issuer := if String.eqb issuer "" then match config with Some c => TrimSpace (ui_Issuer c) | None => "" end else issuer in
      let issuer := if String.eqb issuer "" then defaultIssuerForProvider id else issuer in
      let normalizer := match config with Some c => default normalizeOIDCProfile (ui_Normalizer c) | None => normalizeOIDCProfile end in
      let profile := normalizer id issuer payload in
      if blank (up_Subject profile) then Fail (ProfileNotFound None) else Ok profile
    end
  end.
End resolver.

(** ** What a resolved profile is worth *)

Section facts.
Context {MR : MapRange}.
Variable json_Unmarshal : string → outcome string (gmap string value).
Variable parseURL : string → outcome string URL.
Variable oor : Z.
Abbreviation resolve := (Resolve json_Unmarshal parseURL oor).

Lemma account_id_nonempty p : blank (up_Subject p) = false → ExternalAccountID p ≠ "".
Proof.
  intros Hs%blank_false. unfold ExternalAccountID. apply String.eqb_neq in Hs as Hs'. rewrite Hs'. destruct (String.eqb (TrimSpace (up_Issuer p)) ""); [done|].
  intros H. apply (f_equal list_ascii_of_string) in H. rewrite list_ascii_app in H. by destruct (list_ascii_of_string (TrimSpace (up_Issuer p))).
Qed.

(** Accounts of issuers whose names hold no bar are told apart by issuer and subject. *)
Lemma account_ids_distinct p q : blank (up_Issuer p) = false → blank (up_Issuer q) = false → blank (up_Subject p) = false → blank (up_Subject q) = false →
  Forall (λ c, Ascii.eqb c "|" = false) (list_ascii_of_string (TrimSpace (up_Issuer p))) →
  Forall (λ c, Ascii.eqb c "|" = false) (list_ascii_of_string (TrimSpace (up_Issuer q))) → ExternalAccountID p = ExternalAccountID q →
  TrimSpace (up_Issuer p) = TrimSpace (up_Issuer q) ∧ TrimSpace (up_Subject p) = TrimSpace (up_Subject q).
Proof.
  intros Hip%blank_false%String.eqb_neq Hiq%blank_false%String.eqb_neq Hsp%blank_false%String.eqb_neq Hsq%blank_false%String.eqb_neq Hp Hq.
  unfold ExternalAccountID. rewrite Hip, Hiq, Hsp, Hsq. intros H. apply (f_equal (CutChar "|")) in H.
  change (?a +:+ "|" +:+ ?b) with (a +:+ String "|" b) in H. rewrite !CutChar_app in H by done. by injection H.
Qed.

(** The claims of an ID token are those its second part encodes. *)
Lemma id_token_claims header claims signature : Forall (λ c, Ascii.eqb c "." = false) (list_ascii_of_string header) →
  let token := header +:+ "." +:+ RawURLEncode claims +:+ "." +:+ signature in
  TrimSpace token = token → decodeJWTPayload json_Unmarshal token = match json_Unmarshal claims with Fail err => Fail (IdErrClaims err) | Ok m => Ok m end.
Proof.
  intros Hh token Ht. unfold decodeJWTPayload. rewrite Ht. unfold token. rewrite SplitChar_sep by done.
  rewrite SplitChar_sep; [by rewrite RawURLDecode_Encode|]. eapply Forall_impl; [apply RawURLEncode_chars|]. intros c [_ Hc]. by apply Ascii.eqb_neq.
Qed.

(** Whom a token belongs to is never guessed.  A profile that [Resolve] returns has a subject, so its account id is not empty; it is made of the
    claims of the ID token, verified if there is a verifier, and if those tell nothing, of what the user-info endpoint answered with success to a
    request that bears the access token.  When the token's claims tell, no request is made: the answer is the same for every client. *)
Theorem profile_resolution r providerID cred metadata p :
  resolve r providerID cred metadata = Ok p →
  let id := Profiles_normalizeProviderID providerID in
  let merged := Profiles_mergeMetadata (ac_Metadata cred) metadata in
  blank (up_Subject p) = false ∧ ExternalAccountID p ≠ "" ∧
  ((∃ claims, decodeVerifiedOrRawIDToken json_Unmarshal r id (TrimSpace (readString oor (mapGet merged "id_token"))) merged = Ok claims ∧
      p = normalizeOIDCProfile oor id (up_Issuer p) claims ∧
      ∀ client, resolve (mkResolver client (rs_idTokenVerifier r) (rs_providerUserInfo r)) providerID cred metadata = Ok p) ∨
   (∃ err u res payload, profileFromIDToken json_Unmarshal oor r id merged = Fail err ∧ blank (ac_AccessToken cred) = false ∧
      parseURL (userinfo_endpoint oor r id merged) = Ok u ∧
      rs_httpClient r (hr_set (hr_set (mkHttpRequest "GET" u ∅ None) "Accept" "application/json") "Authorization" ("Bearer " +:+ TrimSpace (ac_AccessToken cred))) = Ok res ∧
      (200 ≤ hp_Status res < 300)%Z ∧ json_Unmarshal (hp_Body res) = Ok payload)).
Proof.
  intros Hr id merged. unfold Resolve in Hr. cbv zeta in Hr. fold id merged in Hr. destruct (profileFromIDToken json_Unmarshal oor r id merged) as [q|err] eqn:Ht.
  - injection Hr as ->. assert (Hall : ∀ client, resolve (mkResolver client (rs_idTokenVerifier r) (rs_providerUserInfo r)) providerID cred metadata = Ok p).
    { intros client. unfold Resolve. fold id merged.
      change (profileFromIDToken json_Unmarshal oor (mkResolver client (rs_idTokenVerifier r) (rs_providerUserInfo r)) id merged) with (profileFromIDToken json_Unmarshal oor r id merged).
      by rewrite Ht. }
    unfold profileFromIDToken in Ht. cbv zeta in Ht. destruct (String.eqb _ _); [done|]. destruct (decodeVerifiedOrRawIDToken _ _ _ _ _) as [claims|] eqn:Hd; [|done].
    destruct (blank (up_Subject _)) eqn:Hs; [done|]. injection Ht as <-. split_and!; [done|by apply account_id_nonempty|]. left. exists claims. split_and!; [done| |done].
    unfold normalizeOIDCProfile. cbn [up_Issuer]. by rewrite TrimSpace_idem.
  - destruct (String.eqb _ _); [done|]. destruct (fetchUserInfo _ _ _ _ _) as [payload|] eqn:Hf; [|done]. destruct (blank (up_Subject _)) eqn:Hs; [done|].
    injection Hr as <-. split_and!; [done|by apply account_id_nonempty|]. right. unfold fetchUserInfo in Hf. rewrite blank_TrimSpace in Hf.
    destruct (blank (ac_AccessToken cred)) eqn:Ha; [done|]. destruct (parseURL _) as [u|] eqn:Hu; [|done]. destruct (rs_httpClient r _) as [res|] eqn:Hd; [|done].
    destruct (exceeds _ _); [done|]. destruct (hp_ReadError res); [done|]. destruct (status_ok res) eqn:Hok; [|done]. cbn [negb] in Hf.
    destruct (json_Unmarshal (hp_Body res)) as [pl|] eqn:Hj; [|done]. exists err, u, res, pl. unfold status_ok in Hok. split_and!; try done; lia.
Qed.
End facts.

(** ** On concrete inputs *)

Definition demo_json (s : string) : outcome string (gmap string value) :=
  if String.eqb s "claims" then Ok {["sub" := VString " 77 "; "email_verified" := VString "true"; "given_name" := VString "Ada"; "family_name" := VString "L"]}
  else if String.eqb s "github" then Ok {["id" := VFloat64 583231 0 "583231"; "login" := VString "octocat"]} else Fail "syntax".
Definition demo_client : HTTPDoer := λ req, if String.eqb (Header_Get (hr_Header req) "Authorization") "Bearer tok" then Ok (mkHttpResponse 200 ∅ "github" None) else Ok (mkHttpResponse 401 ∅ "" None).
Definition demo_parse (s : string) : outcome string URL := Ok (mkURL "api" s "" "").
Definition demo_active (token : string) : ActiveCredential := mkActiveCredential "" "bearer" token "" [] [] None false None ∅.
#[local] Instance demo_MapRange : MapRange := key_order_range.
Definition demo_resolver : Resolver := NewResolver 0 demo_client None ∅.

Lemma profile_resolution_witness :
  let resolve := Resolve demo_json demo_parse 0 demo_resolver in
  (∃ p, resolve "GitHub" (demo_active " tok ") ∅ = Ok p ∧ up_Name p = "octocat" ∧ ExternalAccountID p = "https://github.com|583231") ∧
  resolve "GitHub" (demo_active "old") ∅ = Fail (ProfileNotFound (Some (IdErrStatus 401))) ∧
  resolve "other" (demo_active "tok") ∅ = Fail (ProfileNotFound (Some IdErrTokenRequired)) ∧
  ∃ p, resolve "google_docs" (demo_active "") {["id_token" := VString ("e30." +:+ RawURLEncode "claims" +:+ ".sig")]} = Ok p ∧
    (ExternalAccountID p, up_Name p, up_EmailVerified p) = ("https://accounts.google.com|77", "Ada L", true) ∧ blank (up_Subject p) = false.
Proof.
  cbv zeta. split; [eexists; vm_compute; repeat split|]. split; [vm_compute; reflexivity|]. split; [vm_compute; reflexivity|].
  eexists. split; [vm_compute; reflexivity|]. split; [vm_compute; reflexivity|].
  refine (proj1 (profile_resolution demo_json demo_parse 0 demo_resolver "google_docs" (demo_active "")
    {["id_token" := VString ("e30." +:+ RawURLEncode "claims" +:+ ".sig")]} _ _)). vm_compute; reflexivity.
Defined.

(** An issuer with a bar in its name can take the account of another. *)
Example account_ids_collide :
  let profile issuer subject := mkProfile "p" issuer subject "" false "" "" "" "" "" ∅ in
  ExternalAccountID (profile "https://idp|a" "b") = ExternalAccountID (profile "https://idp" "a|b") ∧
  ExternalAccountID (profile "" "https://github.com|1") = ExternalAccountID (profile githubIssuer "1").
Proof. split; reflexivity. Qed.
