(* ===== verification/OAuth2.v ===== *)
(** * The OAuth2 provider (src/providers/oauth2_provider.go)

    The provider that most integrations are built from: the authorization URL, the exchange of a code or a refresh token at the token endpoint, and the
    credential that comes of it.  The HTTP client, URL parsing, JSON parsing and the random state are arguments; the client's answer is a function of
    the request. *)

From S2P Require Import Prelude GoStrings GoValues Domain OAuthState Contracts GoURL GoBase64 GoHTTP Outbox Grants Permissions Refresh ServiceTypes Profiles.
From Stdlib Require Import ZArith String Ascii Lia.
From stdpp Require Import base decidable list gmap strings sorting.

Local Open Scope string_scope.
Local Open Scope list_scope.

Definition defaultAuthKind := "oauth2_auth_code".
Definition defaultTokenRequestTimeout : Duration := (30 * Second)%Z.
Definition maxTokenResponseBodyBytes : Z := 1048576.

(** A resolver as the provider sees it. *)
Abbreviation ProfileResolver := (string → ActiveCredential → gmap string value → outcome profile_error UserProfile).

Record OAuth2Config := mkOAuth2Config {
  oc_ID : string; oc_AuthURL : string; oc_TokenURL : string; oc_ClientID : string; oc_ClientSecret : string; oc_ClientSecretInBody : bool;
  oc_DefaultScopes : list string; oc_SupportedScopeTypes : list string; oc_Capabilities : list CapabilityDescriptor; oc_TokenTTL : Duration;
  oc_TokenRequestTimeout : Duration; oc_ProfileResolver : option ProfileResolver }.

Record tokenEndpointPayload := mkToken {
  tk_AccessToken : string; tk_TokenType : string; tk_RefreshToken : string; tk_IDToken : string; tk_Scope : string; tk_ExpiresIn : Z;
  tk_ErrorCode : string; tk_ErrorDescription : string }.

Inductive oauth2_error :=
| OaErrID | OaErrAuthURL | OaErrTokenURL | OaErrClientID | OaErrScope (e : domain_error) | OaErrState (cause : string) | OaErrCode | OaErrRefreshToken
| OaErrAccount | OaErrRequest (cause : string) | OaErrDo (cause : string) | OaErrRead (cause : string) | OaErrTooLarge | OaErrDecode (cause : string)
| OaErrStatus (status : Z) (description : string) | OaErrEndpoint (description : string) | OaErrNoToken.

(** ** Values *)

(** The normalized values in the order of their first occurrence. *)
Definition add_normalized (values : list string) (v : string) : list string :=
  let normalized := TrimSpace (ToLower v) in
  if String.eqb normalized "" || bool_decide (normalized ∈ values) then values else values ++ [normalized].
Definition normalizeGrants (input : list string) : list string := sortStrings (foldl add_normalized [] input).
Definition normalizeScopeTypes (input : list string) : list string :=
  match foldl add_normalized [] input with [] => ["user"; "org"] | values => sortStrings values end.

Definition normalizeTokenType (v : string) : string := let n := ToLower (TrimSpace v) in if String.eqb n "" then "bearer" else n.

Definition parseScopeList (v : string) : list string :=
  let trimmed := TrimSpace v in if String.eqb trimmed "" then [] else Fields (ReplaceAll trimmed "," " ").

(** [strconv.ParseUint(s, 10, 64)] up to the first overflow, at which it returns the largest value; [None] is a syntax error. *)
Definition uint64_max : Z := (2 ^ 64 - 1)%Z.
Fixpoint scan_uint (acc : Z) (s : string) : option Z :=
  match s with
  | EmptyString => Some acc
  | String c s' => match digit_value c with
                   | None => None
                   | Some d => let n := (acc * 10 + d)%Z in if (uint64_max <? n)%Z then Some uint64_max else scan_uint n s'
                   end
  end.
(** The value [strconv.ParseInt(s, 10, 64)] returns, with an error or without: 0 for text that is not a number, the nearest value for one out of range. *)
Definition ParseInt_value (s : string) : Z :=
  let scan t := if String.eqb t "" then None else scan_uint 0 t in
  let '(neg, digits) := match s with
    | String c s' => if Ascii.eqb c "-"%char then (true, s') else if Ascii.eqb c "+"%char then (false, s') else (false, s)
    | EmptyString => (false, s)
    end in
  match scan digits with
  | None => 0%Z
  | Some un => if neg then if (2 ^ 63 <? un)%Z then int64_min else (- un)%Z else if (2 ^ 63 <=? un)%Z then int64_max else un
  end.

Definition readAnyString (v : value) : string := match v with VNil => "" | VString s => TrimSpace s | v => TrimSpace (Sprint v) end.
Definition metaString (metadata : gmap string value) (key : string) : string :=
  match metadata !! key with None | Some VNil => "" | Some v => TrimSpace (Sprint v) end.
Definition readStringSlice (metadata : gmap string value) (key : string) : list string :=
  match metadata !! key with
  | None | Some VNil => []
  | Some (VStrings l) => l
  | Some (VList l) => filter (λ s, negb (String.eqb s "") && negb (String.eqb s "<nil>")) ((λ v, TrimSpace (Sprint v)) <$> l)
  | Some v =>
    let trimmed := TrimSpace (Sprint v) in
    if String.eqb trimmed "" || String.eqb trimmed "<nil>" then []
    else if negb (Contains trimmed ",") then [trimmed]
    else filter (λ s, negb (String.eqb s "")) (TrimSpace <$> SplitChar "," trimmed)
  end.

(** The granted list, or the other one when it is empty. *)
Definition or_else {A} (l d : list A) : list A := match l with [] => d | _ => l end.

Definition NewOAuth2Provider (cfg : OAuth2Config) : outcome oauth2_error OAuth2Config :=
  let id := TrimSpace (ToLower (oc_ID cfg)) in
  if String.eqb id "" then Fail OaErrID
  else if blank (oc_AuthURL cfg) then Fail OaErrAuthURL
  else if blank (oc_TokenURL cfg) then Fail OaErrTokenURL
  else if blank (oc_ClientID cfg) then Fail OaErrClientID
  else Ok (mkOAuth2Config id (TrimSpace (oc_AuthURL cfg)) (TrimSpace (oc_TokenURL cfg)) (TrimSpace (oc_ClientID cfg)) (TrimSpace (oc_ClientSecret cfg))
    (oc_ClientSecretInBody cfg) (normalizeGrants (oc_DefaultScopes cfg)) (normalizeScopeTypes (or_else (oc_SupportedScopeTypes cfg) ["user"; "org"]))
    (oc_Capabilities cfg) (if (oc_TokenTTL cfg <=? 0)%Z then (3600 * Second)%Z else oc_TokenTTL cfg)
    (if (oc_TokenRequestTimeout cfg <=? 0)%Z then defaultTokenRequestTimeout else oc_TokenRequestTimeout cfg) (oc_ProfileResolver cfg)).

Section provider.
Variable json_Unmarshal : string → outcome string (gmap string value).
Variable parseURL : string → outcome string URL.
(** What the platform makes of a float that does not fit an integer. *)
Variable f2i_out_of_range : Z.

(** [url.ParseQuery]: an error if a setting does not parse. *)
Definition setting_ok (s : string) : bool :=
  if bool_decide (";"%char ∈ list_ascii_of_string s) then false
  else let (k, v) := default (s, "") (CutChar "=" s) in
       match QueryUnescape k, QueryUnescape v with Some _, Some _ => true | _, _ => false end.
Definition ParseForm (raw : string) : outcome string Values :=
  if forallb setting_ok (SplitChar "&" raw) then Ok (ParseQuery raw) else Fail "invalid setting".

Definition readAnyInt64 (v : value) : Z :=
  match v with
  | VInt IntK z | VInt Int64K z => z
  | VFloat64 m e _ => float_to_int f2i_out_of_range m e
  | VString s => match ParseInt10 (TrimSpace s) with Some z => z | None => 0%Z end
  | _ => 0%Z
  end.

Definition parseTokenPayloadJSON (body : string) : outcome string tokenEndpointPayload :=
  if blank body then Fail "empty payload"
  else match json_Unmarshal body with
  | Fail err => Fail err
  | Ok decoded =>
    let text k := readAnyString (mapGet decoded k) in
    Ok (mkToken (text "access_token") (text "token_type") (text "refresh_token") (text "id_token") (text "scope")
          (readAnyInt64 (mapGet decoded "expires_in")) (text "error") (text "error_description"))
  end.

Definition parseTokenPayloadForm (body : string) : outcome string tokenEndpointPayload :=
  if blank body then Fail "empty payload"
  else match ParseForm body with
  | Fail err => Fail err
  | Ok values =>
    let text k := TrimSpace (Values_Get values k) in
    Ok (mkToken (text "access_token") (text "token_type") (text "refresh_token") (text "id_token") (text "scope")
          (ParseInt_value (text "expires_in")) (text "error") (text "error_description"))
  end.

Definition parseTokenPayload (body contentType : string) : outcome string tokenEndpointPayload :=
  let contentType := ToLower (TrimSpace contentType) in
  if Contains contentType "json" then parseTokenPayloadJSON body
  else if Contains contentType "x-www-form-urlencoded" || Contains contentType "text/plain" then parseTokenPayloadForm body
  else match parseTokenPayloadJSON body with Ok p => Ok p | Fail _ => parseTokenPayloadForm body end.

Definition describeTokenError (p : tokenEndpointPayload) : string :=
  if negb (blank (tk_ErrorDescription p)) then TrimSpace (tk_ErrorDescription p)
  else if negb (blank (tk_ErrorCode p)) then TrimSpace (tk_ErrorCode p) else "unknown error".

(** The form that is sent: the given one, trimmed, with the client's id and, if configured so, its secret. *)
Definition token_form (p : OAuth2Config) (form : Values) : Values :=
  let values : Values := map_imap (λ k items, match items with [] => None | _ => if blank k then None else Some (TrimSpace <$> items) end) form in
  let values := Values_Set values "client_id" (oc_ClientID p) in
  if oc_ClientSecretInBody p && negb (String.eqb (oc_ClientSecret p) "") then Values_Set values "client_secret" (oc_ClientSecret p) else values.

Definition token_request (p : OAuth2Config) (u : URL) (form : Values) : HttpRequest :=
  let req := mkHttpRequest "POST" u ∅ (Some (Values_Encode (token_form p form))) in
  let req := hr_set (hr_set req "Content-Type" "application/x-www-form-urlencoded") "Accept" "application/json" in
  if negb (oc_ClientSecretInBody p) && negb (String.eqb (oc_ClientSecret p) "")
  then hr_set req "Authorization" ("Basic " +:+ StdEncode (oc_ClientID p +:+ ":" +:+ oc_ClientSecret p)) else req.

(** What is made of the answer. *)
Definition token_response (res : HttpResponse) : outcome oauth2_error tokenEndpointPayload :=
  if exceeds maxTokenResponseBodyBytes res then Fail OaErrTooLarge
  else match hp_ReadError res with
  | Some err => Fail (OaErrRead err)
  | None =>
    match parseTokenPayload (hp_Body res) (Header_Get (hp_Header res) "Content-Type") with
    | Fail err => Fail (OaErrDecode err)
    | Ok payload =>
      if negb (status_ok res) then Fail (OaErrStatus (hp_Status res) (describeTokenError payload))
      else if negb (String.eqb (tk_ErrorCode payload) "") then Fail (OaErrEndpoint (describeTokenError payload))
      else if blank (tk_AccessToken payload) then Fail OaErrNoToken
      else Ok payload
    end
  end.

Definition fetchToken (p : OAuth2Config) (client : HTTPDoer) (form : Values) : outcome oauth2_error tokenEndpointPayload :=
  if blank (oc_TokenURL p) then Fail OaErrTokenURL
  else match parseURL (oc_TokenURL p) with
  | Fail err => Fail (OaErrRequest err)
  | Ok u => match client (token_request p u form) with
            | Fail err => Fail (OaErrDo err)
            | Ok res => token_response res
            end
  end.

Definition resolveExpiresAt (p : OAuth2Config) (now : Time) (expiresIn : Z) : option Time :=
  let ttl := if (0 <? expiresIn)%Z then wrap64 (expiresIn * Second) else oc_TokenTTL p in
  if (ttl <=? 0)%Z then None else Some (addTime now ttl).

(** [random]: the state that is generated when the caller gives none. *)
Definition BeginAuth (p : OAuth2Config) (random : outcome string string) (req : BeginAuthRequest) : outcome oauth2_error BeginAuthResponse :=
  match ScopeRef_Validate (ba_Scope req) with
  | Fail e => Fail (OaErrScope e)
  | Ok _ =>
    let state := TrimSpace (ba_State req) in
    match (if String.eqb state "" then random else Ok state) with
    | Fail err => Fail (OaErrState err)
    | Ok state =>
      let requested := or_else (normalizeGrants (ba_RequestedGrants req)) (oc_DefaultScopes p) in
      let values := Values_Set (Values_Set ∅ "response_type" "code") "client_id" (oc_ClientID p) in
      let values := if negb (blank (ba_RedirectURI req)) then Values_Set values "redirect_uri" (TrimSpace (ba_RedirectURI req)) else values in
      let values := Values_Set (Values_Set values "scope" (GoHTTP.Join " " requested)) "state" state in
      let authURL := oc_AuthURL p +:+ (if Contains (oc_AuthURL p) "?" then "&" else "?") +:+ Values_Encode values in
      Ok (mkBeginResponse authURL state requested
            (<["token_url" := VString (oc_TokenURL p)]> (<["provider_id" := VString (oc_ID p)]> (ba_Metadata req))))
    end
  end.

Definition with_id_token (token : tokenEndpointPayload) (m : gmap string value) : gmap string value :=
  if blank (tk_IDToken token) then m else <["id_token" := VString (TrimSpace (tk_IDToken token))]> m.
Definition origin_metadata (p : OAuth2Config) (m : gmap string value) : gmap string value :=
  <["token_url" := VString (oc_TokenURL p)]> (<["provider_id" := VString (oc_ID p)]> m).

(** The account and what the profile says of it; a resolver that fails says nothing. *)
Definition resolve_account (p : OAuth2Config) (token : tokenEndpointPayload) (credential : ActiveCredential) (metadata : gmap string value)
    : string * gmap string value :=
  let id := metaString metadata "external_account_id" in
  match oc_ProfileResolver p with
  | Some resolve =>
    if String.eqb id "" then
      match resolve (oc_ID p) credential (with_id_token token metadata) with
      | Ok profile =>
        let id := TrimSpace (ExternalAccountID profile) in
        (if String.eqb id "" then TrimSpace (up_Subject profile) else id, Profile_Map profile)
      | Fail _ => (id, ∅)
      end
    else (id, ∅)
  | None => (id, ∅)
  end.

Definition with_profile (profile m : gmap string value) : gmap string value :=
  if decide (profile = ∅) then m else <["identity_profile" := VMap profile]> m.

Definition code_form (req : CompleteAuthRequest) : Values :=
  let form := Values_Set (Values_Set ∅ "grant_type" "authorization_code") "code" (TrimSpace (ca_Code req)) in
  if negb (blank (ca_RedirectURI req)) then Values_Set form "redirect_uri" (TrimSpace (ca_RedirectURI req)) else form.

Definition CompleteAuth (p : OAuth2Config) (client : HTTPDoer) (now : Time) (req : CompleteAuthRequest) : outcome oauth2_error AuthCompleteResponse :=
  match ScopeRef_Validate (ca_Scope req) with
  | Fail e => Fail (OaErrScope e)
  | Ok _ =>
    if blank (ca_Code req) then Fail OaErrCode
    else
      let requested := or_else (normalizeGrants (readStringSlice (ca_Metadata req) "requested_grants")) (oc_DefaultScopes p) in
      match fetchToken p client (code_form req) with
      | Fail err => Fail err
      | Ok token =>
        let granted := or_else (normalizeGrants (parseScopeList (tk_Scope token)))
                         (or_else (normalizeGrants (readStringSlice (ca_Metadata req) "granted_grants")) requested) in
        let refreshToken := TrimSpace (tk_RefreshToken token) in
        let credential m := mkActiveCredential "" (normalizeTokenType (tk_TokenType token)) (TrimSpace (tk_AccessToken token)) refreshToken requested granted
          (resolveExpiresAt p now (tk_ExpiresIn token)) (negb (String.eqb refreshToken "")) None m in
        let base := with_id_token token (origin_metadata p ∅) in
        let '(externalAccountID, profile) := resolve_account p token (credential base) (ca_Metadata req) in
        if String.eqb externalAccountID "" then Fail OaErrAccount
        else Ok (mkCompleteResponse externalAccountID (credential (with_profile profile base)) requested granted (with_profile profile base))
      end
  end.

Definition refresh_form (requested : list string) (refreshToken : string) : Values :=
  let form := Values_Set (Values_Set ∅ "grant_type" "refresh_token") "refresh_token" refreshToken in
  match requested with [] => form | _ => Values_Set form "scope" (GoHTTP.Join " " requested) end.

Definition OAuth2_Refresh (p : OAuth2Config) (client : HTTPDoer) (now : Time) (cred : ActiveCredential) : outcome oauth2_error RefreshResult :=
  let refreshToken := TrimSpace (ac_RefreshToken cred) in
  if String.eqb refreshToken "" then Fail OaErrRefreshToken
  else
    let requested := or_else (normalizeGrants (ac_RequestedScopes cred)) (oc_DefaultScopes p) in
    let granted := or_else (normalizeGrants (ac_GrantedScopes cred)) requested in
    match fetchToken p client (refresh_form requested refreshToken) with
    | Fail err => Fail err
    | Ok token =>
      let granted := or_else (normalizeGrants (parseScopeList (tk_Scope token))) granted in
      let nextRefresh := TrimSpace (tk_RefreshToken token) in
      let kept := if String.eqb nextRefresh "" then ac_RefreshToken cred else nextRefresh in
      let refreshed := mkActiveCredential (ac_ConnectionID cred) (normalizeTokenType (tk_TokenType token)) (TrimSpace (tk_AccessToken token)) kept
        requested granted (resolveExpiresAt p now (tk_ExpiresIn token)) (negb (blank kept)) (ac_RotatesAt cred)
        (with_id_token token (origin_metadata p (ac_Metadata cred))) in
      Ok (mkRefreshResult refreshed granted (with_id_token token (origin_metadata p ∅)))
    end.

(** The methods as the service calls them; [text] prints an error. *)
Definition oauth2_methods (p : OAuth2Config) (client : HTTPDoer) (now : Time) (random : outcome string string) (text : oauth2_error → string)
    : ProviderMethods :=
  let said {A} (r : outcome oauth2_error A) : outcome string A := match r with Ok x => Ok x | Fail e => Fail (text e) end in
  mkMethods defaultAuthKind (λ req, said (BeginAuth p random req)) (λ req, said (CompleteAuth p client now req))
    (λ cred, said (OAuth2_Refresh p client now cred)) None None.
End provider.

(** ** Grants *)

Lemma add_normalized_fold input values :
  NoDup values → ("" ∉ values) →
  let out := foldl add_normalized values input in
  NoDup out ∧ ("" ∉ out) ∧ ∀ g, g ∈ out ↔ g ∈ values ∨ g ≠ "" ∧ ∃ v, v ∈ input ∧ lowerTrim v = g.
Proof.
  revert values. induction input as [|v input IH]; intros values Hnd Hne; cbn [foldl].
  { cbv zeta. split_and!; [done|done|]. intros g. split; [by left|]. intros [|(_ & v & Hv & _)]; [done|]. by apply elem_of_nil in Hv. }
  assert (Hstep : NoDup (add_normalized values v) ∧ ("" ∉ add_normalized values v) ∧
    ∀ g, g ∈ add_normalized values v ↔ g ∈ values ∨ g ≠ "" ∧ lowerTrim v = g).
  { unfold add_normalized. fold (lowerTrim v). destruct (String.eqb_spec (lowerTrim v) "") as [Hb|Hb]; cbn [orb].
    - split_and!; [done|done|]. intros g. split; [by left|]. intros [|[? <-]]; done.
    - destruct (bool_decide_reflect (lowerTrim v ∈ values)) as [Hin|Hin].
      + split_and!; [done|done|]. intros g. split; [by left|]. intros [|[_ <-]]; done.
      + split_and!; [apply NoDup_app; split_and!; [done| |apply NoDup_singleton]; by intros x Hx ->%list_elem_of_singleton| |].
        * rewrite elem_of_app, list_elem_of_singleton. intros [|He]; [done|]. by rewrite <-He in Hb.
        * intros g. rewrite elem_of_app, list_elem_of_singleton. split; intros [?|Hg]; [by left| |by left|right; by destruct Hg as [_ <-]].
          subst g. by right. }
  destruct Hstep as (H1 & H2 & H3). destruct (IH _ H1 H2) as (H4 & H5 & H6). split_and!; [done|done|]. intros g. rewrite H6, H3. split.
  - intros [[?|[? ?]]|(? & w & ? & ?)]; [by left|right; split; [done|exists v; split; [by left|done]]|right; split; [done|exists w; split; [by right|done]]].
  - intros [?|(Hg & w & [->|Hw]%elem_of_cons & Heq)]; [by left; left|by left; right|right; split; [done|by exists w]].
Qed.

(** The normalization of grants is the one of the service. *)
Lemma provider_grants_agree {MR : MapRange} input : normalizeGrants input = Grants.normalizeGrants input.
Proof.
  destruct (add_normalized_fold input [] NoDup_nil_2) as (Hnd & _ & Hin); [by intros H%elem_of_nil|].
  apply (lists_set_unique _ _ (grants input)); [|apply normalizeGrants_lists]. apply sortStrings_lists; [done|].
  intros g. rewrite Hin, elem_of_grants. split; [intros [Hn|]; [by apply elem_of_nil in Hn|done]|by right].
Qed.

Lemma or_else_nonempty {A} (l d : list A) : d ≠ [] → or_else l d ≠ [].
Proof. by destruct l. Qed.

(** A list of grants as the service keeps them. *)
Definition normal_grants {MR : MapRange} (l : list string) : Prop := Grants.normalizeGrants l = l.
Lemma normalizeGrants_normal {MR : MapRange} input : normal_grants (normalizeGrants input).
Proof.
  unfold normal_grants. rewrite provider_grants_agree. apply (lists_set_unique _ _ (grants input)); [|apply normalizeGrants_lists].
  rewrite <-(grants_normalizeGrants input). apply normalizeGrants_lists.
Qed.
Lemma or_else_normal {MR : MapRange} l d : normal_grants l → normal_grants d → normal_grants (or_else l d).
Proof. by destruct l. Qed.

Section facts.
Context {MR : MapRange}.
Variable json_Unmarshal : string → outcome string (gmap string value).
Variable parseURL : string → outcome string URL.
Variable oor : Z.
Implicit Types (p : OAuth2Config) (client : HTTPDoer).

(** What [NewOAuth2Provider] establishes. *)
Definition provider_wf p : Prop :=
  TrimSpace (oc_ID p) = oc_ID p ∧ oc_ID p ≠ "" ∧ blank (oc_TokenURL p) = false ∧ oc_ClientID p ≠ "" ∧ normal_grants (oc_DefaultScopes p) ∧
  (0 < oc_TokenTTL p)%Z ∧ oc_SupportedScopeTypes p ≠ [].
Lemma NewOAuth2Provider_wf cfg p : NewOAuth2Provider cfg = Ok p → provider_wf p.
Proof.
  unfold NewOAuth2Provider. destruct (String.eqb_spec (TrimSpace (ToLower (oc_ID cfg))) "") as [|Hid]; [done|].
  destruct (blank (oc_AuthURL cfg)); [done|]. destruct (blank (oc_TokenURL cfg)) eqn:Ht; [done|]. destruct (blank (oc_ClientID cfg)) eqn:Hc; [done|].
  intros [= <-]. unfold provider_wf. cbn [oc_ID oc_TokenURL oc_ClientID oc_DefaultScopes oc_TokenTTL oc_SupportedScopeTypes].
  split_and!; [by rewrite TrimSpace_idem|done|by rewrite blank_TrimSpace|by apply blank_false|apply normalizeGrants_normal| |].
  - destruct (Z.leb_spec (oc_TokenTTL cfg) 0); [unfold Second|]; lia.
  - unfold normalizeScopeTypes. destruct (foldl _ _ _) as [|x l]; [done|]. intros H. pose proof (sortStrings_perm (x :: l)) as Hp. rewrite H in Hp.
    by apply Permutation_nil_cons in Hp.
Qed.

(** ** Requests *)

Lemma Values_Set_nonempty q k v : map_Forall (λ _ vs, vs ≠ []) q → map_Forall (λ _ (vs : list string), vs ≠ []) (Values_Set q k v).
Proof. intros Hq. by apply map_Forall_insert_2. Qed.
Lemma token_form_nonempty p form : map_Forall (λ _ vs, vs ≠ []) (token_form p form).
Proof.
  unfold token_form. set (base := map_imap _ form).
  assert (map_Forall (λ _ vs, vs ≠ []) base).
  { intros k vs. unfold base. rewrite map_lookup_imap. destruct (form !! k) as [[|x items]|]; [done| |done]. cbn. destruct (blank k); [done|]. by intros [= <-]. }
  destruct (_ && _); by repeat apply Values_Set_nonempty.
Qed.

Lemma token_request_body p u form : ParseQuery (default "" (hr_Body (token_request p u form))) = token_form p form.
Proof.
  transitivity (ParseQuery (Values_Encode (token_form p form))); [|apply ParseQuery_Encode, token_form_nonempty].
  unfold token_request. by destruct (_ && _).
Qed.

Lemma Values_Get_Set q k v k' : Values_Get (Values_Set q k v) k' = if decide (k = k') then v else Values_Get q k'.
Proof.
  unfold Values_Get, Values_Set. destruct (decide (k = k')) as [<-|Hne]; [by rewrite lookup_insert_eq|by rewrite lookup_insert_ne].
Qed.


(** ** Credentials *)

Lemma fetchToken_ok p client form token : fetchToken json_Unmarshal parseURL oor p client form = Ok token →
  ∃ u res, parseURL (oc_TokenURL p) = Ok u ∧ client (token_request p u form) = Ok res ∧ (200 ≤ hp_Status res < 300)%Z ∧
    (Z.of_nat (String.length (hp_Body res)) ≤ maxTokenResponseBodyBytes)%Z ∧ tk_ErrorCode token = "" ∧ TrimSpace (tk_AccessToken token) ≠ "".
Proof.
  unfold fetchToken. destruct (blank _); [done|]. destruct (parseURL _) as [u|]; [|done]. destruct (client _) as [res|] eqn:Hres; [|done]. intros Ht.
  exists u, res. split; [done|]. split; [done|]. unfold token_response, exceeds in Ht. destruct (Z.ltb_spec maxTokenResponseBodyBytes (Z.of_nat (String.length (hp_Body res)))); [done|].
  destruct (hp_ReadError res); [done|]. destruct (parseTokenPayload _ _ _ _) as [payload|]; [|done]. destruct (status_ok res) eqn:Hok; [|done]. cbn [negb] in Ht.
  destruct (String.eqb_spec (tk_ErrorCode payload) ""); [|done]. destruct (blank (tk_AccessToken payload)) eqn:Hb; [done|]. injection Ht as <-.
  unfold status_ok in Hok. apply blank_false in Hb. split_and!; try done; lia.
Qed.

Lemma expires_after p now n : (0 < oc_TokenTTL p)%Z →
  ((n ≤ 0)%Z → resolveExpiresAt p now n = Some (addTime now (oc_TokenTTL p))) ∧
  ((0 < n ≤ 9223372036)%Z → resolveExpiresAt p now n = Some (addTime now (n * Second))).
Proof.
  intros Hp. unfold resolveExpiresAt. split; intros Hn.
  - destruct (Z.ltb_spec 0 n); [lia|]. destruct (Z.leb_spec (oc_TokenTTL p) 0); [lia|done].
  - destruct (Z.ltb_spec 0 n); [|lia]. rewrite wrap64_id; [|unfold in_int64, int64_min, int64_max, Second; lia].
    destruct (Z.leb_spec (n * Second) 0); [unfold Second in *; lia|done].
Qed.

(** The provider only gives out credentials that can be used.  When it is built from a configuration and completes an authorization or refreshes a
    token, the token endpoint answered with success, without an error code and with an access token; the account is known; the grants are in the normal
    form of the service and not lost (not empty unless nothing was requested); the credential is marked refreshable exactly if it holds a refresh token,
    a refresh keeps the old one when the endpoint does not send a new one and keeps the connection; and the credential expires when the endpoint says, or
    after the configured time. *)
Theorem oauth2_credentials cfg p client now : NewOAuth2Provider cfg = Ok p →
  (∀ req resp, CompleteAuth json_Unmarshal parseURL oor p client now req = Ok resp →
     let c := ar_Credential resp in
     ar_ExternalAccountID resp ≠ "" ∧ TrimSpace (ac_AccessToken c) = ac_AccessToken c ∧ ac_AccessToken c ≠ "" ∧
     ac_Refreshable c = negb (String.eqb (ac_RefreshToken c) "") ∧ ac_GrantedScopes c = ar_GrantedGrants resp ∧ ac_RequestedScopes c = ar_RequestedGrants resp ∧
     normal_grants (ar_GrantedGrants resp) ∧ normal_grants (ar_RequestedGrants resp) ∧ (ar_RequestedGrants resp ≠ [] → ar_GrantedGrants resp ≠ []) ∧
     ∃ token, fetchToken json_Unmarshal parseURL oor p client (code_form req) = Ok token ∧ ac_ExpiresAt c = resolveExpiresAt p now (tk_ExpiresIn token)) ∧
  (∀ cred r, OAuth2_Refresh json_Unmarshal parseURL oor p client now cred = Ok r →
     let c := rr_Credential r in
     ac_ConnectionID c = ac_ConnectionID cred ∧ ac_AccessToken c ≠ "" ∧ ac_Refreshable c = true ∧ blank (ac_RefreshToken c) = false ∧
     ac_RotatesAt c = ac_RotatesAt cred ∧ ac_GrantedScopes c = rr_GrantedGrants r ∧ normal_grants (rr_GrantedGrants r) ∧ normal_grants (ac_RequestedScopes c) ∧
     ∃ token, (tk_RefreshToken token = "" → ac_RefreshToken c = ac_RefreshToken cred) ∧
       fetchToken json_Unmarshal parseURL oor p client (refresh_form (ac_RequestedScopes c) (TrimSpace (ac_RefreshToken cred))) = Ok token ∧
       ac_ExpiresAt c = resolveExpiresAt p now (tk_ExpiresIn token)) ∧
  ∀ n, ((n ≤ 0)%Z → resolveExpiresAt p now n = Some (addTime now (oc_TokenTTL p))) ∧
       ((0 < n ≤ 9223372036)%Z → resolveExpiresAt p now n = Some (addTime now (n * Second))).
Proof.
  intros (_ & _ & _ & _ & Hscopes & Httl & _)%NewOAuth2Provider_wf. split_and!.
  - intros req resp. unfold CompleteAuth. destruct (ScopeRef_Validate _); [|done]. destruct (blank (ca_Code req)); [done|]. cbv zeta.
    destruct (fetchToken _ _ _ _ _ _) as [token|] eqn:Hf; [|done]. destruct (resolve_account _ _ _ _) as [id profile].
    destruct (String.eqb_spec id "") as [|Hid]; [done|]. intros [= <-].
    cbn [ar_Credential ar_ExternalAccountID ac_AccessToken ac_Refreshable ac_RefreshToken ac_GrantedScopes ar_GrantedGrants ac_RequestedScopes ar_RequestedGrants ac_ExpiresAt].
    destruct (fetchToken_ok _ _ _ _ Hf) as (u & res & _ & _ & _ & _ & _ & Hacc).
    split_and!; try done; [by rewrite TrimSpace_idem|..|by exists token];
      [repeat apply or_else_normal; try apply normalizeGrants_normal; done|apply or_else_normal; [apply normalizeGrants_normal|done]|].
    intros Hr. by do 2 apply or_else_nonempty.
  - intros cred r. unfold OAuth2_Refresh. cbv zeta. destruct (String.eqb_spec (TrimSpace (ac_RefreshToken cred)) "") as [|Hrt]; [done|].
    destruct (fetchToken _ _ _ _ _ _) as [token|] eqn:Hf; [|done]. intros [= <-].
    cbn [rr_Credential rr_GrantedGrants ac_ConnectionID ac_AccessToken ac_Refreshable ac_RefreshToken ac_RotatesAt ac_GrantedScopes ac_RequestedScopes ac_ExpiresAt].
    destruct (fetchToken_ok _ _ _ _ Hf) as (u & res & _ & _ & _ & _ & _ & Hacc).
    assert (Hkept : blank (if String.eqb (TrimSpace (tk_RefreshToken token)) "" then ac_RefreshToken cred else TrimSpace (tk_RefreshToken token)) = false).
    { destruct (String.eqb_spec (TrimSpace (tk_RefreshToken token)) ""); [by apply blank_false|by rewrite blank_TrimSpace; apply blank_false]. }
    split_and!; try done; [by rewrite Hkept|repeat apply or_else_normal; try apply normalizeGrants_normal; done|apply or_else_normal; [apply normalizeGrants_normal|done]|].
    exists token. split_and!; [|done|done]. by intros ->.
  - intros n. by apply expires_after.
Qed.
End facts.

(** ** On concrete inputs *)

Definition demo_config : OAuth2Config :=
  mkOAuth2Config " GitHub " "https://github.com/login/oauth/authorize" "https://github.com/login/oauth/access_token" "cid" "s3cret" false ["Repo"; "user "; "repo"] [] [] 0 0 None.
Definition demo_provider : OAuth2Config := match NewOAuth2Provider demo_config with Ok p => p | Fail _ => demo_config end.
Definition demo_url (s : string) : outcome string URL := Ok (mkURL "github.com" s "" "").
Definition no_json (s : string) : outcome string (gmap string value) := Fail "not JSON".
(** The endpoint answers with a form. *)
Definition demo_endpoint (body : string) : HTTPDoer :=
  λ _, Ok (mkHttpResponse 200 (Header_Set ∅ "Content-Type" "application/x-www-form-urlencoded; charset=utf-8") body None).
Definition demo_code : CompleteAuthRequest :=
  mkCompleteAuth "github" (mkScopeRef "user" "u1") " abc " "st" "https://app/cb" {["external_account_id" := VString "42"]}.
Definition demo_begin : BeginAuthRequest := mkBeginAuth "github" (mkScopeRef "user" "u1") "https://app/cb?x=1&y=2" " st=1&a " [] ∅.

Definition demo_begin_url : string :=
  "https://github.com/login/oauth/authorize?client_id=cid&redirect_uri=https%3A%2F%2Fapp%2Fcb%3Fx%3D1%26y%3D2&response_type=code&scope=repo+user&state=st%3D1%26a".

Lemma oauth2_credentials_witness :
  let complete body := CompleteAuth no_json demo_url 0 demo_provider (demo_endpoint body) 100 demo_code in
  NewOAuth2Provider demo_config = Ok demo_provider ∧
  complete "error=bad_code&error_description=expired" = Fail (OaErrEndpoint "expired") ∧ complete "token_type=bearer" = Fail OaErrNoToken ∧
  ∃ resp, complete "access_token=gho_1&scope=user%2Crepo&expires_in=28800&refresh_token=ghr_1" = Ok resp ∧
    (ac_ExpiresAt (ar_Credential resp), ar_GrantedGrants resp) = (Some (addTime 100 (28800 * Second)), ["repo"; "user"]) ∧
    ac_AccessToken (ar_Credential resp) ≠ "".
Proof.
  split; [vm_compute; reflexivity|]. split; [vm_compute; reflexivity|]. split; [vm_compute; reflexivity|].
  eexists. split; [vm_compute; reflexivity|]. split; [vm_compute; reflexivity|].
  refine (proj1 (proj2 (proj2 (proj1 (oauth2_credentials (MR := key_order_range) no_json demo_url 0 demo_config demo_provider
    (demo_endpoint "access_token=gho_1&scope=user%2Crepo&expires_in=28800&refresh_token=ghr_1") 100 _) demo_code _ _)))); vm_compute; reflexivity.
Defined.

(** A lifetime of more seconds than a duration can hold wraps around: a token that the endpoint grants for about 585 years expires at once, one for
    about 293 years never. *)
Example long_lifetimes_wrap :
  resolveExpiresAt demo_provider 0 18446744074 = Some 290448384%Z ∧ resolveExpiresAt demo_provider 0 9223372037 = None ∧
  ParseInt_value "99999999999999999999" = int64_max ∧ resolveExpiresAt demo_provider 0 (ParseInt_value "99999999999999999999") = None.
Proof. vm_compute. repeat split. Qed.
