(* ===== verification/WebhookTemplates.v ===== *)
(** * Webhook templates (src/webhooks/templates.go and the webhook.go of the providers)

    The verifiers and delivery-id extractors of the providers' webhooks, and what the providers make of a notification.  HMAC, time parsing and the JSON
    decoding of a body are arguments; base64 is that of [GoBase64], hexadecimal that of [Signers]. *)

From S2P Require Import Prelude GoStrings GoValues Domain Contracts GoURL GoBase64 GoHTTP Signers WebhookTypes WebhookStore.
From Stdlib Require Import ZArith String Ascii Lia.
From stdpp Require Import base decidable list gmap strings sorting.

Local Open Scope string_scope.
Local Open Scope list_scope.

Inductive verify_error :=
| VfErrHeader (name : string) | VfErrSecret | VfErrValue | VfErrBase64 | VfErrHex | VfErrMismatch
| VfErrToken | VfErrTokenHeader (name : string) | VfErrTokenMismatch
| VfErrDelivery | VfErrTriggered | VfErrTriggeredFormat (cause : string) | VfErrReplay.

(** [hex.DecodeString] *)
Fixpoint hex_DecodeString (s : string) : option string :=
  match s with
  | EmptyString => Some ""
  | String a (String b s') => hi ← unhex a; lo ← unhex b; rest ← hex_DecodeString s'; Some (String (ascii_of_N (16 * hi + lo)) rest)
  | String _ EmptyString => None
  end.

Abbreviation WebhookVerifier := (InboundRequest → outcome verify_error unit).
Abbreviation DeliveryIDExtractor := (InboundRequest → outcome verify_error string).
Record ProviderWebhookTemplate := mkTemplate { wt_ProviderID : string; wt_Verifier : WebhookVerifier; wt_Extractor : DeliveryIDExtractor }.

Record HeaderHMACVerifier := mkHMACVerifier { hv_Header : string; hv_Prefix : string; hv_Secret : string; hv_Encoding : string }.
Record HeaderTokenVerifier := mkTokenVerifier { tv_Header : string; tv_Token : string }.

Section templates.
Context {MR : MapRange}.
Variable hmacSHA256 : string → string → string.

Definition HMAC_Verify (v : HeaderHMACVerifier) : WebhookVerifier := λ req,
  let header := TrimSpace (headerValue (in_Headers req) (hv_Header v)) in
  if String.eqb header "" then Fail (VfErrHeader (TrimSpace (hv_Header v)))
  else
    let secret := TrimSpace (hv_Secret v) in
    if String.eqb secret "" then Fail VfErrSecret
    else
      let signature := TrimSpace (TrimPrefix header (TrimSpace (hv_Prefix v))) in
      if String.eqb signature "" then Fail VfErrValue
      else
        let expected := hmacSHA256 secret (in_Body req) in
        if String.eqb (ToLower (TrimSpace (hv_Encoding v))) "base64" then
          match StdDecode signature with
          | None => Fail VfErrBase64
          | Some decoded => if String.eqb decoded expected then Ok tt else Fail VfErrMismatch
          end
        else match hex_DecodeString signature with
        | None => Fail VfErrHex
        | Some decoded => if String.eqb decoded expected then Ok tt else Fail VfErrMismatch
        end.

Definition Token_Verify (v : HeaderTokenVerifier) : WebhookVerifier := λ req,
  let expected := TrimSpace (tv_Token v) in
  if String.eqb expected "" then Fail VfErrToken
  else
    let actual := TrimSpace (headerValue (in_Headers req) (tv_Header v)) in
    if String.eqb actual "" then Fail (VfErrTokenHeader (TrimSpace (tv_Header v)))
    else if String.eqb actual expected then Ok tt else Fail VfErrTokenMismatch.

Fixpoint HeaderDeliveryIDExtractor (keys : list string) (req : InboundRequest) : outcome verify_error string :=
  match keys with
  | [] => Fail VfErrDelivery
  | key :: rest =>
    let v := TrimSpace (headerValue (in_Headers req) key) in
    if negb (String.eqb v "") then Ok v else HeaderDeliveryIDExtractor rest req
  end.

(** [lastErr]: the last error so far. *)
Fixpoint chain_extract (lastErr : option verify_error) (l : list (option DeliveryIDExtractor)) (req : InboundRequest) : outcome verify_error string :=
  match l with
  | [] => Fail (default VfErrDelivery lastErr)
  | None :: rest => chain_extract lastErr rest req
  | Some extract :: rest =>
    match extract req with
    | Ok id => if negb (blank id) then Ok (TrimSpace id) else chain_extract lastErr rest req
    | Fail err => chain_extract (Some err) rest req
    end
  end.
Definition ChainDeliveryIDExtractors (l : list (option DeliveryIDExtractor)) : DeliveryIDExtractor := chain_extract None l.

Definition NewShopifyWebhookTemplate (secret : string) : ProviderWebhookTemplate :=
  mkTemplate "shopify" (HMAC_Verify (mkHMACVerifier "X-Shopify-Hmac-Sha256" "" (TrimSpace secret) "base64"))
    (HeaderDeliveryIDExtractor ["X-Shopify-Webhook-Id"; "X-Request-Id"]).
Definition NewMetaWebhookTemplate (secret : string) : ProviderWebhookTemplate :=
  mkTemplate "meta" (HMAC_Verify (mkHMACVerifier "X-Hub-Signature-256" "sha256=" (TrimSpace secret) "hex"))
    (HeaderDeliveryIDExtractor ["X-Meta-Delivery-Id"; "X-Hub-Signature-256"]).
Definition NewTikTokWebhookTemplate (secret : string) : ProviderWebhookTemplate :=
  mkTemplate "tiktok" (HMAC_Verify (mkHMACVerifier "X-Tt-Signature" "" (TrimSpace secret) "hex"))
    (HeaderDeliveryIDExtractor ["X-Tt-Request-Id"; "X-Tt-Logid"]).
Definition NewPinterestWebhookTemplate (secret : string) : ProviderWebhookTemplate :=
  mkTemplate "pinterest" (HMAC_Verify (mkHMACVerifier "X-Pinterest-Hmac-Sha256" "" (TrimSpace secret) "hex"))
    (HeaderDeliveryIDExtractor ["X-Pinterest-Delivery-Id"; "X-Pinterest-Request-Id"]).
Definition NewGoogleWebhookTemplate (channelToken : string) : ProviderWebhookTemplate :=
  mkTemplate "google" (Token_Verify (mkTokenVerifier "X-Goog-Channel-Token" (TrimSpace channelToken)))
    (HeaderDeliveryIDExtractor ["X-Goog-Message-Number"; "X-Goog-Resource-Id"]).
Definition NewAmazonWebhookTemplate (signatureToken : string) : ProviderWebhookTemplate :=
  mkTemplate "amazon" (Token_Verify (mkTokenVerifier "X-Amz-Signature" (TrimSpace signatureToken)))
    (HeaderDeliveryIDExtractor ["X-Amz-Sns-Message-Id"; "X-Amz-Request-Id"]).

(** ** Shopify *)

Definition shopifyHeaderHMAC := "X-Shopify-Hmac-Sha256".
Definition shopifyHeaderDeliveryID := "X-Shopify-Webhook-Id".
Definition shopifyHeaderTriggered := "X-Shopify-Triggered-At".
Definition defaultWebhookReplayWindow : Duration := (5 * Minute)%Z.
Record ShopifyWebhookVerifier := mkShopifyVerifier { sv_Secret : string; sv_ReplayWindow : Duration; sv_RequireTriggeredAt : bool }.

Definition ExtractDeliveryID : DeliveryIDExtractor := λ req,
  let id := TrimSpace (headerValue (in_Headers req) shopifyHeaderDeliveryID) in if String.eqb id "" then Fail VfErrDelivery else Ok id.

(** The difference of two times without its sign; the least duration is its own negation. *)
Definition trigger_delta (now triggeredAt : Time) : Duration :=
  let delta := subTime now triggeredAt in if (delta <? 0)%Z then wrap64 (- delta) else delta.

(** [time_Parse]: [time.Parse] with [time.RFC3339Nano]. *)
Definition Shopify_Verify (time_Parse : string → outcome string Time) (now : Time) (v : ShopifyWebhookVerifier) : WebhookVerifier := λ req,
  match HMAC_Verify (mkHMACVerifier shopifyHeaderHMAC "" (TrimSpace (sv_Secret v)) "base64") req with
  | Fail err => Fail err
  | Ok _ =>
    match ExtractDeliveryID req with
    | Fail err => Fail err
    | Ok _ =>
      let triggered := TrimSpace (headerValue (in_Headers req) shopifyHeaderTriggered) in
      if String.eqb triggered "" then if sv_RequireTriggeredAt v then Fail VfErrTriggered else Ok tt
      else match time_Parse triggered with
      | Fail err => Fail (VfErrTriggeredFormat err)
      | Ok triggeredAt =>
        let window := if (sv_ReplayWindow v <=? 0)%Z then defaultWebhookReplayWindow else sv_ReplayWindow v in
        if (window <? trigger_delta now triggeredAt)%Z then Fail VfErrReplay else Ok tt
      end
    end
  end.
Definition NewShopifyTemplate (time_Parse : string → outcome string Time) (now : Time) (cfg : ShopifyWebhookVerifier) : ProviderWebhookTemplate :=
  mkTemplate "shopify" (Shopify_Verify time_Parse now (mkShopifyVerifier (TrimSpace (sv_Secret cfg)) (sv_ReplayWindow cfg) (sv_RequireTriggeredAt cfg)))
    ExtractDeliveryID.

(** ** What the providers make of a notification *)

Inductive event_error := EvErrProvider | EvErrDelivery (e : verify_error) | EvErrPayload (cause : string) | EvErrObject | EvErrUnsupported | EvErrResource.
Record PollSyncGuidance := mkGuidance { pg_Required : bool; pg_Interval : Duration; pg_Reason : string }.

(** Meta: the object and, for every entry, the fields of its changes. *)
Record rawWebhookEnvelope := mkEnvelope { rw_Object : string; rw_Entry : list (list string) }.
Record MetaWebhookEvent := mkMetaEvent { me_ProviderID : string; me_DeliveryID : string; me_Object : string; me_EntryCount : Z; me_ChangeFields : list string }.

Definition validateObject (providerID object : string) : bool :=
  if String.eqb providerID "meta" then bool_decide (object ∈ ["instagram"; "page"; "user"])
  else if String.eqb providerID "meta_instagram" then String.eqb object "instagram"
  else if String.eqb providerID "meta_facebook" then bool_decide (object ∈ ["page"; "user"]) else true.

Definition change_fields (entries : list (list string)) : gmap string unit :=
  foldl (λ set field, let f := TrimSpace (ToLower field) in if String.eqb f "" then set else <[f := tt]> set) ∅ (concat entries).

Definition Meta_NormalizeWebhookEvent (json : string → outcome string rawWebhookEnvelope) (providerID : string) (req : InboundRequest)
    : outcome event_error MetaWebhookEvent :=
  let providerID := TrimSpace (ToLower providerID) in
  if String.eqb providerID "" then Fail EvErrProvider
  else match HeaderDeliveryIDExtractor ["X-Meta-Delivery-Id"; "X-Hub-Signature-256"] req with
  | Fail err => Fail (EvErrDelivery err)
  | Ok deliveryID =>
    match json (in_Body req) with
    | Fail err => Fail (EvErrPayload err)
    | Ok payload =>
      let object := TrimSpace (ToLower (rw_Object payload)) in
      if String.eqb object "" then Fail EvErrObject
      else if negb (validateObject providerID object) then Fail EvErrUnsupported
      else Ok (mkMetaEvent providerID deliveryID object (Z.of_nat (length (rw_Entry payload))) (sortStrings (map_range (change_fields (rw_Entry payload))).*1))
    end
  end.

Record WebhookEvent := mkWebhookEvent {
  we_ProviderID : string; we_DeliveryID : string; we_EventType : string; we_ResourceID : string; we_RequiresPollSync : bool; we_PollSyncReason : string }.
Definition dataString (v : value) : string := match v with VNil => "" | v => TrimSpace (Sprint v) end.
Definition orUnknown (s : string) : string := if String.eqb s "" then "unknown" else s.

Record PinterestPayload := mkPinterest { pn_EventType : string; pn_Event : string; pn_EntityID : string; pn_Data : gmap string value }.
Definition pinterestPollReason := "pinterest webhook payload is insufficient for deterministic incremental processing; run poll sync".
Definition Pinterest_NormalizeWebhookEvent (json : string → outcome string PinterestPayload) (req : InboundRequest) : outcome event_error WebhookEvent :=
  match HeaderDeliveryIDExtractor ["X-Pinterest-Delivery-Id"; "X-Pinterest-Request-Id"] req with
  | Fail err => Fail (EvErrDelivery err)
  | Ok deliveryID =>
    match (if String.eqb (in_Body req) "" then Ok (mkPinterest "" "" "" ∅) else json (in_Body req)) with
    | Fail err => Fail (EvErrPayload err)
    | Ok payload =>
      let eventType := orUnknown (TrimSpace (ToLower (firstNonEmpty [pn_EventType payload; pn_Event payload]))) in
      let text k := dataString (mapGet (pn_Data payload) k) in
      let resourceID := firstNonEmpty [pn_EntityID payload; text "entity_id"; text "pin_id"; text "board_id"] in
      let requiresPoll := String.eqb resourceID "" || HasPrefix eventType "board." in
      Ok (mkWebhookEvent "pinterest" deliveryID eventType resourceID requiresPoll (if requiresPoll then pinterestPollReason else ""))
    end
  end.
Definition Pinterest_Guidance (event : WebhookEvent) : PollSyncGuidance :=
  if we_RequiresPollSync event then mkGuidance true (10 * Minute) (we_PollSyncReason event)
  else if HasPrefix (we_EventType event) "pin." then mkGuidance false (20 * Minute) "pinterest pin events should be periodically reconciled with poll sync"
  else mkGuidance false (30 * Minute) "pinterest event should be reconciled with scheduled poll sync".

Record TikTokPayload := mkTikTok { tt_Event : string; tt_Type : string; tt_Data : gmap string value }.
Definition TikTok_NormalizeWebhookEvent (json : string → outcome string TikTokPayload) (req : InboundRequest) : outcome event_error WebhookEvent :=
  match HeaderDeliveryIDExtractor ["X-Tt-Request-Id"; "X-Tt-Logid"] req with
  | Fail err => Fail (EvErrDelivery err)
  | Ok deliveryID =>
    match (if String.eqb (in_Body req) "" then Ok (mkTikTok "" "" ∅) else json (in_Body req)) with
    | Fail err => Fail (EvErrPayload err)
    | Ok payload =>
      let eventType := orUnknown (TrimSpace (ToLower (firstNonEmpty [tt_Event payload; tt_Type payload]))) in
      let text k := dataString (mapGet (tt_Data payload) k) in
      let resourceID := firstNonEmpty [text "video_id"; text "id"; text "user_id"] in
      let requiresPoll := String.eqb resourceID "" in
      Ok (mkWebhookEvent "tiktok" deliveryID eventType resourceID requiresPoll
            (if requiresPoll then "tiktok webhook payload missing stable resource id; use poll sync fallback" else ""))
    end
  end.
Definition TikTok_Guidance (event : WebhookEvent) : PollSyncGuidance :=
  if we_RequiresPollSync event then mkGuidance true (5 * Minute) (we_PollSyncReason event)
  else if Contains (we_EventType event) "video" then mkGuidance false (15 * Minute) "tiktok webhook should be confirmed with periodic poll sync"
  else mkGuidance false (30 * Minute) "tiktok event type has limited payload context".

Record AmazonEnvelope := mkAmazonEnvelope { az_Subject : string; az_Timestamp : string; az_Message : string }.
Record NormalizedNotification := mkNotification {
  nn_ProviderID : string; nn_DeliveryID : string; nn_NotificationType : string; nn_ResourceID : string; nn_SellerID : string; nn_EventAt : string;
  nn_RequiresPollSync : bool; nn_PollSyncReason : string }.
Fixpoint firstString (metadata : gmap string value) (keys : list string) : string :=
  match keys with
  | [] => ""
  | key :: rest => match metadata !! key with
                   | None | Some VNil => firstString metadata rest
                   | Some v => if blank (Sprint v) then firstString metadata rest else TrimSpace (Sprint v)
                   end
  end.
Definition readNestedString (metadata : gmap string value) (parent key : string) : string :=
  match metadata !! parent with Some (VMap nested) => firstString nested [key] | _ => "" end.

(** The message inside the envelope is decoded if it can be; [json_message] gives what is in the map when the decoding ends or fails. *)
Definition NormalizeNotification (json : string → outcome string AmazonEnvelope) (json_message : string → gmap string value) (req : InboundRequest)
    : outcome event_error NormalizedNotification :=
  match HeaderDeliveryIDExtractor ["X-Amz-Sns-Message-Id"; "X-Amz-Request-Id"] req with
  | Fail err => Fail (EvErrDelivery err)
  | Ok deliveryID =>
    match (if String.eqb (in_Body req) "" then Ok (mkAmazonEnvelope "" "" "") else json (in_Body req)) with
    | Fail err => Fail (EvErrPayload err)
    | Ok envelope =>
      let rawMessage := TrimSpace (az_Message envelope) in
      let message := if String.eqb rawMessage "" then ∅ else json_message rawMessage in
      let notificationType := orUnknown (TrimSpace (ToLower (firstNonEmpty
        [firstString message ["NotificationType"; "notificationType"; "event_type"]; az_Subject envelope; headerValue (in_Headers req) "X-Amz-Notification-Type"]))) in
      let resourceID := firstNonEmpty [readNestedString message "Payload" "AmazonOrderId"; readNestedString message "Payload" "Asin";
        readNestedString message "NotificationMetadata" "OrderId"; firstString message ["amazon_order_id"; "order_id"; "resource_id"]] in
      let sellerID := firstNonEmpty [readNestedString message "NotificationMetadata" "SellerId"; readNestedString message "Payload" "SellerId";
        firstString message ["seller_id"; "SellerId"]] in
      Ok (mkNotification "amazon" deliveryID notificationType resourceID sellerID (TrimSpace (az_Timestamp envelope)) true
            (if String.eqb resourceID "" then "amazon notification missing stable resource id; run poll sync fallback"
             else "amazon notifications provide event signals; run poll sync for deterministic SP-API state"))
    end
  end.
Definition Amazon_Guidance (event : NormalizedNotification) : PollSyncGuidance :=
  let interval := if Contains (nn_NotificationType event) "order" then (2 * Minute)%Z
                  else if Contains (nn_NotificationType event) "inventory" then (5 * Minute)%Z
                  else if Contains (nn_NotificationType event) "catalog" then (10 * Minute)%Z else (15 * Minute)%Z in
  mkGuidance (nn_RequiresPollSync event) (if String.eqb (nn_ResourceID event) "" then (2 * Minute)%Z else interval) (nn_PollSyncReason event).

Record ShoppingWebhookEvent := mkShoppingEvent {
  se_ProviderID : string; se_DeliveryID : string; se_EventType : string; se_ResourceID : string; se_ChannelID : string; se_ChangedHint : string;
  se_RequiresPollSync : bool; se_PollSyncReason : string }.
Definition Shopping_NormalizeWebhookEvent (req : InboundRequest) : outcome event_error ShoppingWebhookEvent :=
  match HeaderDeliveryIDExtractor ["X-Goog-Message-Number"; "X-Goog-Resource-Id"] req with
  | Fail err => Fail (EvErrDelivery err)
  | Ok deliveryID =>
    let eventType := TrimSpace (ToLower (headerValue (in_Headers req) "X-Goog-Resource-State")) in
    let eventType := if String.eqb eventType "" then "sync" else eventType in
    let resourceID := TrimSpace (headerValue (in_Headers req) "X-Goog-Resource-Id") in
    if String.eqb resourceID "" then Fail EvErrResource
    else Ok (mkShoppingEvent "google_shopping" deliveryID eventType resourceID (TrimSpace (headerValue (in_Headers req) "X-Goog-Channel-Id"))
               (TrimSpace (ToLower (headerValue (in_Headers req) "X-Goog-Changed"))) true
               "google channel notifications only provide change hints; run poll sync for deterministic state")
  end.
Definition Shopping_Guidance (event : ShoppingWebhookEvent) : PollSyncGuidance :=
  mkGuidance true (if String.eqb (se_EventType event) "sync" then 15 * Minute
                   else if bool_decide (se_EventType event ∈ ["exists"; "update"; "not_exists"]) then 2 * Minute else 5 * Minute)%Z (se_PollSyncReason event).
End templates.

(** ** Encodings of a signature *)

Lemma HasPrefix_append p t : HasPrefix (p +:+ t) p = true.
Proof. induction p as [|c p IH]; [by destruct t|]. simpl. rewrite Ascii.eqb_refl. apply IH. Qed.
Lemma substring_all t : String.substring 0 (String.length t) t = t.
Proof. induction t as [|c t IH]; [done|]. simpl. by rewrite IH. Qed.
Lemma substring_append p t : String.substring (String.length p) (String.length t) (p +:+ t) = t.
Proof. induction p as [|c p IH]; [apply substring_all|]. simpl. apply IH. Qed.
Lemma length_append p t : String.length (p +:+ t) = (String.length p + String.length t)%nat.
Proof. induction p as [|c p IH]; [done|]. simpl. by rewrite IH. Qed.
Lemma TrimPrefix_append p t : TrimPrefix (p +:+ t) p = t.
Proof. unfold TrimPrefix. rewrite HasPrefix_append, length_append. replace (_ + _ - _)%nat with (String.length t) by lia. apply substring_append. Qed.

Lemma hex_digit_value (n : N) : (n < 16)%N → unhex (hex_digit n) = Some n ∧ visible (hex_digit n) = true.
Proof.
  intros Hn. assert (H : forallb (λ n, bool_decide (unhex (hex_digit n) = Some n) && visible (hex_digit n)) (N.of_nat <$> seq 0 16) = true) by (vm_compute; done).
  rewrite forallb_forall in H. assert (Hin : In n (N.of_nat <$> seq 0 16)).
  { apply list_elem_of_In, list_elem_of_fmap. exists (N.to_nat n). split; [lia|]. apply elem_of_seq. lia. }
  apply H, andb_true_iff in Hin as [H1 H2]. by apply bool_decide_eq_true in H1.
Qed.
Lemma nibbles c : (byte_of c / 16 < 16)%N ∧ (byte_of c mod 16 < 16)%N ∧ ascii_of_N (16 * (byte_of c / 16) + byte_of c mod 16) = c.
Proof.
  pose proof (byte_of_lt c). split; [|split].
  - apply N.Div0.div_lt_upper_bound. lia.
  - by apply N.mod_lt.
  - rewrite <-N.div_mod by done. apply ascii_N_embedding.
Qed.

Lemma hex_roundtrip s : hex_DecodeString (hex_EncodeToString s) = Some s.
Proof.
  induction s as [|c s IH]; [done|]. destruct (nibbles c) as (H1 & H2 & H3). cbn [hex_EncodeToString hex_DecodeString].
  destruct (hex_digit_value _ H1) as [-> _]. destruct (hex_digit_value _ H2) as [-> _]. rewrite IH.
  change (Some (String (ascii_of_N (16 * (byte_of c / 16) + byte_of c mod 16)) s) = Some (String c s)). by rewrite H3.
Qed.
Lemma hex_visible s : Forall (λ c, visible c = true) (list_ascii_of_string (hex_EncodeToString s)).
Proof.
  induction s as [|c s IH]; [constructor|]. destruct (nibbles c) as (H1 & H2 & _). simpl.
  constructor; [by apply hex_digit_value|constructor; [by apply hex_digit_value|done]].
Qed.
(** ** Verification *)

(** The signature as a sender writes it. *)
Definition written (v : HeaderHMACVerifier) (mac : string) : string :=
  if String.eqb (ToLower (TrimSpace (hv_Encoding v))) "base64" then StdEncode mac else hex_EncodeToString mac.
Definition read_signature (v : HeaderHMACVerifier) (signature : string) : option string :=
  if String.eqb (ToLower (TrimSpace (hv_Encoding v))) "base64" then StdDecode signature else hex_DecodeString signature.

Lemma written_spec v mac : mac ≠ "" → read_signature v (written v mac) = Some mac ∧ TrimSpace (written v mac) = written v mac ∧ written v mac ≠ "".
Proof.
  intros Hne. unfold read_signature, written. destruct (String.eqb _ _).
  - assert (Hd := StdDecode_Encode mac). split_and!; [done|apply TrimSpace_visible, StdEncode_visible|]. intros He. rewrite He in Hd. injection Hd as <-. done.
  - assert (Hd := hex_roundtrip mac). split_and!; [done|apply TrimSpace_visible, hex_visible|]. intros He. rewrite He in Hd. injection Hd as <-. done.
Qed.

Section facts.
Context {MR : MapRange}.
Variable hmacSHA256 : string → string → string.
Implicit Types (req : InboundRequest).
Abbreviation verify := (HMAC_Verify hmacSHA256).

(** C14: a webhook is accepted exactly if it is signed with the secret.  Whatever the encoding and the prefix: a request whose header holds the encoding
    of some code is accepted if and only if that code is the one of its body under the configured secret; a request that is accepted at all has a header
    that decodes to that code, and a secret is configured; and a request without the header is never accepted. *)
Theorem webhook_signature_exact v req :
  (∀ mac, mac ≠ "" → TrimSpace (hv_Secret v) ≠ "" → headerValue (in_Headers req) (hv_Header v) = TrimSpace (hv_Prefix v) +:+ written v mac →
     verify v req = (if String.eqb mac (hmacSHA256 (TrimSpace (hv_Secret v)) (in_Body req)) then Ok tt else Fail VfErrMismatch)) ∧
  (verify v req = Ok tt → TrimSpace (hv_Secret v) ≠ "" ∧ headerValue (in_Headers req) (hv_Header v) ≠ "" ∧
     read_signature v (TrimSpace (TrimPrefix (headerValue (in_Headers req) (hv_Header v)) (TrimSpace (hv_Prefix v)))) =
       Some (hmacSHA256 (TrimSpace (hv_Secret v)) (in_Body req))).
Proof.
  split.
  - intros mac Hmac Hs%String.eqb_neq Hh. destruct (written_spec v mac Hmac) as (Hread & Htrim & Hne). unfold HMAC_Verify. cbv zeta.
    rewrite headerValue_trimmed, Hh, Hs. destruct (String.eqb_spec (TrimSpace (hv_Prefix v) +:+ written v mac) "") as [He|_].
    { exfalso. apply (f_equal (λ s, TrimPrefix s (TrimSpace (hv_Prefix v)))) in He as He'. rewrite TrimPrefix_append in He'. rewrite He' in Hne.
      apply Hne. destruct (TrimSpace (hv_Prefix v)); [done|]. discriminate He. }
    rewrite TrimPrefix_append, Htrim. apply String.eqb_neq in Hne as ->. unfold read_signature in Hread. destruct (String.eqb _ "base64"); by rewrite Hread.
  - unfold HMAC_Verify. cbv zeta. rewrite headerValue_trimmed. destruct (String.eqb_spec (headerValue (in_Headers req) (hv_Header v)) "") as [|Hh]; [done|].
    destruct (String.eqb_spec (TrimSpace (hv_Secret v)) "") as [|Hs]; [done|]. destruct (String.eqb_spec (TrimSpace (TrimPrefix (headerValue (in_Headers req) (hv_Header v)) (TrimSpace (hv_Prefix v)))) "") as [|Hv]; [done|].
    intros Hok. split; [done|]. split; [done|]. unfold read_signature. set (sig := TrimSpace (TrimPrefix _ _)) in *. set (mac := hmacSHA256 _ _) in *.
    destruct (String.eqb _ "base64"); [destruct (StdDecode sig) as [d|]|destruct (hex_DecodeString sig) as [d|]]; try done; destruct (String.eqb_spec d mac); congruence.
Qed.

(** Within the range of a duration the replay window of Shopify is what it says, in both directions. *)
Lemma trigger_delta_abs now t : in_int64 (now - t) → (now - t ≠ int64_min)%Z → trigger_delta now t = Z.abs (now - t).
Proof.
  unfold in_int64, trigger_delta, subTime, int64_min, int64_max. intros Hr Hm. destruct (Z.ltb_spec (now - t) (- 2 ^ 63)); [lia|].
  destruct (Z.ltb_spec (2 ^ 63 - 1) (now - t)); [lia|]. destruct (Z.ltb_spec (now - t) 0); [|lia].
  rewrite wrap64_id; [lia|]. unfold in_int64, int64_min, int64_max. lia.
Qed.

(** An accepted Shopify webhook is signed, has a delivery id, and is recent.  If the request says when it was triggered, and that is less than 292
    years from now, it is at most the replay window away; and if a trigger time is required it says so. *)
Theorem shopify_webhook_checked time_Parse now v req :
  Shopify_Verify hmacSHA256 time_Parse now v req = Ok tt →
  let triggered := headerValue (in_Headers req) shopifyHeaderTriggered in
  let window := if (sv_ReplayWindow v <=? 0)%Z then defaultWebhookReplayWindow else sv_ReplayWindow v in
  verify (mkHMACVerifier shopifyHeaderHMAC "" (TrimSpace (sv_Secret v)) "base64") req = Ok tt ∧
  headerValue (in_Headers req) shopifyHeaderDeliveryID ≠ "" ∧ (sv_RequireTriggeredAt v = true → triggered ≠ "") ∧
  (triggered ≠ "" → ∃ t, time_Parse triggered = Ok t ∧ (in_int64 (now - t) → (now - t ≠ int64_min)%Z → (Z.abs (now - t) ≤ window)%Z)).
Proof.
  unfold Shopify_Verify. destruct (HMAC_Verify _ _ _) as [[]|]; [|done]. unfold ExtractDeliveryID. rewrite !headerValue_trimmed. cbv zeta.
  destruct (String.eqb_spec (headerValue (in_Headers req) shopifyHeaderDeliveryID) "") as [|Hd]; [done|].
  destruct (String.eqb_spec (headerValue (in_Headers req) shopifyHeaderTriggered) "") as [Ht|Ht].
  - rewrite Ht. destruct (sv_RequireTriggeredAt v); [done|]. intros _. split_and!; done.
  - destruct (time_Parse _) as [t|]; [|done]. destruct (Z.ltb_spec (if (sv_ReplayWindow v <=? 0)%Z then defaultWebhookReplayWindow else sv_ReplayWindow v) (trigger_delta now t)); [done|].
    intros _. split_and!; [done|done|done|]. intros _. exists t. split; [done|]. intros Hr Hm. by rewrite trigger_delta_abs in H.
Qed.
End facts.

(** ** On concrete inputs *)

#[local] Instance demo_MapRange : MapRange := key_order_range.
(** A code for the examples. *)
Definition demo_mac (key msg : string) : string := key +:+ "/" +:+ msg.
Definition demo_hook (headers : gmap string string) : InboundRequest := mkInboundRequest "shopify" "webhook" headers "{}" ∅.
Definition demo_meta : HeaderHMACVerifier := mkHMACVerifier "X-Hub-Signature-256" "sha256=" " k " "hex".
Definition demo_signed : InboundRequest := demo_hook {["x-hub-signature-256" := "sha256=6b2f7b7d "]}.

Lemma webhook_signature_exact_witness :
  HMAC_Verify demo_mac demo_meta demo_signed = Ok tt ∧ HMAC_Verify demo_mac demo_meta (demo_hook ∅) = Fail (VfErrHeader "X-Hub-Signature-256") ∧
  HMAC_Verify demo_mac demo_meta (demo_hook {["X-Hub-Signature-256" := "6b2f7b7e"]}) = Fail VfErrMismatch ∧
  HMAC_Verify demo_mac demo_meta demo_signed = (if String.eqb "k/{}" (demo_mac "k" "{}") then Ok tt else Fail VfErrMismatch).
Proof.
  split; [vm_compute; reflexivity|]. split; [vm_compute; reflexivity|]. split; [vm_compute; reflexivity|].
  refine (proj1 (webhook_signature_exact demo_mac demo_meta demo_signed) "k/{}" _ _ _); [discriminate|vm_compute; discriminate|vm_compute; reflexivity].
Defined.

Definition demo_time (s : string) : outcome string Time := match Atoi s with Some z => Ok (timeUnix z) | None => Fail "format" end.
Definition demo_shopify : ShopifyWebhookVerifier := mkShopifyVerifier "k" 0 true.
Definition demo_trigger (at_ : string) : InboundRequest :=
  demo_hook {["X-Shopify-Hmac-Sha256" := "ay97fQ=="; "X-Shopify-Webhook-Id" := "w1"; "X-Shopify-Triggered-At" := at_]}.
Lemma shopify_webhook_checked_witness :
  let verify := Shopify_Verify demo_mac demo_time (timeUnix 1700000000) demo_shopify in
  verify (demo_trigger "1699999000") = Fail VfErrReplay ∧ verify (demo_trigger "1699999800") = Ok tt ∧
  headerValue (in_Headers (demo_trigger "1699999800")) shopifyHeaderDeliveryID ≠ "".
Proof.
  cbv zeta. split; [vm_compute; reflexivity|]. split; [vm_compute; reflexivity|].
  refine (proj1 (proj2 (shopify_webhook_checked demo_mac demo_time (timeUnix 1700000000) demo_shopify (demo_trigger "1699999800") _))). vm_compute. reflexivity.
Defined.

(** A trigger time more than 292 years ahead is accepted: the difference saturates at the least duration, whose negation is itself. *)
Example far_future_trigger_accepted :
  Shopify_Verify demo_mac demo_time (timeUnix 1700000000) demo_shopify (demo_trigger "99999999999") = Ok tt.
Proof. vm_compute. reflexivity. Qed.

(** Message numbers count within a channel, but a delivery is known by its number alone: of two channels' messages with the same number the second is
    taken for a repetition of the first.  So is, without a number, every further message about a resource. *)
Definition demo_goog (channel number : string) : InboundRequest :=
  demo_hook {["X-Goog-Channel-Id" := channel; "X-Goog-Message-Number" := number; "X-Goog-Resource-Id" := "res"; "X-Goog-Channel-Token" := "tok"]}.
Example channels_share_numbers :
  let template := NewGoogleWebhookTemplate "tok" in
  let claim (T : delivery_table) id := Delivery_Claim T (quiet (timeUnix 1700000000) id) (wt_ProviderID template) in
  wt_Extractor template (demo_goog "channel-a" "7") = Ok "7" ∧ wt_Extractor template (demo_goog "channel-b" "7") = Ok "7" ∧
  wt_Verifier template (demo_goog "channel-b" "7") = Ok tt ∧
  let first := claim ∅ "row-1" "7" "{}" 0%Z in
  let second := claim first.2 "row-2" "7" "{}" 0%Z in
  (match first.1 with Ok (_, accepted) => accepted | _ => false end, match second.1 with Ok (_, accepted) => accepted | _ => true end) = (true, false).
Proof. vm_compute. repeat split. Qed.

Example normalized_ex :
  Pinterest_NormalizeWebhookEvent (λ _, Ok (mkPinterest "" " Board.Updated " "" {["board_id" := VInt IntK 9]})) (demo_hook {["X-Pinterest-Delivery-Id" := "d"]}) =
    Ok (mkWebhookEvent "pinterest" "d" "board.updated" "9" true pinterestPollReason) ∧
  Meta_NormalizeWebhookEvent (λ _, Ok (mkEnvelope "Page" [["feed"; " Likes"]; ["feed"; ""]])) "META_facebook" (demo_hook {["X-Meta-Delivery-Id" := "d"]}) =
    Ok (mkMetaEvent "meta_facebook" "d" "page" 2 ["feed"; "likes"]) ∧
  Meta_NormalizeWebhookEvent (λ _, Ok (mkEnvelope "page" [])) "meta_instagram" (demo_hook {["X-Meta-Delivery-Id" := "d"]}) = Fail EvErrUnsupported ∧
  pg_Interval (Shopping_Guidance (mkShoppingEvent "" "" "update" "" "" "" true "")) = (2 * Minute)%Z.
Proof. vm_compute. repeat split. Qed.
