(* ===== verification/Secrets.v ===== *)
(** * Secret providers (src/security)

    What encrypts the payloads of credentials: the envelope around a ciphertext, the provider that seals with an application key, the two that
    delegate to a key service (KMS, Vault) with their rotation windows, and the one that fails over from one provider to another.  AES-GCM, SHA-256,
    JSON, the random nonce and the clients of the key services are arguments. *)

From S2P Require Import Prelude GoStrings GoValues Domain Contracts GoBase64 GoHTTP Signers WebhookTemplates Credentials.
From Stdlib Require Import ZArith String Ascii Lia.
From stdpp Require Import base decidable list gmap strings.

Local Open Scope string_scope.
Local Open Scope list_scope.

Definition envelopePrefix := "services.secret.v1:".
Definition envelopeAlgorithm := "aes-256-gcm".
Definition envelopeAlgorithmKMS := "kms".
Definition envelopeAlgorithmVault := "vault".

Record envelope := mkEnvelopeV1 {
  en_KeyID : string; en_Version : Z; en_Algorithm : string; en_Nonce : string; en_Ciphertext : string; en_Metadata : gmap string string }.
Record envelopeDecodeOptions := mkDecodeOptions { do_AllowMissingPrefix : bool; do_DefaultAlgorithm : string }.
Record EnvelopeMetadata := mkEnvelopeMetadata { em_HasPrefix : bool; em_KeyID : string; em_Version : Z; em_Algorithm : string }.

Inductive secret_error :=
| ScErrPlaintext | ScErrCiphertext | ScErrPrefix | ScErrEncode (cause : string) | ScErrDecode (cause : string) | ScErrPayload | ScErrBase64
| ScErrKeyMaterial | ScErrKeyID | ScErrVersion | ScErrCipher | ScErrNonce (cause : string) | ScErrNonceLength | ScErrAlgorithm (alg : string)
| ScErrIncomplete | ScErrKeyMismatch (got want : string) | ScErrVersionMismatch (got want : Z) | ScErrOpen
| ScErrWindow (keyID : string) (version : Z) | ScErrNotConfigured (keyID : string) (version : Z) | ScErrClient (cause : string) | ScErrEmpty
| ScErrPrimary (policy cause : string) | ScErrBoth (primary fallback : string) | ScErrFallbackRequired.

Section envelopes.
Context {MR : MapRange}.
Variable json_Marshal : envelope → outcome string string.
Variable json_Unmarshal : string → outcome string envelope.

Definition trim_entries (m : gmap string string) : gmap string string :=
  foldl (λ out kv, let k := TrimSpace kv.1 in if String.eqb k "" then out else <[k := TrimSpace kv.2]> out) ∅ (map_range m).
Definition copyStringMap (m : gmap string string) : gmap string string := trim_entries m.

Definition normalizeEnvelope (e : envelope) : envelope :=
  mkEnvelopeV1 (TrimSpace (en_KeyID e)) (en_Version e) (ToLower (TrimSpace (en_Algorithm e))) (en_Nonce e) (en_Ciphertext e) (trim_entries (en_Metadata e)).

Definition encodeEnvelope (e : envelope) : outcome secret_error string :=
  match json_Marshal (normalizeEnvelope e) with Fail err => Fail (ScErrEncode err) | Ok data => Ok (envelopePrefix +:+ data) end.

Definition decodeEnvelope (ciphertext : string) (options : envelopeDecodeOptions) : outcome secret_error (envelope * bool) :=
  if String.eqb ciphertext "" then Fail ScErrCiphertext
  else
    let hasPrefix := HasPrefix ciphertext envelopePrefix in
    if negb hasPrefix && negb (do_AllowMissingPrefix options) then Fail ScErrPrefix
    else match json_Unmarshal (if hasPrefix then TrimPrefix ciphertext envelopePrefix else ciphertext) with
    | Fail err => Fail (ScErrDecode err)
    | Ok parsed =>
      let e := normalizeEnvelope parsed in
      let e := mkEnvelopeV1 (en_KeyID e) (en_Version e)
                 (if String.eqb (en_Algorithm e) "" then ToLower (TrimSpace (do_DefaultAlgorithm options)) else en_Algorithm e)
                 (en_Nonce e) (en_Ciphertext e) (en_Metadata e) in
      if String.eqb (en_Ciphertext e) "" then Fail ScErrPayload else Ok (e, hasPrefix)
    end.

Definition ParseEnvelopeMetadata (ciphertext : string) (allowMissingPrefix : bool) : outcome secret_error EnvelopeMetadata :=
  match decodeEnvelope ciphertext (mkDecodeOptions allowMissingPrefix "") with
  | Fail err => Fail err
  | Ok (e, hasPrefix) => Ok (mkEnvelopeMetadata hasPrefix (en_KeyID e) (en_Version e) (en_Algorithm e))
  end.

Definition encodeCiphertextPayload (v : string) : string := if String.eqb v "" then "" else StdEncode v.
Definition decodeCiphertextPayload (v : string) : outcome secret_error string :=
  let trimmed := TrimSpace v in
  if String.eqb trimmed "" then Fail ScErrPayload else match StdDecode trimmed with None => Fail ScErrBase64 | Some decoded => Ok decoded end.

(** ** The application key *)

Record AppKeySecretProvider := mkAppKey { ak_key : string; ak_keyID : string; ak_version : Z; ak_allowLegacyDecrypt : bool }.

Definition WithKeyID (id : string) (p : AppKeySecretProvider) : AppKeySecretProvider :=
  if blank id then p else mkAppKey (ak_key p) (TrimSpace id) (ak_version p) (ak_allowLegacyDecrypt p).
Definition WithVersion (version : Z) (p : AppKeySecretProvider) : AppKeySecretProvider :=
  if (0 <? version)%Z then mkAppKey (ak_key p) (ak_keyID p) version (ak_allowLegacyDecrypt p) else p.
Definition WithAllowLegacyDecrypt (allow : bool) (p : AppKeySecretProvider) : AppKeySecretProvider :=
  mkAppKey (ak_key p) (ak_keyID p) (ak_version p) allow.

Variable sha256 : string → string.
(** [gcm.Seal] and [gcm.Open] of a cipher with a key: nonce, text and additional data. *)
Variable gcm_Seal : string → string → string → string → string.
Variable gcm_Open : string → string → string → string → option string.

(** The lengths of AES keys. *)
Definition aes_key (key : string) : bool := bool_decide (String.length key ∈ [16; 24; 32]).
Definition gcm_NonceSize : nat := 12.

Definition normalizeKey (v : string) : string := if aes_key v then v else sha256 v.
Definition NewAppKeySecretProvider (keyMaterial : string) (opts : list (AppKeySecretProvider → AppKeySecretProvider))
    : outcome secret_error AppKeySecretProvider :=
  let key := TrimSpace keyMaterial in
  if String.eqb key "" then Fail ScErrKeyMaterial else Ok (foldl (λ p opt, opt p) (mkAppKey (normalizeKey key) "app-key" 1 false) opts).

Definition envelopeAAD (keyID : string) (version : Z) (algorithm : string) : string :=
  envelopePrefix +:+ "|" +:+ TrimSpace keyID +:+ "|" +:+ Itoa version +:+ "|" +:+ ToLower (TrimSpace algorithm).

(** [nonce]: what the random source gives. *)
Definition AppKey_Encrypt (p : AppKeySecretProvider) (nonce : outcome string string) (plaintext : string) : outcome secret_error string :=
  if String.eqb plaintext "" then Fail ScErrPlaintext
  else if blank (ak_keyID p) then Fail ScErrKeyID
  else if (ak_version p <=? 0)%Z then Fail ScErrVersion
  else if negb (aes_key (ak_key p)) then Fail ScErrCipher
  else match nonce with
  | Fail err => Fail (ScErrNonce err)
  | Ok nonce =>
    let sealed := gcm_Seal (ak_key p) nonce plaintext (envelopeAAD (ak_keyID p) (ak_version p) envelopeAlgorithm) in
    encodeEnvelope (mkEnvelopeV1 (ak_keyID p) (ak_version p) envelopeAlgorithm (encodeCiphertextPayload nonce) (encodeCiphertextPayload sealed) ∅)
  end.

(** The checks before the payload is opened. *)
Definition appkey_checks (p : AppKeySecretProvider) (e : envelope) : option secret_error :=
  if negb (String.eqb (en_Algorithm e) envelopeAlgorithm) then Some (ScErrAlgorithm (en_Algorithm e))
  else if (String.eqb (en_KeyID e) "" || (en_Version e <=? 0)%Z) && negb (ak_allowLegacyDecrypt p) then Some ScErrIncomplete
  else if negb (String.eqb (en_KeyID e) "") && negb (String.eqb (en_KeyID e) (ak_keyID p)) then Some (ScErrKeyMismatch (en_KeyID e) (ak_keyID p))
  else if (0 <? en_Version e)%Z && negb (en_Version e =? ak_version p)%Z then Some (ScErrVersionMismatch (en_Version e) (ak_version p))
  else None.

Definition AppKey_Decrypt (p : AppKeySecretProvider) (ciphertext : string) : outcome secret_error string :=
  if String.eqb ciphertext "" then Fail ScErrCiphertext
  else match decodeEnvelope ciphertext (mkDecodeOptions (ak_allowLegacyDecrypt p) envelopeAlgorithm) with
  | Fail err => Fail err
  | Ok (e, _) =>
    match appkey_checks p e with
    | Some err => Fail err
    | None =>
      match decodeCiphertextPayload (en_Nonce e), decodeCiphertextPayload (en_Ciphertext e) with
      | Fail _, _ => Fail (ScErrNonce "decode")
      | Ok nonce, payload =>
        if String.eqb nonce "" then Fail (ScErrNonce "required")
        else match payload with
        | Fail err => Fail err
        | Ok payload =>
          if negb (aes_key (ak_key p)) then Fail ScErrCipher
          else if negb (String.length nonce =? gcm_NonceSize)%nat then Fail ScErrNonceLength
          else
            let aad := if negb (String.eqb (en_KeyID e) "") && (0 <? en_Version e)%Z then envelopeAAD (en_KeyID e) (en_Version e) (en_Algorithm e) else "" in
            match gcm_Open (ak_key p) nonce payload aad with
            | Some plaintext => Ok plaintext
            | None =>
              if ak_allowLegacyDecrypt p && negb (String.eqb aad "")
              then match gcm_Open (ak_key p) nonce payload "" with Some plaintext => Ok plaintext | None => Fail ScErrOpen end
              else Fail ScErrOpen
            end
        end
      end
    end
  end.

Definition AppKey_Metadata (p : AppKeySecretProvider) : string * Z := (ak_keyID p, ak_version p).

(** ** Key services *)

Record KeyRotationWindow := mkWindow { kw_NotBefore : Time; kw_NotAfter : Time }.
Definition Window_Allows (w : KeyRotationWindow) (at_ : Time) : bool :=
  negb (negb (IsZero (kw_NotBefore w)) && Before at_ (kw_NotBefore w)) && negb (negb (IsZero (kw_NotAfter w)) && After at_ (kw_NotAfter w)).

Record keyRef := mkKeyRef { kr_KeyID : string; kr_Version : Z }.
Definition keyRef_id (r : keyRef) : string := kr_KeyID r +:+ ":" +:+ Itoa (kr_Version r).
Definition newKeyRef (keyID : string) (version : Z) : outcome secret_error keyRef :=
  let trimmed := TrimSpace keyID in
  if String.eqb trimmed "" then Fail ScErrKeyID else if (version <=? 0)%Z then Fail ScErrVersion else Ok (mkKeyRef trimmed version).

(** A request to a key service and its two operations. *)
Record KeyRequest := mkKeyRequest { kq_KeyID : string; kq_KeyVersion : Z; kq_Text : string; kq_Metadata : gmap string string }.
Record KeyClient := mkKeyClient { kc_Encrypt : KeyRequest → outcome string string; kc_Decrypt : KeyRequest → outcome string string }.

Record KeyServiceProvider := mkKeyService {
  ks_active : keyRef; ks_decryptAllowed : gmap string keyRef; ks_rotationWindows : gmap string KeyRotationWindow; ks_allowAnyDecrypt : bool;
  ks_metadata : gmap string string }.

Definition NewKeyService (keyID : string) (version : Z) (opts : list (KeyServiceProvider → KeyServiceProvider)) : outcome secret_error KeyServiceProvider :=
  match newKeyRef keyID version with
  | Fail err => Fail err
  | Ok ref => Ok (foldl (λ p opt, opt p) (mkKeyService ref {[keyRef_id ref := ref]} ∅ false ∅) opts)
  end.
Definition WithDecryptCompatibilityKey (keyID : string) (version : Z) (p : KeyServiceProvider) : KeyServiceProvider :=
  match newKeyRef keyID version with
  | Fail _ => p
  | Ok ref => mkKeyService (ks_active p) (<[keyRef_id ref := ref]> (ks_decryptAllowed p)) (ks_rotationWindows p) (ks_allowAnyDecrypt p) (ks_metadata p)
  end.
Definition WithRotationWindow (keyID : string) (version : Z) (window : KeyRotationWindow) (p : KeyServiceProvider) : KeyServiceProvider :=
  match newKeyRef keyID version with
  | Fail _ => p
  | Ok ref => mkKeyService (ks_active p) (ks_decryptAllowed p) (<[keyRef_id ref := window]> (ks_rotationWindows p)) (ks_allowAnyDecrypt p) (ks_metadata p)
  end.
Definition WithAllowAnyDecryptKey (allow : bool) (p : KeyServiceProvider) : KeyServiceProvider :=
  mkKeyService (ks_active p) (ks_decryptAllowed p) (ks_rotationWindows p) allow (ks_metadata p).
Definition WithKeyMetadata (metadata : gmap string string) (p : KeyServiceProvider) : KeyServiceProvider :=
  mkKeyService (ks_active p) (ks_decryptAllowed p) (ks_rotationWindows p) (ks_allowAnyDecrypt p) (copyStringMap metadata).

Definition rotationWindowAllows (p : KeyServiceProvider) (now : Time) (ref : keyRef) : bool :=
  match ks_rotationWindows p !! keyRef_id ref with None => true | Some window => Window_Allows window now end.

Definition key_Encrypt (algorithm : string) (client : KeyClient) (p : KeyServiceProvider) (now : Time) (plaintext : string) : outcome secret_error string :=
  if String.eqb plaintext "" then Fail ScErrPlaintext
  else
    let active := ks_active p in
    if negb (rotationWindowAllows p now active) then Fail (ScErrWindow (kr_KeyID active) (kr_Version active))
    else match kc_Encrypt client (mkKeyRequest (kr_KeyID active) (kr_Version active) plaintext (copyStringMap (ks_metadata p))) with
    | Fail err => Fail (ScErrClient err)
    | Ok ciphertext =>
      if String.eqb ciphertext "" then Fail ScErrEmpty
      else encodeEnvelope (mkEnvelopeV1 (kr_KeyID active) (kr_Version active) algorithm "" (encodeCiphertextPayload ciphertext) (copyStringMap (ks_metadata p)))
    end.

Definition key_Decrypt (algorithm : string) (client : KeyClient) (p : KeyServiceProvider) (now : Time) (ciphertext : string) : outcome secret_error string :=
  match decodeEnvelope ciphertext (mkDecodeOptions false algorithm) with
  | Fail err => Fail err
  | Ok (e, _) =>
    if negb (String.eqb (en_Algorithm e) algorithm) then Fail (ScErrAlgorithm (en_Algorithm e))
    else match newKeyRef (en_KeyID e) (en_Version e) with
    | Fail err => Fail err
    | Ok ref =>
      if negb (ks_allowAnyDecrypt p) && negb (bool_decide (is_Some (ks_decryptAllowed p !! keyRef_id ref)))
      then Fail (ScErrNotConfigured (kr_KeyID ref) (kr_Version ref))
      else if negb (rotationWindowAllows p now ref) then Fail (ScErrWindow (kr_KeyID ref) (kr_Version ref))
      else match decodeCiphertextPayload (en_Ciphertext e) with
      | Fail err => Fail err
      | Ok payload =>
        match kc_Decrypt client (mkKeyRequest (kr_KeyID ref) (kr_Version ref) payload (copyStringMap (en_Metadata e))) with
        | Fail err => Fail (ScErrClient err)
        | Ok plaintext => if String.eqb plaintext "" then Fail ScErrEmpty else Ok plaintext
        end
      end
    end
  end.

(** The two services differ in the algorithm of their envelopes and in what they call a key. *)
Definition NewKMSSecretProvider := NewKeyService.
Definition KMS_Encrypt := key_Encrypt envelopeAlgorithmKMS.
Definition KMS_Decrypt := key_Decrypt envelopeAlgorithmKMS.
Definition NewVaultSecretProvider := NewKeyService.
Definition Vault_Encrypt := key_Encrypt envelopeAlgorithmVault.
Definition Vault_Decrypt := key_Decrypt envelopeAlgorithmVault.
Definition KeyService_Metadata (p : KeyServiceProvider) : string * Z := (kr_KeyID (ks_active p), kr_Version (ks_active p)).
End envelopes.

(** ** Failover *)

Definition SecretProviderFailurePolicyStrict := "strict_fail".
Definition SecretProviderFailurePolicyFallback := "fallback_allowed".
Definition normalizeFailurePolicy (policy : string) : string :=
  if String.eqb (ToLower (TrimSpace policy)) SecretProviderFailurePolicyFallback then SecretProviderFailurePolicyFallback else SecretProviderFailurePolicyStrict.

(** What is reported to the diagnostic hook: operation, outcome and the text of the error. *)
Record SecretProviderDiagnostic := mkDiagnostic { sd_Operation : string; sd_Outcome : string; sd_Error : string }.
Record FailoverSecretProvider := mkFailover {
  fo_primary : SecretProvider; fo_fallback : option SecretProvider; fo_policy : string; fo_last : string * Z; fo_events : list SecretProviderDiagnostic }.

Definition readProviderMetadata (p : option SecretProvider) : option (string * Z) :=
  match p with
  | Some p => match sp_Metadata p with
              | Some (keyID, version) => if blank keyID || (version <=? 0)%Z then None else Some (TrimSpace keyID, version)
              | None => None
              end
  | None => None
  end.
Definition recordMetadata (f : FailoverSecretProvider) (p : option SecretProvider) : FailoverSecretProvider :=
  match readProviderMetadata p with
  | Some used => mkFailover (fo_primary f) (fo_fallback f) (fo_policy f) used (fo_events f)
  | None => f
  end.
Definition emit (f : FailoverSecretProvider) (operation outcome_ err : string) : FailoverSecretProvider :=
  mkFailover (fo_primary f) (fo_fallback f) (fo_policy f) (fo_last f) (fo_events f ++ [mkDiagnostic operation outcome_ err]).

Definition NewFailoverSecretProvider (primary : SecretProvider) (fallback : option SecretProvider) (policy : string)
    : outcome secret_error FailoverSecretProvider :=
  let policy := normalizeFailurePolicy policy in
  match fallback, String.eqb policy SecretProviderFailurePolicyFallback with
  | None, true => Fail ScErrFallbackRequired
  | _, _ => Ok (recordMetadata (mkFailover primary fallback policy ("", 0%Z) []) (Some primary))
  end.

(** The fallback, where the policy allows one. *)
Definition allowed_fallback (f : FailoverSecretProvider) : option SecretProvider :=
  if String.eqb (fo_policy f) SecretProviderFailurePolicyStrict then None else fo_fallback f.

Definition Failover_Encrypt (f : FailoverSecretProvider) (plaintext : string) : outcome secret_error string * FailoverSecretProvider :=
  if String.eqb plaintext "" then (Fail ScErrPlaintext, f)
  else match sp_Encrypt (fo_primary f) plaintext with
  | Ok ciphertext => (Ok ciphertext, recordMetadata f (Some (fo_primary f)))
  | Fail err =>
    let f := emit f "encrypt" "primary_failed" err in
    match allowed_fallback f with
    | None => (Fail (ScErrPrimary (fo_policy f) err), f)
    | Some fallback =>
      match sp_Encrypt fallback plaintext with
      | Fail fallbackErr => (Fail (ScErrBoth err fallbackErr), emit f "encrypt" "fallback_failed" fallbackErr)
      | Ok ciphertext => (Ok ciphertext, emit (recordMetadata f (Some fallback)) "encrypt" "fallback_succeeded" err)
      end
    end
  end.

Definition Failover_Decrypt (f : FailoverSecretProvider) (ciphertext : string) : outcome secret_error string * FailoverSecretProvider :=
  if String.eqb ciphertext "" then (Fail ScErrCiphertext, f)
  else match sp_Decrypt (fo_primary f) ciphertext with
  | Ok plaintext => (Ok plaintext, f)
  | Fail err =>
    let f := emit f "decrypt" "primary_failed" err in
    match allowed_fallback f with
    | None => (Fail (ScErrPrimary (fo_policy f) err), f)
    | Some fallback =>
      match sp_Decrypt fallback ciphertext with
      | Fail fallbackErr => (Fail (ScErrBoth err fallbackErr), emit f "decrypt" "fallback_failed" fallbackErr)
      | Ok plaintext => (Ok plaintext, emit f "decrypt" "fallback_succeeded" err)
      end
    end
  end.

Definition Failover_Metadata (f : FailoverSecretProvider) : string * Z :=
  if negb (blank (fo_last f).1) && (0 <? (fo_last f).2)%Z then fo_last f
  else match readProviderMetadata (Some (fo_primary f)) with
  | Some used => used
  | None => default ("", 0%Z) (readProviderMetadata (fo_fallback f))
  end.

(** ** Envelopes *)

Definition is_ascii (s : string) : Prop := Forall (λ c, (byte_of c < 128)%N) (list_ascii_of_string s).
Definition ascii_envelope (e : envelope) : Prop :=
  is_ascii (en_KeyID e) ∧ is_ascii (en_Algorithm e) ∧ is_ascii (en_Nonce e) ∧ is_ascii (en_Ciphertext e) ∧
  map_Forall (λ k v, is_ascii k ∧ is_ascii v) (en_Metadata e).
(** What [encoding/json] does to an envelope of ASCII texts. *)
Definition envelope_json_inverts (json_Marshal : envelope → outcome string string) (json_Unmarshal : string → outcome string envelope) : Prop :=
  ∀ e s, ascii_envelope e → json_Marshal e = Ok s → json_Unmarshal s = Ok e.

Lemma visible_ascii s : Forall (λ c, visible c = true) (list_ascii_of_string s) → is_ascii s.
Proof. intros H. eapply Forall_impl; [exact H|]. intros c. unfold visible. rewrite andb_true_iff, N.ltb_lt. lia. Qed.

Section facts.
Context {MR : MapRange}.
Variable json_Marshal : envelope → outcome string string.
Variable json_Unmarshal : string → outcome string envelope.
Hypothesis Hjson : envelope_json_inverts json_Marshal json_Unmarshal.

(** Metadata that needs no trimming. *)
Definition trimmed_entries (m : gmap string string) : Prop := map_Forall (λ k v, TrimSpace k = k ∧ k ≠ "" ∧ TrimSpace v = v) m.

Lemma trim_entries_trimmed m : trimmed_entries (trim_entries m).
Proof.
  unfold trim_entries. assert (Hgen : ∀ l acc, trimmed_entries acc →
    trimmed_entries (foldl (λ out kv, let k := TrimSpace kv.1 in if String.eqb k "" then out else <[k := TrimSpace kv.2]> out) acc l)).
  { induction l as [|[k v] l IH]; intros acc Hacc; [done|]. cbn [foldl]. apply IH. cbv zeta. cbn [fst snd]. destruct (String.eqb_spec (TrimSpace k) ""); [done|].
    apply map_Forall_insert_2; [by rewrite !TrimSpace_idem|done]. }
  apply Hgen, map_Forall_empty.
Qed.
Lemma trim_entries_id m : trimmed_entries m → trim_entries m = m.
Proof.
  intros Hm. unfold trim_entries. assert (Hgen : ∀ l acc, NoDup l.*1 → (∀ k v, (k, v) ∈ l → TrimSpace k = k ∧ k ≠ "" ∧ TrimSpace v = v) →
    foldl (λ out kv, let k := TrimSpace kv.1 in if String.eqb k "" then out else <[k := TrimSpace kv.2]> out) acc l = (list_to_map l : gmap string string) ∪ acc).
  { induction l as [|[k v] l IH]; intros acc Hnd Hl; [symmetry; apply map_empty_union|]. cbn [foldl]. cbv zeta. cbn [fst snd].
    destruct (Hl k v) as (-> & Hk & ->); [by left|]. apply String.eqb_neq in Hk as ->. apply NoDup_cons in Hnd as [Hn Hnd].
    rewrite IH; [|done|intros k' v' Hin; apply Hl; by right]. cbn [list_to_map foldr]. rewrite <-insert_union_l, insert_union_r; [done|].
    by apply not_elem_of_list_to_map_1. }
  rewrite Hgen; [|apply NoDup_map_range|intros k v Hin%elem_of_map_range; by apply Hm]. rewrite map_union_empty. apply map_eq. intros k.
  destruct (m !! k) as [v|] eqn:Hk.
  - apply elem_of_list_to_map_1; [apply NoDup_map_range|]. by apply elem_of_map_range.
  - apply not_elem_of_list_to_map_1. intros ([k' v] & -> & Hin)%list_elem_of_fmap. apply elem_of_map_range in Hin. cbn in Hk. congruence.
Qed.

Lemma normalizeEnvelope_idem e : normalizeEnvelope (normalizeEnvelope e) = normalizeEnvelope e.
Proof.
  unfold normalizeEnvelope. cbn [en_KeyID en_Version en_Algorithm en_Nonce en_Ciphertext en_Metadata].
  rewrite TrimSpace_idem, (trim_entries_id (trim_entries _)) by apply trim_entries_trimmed. rewrite <-!ToLower_TrimSpace, TrimSpace_idem, ToLower_idem. done.
Qed.

Lemma envelope_roundtrip e c options : encodeEnvelope json_Marshal e = Ok c → ascii_envelope (normalizeEnvelope e) → en_Ciphertext e ≠ "" →
  en_Algorithm (normalizeEnvelope e) ≠ "" → decodeEnvelope json_Unmarshal c options = Ok (normalizeEnvelope e, true).
Proof.
  unfold encodeEnvelope. intros Henc Hascii Hct Halg. destruct (json_Marshal _) as [data|] eqn:Hm; [|done]. injection Henc as <-.
  apply Hjson in Hm; [|done]. unfold decodeEnvelope. rewrite HasPrefix_append, TrimPrefix_append. cbn [negb andb]. rewrite Hm, normalizeEnvelope_idem.
  destruct (String.eqb_spec (envelopePrefix +:+ data) "") as [He|_]; [discriminate He|].
  apply String.eqb_neq in Halg as ->. cbn [en_Ciphertext normalizeEnvelope]. apply String.eqb_neq in Hct as ->. done.
Qed.

Lemma payload_roundtrip v : v ≠ "" → decodeCiphertextPayload (encodeCiphertextPayload v) = Ok v ∧ encodeCiphertextPayload v ≠ "" ∧ is_ascii (encodeCiphertextPayload v).
Proof.
  intros Hv. unfold decodeCiphertextPayload, encodeCiphertextPayload. apply String.eqb_neq in Hv as Hv'. rewrite Hv'.
  rewrite TrimSpace_visible by apply StdEncode_visible. assert (Hd := StdDecode_Encode v). split_and!; [|intros He; rewrite He in Hd; by injection Hd as <-|].
  - destruct (String.eqb_spec (StdEncode v) "") as [He|_]; [rewrite He in Hd; by injection Hd as <-|by rewrite Hd].
  - apply visible_ascii, StdEncode_visible.
Qed.

(** ** The application key *)

Variable gcm_Seal : string → string → string → string → string.
Variable gcm_Open : string → string → string → string → option string.
(** Opening with the key, the nonce and the data that were sealed with gives the text back; what is sealed holds a tag. *)
Definition gcm_inverts : Prop := ∀ key nonce text aad, gcm_Open key nonce (gcm_Seal key nonce text aad) aad = Some text ∧ gcm_Seal key nonce text aad ≠ "".
Abbreviation encrypt := (AppKey_Encrypt json_Marshal gcm_Seal).
Abbreviation decrypt := (AppKey_Decrypt json_Unmarshal gcm_Open).

Lemma appkey_envelope p nonce plaintext c : gcm_inverts → is_ascii (ak_keyID p) → TrimSpace (ak_keyID p) = ak_keyID p → nonce ≠ "" →
  encrypt p (Ok nonce) plaintext = Ok c →
  aes_key (ak_key p) = true ∧ ak_keyID p ≠ "" ∧ (0 < ak_version p)%Z ∧ c ≠ "" ∧
  let e := mkEnvelopeV1 (ak_keyID p) (ak_version p) envelopeAlgorithm (encodeCiphertextPayload nonce)
    (encodeCiphertextPayload (gcm_Seal (ak_key p) nonce plaintext (envelopeAAD (ak_keyID p) (ak_version p) envelopeAlgorithm))) ∅ in
  ∀ options, decodeEnvelope json_Unmarshal c options = Ok (e, true).
Proof.
  intros Hgcm Hascii Htrim Hnonce. unfold AppKey_Encrypt. destruct (String.eqb plaintext ""); [done|]. destruct (blank (ak_keyID p)) eqn:Hid; [done|].
  destruct (Z.leb_spec (ak_version p) 0); [done|]. destruct (aes_key (ak_key p)); [|done]. cbn [negb]. intros Henc.
  apply blank_false in Hid. rewrite Htrim in Hid. set (e := mkEnvelopeV1 _ _ _ _ _ _) in Henc.
  destruct (Hgcm (ak_key p) nonce plaintext (envelopeAAD (ak_keyID p) (ak_version p) envelopeAlgorithm)) as [_ Hsealed].
  destruct (payload_roundtrip _ Hsealed) as (_ & Hct & Hca). destruct (payload_roundtrip nonce Hnonce) as (_ & _ & Hna).
  assert (Hnorm : normalizeEnvelope e = e).
  { unfold normalizeEnvelope, e. cbn [en_KeyID en_Version en_Algorithm en_Nonce en_Ciphertext en_Metadata]. rewrite Htrim, trim_entries_id by apply map_Forall_empty. done. }
  split_and!; [done|done|lia| |].
  - intros ->. unfold encodeEnvelope in Henc. destruct (json_Marshal _); [|done]. discriminate Henc.
  - intros options. transitivity (Ok (normalizeEnvelope e, true) : outcome secret_error (envelope * bool)); [|by rewrite Hnorm]. apply (envelope_roundtrip e); [done| |done|by rewrite Hnorm]. rewrite Hnorm. unfold ascii_envelope, e.
    cbn [en_KeyID en_Version en_Algorithm en_Nonce en_Ciphertext en_Metadata]. split_and!; [done| |done|done|apply map_Forall_empty].
    apply visible_ascii. repeat constructor.
Qed.

(** What is sealed with the application key is opened with it, and with no other.  If [Encrypt] returns a ciphertext (for a nonce of the right
    length, a key id in ASCII), then [Decrypt] of the same provider returns the plaintext; the ciphertext names the key, its version and the algorithm;
    and a provider with another key id or version refuses it, whatever its key and even if it accepts old formats. *)
Theorem appkey_roundtrip p nonce plaintext c :
  gcm_inverts → is_ascii (ak_keyID p) → TrimSpace (ak_keyID p) = ak_keyID p → String.length nonce = gcm_NonceSize →
  encrypt p (Ok nonce) plaintext = Ok c →
  decrypt p c = Ok plaintext ∧ ParseEnvelopeMetadata json_Unmarshal c false = Ok (mkEnvelopeMetadata true (ak_keyID p) (ak_version p) envelopeAlgorithm) ∧
  (∀ q, ak_keyID q ≠ ak_keyID p → decrypt q c = Fail (ScErrKeyMismatch (ak_keyID p) (ak_keyID q))) ∧
  (∀ q, ak_keyID q = ak_keyID p → ak_version q ≠ ak_version p → decrypt q c = Fail (ScErrVersionMismatch (ak_version p) (ak_version q))).
Proof.
  intros Hgcm Hascii Htrim Hlen Henc. assert (Hnonce : nonce ≠ "") by (intros ->; discriminate Hlen).
  destruct (appkey_envelope p nonce plaintext c Hgcm Hascii Htrim Hnonce Henc) as (Haes & Hid & Hver & Hc & Hdec).
  destruct (Hgcm (ak_key p) nonce plaintext (envelopeAAD (ak_keyID p) (ak_version p) envelopeAlgorithm)) as [Hopen Hsealed].
  destruct (payload_roundtrip _ Hsealed) as (Hpay & _). destruct (payload_roundtrip nonce Hnonce) as (Hnon & _).
  apply String.eqb_neq in Hid as Hid', Hc as Hc', Hnonce as Hnonce'. assert (Hv : (ak_version p <=? 0)%Z = false) by lia. assert (Hv' : (0 <? ak_version p)%Z = true) by lia.
  split_and!.
  - unfold AppKey_Decrypt. rewrite Hc', Hdec. unfold appkey_checks. cbn [en_Algorithm en_KeyID en_Version en_Nonce en_Ciphertext].
    rewrite !String.eqb_refl, Hid', Hv, Hv', Z.eqb_refl. cbn [negb andb orb]. rewrite Hnon, Hpay, Hnonce', Haes, Hlen, Nat.eqb_refl. cbn [negb]. by rewrite Hopen.
  - unfold ParseEnvelopeMetadata. by rewrite Hdec.
  - intros q Hq. unfold AppKey_Decrypt. rewrite Hc', Hdec. unfold appkey_checks. cbn [en_Algorithm en_KeyID en_Version].
    rewrite String.eqb_refl, Hid', Hv. cbn [negb andb orb]. assert (Hne : String.eqb (ak_keyID p) (ak_keyID q) = false) by (by apply String.eqb_neq). by rewrite Hne.
  - intros q Hq Hqv. unfold AppKey_Decrypt. rewrite Hc', Hdec. unfold appkey_checks. cbn [en_Algorithm en_KeyID en_Version].
    rewrite Hq, !String.eqb_refl, Hid', Hv, Hv'. cbn [negb andb orb]. assert (Hne : (ak_version p =? ak_version q)%Z = false) by lia. by rewrite Hne.
Qed.

(** ** Key services *)

(** A key service gives back under a key what it was given under it. *)
Definition client_inverts (client : KeyClient) : Prop := ∀ keyID version text metadata c,
  kc_Encrypt client (mkKeyRequest keyID version text metadata) = Ok c → kc_Decrypt client (mkKeyRequest keyID version c metadata) = Ok text.

Definition ascii_entries (m : gmap string string) : Prop := map_Forall (λ k v, is_ascii k ∧ is_ascii v) (copyStringMap m).

(** C27: a secret outlives the rotation of its key as long as the key is kept for decryption, and no longer.  What a key service provider encrypted with its
    active key is decrypted by any provider of the same kind of service to the same text, if that provider lists the key (or allows every key) and the
    key's window is open; if it does not list the key, or the window is closed, decryption is refused without asking the service. *)
Theorem key_rotation_roundtrip algorithm client p now plaintext c q now' :
  client_inverts client → algorithm ∈ [envelopeAlgorithmKMS; envelopeAlgorithmVault] → newKeyRef (kr_KeyID (ks_active p)) (kr_Version (ks_active p)) = Ok (ks_active p) →
  is_ascii (kr_KeyID (ks_active p)) → ascii_entries (ks_metadata p) → key_Encrypt json_Marshal algorithm client p now plaintext = Ok c →
  let ref := ks_active p in
  let listed := ks_allowAnyDecrypt q || bool_decide (is_Some (ks_decryptAllowed q !! keyRef_id ref)) in
  key_Decrypt json_Unmarshal algorithm client q now' c =
    if negb listed then Fail (ScErrNotConfigured (kr_KeyID ref) (kr_Version ref))
    else if rotationWindowAllows q now' ref then Ok plaintext else Fail (ScErrWindow (kr_KeyID ref) (kr_Version ref)).
Proof.
  intros Hcl Halg Href Hkey Hmeta Henc ref listed. unfold key_Encrypt in Henc. destruct (String.eqb_spec plaintext "") as [|Hpt]; [done|]. cbv zeta in Henc.
  destruct (rotationWindowAllows p now (ks_active p)); [|done]. cbn [negb] in Henc. destruct (kc_Encrypt client _) as [ct|] eqn:Hct; [|done].
  destruct (String.eqb_spec ct "") as [|Hne]; [done|]. apply Hcl in Hct. fold ref in Href, Hkey, Henc, Hct.
  destruct (payload_roundtrip ct Hne) as (Hpay & Hpne & Hpa). set (e := mkEnvelopeV1 _ _ _ _ _ _) in Henc.
  assert (Htrim : TrimSpace (kr_KeyID ref) = kr_KeyID ref ∧ (0 < kr_Version ref)%Z).
  { unfold newKeyRef in Href. destruct (String.eqb _ _); [done|]. destruct (Z.leb_spec (kr_Version ref) 0); [done|]. injection Href as Hr. split; [by rewrite <-Hr at 2|done]. }
  destruct Htrim as [Htrim _]. assert (Hlow : ToLower (TrimSpace algorithm) = algorithm ∧ algorithm ≠ "" ∧ is_ascii algorithm).
  { rewrite !elem_of_cons, elem_of_nil in Halg. destruct Halg as [->|[->|[]]]; (split; [done|split; [done|]]); apply visible_ascii; repeat constructor. }
  destruct Hlow as (Hlow & Hane & Haa). assert (Hnorm : normalizeEnvelope e = e).
  { unfold normalizeEnvelope, e. cbn [en_KeyID en_Version en_Algorithm en_Nonce en_Ciphertext en_Metadata]. rewrite Htrim, Hlow. f_equal. apply trim_entries_id, trim_entries_trimmed. }
  unfold key_Decrypt. rewrite (envelope_roundtrip e c _ Henc); rewrite ?Hnorm; [|by split_and!; [| |apply Forall_nil_2| |]|done|done].
  cbn [en_Algorithm en_KeyID en_Version en_Ciphertext en_Metadata e]. rewrite String.eqb_refl, Href. cbn [negb].
  unfold listed. rewrite <-negb_orb. destruct (ks_allowAnyDecrypt q || _); cbn [negb]; [|done].
  destruct (rotationWindowAllows q now' ref); cbn [negb]; [|done]. rewrite Hpay.
  unfold copyStringMap in *. rewrite trim_entries_id by apply trim_entries_trimmed. rewrite Hct. by apply String.eqb_neq in Hpt as ->.
Qed.
End facts.

(** ** Failover *)

Lemma recordMetadata_same f p : let f' := recordMetadata f p in
  fo_primary f' = fo_primary f ∧ fo_fallback f' = fo_fallback f ∧ fo_policy f' = fo_policy f ∧ fo_events f' = fo_events f ∧
  fo_last f' = default (fo_last f) (readProviderMetadata p).
Proof. unfold recordMetadata. by destruct (readProviderMetadata p). Qed.

(** A provider that decrypts what it encrypted. *)
Definition provider_inverts (p : SecretProvider) : Prop := ∀ x c, sp_Encrypt p x = Ok c → c ≠ "" ∧ sp_Decrypt p c = Ok x.

(** Failing over loses no secret.  What the failover provider encrypted, with either provider, it decrypts to the same text, if each provider decrypts
    what it encrypted and the primary one refuses what the other one encrypted; with the strict policy the fallback is never used, and an error of the
    primary is returned; and if the provider that encrypted tells its key, that key is the one reported next. *)
Theorem failover_roundtrip primary fallback policy f plaintext c f' :
  NewFailoverSecretProvider primary fallback policy = Ok f → provider_inverts primary →
  (∀ q, fallback = Some q → provider_inverts q ∧ ∀ x c, sp_Encrypt q x = Ok c → ∃ err, sp_Decrypt primary c = Fail err) →
  Failover_Encrypt f plaintext = (Ok c, f') →
  (Failover_Decrypt f' c).1 = Ok plaintext ∧
  (sp_Encrypt primary plaintext = Ok c ∨ normalizeFailurePolicy policy = SecretProviderFailurePolicyFallback ∧
     ∃ q err, fallback = Some q ∧ sp_Encrypt primary plaintext = Fail err ∧ sp_Encrypt q plaintext = Ok c) ∧
  (∀ used, sp_Encrypt primary plaintext = Ok c → readProviderMetadata (Some primary) = Some used → fo_last f' = used) ∧
  (∀ q err used, fallback = Some q → sp_Encrypt primary plaintext = Fail err → readProviderMetadata (Some q) = Some used → fo_last f' = used).
Proof.
  intros Hnew Hp Hq Henc. assert (Hf : fo_primary f = primary ∧ fo_fallback f = fallback ∧ fo_policy f = normalizeFailurePolicy policy).
  { unfold NewFailoverSecretProvider in Hnew. cbv zeta in Hnew. destruct fallback as [q|]; [|destruct (String.eqb _ _); [done|]]; injection Hnew as <-;
      destruct (recordMetadata_same (mkFailover primary (Some q) (normalizeFailurePolicy policy) ("", 0%Z) []) (Some primary)) as (-> & -> & -> & _) ||
      destruct (recordMetadata_same (mkFailover primary None (normalizeFailurePolicy policy) ("", 0%Z) []) (Some primary)) as (-> & -> & -> & _); done. }
  destruct Hf as (Hprim & Hfb & Hpol). unfold Failover_Encrypt in Henc. destruct (String.eqb plaintext ""); [done|]. rewrite Hprim in Henc.
  destruct (sp_Encrypt primary plaintext) as [ct|err] eqn:Hpe.
  - injection Henc as -> <-. destruct (Hp _ _ Hpe) as [Hne Hd]. destruct (recordMetadata_same f (Some primary)) as (Hp' & _ & _ & _ & Hlast).
    split_and!; [|by left| |done].
    + unfold Failover_Decrypt. apply String.eqb_neq in Hne as ->. by rewrite Hp', Hprim, Hd.
    + intros used _ Hm. by rewrite Hlast, Hm.
  - set (f1 := emit f "encrypt" "primary_failed" err) in *. assert (Hall : allowed_fallback f1 = if String.eqb (normalizeFailurePolicy policy) SecretProviderFailurePolicyStrict then None else fallback).
    { unfold allowed_fallback, f1. cbn. by rewrite Hpol, Hfb. }
    destruct (allowed_fallback f1) as [q|] eqn:Ha; [|done]. destruct (sp_Encrypt q plaintext) as [ct|] eqn:Hqe; [|done]. injection Henc as -> <-.
    assert (Hfq : fallback = Some q ∧ normalizeFailurePolicy policy = SecretProviderFailurePolicyFallback).
    { unfold normalizeFailurePolicy in *. destruct (String.eqb (ToLower _) _); [|done]. done. }
    destruct Hfq as [-> Hpolf]. destruct (Hq q eq_refl) as [Hqinv Hrej]. destruct (Hqinv _ _ Hqe) as [Hne Hd]. destruct (Hrej _ _ Hqe) as [e' He'].
    destruct (recordMetadata_same f1 (Some q)) as (Hp' & Hf' & Hpo' & _ & Hlast). split_and!.
    + unfold Failover_Decrypt. apply String.eqb_neq in Hne as ->. cbn [emit fo_primary]. rewrite Hp'. cbn [f1 emit fo_primary]. rewrite Hprim, He'.
      unfold allowed_fallback, emit. cbn [fo_policy fo_fallback]. rewrite Hpo', Hf'. cbn [f1 emit fo_policy fo_fallback]. rewrite Hpol, Hfb, Hpolf. cbn. by rewrite Hd.
    + right. split; [done|]. by exists q, err.
    + done.
    + intros q' err' used [= <-] _ Hm. cbn [emit fo_last]. by rewrite Hlast, Hm.
Qed.

(** ** On concrete inputs *)

#[local] Instance demo_MapRange : MapRange := key_order_range.
(** A notation for the envelopes of one key. *)
Definition demo_text (e : envelope) : string := GoHTTP.Join "." [en_Algorithm e; en_Nonce e; en_Ciphertext e].
Definition demo_marshal (e : envelope) : outcome string string :=
  if bool_decide (GoURL.SplitChar "." (demo_text e) = [en_Algorithm e; en_Nonce e; en_Ciphertext e]) && String.eqb (en_KeyID e) "k" && (en_Version e =? 1)%Z
     && bool_decide (en_Metadata e = ∅) then Ok (demo_text e) else Fail "unsupported".
Definition demo_unmarshal (s : string) : outcome string envelope :=
  match GoURL.SplitChar "." s with [alg; nonce; ct] => Ok (mkEnvelopeV1 "k" 1 alg nonce ct ∅) | _ => Fail "syntax" end.
Definition demo_seal (key nonce text aad : string) : string := "#" +:+ text.
Definition demo_open (key nonce text aad : string) : option string := match text with String _ t => Some t | _ => None end.
Definition demo_keys : KeyClient :=
  mkKeyClient (λ r, Ok ("k/" +:+ kq_Text r)) (λ r, match kq_Text r with String "k" (String "/" t) => Ok t | _ => Fail "denied" end).
Definition demo_app : AppKeySecretProvider := mkAppKey "0123456789abcdef" "k" 1 false.

Lemma demo_envelopes : envelope_json_inverts demo_marshal demo_unmarshal.
Proof.
  intros [k v alg n ct m] s _. unfold demo_marshal, demo_unmarshal. cbn [en_KeyID en_Version en_Metadata].
  set (e := mkEnvelopeV1 _ _ _ _ _ _). destruct (bool_decide_reflect (GoURL.SplitChar "." (demo_text e) = [en_Algorithm e; en_Nonce e; en_Ciphertext e])) as [Hs|]; [|done].
  destruct (String.eqb_spec k "k"); [|done]. destruct (Z.eqb_spec v 1); [|done]. destruct (bool_decide_reflect (m = ∅)); [|done]. cbn [andb]. intros [= <-].
  rewrite Hs. subst. done.
Qed.
Lemma demo_gcm : gcm_inverts demo_seal demo_open.
Proof. intros key nonce text aad. done. Qed.
Lemma visible_is_ascii_k : is_ascii "k".
Proof. apply visible_ascii. repeat constructor. Qed.

Definition demo_sealed : string := "services.secret.v1:aes-256-gcm.bm9uY2Utbm9uY2Ut.I3BhdF8x".
Lemma appkey_roundtrip_witness :
  AppKey_Encrypt demo_marshal demo_seal demo_app (Ok "nonce-nonce-") "pat_1" = Ok demo_sealed ∧
  AppKey_Decrypt demo_unmarshal demo_open demo_app demo_sealed = Ok "pat_1" ∧
  AppKey_Decrypt demo_unmarshal demo_open (WithVersion 2 demo_app) demo_sealed = Fail (ScErrVersionMismatch 1 2).
Proof.
  split; [vm_compute; reflexivity|]. split; [|vm_compute; reflexivity].
  refine (proj1 (appkey_roundtrip demo_marshal demo_unmarshal demo_envelopes demo_seal demo_open demo_app "nonce-nonce-" "pat_1" _ demo_gcm visible_is_ascii_k eq_refl eq_refl _)).
  vm_compute. reflexivity.
Defined.

Lemma demo_client_inverts : client_inverts demo_keys.
Proof. intros keyID version text metadata c. cbn. intros [= <-]. done. Qed.
Definition demo_service (version : Z) (opts : list (KeyServiceProvider → KeyServiceProvider)) : KeyServiceProvider :=
  match NewKMSSecretProvider "k" version opts with Ok p => p | Fail _ => mkKeyService (mkKeyRef "" 0) ∅ ∅ false ∅ end.
Definition demo_wrapped : string := "services.secret.v1:kms..ay9wYXRfMQ==".
Lemma demo_service_entries : ascii_entries (ks_metadata (demo_service 1 [])).
Proof. intros k v H. vm_compute in H. done. Qed.
Lemma key_rotation_roundtrip_witness :
  let rotated := demo_service 2 [WithDecryptCompatibilityKey "k" 1] in
  let retired := demo_service 2 [WithDecryptCompatibilityKey "k" 1; WithRotationWindow "k" 1 (mkWindow 0 500)] in
  KMS_Encrypt demo_marshal demo_keys (demo_service 1 []) 100 "pat_1" = Ok demo_wrapped ∧
  KMS_Decrypt demo_unmarshal demo_keys (demo_service 2 []) 600 demo_wrapped = Fail (ScErrNotConfigured "k" 1) ∧
  KMS_Decrypt demo_unmarshal demo_keys retired 600 demo_wrapped = Fail (ScErrWindow "k" 1) ∧
  Vault_Decrypt demo_unmarshal demo_keys rotated 600 demo_wrapped = Fail (ScErrAlgorithm "kms") ∧
  KMS_Decrypt demo_unmarshal demo_keys rotated 600 demo_wrapped = Ok "pat_1".
Proof.
  cbv zeta. split; [vm_compute; reflexivity|]. split; [vm_compute; reflexivity|]. split; [vm_compute; reflexivity|]. split; [vm_compute; reflexivity|].
  refine (key_rotation_roundtrip demo_marshal demo_unmarshal demo_envelopes envelopeAlgorithmKMS demo_keys (demo_service 1 []) 100 "pat_1" demo_wrapped
    (demo_service 2 [WithDecryptCompatibilityKey "k" 1]) 600 demo_client_inverts _ eq_refl visible_is_ascii_k demo_service_entries _).
  - apply elem_of_cons. by left.
  - vm_compute. reflexivity.
Defined.

(** A primary that is down half of the time, and a fallback that does not tell its key. *)
Definition demo_primary : SecretProvider :=
  mkSecretProvider (λ x, if HasPrefix x "A" then Ok ("p:" +:+ x) else Fail "unavailable")
    (λ c, if HasPrefix c "p:" then Ok (TrimPrefix c "p:") else Fail "not mine") (Some ("primary", 3%Z)).
Definition demo_second (metadata : option (string * Z)) : SecretProvider :=
  mkSecretProvider (λ x, Ok ("f:" +:+ x)) (λ c, if HasPrefix c "f:" then Ok (TrimPrefix c "f:") else Fail "not mine") metadata.
Definition demo_failover (metadata : option (string * Z)) : FailoverSecretProvider :=
  match NewFailoverSecretProvider demo_primary (Some (demo_second metadata)) " Fallback_Allowed " with Ok f => f | Fail _ => mkFailover demo_primary None "" ("", 0%Z) [] end.
Lemma demo_primary_inverts : provider_inverts demo_primary.
Proof.
  intros x c. cbn. destruct (HasPrefix x "A"); [|done]. intros [= <-]. split; [done|].
  rewrite (HasPrefix_append "p:" x). by rewrite TrimPrefix_append.
Qed.
Lemma demo_second_inverts metadata : provider_inverts (demo_second metadata) ∧ ∀ x c, sp_Encrypt (demo_second metadata) x = Ok c → ∃ err, sp_Decrypt demo_primary c = Fail err.
Proof.
  split; intros x c; cbn; intros [= <-]; [|by eexists]. split; [done|]. rewrite (HasPrefix_append "f:" x). by rewrite TrimPrefix_append.
Qed.
Lemma failover_roundtrip_witness :
  let out := Failover_Encrypt (demo_failover (Some ("second", 7%Z))) "B-token" in
  out.1 = Ok "f:B-token" ∧ Failover_Metadata out.2 = ("second", 7%Z) ∧ (sd_Outcome <$> fo_events out.2) = ["primary_failed"; "fallback_succeeded"] ∧
  (Failover_Decrypt out.2 "f:B-token").1 = Ok "B-token".
Proof.
  cbv zeta. split; [vm_compute; reflexivity|]. split; [vm_compute; reflexivity|]. split; [vm_compute; reflexivity|].
  refine (proj1 (failover_roundtrip demo_primary (Some (demo_second (Some ("second", 7%Z)))) " Fallback_Allowed " (demo_failover (Some ("second", 7%Z))) "B-token" "f:B-token" _
    eq_refl demo_primary_inverts _ _)).
  - intros q [= <-]. apply demo_second_inverts.
  - reflexivity.
Defined.

(** The key that [Metadata] reports is the one of the last encryption of anybody: between the encryption of a credential and the reading of its key another
    one may be encrypted, and if the fallback does not tell its key the primary's is reported for what the fallback encrypted. *)
Example wrong_key_reported :
  let f := demo_failover (Some ("second", 7%Z)) in
  let mine := Failover_Encrypt f "B-token" in
  let others := Failover_Encrypt mine.2 "A-token" in
  mine.1 = Ok "f:B-token" ∧ Failover_Metadata others.2 = ("primary", 3%Z) ∧
  (let silent := Failover_Encrypt (demo_failover None) "B-token" in silent.1 = Ok "f:B-token" ∧ Failover_Metadata silent.2 = ("primary", 3%Z)).
Proof. vm_compute. repeat split. Qed.
