(* ===== verification/AuthStrategies.v ===== *)
(** * Authentication strategies (src/auth)

    The strategies that do not send the user to a provider: API keys and personal tokens, HMAC secrets, passwords, client certificates, OAuth2 client
    credentials with their cache of tokens, and those with an AWS signature.  The token endpoint is reached as in [OAuth2]: the HTTP client, URL and JSON
    parsing are arguments. *)

From S2P Require Import Prelude GoStrings GoValues Domain OAuthState Contracts GoURL GoBase64 GoHTTP Outbox Signers ServiceTypes Profiles OAuth2.
From Stdlib Require Import ZArith String Ascii Lia.
From stdpp Require Import base decidable list gmap strings sorting.

Local Open Scope string_scope.
Local Open Scope list_scope.

Definition AuthKindOAuth2ClientCredential := "oauth2_client_credentials".

Inductive auth_error :=
| AuErrToken (kind : string) | AuErrSecret | AuErrPassword | AuErrCertificate | AuErrClientID | AuErrClientSecret | AuErrTokenURL
| AuErrRefreshClient | AuErrRefreshURL | AuErrRequest (cause : string) | AuErrDo (cause : string) | AuErrRead (cause : string) | AuErrTooLarge
| AuErrDecode (cause : string) | AuErrStatus (status : Z) (description : string) | AuErrEndpoint (description : string) | AuErrNoToken
| AuErrSigV4 (missing : string).

(** ** Helpers *)

Fixpoint authString (metadata : gmap string value) (keys : list string) : string :=
  match keys with
  | [] => ""
  | key :: rest => match metadata !! key with
                   | Some (VString s) => if blank s then authString metadata rest else TrimSpace s
                   | _ => authString metadata rest
                   end
  end.

(** The first value of each spelling up to case, as it is spelled there. *)
Definition add_value (out : list string) (v : string) : list string :=
  let trimmed := TrimSpace v in
  if String.eqb trimmed "" || bool_decide (ToLower trimmed ∈ ToLower <$> out) then out else out ++ [trimmed].
Definition normalizeValues (values : list string) : list string := sortStrings (foldl add_value [] values).

Fixpoint authStringSlice (metadata : gmap string value) (keys : list string) : list string :=
  match keys with
  | [] => []
  | key :: rest => match metadata !! key with
                   | Some (VStrings l) => normalizeValues l
                   | Some (VList l) => normalizeValues (omap (λ v, match v with VString s => Some s | _ => None end) l)
                   | Some (VString s) => normalizeValues (SplitChar "," s)
                   | _ => authStringSlice metadata rest
                   end
  end.

Definition scope_account (kind : string) (scope : ScopeRef) : string := kind +:+ ":" +:+ scope_Type scope +:+ ":" +:+ scope_ID scope.
Definition kind_metadata (kind : string) : gmap string value := {["auth_kind" := VString kind]}.

(** What the strategies without a redirect answer. *)
Definition direct_Begin (kind : string) (req : AuthBeginRequest) : BeginAuthResponse :=
  mkBeginResponse "" (TrimSpace (ab_State req)) (normalizeValues (ab_RequestedRaw req)) (kind_metadata kind).

(** The grants of a request: those granted, or else those requested. *)
Definition requested_of (metadata : gmap string value) : list string := authStringSlice metadata ["requested_grants"; "requested_scopes"].
Definition granted_of (metadata : gmap string value) (requested : list string) : list string :=
  or_else (authStringSlice metadata ["granted_grants"; "granted_scopes"]) requested.

(** A credential that is not refreshed, and the response around it. *)
Definition static_response (kind account token : string) (metadata credentialMetadata : gmap string value) : AuthCompleteResponse :=
  let requested := requested_of metadata in
  let granted := granted_of metadata requested in
  mkCompleteResponse account (mkActiveCredential "" kind token "" requested granted None false None credentialMetadata) requested granted (kind_metadata kind).

(** [Refresh] of a credential that stays as it is. *)
Definition static_Refresh (kind tokenType : string) (cred : ActiveCredential) : RefreshResult :=
  let refreshed := mkActiveCredential (ac_ConnectionID cred) tokenType (ac_AccessToken cred) (ac_RefreshToken cred) (ac_RequestedScopes cred)
    (ac_GrantedScopes cred) (ac_ExpiresAt cred) false (ac_RotatesAt cred) (<["auth_kind" := VString kind]> (ac_Metadata cred)) in
  mkRefreshResult refreshed (ac_GrantedScopes cred) (kind_metadata kind).

(** ** API keys and personal access tokens *)

Definition defaultAPIKeyHeader := "X-API-Key".
Definition defaultHMACHeader := "X-Signature".
Definition defaultTimeHeader := "X-Timestamp".

Record APIKeyProfile := mkKeyProfile { kp_Header : string; kp_Prefix : string; kp_QueryParam : string }.
Record APIKeyStrategyConfig := mkKeyConfig { kc_Kind : string; kc_Profile : APIKeyProfile; kc_StaticKey : string; kc_ExternalAccountID : string }.

Definition NewAPIKeyStrategy (cfg : APIKeyStrategyConfig) : APIKeyStrategyConfig :=
  let kind := TrimSpace (ToLower (kc_Kind cfg)) in
  let kind := if String.eqb kind "" then AuthKindAPIKey else kind in
  let p := kc_Profile cfg in
  let header := if blank (kp_Header p) then defaultAPIKeyHeader else kp_Header p in
  let pat := String.eqb kind AuthKindPAT in
  let header := if pat && (blank header || EqualFold header defaultAPIKeyHeader) then "Authorization" else header in
  let prefix := if pat && blank (kp_Prefix p) then "token" else kp_Prefix p in
  mkKeyConfig kind (mkKeyProfile header prefix (kp_QueryParam p)) (TrimSpace (kc_StaticKey cfg)) (TrimSpace (kc_ExternalAccountID cfg)).
Definition NewPATStrategy (cfg : APIKeyStrategyConfig) : APIKeyStrategyConfig :=
  NewAPIKeyStrategy (mkKeyConfig AuthKindPAT (kc_Profile cfg) (kc_StaticKey cfg) (kc_ExternalAccountID cfg)).

Definition APIKey_Complete (s : APIKeyStrategyConfig) (req : AuthCompleteRequest) : outcome auth_error AuthCompleteResponse :=
  let md := aq_Metadata req in
  let key := authString md ["api_key"; "pat"; "token"; "access_token"] in
  let key := if String.eqb key "" then kc_StaticKey s else key in
  if String.eqb key "" then Fail (AuErrToken (kc_Kind s))
  else
    let account := authString md ["external_account_id"] in
    let account := if String.eqb account "" then kc_ExternalAccountID s else account in
    let account := if String.eqb account "" then scope_account (kc_Kind s) (aq_Scope req) else account in
    Ok (static_response (kc_Kind s) account key md
          {["auth_kind" := VString (kc_Kind s); "api_key_header" := VString (TrimSpace (kp_Header (kc_Profile s)));
            "api_key_prefix" := VString (TrimSpace (kp_Prefix (kc_Profile s))); "api_key_query_param" := VString (TrimSpace (kp_QueryParam (kc_Profile s)))]}).
Definition APIKey_Refresh (s : APIKeyStrategyConfig) (cred : ActiveCredential) : RefreshResult :=
  static_Refresh (kc_Kind s) (if blank (ac_TokenType cred) then kc_Kind s else ac_TokenType cred) cred.

(** ** HMAC secrets *)

Record HMACStrategyConfig := mkHMACConfig {
  hm_Secret : string; hm_KeyID : string; hm_SignatureHeader : string; hm_TimestampHeader : string; hm_ExternalAccount : string }.
Definition NewHMACStrategy (cfg : HMACStrategyConfig) : HMACStrategyConfig :=
  mkHMACConfig (TrimSpace (hm_Secret cfg)) (TrimSpace (hm_KeyID cfg)) (if blank (hm_SignatureHeader cfg) then defaultHMACHeader else TrimSpace (hm_SignatureHeader cfg))
    (if blank (hm_TimestampHeader cfg) then defaultTimeHeader else TrimSpace (hm_TimestampHeader cfg)) (TrimSpace (hm_ExternalAccount cfg)).
Definition HMAC_Complete (s : HMACStrategyConfig) (req : AuthCompleteRequest) : outcome auth_error AuthCompleteResponse :=
  let md := aq_Metadata req in
  let secret := authString md ["hmac_secret"; "secret"; "token"; "access_token"] in
  let secret := if String.eqb secret "" then hm_Secret s else secret in
  if String.eqb secret "" then Fail AuErrSecret
  else
    let keyID := authString md ["hmac_key_id"; "key_id"] in
    let keyID := if String.eqb keyID "" then hm_KeyID s else keyID in
    let keyID := if String.eqb keyID "" then "hmac-default" else keyID in
    let account := authString md ["external_account_id"] in
    let account := if String.eqb account "" then hm_ExternalAccount s else account in
    let account := if String.eqb account "" then scope_account AuthKindHMAC (aq_Scope req) else account in
    Ok (static_response AuthKindHMAC account secret md
          {["auth_kind" := VString AuthKindHMAC; "hmac_key_id" := VString keyID; "signature_header" := VString (hm_SignatureHeader s);
            "timestamp_header" := VString (hm_TimestampHeader s)]}).
Definition HMAC_Refresh (cred : ActiveCredential) : RefreshResult :=
  static_Refresh AuthKindHMAC (if blank (ac_TokenType cred) then AuthKindHMAC else ac_TokenType cred) cred.

(** ** Passwords and client certificates *)

Record BasicStrategyConfig := mkBasicConfig { bs_Username : string; bs_Password : string; bs_ExternalAccountID : string }.
Definition NewBasicStrategy (cfg : BasicStrategyConfig) : BasicStrategyConfig :=
  mkBasicConfig (TrimSpace (bs_Username cfg)) (TrimSpace (bs_Password cfg)) (TrimSpace (bs_ExternalAccountID cfg)).
Definition Basic_Complete (s : BasicStrategyConfig) (req : AuthCompleteRequest) : outcome auth_error AuthCompleteResponse :=
  let md := aq_Metadata req in
  let username := firstNonEmpty [authString md ["username"; "basic_username"]; bs_Username s] in
  let password := firstNonEmpty [authString md ["password"; "basic_password"]; bs_Password s] in
  if String.eqb username "" || String.eqb password "" then Fail AuErrPassword
  else Ok (static_response AuthKindBasic
             (firstNonEmpty [authString md ["external_account_id"]; bs_ExternalAccountID s; scope_account AuthKindBasic (aq_Scope req)])
             (StdEncode (username +:+ ":" +:+ password)) md {["auth_kind" := VString AuthKindBasic; "username" := VString username]}).
Definition Basic_Refresh (cred : ActiveCredential) : RefreshResult := static_Refresh AuthKindBasic AuthKindBasic cred.

Record MTLSStrategyConfig := mkMTLSConfig { mt_CertRef : string; mt_KeyRef : string; mt_Identity : string; mt_ExternalAccountID : string }.
Definition NewMTLSStrategy (cfg : MTLSStrategyConfig) : MTLSStrategyConfig :=
  mkMTLSConfig (TrimSpace (mt_CertRef cfg)) (TrimSpace (mt_KeyRef cfg)) (TrimSpace (mt_Identity cfg)) (TrimSpace (mt_ExternalAccountID cfg)).
Definition MTLS_Complete (s : MTLSStrategyConfig) (req : AuthCompleteRequest) : outcome auth_error AuthCompleteResponse :=
  let md := aq_Metadata req in
  let certRef := firstNonEmpty [authString md ["cert_ref"; "mtls_cert_ref"]; mt_CertRef s] in
  let keyRef := firstNonEmpty [authString md ["key_ref"; "mtls_key_ref"]; mt_KeyRef s] in
  if String.eqb certRef "" || String.eqb keyRef "" then Fail AuErrCertificate
  else
    let identity := firstNonEmpty [authString md ["identity"; "mtls_identity"]; mt_Identity s; certRef] in
    Ok (static_response AuthKindMTLS
          (firstNonEmpty [authString md ["external_account_id"]; mt_ExternalAccountID s; scope_account AuthKindMTLS (aq_Scope req)])
          ("mtls:" +:+ identity) md
          {["auth_kind" := VString AuthKindMTLS; "cert_ref" := VString certRef; "key_ref" := VString keyRef; "identity" := VString identity]}).
Definition MTLS_Refresh (cred : ActiveCredential) : RefreshResult := static_Refresh AuthKindMTLS AuthKindMTLS cred.

(** ** OAuth2 client credentials *)

Definition defaultClientCredentialsTokenRequestTimeout : Duration := (30 * Second)%Z.
Definition maxClientCredentialsTokenResponseBodyBytes : Z := 1048576.

Record OAuth2ClientCredentialsStrategyConfig := mkClientConfig {
  cl_ClientID : string; cl_ClientSecret : string; cl_TokenURL : string; cl_ClientSecretInBody : bool; cl_DefaultScopes : list string;
  cl_TokenTTL : Duration; cl_RenewBefore : Duration; cl_TokenRequestTimeout : Duration; cl_ExternalAccountID : string }.
Definition NewOAuth2ClientCredentialsStrategy (cfg : OAuth2ClientCredentialsStrategyConfig) : OAuth2ClientCredentialsStrategyConfig :=
  mkClientConfig (TrimSpace (cl_ClientID cfg)) (TrimSpace (cl_ClientSecret cfg)) (TrimSpace (cl_TokenURL cfg)) (cl_ClientSecretInBody cfg)
    (normalizeValues (cl_DefaultScopes cfg)) (if (cl_TokenTTL cfg <=? 0)%Z then (3600 * Second)%Z else cl_TokenTTL cfg)
    (if (cl_RenewBefore cfg <=? 0)%Z then (2 * Minute)%Z else cl_RenewBefore cfg)
    (if (cl_TokenRequestTimeout cfg <=? 0)%Z then defaultClientCredentialsTokenRequestTimeout else cl_TokenRequestTimeout cfg)
    (TrimSpace (cl_ExternalAccountID cfg)).

Record clientCredentialsTokenPayload := mkClientToken {
  ct_AccessToken : string; ct_TokenType : string; ct_Scope : string; ct_ExpiresIn : Z; ct_ErrorCode : string; ct_ErrorDescription : string }.

(** The cache: credentials with the time they expire, under their keys. *)
Record cachedClientCredential := mkCachedCredential { ch_credential : ActiveCredential; ch_expiresAt : Time }.
Abbreviation credential_cache := (gmap string cachedClientCredential).

Section client_credentials.
Variable json_Unmarshal : string → outcome string (gmap string value).
Variable parseURL : string → outcome string URL.
(** What the platform makes of a float that does not fit an integer. *)
Variable f2i_out_of_range : Z.

Definition parseClientCredentialsTokenPayloadJSON (body : string) : outcome string clientCredentialsTokenPayload :=
  if blank body then Fail "empty payload"
  else match json_Unmarshal body with
  | Fail err => Fail err
  | Ok decoded =>
    let text k := readAnyString (mapGet decoded k) in
    Ok (mkClientToken (text "access_token") (text "token_type") (text "scope") (readAnyInt64 f2i_out_of_range (mapGet decoded "expires_in"))
          (text "error") (text "error_description"))
  end.
Definition parseClientCredentialsTokenPayloadForm (body : string) : outcome string clientCredentialsTokenPayload :=
  if blank body then Fail "empty payload"
  else match ParseForm body with
  | Fail err => Fail err
  | Ok values =>
    let text k := TrimSpace (Values_Get values k) in
    Ok (mkClientToken (text "access_token") (text "token_type") (text "scope") (ParseInt_value (text "expires_in")) (text "error") (text "error_description"))
  end.
Definition parseClientCredentialsTokenPayload (body contentType : string) : outcome string clientCredentialsTokenPayload :=
  let contentType := ToLower (TrimSpace contentType) in
  if Contains contentType "json" then parseClientCredentialsTokenPayloadJSON body
  else if Contains contentType "x-www-form-urlencoded" || Contains contentType "text/plain" then parseClientCredentialsTokenPayloadForm body
  else match parseClientCredentialsTokenPayloadJSON body with Ok p => Ok p | Fail _ => parseClientCredentialsTokenPayloadForm body end.

Definition describeClientCredentialsError (p : clientCredentialsTokenPayload) : string :=
  if negb (blank (ct_ErrorDescription p)) then TrimSpace (ct_ErrorDescription p)
  else if negb (blank (ct_ErrorCode p)) then TrimSpace (ct_ErrorCode p) else "unknown error".

Definition parseClientCredentialScopes (v : string) : list string :=
  let trimmed := TrimSpace v in if String.eqb trimmed "" then [] else normalizeValues (Fields (ReplaceAll trimmed "," " ")).

Definition client_form (s : OAuth2ClientCredentialsStrategyConfig) (clientID clientSecret : string) (scopes : list string) : Values :=
  let values := Values_Set ∅ "grant_type" "client_credentials" in
  let values := match scopes with [] => values | _ => Values_Set values "scope" (GoHTTP.Join " " (normalizeValues scopes)) end in
  let values := Values_Set values "client_id" clientID in
  if cl_ClientSecretInBody s then Values_Set values "client_secret" clientSecret else values.

Definition client_request (s : OAuth2ClientCredentialsStrategyConfig) (u : URL) (clientID clientSecret : string) (scopes : list string) : HttpRequest :=
  let req := mkHttpRequest "POST" u ∅ (Some (Values_Encode (client_form s clientID clientSecret scopes))) in
  let req := hr_set (hr_set req "Content-Type" "application/x-www-form-urlencoded") "Accept" "application/json" in
  if cl_ClientSecretInBody s then req else hr_set req "Authorization" ("Basic " +:+ StdEncode (clientID +:+ ":" +:+ clientSecret)).

Definition client_response (res : HttpResponse) : outcome auth_error clientCredentialsTokenPayload :=
  if exceeds maxClientCredentialsTokenResponseBodyBytes res then Fail AuErrTooLarge
  else match hp_ReadError res with
  | Some err => Fail (AuErrRead err)
  | None =>
    match parseClientCredentialsTokenPayload (hp_Body res) (Header_Get (hp_Header res) "Content-Type") with
    | Fail err => Fail (AuErrDecode err)
    | Ok payload =>
      if negb (status_ok res) then Fail (AuErrStatus (hp_Status res) (describeClientCredentialsError payload))
      else if negb (String.eqb (ct_ErrorCode payload) "") then Fail (AuErrEndpoint (describeClientCredentialsError payload))
      else if blank (ct_AccessToken payload) then Fail AuErrNoToken
      else Ok payload
    end
  end.

Definition Client_fetchToken (s : OAuth2ClientCredentialsStrategyConfig) (client : HTTPDoer) (tokenURL clientID clientSecret : string) (scopes : list string)
    : outcome auth_error clientCredentialsTokenPayload :=
  let tokenURL := TrimSpace tokenURL in
  if String.eqb tokenURL "" then Fail AuErrTokenURL
  else match parseURL tokenURL with
  | Fail err => Fail (AuErrRequest err)
  | Ok u => match client (client_request s u clientID clientSecret scopes) with
            | Fail err => Fail (AuErrDo err)
            | Ok res => client_response res
            end
  end.

Definition resolveClientCredentialsExpiresAt (now : Time) (expiresIn : Z) (fallback : Duration) : option Time :=
  let ttl := if (0 <? expiresIn)%Z then wrap64 (expiresIn * Second) else fallback in
  if (ttl <=? 0)%Z then None else Some (addTime now ttl).
Definition normalizeClientCredentialsTokenType (v : string) : string := let n := ToLower (TrimSpace v) in if String.eqb n "" then "bearer" else n.

Definition buildClientCredentialsCacheKey (scope : ScopeRef) (clientID : string) (requested : list string) : string :=
  clientID +:+ ":" +:+ TrimSpace (scope_Type scope) +:+ ":" +:+ TrimSpace (scope_ID scope) +:+ ":" +:+ GoHTTP.Join "|" (sortStrings (normalizeValues requested)).

Definition issueCredential (s : OAuth2ClientCredentialsStrategyConfig) (client : HTTPDoer) (now : Time) (scope : ScopeRef)
    (clientID clientSecret tokenURL : string) (requested granted : list string) (cacheKey : string)
    : outcome auth_error (ActiveCredential * list string) :=
  match Client_fetchToken s client tokenURL clientID clientSecret requested with
  | Fail err => Fail err
  | Ok payload =>
    let effectiveGranted := or_else (or_else (parseClientCredentialScopes (ct_Scope payload)) granted) requested in
    Ok (mkActiveCredential "" (normalizeClientCredentialsTokenType (ct_TokenType payload)) (TrimSpace (ct_AccessToken payload)) "" requested effectiveGranted
          (resolveClientCredentialsExpiresAt now (ct_ExpiresIn payload) (cl_TokenTTL s)) true None
          {["auth_kind" := VString AuthKindOAuth2ClientCredential; "client_id" := VString clientID; "token_url" := VString tokenURL;
            "cache_key" := VString cacheKey; "scope_type" := VString (TrimSpace (scope_Type scope)); "scope_id" := VString (TrimSpace (scope_ID scope))]},
        effectiveGranted)
  end.

(** An entry that is about to expire, or does not say when, is dropped. *)
Definition lookupCachedCredential (s : OAuth2ClientCredentialsStrategyConfig) (cache : credential_cache) (now : Time) (cacheKey : string)
    : option ActiveCredential * credential_cache :=
  match cache !! cacheKey with
  | None => (None, cache)
  | Some cached =>
    if IsZero (ch_expiresAt cached) || negb (After (ch_expiresAt cached) (addTime now (cl_RenewBefore s))) then (None, delete cacheKey cache)
    else (Some (ch_credential cached), cache)
  end.
Definition storeCachedCredential (cache : credential_cache) (cacheKey : string) (cred : ActiveCredential) : credential_cache :=
  <[cacheKey := mkCachedCredential cred (default zeroTime (ac_ExpiresAt cred))]> cache.

Definition buildCompleteResponse (s : OAuth2ClientCredentialsStrategyConfig) (req : AuthCompleteRequest) (cred : ActiveCredential)
    (requested granted : list string) : AuthCompleteResponse :=
  mkCompleteResponse
    (firstNonEmpty [authString (aq_Metadata req) ["external_account_id"]; cl_ExternalAccountID s; scope_account AuthKindOAuth2ClientCredential (aq_Scope req)])
    cred requested granted
    {["auth_kind" := VString AuthKindOAuth2ClientCredential; "token_url" := VString (authString (ac_Metadata cred) ["token_url"])]}.

Definition Client_Begin (s : OAuth2ClientCredentialsStrategyConfig) (req : AuthBeginRequest) : BeginAuthResponse :=
  mkBeginResponse "" (TrimSpace (ab_State req)) (or_else (normalizeValues (ab_RequestedRaw req)) (cl_DefaultScopes s))
    {["auth_kind" := VString AuthKindOAuth2ClientCredential; "token_url" := VString (cl_TokenURL s)]}.

Definition client_setting (metadata : gmap string value) (key configured : string) : string := firstNonEmpty [authString metadata [key]; configured].

Definition Client_Complete (s : OAuth2ClientCredentialsStrategyConfig) (client : HTTPDoer) (cache : credential_cache) (now : Time) (req : AuthCompleteRequest)
    : outcome auth_error AuthCompleteResponse * credential_cache :=
  let md := aq_Metadata req in
  let clientID := client_setting md "client_id" (cl_ClientID s) in
  let clientSecret := client_setting md "client_secret" (cl_ClientSecret s) in
  let tokenURL := client_setting md "token_url" (cl_TokenURL s) in
  if String.eqb clientID "" then (Fail AuErrClientID, cache)
  else if String.eqb clientSecret "" then (Fail AuErrClientSecret, cache)
  else if String.eqb tokenURL "" then (Fail AuErrTokenURL, cache)
  else
    let requested := or_else (requested_of md) (cl_DefaultScopes s) in
    let granted := granted_of md requested in
    let cacheKey := buildClientCredentialsCacheKey (aq_Scope req) clientID requested in
    match lookupCachedCredential s cache now cacheKey with
    | (Some cached, cache) => (Ok (buildCompleteResponse s req cached requested (ac_GrantedScopes cached)), cache)
    | (None, cache) =>
      match issueCredential s client now (aq_Scope req) clientID clientSecret tokenURL requested granted cacheKey with
      | Fail err => (Fail err, cache)
      | Ok (issued, effectiveGranted) =>
        (Ok (buildCompleteResponse s req issued requested effectiveGranted), storeCachedCredential cache cacheKey issued)
      end
    end.

Definition Client_Refresh (s : OAuth2ClientCredentialsStrategyConfig) (client : HTTPDoer) (cache : credential_cache) (now : Time) (cred : ActiveCredential)
    : outcome auth_error RefreshResult * credential_cache :=
  let md := ac_Metadata cred in
  let clientID := client_setting md "client_id" (cl_ClientID s) in
  let clientSecret := client_setting md "client_secret" (cl_ClientSecret s) in
  let tokenURL := client_setting md "token_url" (cl_TokenURL s) in
  if String.eqb clientID "" || String.eqb clientSecret "" then (Fail AuErrRefreshClient, cache)
  else if String.eqb tokenURL "" then (Fail AuErrRefreshURL, cache)
  else
    let requested := or_else (normalizeValues (ac_RequestedScopes cred)) (cl_DefaultScopes s) in
    let granted := or_else (normalizeValues (ac_GrantedScopes cred)) requested in
    let scope := mkScopeRef (authString md ["scope_type"]) (authString md ["scope_id"]) in
    let cacheKey := firstNonEmpty [authString md ["cache_key"]; buildClientCredentialsCacheKey scope clientID requested] in
    match issueCredential s client now scope clientID clientSecret tokenURL requested granted cacheKey with
    | Fail err => (Fail err, cache)
    | Ok (issued, effectiveGranted) =>
      (Ok (mkRefreshResult issued effectiveGranted
             {["auth_kind" := VString AuthKindOAuth2ClientCredential; "token_url" := VString tokenURL]}), storeCachedCredential cache cacheKey issued)
    end.

(** ** With an AWS signature *)

Record AWSSigV4SigningProfile := mkSigningProfile {
  sg_AccessKeyID : string; sg_SecretAccessKey : string; sg_SessionToken : string; sg_Region : string; sg_Service : string; sg_SigningMode : string;
  sg_SigningExpiresSec : Z; sg_UnsignedPayload : bool; sg_AccessTokenHeader : string }.

Definition normalizeSigningMode (mode : string) : string := if String.eqb (TrimSpace (ToLower mode)) "query" then "query" else "header".
(** The profile that [NewOAuth2SigV4Strategy] keeps. *)
Definition sigv4_profile (p : AWSSigV4SigningProfile) : AWSSigV4SigningProfile :=
  mkSigningProfile (sg_AccessKeyID p) (sg_SecretAccessKey p) (sg_SessionToken p) (sg_Region p) (sg_Service p) (normalizeSigningMode (sg_SigningMode p))
    (sg_SigningExpiresSec p) (sg_UnsignedPayload p) (if String.eqb (sg_AccessTokenHeader p) "" then "x-amz-access-token" else sg_AccessTokenHeader p).

(** The value of the request, of the profile or of the credential. *)
Definition chosen (runtime : gmap string value) (profile : string) (metadata : gmap string value) (keys : list string) : string :=
  firstNonEmpty [authString runtime keys; profile; authString metadata keys].
Definition signing_expires (metadata : gmap string value) (p : AWSSigV4SigningProfile) (runtime : gmap string value) : gmap string value :=
  let raw := chosen runtime (Itoa (sg_SigningExpiresSec p)) metadata ["aws_signing_expires"; "aws_query_expires"] in
  if negb (String.eqb raw "") && negb (String.eqb raw "0") then
    match Atoi (TrimSpace raw) with
    | Some seconds => if (0 <? seconds)%Z then <["aws_signing_expires" := VString (Itoa seconds)]> metadata else metadata
    | None => metadata
    end
  else metadata.
Definition unsigned_payload (p : AWSSigV4SigningProfile) (runtime : gmap string value) : bool :=
  let v := authString runtime ["aws_unsigned_payload"] in
  if String.eqb v "" then sg_UnsignedPayload p else match ParseBool v with Some b => b | None => sg_UnsignedPayload p end.

(** Each assignment is made to the map that the next value is read from. *)
Definition applySigV4ProfileMetadata (metadata : gmap string value) (p : AWSSigV4SigningProfile) (runtime : gmap string value) : gmap string value :=
  let put m k v := <[k := VString v]> m in
  let m := put metadata "auth_kind" AuthKindAWSSigV4 in
  let m := put m "aws_access_key_id" (chosen runtime (sg_AccessKeyID p) m ["aws_access_key_id"; "access_key_id"]) in
  let m := put m "aws_secret_access_key" (chosen runtime (sg_SecretAccessKey p) m ["aws_secret_access_key"; "secret_access_key"]) in
  let m := put m "aws_session_token" (chosen runtime (sg_SessionToken p) m ["aws_session_token"; "session_token"]) in
  let m := put m "aws_region" (chosen runtime (sg_Region p) m ["aws_region"; "region"]) in
  let m := put m "aws_service" (chosen runtime (sg_Service p) m ["aws_service"; "service"]) in
  let m := put m "aws_signing_mode" (normalizeSigningMode (chosen runtime (sg_SigningMode p) m ["aws_signing_mode"; "signing_mode"])) in
  let header := firstNonEmpty [ToLower (authString runtime ["aws_access_token_header"]); ToLower (TrimSpace (sg_AccessTokenHeader p));
                               ToLower (authString m ["aws_access_token_header"])] in
  let m := put m "aws_access_token_header" (if String.eqb header "" then "x-amz-access-token" else header) in
  let m := signing_expires m p runtime in
  <["aws_unsigned_payload" := VBool (unsigned_payload p runtime)]> m.

Definition validateSigV4ProfileMetadata (metadata : gmap string value) : option auth_error :=
  if blank (authString metadata ["aws_access_key_id"; "access_key_id"]) then Some (AuErrSigV4 "aws_access_key_id")
  else if blank (authString metadata ["aws_secret_access_key"; "secret_access_key"]) then Some (AuErrSigV4 "aws_secret_access_key")
  else if blank (authString metadata ["aws_region"; "region"]) then Some (AuErrSigV4 "aws_region")
  else if blank (authString metadata ["aws_service"; "service"]) then Some (AuErrSigV4 "aws_service")
  else None.

Definition with_credential_metadata (c : ActiveCredential) (m : gmap string value) : ActiveCredential :=
  mkActiveCredential (ac_ConnectionID c) (ac_TokenType c) (ac_AccessToken c) (ac_RefreshToken c) (ac_RequestedScopes c) (ac_GrantedScopes c)
    (ac_ExpiresAt c) (ac_Refreshable c) (ac_RotatesAt c) m.
Definition sigv4_marks (m : gmap string value) : gmap string value :=
  <["signing_profile" := VString AuthKindAWSSigV4]> (<["auth_kind" := VString AuthKindAWSSigV4]> m).
(** The credential with the profile, if the profile is complete. *)
Definition sigv4_credential (p : AWSSigV4SigningProfile) (cred : ActiveCredential) (runtime : gmap string value) : outcome auth_error ActiveCredential :=
  let m := applySigV4ProfileMetadata (ac_Metadata cred) p runtime in
  match validateSigV4ProfileMetadata m with
  | Some err => Fail err
  | None => Ok (with_credential_metadata cred (<["auth_kind" := VString AuthKindAWSSigV4]> m))
  end.

Definition SigV4_Begin (s : OAuth2ClientCredentialsStrategyConfig) (req : AuthBeginRequest) : BeginAuthResponse :=
  let b := Client_Begin s req in mkBeginResponse (br_URL b) (br_State b) (br_RequestedGrants b) (sigv4_marks (br_Metadata b)).
Definition SigV4_Complete (s : OAuth2ClientCredentialsStrategyConfig) (p : AWSSigV4SigningProfile) (client : HTTPDoer) (cache : credential_cache) (now : Time)
    (req : AuthCompleteRequest) : outcome auth_error AuthCompleteResponse * credential_cache :=
  match Client_Complete s client cache now req with
  | (Fail err, cache) => (Fail err, cache)
  | (Ok r, cache) =>
    (match sigv4_credential p (ar_Credential r) (aq_Metadata req) with
     | Fail err => Fail err
     | Ok c => Ok (mkCompleteResponse (ar_ExternalAccountID r) c (ar_RequestedGrants r) (ar_GrantedGrants r) (sigv4_marks (ar_Metadata r)))
     end, cache)
  end.
Definition SigV4_Refresh (s : OAuth2ClientCredentialsStrategyConfig) (p : AWSSigV4SigningProfile) (client : HTTPDoer) (cache : credential_cache) (now : Time)
    (cred : ActiveCredential) : outcome auth_error RefreshResult * credential_cache :=
  match Client_Refresh s client cache now cred with
  | (Fail err, cache) => (Fail err, cache)
  | (Ok r, cache) =>
    (match sigv4_credential p (rr_Credential r) (ac_Metadata cred) with
     | Fail err => Fail err
     | Ok c => Ok (mkRefreshResult c (rr_GrantedGrants r) (sigv4_marks (rr_Metadata r)))
     end, cache)
  end.
End client_credentials.

(** ** Strings read *)

Lemma authString_trimmed md keys : TrimSpace (authString md keys) = authString md keys.
Proof.
  induction keys as [|k keys IH]; [vm_compute; done|]. cbn [authString]. destruct (md !! k) as [[]|]; auto. destruct (blank s); auto using TrimSpace_idem.
Qed.
Lemma firstNonEmpty_trimmed l : TrimSpace (firstNonEmpty l) = firstNonEmpty l.
Proof. induction l as [|v l IH]; [vm_compute; done|]. cbn [firstNonEmpty]. destruct (blank v); auto using TrimSpace_idem. Qed.
(** The two readers of the metadata agree. *)
Lemma authString_metadataString md keys : "" ∉ keys → authString md keys = metadataString md keys.
Proof.
  induction keys as [|k keys IH]; [done|]. intros [Hk Hrest]%not_elem_of_cons. cbn [authString metadataString].
  rewrite (proj2 (String.eqb_neq k "")) by done. rewrite IH by done. by destruct (md !! k) as [[]|].
Qed.
Lemma blank_neq s : TrimSpace s = s → blank s = String.eqb s "".
Proof. intros H. unfold blank. by rewrite H. Qed.

(** ** What the direct strategies are for *)

Inductive direct_strategy :=
| DirectKey (s : APIKeyStrategyConfig) | DirectHMAC (s : HMACStrategyConfig) | DirectBasic (s : BasicStrategyConfig) | DirectMTLS (s : MTLSStrategyConfig).

(** One that was built by its constructor. *)
Definition built (d : direct_strategy) : Prop :=
  match d with
  | DirectKey s => ∃ cfg, s = NewAPIKeyStrategy cfg ∧ (kc_Kind s = AuthKindAPIKey ∨ kc_Kind s = AuthKindPAT)
  | DirectHMAC s => ∃ cfg, s = NewHMACStrategy cfg
  | DirectBasic s => ∃ cfg, s = NewBasicStrategy cfg
  | DirectMTLS s => ∃ cfg, s = NewMTLSStrategy cfg
  end.
Definition direct_Complete (d : direct_strategy) (req : AuthCompleteRequest) : outcome auth_error AuthCompleteResponse :=
  match d with
  | DirectKey s => APIKey_Complete s req | DirectHMAC s => HMAC_Complete s req
  | DirectBasic s => Basic_Complete s req | DirectMTLS s => MTLS_Complete s req
  end.
Definition direct_Refresh (d : direct_strategy) (cred : ActiveCredential) : RefreshResult :=
  match d with
  | DirectKey s => APIKey_Refresh s cred | DirectHMAC _ => HMAC_Refresh cred | DirectBasic _ => Basic_Refresh cred | DirectMTLS _ => MTLS_Refresh cred
  end.

(** The value a request supplies, or else the configured one. *)
Definition supplied (md : gmap string value) (keys : list string) (configured : string) : string :=
  let v := authString md keys in if String.eqb v "" then configured else v.

Section signed.
Context {MR : MapRange}.
Variable sha256 : string → string.
Variable hmacSHA256 : string → string → string.
Variable time_Format : Time → string → string.
Variable EscapedPath : URL → string.

(** How a request is to be signed with what [md] supplies. *)
Definition direct_signed (d : direct_strategy) (md : gmap string value) (now : Time) (req : HttpRequest) : HttpRequest :=
  match d with
  | DirectKey s =>
    let key := supplied md ["api_key"; "pat"; "token"; "access_token"] (kc_StaticKey s) in
    if String.eqb (kc_Kind s) AuthKindPAT then hr_set req "Authorization" ("token " +:+ key)
    else
      let p := kc_Profile s in
      hr_set (if blank (kp_QueryParam p) then req else hr_with_url req (setQueryValue (hr_URL req) (TrimSpace (kp_QueryParam p)) key))
        (TrimSpace (kp_Header p)) (if blank (kp_Prefix p) then key else TrimSpace (kp_Prefix p) +:+ " " +:+ key)
  | DirectHMAC s =>
    let secret := supplied md ["hmac_secret"; "secret"; "token"; "access_token"] (hm_Secret s) in
    let timestamp := Itoa (unixSeconds now) in
    hr_set (hr_set req (hm_TimestampHeader s) timestamp) (hm_SignatureHeader s)
      (hex_EncodeToString (hmacSHA256 secret (GoHTTP.Join "
" [ToUpper (TrimSpace (hr_Method req)); u_Path (hr_URL req); timestamp; readRequestBodyHash sha256 req])))
  | DirectBasic s =>
    hr_set req "Authorization" ("Basic " +:+ StdEncode (supplied md ["username"; "basic_username"] (bs_Username s) +:+ ":" +:+
                                                         supplied md ["password"; "basic_password"] (bs_Password s)))
  | DirectMTLS _ => req
  end.

Lemma mstr_here (m : gmap string value) k v : k ≠ "" → metadataString (<[k := VString v]> m) [k] = TrimSpace v.
Proof.
  intros Hk%String.eqb_neq. cbn [metadataString]. rewrite Hk, lookup_insert_eq. destruct (blank v) eqn:Hb; [|done]. by apply blank_true in Hb.
Qed.
Lemma mstr_there (m : gmap string value) k k' v : k ≠ k' → metadataString (<[k := v]> m) [k'] = metadataString m [k'].
Proof. intros Hk. cbn [metadataString]. by rewrite lookup_insert_ne. Qed.
Lemma mstr_single k v : k ≠ "" → metadataString {[k := VString v]} [k] = TrimSpace v.
Proof. apply mstr_here. Qed.
Lemma mstr_single_ne k k' v : k ≠ k' → metadataString {[k := v]} [k'] = "".
Proof. intros Hk. cbn [metadataString]. rewrite lookup_singleton_ne by done. by destruct (String.eqb k' ""). Qed.

Lemma supplied_trimmed md keys configured : TrimSpace configured = configured → TrimSpace (supplied md keys configured) = supplied md keys configured.
Proof. intros H. unfold supplied. destruct (String.eqb _ ""); [done|apply authString_trimmed]. Qed.
Lemma firstNonEmpty_supplied md keys configured : TrimSpace configured = configured → firstNonEmpty [authString md keys; configured] = supplied md keys configured.
Proof.
  intros H. unfold supplied. cbn [firstNonEmpty]. rewrite !blank_neq by auto using authString_trimmed. rewrite authString_trimmed, H.
  destruct (String.eqb _ ""); [|done]. destruct (String.eqb_spec configured ""); by subst.
Qed.

(** The credential of a strategy keeps its kind, its token and its metadata when it is refreshed. *)
Lemma static_Refresh_spec kind tokenType account token md cmd : let c := rr_Credential (static_Refresh kind tokenType (ar_Credential (static_response kind account token md cmd))) in
  ac_AccessToken c = token ∧ ac_Metadata c = <["auth_kind" := VString kind]> cmd.
Proof. done. Qed.

Lemma kind_signer kind c : metadataString (ac_Metadata c) ["auth_kind"] = kind → TrimSpace (ToLower kind) = kind → kind ≠ "" →
  normalizeAuthKind (resolveCredentialAuthKind c) = kind.
Proof.
  intros Hk Hn Hne%String.eqb_neq. unfold resolveCredentialAuthKind, normalizeAuthKind. rewrite Hk, Hne. cbn [negb].
  assert (Hl : lowerTrim kind = kind); [|by rewrite Hl]. unfold lowerTrim. by rewrite ?ToLower_TrimSpace.
Qed.

(** What the credential of a strategy says, and that it says so too once it is refreshed. *)
Definition credential_of (d : direct_strategy) (req : AuthCompleteRequest) (c : ActiveCredential) : Prop :=
  ∃ r, direct_Complete d req = Ok r ∧ (c = ar_Credential r ∨ c = rr_Credential (direct_Refresh d (ar_Credential r))).

Lemma credential_of_static d req c kind account token cmd :
  (∀ cred, ∃ tokenType, direct_Refresh d cred = static_Refresh kind tokenType cred) → cmd !! "auth_kind" = Some (VString kind) →
  direct_Complete d req = Ok (static_response kind account token (aq_Metadata req) cmd) → credential_of d req c → ac_AccessToken c = token ∧ ac_Metadata c = cmd.
Proof.
  intros Hrefresh Hkind Hok (r & Hr & Hc). rewrite Hok in Hr. injection Hr as <-. destruct Hc as [->| ->]; [done|].
  destruct (Hrefresh (ar_Credential (static_response kind account token (aq_Metadata req) cmd))) as [tt ->]. split; [done|]. cbn. by apply insert_id.
Qed.

Ltac read_metadata := repeat (first [rewrite mstr_here by done | rewrite mstr_there by done | rewrite mstr_single by done | rewrite mstr_single_ne by done]).

Abbreviation sign := (Sign sha256 hmacSHA256 time_Format EscapedPath).

(** The signer that is found for a credential, and that it signs every request as the strategy means it. *)
Definition signs_as (d : direct_strategy) (md : gmap string value) (c : ActiveCredential) : Prop :=
  ∃ signer, resolveAuthKindSigner c = Some signer ∧ ∀ now hreq, sign signer now hreq c = Ok (direct_signed d md now hreq).

Lemma basic_signs s req c : built (DirectBasic s) → credential_of (DirectBasic s) req c → signs_as (DirectBasic s) (aq_Metadata req) c.
Proof.
  intros [cfg ->] Hc. pose proof Hc as (r & Hr & _). cbn [direct_Complete] in Hr. unfold Basic_Complete in Hr. cbv zeta in Hr.
  assert (Hu : TrimSpace (bs_Username (NewBasicStrategy cfg)) = bs_Username (NewBasicStrategy cfg)) by apply TrimSpace_idem.
  assert (Hp : TrimSpace (bs_Password (NewBasicStrategy cfg)) = bs_Password (NewBasicStrategy cfg)) by apply TrimSpace_idem.
  rewrite !firstNonEmpty_supplied in Hr by done. destruct (String.eqb _ "" || _) eqn:He; [done|].
  eapply credential_of_static in Hc as [Htok Hmd]; [|intros; by exists AuthKindBasic| |]; cycle 1.
  2: { cbn [direct_Complete]. unfold Basic_Complete. cbv zeta. rewrite !firstNonEmpty_supplied, He by done. reflexivity. }
  { apply lookup_insert_eq. }
  exists BasicAuthSigner. split.
  - unfold resolveAuthKindSigner. rewrite (kind_signer AuthKindBasic); [done| |vm_compute; done|done]. rewrite Hmd. by read_metadata.
  - intros now hreq. cbn [Sign direct_signed]. unfold token_Sign. rewrite Htok, (TrimSpace_visible (StdEncode _)) by apply StdEncode_visible.
    match goal with |- context[String.eqb (StdEncode ?v) ""] => assert (Hne : StdEncode v ≠ "") end.
    { apply StdEncode_nonempty. intros Hz. by destruct (supplied _ _ _). }
    by apply String.eqb_neq in Hne as ->.
Qed.

Lemma mtls_signs s req c : built (DirectMTLS s) → credential_of (DirectMTLS s) req c → signs_as (DirectMTLS s) (aq_Metadata req) c.
Proof.
  intros _ Hc. pose proof Hc as (r & Hr & _). cbn [direct_Complete] in Hr. unfold MTLS_Complete in Hr. cbv zeta in Hr. destruct (_ || _) eqn:He; [done|].
  eapply credential_of_static in Hc as [_ Hmd]; [|intros; by exists AuthKindMTLS| |]; cycle 1.
  2: { cbn [direct_Complete]. unfold MTLS_Complete. cbv zeta. rewrite He. reflexivity. }
  { apply lookup_insert_eq. }
  exists MTLSSigner. split; [|done]. unfold resolveAuthKindSigner. rewrite (kind_signer AuthKindMTLS); [done| |vm_compute; done|done]. rewrite Hmd. by read_metadata.
Qed.

Lemma hmac_signs s req c : built (DirectHMAC s) → credential_of (DirectHMAC s) req c → signs_as (DirectHMAC s) (aq_Metadata req) c.
Proof.
  intros [cfg Hs] Hc. pose proof Hc as (r & Hr & _). cbn [direct_Complete] in Hr. unfold HMAC_Complete in Hr. cbv zeta in Hr. fold (supplied (aq_Metadata req) ["hmac_secret"; "secret"; "token"; "access_token"] (hm_Secret s)) in Hr.
  destruct (String.eqb (supplied _ _ _) "") eqn:He; [done|].
  eapply credential_of_static in Hc as [Htok Hmd]; [|intros cred; by eexists| |]; cycle 1.
  2: { cbn [direct_Complete]. unfold HMAC_Complete. cbv zeta. fold (supplied (aq_Metadata req) ["hmac_secret"; "secret"; "token"; "access_token"] (hm_Secret s)).
       rewrite He. reflexivity. }
  { apply lookup_insert_eq. }
  assert (Hk : TrimSpace (hm_Secret s) = hm_Secret s) by (rewrite Hs; apply TrimSpace_idem).
  assert (Hsig : TrimSpace (hm_SignatureHeader s) = hm_SignatureHeader s ∧ blank (hm_SignatureHeader s) = false).
  { rewrite Hs. cbn [NewHMACStrategy hm_SignatureHeader]. destruct (blank (hm_SignatureHeader cfg)) eqn:Hb; [by vm_compute|]. by rewrite TrimSpace_idem, blank_TrimSpace. }
  assert (Hts : TrimSpace (hm_TimestampHeader s) = hm_TimestampHeader s ∧ blank (hm_TimestampHeader s) = false).
  { rewrite Hs. cbn [NewHMACStrategy hm_TimestampHeader]. destruct (blank (hm_TimestampHeader cfg)) eqn:Hb; [by vm_compute|]. by rewrite TrimSpace_idem, blank_TrimSpace. }
  destruct Hsig as [Hsig Hsigb], Hts as [Hts Htsb]. exists (HMACSigner (hm_SignatureHeader s) (hm_TimestampHeader s) None). split.
  - unfold resolveAuthKindSigner. rewrite (kind_signer AuthKindHMAC); [|rewrite Hmd; by read_metadata|vm_compute; done|done].
    cbv zeta. rewrite Hmd. read_metadata. cbn [String.eqb Ascii.eqb Bool.eqb AuthKindHMAC AuthKindAPIKey AuthKindPAT firstNonEmpty].
    by rewrite Hsig, Hts, Hsigb, Htsb, Hsig, Hts.
  - intros now hreq. cbn [Sign direct_signed default]. unfold HMAC_Sign. cbv zeta. rewrite Htok, supplied_trimmed, He, Hsigb, Htsb, Hsig, Hts by done. done.
Qed.

Lemma key_signs s req c : built (DirectKey s) → credential_of (DirectKey s) req c → signs_as (DirectKey s) (aq_Metadata req) c.
Proof.
  intros (cfg & Hs & Hkind) Hc. pose proof Hc as (r & Hr & _). cbn [direct_Complete] in Hr. unfold APIKey_Complete in Hr. cbv zeta in Hr. fold (supplied (aq_Metadata req) ["api_key"; "pat"; "token"; "access_token"] (kc_StaticKey s)) in Hr.
  destruct (String.eqb (supplied _ _ _) "") eqn:He; [done|].
  eapply credential_of_static in Hc as [Htok Hmd]; [|intros cred; by eexists| |]; cycle 1.
  2: { cbn [direct_Complete]. unfold APIKey_Complete. cbv zeta. fold (supplied (aq_Metadata req) ["api_key"; "pat"; "token"; "access_token"] (kc_StaticKey s)).
       rewrite He. reflexivity. }
  { apply lookup_insert_eq. }
  assert (Hk : TrimSpace (kc_StaticKey s) = kc_StaticKey s) by (rewrite Hs; apply TrimSpace_idem).
  assert (Hh : kc_Kind s = AuthKindAPIKey → blank (kp_Header (kc_Profile s)) = false).
  { intros Hapi. rewrite Hs in Hapi |- *. cbn [NewAPIKeyStrategy kc_Kind kc_Profile kp_Header] in *. rewrite Hapi. cbn.
    destruct (blank (kp_Header (kc_Profile cfg))) eqn:Hb; [by vm_compute|done]. }
  destruct Hkind as [Hkind|Hkind].
  - specialize (Hh Hkind). exists (APIKeySigner (TrimSpace (kp_Header (kc_Profile s))) (TrimSpace (kp_Prefix (kc_Profile s))) (TrimSpace (kp_QueryParam (kc_Profile s)))). split.
    + unfold resolveAuthKindSigner. rewrite (kind_signer AuthKindAPIKey); [|rewrite Hmd; read_metadata; by rewrite Hkind|vm_compute; done|done].
      cbv zeta. rewrite Hmd. read_metadata. cbn [String.eqb Ascii.eqb Bool.eqb AuthKindAPIKey firstNonEmpty]. by rewrite !TrimSpace_idem, !blank_TrimSpace, Hh.
    + intros now hreq. cbn [Sign direct_signed]. unfold APIKey_Sign. cbv zeta. rewrite Htok, supplied_trimmed, He, !blank_TrimSpace, Hh, !TrimSpace_idem, Hkind by done. done.
  - exists PATSigner. split.
    + unfold resolveAuthKindSigner. rewrite (kind_signer AuthKindPAT); [done|rewrite Hmd; read_metadata; by rewrite Hkind|vm_compute; done|done].
    + intros now hreq. cbn [Sign direct_signed]. unfold APIKey_Sign. cbv zeta. rewrite Htok, supplied_trimmed, He, Hkind by done. reflexivity.
Qed.

(** The credentials of the direct strategies sign requests as they are meant to.  Whatever a key, a secret or a password was supplied by a request or was
    configured, the credential made of it, and that credential refreshed, finds the signer of its kind, and that signer never fails: the key goes under the
    configured header with the configured prefix (and query parameter), a personal token under Authorization, user and password encoded after Basic, and an
    HMAC secret signs method, path, time and the hash of the body. *)
Theorem direct_credentials_sign d req c : built d → credential_of d req c → signs_as d (aq_Metadata req) c.
Proof. destruct d; [apply key_signs|apply hmac_signs|apply basic_signs|apply mtls_signs]. Qed.
End signed.

(** ** AWS profiles *)

Lemma authString_ext m m' keys : Forall (λ k, m !! k = m' !! k) keys → authString m keys = authString m' keys.
Proof. induction 1 as [|k keys Hk _ IH]; [done|]. cbn [authString]. rewrite Hk. by rewrite IH. Qed.
Lemma chosen_ext runtime v m m' keys : Forall (λ k, m !! k = m' !! k) keys → chosen runtime v m keys = chosen runtime v m' keys.
Proof. intros H. unfold chosen. by rewrite (authString_ext m m'). Qed.

(** Reading back what was chosen gives what was chosen, from the other spelling as well. *)
Lemma chosen_read runtime v m m' k k2 : m' !! k = Some (VString (chosen runtime v m [k; k2])) → m' !! k2 = m !! k2 →
  authString m' [k; k2] = chosen runtime v m [k; k2].
Proof.
  intros Hk Hk2. assert (Ht : TrimSpace (chosen runtime v m [k; k2]) = chosen runtime v m [k; k2]) by apply firstNonEmpty_trimmed.
  cbn [authString]. rewrite Hk, Hk2, Ht. rewrite (blank_neq _ Ht). destruct (String.eqb_spec (chosen runtime v m [k; k2]) "") as [He|]; [|done]. rewrite He.
  revert He. unfold chosen. cbn [firstNonEmpty]. destruct (blank (authString runtime _)) eqn:H1; [|intros He; apply blank_false in H1; by rewrite He in H1].
  destruct (blank v) eqn:H2; [|intros He; apply blank_false in H2; by rewrite He in H2].
  destruct (blank (authString m _)) eqn:H3; [|intros He; apply blank_false in H3; by rewrite He in H3]. intros _. revert H3.
  rewrite blank_neq by apply authString_trimmed. cbn [authString]. destruct (m !! k) as [[]|]; destruct (m !! k2) as [[]|]; try done.
  all: try (destruct (blank s) eqn:Hs); try done; try (destruct (blank s0) eqn:Hs0); try done.
  all: intros He%String.eqb_eq; try done; by apply blank_false in Hs || by apply blank_false in Hs0.
Qed.

Definition sig_settings : list (string * string) :=
  [("aws_access_key_id", "access_key_id"); ("aws_secret_access_key", "secret_access_key"); ("aws_session_token", "session_token");
   ("aws_region", "region"); ("aws_service", "service")].
Definition profile_setting (p : AWSSigV4SigningProfile) (k : string) : string :=
  if String.eqb k "aws_access_key_id" then sg_AccessKeyID p else if String.eqb k "aws_secret_access_key" then sg_SecretAccessKey p
  else if String.eqb k "aws_session_token" then sg_SessionToken p else if String.eqb k "aws_region" then sg_Region p else sg_Service p.

Lemma signing_expires_lookup m p runtime k : k ≠ "aws_signing_expires" → signing_expires m p runtime !! k = m !! k.
Proof. intros Hk. unfold signing_expires. cbv zeta. repeat case_match; try done. by rewrite lookup_insert_ne. Qed.

Ltac read_keys := repeat (first [rewrite lookup_insert_eq | rewrite lookup_insert_ne by discriminate]).
Lemma applied_setting md p runtime k k2 : (k, k2) ∈ sig_settings →
  authString (applySigV4ProfileMetadata md p runtime) [k; k2] = chosen runtime (profile_setting p k) md [k; k2].
Proof.
  unfold sig_settings. rewrite !elem_of_cons. intros Hin. unfold applySigV4ProfileMetadata. cbv zeta.
  destruct Hin as [Hin|[Hin|[Hin|[Hin|[Hin|[]%elem_of_nil]]]]]; injection Hin as -> ->;
    (erewrite chosen_read; cycle 1;
       [rewrite lookup_insert_ne, signing_expires_lookup by done; read_keys; reflexivity
       |rewrite lookup_insert_ne, signing_expires_lookup by done; by read_keys
       |apply chosen_ext; apply Forall_cons; split; [|apply Forall_cons; split; [|constructor]]; by read_keys]).
Qed.

Lemma applied_kind md p runtime : applySigV4ProfileMetadata md p runtime !! "auth_kind" = Some (VString AuthKindAWSSigV4).
Proof. unfold applySigV4ProfileMetadata. cbv zeta. rewrite lookup_insert_ne, signing_expires_lookup by done. by read_keys. Qed.
Lemma applied_unsigned md p runtime : applySigV4ProfileMetadata md p runtime !! "aws_unsigned_payload" = Some (VBool (unsigned_payload p runtime)).
Proof. apply lookup_insert_eq. Qed.
Lemma normalizeSigningMode_cases m : normalizeSigningMode m = "query" ∨ normalizeSigningMode m = "header".
Proof. unfold normalizeSigningMode. destruct (String.eqb _ _); auto. Qed.
Lemma applied_mode md p runtime :
  applySigV4ProfileMetadata md p runtime !! "aws_signing_mode" =
    Some (VString (normalizeSigningMode (chosen runtime (sg_SigningMode p) md ["aws_signing_mode"; "signing_mode"]))).
Proof.
  unfold applySigV4ProfileMetadata. cbv zeta. rewrite lookup_insert_ne, signing_expires_lookup by done. read_keys. do 3 f_equal.
  apply chosen_ext. apply Forall_cons; split; [|apply Forall_cons; split; [|constructor]]; by read_keys.
Qed.

(** A credential with an AWS profile signs.  If the profile of the request, of the strategy and of the credential together is complete, the signer is found by
    the kind of the credential alone, and it resolves the very values that were chosen, in the mode that was chosen; if it is not, the credential is not given. *)
Theorem sigv4_credentials_sign p cred runtime :
  let setting k k2 := chosen runtime (profile_setting p k) (ac_Metadata cred) [k; k2] in
  match sigv4_credential p cred runtime with
  | Ok c => resolveAuthKindSigner c = Some (SigV4Signer emptySigV4) ∧
            ∃ profile, resolveProfile emptySigV4 c = Ok profile ∧
              aw_AccessKeyID profile = setting "aws_access_key_id" "access_key_id" ∧ aw_SecretAccessKey profile = setting "aws_secret_access_key" "secret_access_key" ∧
              aw_SessionToken profile = setting "aws_session_token" "session_token" ∧ aw_Region profile = setting "aws_region" "region" ∧
              aw_Service profile = setting "aws_service" "service" ∧
              aw_Mode profile = normalizeSigningMode (chosen runtime (sg_SigningMode p) (ac_Metadata cred) ["aws_signing_mode"; "signing_mode"]) ∧
              aw_UnsignedPayload profile = unsigned_payload p runtime
  | Fail _ => setting "aws_access_key_id" "access_key_id" = "" ∨ setting "aws_secret_access_key" "secret_access_key" = "" ∨
              setting "aws_region" "region" = "" ∨ setting "aws_service" "service" = ""
  end.
Proof.
  intros setting. unfold sigv4_credential. cbv zeta.
  assert (Hread : ∀ k k2, (k, k2) ∈ sig_settings → authString (applySigV4ProfileMetadata (ac_Metadata cred) p runtime) [k; k2] = setting k k2) by (intros; by apply applied_setting).
  assert (Hb : ∀ k k2, blank (setting k k2) = String.eqb (setting k k2) "") by (intros; apply blank_neq, firstNonEmpty_trimmed).
  unfold validateSigV4ProfileMetadata. rewrite !Hread by (repeat constructor). rewrite !Hb.
  repeat match goal with |- context[if String.eqb (setting ?a ?b) "" then _ else _] => destruct (String.eqb_spec (setting a b) ""); [by auto|] end.
  set (m := applySigV4ProfileMetadata (ac_Metadata cred) p runtime) in *.
  assert (Hm : <["auth_kind" := VString AuthKindAWSSigV4]> m = m) by apply insert_id, applied_kind. rewrite Hm. split.
  - unfold resolveAuthKindSigner. rewrite (kind_signer AuthKindAWSSigV4); [done| |vm_compute; done|done]. cbn [with_credential_metadata ac_Metadata metadataString].
    unfold m. rewrite applied_kind. by vm_compute.
  - assert (Hmode : metadataString m ["aws_signing_mode"; "signing_mode"] = normalizeSigningMode (chosen runtime (sg_SigningMode p) (ac_Metadata cred) ["aws_signing_mode"; "signing_mode"])).
    { cbn [metadataString]. unfold m. rewrite applied_mode. by destruct (normalizeSigningMode_cases (chosen runtime (sg_SigningMode p) (ac_Metadata cred) ["aws_signing_mode"; "signing_mode"])) as [-> | ->]. }
    assert (Hms : ∀ k k2, (k, k2) ∈ sig_settings → k ≠ "" → k2 ≠ "" → metadataString m [k; k2] = setting k k2).
    { intros k k2 Hin Hk Hk2. rewrite <-authString_metadataString; [by apply Hread|]. rewrite !not_elem_of_cons. auto using not_elem_of_nil. }
    assert (Hf : ∀ k k2, firstNonEmpty [TrimSpace ""; setting k k2] = setting k k2).
    { intros k k2. cbn [firstNonEmpty]. change (blank (TrimSpace "")) with true. cbn [orb]. rewrite Hb. destruct (String.eqb_spec (setting k k2) "") as [->|]; [done|]. apply firstNonEmpty_trimmed. }
    unfold resolveProfile. cbv zeta. cbn [with_credential_metadata ac_Metadata emptySigV4 aw_Mode aw_AccessKeyID aw_SecretAccessKey aw_SessionToken aw_Region aw_Service].
    rewrite Hmode, !Hms, !Hf by (first [discriminate|repeat constructor]).
    assert (Hmd : firstNonEmpty [lowerTrim ""; lowerTrim (normalizeSigningMode (chosen runtime (sg_SigningMode p) (ac_Metadata cred) ["aws_signing_mode"; "signing_mode"])); defaultAWSSigV4Mode]
       = normalizeSigningMode (chosen runtime (sg_SigningMode p) (ac_Metadata cred) ["aws_signing_mode"; "signing_mode"])).
    { by destruct (normalizeSigningMode_cases (chosen runtime (sg_SigningMode p) (ac_Metadata cred) ["aws_signing_mode"; "signing_mode"])) as [-> | ->]. }
    rewrite Hmd. repeat match goal with H : setting ?a ?b ≠ "" |- _ => apply String.eqb_neq in H; rewrite H end. cbn [orb].
    destruct (normalizeSigningMode_cases (chosen runtime (sg_SigningMode p) (ac_Metadata cred) ["aws_signing_mode"; "signing_mode"])) as [Hc|Hc]; rewrite Hc; cbn [String.eqb Ascii.eqb Bool.eqb negb andb].
    all: eexists; split; [reflexivity|]; cbn; split_and!; try done; unfold metadataBool; change (blank "aws_unsigned_payload") with false; unfold m; by rewrite applied_unsigned.
Qed.

(** ** The cache of client credentials *)

Section cache.
Variable json_Unmarshal : string → outcome string (gmap string value).
Variable parseURL : string → outcome string URL.
Variable oor : Z.
Variable s : OAuth2ClientCredentialsStrategyConfig.
Abbreviation issue := (issueCredential json_Unmarshal parseURL oor s).
Abbreviation complete := (Client_Complete json_Unmarshal parseURL oor s).
Abbreviation refresh := (Client_Refresh json_Unmarshal parseURL oor s).

(** The uses of one strategy: each has the clock it reads and the token endpoint it meets. *)
Inductive client_use :=
| UseComplete (client : HTTPDoer) (now : Time) (req : AuthCompleteRequest)
| UseRefresh (client : HTTPDoer) (now : Time) (cred : ActiveCredential).
Definition use_step (cache : credential_cache) (u : client_use) : credential_cache :=
  match u with
  | UseComplete client now req => (complete client cache now req).2
  | UseRefresh client now cred => (refresh client cache now cred).2
  end.
Definition run_uses (us : list client_use) : credential_cache := foldl use_step ∅ us.

(** The credential a use returned, if it got one. *)
Definition use_result (cache : credential_cache) (u : client_use) : option ActiveCredential :=
  match u with
  | UseComplete client now req => match (complete client cache now req).1 with Ok r => Some (ar_Credential r) | Fail _ => None end
  | UseRefresh client now cred => match (refresh client cache now cred).1 with Ok r => Some (rr_Credential r) | Fail _ => None end
  end.
(** What the strategy returned in a sequence of uses. *)
Fixpoint results (cache : credential_cache) (us : list client_use) : list ActiveCredential :=
  match us with [] => [] | u :: us => option_list (use_result cache u) ++ results (use_step cache u) us end.

Definition request_key (req : AuthCompleteRequest) : string :=
  buildClientCredentialsCacheKey (aq_Scope req) (client_setting (aq_Metadata req) "client_id" (cl_ClientID s)) (or_else (requested_of (aq_Metadata req)) (cl_DefaultScopes s)).

(** What is known of a credential that was issued under a key. *)
Definition issued_under (key : string) (c : ActiveCredential) : Prop :=
  TrimSpace (ac_AccessToken c) = ac_AccessToken c ∧ ac_AccessToken c ≠ "" ∧ ac_Metadata c !! "cache_key" = Some (VString key) ∧ ac_Refreshable c = true.

Lemma client_response_token res p : client_response json_Unmarshal oor res = Ok p → blank (ct_AccessToken p) = false.
Proof. unfold client_response. repeat case_match; by intros; simplify_eq. Qed.

Lemma issue_issued client now scope id secret url requested granted key c g : issue client now scope id secret url requested granted key = Ok (c, g) →
  issued_under key c ∧ ac_GrantedScopes c = g ∧ ac_RequestedScopes c = requested ∧ ac_Metadata c !! "client_id" = Some (VString id) ∧ ac_Metadata c !! "token_url" = Some (VString url).
Proof.
  unfold issueCredential. destruct (Client_fetchToken _ _ _ _ _ _ _ _ _) as [p|] eqn:Hp; [|done]. intros [= <- <-].
  assert (Ht : blank (ct_AccessToken p) = false).
  { unfold Client_fetchToken in Hp. repeat case_match; try done. by apply client_response_token in Hp. }
  split_and!; try done. split_and!; [apply TrimSpace_idem|by apply blank_false|by read_keys|done].
Qed.

(** Every entry of the cache was returned by an earlier use, under its key, and carries its own expiry. *)
Definition entry_ok (past : list ActiveCredential) (key : string) (e : cachedClientCredential) : Prop :=
  ch_credential e ∈ past ∧ issued_under key (ch_credential e) ∧ ch_expiresAt e = default zeroTime (ac_ExpiresAt (ch_credential e)).
Definition cache_ok (past : list ActiveCredential) (cache : credential_cache) : Prop := map_Forall (entry_ok past) cache.

Lemma cache_ok_mono past past' cache : past ⊆ past' → cache_ok past cache → cache_ok past' cache.
Proof. intros Hsub H k e He. destruct (H k e He) as (? & ? & ?). split_and!; auto. Qed.
Lemma lookup_ok past cache now key cached cache' : cache_ok past cache → lookupCachedCredential s cache now key = (cached, cache') →
  cache_ok past cache' ∧ ∀ c, cached = Some c →
    c ∈ past ∧ issued_under key c ∧ cache' = cache ∧ ∃ t, ac_ExpiresAt c = Some t ∧ After t (addTime now (cl_RenewBefore s)) = true.
Proof.
  unfold lookupCachedCredential. intros H. destruct (cache !! key) as [e|] eqn:He; [|by intros [= <- <-]]. destruct (H key e He) as (Hin & Hiss & Hexp).
  destruct (IsZero (ch_expiresAt e)) eqn:Hz; cbn [orb]; [intros [= <- <-]; split; [by apply map_Forall_delete|done]|].
  destruct (After (ch_expiresAt e) _) eqn:Ha; cbn [negb]; intros [= <- <-]; [|split; [by apply map_Forall_delete|done]].
  split; [done|]. intros c [= <-]. split_and!; try done. rewrite Hexp in *. destruct (ac_ExpiresAt (ch_credential e)) as [t|]; [by exists t|]. by vm_compute in Hz.
Qed.
Lemma store_ok past cache key c : cache_ok past cache → issued_under key c → cache_ok (past ++ [c]) (storeCachedCredential cache key c).
Proof.
  intros H Hc. unfold storeCachedCredential. apply map_Forall_insert_2; [|eapply cache_ok_mono; [|done]; set_solver]. split_and!; try done. set_solver.
Qed.

(** The token endpoint answers the request with this credential. *)
Definition just_issued (client : HTTPDoer) (now : Time) (req : AuthCompleteRequest) (c : ActiveCredential) (granted : list string) : Prop :=
  let md := aq_Metadata req in
  let requested := or_else (requested_of md) (cl_DefaultScopes s) in
  issue client now (aq_Scope req) (client_setting md "client_id" (cl_ClientID s)) (client_setting md "client_secret" (cl_ClientSecret s))
    (client_setting md "token_url" (cl_TokenURL s)) requested (granted_of md requested) (request_key req) = Ok (c, granted).

(** The two ways a request is completed. *)
Lemma complete_cases client cache now req r cache' : complete client cache now req = (Ok r, cache') →
  let md := aq_Metadata req in
  let requested := or_else (requested_of md) (cl_DefaultScopes s) in
  ac_GrantedScopes (ar_Credential r) = ar_GrantedGrants r ∧ r = buildCompleteResponse s req (ar_Credential r) requested (ar_GrantedGrants r) ∧
  ((lookupCachedCredential s cache now (request_key req) = (Some (ar_Credential r), cache')) ∨
   (∃ cache1, lookupCachedCredential s cache now (request_key req) = (None, cache1) ∧
      just_issued client now req (ar_Credential r) (ar_GrantedGrants r) ∧
      cache' = storeCachedCredential cache1 (request_key req) (ar_Credential r))).
Proof.
  intros H md requested. unfold Client_Complete in H. cbv zeta in H. fold (request_key req) in H. destruct (String.eqb _ ""); [done|]. destruct (String.eqb _ ""); [done|].
  destruct (String.eqb _ ""); [done|]. destruct (lookupCachedCredential _ _ _ _) as [[c|] cache1] eqn:Hl.
  - injection H as <- <-. cbn. auto.
  - destruct (issue _ _ _ _ _ _ _ _ _) as [[c g]|] eqn:Hi; [|done]. injection H as <- <-. apply issue_issued in Hi as Hi'. destruct Hi' as (_ & Hg & _). cbn.
    split_and!; [done|done|]. right. eexists. done.
Qed.

Lemma use_step_ok past cache u : cache_ok past cache → cache_ok (past ++ option_list (use_result cache u)) (use_step cache u).
Proof.
  intros H. destruct u as [client now req|client now cred]; cbn [use_result use_step].
  - destruct (complete client cache now req) as [[r|e] cache'] eqn:Hc; cbn [fst snd].
    + apply complete_cases in Hc as (_ & _ & [Hl|(cache1 & Hl & Hi & ->)]).
      * apply (lookup_ok past) in Hl as [Hok _]; [|done]. eapply cache_ok_mono; [|done]. set_solver.
      * apply (lookup_ok past) in Hl as [Hok _]; [|done]. apply store_ok; [done|]. by apply issue_issued in Hi as [Hi _].
    + cbn [option_list]. rewrite app_nil_r. unfold Client_Complete in Hc. cbv zeta in Hc. repeat (destruct (String.eqb _ ""); [by injection Hc as <- <-|]).
      destruct (lookupCachedCredential _ _ _ _) as [[c|] cache1] eqn:Hl; [done|]. apply (lookup_ok past) in Hl as [Hok _]; [|done].
      destruct (issue _ _ _ _ _ _ _ _ _) as [[c g]|]; [done|]. by injection Hc as <- <-.
  - unfold Client_Refresh. cbv zeta. destruct (_ || _); [cbn; by rewrite app_nil_r|]. destruct (String.eqb _ ""); [cbn; by rewrite app_nil_r|].
    destruct (issue _ _ _ _ _ _ _ _ _) as [[c g]|] eqn:Hi; cbn; [|by rewrite app_nil_r]. apply store_ok; [done|]. by apply issue_issued in Hi as [Hi _].
Qed.
Lemma run_uses_ok past cache us : cache_ok past cache → cache_ok (past ++ results cache us) (foldl use_step cache us).
Proof.
  revert past cache. induction us as [|u us IH]; intros past cache H; [cbn; by rewrite app_nil_r|]. cbn [foldl results]. rewrite app_assoc. by apply IH, use_step_ok.
Qed.

End cache.

(** ** Instances *)

Module AuthExample.
#[local] Instance demo_MapRange : MapRange := key_order_range.
Definition token_body : string := "access_token=tok-1&expires_in=3600&token_type=Bearer".
Definition endpoint : HTTPDoer := λ req, Ok (mkHttpResponse 200 {["Content-Type" := ["application/x-www-form-urlencoded"]]} token_body None).
Definition refusing : HTTPDoer := λ req, Fail "connection refused".
Definition json : string → outcome string (gmap string value) := λ _, Fail "not JSON".
Definition parse : string → outcome string URL := λ text, Ok (mkURL "idp.example" "/token" "" text).
Definition cfg : OAuth2ClientCredentialsStrategyConfig := NewOAuth2ClientCredentialsStrategy (mkClientConfig "client" "" "https://idp.example/token" true ["read"] 0 0 0 "").
Definition t0 : Time := (1700000000 * Second)%Z.
Definition request (md : gmap string value) : AuthCompleteRequest := mkAuthComplete (mkScopeRef "user" "u1") "" "" "" md.
Definition with_secret (secret : string) : AuthCompleteRequest := request {["client_secret" := VString secret]}.
Definition complete (client : HTTPDoer) (cache : credential_cache) (req : AuthCompleteRequest) := Client_Complete json parse 0 cfg client cache t0 req.
Definition first_use : client_use := UseComplete endpoint t0 (with_secret "right").
Definition filled : credential_cache := run_uses json parse 0 cfg [first_use].
Definition token_of (r : outcome auth_error AuthCompleteResponse) : option string :=
  match r with Ok r => Some (ac_AccessToken (ar_Credential r)) | Fail _ => None end.

(** The key of the cache has neither the secret nor the token endpoint: once a client has a token, a request with another secret, or for another endpoint that
    refuses it, is given that token. *)
Example secret_not_checked :
  token_of (complete refusing ∅ (with_secret "wrong")).1 = None ∧ token_of (complete refusing filled (with_secret "wrong")).1 = Some "tok-1" ∧
  token_of (complete refusing filled (request {["client_secret" := VString "x"; "token_url" := VString "https://other.example/token"]})).1 = Some "tok-1".
Proof. vm_compute. repeat split. Qed.

(** A secret that came with the request is not kept: the credential says it can be refreshed, and its refresh fails. *)
Example refresh_lacks_secret :
  match (complete endpoint ∅ (with_secret "right")).1 with
  | Ok r => ac_Refreshable (ar_Credential r) = true ∧ (Client_Refresh json parse 0 cfg endpoint filled t0 (ar_Credential r)).1 = Fail AuErrRefreshClient
  | Fail _ => False
  end.
Proof. vm_compute. split; reflexivity. Qed.

Definition aws : AWSSigV4SigningProfile := sigv4_profile (mkSigningProfile "AKID" "secret" "" "eu-west-1" "s3" "" 0 false "").
Definition secret_cfg : OAuth2ClientCredentialsStrategyConfig := NewOAuth2ClientCredentialsStrategy (mkClientConfig "client" "right" "https://idp.example/token" true ["read"] 0 0 0 "").
Definition unsigned_of (m : gmap string value) : bool := metadataBool m "aws_unsigned_payload".

(** A payload that a request asked to leave unsigned is signed after a refresh: the flag is kept as a boolean, and read as a string. *)
Example unsigned_lost_on_refresh :
  match (SigV4_Complete json parse 0 secret_cfg aws endpoint ∅ t0 (request {["aws_unsigned_payload" := VString "true"]})).1 with
  | Ok r => unsigned_of (ac_Metadata (ar_Credential r)) = true ∧
            match (SigV4_Refresh json parse 0 secret_cfg aws endpoint ∅ t0 (ar_Credential r)).1 with
            | Ok r2 => unsigned_of (ac_Metadata (rr_Credential r2)) = false
            | Fail _ => False
            end
  | Fail _ => False
  end.
Proof. vm_compute. split; reflexivity. Qed.

Definition pat : APIKeyStrategyConfig := NewPATStrategy (mkKeyConfig "" (mkKeyProfile "X-Token" "key" "") "tok" "").
Definition blank_request : HttpRequest := mkHttpRequest "GET" (mkURL "api.example" "/" "" "") ∅ None.

(** The header and the prefix configured for a personal token are recorded, and not used. *)
Example pat_header_ignored :
  match APIKey_Complete pat (request ∅) with
  | Ok r => metadataString (ac_Metadata (ar_Credential r)) ["api_key_header"] = "X-Token" ∧
            direct_signed (λ s, s) (λ _ s, s) (DirectKey pat) ∅ t0 blank_request = hr_set blank_request "Authorization" "token tok"
  | Fail _ => False
  end.
Proof. vm_compute. split; reflexivity. Qed.


Lemma direct_credentials_sign_witness : ∃ c, credential_of (DirectKey pat) (request ∅) c ∧
  signs_as (λ s, s) (λ _ s, s) (λ _ s, s) u_Path (DirectKey pat) ∅ c.
Proof.
  destruct (APIKey_Complete pat (request ∅)) as [r|e] eqn:H; [|vm_compute in H; discriminate H]. exists (ar_Credential r).
  assert (Hc : credential_of (DirectKey pat) (request ∅) (ar_Credential r)) by (exists r; auto). split; [done|].
  apply (direct_credentials_sign (λ s, s) (λ _ s, s) (λ _ s, s) u_Path (DirectKey pat) (request ∅)); [|done]. eexists. split; [reflexivity|right; reflexivity].
Defined.
End AuthExample.
