(* ===== verification/ServiceAccount.v ===== *)
(** * Service accounts (src/auth/jwt_support.go, src/auth/service_account_jwt_strategy.go)

    Tokens that the service signs itself: JSON web tokens with an HMAC or an RSA signature, used as they are or exchanged for an access token at Google's token
    endpoint.  JSON, the cryptographic functions and the parsing of PEM blocks are arguments. *)

From S2P Require Import Prelude GoStrings GoValues Domain OAuthState Contracts GoURL GoBase64 GoHTTP Signers ServiceTypes Profiles OAuth2 AuthStrategies.
From Stdlib Require Import ZArith String Ascii Lia.
From stdpp Require Import base decidable list gmap strings sorting.

Local Open Scope string_scope.
Local Open Scope list_scope.

Definition AuthKindServiceAccountJWT := "service_account_jwt".
Definition jwtAlgHS256 := "HS256".
Definition jwtAlgRS256 := "RS256".

Inductive jwt_error :=
| JwtErrAlgorithm (algorithm : string) | JwtErrKey | JwtErrHeader (cause : string) | JwtErrClaims (cause : string) | JwtErrRSAKey | JwtErrPEM | JwtErrEncrypted
| JwtErrParse (cause : string) | JwtErrNotRSA | JwtErrSign (cause : string).

Definition normalizeJWTAlgorithm (algorithm : string) : outcome jwt_error string :=
  let normalized := ToUpper (TrimSpace algorithm) in
  let normalized := if String.eqb normalized "" then jwtAlgRS256 else normalized in
  if String.eqb normalized jwtAlgHS256 || String.eqb normalized jwtAlgRS256 then Ok normalized else Fail (JwtErrAlgorithm normalized).

(** The packages [crypto], [encoding/pem] and [encoding/json]. *)
Record jwt_crypto := mkCrypto {
  cr_key : Type; cr_block : Type;
  cr_hmac : string → string → string;                              (* hmac.New(sha256.New, key) over a message *)
  cr_sha256 : string → string;
  cr_decode : string → option cr_block;                            (* pem.Decode *)
  cr_encrypted : cr_block → bool;                                  (* x509.IsEncryptedPEMBlock *)
  cr_pkcs1 : cr_block → outcome string cr_key;                     (* x509.ParsePKCS1PrivateKey *)
  cr_pkcs8 : cr_block → outcome string (option cr_key);            (* x509.ParsePKCS8PrivateKey; None is a key of another type *)
  cr_sign : cr_key → string → outcome string string }.             (* rsa.SignPKCS1v15 of a hash *)

Definition parseRSAPrivateKey (C : jwt_crypto) (signingKey : string) : outcome jwt_error (cr_key C) :=
  let normalized := ReplaceAll (TrimSpace signingKey) "\n" (String "010"%char "") in
  if String.eqb normalized "" then Fail JwtErrRSAKey
  else match cr_decode C normalized with
  | None => Fail JwtErrPEM
  | Some block =>
    if cr_encrypted C block then Fail JwtErrEncrypted
    else match cr_pkcs1 C block with
    | Ok key => Ok key
    | Fail _ => match cr_pkcs8 C block with
                | Fail err => Fail (JwtErrParse err)
                | Ok None => Fail JwtErrNotRSA
                | Ok (Some key) => Ok key
                end
    end
  end.

Definition signJWT (C : jwt_crypto) (algorithm signingKey payload : string) : outcome jwt_error string :=
  if String.eqb algorithm jwtAlgHS256 then Ok (RawURLEncode (cr_hmac C signingKey payload))
  else if String.eqb algorithm jwtAlgRS256 then
    match parseRSAPrivateKey C signingKey with
    | Fail err => Fail err
    | Ok key => match cr_sign C key (cr_sha256 C payload) with Fail err => Fail (JwtErrSign err) | Ok signature => Ok (RawURLEncode signature) end
    end
  else Fail (JwtErrAlgorithm algorithm).

Definition jwt_header (algorithm keyID : string) : gmap string value :=
  let header : gmap string value := {["alg" := VString algorithm; "typ" := VString "JWT"]} in
  if blank keyID then header else <["kid" := VString (TrimSpace keyID)]> header.

Definition buildJWT (C : jwt_crypto) (json_Marshal : gmap string value → outcome string string) (keyID algorithm signingKey : string) (claims : gmap string value)
    : outcome jwt_error string :=
  match normalizeJWTAlgorithm algorithm with
  | Fail err => Fail err
  | Ok normalizedAlgorithm =>
    let signingKey := TrimSpace signingKey in
    if String.eqb signingKey "" then Fail JwtErrKey
    else match json_Marshal (jwt_header normalizedAlgorithm keyID) with
    | Fail err => Fail (JwtErrHeader err)
    | Ok headerRaw =>
      match json_Marshal claims with
      | Fail err => Fail (JwtErrClaims err)
      | Ok claimsRaw =>
        let signed := RawURLEncode headerRaw +:+ "." +:+ RawURLEncode claimsRaw in
        match signJWT C normalizedAlgorithm signingKey signed with Fail err => Fail err | Ok signature => Ok (signed +:+ "." +:+ signature) end
      end
    end
  end.

(** ** The strategy *)

Inductive sa_error :=
| SaErrIssuer | SaErrAudience | SaErrSigningKey | SaErrRefresh | SaErrSubject | SaErrJWT (e : jwt_error) | SaErrGoogle (field : string) | SaErrRequest (cause : string)
| SaErrExchange | SaErrRead | SaErrStatus (status : Z) | SaErrDecode | SaErrNoToken.

Record ServiceAccountJWTStrategyConfig := mkAccountConfig {
  sj_Issuer : string; sj_Subject : string; sj_Audience : string; sj_PrivateKey : string; sj_SigningKey : string; sj_SigningAlgorithm : string;
  sj_KeyID : string; sj_TokenTTL : Duration; sj_ExternalAccountID : string }.
Definition NewServiceAccountJWTStrategy (cfg : ServiceAccountJWTStrategyConfig) : ServiceAccountJWTStrategyConfig :=
  let signingKey := TrimSpace (sj_SigningKey cfg) in
  let signingAlgorithm := TrimSpace (ToUpper (sj_SigningAlgorithm cfg)) in
  mkAccountConfig (TrimSpace (sj_Issuer cfg)) (TrimSpace (sj_Subject cfg)) (TrimSpace (sj_Audience cfg)) (TrimSpace (sj_PrivateKey cfg))
    (if String.eqb signingKey "" then TrimSpace (sj_PrivateKey cfg) else signingKey) (if String.eqb signingAlgorithm "" then jwtAlgRS256 else signingAlgorithm)
    (TrimSpace (sj_KeyID cfg)) (if (sj_TokenTTL cfg <=? 0)%Z then (3600 * Second)%Z else sj_TokenTTL cfg) (TrimSpace (sj_ExternalAccountID cfg)).

Record googleServiceAccountJSON := mkAccountJSON { gj_ClientEmail : string; gj_PrivateKey : string; gj_PrivateKeyID : string; gj_TokenURI : string; gj_ProjectID : string }.
Record googleServiceAccountSpec := mkGoogleSpec {
  gs_issuer : string; gs_subject : string; gs_audience : string; gs_signingAlgorithm : string; gs_signingKey : string; gs_keyID : string;
  gs_tokenURI : string; gs_projectID : string; gs_scopes : list string; gs_tokenTTL : Duration }.
(** The answer of the token endpoint. *)
Record google_token := mkGoogleToken { gt_AccessToken : string; gt_TokenType : string; gt_ExpiresIn : Z; gt_Scope : string }.

Definition spec_metadata (g : googleServiceAccountSpec) : gmap string value :=
  let m : gmap string value :=
    {["auth_kind" := VString AuthKindServiceAccountJWT; "issuer" := VString (TrimSpace (gs_issuer g)); "client_email" := VString (TrimSpace (gs_issuer g));
      "audience" := VString (firstNonEmpty [gs_audience g; gs_tokenURI g]); "token_uri" := VString (TrimSpace (gs_tokenURI g));
      "signing_algorithm" := VString (ToUpper (TrimSpace (gs_signingAlgorithm g))); "signing_key" := VString (TrimSpace (gs_signingKey g))]} in
  let m := if blank (gs_subject g) then m
           else <["service_account_subject" := VString (TrimSpace (gs_subject g))]> (<["subject" := VString (TrimSpace (gs_subject g))]> m) in
  let m := if blank (gs_keyID g) then m else <["private_key_id" := VString (TrimSpace (gs_keyID g))]> (<["key_id" := VString (TrimSpace (gs_keyID g))]> m) in
  let m := if blank (gs_projectID g) then m else <["project_id" := VString (TrimSpace (gs_projectID g))]> m in
  if bool_decide (gs_scopes g = []) then m else <["requested_scopes" := VStrings (gs_scopes g)]> m.

Definition key_spellings : list string := ["signing_key"; "jwt_signing_key"; "private_key"; "jwt_private_key"; "jwt_secret"].

Section strategy.
Variable C : jwt_crypto.
Variable json_Marshal : gmap string value → outcome string string.
(** [json.Unmarshal] into the structs the code names. *)
Variable json_account : string → option googleServiceAccountJSON.
Variable json_token : string → option google_token.
Variable parseURL : string → outcome string URL.
Variable s : ServiceAccountJWTStrategyConfig.
Implicit Types (now clock : Time) (g : googleServiceAccountSpec) (md : gmap string value).

(** Whether the token is exchanged, and what with. *)
Definition googleServiceAccountSpec_of (md : gmap string value) (issuer audience subject signingAlgorithm signingKey keyID : string) (scopes : list string)
    : googleServiceAccountSpec * bool :=
  let serviceAccountJSON := authString md ["service_account_json"; "google_service_account_json"] in
  let parsed := match (if String.eqb serviceAccountJSON "" then None else json_account serviceAccountJSON) with
                | Some p => mkAccountJSON (TrimSpace (gj_ClientEmail p)) (TrimSpace (gj_PrivateKey p)) (TrimSpace (gj_PrivateKeyID p)) (TrimSpace (gj_TokenURI p)) (TrimSpace (gj_ProjectID p))
                | None => mkAccountJSON "" "" "" "" ""
                end in
  let tokenURI := firstNonEmpty [authString md ["token_uri"; "token_url"]; gj_TokenURI parsed; audience] in
  let delegated := firstNonEmpty [authString md ["service_account_subject"; "delegation_subject"; "workspace_subject"]; sj_Subject s] in
  (mkGoogleSpec
     (firstNonEmpty [authString md ["client_email"; "service_account_email"]; gj_ClientEmail parsed; issuer])
     (if blank delegated && negb (blank subject) && negb (String.eqb (TrimSpace subject) (TrimSpace issuer)) then TrimSpace subject else delegated)
     (firstNonEmpty [authString md ["audience"; "jwt_audience"]; tokenURI; audience])
     (firstNonEmpty [signingAlgorithm; sj_SigningAlgorithm s; jwtAlgRS256])
     (firstNonEmpty [authString md ["private_key"; "signing_key"; "jwt_private_key"; "jwt_signing_key"]; gj_PrivateKey parsed; signingKey])
     (firstNonEmpty [authString md ["private_key_id"; "key_id"; "jwt_key_id"]; gj_PrivateKeyID parsed; keyID])
     tokenURI
     (firstNonEmpty [authString md ["project_id"]; gj_ProjectID parsed])
     (normalizeValues scopes)
     (if (sj_TokenTTL s <=? 0)%Z then (3600 * Second)%Z else sj_TokenTTL s),
   negb (String.eqb serviceAccountJSON "") || negb (String.eqb (authString md ["token_uri"]) "") || String.eqb (authString md ["google_token_exchange"]) "true").

Definition google_claims (g : googleServiceAccountSpec) (now : Time) : gmap string value :=
  let claims : gmap string value :=
    {["iss" := VString (gs_issuer g); "scope" := VString (GoHTTP.Join " " (gs_scopes g)); "aud" := VString (firstNonEmpty [gs_audience g; gs_tokenURI g]);
      "iat" := VInt Int64K (unixSeconds now); "exp" := VInt Int64K (unixSeconds (addTime now (gs_tokenTTL g)))]} in
  if blank (gs_subject g) then claims else <["sub" := VString (TrimSpace (gs_subject g))]> claims.

Definition google_request (u : URL) (assertion : string) : HttpRequest :=
  hr_set (mkHttpRequest "POST" u ∅ (Some (Values_Encode (Values_Set (Values_Set ∅ "grant_type" "urn:ietf:params:oauth:grant-type:jwt-bearer") "assertion" assertion))))
    "Content-Type" "application/x-www-form-urlencoded".

(** [io.ReadAll(io.LimitReader(body, 1<<20))] *)
Definition limited_body (res : HttpResponse) : outcome sa_error string :=
  if exceeds 1048576 res then Ok (String.substring 0 (Z.to_nat 1048576) (hp_Body res))
  else match hp_ReadError res with Some _ => Fail SaErrRead | None => Ok (hp_Body res) end.

Definition google_response (g : googleServiceAccountSpec) (now : Time) (res : HttpResponse) : outcome sa_error (ActiveCredential * list string) :=
  match limited_body res with
  | Fail err => Fail err
  | Ok body =>
    if negb (status_ok res) then Fail (SaErrStatus (hp_Status res))
    else match json_token body with
    | None => Fail SaErrDecode
    | Some t =>
      if blank (gt_AccessToken t) then Fail SaErrNoToken
      else
        let expiresAt := if (0 <? gt_ExpiresIn t)%Z then addTime now (wrap64 (gt_ExpiresIn t * Second)) else addTime now (gs_tokenTTL g) in
        Ok (mkActiveCredential "" (firstNonEmpty [gt_TokenType t; "Bearer"]) (TrimSpace (gt_AccessToken t)) "" [] [] (Some expiresAt) true None (spec_metadata g),
            or_else (normalizeValues (Fields (gt_Scope t))) (gs_scopes g))
    end
  end.

(** [clock] is the time of the system, read if [now] is zero. *)
Definition exchangeGoogleServiceAccountJWT (client : HTTPDoer) (clock : Time) (g : googleServiceAccountSpec) (now : Time)
    : outcome sa_error (ActiveCredential * list string) :=
  if blank (gs_issuer g) then Fail (SaErrGoogle "client_email")
  else if blank (gs_signingKey g) then Fail (SaErrGoogle "private_key")
  else if blank (gs_tokenURI g) then Fail (SaErrGoogle "token_uri")
  else if bool_decide (gs_scopes g = []) then Fail (SaErrGoogle "scopes")
  else
    let now := if IsZero now then clock else now in
    match buildJWT C json_Marshal (gs_keyID g) (gs_signingAlgorithm g) (gs_signingKey g) (google_claims g now) with
    | Fail err => Fail (SaErrJWT err)
    | Ok assertion =>
      match parseURL (TrimSpace (gs_tokenURI g)) with
      | Fail err => Fail (SaErrRequest err)
      | Ok u => match client (google_request u assertion) with
                | Fail _ => Fail SaErrExchange
                | Ok res => google_response g now res
                end
      end
    end.

Definition account_Begin (req : AuthBeginRequest) : BeginAuthResponse := direct_Begin AuthKindServiceAccountJWT req.

Definition scoped (c : ActiveCredential) (connectionID : string) (requested granted : list string) (md : gmap string value) : ActiveCredential :=
  mkActiveCredential connectionID (ac_TokenType c) (ac_AccessToken c) (ac_RefreshToken c) requested granted (ac_ExpiresAt c) true (ac_RotatesAt c) md.

Definition completeGoogleServiceAccount (client : HTTPDoer) (clock : Time) (req : AuthCompleteRequest) (g : googleServiceAccountSpec)
    (requested granted : list string) (now : Time) : outcome sa_error AuthCompleteResponse :=
  match exchangeGoogleServiceAccountJWT client clock g now with
  | Fail err => Fail err
  | Ok (credential, tokenGranted) =>
    let granted := or_else (or_else tokenGranted granted) requested in
    Ok (mkCompleteResponse
          (firstNonEmpty [authString (aq_Metadata req) ["external_account_id"]; sj_ExternalAccountID s; gs_issuer g; scope_account AuthKindServiceAccountJWT (aq_Scope req)])
          (scoped credential (ac_ConnectionID credential) requested granted (spec_metadata g)) requested granted (kind_metadata AuthKindServiceAccountJWT))
  end.

Definition account_claims (issuer subject audience : string) (now : Time) : gmap string value :=
  {["iss" := VString issuer; "sub" := VString subject; "aud" := VString audience; "iat" := VInt Int64K (unixSeconds now);
    "exp" := VInt Int64K (unixSeconds (addTime now (sj_TokenTTL s)))]}.

Definition Account_Complete (client : HTTPDoer) (clock now : Time) (req : AuthCompleteRequest) : outcome sa_error AuthCompleteResponse :=
  let md := aq_Metadata req in
  let issuer := firstNonEmpty [authString md ["issuer"; "jwt_issuer"; "client_email"]; sj_Issuer s] in
  let audience := firstNonEmpty [authString md ["audience"; "jwt_audience"; "token_url"]; sj_Audience s] in
  let subject := firstNonEmpty [authString md ["subject"; "jwt_subject"]; sj_Subject s; scope_ID (aq_Scope req)] in
  let signingAlgorithm := firstNonEmpty [authString md ["signing_algorithm"; "jwt_signing_algorithm"; "alg"]; sj_SigningAlgorithm s; jwtAlgRS256] in
  let signingKeyFromMetadata := authString md key_spellings in
  let signingKey := firstNonEmpty [signingKeyFromMetadata; sj_SigningKey s; sj_PrivateKey s] in
  let keyID := firstNonEmpty [authString md ["key_id"; "jwt_key_id"]; sj_KeyID s] in
  let requested := authStringSlice md ["requested_grants"; "requested_scopes"; "scopes"] in
  let granted := granted_of md requested in
  let '(g, exchange) := googleServiceAccountSpec_of md issuer audience subject signingAlgorithm signingKey keyID requested in
  if exchange then completeGoogleServiceAccount client clock req g requested granted now
  else if String.eqb issuer "" then Fail SaErrIssuer
  else if String.eqb audience "" then Fail SaErrAudience
  else if String.eqb signingKey "" then Fail SaErrSigningKey
  else match buildJWT C json_Marshal keyID signingAlgorithm signingKey (account_claims issuer subject audience now) with
  | Fail err => Fail (SaErrJWT err)
  | Ok token =>
    let m : gmap string value :=
      {["auth_kind" := VString AuthKindServiceAccountJWT; "issuer" := VString issuer; "subject" := VString subject; "audience" := VString audience;
        "signing_algorithm" := VString (ToUpper (TrimSpace signingAlgorithm))]} in
    let m := if String.eqb signingKeyFromMetadata "" then m else <["signing_key" := VString signingKeyFromMetadata]> m in
    let m := if String.eqb keyID "" then m else <["key_id" := VString keyID]> m in
    Ok (mkCompleteResponse
          (firstNonEmpty [authString md ["external_account_id"]; sj_ExternalAccountID s; scope_account AuthKindServiceAccountJWT (aq_Scope req)])
          (mkActiveCredential "" "bearer" token "" requested granted (Some (addTime now (sj_TokenTTL s))) true None m)
          requested granted (kind_metadata AuthKindServiceAccountJWT))
  end.

Definition Account_Refresh (client : HTTPDoer) (clock now : Time) (cred : ActiveCredential) : outcome sa_error RefreshResult :=
  let md := ac_Metadata cred in
  let issuer := firstNonEmpty [authString md ["issuer"]; sj_Issuer s] in
  let audience := firstNonEmpty [authString md ["audience"]; sj_Audience s] in
  let subject := firstNonEmpty [authString md ["subject"]; sj_Subject s] in
  let signingAlgorithm := firstNonEmpty [authString md ["signing_algorithm"]; sj_SigningAlgorithm s; jwtAlgRS256] in
  let signingKey := firstNonEmpty [authString md key_spellings; sj_SigningKey s; sj_PrivateKey s] in
  let keyID := firstNonEmpty [authString md ["key_id"]; sj_KeyID s] in
  if String.eqb issuer "" || String.eqb audience "" || String.eqb signingKey "" then Fail SaErrRefresh
  else
    let requested := or_else (authStringSlice md ["requested_grants"; "requested_scopes"; "scopes"]) (ac_RequestedScopes cred) in
    let '(g, exchange) := googleServiceAccountSpec_of md issuer audience subject signingAlgorithm signingKey keyID requested in
    if exchange then
      match exchangeGoogleServiceAccountJWT client clock g now with
      | Fail err => Fail err
      | Ok (refreshed, granted) =>
        let granted := or_else (or_else granted (ac_GrantedScopes cred)) requested in
        Ok (mkRefreshResult (scoped refreshed (ac_ConnectionID cred) requested granted (spec_metadata g)) granted (kind_metadata AuthKindServiceAccountJWT))
      end
    else if String.eqb subject "" then Fail SaErrSubject
    else match buildJWT C json_Marshal keyID signingAlgorithm signingKey (account_claims issuer subject audience now) with
    | Fail err => Fail (SaErrJWT err)
    | Ok token =>
      let m := <["signing_algorithm" := VString (ToUpper (TrimSpace signingAlgorithm))]> (<["auth_kind" := VString AuthKindServiceAccountJWT]> md) in
      let m := if String.eqb keyID "" then m else <["key_id" := VString keyID]> m in
      Ok (mkRefreshResult
            (mkActiveCredential (ac_ConnectionID cred) "bearer" token (ac_RefreshToken cred) (ac_RequestedScopes cred) (ac_GrantedScopes cred)
               (Some (addTime now (sj_TokenTTL s))) true (ac_RotatesAt cred) m)
            (ac_GrantedScopes cred) (kind_metadata AuthKindServiceAccountJWT))
    end.
End strategy.

(** ** Lemmas *)

Lemma firstNonEmpty_here v rest : v ≠ "" → TrimSpace v = v → firstNonEmpty (v :: rest) = v.
Proof. intros Hv Ht. cbn [firstNonEmpty]. rewrite blank_neq by done. by apply String.eqb_neq in Hv as ->. Qed.
Lemma firstNonEmpty_nil l : firstNonEmpty l = "" → Forall (λ v, blank v = true) l.
Proof.
  induction l as [|v l IH]; [constructor|]. cbn [firstNonEmpty]. destruct (blank v) eqn:Hb; [constructor; auto|]. intros He. apply blank_false in Hb. by rewrite He in Hb.
Qed.

Lemma add_value_new out v : TrimSpace v = v → v ≠ "" → ToLower v ∉ ToLower <$> out → add_value out v = out ++ [v].
Proof.
  intros Ht Hv Hout. unfold add_value. cbv zeta. rewrite Ht. apply String.eqb_neq in Hv as ->. by rewrite bool_decide_eq_false_2.
Qed.
(** The lists that [normalizeValues] gives. *)
Definition values_normal (l : list string) : Prop := Forall (λ v, TrimSpace v = v ∧ v ≠ "") l ∧ NoDup (ToLower <$> l).
Lemma add_value_normal out v : values_normal out → values_normal (add_value out v).
Proof.
  intros [H1 H2]. unfold add_value. cbv zeta. destruct (String.eqb_spec (TrimSpace v) ""); [done|]. destruct (bool_decide _) eqn:Hd; [done|].
  apply bool_decide_eq_false in Hd. cbn [orb]. split; [apply Forall_app; split; [done|]; constructor; [|constructor]; auto using TrimSpace_idem|].
  rewrite fmap_app. apply NoDup_app. split_and!; [done| |apply NoDup_singleton]. cbn. intros x Hx Hx'%list_elem_of_singleton. by subst.
Qed.
Lemma fold_values_normal l out : values_normal out → values_normal (foldl add_value out l).
Proof. revert out. induction l as [|v l IH]; intros out H; [done|]. by apply IH, add_value_normal. Qed.
Lemma normalizeValues_normal l : values_normal (normalizeValues l).
Proof.
  destruct (fold_values_normal l []) as [H1 H2]; [split; constructor|]. split; unfold normalizeValues.
  - by rewrite sortStrings_perm.
  - by rewrite sortStrings_perm.
Qed.
Lemma fold_values_id l out : values_normal (out ++ l) → foldl add_value out l = out ++ l.
Proof.
  revert out. induction l as [|v l IH]; intros out [H1 H2]; [by rewrite app_nil_r|]. cbn [foldl]. rewrite add_value_new.
  - rewrite IH; by rewrite <-?app_assoc.
  - apply Forall_app in H1 as [_ H1]. by apply Forall_cons in H1 as [[? _] _].
  - apply Forall_app in H1 as [_ H1]. by apply Forall_cons in H1 as [[_ ?] _].
  - rewrite fmap_app in H2. apply NoDup_app in H2 as (_ & H2 & _). intros Hin. apply (H2 _ Hin). cbn. by left.
Qed.
Lemma normalizeValues_idem l : normalizeValues (normalizeValues l) = normalizeValues l.
Proof.
  unfold normalizeValues at 1. rewrite (fold_values_id _ []) by apply normalizeValues_normal. cbn [app]. unfold normalizeValues. apply sortStrings_unique, sortStrings_perm.
Qed.

(** ** Tokens *)

Lemma algorithm_upper a : normalizeJWTAlgorithm (ToUpper (TrimSpace a)) = normalizeJWTAlgorithm a.
Proof. unfold normalizeJWTAlgorithm. cbv zeta. by rewrite <-ToUpper_TrimSpace, TrimSpace_idem, ToUpper_idem. Qed.
Lemma buildJWT_upper C jm keyID a key claims : buildJWT C jm keyID (ToUpper (TrimSpace a)) key claims = buildJWT C jm keyID a key claims.
Proof. unfold buildJWT. by rewrite algorithm_upper. Qed.

Lemma RawURLEncode_plain s : Forall (λ c, Ascii.eqb c "." = false) (list_ascii_of_string (RawURLEncode s)).
Proof. eapply Forall_impl; [apply RawURLEncode_chars|]. intros c [_ Hc]. by apply Ascii.eqb_neq. Qed.
(** A reader of tokens with an HMAC signature: the signed part is what comes before the signature, and the claims are those of the second part. *)
Definition read_hs256 (C : jwt_crypto) (json_Unmarshal : string → outcome string (gmap string value)) (key token : string) : option (gmap string value) :=
  match SplitChar "." token with
  | [header; claims; signature] =>
    if String.eqb signature (RawURLEncode (cr_hmac C key (header +:+ "." +:+ claims))) then
      match RawURLDecode claims with
      | Some text => match json_Unmarshal text with Ok m => Some m | Fail _ => None end
      | None => None
      end
    else None
  | _ => None
  end.

Lemma append_assoc3 (a b c : string) : (a +:+ b) +:+ c = a +:+ b +:+ c.
Proof. induction a as [|x a IH]; [done|]. change (String x ((a +:+ b) +:+ c) = String x (a +:+ b +:+ c)). by rewrite IH. Qed.
Lemma buildJWT_ok C jm keyID algorithm key claims token : buildJWT C jm keyID algorithm key claims = Ok token →
  ∃ alg header text signature, normalizeJWTAlgorithm algorithm = Ok alg ∧ TrimSpace key ≠ "" ∧ jm (jwt_header alg keyID) = Ok header ∧ jm claims = Ok text ∧
    token = RawURLEncode header +:+ "." +:+ RawURLEncode text +:+ "." +:+ RawURLEncode signature ∧
    signJWT C alg (TrimSpace key) (RawURLEncode header +:+ "." +:+ RawURLEncode text) = Ok (RawURLEncode signature).
Proof.
  unfold buildJWT. destruct (normalizeJWTAlgorithm algorithm) as [alg|] eqn:Ha; [|done]. cbv zeta. destruct (String.eqb_spec (TrimSpace key) "") as [|Hk]; [done|].
  destruct (jm (jwt_header _ _)) as [header|] eqn:Hh; [|done]. destruct (jm claims) as [text|] eqn:Ht; [|done].
  destruct (signJWT _ _ _ _) as [signature|] eqn:Hs; [|done]. intros [= <-].
  assert (Hsig : ∃ raw, signature = RawURLEncode raw).
  { unfold signJWT in Hs. repeat case_match; simplify_eq; eauto. }
  destruct Hsig as [raw ->]. exists alg, header, text, raw. split_and!; try done. by rewrite !append_assoc3.
Qed.

(** A token says what it was built from.  Whatever the algorithm, the claims a token carries are read back by the decoder of ID tokens; and of a token built
    with HMAC a reader with the same key accepts the claims, while with another key it accepts them only if that key signs them alike.  No token is built for
    an algorithm other than HS256 and RS256, or with a blank key. *)
Theorem jwt_claims C jm json_Unmarshal keyID algorithm key claims token text m :
  buildJWT C jm keyID algorithm key claims = Ok token → jm claims = Ok text → json_Unmarshal text = Ok m →
  decodeJWTPayload json_Unmarshal token = Ok m ∧ TrimSpace key ≠ "" ∧
  (normalizeJWTAlgorithm algorithm = Ok jwtAlgHS256 ∨ normalizeJWTAlgorithm algorithm = Ok jwtAlgRS256) ∧
  (normalizeJWTAlgorithm algorithm = Ok jwtAlgHS256 →
     read_hs256 C json_Unmarshal (TrimSpace key) token = Some m ∧
     ∃ signed, ∀ key', read_hs256 C json_Unmarshal key' token =
       if String.eqb (RawURLEncode (cr_hmac C (TrimSpace key) signed)) (RawURLEncode (cr_hmac C key' signed)) then Some m else None).
Proof.
  intros Hb Ht Hm. apply buildJWT_ok in Hb as (alg & header & text' & raw & Halg & Hk & _ & Ht' & -> & Hs). rewrite Ht in Ht'. injection Ht' as <-.
  assert (Htrim : ∀ a b c, TrimSpace (RawURLEncode a +:+ "." +:+ RawURLEncode b +:+ "." +:+ RawURLEncode c) = RawURLEncode a +:+ "." +:+ RawURLEncode b +:+ "." +:+ RawURLEncode c).
  { intros a b c. apply TrimSpace_visible. rewrite !list_ascii_app. repeat (apply Forall_app_2; [apply RawURLEncode_visible || by repeat constructor|]). apply RawURLEncode_visible. }
  split_and!; [|done| |].
  - rewrite id_token_claims; [by rewrite Hm|apply RawURLEncode_plain|apply Htrim].
  - rewrite Halg. unfold normalizeJWTAlgorithm in Halg. cbv zeta in Halg.
    destruct (String.eqb_spec (if String.eqb (ToUpper (TrimSpace algorithm)) "" then jwtAlgRS256 else ToUpper (TrimSpace algorithm)) jwtAlgHS256) as [He|]; [injection Halg as <-; rewrite He; auto|].
    destruct (String.eqb_spec (if String.eqb (ToUpper (TrimSpace algorithm)) "" then jwtAlgRS256 else ToUpper (TrimSpace algorithm)) jwtAlgRS256) as [He|]; [|done].
    injection Halg as <-. rewrite He. auto.
  - intros Hhs. rewrite Halg in Hhs. injection Hhs as ->. unfold signJWT in Hs. rewrite String.eqb_refl in Hs. injection Hs as Hs.
    assert (Hread : ∀ key', read_hs256 C json_Unmarshal key' (RawURLEncode header +:+ "." +:+ RawURLEncode text +:+ "." +:+ RawURLEncode raw) =
      if String.eqb (RawURLEncode (cr_hmac C (TrimSpace key) (RawURLEncode header +:+ "." +:+ RawURLEncode text)))
                    (RawURLEncode (cr_hmac C key' (RawURLEncode header +:+ "." +:+ RawURLEncode text))) then Some m else None).
    { intros key'. unfold read_hs256. change "." with (String "."%char ""). rewrite !SplitChar_sep, (SplitChar_plain _ (RawURLEncode raw)) by apply RawURLEncode_plain.
      rewrite RawURLDecode_Encode, Hm, <-Hs. done. }
    split; [by rewrite Hread, String.eqb_refl|]. eexists. apply Hread.
Qed.

(** ** Refresh keeps the identity *)

Section identity.
Variable C : jwt_crypto.
Variable json_Marshal : gmap string value → outcome string string.
Variable json_account : string → option googleServiceAccountJSON.
Variable json_token : string → option google_token.
Variable parseURL : string → outcome string URL.
Variable s : ServiceAccountJWTStrategyConfig.
Abbreviation exchange := (exchangeGoogleServiceAccountJWT C json_Marshal json_token parseURL).
Abbreviation spec_of := (googleServiceAccountSpec_of json_account s).

(** Whom a token is made for: signed here, or exchanged for one of Google's. *)
Inductive account :=
| Signed (keyID algorithm key issuer subject audience : string)
| Exchanged (g : googleServiceAccountSpec).

(** A token for an account at a time, with its expiry. *)
Definition mint (a : account) (client : HTTPDoer) (clock now : Time) : outcome sa_error (string * Time) :=
  match a with
  | Signed keyID algorithm key issuer subject audience =>
    match buildJWT C json_Marshal keyID algorithm key (account_claims s issuer subject audience now) with
    | Ok token => Ok (token, addTime now (sj_TokenTTL s))
    | Fail err => Fail (SaErrJWT err)
    end
  | Exchanged g => match exchange client clock g now with
                   | Ok (c, _) => Ok (ac_AccessToken c, default zeroTime (ac_ExpiresAt c))
                   | Fail err => Fail err
                   end
  end.

Definition with_upper (g : googleServiceAccountSpec) : googleServiceAccountSpec :=
  mkGoogleSpec (gs_issuer g) (gs_subject g) (gs_audience g) (ToUpper (gs_signingAlgorithm g)) (gs_signingKey g) (gs_keyID g) (gs_tokenURI g) (gs_projectID g)
    (gs_scopes g) (gs_tokenTTL g).
Definition upper_account (a : account) : account :=
  match a with
  | Signed keyID algorithm key issuer subject audience => Signed keyID (ToUpper algorithm) key issuer subject audience
  | Exchanged g => Exchanged (with_upper g)
  end.

(** The account a credential is refreshed for. *)
Definition refresh_account (cred : ActiveCredential) : option account :=
  let md := ac_Metadata cred in
  let issuer := firstNonEmpty [authString md ["issuer"]; sj_Issuer s] in
  let audience := firstNonEmpty [authString md ["audience"]; sj_Audience s] in
  let subject := firstNonEmpty [authString md ["subject"]; sj_Subject s] in
  let signingAlgorithm := firstNonEmpty [authString md ["signing_algorithm"]; sj_SigningAlgorithm s; jwtAlgRS256] in
  let signingKey := firstNonEmpty [authString md key_spellings; sj_SigningKey s; sj_PrivateKey s] in
  let keyID := firstNonEmpty [authString md ["key_id"]; sj_KeyID s] in
  if String.eqb issuer "" || String.eqb audience "" || String.eqb signingKey "" then None
  else
    let requested := or_else (authStringSlice md ["requested_grants"; "requested_scopes"; "scopes"]) (ac_RequestedScopes cred) in
    let '(g, exchange) := spec_of md issuer audience subject signingAlgorithm signingKey keyID requested in
    if exchange then Some (Exchanged g) else if String.eqb subject "" then None else Some (Signed keyID signingAlgorithm signingKey issuer subject audience).

(** A specification that the strategy makes: trimmed, and with what is configured where it says nothing. *)
Record spec_ok (g : googleServiceAccountSpec) : Prop := mkSpecOk {
  so_issuer : TrimSpace (gs_issuer g) = gs_issuer g; so_subject : TrimSpace (gs_subject g) = gs_subject g; so_audience : TrimSpace (gs_audience g) = gs_audience g;
  so_algorithm : TrimSpace (gs_signingAlgorithm g) = gs_signingAlgorithm g ∧ gs_signingAlgorithm g ≠ "";
  so_key : TrimSpace (gs_signingKey g) = gs_signingKey g; so_keyID : TrimSpace (gs_keyID g) = gs_keyID g; so_uri : TrimSpace (gs_tokenURI g) = gs_tokenURI g;
  so_project : TrimSpace (gs_projectID g) = gs_projectID g; so_scopes : normalizeValues (gs_scopes g) = gs_scopes g;
  so_ttl : gs_tokenTTL g = (if (sj_TokenTTL s <=? 0)%Z then (3600 * Second)%Z else sj_TokenTTL s);
  so_aud : gs_tokenURI g ≠ "" → gs_audience g ≠ "";
  so_sub : gs_subject g = "" → blank (sj_Subject s) = true;
  so_kid : gs_keyID g = "" → blank (sj_KeyID s) = true }.

Lemma spec_of_ok md issuer audience subject algorithm key keyID scopes : (blank keyID = true → blank (sj_KeyID s) = true) → algorithm ≠ "" → TrimSpace algorithm = algorithm →
  spec_ok (spec_of md issuer audience subject algorithm key keyID scopes).1.
Proof.
  intros Hkid Halg Htalg. unfold googleServiceAccountSpec_of. cbv zeta. cbn [fst]. split; cbn [gs_issuer gs_subject gs_audience gs_signingAlgorithm gs_signingKey gs_keyID gs_tokenURI gs_projectID gs_scopes gs_tokenTTL]; try apply firstNonEmpty_trimmed.
  - destruct (_ && _); [apply TrimSpace_idem|apply firstNonEmpty_trimmed].
  - split; [apply firstNonEmpty_trimmed|]. by rewrite firstNonEmpty_here.
  - apply normalizeValues_idem.
  - done.
  - intros Hu Ha. apply Hu. apply firstNonEmpty_nil in Ha. apply Forall_cons in Ha as [_ Ha]. apply Forall_cons in Ha as [Ha _].
    rewrite blank_neq in Ha by apply firstNonEmpty_trimmed. by apply String.eqb_eq in Ha.
  - destruct (_ && negb (blank subject) && _) eqn:Hd.
    + apply andb_true_iff in Hd as [Hd _]. apply andb_true_iff in Hd as [_ Hs%negb_true_iff%blank_false]. done.
    + intros He%firstNonEmpty_nil. apply Forall_cons in He as [_ He]. by apply Forall_cons in He as [? _].
  - intros He%firstNonEmpty_nil. apply Forall_cons in He as [_ He]. apply Forall_cons in He as [_ He]. apply Forall_cons in He as [He _]. by apply Hkid.
Qed.

(** What a credential of the exchange says of its specification. *)
Lemma cond_eq (b : bool) (m : gmap string value) k v : (if b then m else <[k := v]> m) !! k = if b then m !! k else Some v.
Proof. destruct b; [done|apply lookup_insert_eq]. Qed.
Lemma cond_ne (b : bool) (m : gmap string value) k k' v : k ≠ k' → (if b then m else <[k := v]> m) !! k' = m !! k'.
Proof. intros. destruct b; [done|by apply lookup_insert_ne]. Qed.
Lemma cond2_ne (b : bool) (m : gmap string value) k1 k2 k' v1 v2 : k1 ≠ k' → k2 ≠ k' → (if b then m else <[k1 := v1]> (<[k2 := v2]> m)) !! k' = m !! k'.
Proof. intros. destruct b; [done|by rewrite !lookup_insert_ne]. Qed.
Lemma single_ne (k k' : string) (v : value) : k ≠ k' → ({[k := v]} : gmap string value) !! k' = None.
Proof. apply lookup_singleton_ne. Qed.
Lemma cond2_fst (b : bool) (m : gmap string value) k1 k2 v1 v2 : (if b then m else <[k1 := v1]> (<[k2 := v2]> m)) !! k1 = if b then m !! k1 else Some v1.
Proof. destruct b; [done|apply lookup_insert_eq]. Qed.
Lemma cond2_snd (b : bool) (m : gmap string value) k1 k2 v1 v2 : k1 ≠ k2 → (if b then m else <[k1 := v1]> (<[k2 := v2]> m)) !! k2 = if b then m !! k2 else Some v2.
Proof. intros. destruct b; [done|]. rewrite lookup_insert_ne by done. apply lookup_insert_eq. Qed.

Ltac spec_keys :=
  unfold spec_metadata; cbv zeta;
  repeat (first [rewrite cond_ne by discriminate | rewrite cond2_ne by discriminate | rewrite cond_eq | rewrite cond2_fst
                | rewrite cond2_snd by discriminate | rewrite lookup_insert_eq | rewrite lookup_insert_ne by discriminate | rewrite lookup_singleton_eq
                | rewrite single_ne by discriminate ]).

(** The keys of a credential's metadata, each with its value if it has one. *)
Definition spec_text (g : googleServiceAccountSpec) (k : string) : string :=
  if bool_decide (k ∈ ["issuer"; "client_email"]) then gs_issuer g else if String.eqb k "audience" then firstNonEmpty [gs_audience g; gs_tokenURI g]
  else if String.eqb k "token_uri" then gs_tokenURI g else if String.eqb k "signing_algorithm" then ToUpper (gs_signingAlgorithm g)
  else if String.eqb k "signing_key" then gs_signingKey g else if bool_decide (k ∈ ["subject"; "service_account_subject"]) then gs_subject g
  else if bool_decide (k ∈ ["key_id"; "private_key_id"]) then gs_keyID g else if String.eqb k "project_id" then gs_projectID g else "".

Lemma authString_cons md k ks : authString md (k :: ks) = if String.eqb (authString md [k]) "" then authString md ks else authString md [k].
Proof.
  cbn [authString]. destruct (md !! k) as [[]|]; try done. destruct (blank s0) eqn:Hb; [done|]. apply blank_false in Hb. by apply String.eqb_neq in Hb as ->.
Qed.
Lemma authString_text md k v : md !! k = Some (VString v) → TrimSpace v = v → authString md [k] = v.
Proof. intros Hk Ht. cbn [authString]. rewrite Hk, blank_neq, Ht by done. by destruct (String.eqb_spec v ""). Qed.
Lemma authString_opt md k v : md !! k = (if blank v then None else Some (VString (TrimSpace v))) → TrimSpace v = v → authString md [k] = v.
Proof.
  intros Hk Ht. cbn [authString]. rewrite Hk. rewrite blank_neq by done. destruct (String.eqb_spec v "") as [->|Hv]; [done|]. rewrite Ht, blank_neq by done. by apply String.eqb_neq in Hv as ->.
Qed.
Lemma authString_none md k : md !! k = None → authString md [k] = "".
Proof. intros Hk. cbn [authString]. by rewrite Hk. Qed.
Definition text_keys : list string :=
  ["issuer"; "client_email"; "audience"; "token_uri"; "signing_algorithm"; "signing_key"; "subject"; "service_account_subject"; "key_id"; "private_key_id"; "project_id"].
Definition absent_keys : list string :=
  ["jwt_signing_key"; "private_key"; "jwt_private_key"; "jwt_secret"; "service_account_json"; "google_service_account_json"; "service_account_email"; "jwt_key_id"; "token_url";
   "jwt_audience"; "delegation_subject"; "workspace_subject"; "google_token_exchange"; "requested_grants"].

Lemma spec_absent g : Forall (λ k, spec_metadata g !! k = None) absent_keys.
Proof. unfold absent_keys. repeat (apply Forall_cons; split; [by spec_keys|]). constructor. Qed.
Lemma spec_texts g : spec_ok g → Forall (λ k, authString (spec_metadata g) [k] = spec_text g k) text_keys.
Proof.
  intros H. destruct H as [H1 H2 H3 [H4 H4'] H5 H6 H7 H8 _ _ _ _ _].
  assert (Hup : TrimSpace (ToUpper (gs_signingAlgorithm g)) = ToUpper (gs_signingAlgorithm g)) by (by rewrite <-ToUpper_TrimSpace, H4).
  unfold text_keys. repeat (apply Forall_cons; split); try constructor.
  1-6: apply authString_text; [spec_keys; by rewrite ?H1, ?H4, ?H5, ?H7|first [done|apply firstNonEmpty_trimmed]].
  all: apply authString_opt; [by spec_keys|done].
Qed.
Lemma spec_requested g : authStringSlice (spec_metadata g) ["requested_grants"; "requested_scopes"; "scopes"] = normalizeValues (gs_scopes g).
Proof.
  cbn [authStringSlice]. assert (Hg : spec_metadata g !! "requested_grants" = None) by by spec_keys. assert (H2 : spec_metadata g !! "scopes" = None) by by spec_keys.
  assert (H1 : spec_metadata g !! "requested_scopes" = if bool_decide (gs_scopes g = []) then None else Some (VStrings (gs_scopes g))) by (by spec_keys).
  rewrite Hg, H1, H2. by case_bool_decide as Hs; [rewrite Hs|].
Qed.

Lemma if_same (v : string) : (if String.eqb v "" then "" else v) = v.
Proof. by destruct (String.eqb_spec v ""). Qed.
Lemma firstNonEmpty_opt v l : TrimSpace v = v → (v = "" → Forall (λ x, blank x = true) l) → firstNonEmpty (v :: l) = v.
Proof.
  intros Ht Hl. destruct (decide (v = "")) as [->|Hv]; [|by apply firstNonEmpty_here]. specialize (Hl eq_refl). cbn [firstNonEmpty].
  change (blank "") with true. cbn [orb]. clear Ht. induction Hl as [|x l Hx _ IH]; [done|]. cbn [firstNonEmpty]. by rewrite Hx.
Qed.

(** Reading the metadata of a specification gives the specification again, with its algorithm in upper case. *)
Lemma refresh_spec g cred : spec_ok g → gs_issuer g ≠ "" → gs_signingKey g ≠ "" → gs_tokenURI g ≠ "" → gs_scopes g ≠ [] → ac_Metadata cred = spec_metadata g →
  refresh_account cred = Some (Exchanged (with_upper g)).
Proof.
  intros Hok Hi Hk Hu Hsc Hmd. pose proof (spec_absent g) as Habs. pose proof (spec_texts g Hok) as Htxt. pose proof (spec_requested g) as Hreq.
  assert (Habs' : ∀ k, k ∈ absent_keys → authString (spec_metadata g) [k] = "") by (intros k Hin; rewrite Forall_forall in Habs; by apply authString_none, Habs).
  assert (Htxt' : ∀ k, k ∈ text_keys → authString (spec_metadata g) [k] = spec_text g k) by (rewrite Forall_forall in Htxt; exact Htxt). clear Habs Htxt.
  destruct Hok as [H1 H2 H3 [H4 H4'] H5 H6 H7 H8 H9 H10 H11 H12 H13]. specialize (H11 Hu).
  assert (Hup : ToUpper (gs_signingAlgorithm g) ≠ "") by (destruct (gs_signingAlgorithm g); done).
  assert (Hupt : TrimSpace (ToUpper (gs_signingAlgorithm g)) = ToUpper (gs_signingAlgorithm g)) by (by rewrite <-ToUpper_TrimSpace, H4).
  unfold refresh_account. cbv zeta. rewrite Hmd. unfold googleServiceAccountSpec_of, key_spellings. cbv zeta. rewrite Hreq, H9.
  repeat match goal with |- context[authString (spec_metadata g) (?a :: ?b :: ?c)] => rewrite (authString_cons (spec_metadata g) a (b :: c)) end.
  repeat match goal with |- context[authString (spec_metadata g) [?k]] => first [rewrite (Habs' k) by (repeat constructor) | rewrite (Htxt' k) by (repeat constructor)] end.
  unfold spec_text. simpl bool_decide. cbn [String.eqb Ascii.eqb Bool.eqb gj_ClientEmail gj_PrivateKey gj_PrivateKeyID gj_TokenURI gj_ProjectID]. rewrite !if_same.
  assert (Hkid : ∀ l, firstNonEmpty (gs_keyID g :: l) = if String.eqb (gs_keyID g) "" then firstNonEmpty l else gs_keyID g).
  { intros l. cbn [firstNonEmpty]. rewrite blank_neq, H6 by done. done. }
  rewrite !(firstNonEmpty_here (gs_audience g)), !(firstNonEmpty_here (gs_issuer g)), !(firstNonEmpty_here (gs_signingKey g)), !(firstNonEmpty_here (gs_tokenURI g)),
    !(firstNonEmpty_here (ToUpper (gs_signingAlgorithm g))) by done.
  rewrite (proj2 (String.eqb_neq _ _) Hi), (proj2 (String.eqb_neq _ _) Hk), (proj2 (String.eqb_neq _ _) Hu), (proj2 (String.eqb_neq _ _) H11). cbn [orb negb].
  assert (Hsub : firstNonEmpty [gs_subject g; sj_Subject s] = gs_subject g) by (apply firstNonEmpty_opt; [done|]; intros He; by repeat constructor; auto).
  assert (Hki : firstNonEmpty [gs_keyID g; sj_KeyID s] = gs_keyID g) by (apply firstNonEmpty_opt; [done|]; intros He; by repeat constructor; auto).
  rewrite Hsub, Hki. rewrite (firstNonEmpty_opt (gs_projectID g)) by (try done; by repeat constructor).
  assert (Hself : (if String.eqb (gs_keyID g) "" then gs_keyID g else gs_keyID g) = gs_keyID g) by (by destruct (String.eqb _ _)). rewrite Hself.
  rewrite (firstNonEmpty_opt (gs_keyID g)); [|done|intros ->; by repeat constructor].
  assert (Hself2 : (blank (gs_subject g) && negb (blank (gs_subject g))) = false) by (apply andb_negb_r). rewrite Hself2. cbn [andb].
  assert (Hreq2 : or_else (gs_scopes g) (ac_RequestedScopes cred) = gs_scopes g) by (by destruct (gs_scopes g)). rewrite Hreq2, H9. unfold with_upper. by rewrite H10.
Qed.

(** ** Minting *)

#[local] Arguments ToUpper : simpl never.
#[local] Arguments TrimSpace : simpl never.
#[local] Arguments blank : simpl never.

Definition account_ok (a : account) : Prop :=
  match a with
  | Signed _ algorithm _ _ _ _ => TrimSpace algorithm = algorithm
  | Exchanged g => spec_ok g
  end.
Lemma with_upper_ok g : spec_ok g → spec_ok (with_upper g).
Proof.
  intros [H1 H2 H3 [H4 H4'] H5 H6 H7 H8 H9 H10 H11 H12 H13]. split; try done. cbn. split; [by rewrite <-ToUpper_TrimSpace, H4|by destruct (gs_signingAlgorithm g)].
Qed.
Lemma with_upper_metadata g : spec_ok g → spec_metadata (with_upper g) = spec_metadata g.
Proof. intros [? ? ? [H4 _]]. unfold spec_metadata. cbn. by rewrite <-ToUpper_TrimSpace, ToUpper_idem. Qed.
Lemma upper_account_ok a : account_ok a → account_ok (upper_account a).
Proof. destruct a; cbn; [|apply with_upper_ok]. intros H. by rewrite <-ToUpper_TrimSpace, H. Qed.
Lemma upper_account_idem a : upper_account (upper_account a) = upper_account a.
Proof. destruct a; cbn; unfold with_upper; cbn; by rewrite ToUpper_idem. Qed.

Lemma exchange_upper client clock g now : spec_ok g → exchange client clock (with_upper g) now = exchange client clock g now.
Proof.
  intros Hok. pose proof Hok as [_ _ _ [H4 _] _ _ _ _ _ _ _ _ _]. unfold exchangeGoogleServiceAccountJWT. cbn [with_upper gs_issuer gs_signingKey gs_tokenURI gs_scopes gs_keyID gs_signingAlgorithm].
  assert (Hb : ∀ claims, buildJWT C json_Marshal (gs_keyID g) (ToUpper (gs_signingAlgorithm g)) (gs_signingKey g) claims = buildJWT C json_Marshal (gs_keyID g) (gs_signingAlgorithm g) (gs_signingKey g) claims).
  { intros claims. rewrite <-(buildJWT_upper _ _ _ (gs_signingAlgorithm g)), H4. done. }
  rewrite Hb. change (google_claims (with_upper g)) with (google_claims g).
  assert (Hr : ∀ now' res, google_response json_token (with_upper g) now' res = google_response json_token g now' res) by (intros; unfold google_response; by rewrite with_upper_metadata).
  repeat case_match; try done; apply Hr.
Qed.
Lemma mint_upper a client clock now : account_ok a → mint (upper_account a) client clock now = mint a client clock now.
Proof.
  destruct a as [keyID alg key iss sub aud|g]; cbn; [|intros; by rewrite exchange_upper]. intros H. rewrite <-(buildJWT_upper _ _ _ alg), H. done.
Qed.
Abbreviation complete := (Account_Complete C json_Marshal json_account json_token parseURL s).
Abbreviation refresh := (Account_Refresh C json_Marshal json_account json_token parseURL s).

Lemma Ok_inj {E A} (a b : A) : @Ok E A a = Ok b → a = b.
Proof. by intros [= ->]. Qed.

Lemma refresh_mints cred a client clock now : refresh_account cred = Some a →
  match refresh client clock now cred with
  | Ok r => mint a client clock now = Ok (ac_AccessToken (rr_Credential r), default zeroTime (ac_ExpiresAt (rr_Credential r)))
  | Fail e => mint a client clock now = Fail e
  end.
Proof.
  unfold refresh_account, Account_Refresh. cbv zeta. destruct (_ || _); [done|]. destruct (spec_of _ _ _ _ _ _ _ _) as [g [|]].
  - intros <-%(inj Some). cbn [mint]. by destruct (exchange client clock g now) as [[c granted]|e].
  - destruct (String.eqb _ ""); [done|]. intros <-%(inj Some). cbn [mint]. by destruct (buildJWT _ _ _ _ _ _).
Qed.

Lemma exchange_ok client clock g now c granted : exchange client clock g now = Ok (c, granted) →
  blank (gs_issuer g) = false ∧ blank (gs_signingKey g) = false ∧ blank (gs_tokenURI g) = false ∧ gs_scopes g ≠ [].
Proof.
  unfold exchangeGoogleServiceAccountJWT. destruct (blank (gs_issuer g)); [done|]. destruct (blank (gs_signingKey g)); [done|]. destruct (blank (gs_tokenURI g)); [done|].
  by case_bool_decide.
Qed.
Lemma exchanged_refreshes client clock g now c granted cred : spec_ok g → exchange client clock g now = Ok (c, granted) → ac_Metadata cred = spec_metadata g →
  refresh_account cred = Some (Exchanged (with_upper g)).
Proof.
  intros Hok (H1 & H2 & H3 & H4)%exchange_ok Hmd. pose proof Hok as [T1 _ _ _ T5 _ T7]. rewrite blank_neq in H1, H2, H3 by done.
  apply refresh_spec; try done; by apply String.eqb_neq.
Qed.

(** Reading one key or another in the metadata of a signed token. *)
Lemma insert_elsewhere md k v keys : k ∉ keys → authString (<[k := v]> md) keys = authString md keys.
Proof. intros Hk. apply authString_ext, Forall_forall. intros k' Hk'. apply lookup_insert_ne. by intros ->. Qed.
Lemma signed_exchange md issuer audience subject alg key keyID scopes md' issuer' audience' subject' alg' key' keyID' scopes' :
  Forall (λ k, md !! k = md' !! k) ["service_account_json"; "google_service_account_json"; "token_uri"; "google_token_exchange"] →
  (spec_of md issuer audience subject alg key keyID scopes).2 = (spec_of md' issuer' audience' subject' alg' key' keyID' scopes').2.
Proof.
  intros H. unfold googleServiceAccountSpec_of. cbn [snd]. repeat (apply Forall_cons in H as [? H]).
  rewrite !(authString_ext md md') by (repeat constructor; done). done.
Qed.
Lemma algorithm_default v : firstNonEmpty [v; sj_SigningAlgorithm s; jwtAlgRS256] ≠ "".
Proof. intros H%firstNonEmpty_nil. apply Forall_cons in H as [_ H]. apply Forall_cons in H as [_ H]. apply Forall_cons in H as [H _]. discriminate H. Qed.
Lemma upper_text alg : TrimSpace alg = alg → alg ≠ "" → TrimSpace (ToUpper alg) = ToUpper alg ∧ ToUpper alg ≠ "".
Proof. intros Ht Hn. split; [by rewrite <-ToUpper_TrimSpace, Ht|by destruct alg]. Qed.

(** The metadata of a token that was signed again. *)
Definition signed_metadata (md : gmap string value) (alg keyID : string) : gmap string value :=
  let m := <["signing_algorithm" := VString (ToUpper (TrimSpace alg))]> (<["auth_kind" := VString AuthKindServiceAccountJWT]> md) in
  if String.eqb keyID "" then m else <["key_id" := VString keyID]> m.
Lemma signed_elsewhere md alg keyID keys : "signing_algorithm" ∉ keys → "auth_kind" ∉ keys → "key_id" ∉ keys → authString (signed_metadata md alg keyID) keys = authString md keys.
Proof. intros H1 H2 H3. unfold signed_metadata. cbv zeta. destruct (String.eqb keyID ""); by rewrite !insert_elsewhere. Qed.
Lemma signed_algorithm md alg keyID : TrimSpace alg = alg → alg ≠ "" → authString (signed_metadata md alg keyID) ["signing_algorithm"] = ToUpper alg.
Proof.
  intros Ht Hn. destruct (upper_text alg Ht Hn) as [Hu _]. apply authString_text; [|done]. unfold signed_metadata. cbv zeta. rewrite Ht.
  destruct (String.eqb keyID ""); [by rewrite lookup_insert_eq|by rewrite lookup_insert_ne, lookup_insert_eq].
Qed.
Lemma signed_keyID md alg keyID rest : keyID = firstNonEmpty [authString md ["key_id"]; rest] → firstNonEmpty [authString (signed_metadata md alg keyID) ["key_id"]; rest] = keyID.
Proof.
  intros Hk. unfold signed_metadata. cbv zeta. destruct (String.eqb_spec keyID "") as [He|Hn].
  - rewrite !insert_elsewhere by (rewrite not_elem_of_cons; split; [done|apply not_elem_of_nil]). by symmetry.
  - rewrite (authString_text _ _ keyID); [|apply lookup_insert_eq|rewrite Hk; apply firstNonEmpty_trimmed]. apply firstNonEmpty_here; [done|]. rewrite Hk. apply firstNonEmpty_trimmed.
Qed.

Lemma signed_again cred c' keyID alg key iss sub aud : refresh_account cred = Some (Signed keyID alg key iss sub aud) →
  ac_Metadata c' = signed_metadata (ac_Metadata cred) alg keyID → refresh_account c' = Some (Signed keyID (ToUpper alg) key iss sub aud).
Proof.
  intros H Hmd. set (md := ac_Metadata cred) in *. assert (Helse : ∀ k, k ≠ "signing_algorithm" → k ≠ "auth_kind" → k ≠ "key_id" →
    authString (signed_metadata md alg keyID) [k] = authString md [k]) by (intros; apply signed_elsewhere; rewrite not_elem_of_cons; auto using not_elem_of_nil).
  assert (Hkeys : authString (signed_metadata md alg keyID) key_spellings = authString md key_spellings)
    by (apply signed_elsewhere; unfold key_spellings; rewrite !not_elem_of_cons; split_and!; try discriminate; apply not_elem_of_nil).
  unfold refresh_account in *. cbv zeta in *. rewrite Hmd. fold md in H. rewrite Hkeys, !Helse by discriminate. clear Helse Hkeys.
  remember (firstNonEmpty [authString md ["signing_algorithm"]; sj_SigningAlgorithm s; jwtAlgRS256]) as alg0 eqn:Halg0.
  remember (firstNonEmpty [authString md ["key_id"]; sj_KeyID s]) as kid0 eqn:Hkid0.
  remember (firstNonEmpty [authString md ["issuer"]; sj_Issuer s]) as iss0 eqn:Hiss0. remember (firstNonEmpty [authString md ["audience"]; sj_Audience s]) as aud0 eqn:Haud0.
  remember (firstNonEmpty [authString md ["subject"]; sj_Subject s]) as sub0 eqn:Hsub0.
  remember (firstNonEmpty [authString md key_spellings; sj_SigningKey s; sj_PrivateKey s]) as key0 eqn:Hkey0.
  destruct (_ || _) eqn:He; [done|]. destruct (spec_of md _ _ _ _ _ _ _) as [g e] eqn:Hg. destruct e; [done|]. destruct (String.eqb sub0 "") eqn:Hsub; [done|].
  injection H as -> -> -> -> -> ->. assert (Hne : alg ≠ "") by (rewrite Halg0; apply algorithm_default).
  assert (Ht : TrimSpace alg = alg) by (rewrite Halg0; apply firstNonEmpty_trimmed). destruct (upper_text alg Ht Hne) as [Hu Hun].
  rewrite signed_algorithm, (firstNonEmpty_here (ToUpper alg)), (signed_keyID md alg keyID (sj_KeyID s)) by done.
  pose proof (f_equal snd Hg) as He2. cbn [snd] in He2. destruct (spec_of (signed_metadata md alg keyID) _ _ _ _ _ _ _) as [g' e'] eqn:Hg'.
  pose proof (f_equal snd Hg') as He3. cbn [snd] in He3. assert (e' = false) as ->; [|done].
  rewrite <-He3, <-He2. apply signed_exchange. unfold signed_metadata. cbv zeta. destruct (String.eqb keyID ""); repeat (apply Forall_cons; split); try constructor; by read_keys.
Qed.
Lemma refresh_account_ok cred a : refresh_account cred = Some a → account_ok a.
Proof.
  unfold refresh_account. cbv zeta. destruct (_ || _); [done|].
  destruct (spec_of _ _ _ _ _ _ _ _) as [g [|]] eqn:Hg; [|destruct (String.eqb _ ""); [done|]]; intros <-%(inj Some); cbn [account_ok]; [|apply firstNonEmpty_trimmed].
  change g with (g, true).1. rewrite <-Hg. apply spec_of_ok; [|apply algorithm_default|apply firstNonEmpty_trimmed].
  intros H. rewrite blank_neq in H by apply firstNonEmpty_trimmed. apply String.eqb_eq, firstNonEmpty_nil in H. apply Forall_cons in H as [_ H]. by apply Forall_cons in H as [? _].
Qed.

Lemma refresh_keeps cred a client clock now r : refresh_account cred = Some a → refresh client clock now cred = Ok r → refresh_account (rr_Credential r) = Some (upper_account a).
Proof.
  intros Ha Hr. pose proof (refresh_account_ok _ _ Ha) as Hok. pose proof Ha as Ha'. unfold refresh_account in Ha. unfold Account_Refresh in Hr. cbv zeta in Ha, Hr.
  destruct (_ || _); [done|]. destruct (spec_of _ _ _ _ _ _ _ _) as [g [|]].
  - apply (inj Some) in Ha as <-. destruct (exchange client clock g now) as [[c granted]|e] eqn:Hx; [|done]. injection Hr as <-. by eapply exchanged_refreshes.
  - destruct (String.eqb _ ""); [done|]. apply (inj Some) in Ha as <-. destruct (buildJWT _ _ _ _ _ _); [|done]. injection Hr as <-. cbn [upper_account]. eapply signed_again; [exact Ha'|]. reflexivity.
Qed.

Ltac split_keys m := repeat match goal with |- context[authString m (?a :: ?b :: ?c)] => rewrite (authString_cons m a (b :: c)) end.

(** The metadata of a token signed for a request. *)
Lemma complete_signed cred keyID alg given key iss sub aud : TrimSpace keyID = keyID → TrimSpace alg = alg → TrimSpace given = given → TrimSpace iss = iss → TrimSpace sub = sub →
  TrimSpace aud = aud → alg ≠ "" → iss ≠ "" → sub ≠ "" → aud ≠ "" → key ≠ "" → key = firstNonEmpty [given; sj_SigningKey s; sj_PrivateKey s] → (keyID = "" → blank (sj_KeyID s) = true) →
  let m : gmap string value := {["auth_kind" := VString AuthKindServiceAccountJWT; "issuer" := VString iss; "subject" := VString sub; "audience" := VString aud;
    "signing_algorithm" := VString (ToUpper (TrimSpace alg))]} in
  let m := if String.eqb given "" then m else <["signing_key" := VString given]> m in
  ac_Metadata cred = (if String.eqb keyID "" then m else <["key_id" := VString keyID]> m) → refresh_account cred = Some (Signed keyID (ToUpper alg) key iss sub aud).
Proof.
  intros Tk Ta Tg Ti Ts Tu Ha Hi Hs Hu Hkey Hk Hkid m0 m1 Hmd. destruct (upper_text alg Ta Ha) as [Hup Hupn]. unfold refresh_account. cbv zeta. rewrite Hmd. unfold m1, m0. rewrite Ta.
  assert (Hb : ∀ v, String.eqb v "" = true → v = "") by (intros; by apply String.eqb_eq).
  set (m := if String.eqb keyID "" then _ else _).
  assert (R1 : authString m ["issuer"] = iss) by (apply authString_text; [unfold m; by spec_keys|done]).
  assert (R2 : authString m ["audience"] = aud) by (apply authString_text; [unfold m; by spec_keys|done]).
  assert (R3 : authString m ["subject"] = sub) by (apply authString_text; [unfold m; by spec_keys|done]).
  assert (R4 : authString m ["signing_algorithm"] = ToUpper alg) by (apply authString_text; [unfold m; by spec_keys|done]).
  assert (R5 : authString m ["key_id"] = keyID).
  { unfold m. destruct (String.eqb_spec keyID "") as [->|]; [apply authString_none; by spec_keys|]. apply authString_text; [by spec_keys|done]. }
  assert (R6 : authString m key_spellings = given).
  { unfold key_spellings. split_keys m. rewrite (authString_none m "jwt_signing_key"), (authString_none m "private_key"), (authString_none m "jwt_private_key"), (authString_none m "jwt_secret") by (unfold m; by spec_keys).
    assert (R : authString m ["signing_key"] = given); [|rewrite R; apply if_same].
    unfold m. destruct (String.eqb_spec given "") as [->|]; [apply authString_none; by spec_keys|]. apply authString_text; [by spec_keys|done]. }
  assert (He : ∀ i a su al ke ki sc, (spec_of m i a su al ke ki sc).2 = false).
  { intros. unfold googleServiceAccountSpec_of. cbn [snd]. split_keys m.
    rewrite !(authString_none m "service_account_json"), !(authString_none m "google_service_account_json"), !(authString_none m "token_uri"), !(authString_none m "google_token_exchange") by (unfold m; by spec_keys). done. }
  rewrite R1, R2, R3, R4, R5, R6, <-Hk, !firstNonEmpty_here by done.
  rewrite (proj2 (String.eqb_neq _ _) Hi), (proj2 (String.eqb_neq _ _) Hu), (proj2 (String.eqb_neq _ _) Hkey), (proj2 (String.eqb_neq _ _) Hs). cbn [orb].
  assert (Hki : firstNonEmpty [keyID; sj_KeyID s] = keyID) by (apply firstNonEmpty_opt; [done|]; intros Hz; by repeat constructor; auto). rewrite Hki.
  destruct (spec_of m _ _ _ _ _ _ _) as [g e] eqn:Hg. pose proof (f_equal snd Hg) as Hx. rewrite He in Hx. cbn in Hx. by subst e.
Qed.
Definition subject_of (req : AuthCompleteRequest) : string :=
  firstNonEmpty [authString (aq_Metadata req) ["subject"; "jwt_subject"]; sj_Subject s; scope_ID (aq_Scope req)].

Lemma complete_mints client clock now req r : complete client clock now req = Ok r → subject_of req ≠ "" →
  ∃ a, account_ok a ∧ mint a client clock now = Ok (ac_AccessToken (ar_Credential r), default zeroTime (ac_ExpiresAt (ar_Credential r))) ∧
    refresh_account (ar_Credential r) = Some (upper_account a).
Proof.
  intros H Hsub. unfold Account_Complete in H. cbv zeta in H. fold (subject_of req) in H. set (md := aq_Metadata req) in *.
  remember (firstNonEmpty [authString md ["issuer"; "jwt_issuer"; "client_email"]; sj_Issuer s]) as iss eqn:Hiss.
  remember (firstNonEmpty [authString md ["audience"; "jwt_audience"; "token_url"]; sj_Audience s]) as aud eqn:Haud.
  remember (firstNonEmpty [authString md ["signing_algorithm"; "jwt_signing_algorithm"; "alg"]; sj_SigningAlgorithm s; jwtAlgRS256]) as alg eqn:Halg.
  remember (firstNonEmpty [authString md key_spellings; sj_SigningKey s; sj_PrivateKey s]) as key eqn:Hkey.
  remember (firstNonEmpty [authString md ["key_id"; "jwt_key_id"]; sj_KeyID s]) as kid eqn:Hkid.
  assert (Hkb : blank kid = true → blank (sj_KeyID s) = true).
  { intros Hb. rewrite Hkid, blank_neq in Hb by apply firstNonEmpty_trimmed. apply String.eqb_eq, firstNonEmpty_nil in Hb.
    apply Forall_cons in Hb as [_ Hb]. by apply Forall_cons in Hb as [? _]. }
  assert (Hat : TrimSpace alg = alg) by (rewrite Halg; apply firstNonEmpty_trimmed). assert (Han : alg ≠ "") by (rewrite Halg; apply algorithm_default).
  destruct (spec_of _ _ _ _ _ _ _ _) as [g ex] eqn:Hg. assert (Hok : spec_ok g) by (change g with (g, ex).1; rewrite <-Hg; by apply spec_of_ok). destruct ex.
  - unfold completeGoogleServiceAccount in H. destruct (exchange client clock g now) as [[c granted]|e] eqn:Hx; [|done]. injection H as <-.
    exists (Exchanged g). split_and!; [done|cbn [mint]; by rewrite Hx|]. cbn [upper_account]. by eapply exchanged_refreshes.
  - destruct (String.eqb_spec iss "") as [|Hi]; [done|]. destruct (String.eqb_spec aud "") as [|Ha]; [done|]. destruct (String.eqb_spec key "") as [|Hk]; [done|].
    destruct (buildJWT C json_Marshal kid alg key _) as [token|] eqn:Hb; [|done]. apply Ok_inj in H as <-. exists (Signed kid alg key iss (subject_of req) aud).
    split_and!; [done|cbn [mint]; by rewrite Hb|]. cbn [upper_account]. apply complete_signed with (given := authString md key_spellings); try done; try apply authString_trimmed; subst; try apply firstNonEmpty_trimmed.
    intros Hz. apply Hkb. by rewrite Hz.
Qed.

(** The credential after a number of refreshes, of which some may fail. *)
Definition refresh_step (cred : ActiveCredential) (u : HTTPDoer * Time * Time) : ActiveCredential :=
  match refresh u.1.1 u.1.2 u.2 cred with Ok r => rr_Credential r | Fail _ => cred end.
Lemma refreshes_keep a cred past : upper_account a = a → refresh_account cred = Some a → refresh_account (foldl refresh_step cred past) = Some a.
Proof.
  intros Ha. revert cred. induction past as [|u past IH]; intros cred Hc; [done|]. cbn [foldl]. apply IH. unfold refresh_step.
  destruct (refresh _ _ _ cred) as [r|] eqn:Hr; [|done]. apply (refresh_keeps _ _ _ _ _ _ Hc) in Hr. by rewrite Hr, Ha.
Qed.

(** A service account keeps its identity.  A completed request fixes whom the tokens are for: issuer, subject, audience, key and scopes, whether the token is
    signed here or exchanged at Google's endpoint.  However often the credential is refreshed afterwards, the token and the expiry it gets are those that a
    token for the same account has at that time, and where one cannot be made, the refresh fails with that error. *)
Theorem account_identity_kept client clock now req r :
  complete client clock now req = Ok r → subject_of req ≠ "" →
  ∃ a, mint a client clock now = Ok (ac_AccessToken (ar_Credential r), default zeroTime (ac_ExpiresAt (ar_Credential r))) ∧
    ∀ past client2 clock2 now2,
      match refresh client2 clock2 now2 (foldl refresh_step (ar_Credential r) past) with
      | Ok r2 => mint a client2 clock2 now2 = Ok (ac_AccessToken (rr_Credential r2), default zeroTime (ac_ExpiresAt (rr_Credential r2)))
      | Fail e => mint a client2 clock2 now2 = Fail e
      end.
Proof.
  intros H Hsub. destruct (complete_mints _ _ _ _ _ H Hsub) as (a & Hok & Hm & Hr). exists a. split; [done|]. intros past client2 clock2 now2.
  pose proof (refreshes_keep _ _ past (upper_account_idem a) Hr) as Hp. apply (refresh_mints _ _ client2 clock2 now2) in Hp. by rewrite (mint_upper a) in Hp.
Qed.
End identity.

(** ** Instances *)

Module AccountExample.
(** Functions that stand for the cryptographic ones, and an encoding of the maps used here. *)
Definition crypto : jwt_crypto := mkCrypto string string (λ k m, k +:+ "|" +:+ m) (λ m, m) Some (λ _, false) Ok (λ b, Ok (Some b)) (λ k m, Ok (k +:+ "#" +:+ m)).
Definition marshal (m : gmap string value) : outcome string string := Ok (Sprint (VMap m)).
Definition account_json (text : string) : option googleServiceAccountJSON := if String.eqb text "{}" then None else Some (mkAccountJSON "svc@example" "PEM" "k1" "https://idp.example/token" "proj").
Definition token_json (text : string) : option google_token := if String.eqb text "token" then Some (mkGoogleToken "ya29" "" 3600 "") else None.
Definition parse (text : string) : outcome string URL := Ok (mkURL "idp.example" "/token" "" text).
Definition endpoint : HTTPDoer := λ req, Ok (mkHttpResponse 200 ∅ "token" None).
Definition cfg : ServiceAccountJWTStrategyConfig := NewServiceAccountJWTStrategy (mkAccountConfig "svc" "" "https://api.example" "" "secret" "hs256" "" 0 "").
Definition t0 : Time := (1700000000 * Second + unixEpochSeconds * Second)%Z.
Definition request (md : gmap string value) : AuthCompleteRequest := mkAuthComplete (mkScopeRef "user" "u1") "" "" "" md.
Definition complete (md : gmap string value) := Account_Complete crypto marshal account_json token_json parse cfg endpoint 0 t0 (request md).

Example exchange_ex :
  match complete {["service_account_json" := VString "{...}"; "scopes" := VStrings ["drive"]]} with
  | Ok r => ar_ExternalAccountID r = "svc@example" ∧ ac_AccessToken (ar_Credential r) = "ya29" ∧ ac_ExpiresAt (ar_Credential r) = Some (addTime t0 (3600 * Second))
  | Fail _ => False
  end ∧ complete {["service_account_json" := VString "{...}"]} = Fail (SaErrGoogle "scopes").
Proof. vm_compute. repeat split. Qed.

Lemma account_identity_kept_witness : ∃ r, complete ∅ = Ok r ∧
  ∃ a, mint crypto marshal token_json parse cfg a endpoint 0 t0 = Ok (ac_AccessToken (ar_Credential r), default zeroTime (ac_ExpiresAt (ar_Credential r))).
Proof.
  destruct (complete ∅) as [r|e] eqn:H; [|vm_compute in H; discriminate H]. exists r. split; [done|].
  destruct (account_identity_kept crypto marshal account_json token_json parse cfg endpoint 0 t0 (request ∅) r H) as (a & Ha & _); [vm_compute; discriminate|by exists a].
Defined.

Definition claims : gmap string value := {["iss" := VString "svc"]}.
Lemma jwt_claims_witness : ∃ token, buildJWT crypto marshal "k" "HS256" "secret" claims = Ok token ∧
  decodeJWTPayload (λ _, Ok claims) token = Ok claims ∧ read_hs256 crypto (λ _, Ok claims) "secret" token = Some claims.
Proof.
  destruct (buildJWT crypto marshal "k" "HS256" "secret" claims) as [token|e] eqn:H; [|vm_compute in H; discriminate H]. exists token. split; [done|].
  destruct (jwt_claims crypto marshal (λ _, Ok claims) "k" "HS256" "secret" claims token _ claims H eq_refl eq_refl) as (Hd & _ & _ & Hs).
  split; [done|]. apply Hs. vm_compute. reflexivity.
Defined.
End AccountExample.
