(* ===== verification/Embedded.v ===== *)
(** * Embedded Shopify apps (src/providers/shopify/embedded)

    A session token that the Shopify admin signs for the app is validated, claimed in the replay ledger, and exchanged for an access token of the shop.
    URL and JSON parsing, the HTTP client and HMAC are arguments; [net.SplitHostPort] is modelled. *)

From S2P Require Import Prelude GoStrings GoValues Domain OAuthState Contracts ReplayLedger GoURL GoBase64 GoHTTP Outbox Signers Errors ServiceTypes Profiles OAuth2.
From Stdlib Require Import ZArith String Ascii Lia.
From stdpp Require Import base decidable list gmap strings sorting.

Local Open Scope string_scope.
Local Open Scope list_scope.

(** ** Errors *)

Inductive embedded_sentinel :=
| ErrInvalidSessionToken | ErrUnsupportedJWTAlgorithm | ErrInvalidAudience | ErrInvalidDestination | ErrInvalidRequestedTokenType | ErrMissingJTI | ErrReplayDetected
| ErrTokenExchangeFailed.
#[export] Instance embedded_sentinel_eq_dec : EqDecision embedded_sentinel.
Proof. solve_decision. Defined.
Definition embedded_text (e : embedded_sentinel) : string :=
  "providers/shopify/embedded: " +:+
  match e with
  | ErrInvalidSessionToken => "invalid session token" | ErrUnsupportedJWTAlgorithm => "unsupported jwt algorithm" | ErrInvalidAudience => "invalid audience"
  | ErrInvalidDestination => "invalid destination" | ErrInvalidRequestedTokenType => "invalid requested token type" | ErrMissingJTI => "missing jti claim"
  | ErrReplayDetected => "replay detected" | ErrTokenExchangeFailed => "token exchange failed"
  end.

(** An error in a chain: one of these, perhaps wrapped with a text after it, or another. *)
Inductive embedded_cause := Sentinel (e : embedded_sentinel) | Wrapped (e : embedded_sentinel) (text : string) | Foreign (text : string).
Definition cause_text (c : embedded_cause) : string :=
  match c with Sentinel e => embedded_text e | Wrapped e text => embedded_text e +:+ ": " +:+ text | Foreign text => text end.
Definition cause_is (c : embedded_cause) (e : embedded_sentinel) : bool :=
  match c with Sentinel e' | Wrapped e' _ => bool_decide (e' = e) | Foreign _ => false end.

Record ValidationError := mkValidationError { ve_Code : string; ve_Field : string; ve_Cause : embedded_cause }.
Definition Validation_Error (e : ValidationError) : string :=
  GoHTTP.Join ": " ([embedded_text ErrInvalidSessionToken] ++ (if blank (ve_Code e) then [] else ["code=" +:+ TrimSpace (ve_Code e)])
                      ++ (if blank (ve_Field e) then [] else ["field=" +:+ TrimSpace (ve_Field e)]) ++ [cause_text (ve_Cause e)]).
Record ExchangeError := mkExchangeError { xe_StatusCode : Z; xe_ErrorCode : string; xe_Message : string; xe_Cause : embedded_cause }.
Definition Exchange_Error (e : ExchangeError) : string :=
  embedded_text ErrTokenExchangeFailed +:+ (if blank (xe_ErrorCode e) then "" else ": " +:+ TrimSpace (xe_ErrorCode e))
    +:+ (if blank (xe_Message e) then "" else ": " +:+ TrimSpace (xe_Message e))
    +:+ (if (0 <? xe_StatusCode e)%Z then " (status=" +:+ Itoa (xe_StatusCode e) +:+ ")" else "") +:+ ": " +:+ cause_text (xe_Cause e).

Definition ServiceErrorEmbeddedSessionInvalid := "SERVICE_EMBEDDED_SESSION_INVALID".
Definition ServiceErrorEmbeddedExchangeFailed := "SERVICE_EMBEDDED_EXCHANGE_FAILED".

Section service_errors.
Context {GE : GoErrors}.
Definition Validation_ToServiceError (e : ValidationError) : RichError :=
  let '(category, code, textCode) :=
    if cause_is (ve_Cause e) ErrInvalidSessionToken || cause_is (ve_Cause e) ErrInvalidAudience || cause_is (ve_Cause e) ErrInvalidDestination
       || cause_is (ve_Cause e) ErrUnsupportedJWTAlgorithm || cause_is (ve_Cause e) ErrMissingJTI
    then (CategoryAuth, StatusUnauthorized, ServiceErrorEmbeddedSessionInvalid)
    else if cause_is (ve_Cause e) ErrInvalidRequestedTokenType then (CategoryBadInput, StatusBadRequest, ServiceErrorBadInput)
    else (CategoryValidation, StatusBadRequest, ServiceErrorBadInput) in
  WithMetadata (WithTextCode (WithCode (goerrors_New (Validation_Error e) category) code) textCode)
    {["code" := VString (TrimSpace (ve_Code e)); "field" := VString (TrimSpace (ve_Field e))]}.
Definition Exchange_ToServiceError (e : ExchangeError) : RichError :=
  let '(category, textCode, code) :=
    if (xe_StatusCode e =? StatusTooManyRequests)%Z then (CategoryRateLimit, ServiceErrorRateLimited, StatusTooManyRequests)
    else if (xe_StatusCode e =? StatusUnauthorized)%Z then (CategoryAuth, ServiceErrorUnauthorized, StatusUnauthorized)
    else if (xe_StatusCode e =? StatusForbidden)%Z then (CategoryAuthz, ServiceErrorForbidden, StatusForbidden)
    else (CategoryExternal, ServiceErrorEmbeddedExchangeFailed, if (400 <=? xe_StatusCode e)%Z then xe_StatusCode e else StatusBadGateway) in
  WithMetadata (WithTextCode (WithCode (goerrors_New (Exchange_Error e) category) code) textCode) {["exchange_error_code" := VString (TrimSpace (xe_ErrorCode e))]}.
End service_errors.

(** ** Shops *)

(** The host of [net.SplitHostPort]: one colon and no brackets, or an address in brackets before the only colon that follows them. *)
Definition SplitHostPort_host (s : string) : option string :=
  let has c t := bool_decide (c ∈ list_ascii_of_string t) in
  match s with
  | String "[" rest =>
    match SplitChar "]" rest with
    | [inner; String ":" port] => if has "["%char inner || has "["%char port || has ":"%char port then None else Some inner
    | _ => None
    end
  | _ => match SplitChar ":" s with
         | [host; port] => if has "["%char s || has "]"%char s then None else Some host
         | _ => None
         end
  end.

(** What the code reads of a parsed URL. *)
Record parsed_url := mkParsedURL {
  pu_Scheme : string; pu_Hostname : string; pu_User : bool; pu_Port : string; pu_RawQuery : string; pu_Fragment : string; pu_Path : string }.

Definition defaultShopifyDomainSuffix := ".myshopify.com".

Definition normalizeShopDomainStrict (v : string) : option string :=
  let trimmed := TrimSpace (ToLower v) in
  if String.eqb trimmed "" then None else if Contains trimmed "://" then None else if Contains trimmed "/" then None
  else if negb (Contains trimmed ".") then None else if negb (HasSuffix trimmed defaultShopifyDomainSuffix) then None else Some trimmed.
Definition validIssuerPath (path : string) : bool := let t := TrimSpace path in String.eqb t "/admin" || String.eqb t "/admin/".
Definition validDestinationPath (path : string) : bool := let t := TrimSpace path in String.eqb t "" || String.eqb t "/".

Definition audienceContains (v : value) (expected : string) : bool :=
  let expected := TrimSpace expected in
  if String.eqb expected "" then false
  else match v with
  | VString s => String.eqb (TrimSpace s) expected
  | VList l => existsb (λ item, String.eqb (TrimSpace (readAnyString item)) expected) l
  | VStrings l => existsb (λ item, String.eqb (TrimSpace item) expected) l
  | _ => false
  end.

(** ** Session tokens *)

Definition defaultClockSkew : Duration := (30 * Second)%Z.
Definition defaultMaxIssuedAtAge : Duration := (15 * Minute)%Z.
Record SessionTokenValidatorConfig := mkValidator { sv_AppSecret : string; sv_ClientID : string; sv_ClockSkew : Duration; sv_MaxIssuedAtAge : Duration }.
Definition NewSessionTokenValidator (cfg : SessionTokenValidatorConfig) : SessionTokenValidatorConfig :=
  mkValidator (TrimSpace (sv_AppSecret cfg)) (TrimSpace (sv_ClientID cfg)) (if (sv_ClockSkew cfg <=? 0)%Z then defaultClockSkew else sv_ClockSkew cfg)
    (if (sv_MaxIssuedAtAge cfg <=? 0)%Z then defaultMaxIssuedAtAge else sv_MaxIssuedAtAge cfg).

Record ValidateSessionTokenRequest := mkValidateRequest { vr_SessionToken : string; vr_ExpectedShopDomain : string }.
Record EmbeddedSessionClaims := mkClaims {
  sc_Issuer : string; sc_Destination : string; sc_Audience : string; sc_Subject : string; sc_JTI : string; sc_ShopDomain : string;
  sc_IssuedAt : Time; sc_NotBefore : Time; sc_ExpiresAt : Time; sc_Raw : gmap string value }.

Section embedded.
Context {MR : MapRange}.
Variable hmacSHA256 : string → string → string.
Variable json_Unmarshal : string → outcome string (gmap string value).
(** [url.Parse] *)
Variable parse_url : string → option parsed_url.
(** What the platform makes of a float that does not fit an integer. *)
Variable f2i_out_of_range : Z.

Definition invalid {A} (code field : string) (cause : embedded_sentinel) : outcome ValidationError A := Fail (mkValidationError code field (Sentinel cause)).

Definition decodeJWTSection (section : string) : option (gmap string value) :=
  match RawURLDecode (TrimSpace section) with
  | None => None
  | Some raw => match json_Unmarshal raw with Ok decoded => Some decoded | Fail _ => None end
  end.

Definition parseUnixClaim (v : value) : option Time :=
  match v with
  | VFloat64 m e _ => Some (timeUnix (float_to_int f2i_out_of_range m e))
  | VInt Int64K z | VInt IntK z => Some (timeUnix z)
  | VString s => timeUnix <$> ParseInt10 (TrimSpace s)
  | _ => None
  end.

Definition parseHTTPSURL (v : string) : option parsed_url :=
  match parse_url (TrimSpace v) with
  | None => None
  | Some u =>
    if negb (EqualFold (TrimSpace (pu_Scheme u)) "https") then None else if blank (pu_Hostname u) then None else if pu_User u then None
    else if negb (blank (pu_Port u)) then None else if negb (blank (pu_RawQuery u)) || negb (blank (pu_Fragment u)) then None else Some u
  end.

Definition normalizeShopDomain (v : string) : outcome string string :=
  let trimmed := TrimSpace (ToLower v) in
  if String.eqb trimmed "" then Fail "shop domain is required"
  else
    match (if Contains trimmed "://" then match parse_url trimmed with Some u => Ok (TrimSpace (ToLower (pu_Hostname u))) | None => Fail "parse" end else Ok trimmed) with
    | Fail err => Fail err
    | Ok trimmed =>
      let trimmed := match SplitHostPort_host trimmed with Some host => TrimSpace host | None => trimmed end in
      let trimmed := TrimSuffix trimmed "/" in
      if String.eqb trimmed "" || Contains trimmed "/" then Fail "invalid shop domain"
      else
        let trimmed := if negb (Contains trimmed ".") then trimmed +:+ defaultShopifyDomainSuffix else trimmed in
        if negb (HasSuffix trimmed defaultShopifyDomainSuffix) then Fail "shop domain must end with suffix" else Ok trimmed
    end.

(** The payload of a token whose signature is right. *)
Definition verified_payload (secret token : string) : outcome ValidationError (gmap string value) :=
  match SplitChar "." token with
  | [p0; p1; p2] =>
    match decodeJWTSection p0 with
    | None => invalid "header_decode_failed" "header" ErrInvalidSessionToken
    | Some header =>
      if negb (String.eqb (ToUpper (TrimSpace (readAnyString (mapGet header "alg")))) "HS256") then invalid "unsupported_alg" "alg" ErrUnsupportedJWTAlgorithm
      else match RawURLDecode p2 with
      | None => invalid "signature_decode_failed" "signature" ErrInvalidSessionToken
      | Some signatureRaw =>
        if negb (String.eqb (hmacSHA256 secret (p0 +:+ "." +:+ p1)) signatureRaw) then invalid "signature_mismatch" "signature" ErrInvalidSessionToken
        else match decodeJWTSection p1 with None => invalid "payload_decode_failed" "payload" ErrInvalidSessionToken | Some payload => Ok payload end
      end
    end
  | _ => invalid "token_malformed" "session_token" ErrInvalidSessionToken
  end.

(** Issuer, destination and the shop both name. *)
Definition session_shop (payload : gmap string value) : outcome ValidationError (string * string * string) :=
  let issuer := TrimSpace (readAnyString (mapGet payload "iss")) in
  let destination := TrimSpace (readAnyString (mapGet payload "dest")) in
  match parseHTTPSURL issuer with
  | None => invalid "invalid_iss" "iss" ErrInvalidSessionToken
  | Some issuerURL =>
    match parseHTTPSURL destination with
    | None => invalid "invalid_dest" "dest" ErrInvalidDestination
    | Some destinationURL =>
      if negb (validIssuerPath (pu_Path issuerURL)) then invalid "invalid_iss_path" "iss" ErrInvalidSessionToken
      else if negb (validDestinationPath (pu_Path destinationURL)) then invalid "invalid_dest_path" "dest" ErrInvalidDestination
      else match normalizeShopDomainStrict (pu_Hostname issuerURL) with
      | None => invalid "invalid_iss_host" "iss" ErrInvalidSessionToken
      | Some issuerShop =>
        match normalizeShopDomainStrict (pu_Hostname destinationURL) with
        | None => invalid "invalid_dest_host" "dest" ErrInvalidDestination
        | Some destinationShop =>
          if negb (EqualFold issuerShop destinationShop) then invalid "issuer_destination_mismatch" "iss,dest" ErrInvalidDestination
          else Ok (issuer, destination, destinationShop)
        end
      end
    end
  end.

Definition session_times (payload : gmap string value) : outcome ValidationError (Time * Time * Time) :=
  match parseUnixClaim (mapGet payload "exp") with
  | None => invalid "invalid_exp" "exp" ErrInvalidSessionToken
  | Some exp => match parseUnixClaim (mapGet payload "nbf") with
                | None => invalid "invalid_nbf" "nbf" ErrInvalidSessionToken
                | Some nbf => match parseUnixClaim (mapGet payload "iat") with
                              | None => invalid "invalid_iat" "iat" ErrInvalidSessionToken
                              | Some iat => Ok (exp, nbf, iat)
                              end
                end
  end.

Definition expected_shop_error (expected shop : string) : option ValidationError :=
  let err code cause := Some (mkValidationError code "expected_shop_domain" (Sentinel cause)) in
  let expectedShop := TrimSpace expected in
  if String.eqb expectedShop "" then None
  else match normalizeShopDomain expectedShop with
  | Fail _ => err "invalid_expected_shop" ErrInvalidSessionToken
  | Ok normalized => if EqualFold normalized shop then None else err "shop_mismatch" ErrInvalidDestination
  end.

Definition window_error (v : SessionTokenValidatorConfig) (now exp nbf iat : Time) : option ValidationError :=
  let err code field := Some (mkValidationError code field (Sentinel ErrInvalidSessionToken)) in
  let skew := sv_ClockSkew v in
  if After now (addTime exp skew) then err "token_expired" "exp"
  else if Before (addTime now skew) nbf then err "token_not_active" "nbf"
  else if Before (addTime now skew) iat then err "issued_in_future" "iat"
  else if Before (addTime exp skew) iat then err "invalid_time_window" "iat,exp"
  else if (0 <? sv_MaxIssuedAtAge v)%Z && After now (addTime iat (wrap64 (sv_MaxIssuedAtAge v + skew))) then err "issued_too_old" "iat"
  else None.

Definition ValidateSessionToken (v : SessionTokenValidatorConfig) (now : Time) (req : ValidateSessionTokenRequest) : outcome ValidationError EmbeddedSessionClaims :=
  let secret := TrimSpace (sv_AppSecret v) in
  let clientID := TrimSpace (sv_ClientID v) in
  let token := TrimSpace (vr_SessionToken req) in
  if String.eqb secret "" then invalid "app_secret_required" "app_secret" ErrInvalidSessionToken
  else if String.eqb clientID "" then invalid "client_id_required" "client_id" ErrInvalidAudience
  else if String.eqb token "" then invalid "session_token_required" "session_token" ErrInvalidSessionToken
  else match verified_payload secret token with
  | Fail err => Fail err
  | Ok payload =>
    match session_shop payload with
    | Fail err => Fail err
    | Ok (issuer, destination, shop) =>
      if negb (audienceContains (mapGet payload "aud") clientID) then invalid "aud_mismatch" "aud" ErrInvalidAudience
      else match session_times payload with
      | Fail err => Fail err
      | Ok (exp, nbf, iat) =>
        let jti := TrimSpace (readAnyString (mapGet payload "jti")) in
        if String.eqb jti "" then invalid "missing_jti" "jti" ErrMissingJTI
        else match expected_shop_error (vr_ExpectedShopDomain req) shop with
        | Some err => Fail err
        | None => match window_error v now exp nbf iat with
                  | Some err => Fail err
                  | None => Ok (mkClaims issuer destination clientID (TrimSpace (readAnyString (mapGet payload "sub"))) jti shop iat nbf exp payload)
                  end
        end
      end
    end
  end.

(** ** The exchange *)

Definition tokenExchangeGrantType := "urn:ietf:params:oauth:grant-type:token-exchange".
Definition subjectTokenTypeIDToken := "urn:ietf:params:oauth:token-type:id_token".
Definition requestedTypeOfflineURN := "urn:shopify:params:oauth:token-type:offline-access-token".
Definition requestedTypeOnlineURN := "urn:shopify:params:oauth:token-type:online-access-token".
Definition defaultExchangeRequestTimeout : Duration := (30 * Second)%Z.
Definition maxExchangeResponseBodyBytes : Z := 1048576.
Definition EmbeddedRequestedTokenTypeOffline := "offline".
Definition EmbeddedRequestedTokenTypeOnline := "online".

(** The mode and its URN; the text after the error is the value as [%q] prints it. *)
Definition resolveRequestedTokenType (quote : string → string) (v : string) : outcome embedded_cause (string * string) :=
  let normalized := ToLower (TrimSpace v) in
  if String.eqb normalized "" || String.eqb normalized EmbeddedRequestedTokenTypeOffline then Ok (EmbeddedRequestedTokenTypeOffline, requestedTypeOfflineURN)
  else if String.eqb normalized EmbeddedRequestedTokenTypeOnline then Ok (EmbeddedRequestedTokenTypeOnline, requestedTypeOnlineURN)
  else Fail (Wrapped ErrInvalidRequestedTokenType (quote v)).

Definition add_scope (out : list string) (part : string) : list string :=
  let part := TrimSpace part in if String.eqb part "" || bool_decide (part ∈ out) then out else out ++ [part].
Definition shop_scopes (v : string) : list string :=
  let trimmed := TrimSpace v in if String.eqb trimmed "" then [] else sortStrings (foldl add_scope [] (Fields (ReplaceAll trimmed "," " "))).

Definition sanitizeExchangeMetadata (payload : gmap string value) : gmap string value := delete "id_token" (delete "refresh_token" (delete "access_token" payload)).

Record ExchangeClientConfig := mkExchangeClient {
  xc_ClientID : string; xc_ClientSecret : string; xc_TokenRequestTimeout : Duration; xc_BuildTokenURL : string → outcome string string }.
(** The default builder; [url.URL] prints the host and the path after the scheme. *)
Definition defaultTokenURLBuilder (url_String : string → string → string → string) (shopDomain : string) : outcome string string :=
  match normalizeShopDomain shopDomain with
  | Fail err => Fail err
  | Ok normalized => Ok (url_String "https" normalized "/admin/oauth/access_token")
  end.
Definition NewSessionTokenExchangeClient (url_String : string → string → string → string) (clientID clientSecret : string) (timeout : Duration)
    (builder : option (string → outcome string string)) : ExchangeClientConfig :=
  mkExchangeClient (TrimSpace clientID) (TrimSpace clientSecret) (if (timeout <=? 0)%Z then defaultExchangeRequestTimeout else timeout)
    (default (defaultTokenURLBuilder url_String) builder).

Record ExchangeSessionTokenRequest := mkExchangeRequest { xr_ShopDomain : string; xr_SessionToken : string; xr_RequestedTokenType : string }.
Record EmbeddedAccessToken := mkAccessToken { ea_AccessToken : string; ea_TokenType : string; ea_Scope : list string; ea_ExpiresAt : option Time; ea_Metadata : gmap string value }.

Definition exchange_form (clientID clientSecret sessionToken urn : string) : Values :=
  Values_Set (Values_Set (Values_Set (Values_Set (Values_Set (Values_Set ∅ "grant_type" tokenExchangeGrantType) "subject_token" sessionToken)
    "subject_token_type" subjectTokenTypeIDToken) "requested_token_type" urn) "client_id" clientID) "client_secret" clientSecret.
Definition exchange_request (u : URL) (form : Values) : HttpRequest :=
  hr_set (hr_set (mkHttpRequest "POST" u ∅ (Some (Values_Encode form))) "Content-Type" "application/x-www-form-urlencoded") "Accept" "application/json".

Definition exchange_failed {A} (status : Z) (code message : string) (cause : embedded_cause) : outcome ExchangeError A := Fail (mkExchangeError status code message cause).

Definition exchange_response (now : Time) (shopDomain mode urn : string) (res : HttpResponse) : outcome ExchangeError EmbeddedAccessToken :=
  let failed := Sentinel ErrTokenExchangeFailed in
  if exceeds maxExchangeResponseBodyBytes res then exchange_failed 0 "" ("exchange response exceeds " +:+ Itoa maxExchangeResponseBodyBytes +:+ " bytes") failed
  else match hp_ReadError res with
  | Some err => exchange_failed 0 "" "read exchange response" (Foreign err)
  | None =>
    match (if blank (hp_Body res) then Ok ∅ else json_Unmarshal (hp_Body res)) with
    | Fail err => exchange_failed (hp_Status res) "" "decode exchange response" (Foreign err)
    | Ok payload =>
      let text k := TrimSpace (readAnyString (mapGet payload k)) in
      let errorCode := text "error" in
      let errorDescription := text "error_description" in
      if negb (status_ok res) || negb (String.eqb errorCode "") then
        exchange_failed (hp_Status res) errorCode (if String.eqb errorDescription "" then "shopify token exchange failed" else errorDescription) failed
      else if String.eqb (text "access_token") "" then exchange_failed (hp_Status res) "" "exchange response missing access token" failed
      else
        let tokenType := ToLower (text "token_type") in
        let expiresIn := readAnyInt64 f2i_out_of_range (mapGet payload "expires_in") in
        Ok (mkAccessToken (text "access_token") (if String.eqb tokenType "" then "bearer" else tokenType) (shop_scopes (readAnyString (mapGet payload "scope")))
              (if (0 <? expiresIn)%Z then Some (addTime now (wrap64 (expiresIn * Second))) else None)
              (<["shop_domain" := VString shopDomain]> (<["requested_token_mode" := VString mode]> (<["requested_token_type" := VString urn]> (sanitizeExchangeMetadata payload)))))
    end
  end.

(** [parseURL] is what [http.NewRequest] makes of the URL. *)
Definition ExchangeSessionToken (quote : string → string) (parseURL : string → outcome string URL) (c : ExchangeClientConfig) (client : HTTPDoer) (now : Time)
    (req : ExchangeSessionTokenRequest) : outcome ExchangeError EmbeddedAccessToken :=
  let clientID := TrimSpace (xc_ClientID c) in
  let clientSecret := TrimSpace (xc_ClientSecret c) in
  let failed := Sentinel ErrTokenExchangeFailed in
  if String.eqb clientID "" || String.eqb clientSecret "" then exchange_failed 0 "" "client id and client secret are required" failed
  else match normalizeShopDomain (xr_ShopDomain req) with
  | Fail err => exchange_failed 0 "" "invalid shop domain" (Foreign err)
  | Ok shopDomain =>
    let sessionToken := TrimSpace (xr_SessionToken req) in
    if String.eqb sessionToken "" then exchange_failed 0 "" "session token is required" failed
    else match xc_BuildTokenURL c shopDomain with
    | Fail err => exchange_failed 0 "" "resolve token url" (Foreign err)
    | Ok tokenURL =>
      match resolveRequestedTokenType quote (xr_RequestedTokenType req) with
      | Fail err => exchange_failed 0 "" "invalid requested token type" err
      | Ok (mode, urn) =>
        match parseURL tokenURL with
        | Fail err => exchange_failed 0 "" "build exchange request" (Foreign err)
        | Ok u => match client (exchange_request u (exchange_form clientID clientSecret sessionToken urn)) with
                  | Fail err => exchange_failed 0 "" "exchange request failed" (Foreign err)
                  | Ok res => exchange_response now shopDomain mode urn res
                  end
        end
      end
    end
  end.
End embedded.

(** ** The service *)

(** [core.ReplayLedger]: a claim is accepted or not; [ledger_Claim] reads the clock it is given. *)
Class ReplayLedger (L : Type) := ledger_Claim : L → Time → string → Duration → outcome replay_error bool * L.
#[export] Instance memory_replay_ledger {MR : MapRange} : ReplayLedger MemoryReplayLedger := Replay_Claim.

Inductive embedded_error :=
| EmScope (e : domain_error) | EmValidation (e : ValidationError) | EmLedger (e : replay_error) | EmReplay | EmExchange (e : ExchangeError).

Record EmbeddedAuthRequest := mkEmbeddedRequest {
  er_ProviderID : string; er_Scope : ScopeRef; er_SessionToken : string; er_ExpectedShopDomain : string; er_RequestedTokenType : string; er_ReplayTTL : Duration }.
Record EmbeddedAuthResult := mkEmbeddedResult {
  em_ProviderID : string; em_Scope : ScopeRef; em_ShopDomain : string; em_ExternalAccountID : string; em_Claims : EmbeddedSessionClaims; em_Token : EmbeddedAccessToken;
  em_Credential : ActiveCredential; em_Metadata : gmap string value }.

(** [SessionTokenValidator] and [SessionTokenExchanger], with the clock they read. *)
Abbreviation SessionTokenValidator := (Time → ValidateSessionTokenRequest → outcome ValidationError EmbeddedSessionClaims).
Abbreviation SessionTokenExchanger := (Time → ExchangeSessionTokenRequest → outcome ExchangeError EmbeddedAccessToken).

Definition defaultProviderID := "shopify".
Record EmbeddedService := mkEmbeddedService {
  es_ProviderID : string; es_ExpectedShopDomain : string; es_ReplayTTL : Duration; es_validator : SessionTokenValidator; es_exchanger : SessionTokenExchanger }.
(** The service with the parts it was given or made. *)
Definition NewService (providerID expectedShop : string) (replayTTL : Duration) (validator : SessionTokenValidator) (exchanger : SessionTokenExchanger) : EmbeddedService :=
  mkEmbeddedService (if blank providerID then defaultProviderID else TrimSpace providerID) (TrimSpace expectedShop) (if (replayTTL <=? 0)%Z then (5 * Minute)%Z else replayTTL)
    validator exchanger.
(** The ledger it makes if it was given none. *)
Definition NewService_ledger (replayTTL : Duration) (maxEntries : Z) : MemoryReplayLedger :=
  NewMemoryReplayLedgerWithLimits (if (replayTTL <=? 0)%Z then (5 * Minute)%Z else replayTTL) maxEntries.

Definition buildReplayKey (providerID shopDomain jti : string) : string := TrimSpace providerID +:+ ":" +:+ TrimSpace shopDomain +:+ ":" +:+ TrimSpace jti.

Definition embedded_result (s : EmbeddedService) (req : EmbeddedAuthRequest) (mode : string) (claims : EmbeddedSessionClaims) (token : EmbeddedAccessToken) : EmbeddedAuthResult :=
  let shop := sc_ShopDomain claims in
  let tokenType := ToLower (TrimSpace (ea_TokenType token)) in
  let metadata : gmap string value :=
    {["provider_id" := VString (es_ProviderID s); "shop_domain" := VString shop; "requested_token_type" := VString mode; "embedded_session_jti" := VString (sc_JTI claims)]} in
  let credential := mkActiveCredential "" (if String.eqb tokenType "" then "bearer" else tokenType) (ea_AccessToken token) "" (ea_Scope token) (ea_Scope token)
    (ea_ExpiresAt token) false None (mapsCopy (<["embedded_session_dest" := VString (sc_Destination claims)]> metadata) (ea_Metadata token)) in
  mkEmbeddedResult (es_ProviderID s) (er_Scope req) shop shop claims token credential metadata.

Section service.
Context {L : Type} {RL : ReplayLedger L}.
Variable quote : string → string.

Definition effective_replay_ttl (s : EmbeddedService) (req : EmbeddedAuthRequest) : Duration := if (er_ReplayTTL req <=? 0)%Z then es_ReplayTTL s else er_ReplayTTL req.

(** [now] is the clock of the service, [clock] that of the ledger. *)
Definition AuthenticateEmbedded (s : EmbeddedService) (ledger : L) (now clock : Time) (req : EmbeddedAuthRequest) : outcome embedded_error EmbeddedAuthResult * L :=
  match ScopeRef_Validate (er_Scope req) with
  | Fail err => (Fail (EmScope err), ledger)
  | Ok _ =>
    let sessionToken := TrimSpace (er_SessionToken req) in
    if String.eqb sessionToken "" then (Fail (EmValidation (mkValidationError "session_token_required" "session_token" (Sentinel ErrInvalidSessionToken))), ledger)
    else
      let expectedShop := if blank (er_ExpectedShopDomain req) then es_ExpectedShopDomain s else TrimSpace (er_ExpectedShopDomain req) in
      match es_validator s now (mkValidateRequest sessionToken expectedShop) with
      | Fail err => (Fail (EmValidation err), ledger)
      | Ok claims =>
        match resolveRequestedTokenType quote (er_RequestedTokenType req) with
        | Fail err => (Fail (EmValidation (mkValidationError "invalid_requested_token_type" "requested_token_type" err)), ledger)
        | Ok (mode, _) =>
          match ledger_Claim ledger clock (buildReplayKey (es_ProviderID s) (sc_ShopDomain claims) (sc_JTI claims)) (effective_replay_ttl s req) with
          | (Fail err, ledger) => (Fail (EmLedger err), ledger)
          | (Ok false, ledger) => (Fail EmReplay, ledger)
          | (Ok true, ledger) =>
            match es_exchanger s now (mkExchangeRequest (sc_ShopDomain claims) sessionToken mode) with
            | Fail err => (Fail (EmExchange err), ledger)
            | Ok token => (Ok (embedded_result s req mode claims token), ledger)
            end
          end
        end
      end
  end.
End service.

(** ** What an accepted token is *)

Section facts.
Context {MR : MapRange}.
Variable hmacSHA256 : string → string → string.
Variable json_Unmarshal : string → outcome string (gmap string value).
Variable parse_url : string → option parsed_url.
Variable oor : Z.
Abbreviation validate := (ValidateSessionToken hmacSHA256 json_Unmarshal parse_url oor).

(** The claims that a payload makes, whenever the token is presented. *)
Definition claims_of (v : SessionTokenValidatorConfig) (payload : gmap string value) (issuer destination shop : string) (exp nbf iat : Time) : EmbeddedSessionClaims :=
  mkClaims issuer destination (TrimSpace (sv_ClientID v)) (TrimSpace (readAnyString (mapGet payload "sub"))) (TrimSpace (readAnyString (mapGet payload "jti"))) shop iat nbf exp payload.

Lemma validate_ok v now req claims : validate v now req = Ok claims →
  ∃ payload issuer destination shop exp nbf iat,
    TrimSpace (sv_AppSecret v) ≠ "" ∧ TrimSpace (sv_ClientID v) ≠ "" ∧
    verified_payload hmacSHA256 json_Unmarshal (TrimSpace (sv_AppSecret v)) (TrimSpace (vr_SessionToken req)) = Ok payload ∧
    session_shop parse_url payload = Ok (issuer, destination, shop) ∧ audienceContains (mapGet payload "aud") (TrimSpace (sv_ClientID v)) = true ∧
    session_times oor payload = Ok (exp, nbf, iat) ∧ TrimSpace (readAnyString (mapGet payload "jti")) ≠ "" ∧
    expected_shop_error parse_url (vr_ExpectedShopDomain req) shop = None ∧ window_error v now exp nbf iat = None ∧ claims = claims_of v payload issuer destination shop exp nbf iat.
Proof.
  unfold ValidateSessionToken. cbv zeta. destruct (String.eqb_spec (TrimSpace (sv_AppSecret v)) "") as [|Hs]; [done|].
  destruct (String.eqb_spec (TrimSpace (sv_ClientID v)) "") as [|Hc]; [done|]. destruct (String.eqb _ ""); [done|].
  destruct (verified_payload _ _ _ _) as [payload|] eqn:Hp; [|done]. destruct (session_shop _ _) as [[[issuer destination] shop]|] eqn:Hsh; [|done].
  destruct (audienceContains _ _) eqn:Ha; [|done]. cbn [negb]. destruct (session_times _ _) as [[[exp nbf] iat]|] eqn:Ht; [|done].
  destruct (String.eqb_spec (TrimSpace (readAnyString (mapGet payload "jti"))) "") as [|Hj]; [done|].
  destruct (expected_shop_error _ _ _) eqn:He; [done|]. destruct (window_error _ _ _ _ _) eqn:Hw; [done|]. intros [= <-]. exists payload, issuer, destination, shop, exp, nbf, iat. done.
Qed.

Lemma window_ok v now exp nbf iat : window_error v now exp nbf iat = None →
  (now ≤ exp + sv_ClockSkew v)%Z ∧ (nbf ≤ now + sv_ClockSkew v)%Z ∧ (iat ≤ now + sv_ClockSkew v)%Z ∧ (iat ≤ exp + sv_ClockSkew v)%Z ∧
  ((0 < sv_MaxIssuedAtAge v)%Z → (now ≤ iat + wrap64 (sv_MaxIssuedAtAge v + sv_ClockSkew v))%Z).
Proof.
  unfold window_error, After, Before, addTime. cbv zeta. intros H.
  destruct (Z.ltb_spec (exp + sv_ClockSkew v) now); [done|]. destruct (Z.ltb_spec (now + sv_ClockSkew v) nbf); [done|].
  destruct (Z.ltb_spec (now + sv_ClockSkew v) iat); [done|]. destruct (Z.ltb_spec (exp + sv_ClockSkew v) iat); [done|].
  split_and!; [lia..|]. intros Hage. destruct (Z.ltb_spec 0 (sv_MaxIssuedAtAge v)); [|lia]. cbn [andb] in H. destruct (Z.ltb_spec (iat + wrap64 (sv_MaxIssuedAtAge v + sv_ClockSkew v)) now); [done|lia].
Qed.

Lemma verified_ok secret token payload : verified_payload hmacSHA256 json_Unmarshal secret token = Ok payload →
  ∃ header body signature, SplitChar "." token = [header; body; signature] ∧ RawURLDecode signature = Some (hmacSHA256 secret (header +:+ "." +:+ body)) ∧
    decodeJWTSection json_Unmarshal body = Some payload.
Proof.
  unfold verified_payload. destruct (SplitChar "." token) as [|p0 [|p1 [|p2 [|]]]]; try done. destruct (decodeJWTSection _ p0) as [h|]; [|done]. destruct (String.eqb _ "HS256"); [|done]. cbn [negb].
  destruct (RawURLDecode p2) as [sig|] eqn:Hs; [|done]. destruct (String.eqb_spec (hmacSHA256 secret (p0 +:+ "." +:+ p1)) sig) as [<-|]; [|done]. cbn [negb].
  destruct (decodeJWTSection _ p1) as [p|] eqn:Hp; [|done]. intros [= <-]. exists p0, p1, p2. done.
Qed.

Lemma shop_ok payload issuer destination shop : session_shop parse_url payload = Ok (issuer, destination, shop) →
  HasSuffix shop defaultShopifyDomainSuffix = true ∧ Contains shop "/" = false ∧
  ∃ iu du, parseHTTPSURL parse_url issuer = Some iu ∧ parseHTTPSURL parse_url destination = Some du ∧ TrimSpace (ToLower (pu_Hostname iu)) = shop ∧ TrimSpace (ToLower (pu_Hostname du)) = shop.
Proof.
  unfold session_shop. cbv zeta. destruct (parseHTTPSURL _ _) as [iu|] eqn:Hi; [|done]. destruct (parseHTTPSURL _ (TrimSpace (readAnyString (mapGet payload "dest")))) as [du|] eqn:Hd; [|done].
  destruct (validIssuerPath _); [|done]. destruct (validDestinationPath _); [|done]. cbn [negb].
  assert (Hstrict : ∀ h x, normalizeShopDomainStrict h = Some x → x = TrimSpace (ToLower h) ∧ HasSuffix x defaultShopifyDomainSuffix = true ∧ Contains x "/" = false).
  { intros h x. unfold normalizeShopDomainStrict. cbv zeta. destruct (String.eqb _ ""); [done|]. destruct (Contains _ "://"); [done|]. destruct (Contains _ "/") eqn:Hsl; [done|].
    destruct (Contains _ "."); [|done]. destruct (HasSuffix _ _) eqn:Hsf; [|done]. by intros [= <-]. }
  destruct (normalizeShopDomainStrict (pu_Hostname iu)) as [ishop|] eqn:Hi2; [|done]. destruct (normalizeShopDomainStrict (pu_Hostname du)) as [dshop|] eqn:Hd2; [|done].
  destruct (EqualFold ishop dshop) eqn:He; [|done]. intros [= <- <- <-]. apply Hstrict in Hi2 as (-> & Hs1 & _). apply Hstrict in Hd2 as (-> & Hs2 & Hs3).
  apply EqualFold_eq in He. fold (lowerTrim (pu_Hostname iu)) in He. fold (lowerTrim (pu_Hostname du)) in He. rewrite !ToLower_lowerTrim in He.
  split_and!; [done|done|]. exists iu, du. done.
Qed.

(** A session token that is accepted is authentic, addressed to this app, for one shop, and current.  It has three parts, of which the last is the HMAC of the
    other two under the app's secret; the app is in its audience; issuer and destination are HTTPS URLs without user, port, query or fragment on one shop under
    myshopify.com, which is the expected one if one is expected; it has an identifier; and the time is within its window, give or take the clock skew, and not
    past the greatest age. *)
Theorem session_token_accepted v now req claims : validate v now req = Ok claims →
  (∃ header body signature, SplitChar "." (TrimSpace (vr_SessionToken req)) = [header; body; signature] ∧ TrimSpace (sv_AppSecret v) ≠ "" ∧
     RawURLDecode signature = Some (hmacSHA256 (TrimSpace (sv_AppSecret v)) (header +:+ "." +:+ body)) ∧ decodeJWTSection json_Unmarshal body = Some (sc_Raw claims)) ∧
  audienceContains (mapGet (sc_Raw claims) "aud") (sc_Audience claims) = true ∧ sc_Audience claims = TrimSpace (sv_ClientID v) ∧
  (∃ iu du, parseHTTPSURL parse_url (sc_Issuer claims) = Some iu ∧ parseHTTPSURL parse_url (sc_Destination claims) = Some du ∧
     TrimSpace (ToLower (pu_Hostname iu)) = sc_ShopDomain claims ∧ TrimSpace (ToLower (pu_Hostname du)) = sc_ShopDomain claims) ∧
  HasSuffix (sc_ShopDomain claims) defaultShopifyDomainSuffix = true ∧ sc_JTI claims ≠ "" ∧
  (blank (vr_ExpectedShopDomain req) = false → ∃ shop, normalizeShopDomain parse_url (TrimSpace (vr_ExpectedShopDomain req)) = Ok shop ∧ EqualFold shop (sc_ShopDomain claims) = true) ∧
  (now ≤ sc_ExpiresAt claims + sv_ClockSkew v)%Z ∧ (sc_NotBefore claims ≤ now + sv_ClockSkew v)%Z ∧ (sc_IssuedAt claims ≤ now + sv_ClockSkew v)%Z ∧
  ((0 < sv_MaxIssuedAtAge v)%Z → (now ≤ sc_IssuedAt claims + wrap64 (sv_MaxIssuedAtAge v + sv_ClockSkew v))%Z).
Proof.
  intros (payload & issuer & destination & shop & exp & nbf & iat & Hs & Hc & Hp & Hsh & Ha & Ht & Hj & He & Hw & ->)%validate_ok.
  apply verified_ok in Hp as (header & body & signature & Hsplit & Hsig & Hbody). apply shop_ok in Hsh as (Hsuf & _ & iu & du & Hiu & Hdu & Hih & Hdh).
  apply window_ok in Hw as (H1 & H2 & H3 & _ & H5). cbn. split_and!; try done; [by exists header, body, signature|by exists iu, du|].
  intros Hb. unfold expected_shop_error in He. cbv zeta in He. unfold blank in Hb. rewrite Hb in He. destruct (normalizeShopDomain _ _) as [x|]; [|done]. exists x. split; [done|].
  by destruct (EqualFold x shop).
Qed.

(** ** A token is used once *)

Variable quote : string → string.
Abbreviation auth := (AuthenticateEmbedded (RL := memory_replay_ledger) quote).

(** A claim while there is room keeps the entries that have not expired. *)
Lemma claim_keeps l now key ttl k e : ledger_wf l → (Z.of_nat (size (rl_pruneExpiredLocked (rl_entries l) now)) < rl_maxEntries l)%Z →
  rl_entries l !! k = Some e → (now < e)%Z → rl_entries (Replay_Claim l now key ttl).2 !! k = Some e.
Proof.
  intros Hwf Hroom Hk Hlt. destruct (decide (TrimSpace key = "")) as [E|E]; [unfold Replay_Claim; rewrite E; done|].
  assert (Hp : rl_pruneExpiredLocked (rl_entries l) now !! k = Some e) by (by apply prune_lookup).
  destruct (Replay_Claim_cases l now key ttl Hwf E) as [(e' & _ & _ & ->)|[Hn ->]]; [done|]. cbn. destruct Hwf as (W1 & W2 & _).
  destruct (enforce_spec l _ (prune_no_empty _ now W1) W2) as (_ & _ & _ & ->); [|done]. rewrite lookup_insert_ne; [done|]. intros <-. congruence.
Qed.

(** What an authentication does to the ledger: nothing, or the claim of its key. *)
Lemma auth_ledger s l now req : (auth s l now now req).2 = l ∨ ∃ key ttl, (auth s l now now req).2 = (Replay_Claim l now key ttl).2.
Proof.
  unfold AuthenticateEmbedded. destruct (ScopeRef_Validate _); [|by left]. cbv zeta. destruct (String.eqb _ ""); [by left|]. destruct (es_validator s _ _) as [claims|]; [|by left].
  destruct (resolveRequestedTokenType _ _) as [[mode ?]|]; [|by left]. right.
  exists (buildReplayKey (es_ProviderID s) (sc_ShopDomain claims) (sc_JTI claims)), (effective_replay_ttl s req). unfold ledger_Claim, memory_replay_ledger.
  destruct (Replay_Claim _ _ _ _) as [[[|]|] l']; try done. by destruct (es_exchanger s _ _).
Qed.
Lemma auth_ok s l now req a l' : auth s l now now req = (Ok a, l') →
  ∃ expected mode, es_validator s now (mkValidateRequest (TrimSpace (er_SessionToken req)) expected) = Ok (em_Claims a) ∧
    Replay_Claim l now (buildReplayKey (es_ProviderID s) (sc_ShopDomain (em_Claims a)) (sc_JTI (em_Claims a))) (effective_replay_ttl s req) = (Ok true, l') ∧
    es_exchanger s now (mkExchangeRequest (sc_ShopDomain (em_Claims a)) (TrimSpace (er_SessionToken req)) mode) = Ok (em_Token a).
Proof.
  unfold AuthenticateEmbedded. destruct (ScopeRef_Validate _); [|done]. cbv zeta. destruct (String.eqb _ ""); [done|]. destruct (es_validator s _ _) as [claims|] eqn:Hv; [|done].
  destruct (resolveRequestedTokenType _ _) as [[mode ?]|]; [|done]. unfold ledger_Claim, memory_replay_ledger. destruct (Replay_Claim _ _ _ _) as [[[|]|] l1] eqn:Hc; try done.
  destruct (es_exchanger s _ _) as [token|] eqn:Hx; [|done]. intros [= <- <-]. cbn. eauto.
Qed.

(** The ledger after a number of requests, each with its time, and that there is room in it at each of them. *)
Definition after_requests (s : EmbeddedService) (l : MemoryReplayLedger) (reqs : list (Time * EmbeddedAuthRequest)) : MemoryReplayLedger :=
  foldl (λ l r, (auth s l r.1 r.1 r.2).2) l reqs.
Fixpoint roomy (s : EmbeddedService) (l : MemoryReplayLedger) (reqs : list (Time * EmbeddedAuthRequest)) : Prop :=
  match reqs with
  | [] => True
  | r :: reqs => (Z.of_nat (size (rl_pruneExpiredLocked (rl_entries l) r.1)) < rl_maxEntries l)%Z ∧ roomy s (auth s l r.1 r.1 r.2).2 reqs
  end.

Lemma auth_wf s l now req : ledger_wf l → ledger_wf (auth s l now now req).2.
Proof. intros H. destruct (auth_ledger s l now req) as [->|(key & ttl & ->)]; auto using Replay_Claim_wf. Qed.
Lemma after_requests_wf s l reqs : ledger_wf l → ledger_wf (after_requests s l reqs).
Proof. revert l. induction reqs as [|r reqs IH]; intros l H; [done|]. cbn. apply IH. by apply auth_wf. Qed.
Lemma after_requests_keep s l reqs k e : ledger_wf l → roomy s l reqs → Forall (λ r, r.1 < e)%Z reqs → rl_entries l !! k = Some e → rl_entries (after_requests s l reqs) !! k = Some e.
Proof.
  revert l. induction reqs as [|r reqs IH]; intros l Hwf Hroom Ht Hk; [done|]. destruct Hroom as [Hr Hroom]. apply Forall_cons in Ht as [Hlt Ht]. cbn.
  apply IH; [by apply auth_wf|done|done|]. destruct (auth_ledger s l r.1 r.2) as [->|(key & ttl & ->)]; [done|]. by apply claim_keeps.
Qed.

Lemma claim_stores l now key ttl l' : ledger_wf l → Replay_Claim l now key ttl = (Ok true, l') →
  TrimSpace key ≠ "" ∧ rl_entries l' !! TrimSpace key = Some (now + (if (ttl <=? 0)%Z then rl_defaultTTL l else ttl))%Z.
Proof.
  intros Hwf Hc. destruct (decide (TrimSpace key = "")) as [E|E]; [unfold Replay_Claim in Hc; by rewrite E in Hc|]. split; [done|].
  destruct (Replay_Claim_cases l now key ttl Hwf E) as [(e & _ & _ & Hr)|[_ Hr]]; rewrite Hr in Hc; [done|]. injection Hc as <-. cbn. apply lookup_insert_eq.
Qed.
Lemma claim_live l now key ttl e : ledger_wf l → rl_entries l !! TrimSpace key = Some e → (now < e)%Z → (Replay_Claim l now key ttl).1 ≠ Ok true.
Proof.
  intros Hwf Hk Hlt Hc. destruct (decide (TrimSpace key = "")) as [E|E]; [unfold Replay_Claim in Hc; by rewrite E in Hc|].
  destruct (Replay_Claim_cases l now key ttl Hwf E) as [(e' & _ & _ & Hr)|[Hn Hr]]; rewrite Hr in Hc; [done|].
  assert (Hp : rl_pruneExpiredLocked (rl_entries l) now !! TrimSpace key = Some e) by (by apply prune_lookup). congruence.
Qed.

(** The claims of a token are the same whenever it is presented. *)
Lemma same_claims v now1 now2 token expected1 expected2 c1 c2 : validate v now1 (mkValidateRequest token expected1) = Ok c1 →
  validate v now2 (mkValidateRequest token expected2) = Ok c2 → c1 = c2.
Proof.
  intros (p1 & i1 & d1 & s1 & e1 & n1 & a1 & _ & _ & Hp1 & Hs1 & _ & Ht1 & _ & _ & _ & ->)%validate_ok (p2 & i2 & d2 & s2 & e2 & n2 & a2 & _ & _ & Hp2 & Hs2 & _ & Ht2 & _ & _ & _ & ->)%validate_ok.
  cbn in Hp1, Hp2. rewrite Hp1 in Hp2. injection Hp2 as <-. rewrite Hs1 in Hs2. injection Hs2 as <- <- <-. rewrite Ht1 in Ht2. by injection Ht2 as <- <- <-.
Qed.

Lemma validate_window v now req claims : validate v now req = Ok claims → (sc_IssuedAt claims ≤ now + sv_ClockSkew v)%Z ∧
  ((0 < sv_MaxIssuedAtAge v)%Z → (now ≤ sc_IssuedAt claims + wrap64 (sv_MaxIssuedAtAge v + sv_ClockSkew v))%Z).
Proof. intros (? & ? & ? & ? & ? & ? & ? & _ & _ & _ & _ & _ & _ & _ & _ & Hw & ->)%validate_ok. apply window_ok in Hw as (_ & _ & H3 & _ & H5). done. Qed.

(** C13: a session token is exchanged at most once per replay window.  If one token is exchanged twice by a service on the in-memory ledger, and there is room in
    the ledger at every request between, then the second time is no sooner than the replay time-to-live after the first, and no later than the greatest age
    and twice the clock skew after it; so that with a longer time-to-live no token is ever exchanged twice. *)
Theorem session_token_once cfg providerID expected ttl exchanger l n1 r1 a1 l1 mid n2 r2 a2 l2 :
  let v := NewSessionTokenValidator cfg in
  let s := NewService providerID expected ttl (validate v) exchanger in
  (sv_MaxIssuedAtAge v + sv_ClockSkew v < 2 ^ 63)%Z → ledger_wf l → TrimSpace (er_SessionToken r1) = TrimSpace (er_SessionToken r2) →
  auth s l n1 n1 r1 = (Ok a1, l1) → roomy s l1 mid → Forall (λ r, r.1 ≤ n2)%Z mid → auth s (after_requests s l1 mid) n2 n2 r2 = (Ok a2, l2) →
  (n1 + effective_replay_ttl s r1 ≤ n2 ≤ n1 + sv_MaxIssuedAtAge v + 2 * sv_ClockSkew v)%Z.
Proof.
  intros v s Hfit Hwf Htok H1 Hroom Hmid H2. assert (Hwf1 : ledger_wf l1) by (change l1 with (Ok (E := embedded_error) a1, l1).2; rewrite <-H1; by apply auth_wf).
  apply auth_ok in H1 as (x1 & m1 & Hv1 & Hc1 & _). apply auth_ok in H2 as (x2 & m2 & Hv2 & Hc2 & _). cbn [es_validator s NewService] in Hv1, Hv2. rewrite Htok in Hv1.
  pose proof (same_claims _ _ _ _ _ _ _ _ Hv1 Hv2) as Hsame. assert (Hpos : (0 < effective_replay_ttl s r1)%Z).
  { unfold effective_replay_ttl, s, NewService. cbn. unfold Minute. destruct (Z.leb_spec (er_ReplayTTL r1) 0); [destruct (Z.leb_spec ttl 0)|]; lia. }
  apply claim_stores in Hc1 as [Hk He]; [|done]. destruct (Z.leb_spec (effective_replay_ttl s r1) 0) as [|_] in He; [lia|]. rewrite Hsame in Hk, He. split.
  - destruct (Z.le_gt_cases (n1 + effective_replay_ttl s r1) n2) as [|Hgt]; [done|]. exfalso.
    assert (He2 : rl_entries (after_requests s l1 mid) !! TrimSpace (buildReplayKey (es_ProviderID s) (sc_ShopDomain (em_Claims a2)) (sc_JTI (em_Claims a2))) = Some (n1 + effective_replay_ttl s r1)%Z).
    { apply after_requests_keep; try done. eapply Forall_impl; [exact Hmid|]. cbn. lia. }
    eapply claim_live; [apply after_requests_wf, Hwf1|exact He2|exact Hgt|]. by rewrite Hc2.
  - apply validate_window in Hv1 as [Hi1 _]. apply validate_window in Hv2 as [_ Hage]. rewrite <-Hsame in Hage.
    assert (Hp : (0 < sv_MaxIssuedAtAge v)%Z ∧ (0 < sv_ClockSkew v)%Z).
    { unfold v, NewSessionTokenValidator, defaultMaxIssuedAtAge, defaultClockSkew, Minute, Second. cbn. destruct (Z.leb_spec (sv_MaxIssuedAtAge cfg) 0), (Z.leb_spec (sv_ClockSkew cfg) 0); lia. }
    destruct Hp as [Hp1 Hp2]. specialize (Hage Hp1). unfold wrap64 in Hage. rewrite Z.mod_small in Hage by lia. lia.
Qed.
End facts.

(** ** Errors as the service reports them (src/core/service.go, [AuthenticateEmbedded]) *)

Section reported.
Context {GE : GoErrors}.
Variable scope_error_text : domain_error → string.

(** The [error] each failure is. *)
Definition embedded_error_value (e : embedded_error) : GoError :=
  match e with
  | EmScope e => plainError (scope_error_text e)
  | EmValidation e => mkGoError (Validation_Error e) None (Some (Some (Validation_ToServiceError e))) []
  | EmLedger ErrReplayKeyRequired => plainError "core: replay key is required"
  | EmReplay => plainError (embedded_text ErrReplayDetected)
  | EmExchange e => mkGoError (Exchange_Error e) None (Some (Some (Exchange_ToServiceError e))) []
  end.

(** [Service.AuthenticateEmbedded]: a provider is resolved by its id, and may be one for embedded apps; [embedded] is its method and what it leaves behind. *)
Definition Service_AuthenticateEmbedded {P L : Type} (resolve : string → outcome GoError P) (provider_ID : P → string) (quote : string → string)
    (embedded : P → option (L → EmbeddedAuthRequest → outcome GoError EmbeddedAuthResult * L)) (ledger : L) (req : EmbeddedAuthRequest)
    : outcome GoError EmbeddedAuthResult * L :=
  match ScopeRef_Validate (er_Scope req) with
  | Fail e => (Fail (mapError (plainError (scope_error_text e))), ledger)
  | Ok _ =>
    let providerID := TrimSpace (er_ProviderID req) in
    if String.eqb providerID "" then (Fail (mapError (plainError "core: provider id is required")), ledger)
    else match resolve providerID with
    | Fail err => (Fail err, ledger)
    | Ok provider =>
      match embedded provider with
      | None => (Fail (mapError (mkGoError ("core: embedded auth not supported for provider " +:+ quote providerID) None None [IsEmbeddedAuthUnsupported])), ledger)
      | Some authenticate =>
        match authenticate ledger (mkEmbeddedRequest (provider_ID provider) (er_Scope req) (er_SessionToken req) (er_ExpectedShopDomain req) (er_RequestedTokenType req) (er_ReplayTTL req)) with
        | (Fail err, ledger) => (Fail (mapError err), ledger)
        | (Ok r, ledger) =>
          (Ok (mkEmbeddedResult (if blank (em_ProviderID r) then provider_ID provider else em_ProviderID r) (em_Scope r) (em_ShopDomain r) (em_ExternalAccountID r) (em_Claims r)
                 (em_Token r) (em_Credential r) (em_Metadata r)), ledger)
        end
      end
    end
  end.

Definition token_sentinel (e : embedded_sentinel) : bool :=
  match e with ErrInvalidSessionToken | ErrUnsupportedJWTAlgorithm | ErrInvalidAudience | ErrInvalidDestination | ErrMissingJTI => true | _ => false end.
Definition token_invalid (ve : ValidationError) : Prop := ∃ e, ve_Cause ve = Sentinel e ∧ token_sentinel e = true.

Lemma invalid_token {A} code field cause ve : token_sentinel cause = true → @invalid A code field cause = Fail ve → token_invalid ve.
Proof. intros Hc [= <-]. by exists cause. Qed.

Ltac token_cases := unfold invalid in *; repeat case_match; intros; simplify_eq; eexists; split; reflexivity.

Lemma verified_fails hmac ju secret token ve : verified_payload hmac ju secret token = Fail ve → token_invalid ve.
Proof. unfold verified_payload. token_cases. Qed.
Lemma shop_fails pu payload ve : session_shop pu payload = Fail ve → token_invalid ve.
Proof. unfold session_shop. token_cases. Qed.
Lemma times_fail oor payload ve : session_times oor payload = Fail ve → token_invalid ve.
Proof. unfold session_times. token_cases. Qed.
Lemma expected_fails pu expected shop ve : expected_shop_error pu expected shop = Some ve → token_invalid ve.
Proof. unfold expected_shop_error. token_cases. Qed.
Lemma window_fails v now exp nbf iat ve : window_error v now exp nbf iat = Some ve → token_invalid ve.
Proof. unfold window_error. token_cases. Qed.
Lemma validate_fails hmac ju pu oor v now req ve : ValidateSessionToken hmac ju pu oor v now req = Fail ve → token_invalid ve.
Proof.
  unfold ValidateSessionToken. cbv zeta. do 3 (destruct (String.eqb _ ""); [by apply invalid_token|]). destruct (verified_payload _ _ _ _) eqn:H1; [|intros [= <-]; by eapply verified_fails].
  destruct (session_shop _ _) as [[[? ?] ?]|] eqn:H2; [|intros [= <-]; by eapply shop_fails]. destruct (audienceContains _ _); [|by apply invalid_token].
  destruct (session_times _ _) as [[[? ?] ?]|] eqn:H3; [|intros [= <-]; by eapply times_fail]. destruct (String.eqb _ ""); [by apply invalid_token|].
  destruct (expected_shop_error _ _ _) eqn:H4; [intros [= <-]; by eapply expected_fails|]. destruct (window_error _ _ _ _ _) eqn:H5; [intros [= <-]; by eapply window_fails|done].
Qed.

Lemma ensure_fields e : re_Code e ≠ 0%Z → blank (re_TextCode e) = false →
  re_Code (ensureServiceErrorEnvelope e) = re_Code e ∧ re_TextCode (ensureServiceErrorEnvelope e) = re_TextCode e ∧ re_Metadata (ensureServiceErrorEnvelope e) = re_Metadata e.
Proof. intros Hc%Z.eqb_neq Ht. unfold ensureServiceErrorEnvelope. rewrite Hc, Ht. by case_match. Qed.

(** What a caller is told when an embedded app cannot be authenticated.  Whatever is wrong with its session token, the answer is 401 with the code for an invalid
    session, and names the check that failed; a token that was used before is a conflict, told as a replay; and a failed exchange keeps the status of the
    shop's answer, with a code of its own for rate limits and refusals. *)
Theorem embedded_errors_reported :
  (∀ hmac ju pu oor v now req ve, ValidateSessionToken hmac ju pu oor v now req = Fail ve →
     ∃ r, err_Rich (mapError (embedded_error_value (EmValidation ve))) = Some r ∧ re_Code r = StatusUnauthorized ∧ re_TextCode r = ServiceErrorEmbeddedSessionInvalid ∧
          re_Metadata r !! "code" = Some (VString (TrimSpace (ve_Code ve)))) ∧
  (∃ r, err_Rich (mapError (embedded_error_value EmReplay)) = Some r ∧ re_TextCode r = ServiceErrorReplayDetected ∧ re_Category r = CategoryConflict) ∧
  (∀ xe, ∃ r, err_Rich (mapError (embedded_error_value (EmExchange xe))) = Some r ∧
     re_Code r = (if (400 <=? xe_StatusCode xe)%Z then xe_StatusCode xe else StatusBadGateway) ∧
     re_TextCode r = (if (xe_StatusCode xe =? StatusTooManyRequests)%Z then ServiceErrorRateLimited else if (xe_StatusCode xe =? StatusUnauthorized)%Z then ServiceErrorUnauthorized
                      else if (xe_StatusCode xe =? StatusForbidden)%Z then ServiceErrorForbidden else ServiceErrorEmbeddedExchangeFailed)).
Proof.
  split_and!.
  - intros hmac ju pu oor v now req ve (e & He & Htok)%validate_fails. eexists. split; [reflexivity|].
    assert (Hv : Validation_ToServiceError ve = WithMetadata (WithTextCode (WithCode (goerrors_New (Validation_Error ve) CategoryAuth) StatusUnauthorized) ServiceErrorEmbeddedSessionInvalid)
      {["code" := VString (TrimSpace (ve_Code ve)); "field" := VString (TrimSpace (ve_Field ve))]}) by (unfold Validation_ToServiceError; rewrite He; by destruct e).
    rewrite Hv. destruct (ensure_fields (WithMetadata (WithTextCode (WithCode (goerrors_New (Validation_Error ve) CategoryAuth) StatusUnauthorized) ServiceErrorEmbeddedSessionInvalid)
      {["code" := VString (TrimSpace (ve_Code ve)); "field" := VString (TrimSpace (ve_Field ve))]})) as (-> & -> & ->); [done|done|]. split_and!; [done|done|].
    cbn [WithMetadata re_Metadata]. unfold mapsCopy. by apply lookup_union_Some_l, lookup_insert_eq.
  - eexists. split; [reflexivity|]. unfold newServiceError. rewrite ensure_TextCode, ensure_Category by done. split; [done|]. apply New_Category.
  - intros xe. eexists. split; [reflexivity|]. set (m := Exchange_ToServiceError xe).
    assert (Hm : re_Code m = (if (400 <=? xe_StatusCode xe)%Z then xe_StatusCode xe else StatusBadGateway) ∧ re_TextCode m =
      (if (xe_StatusCode xe =? StatusTooManyRequests)%Z then ServiceErrorRateLimited else if (xe_StatusCode xe =? StatusUnauthorized)%Z then ServiceErrorUnauthorized
       else if (xe_StatusCode xe =? StatusForbidden)%Z then ServiceErrorForbidden else ServiceErrorEmbeddedExchangeFailed)).
    { unfold m, Exchange_ToServiceError. destruct (Z.eqb_spec (xe_StatusCode xe) StatusTooManyRequests) as [->|]; [done|]. destruct (Z.eqb_spec (xe_StatusCode xe) StatusUnauthorized) as [->|]; [done|].
      by destruct (Z.eqb_spec (xe_StatusCode xe) StatusForbidden) as [->|]. }
    destruct Hm as [Hm1 Hm2]. destruct (ensure_fields m) as (-> & -> & _); [rewrite Hm1; destruct (Z.leb_spec 400 (xe_StatusCode xe)); [lia|done]|rewrite Hm2; by repeat case_match|done].
Qed.
End reported.

(** ** Instances *)

Module EmbeddedExample.
#[local] Instance demo_MapRange : MapRange := key_order_range.
Definition hmac (k m : string) : string := k +:+ "|" +:+ m.
Definition t0 : Z := 1700000000.
Definition payload : gmap string value :=
  {["iss" := VString "https://a.myshopify.com/admin"; "dest" := VString "https://A.myshopify.com"; "aud" := VString "app"; "jti" := VString "j1";
    "iat" := VInt Int64K t0; "nbf" := VInt Int64K t0; "exp" := VInt Int64K (t0 + 840)]}.
Definition json (text : string) : outcome string (gmap string value) :=
  if String.eqb text "H" then Ok {["alg" := VString "hs256"]} else if String.eqb text "P" then Ok payload
  else if String.eqb text "T" then Ok {["access_token" := VString "shpat"; "scope" := VString "read_products,read_orders"]} else Fail "syntax".
Definition parse (text : string) : option parsed_url :=
  match SplitChar "/" text with
  | scheme :: "" :: host :: path => Some (mkParsedURL (TrimSuffix scheme ":") host false "" "" "" (match path with [] => "" | _ => "/" +:+ GoHTTP.Join "/" path end))
  | _ => None
  end.
Definition signed : string := RawURLEncode "H" +:+ "." +:+ RawURLEncode "P".
Definition token (secret : string) : string := signed +:+ "." +:+ RawURLEncode (hmac secret signed).
Definition cfg : SessionTokenValidatorConfig := mkValidator "secret" "app" 0 0.
Definition validator : SessionTokenValidator := ValidateSessionToken hmac json parse 0 (NewSessionTokenValidator cfg).
Definition client : HTTPDoer := λ req, Ok (mkHttpResponse 200 ∅ "T" None).
Definition down : HTTPDoer := λ req, Fail "connection refused".
Definition exchange (client : HTTPDoer) : SessionTokenExchanger :=
  ExchangeSessionToken json parse 0 (λ s, s) (λ text, Ok (mkURL "" "" "" text)) (NewSessionTokenExchangeClient parse (λ scheme host path, scheme +:+ "://" +:+ host +:+ path) "app" "secret" 0 None) client.
Definition service (client : HTTPDoer) (ttl : Duration) : EmbeddedService := NewService "" "" ttl validator (exchange client).
Definition request : EmbeddedAuthRequest := mkEmbeddedRequest "shopify" (mkScopeRef "org" "o1") (token "secret") "" "" 0.
Definition at_second (n : Z) : Time := timeUnix (t0 + n).
Definition auth (client : HTTPDoer) (ttl : Duration) (l : MemoryReplayLedger) (n : Z) := AuthenticateEmbedded (RL := memory_replay_ledger) (λ s, s) (service client ttl) l (at_second n) (at_second n) request.
Definition fresh : MemoryReplayLedger := NewService_ledger 0 0.

Definition outcome_of (r : outcome embedded_error EmbeddedAuthResult) : string :=
  match r with
  | Ok a => ea_AccessToken (em_Token a)
  | Fail EmReplay => "replay" | Fail (EmValidation e) => ve_Code e | Fail (EmExchange e) => xe_Message e | Fail _ => "other"
  end.

Example session_ex : outcome_of (auth client 0 fresh 1).1 = "shpat" ∧ outcome_of (auth client 0 (auth client 0 fresh 1).2 2).1 = "replay" ∧
  outcome_of (auth client 0 fresh 1000).1 = "token_expired" ∧
  match validator (at_second 1) (mkValidateRequest (token "other") "") with Fail e => ve_Code e = "signature_mismatch" | Ok _ => False end.
Proof. vm_compute. repeat split. Qed.

(** The time-to-live of a claim is five minutes if none is configured, and a token is accepted for fifteen: one that is valid for fourteen minutes is exchanged again after five. *)
Example replayed_after_five_minutes :
  outcome_of (auth client 0 fresh 1).1 = "shpat" ∧ outcome_of (auth client 0 (auth client 0 fresh 1).2 302).1 = "shpat".
Proof. vm_compute. repeat split. Qed.

(** A token is claimed before it is exchanged: when the shop cannot be reached, the same token is refused as a replay afterwards. *)
Example failed_exchange_burns_token :
  outcome_of (auth down 0 fresh 1).1 = "exchange request failed" ∧ outcome_of (auth client 0 (auth down 0 fresh 1).2 2).1 = "replay".
Proof. vm_compute. repeat split. Qed.

Lemma session_token_accepted_witness : ∃ claims, validator (at_second 1) (mkValidateRequest (token "secret") "a") = Ok claims ∧
  HasSuffix (sc_ShopDomain claims) defaultShopifyDomainSuffix = true ∧ (at_second 1 ≤ sc_ExpiresAt claims + 30 * Second)%Z.
Proof.
  destruct (validator (at_second 1) (mkValidateRequest (token "secret") "a")) as [claims|e] eqn:H; [|exfalso; apply (f_equal (λ r, match r with Ok _ => true | Fail _ => false end)) in H; vm_compute in H; discriminate H].
  exists claims. split; [done|]. unfold validator in H. destruct (session_token_accepted _ _ _ _ _ _ _ _ H) as (_ & _ & _ & _ & Hs & _ & _ & He & _).
  split; [exact Hs|]. exact He.
Defined.

Lemma session_token_once_witness : ∃ a1 l1 a2 l2, auth client 0 fresh 1 = (Ok a1, l1) ∧ auth client 0 l1 302 = (Ok a2, l2) ∧
  (at_second 1 + 5 * Minute ≤ at_second 302 ≤ at_second 1 + 15 * Minute + 2 * (30 * Second))%Z.
Proof.
  destruct (auth client 0 fresh 1) as [[a1|e1] l1] eqn:H1; [|exfalso; apply (f_equal (λ r, match r.1 with Ok _ => true | Fail _ => false end)) in H1; vm_compute in H1; discriminate H1].
  assert (Hl : l1 = (auth client 0 fresh 1).2) by (by rewrite H1).
  destruct (auth client 0 l1 302) as [[a2|e2] l2] eqn:H2; [|exfalso; rewrite Hl in H2; apply (f_equal (λ r, match r.1 with Ok _ => true | Fail _ => false end)) in H2; vm_compute in H2; discriminate H2].
  exists a1, l1, a2, l2. split; [done|]. split; [done|]. unfold auth, service, validator in H1, H2.
  assert (Hwf : ledger_wf fresh) by apply New_wf.
  assert (Hfit : (sv_MaxIssuedAtAge (NewSessionTokenValidator cfg) + sv_ClockSkew (NewSessionTokenValidator cfg) < 2 ^ 63)%Z) by (vm_compute; reflexivity).
  exact (session_token_once hmac json parse 0 (λ s, s) cfg "" "" 0 (exchange client) fresh (at_second 1) request a1 l1 [] (at_second 302) request a2 l2
           Hfit Hwf eq_refl H1 I (Forall_nil_2 _) H2).
Defined.
End EmbeddedExample.
