(* ===== verification/EnterpriseProviders.v ===== *)
(** * Helpers of the single providers (src/providers)

    What the packages of the providers repeat: sets of grants, the operation a capability becomes, and the metadata of an answer. *)

From S2P Require Import Prelude GoStrings GoValues Domain OAuthState Contracts GoURL GoHTTP Grants Permissions ServiceTypes Connections Service Signers Errors ProviderOps Profiles OAuth2 AuthStrategies ServiceAccount.
From Stdlib Require Import ZArith String Ascii Lia.
From stdpp Require Import base decidable list gmap strings sorting.

Local Open Scope string_scope.
Local Open Scope list_scope.

(** ** Shared helpers *)

(** The non-empty images of a list, each once and in order: a set that is listed and sorted. *)
Definition canonical_set (f : string → string) (l : list string) : list string := sortStrings (remove_dups (filter (λ v, v ≠ "") (f <$> l))).

(** [strings.TrimRight(s, "/")] *)
Fixpoint drop_slashes (l : list ascii) : list ascii := match l with c :: l' => if Ascii.eqb c "/" then drop_slashes l' else l | [] => [] end.
Definition TrimRightSlash (s : string) : string := string_of_list_ascii (reverse (drop_slashes (reverse (list_ascii_of_string s)))).

Definition normalizeScopes (scopes : list string) : list string := canonical_set (λ s, TrimSpace (ToLower s)) scopes.
Definition org_scope_types (raw : list string) : list string := or_else (normalizeScopes raw) ["org"].

Definition resolveLimit (payload : gmap string value) (fallback : Z) : string :=
  match payload !! "limit" with
  | Some v => let trimmed := TrimSpace (Sprint v) in if String.eqb trimmed "" then Itoa fallback else trimmed
  | None => Itoa fallback
  end.
Definition resolveTransportKind (raw fallback : string) : string := if blank raw then lowerTrim fallback else lowerTrim raw.
Definition shouldDegrade (decision : CapabilityResult) : bool :=
  if negb (String.eqb (cr_Mode decision) CapabilityDeniedBehaviorDegrade) then false
  else match cr_Metadata decision !! "missing_grants" with
  | None | Some VNil => false
  | Some (VStrings l) => negb (bool_decide (l = []))
  | Some (VList l) => match l with [] => false | _ => true end
  | Some v => negb (blank (Sprint v))
  end.
Definition runtimeCredential : ActiveCredential := mkActiveCredential "" "bearer" "runtime_access_token" "" [] [] None false None ∅.

Definition zeroRetry : ProviderOperationRetryPolicy := mkRetry 0 0 0 [] None None.
Definition plain_request (method url : string) (headers query : gmap string string) (body : string) (metadata : gmap string value) : TransportRequest :=
  mkTransportRequest method url headers query body metadata 0 0 "".
(** The operation a capability becomes. *)
Definition capability_operation (req : CapabilityOperationResolveRequest) (bucketKey operation default_operation transportKind : string) (request : TransportRequest)
    (normalizer : ProviderResponseNormalizer) : ProviderOperationRequest :=
  mkOperationRequest (ro_ProviderID req) (conn_ID (ro_Connection req)) (ro_Scope req) (if String.eqb operation "" then default_operation else operation) bucketKey transportKind
    (ro_TransportConfig req) request None (Some runtimeCredential) "" zeroRetry ∅ (Some normalizer).

(** The metadata of an answer: [Retry-After] in whole seconds. *)
Definition retry_after (headers : gmap string string) : option Duration :=
  match Atoi (TrimSpace (default "" (headers !! "Retry-After"))) with
  | Some seconds => if (0 <? seconds)%Z then Some (wrap64 (seconds * Second)) else None
  | None => None
  end.

(** ** When a capability degrades *)

Section degrade.
Context {MR : MapRange} {E W O : Type} {cs : ConnectionStore E W}.
Variable scope_error_text : domain_error → string.

Lemma capabilityConnection_reads (v : Service (E := E) (W := W)) e req (s : SvcState W O) : (capabilityConnection scope_error_text v e req s).2 = s.
Proof.
  unfold capabilityConnection, sbind, db_read, lift, sret, sfail. by repeat (case_match; simplify_eq/=).
Qed.

(** What is allowed was decided by the evaluator on the state as it is, and the answer of the service degrades the capability exactly if that decision names missing grants
    in the degrading mode. *)
Lemma allowed_decision v env req (st st' : SvcState W O) r evaluate :
  svc_permissionEvaluator v = Some evaluate → InvokeCapability scope_error_text v env req st = (Ok r, st') → cr_Allowed r = true →
  ∃ d, evaluate (s_db st) (conn_ID (cr_Connection r)) (iq_Capability req) = Ok d ∧ pd_Allowed d = true ∧
    (pd_Mode d ≠ "" → shouldDegrade r = String.eqb (pd_Mode d) CapabilityDeniedBehaviorDegrade && negb (bool_decide (pd_MissingGrants d = []))).
Proof.
  intros Hev H Ha. unfold InvokeCapability in H. apply sbind_Ok in H as (provider & s1 & Hp & H).
  assert (s1 = st) as -> by (unfold resolveProvider, sret, sfail in Hp; by repeat (case_match; simplify_eq/=)).
  destruct (findCapabilityDescriptor _ _) as [descriptor|]; [|done]. apply sbind_Ok in H as (res & s2 & Hc & H).
  pose proof (capabilityConnection_reads v (env 0) req st) as Hs. rewrite Hc in Hs. simpl in Hs. subst s2.
  destruct (_ || _); [injection H as <- <-; by simpl in Ha|]. apply sbind_Ok in H as (d & s3 & Hdec & H).
  injection H as <- <-. simpl in *. rewrite Hev in Hdec. apply sbind_Ok in Hdec as (d0 & s4 & Hd0 & Hdec).
  unfold db_read, lift in Hd0. destruct (evaluate _ _ _) as [d1|] eqn:He; [|done]. injection Hd0 as -> <-. injection Hdec as <- <-.
  exists d0. split; [done|]. destruct (String.eqb_spec (pd_Mode d0) "") as [Hm|Hm]; [done|]. split; [done|]. intros _.
  unfold shouldDegrade. simpl. destruct (String.eqb _ CapabilityDeniedBehaviorDegrade); [|done]. simpl.
  destruct (pd_MissingGrants d0); [by rewrite lookup_singleton_ne by done|]. by rewrite lookup_insert_eq.
Qed.

Context (evaluator : W → GrantPermissionEvaluator E).

(** A capability that may degrade and asks for one optional grant: when it is allowed, it degrades exactly if the connection lacks this grant. *)
Lemma degrades_exactly v env req (st st' : SvcState W O) r getConnection registry getSnapshot connection provider snapshot desc g :
  svc_permissionEvaluator v = Some (λ db, EvaluateCapability (evaluator db)) →
  InvokeCapability scope_error_text v env req st = (Ok r, st') → cr_Allowed r = true →
  pe_ConnectionStore (evaluator (s_db st)) = Some getConnection → pe_Registry (evaluator (s_db st)) = Some registry →
  pe_GrantStore (evaluator (s_db st)) = Some getSnapshot → getConnection (conn_ID (cr_Connection r)) = Ok connection →
  Registry_Get registry (conn_ProviderID connection) = Some provider → getSnapshot (conn_ID (cr_Connection r)) = Ok snapshot →
  findCapabilityDescriptor (prov_Capabilities provider) (iq_Capability req) = Some desc → cap_DeniedBehavior desc = CapabilityDeniedBehaviorDegrade →
  grants (cap_OptionalGrants desc) = {[g]} →
  grants (cap_RequiredGrants desc) ⊆ granted_by snapshot ∧ shouldDegrade r = bool_decide (g ∉ granted_by snapshot).
Proof.
  intros Hev H Ha Hcs Hreg Hgs Hget Hprov Hsnap Hfind Hbeh Hopt.
  destruct (allowed_decision _ _ _ _ _ _ _ Hev H Ha) as (d & Hd & Hda & Hdeg). unfold EvaluateCapability in Hd.
  destruct (blank (conn_ID _)); [done|]. destruct (blank _); [done|]. rewrite Hcs, Hreg, Hget, Hprov, Hfind, Hgs, Hsnap in Hd. apply Ok_inj in Hd as <-.
  unfold decide_capability in *. cbv zeta in *. pose proof (missing_none (cap_RequiredGrants desc) snapshot) as Hreq.
  pose proof (missing_none (cap_OptionalGrants desc) snapshot) as Hopt'. rewrite Hopt in Hopt'.
  destruct (0 <? length (missingGrants (cap_RequiredGrants desc) _))%nat; [done|]. split; [by apply Hreq|]. rewrite Hbeh in Hdeg.
  rewrite Hbeh in Hda. destruct (missingGrants (cap_OptionalGrants desc) _); simpl in *.
  - rewrite Hdeg by done. simpl. symmetry. apply bool_decide_eq_false. assert ({[g]} ⊆ granted_by snapshot) by (by apply Hopt'). set_solver.
  - rewrite Hdeg by done. simpl. symmetry. apply bool_decide_eq_true. intros Hin. assert (true = false) by (apply Hopt'; set_solver). done.
Qed.
End degrade.

(** ** Sets of grants *)

Lemma elem_of_canonical_set f l g : g ∈ canonical_set f l ↔ g ≠ "" ∧ ∃ x, x ∈ l ∧ g = f x.
Proof.
  unfold canonical_set. rewrite elem_of_sortStrings, elem_of_remove_dups, list_elem_of_filter, list_elem_of_fmap. naive_solver.
Qed.

(** A set whose names are their own image is not changed by being read again. *)
Lemma canonical_set_stable f l : (∀ x, f (f x) = f x) → canonical_set f (canonical_set f l) = canonical_set f l.
Proof.
  intros Hf. apply (sortStrings_unique (remove_dups (filter _ (f <$> canonical_set f l))) (remove_dups (filter _ (f <$> l)))). apply NoDup_Permutation; [apply NoDup_remove_dups|apply NoDup_remove_dups|].
  intros g. rewrite !elem_of_remove_dups, !list_elem_of_filter, !list_elem_of_fmap.
  split; [intros (? & x & -> & Hx); apply elem_of_canonical_set in Hx as (? & y & ? & ->); rewrite Hf in *; eauto|].
  intros (? & x & -> & Hx). split; [done|]. exists (f x). rewrite Hf. split; [done|]. apply elem_of_canonical_set. eauto.
Qed.

(** ** Evaluations: a service with one active connection, whose grants are its whole state *)

Module EnterpriseExample.
Section one.
#[local] Existing Instance key_order_range.
Variable providerID : string.
Variable capabilities : list CapabilityDescriptor.

Definition the_connection : Connection := mkConnection "c1" providerID "org" "o1" "acct" ConnectionStatusActive "" "" zeroTime zeroTime.
#[local] Instance one_connection : ConnectionStore string (list string) := {|
  cs_Create := λ w _ _, (Fail "", w); cs_Get := λ _ _ id, if String.eqb id "c1" then Ok the_connection else Fail "not found";
  cs_FindByScope := λ _ _ _ _, Ok [the_connection]; cs_FindByScopeAndExternalAccount := λ _ _ _ _ _, Ok None; cs_UpdateStatus := λ w _ _ _ _, (Fail "", w) |}.
Definition the_provider : Provider := Permissions.mkProvider providerID capabilities.
Definition the_registry : ProviderRegistry := {[providerID := the_provider]}.
Definition the_evaluator (granted : list string) : GrantPermissionEvaluator string :=
  mkEvaluator (Some (λ c, cs_Get granted (quiet 0 "") c)) (Some (λ c, Ok (Some (mkSnapshot c 1 granted granted 0 ∅)))) (Some the_registry).
Definition the_service : Service (E := string) (W := list string) :=
  mkService (Some the_registry) true false false false None None false [] None (Some (λ granted, EvaluateCapability (the_evaluator granted))) None.
Definition decided (capability : string) (granted : list string) : outcome (service_error string) CapabilityResult :=
  (InvokeCapability (O := unit) (λ _, "") the_service (λ _, quiet 0 "") (mkInvoke providerID (mkScopeRef "org" "o1") capability ∅ "") (mkSvcState granted None None)).1.
End one.
End EnterpriseExample.
