(* ===== verification/Salesforce.v ===== *)
(** * Salesforce (src/providers/salesforce/provider.go)

    A provider that needs no user: its grants, its authentication on top of the client credentials strategy, and the request each of its capabilities becomes.
    JSON, URL parsing and the HTTP client are arguments. *)

From S2P Require Import Prelude GoStrings GoValues Domain OAuthState Contracts GoURL GoHTTP Grants Permissions ServiceTypes Connections Service Signers Errors ProviderOps Profiles OAuth2 AuthStrategies ServiceAccount EnterpriseProviders.
From Stdlib Require Import ZArith String Ascii Lia.
From stdpp Require Import base decidable list gmap strings sorting.

Local Open Scope string_scope.
Local Open Scope list_scope.

Definition ProviderID := "salesforce".
Definition DefaultTokenURL := "https://login.salesforce.com/services/oauth2/token".
Definition DefaultAPIBase := "https://api.salesforce.com".
Definition defaultAPIVersion := "v60.0".
Definition ScopeAPI := "api".
Definition ScopeBulk := "bulk_api".
Definition ScopeManage := "full".
Definition GrantAPIRead := "salesforce:api.read".
Definition GrantAPIWrite := "salesforce:api.write".
Definition GrantBulkExport := "salesforce:bulk.export".

Definition Capabilities : list CapabilityDescriptor :=
  [mkCapability "crm.accounts.read" [GrantAPIRead] [] CapabilityDeniedBehaviorBlock;
   mkCapability "crm.accounts.write" [GrantAPIWrite] [] CapabilityDeniedBehaviorBlock;
   mkCapability "crm.accounts.bulk_export" [GrantAPIRead] [GrantBulkExport] CapabilityDeniedBehaviorDegrade].

Definition canonical_grant (raw : string) : string :=
  let normalized := TrimPrefix (TrimSpace (ToLower raw)) "salesforce:" in
  if bool_decide (normalized ∈ ["api"; "api.read"]) then GrantAPIRead
  else if bool_decide (normalized ∈ ["full"; "api.write"]) then GrantAPIWrite
  else if bool_decide (normalized ∈ ["bulk"; "bulk_api"; "bulk.export"]) then GrantBulkExport else "".
Definition normalizeCanonicalGrants (raw : list string) : list string := canonical_set canonical_grant raw.

Record Config := mkConfig {
  sf_ClientID : string; sf_ClientSecret : string; sf_TokenURL : string; sf_DefaultScopes : list string; sf_SupportedScopes : list string; sf_InstanceURL : string;
  sf_ExternalAccountID : string }.
Definition DefaultConfig : Config := mkConfig "" "" DefaultTokenURL [ScopeAPI] ["org"] DefaultAPIBase "".
Record Provider := mkProvider {
  sfp_strategy : OAuth2ClientCredentialsStrategyConfig; sfp_instanceURL : string; sfp_scopeTypes : list string; sfp_externalAcct : string; sfp_defaultGrants : list string }.
Inductive config_error := ErrClientID | ErrClientSecret.

Definition New (cfg : Config) : outcome config_error Provider :=
  let tokenURL := if blank (sf_TokenURL cfg) then DefaultTokenURL else sf_TokenURL cfg in
  let scopes := or_else (sf_DefaultScopes cfg) [ScopeAPI] in
  let supported := or_else (sf_SupportedScopes cfg) ["org"] in
  let instanceURL := if blank (sf_InstanceURL cfg) then DefaultAPIBase else sf_InstanceURL cfg in
  if blank (sf_ClientID cfg) then Fail ErrClientID
  else if blank (sf_ClientSecret cfg) then Fail ErrClientSecret
  else
    let normalizedScopes := normalizeScopes scopes in
    Ok (mkProvider
          (NewOAuth2ClientCredentialsStrategy (mkClientConfig (TrimSpace (sf_ClientID cfg)) (TrimSpace (sf_ClientSecret cfg)) (TrimSpace tokenURL) false normalizedScopes 0 0 0
             (TrimSpace (sf_ExternalAccountID cfg))))
          (TrimRightSlash (TrimSpace instanceURL)) (org_scope_types supported) (TrimSpace (sf_ExternalAccountID cfg)) (normalizeCanonicalGrants normalizedScopes)).

Definition normalizeSalesforceResponse (response : TransportResponse) : outcome GoError ProviderResponseMeta :=
  let limit := TrimSpace (default "" (tp_Headers response !! "Sforce-Limit-Info")) in
  let metadata : gmap string value := {["provider" := VString "salesforce"]} in
  Ok (mkResponseMeta (tp_StatusCode response) (tp_Headers response) (retry_after (tp_Headers response))
        (if String.eqb limit "" then metadata else <["limit_info" := VString limit]> metadata)).

Inductive op_failure := ErrUnsupportedCapability (capability : string) | ErrEncode (cause : string).

Section resolve.
Variable json_Marshal : gmap string value → outcome string string.

Definition marshalPayload (payload fallback : gmap string value) : outcome op_failure string :=
  match json_Marshal (if bool_decide (payload = ∅) then fallback else payload) with Ok body => Ok body | Fail err => Fail (ErrEncode err) end.

Definition json_header : gmap string string := {["Content-Type" := "application/json"]}.

Definition ResolveCapabilityOperation (p : Provider) (req : CapabilityOperationResolveRequest) : outcome op_failure ProviderOperationRequest :=
  let baseURL := TrimRightSlash (sfp_instanceURL p) in
  let baseURL := if String.eqb baseURL "" then DefaultAPIBase else baseURL in
  let accounts := baseURL +:+ "/services/data/" +:+ defaultAPIVersion +:+ "/sobjects/Account" in
  let bucketKey := firstNonEmpty [TrimSpace (ro_BucketKey req); "crm.accounts"] in
  let operation := TrimSpace (ro_Operation req) in
  let payload := ro_Payload req in
  let op default_operation kind request := capability_operation req bucketKey operation default_operation kind request normalizeSalesforceResponse in
  let capability := TrimSpace (ro_Capability req) in
  if String.eqb capability "crm.accounts.read" then
    Ok (op "salesforce.accounts.read" (resolveTransportKind (ro_TransportKind req) "rest")
          (plain_request "GET" accounts ∅ {["limit" := resolveLimit payload 50]} "" ∅))
  else if String.eqb capability "crm.accounts.write" then
    match marshalPayload payload {["Name" := VString "New Account"]} with
    | Fail err => Fail err
    | Ok body => Ok (op "salesforce.accounts.write" (resolveTransportKind (ro_TransportKind req) "rest") (plain_request "POST" accounts json_header ∅ body ∅))
    end
  else if String.eqb capability "crm.accounts.bulk_export" then
    if shouldDegrade (ro_Decision req) then
      Ok (op "salesforce.accounts.bulk_export.degraded" "rest"
            (plain_request "GET" accounts ∅ {["limit" := resolveLimit payload 25]} "" {["degraded" := VBool true]}))
    else
      let query := TrimSpace (Sprint (mapGet payload "query")) in
      let query := if String.eqb query "" then "SELECT Id, Name FROM Account LIMIT 200" else query in
      match marshalPayload {["operation" := VString "query"; "query" := VString query]} ∅ with
      | Fail err => Fail err
      | Ok body => Ok (op "salesforce.accounts.bulk_export" (resolveTransportKind (ro_TransportKind req) "bulk")
                         (plain_request "POST" (baseURL +:+ "/services/data/" +:+ defaultAPIVersion +:+ "/jobs/query") json_header ∅ body ∅))
      end
  else Fail (ErrUnsupportedCapability (ro_Capability req)).
End resolve.

(** ** Authentication, for a caller that does not take the strategy itself *)

Definition canonical_credential (c : ActiveCredential) : ActiveCredential :=
  mkActiveCredential (ac_ConnectionID c) (ac_TokenType c) (ac_AccessToken c) (ac_RefreshToken c) (normalizeCanonicalGrants (ac_RequestedScopes c))
    (normalizeCanonicalGrants (ac_GrantedScopes c)) (ac_ExpiresAt c) (ac_Refreshable c) (ac_RotatesAt c) (ac_Metadata c).
Definition with_default_grants (p : Provider) (metadata : gmap string value) : gmap string value :=
  let put k m := match m !! k with Some _ => m | None => <[k := VStrings (sfp_defaultGrants p)]> m end in
  put "granted_grants" (put "requested_grants" metadata).

Section auth.
Variable json_Unmarshal : string → outcome string (gmap string value).
Variable parseURL : string → outcome string URL.
Variable oor : Z.
Definition BeginAuth (p : Provider) (req : BeginAuthRequest) : BeginAuthResponse :=
  Client_Begin (sfp_strategy p) (mkAuthBegin (ba_Scope req) (ba_RedirectURI req) (ba_State req) (ba_RequestedGrants req) (ba_Metadata req)).
Definition CompleteAuth (p : Provider) (client : HTTPDoer) (cache : credential_cache) (now : Time) (req : CompleteAuthRequest)
    : outcome auth_error AuthCompleteResponse * credential_cache :=
  match Client_Complete json_Unmarshal parseURL oor (sfp_strategy p) client cache now
          (mkAuthComplete (ca_Scope req) (ca_Code req) (ca_State req) (ca_RedirectURI req) (with_default_grants p (ca_Metadata req))) with
  | (Fail err, cache) => (Fail err, cache)
  | (Ok r, cache) =>
    (Ok (mkCompleteResponse (if blank (ar_ExternalAccountID r) && negb (String.eqb (sfp_externalAcct p) "") then sfp_externalAcct p else ar_ExternalAccountID r)
           (canonical_credential (ar_Credential r)) (normalizeCanonicalGrants (ar_RequestedGrants r)) (normalizeCanonicalGrants (ar_GrantedGrants r)) (ar_Metadata r)), cache)
  end.
Definition Refresh (p : Provider) (client : HTTPDoer) (cache : credential_cache) (now : Time) (cred : ActiveCredential)
    : outcome auth_error RefreshResult * credential_cache :=
  match Client_Refresh json_Unmarshal parseURL oor (sfp_strategy p) client cache now cred with
  | (Fail err, cache) => (Fail err, cache)
  | (Ok r, cache) => (Ok (mkRefreshResult (canonical_credential (rr_Credential r)) (normalizeCanonicalGrants (rr_GrantedGrants r)) (rr_Metadata r)), cache)
  end.
End auth.

(** ** What the provider asks for *)

Lemma salesforce_grant_stable raw : canonical_grant (canonical_grant raw) = canonical_grant raw.
Proof. unfold canonical_grant at 2 3. by repeat (case_bool_decide; [vm_compute; reflexivity|]). Qed.

(** Grants that are normalised again stay as they are: what is stored after a completion is what a refresh reports. *)
Theorem salesforce_grants_stable raw : normalizeCanonicalGrants (normalizeCanonicalGrants raw) = normalizeCanonicalGrants raw.
Proof. apply canonical_set_stable, salesforce_grant_stable. Qed.

Section facts.
Variable json_Marshal : gmap string value → outcome string string.
Abbreviation resolve := (ResolveCapabilityOperation json_Marshal).

(** Exactly the declared capabilities become an operation, and it is the operation of the connection and the provider of the request. *)
Theorem salesforce_operations (p : Provider) req :
  (∀ m, ∃ body, json_Marshal m = Ok body) →
  (TrimSpace (ro_Capability req) ∈ cap_Name <$> Capabilities ↔ ∃ op, resolve p req = Ok op) ∧
  ∀ op, resolve p req = Ok op → po_ProviderID op = ro_ProviderID req ∧ po_ConnectionID op = conn_ID (ro_Connection req) ∧ po_Operation op ≠ "".
Proof.
  intros Hjson. assert (Hm : ∀ m f, ∃ body, marshalPayload json_Marshal m f = Ok body)
    by (intros m f; unfold marshalPayload; destruct (Hjson (if bool_decide (m = ∅) then f else m)) as [b ->]; eauto).
  assert (Hop : ∀ (d : string), d ≠ "" → (if String.eqb (TrimSpace (ro_Operation req)) "" then d else TrimSpace (ro_Operation req)) ≠ "")
    by (intros d Hd; by destruct (String.eqb_spec (TrimSpace (ro_Operation req)) "")).
  unfold ResolveCapabilityOperation. cbv zeta.
  destruct (String.eqb_spec (TrimSpace (ro_Capability req)) "crm.accounts.read") as [->|H1]; [|
  destruct (String.eqb_spec (TrimSpace (ro_Capability req)) "crm.accounts.write") as [->|H2]; [|
  destruct (String.eqb_spec (TrimSpace (ro_Capability req)) "crm.accounts.bulk_export") as [->|H3]]].
  - split; [split; [eauto|set_solver]|]. intros op Heq. apply Ok_inj in Heq as <-. split_and!; [done..|by apply Hop].
  - destruct (Hm (ro_Payload req) {["Name" := VString "New Account"]}) as [body ->].
    split; [split; [eauto|set_solver]|]. intros op Heq. apply Ok_inj in Heq as <-. split_and!; [done..|by apply Hop].
  - destruct (Hm {["operation" := VString "query"; "query" := VString (if String.eqb (TrimSpace (Sprint (mapGet (ro_Payload req) "query"))) ""
      then "SELECT Id, Name FROM Account LIMIT 200" else TrimSpace (Sprint (mapGet (ro_Payload req) "query")))]} ∅) as [body ->].
    destruct (shouldDegrade _); (split; [split; [eauto|set_solver]|]); intros op Heq; apply Ok_inj in Heq as <-; (split_and!; [done..|by apply Hop]).
  - split; [split; [set_solver|by intros [? ?]]|done].
Qed.

Context {MR : MapRange} {E W O : Type} {cs : ConnectionStore E W} (evaluator : W → GrantPermissionEvaluator E).
Variable scope_error_text : domain_error → string.

(** C37: a bulk export of Salesforce accounts that the service allows is a job only for a connection that was granted the export.  With the grant for reading alone, what is sent
    is a marked, limited read of the accounts; without that grant nothing is allowed. *)
Theorem salesforce_export_guarded v env req (st st' : SvcState W O) r getConnection registry getSnapshot connection provider snapshot (p : Provider) oreq op :
  svc_permissionEvaluator v = Some (λ db, EvaluateCapability (evaluator db)) →
  InvokeCapability scope_error_text v env req st = (Ok r, st') → cr_Allowed r = true →
  pe_ConnectionStore (evaluator (s_db st)) = Some getConnection → pe_Registry (evaluator (s_db st)) = Some registry →
  pe_GrantStore (evaluator (s_db st)) = Some getSnapshot → getConnection (conn_ID (cr_Connection r)) = Ok connection →
  Registry_Get registry (conn_ProviderID connection) = Some provider → getSnapshot (conn_ID (cr_Connection r)) = Ok snapshot →
  prov_Capabilities provider = Capabilities → TrimSpace (iq_Capability req) = "crm.accounts.bulk_export" →
  ro_Capability oreq = iq_Capability req → ro_Decision oreq = r → resolve p oreq = Ok op →
  GrantAPIRead ∈ granted_by snapshot ∧
  if decide (GrantBulkExport ∈ granted_by snapshot)
  then tr_Method (po_TransportRequest op) = "POST" ∧ Contains (tr_URL (po_TransportRequest op)) "/jobs/query" = true ∧ tr_Metadata (po_TransportRequest op) = ∅
  else tr_Method (po_TransportRequest op) = "GET" ∧ tr_Body (po_TransportRequest op) = "" ∧ tr_Metadata (po_TransportRequest op) !! "degraded" = Some (VBool true) ∧
       tr_Query (po_TransportRequest op) !! "limit" = Some (resolveLimit (ro_Payload oreq) 25) ∧ po_TransportKind op = "rest".
Proof.
  intros Hev H Ha Hcs Hreg Hgs Hget Hprov Hsnap Hcaps Hcap Hro Hdec Hop.
  destruct (degrades_exactly scope_error_text evaluator v env req st st' r getConnection registry getSnapshot connection provider snapshot
    (mkCapability "crm.accounts.bulk_export" [GrantAPIRead] [GrantBulkExport] CapabilityDeniedBehaviorDegrade) GrantBulkExport) as [Hreq Hdeg];
    [done..| |done|vm_compute; reflexivity|].
  { rewrite Hcaps. unfold findCapabilityDescriptor. rewrite Hcap. vm_compute. reflexivity. }
  split; [apply Hreq; vm_compute; reflexivity|].
  unfold ResolveCapabilityOperation in Hop. rewrite Hro, Hcap, Hdec, Hdeg in Hop. cbv zeta in Hop.
  destruct (decide _) as [Hin|Hin].
  - rewrite bool_decide_eq_false_2 in Hop by naive_solver. simpl in Hop. destruct (marshalPayload _ _ _) as [body|]; [|done].
    apply Ok_inj in Hop as <-. split_and!; [done| |done]. simpl. do 3 apply Contains_app_r. reflexivity.
  - rewrite bool_decide_eq_true_2 in Hop by done. apply Ok_inj in Hop as <-. done.
Qed.
End facts.

(** ** Evaluations *)

Module SalesforceExample.
Section demo.
#[local] Existing Instance key_order_range.
#[local] Instance demo_store : ConnectionStore string (list string) := EnterpriseExample.one_connection ProviderID.

Definition decision (granted : list string) : CapabilityResult :=
  match EnterpriseExample.decided ProviderID Capabilities "crm.accounts.bulk_export" granted with Ok r => r | Fail _ => mkCapabilityResult false "" "" emptyConnection ∅ end.
Definition demo_provider : Provider :=
  match New (mkConfig "id" "secret" "" [] [] " https://acme.my.salesforce.com/ " "") with Ok p => p | Fail _ => mkProvider (NewOAuth2ClientCredentialsStrategy (mkClientConfig "" "" "" false [] 0 0 0 "")) "" [] "" [] end.
Definition demo_request (capability : string) (payload : gmap string value) (d : CapabilityResult) : CapabilityOperationResolveRequest :=
  mkResolveOperation ProviderID (mkScopeRef "org" "o1") capability payload (cr_Connection d) d "" "" "" ∅ ∅.
(** The query of a body, as a text. *)
Definition demo_marshal (m : gmap string value) : outcome string string := Ok (Sprint (mapGet m "query")).
Definition demo_resolve (capability : string) (payload : gmap string value) (granted : list string) : option ProviderOperationRequest :=
  match ResolveCapabilityOperation demo_marshal demo_provider (demo_request capability payload (decision granted)) with Ok op => Some op | Fail _ => None end.

Definition reads_only : list string := [" Salesforce:API.read"].
Definition reads_request : CapabilityOperationResolveRequest := demo_request "crm.accounts.bulk_export" ∅ (decision reads_only).

Lemma salesforce_export_guarded_witness :
  GrantAPIRead ∈ grants reads_only ∧
  (∃ op, ResolveCapabilityOperation demo_marshal demo_provider reads_request = Ok op ∧ tr_Method (po_TransportRequest op) = "GET") ∧
  (tr_Method ∘ po_TransportRequest <$> demo_resolve "crm.accounts.bulk_export" ∅ [GrantAPIRead; GrantBulkExport]) = Some "POST".
Proof.
  assert (Hs : match ResolveCapabilityOperation demo_marshal demo_provider reads_request with Ok _ => true | Fail _ => false end = true) by (vm_compute; reflexivity).
  destruct (ResolveCapabilityOperation demo_marshal demo_provider reads_request) as [o|] eqn:Hres; [clear Hs|discriminate Hs].
  destruct (salesforce_export_guarded demo_marshal (O := unit) (EnterpriseExample.the_evaluator ProviderID Capabilities) (λ _, "") (EnterpriseExample.the_service ProviderID Capabilities) (λ _, quiet 0 "")
    (mkInvoke ProviderID (mkScopeRef "org" "o1") "crm.accounts.bulk_export" ∅ "") (mkSvcState reads_only None None) (mkSvcState reads_only None None)
    (decision reads_only) (λ c, cs_Get reads_only (quiet 0 "") c) (EnterpriseExample.the_registry ProviderID Capabilities)
    (λ c, Ok (Some (mkSnapshot c 1 reads_only reads_only 0 ∅))) (EnterpriseExample.the_connection ProviderID)
    (EnterpriseExample.the_provider ProviderID Capabilities) (Some (mkSnapshot "c1" 1 reads_only reads_only 0 ∅)) demo_provider
    reads_request o) as [Hread Hop];
    [reflexivity|vm_compute; reflexivity|vm_compute; reflexivity|reflexivity|reflexivity|reflexivity|vm_compute; reflexivity|vm_compute; reflexivity|vm_compute; reflexivity|reflexivity|
     vm_compute; reflexivity|reflexivity|reflexivity|exact Hres|].
  destruct (decide _) as [Hin|_]; [exfalso; vm_compute in Hin; discriminate Hin|]. split; [exact Hread|]. split; [|vm_compute; reflexivity].
  exists o. split; [reflexivity|apply Hop].
Defined.

(** The gate compares the name of a capability without case; the provider does not: what is allowed need not be an operation. *)
Example capability_case_matters :
  match EnterpriseExample.decided ProviderID Capabilities "CRM.Accounts.Read" [GrantAPIRead] with Ok r => cr_Allowed r | Fail _ => false end = true ∧
  demo_resolve "CRM.Accounts.Read" ∅ [GrantAPIRead] = None.
Proof. split; vm_compute; reflexivity. Qed.

(** An export without a query does not run the default query: the absent entry prints as a text that is not empty. *)
Example export_queries_nil :
  (tr_Body ∘ po_TransportRequest <$> demo_resolve "crm.accounts.bulk_export" ∅ [GrantAPIRead; GrantBulkExport]) = Some "<nil>" ∧
  (tr_Body ∘ po_TransportRequest <$> demo_resolve "crm.accounts.bulk_export" {["query" := VString " "]} [GrantAPIRead; GrantBulkExport]) =
    Some "SELECT Id, Name FROM Account LIMIT 200".
Proof. split; vm_compute; reflexivity. Qed.

(** Every operation brings a credential of its own with a fixed token, which the runtime takes instead of the stored one. *)
Example operations_carry_placeholder_token :
  (ac_AccessToken <$> (demo_resolve "crm.accounts.read" ∅ [GrantAPIRead] ≫= po_Credential)) = Some "runtime_access_token".
Proof. vm_compute. reflexivity. Qed.

(** The scopes a completion asks the token endpoint for are the canonical names of the grants, not the scopes of the configuration. *)
Example requested_scopes_are_grants :
  with_default_grants demo_provider ∅ !! "requested_grants" = Some (VStrings [GrantAPIRead]) ∧ cl_DefaultScopes (sfp_strategy demo_provider) = [ScopeAPI].
Proof. split; vm_compute; reflexivity. Qed.
End demo.
End SalesforceExample.
