(* ===== verification/Workday.v ===== *)
(** * Workday (src/providers/workday/provider.go)

    A provider that needs no user: its grants, its authentication on top of the service account strategy, and the request each of its capabilities becomes.
    JSON, the cryptographic functions, URL parsing and the HTTP client are arguments. *)

From S2P Require Import Prelude GoStrings GoValues Domain OAuthState Contracts GoURL GoHTTP Grants Permissions ServiceTypes Connections Service Signers Errors ProviderOps Profiles OAuth2 AuthStrategies ServiceAccount EnterpriseProviders.
From Stdlib Require Import ZArith String Ascii Lia.
From stdpp Require Import base decidable list gmap strings sorting.

Local Open Scope string_scope.
Local Open Scope list_scope.

Definition ProviderID := "workday".
Definition DefaultTenantURL := "https://api.workday.com".
Definition GrantHRRead := "workday:hr.read".
Definition GrantCompRead := "workday:comp.read".
Definition GrantReportExport := "workday:report.export".

Definition Capabilities : list CapabilityDescriptor :=
  [mkCapability "hr.employees.read" [GrantHRRead] [] CapabilityDeniedBehaviorBlock;
   mkCapability "hr.compensation.read" [GrantHRRead] [GrantCompRead] CapabilityDeniedBehaviorDegrade;
   mkCapability "hr.reports.export" [GrantHRRead] [GrantReportExport] CapabilityDeniedBehaviorDegrade].

Definition canonical_grant (raw : string) : string :=
  let normalized := TrimPrefix (TrimSpace (ToLower raw)) "workday:" in
  if bool_decide (normalized ∈ ["hr"; "hr.read"; "human_resources"]) then GrantHRRead
  else if bool_decide (normalized ∈ ["comp"; "comp.read"; "compensation"]) then GrantCompRead
  else if bool_decide (normalized ∈ ["report"; "report.export"; "reports"; "reports.export"]) then GrantReportExport else "".
Definition normalizeCanonicalGrants (raw : list string) : list string := canonical_set canonical_grant raw.

Record Config := mkConfig {
  wd_Issuer : string; wd_Subject : string; wd_Audience : string; wd_SigningKey : string; wd_SigningAlgorithm : string; wd_KeyID : string; wd_TokenTTL : Duration;
  wd_TenantURL : string; wd_SupportedScopes : list string; wd_ExternalAccountID : string }.
Definition DefaultConfig : Config := mkConfig "" "" "" "" "" "" 0 DefaultTenantURL ["org"] "".
Record Provider := mkProvider { wdp_strategy : ServiceAccountJWTStrategyConfig; wdp_tenantURL : string; wdp_scopeTypes : list string }.
Inductive config_error := ErrIssuer | ErrAudience | ErrSigningKey.

Definition New (cfg : Config) : outcome config_error Provider :=
  let tenantURL := if blank (wd_TenantURL cfg) then DefaultTenantURL else wd_TenantURL cfg in
  let supported := or_else (wd_SupportedScopes cfg) ["org"] in
  if blank (wd_Issuer cfg) then Fail ErrIssuer
  else if blank (wd_Audience cfg) then Fail ErrAudience
  else if blank (wd_SigningKey cfg) then Fail ErrSigningKey
  else Ok (mkProvider
             (NewServiceAccountJWTStrategy (mkAccountConfig (TrimSpace (wd_Issuer cfg)) (TrimSpace (wd_Subject cfg)) (TrimSpace (wd_Audience cfg)) "" (TrimSpace (wd_SigningKey cfg))
                (TrimSpace (wd_SigningAlgorithm cfg)) (TrimSpace (wd_KeyID cfg)) (wd_TokenTTL cfg) (TrimSpace (wd_ExternalAccountID cfg))))
             (TrimRightSlash (TrimSpace tenantURL)) (org_scope_types supported)).

Definition normalizeWorkdayResponse (response : TransportResponse) : outcome GoError ProviderResponseMeta :=
  Ok (mkResponseMeta (tp_StatusCode response) (tp_Headers response) (retry_after (tp_Headers response)) {["provider" := VString "workday"]}).

(** The double quote, for the texts below. *)
Definition dq : string := String "034"%char "".
Definition soap (request : string) : string := "<wd:" +:+ request +:+ " xmlns:wd=" +:+ dq +:+ "urn:com.workday/bsvc" +:+ dq +:+ "></wd:" +:+ request +:+ ">".
Definition defaultWorkersEnvelope : string := soap "Get_Workers_Request".
Definition defaultCompEnvelope : string := soap "Get_Compensation_Review_Results_Request".
Definition defaultReport : string :=
  "{" +:+ dq +:+ "report" +:+ dq +:+ ":" +:+ dq +:+ "workers" +:+ dq +:+ "," +:+ dq +:+ "format" +:+ dq +:+ ":" +:+ dq +:+ "json" +:+ dq +:+ "}".

Definition resolveSOAPEnvelope (payload : gmap string value) (fallback : string) : string :=
  if bool_decide (payload = ∅) then fallback
  else let v := TrimSpace (Sprint (mapGet payload "soap_envelope")) in if String.eqb v "" then fallback else v.
(** The values of the model have no byte slices. *)
Definition resolveFilePayload (payload : gmap string value) : string :=
  if bool_decide (payload = ∅) then defaultReport
  else let text := TrimSpace (Sprint (mapGet payload "body")) in if String.eqb text "" || String.eqb text "<nil>" then defaultReport else text.

Inductive op_failure := ErrUnsupportedCapability (capability : string).

Definition soap_action (action : string) : gmap string string := {["SOAPAction" := action]}.
Definition degraded_mark : gmap string value := {["degraded" := VBool true]}.

Definition ResolveCapabilityOperation (p : Provider) (req : CapabilityOperationResolveRequest) : outcome op_failure ProviderOperationRequest :=
  let baseURL := if String.eqb (wdp_tenantURL p) "" then DefaultTenantURL else wdp_tenantURL p in
  let payload := ro_Payload req in
  let bucketKey := firstNonEmpty [TrimSpace (ro_BucketKey req); "workday.hr"] in
  let operation := TrimSpace (ro_Operation req) in
  let op default_operation kind request := capability_operation req bucketKey operation default_operation kind request normalizeWorkdayResponse in
  let capability := TrimSpace (ro_Capability req) in
  let workers metadata := plain_request "POST" (baseURL +:+ "/ccx/service/Human_Resources/v43.0") (soap_action "Get_Workers") ∅ (resolveSOAPEnvelope payload defaultWorkersEnvelope) metadata in
  if String.eqb capability "hr.employees.read" then Ok (op "workday.hr.employees.read" (resolveTransportKind (ro_TransportKind req) "soap") (workers ∅))
  else if String.eqb capability "hr.compensation.read" then
    if shouldDegrade (ro_Decision req) then Ok (op "workday.hr.compensation.read.degraded" "soap" (workers degraded_mark))
    else Ok (op "workday.hr.compensation.read" (resolveTransportKind (ro_TransportKind req) "soap")
               (plain_request "POST" (baseURL +:+ "/ccx/service/Compensation/v43.0") (soap_action "Get_Compensation_Review_Results") ∅ (resolveSOAPEnvelope payload defaultCompEnvelope) ∅))
  else if String.eqb capability "hr.reports.export" then
    if shouldDegrade (ro_Decision req) then
      Ok (op "workday.hr.reports.export.degraded" "stream"
            (plain_request "GET" (baseURL +:+ "/ccx/api/reporting/v1/workers/summary") ∅ {["limit" := resolveLimit payload 100]} "" degraded_mark))
    else Ok (op "workday.hr.reports.export" (resolveTransportKind (ro_TransportKind req) "file")
               (plain_request "POST" (baseURL +:+ "/ccx/exports/reports/workers") {["Content-Type" := "application/json"]} ∅ (resolveFilePayload payload) ∅))
  else Fail (ErrUnsupportedCapability (ro_Capability req)).

(** ** Authentication, for a caller that does not take the strategy itself *)

Definition canonical_credential (c : ActiveCredential) : ActiveCredential :=
  mkActiveCredential (ac_ConnectionID c) (ac_TokenType c) (ac_AccessToken c) (ac_RefreshToken c) (normalizeCanonicalGrants (ac_RequestedScopes c))
    (normalizeCanonicalGrants (ac_GrantedScopes c)) (ac_ExpiresAt c) (ac_Refreshable c) (ac_RotatesAt c) (ac_Metadata c).

Section auth.
Variable C : jwt_crypto.
Variable json_Marshal : gmap string value → outcome string string.
Variable json_account : string → option googleServiceAccountJSON.
Variable json_token : string → option google_token.
Variable parseURL : string → outcome string URL.
Definition BeginAuth (req : BeginAuthRequest) : BeginAuthResponse :=
  account_Begin (mkAuthBegin (ba_Scope req) (ba_RedirectURI req) (ba_State req) (ba_RequestedGrants req) (ba_Metadata req)).
Definition CompleteAuth (p : Provider) (client : HTTPDoer) (clock now : Time) (req : CompleteAuthRequest) : outcome sa_error AuthCompleteResponse :=
  match Account_Complete C json_Marshal json_account json_token parseURL (wdp_strategy p) client clock now
          (mkAuthComplete (ca_Scope req) (ca_Code req) (ca_State req) (ca_RedirectURI req) (ca_Metadata req)) with
  | Fail err => Fail err
  | Ok r => Ok (mkCompleteResponse (ar_ExternalAccountID r) (canonical_credential (ar_Credential r)) (normalizeCanonicalGrants (ar_RequestedGrants r))
                  (normalizeCanonicalGrants (ar_GrantedGrants r)) (ar_Metadata r))
  end.
Definition Refresh (p : Provider) (client : HTTPDoer) (clock now : Time) (cred : ActiveCredential) : outcome sa_error RefreshResult :=
  match Account_Refresh C json_Marshal json_account json_token parseURL (wdp_strategy p) client clock now cred with
  | Fail err => Fail err
  | Ok r => Ok (mkRefreshResult (canonical_credential (rr_Credential r)) (normalizeCanonicalGrants (rr_GrantedGrants r)) (rr_Metadata r))
  end.
End auth.

(** ** What the provider asks for *)

Lemma workday_grant_stable raw : canonical_grant (canonical_grant raw) = canonical_grant raw.
Proof. unfold canonical_grant at 2 3. by repeat (case_bool_decide; [vm_compute; reflexivity|]). Qed.

(** Grants that are normalised again stay as they are. *)
Theorem workday_grants_stable raw : normalizeCanonicalGrants (normalizeCanonicalGrants raw) = normalizeCanonicalGrants raw.
Proof. apply canonical_set_stable, workday_grant_stable. Qed.

(** Exactly the declared capabilities become an operation. *)
Theorem workday_operations (p : Provider) req :
  TrimSpace (ro_Capability req) ∈ cap_Name <$> Capabilities ↔ ∃ op, ResolveCapabilityOperation p req = Ok op.
Proof.
  unfold ResolveCapabilityOperation. cbv zeta.
  destruct (String.eqb_spec (TrimSpace (ro_Capability req)) "hr.employees.read") as [->|H1]; [split; [eauto|set_solver]|].
  destruct (String.eqb_spec (TrimSpace (ro_Capability req)) "hr.compensation.read") as [->|H2]; [split; [destruct (shouldDegrade _); eauto|set_solver]|].
  destruct (String.eqb_spec (TrimSpace (ro_Capability req)) "hr.reports.export") as [->|H3]; [split; [destruct (shouldDegrade _); eauto|set_solver]|].
  split; [set_solver|by intros [? ?]].
Qed.

Section facts.
Context {MR : MapRange} {E W O : Type} {cs : ConnectionStore E W} (evaluator : W → GrantPermissionEvaluator E).
Variable scope_error_text : domain_error → string.

(** What a capability with an optional grant may reach only with it, and what is sent in its place. *)
Definition full_access (capability : string) : option (string * string) :=
  if String.eqb capability "hr.compensation.read" then Some (GrantCompRead, "/ccx/service/Compensation/v43.0")
  else if String.eqb capability "hr.reports.export" then Some (GrantReportExport, "/ccx/exports/reports/workers") else None.

Lemma full_access_declared capability g path :
  full_access capability = Some (g, path) →
  ∃ desc, findCapabilityDescriptor Capabilities capability = Some desc ∧ cap_DeniedBehavior desc = CapabilityDeniedBehaviorDegrade ∧
    grants (cap_RequiredGrants desc) = {[GrantHRRead]} ∧ grants (cap_OptionalGrants desc) = {[g]}.
Proof.
  unfold full_access. destruct (String.eqb_spec capability "hr.compensation.read") as [->|_]; [|destruct (String.eqb_spec capability "hr.reports.export") as [->|_]; [|done]];
    intros [= <- <-]; eexists; (split; [vm_compute; reflexivity|]); split_and!; vm_compute; reflexivity.
Qed.

(** The compensation of the workers and the export of their reports are reached only with the grant for them.  A connection that has the grant for reading alone gets the marked
    request for the workers or their summary, at another address of the tenant; without that grant nothing is allowed. *)
Theorem workday_access_guarded v env req (st st' : SvcState W O) r getConnection registry getSnapshot connection provider snapshot (p : Provider) oreq op g path :
  svc_permissionEvaluator v = Some (λ db, EvaluateCapability (evaluator db)) →
  InvokeCapability scope_error_text v env req st = (Ok r, st') → cr_Allowed r = true →
  pe_ConnectionStore (evaluator (s_db st)) = Some getConnection → pe_Registry (evaluator (s_db st)) = Some registry →
  pe_GrantStore (evaluator (s_db st)) = Some getSnapshot → getConnection (conn_ID (cr_Connection r)) = Ok connection →
  Registry_Get registry (conn_ProviderID connection) = Some provider → getSnapshot (conn_ID (cr_Connection r)) = Ok snapshot →
  prov_Capabilities provider = Capabilities → full_access (TrimSpace (iq_Capability req)) = Some (g, path) →
  ro_Capability oreq = iq_Capability req → ro_Decision oreq = r → ResolveCapabilityOperation p oreq = Ok op →
  let base := if String.eqb (wdp_tenantURL p) "" then DefaultTenantURL else wdp_tenantURL p in
  GrantHRRead ∈ granted_by snapshot ∧
  if decide (g ∈ granted_by snapshot)
  then tr_URL (po_TransportRequest op) = base +:+ path ∧ tr_Metadata (po_TransportRequest op) = ∅
  else (tr_URL (po_TransportRequest op) = base +:+ "/ccx/service/Human_Resources/v43.0" ∨ tr_URL (po_TransportRequest op) = base +:+ "/ccx/api/reporting/v1/workers/summary") ∧
       tr_Metadata (po_TransportRequest op) !! "degraded" = Some (VBool true).
Proof.
  intros Hev H Ha Hcs Hreg Hgs Hget Hprov Hsnap Hcaps Hcap Hro Hdec Hop base.
  destruct (full_access_declared _ _ _ Hcap) as (desc & Hfind & Hbeh & Hr & Ho).
  destruct (degrades_exactly scope_error_text evaluator v env req st st' r getConnection registry getSnapshot connection provider snapshot desc g) as [Hreq Hdeg]; [done..| |done|done|].
  { rewrite Hcaps. unfold findCapabilityDescriptor in *. by rewrite TrimSpace_idem in Hfind. }
  split; [set_solver|]. unfold ResolveCapabilityOperation in Hop. rewrite Hro, Hdec, Hdeg in Hop. cbv zeta in Hop. unfold full_access in Hcap.
  destruct (String.eqb_spec (TrimSpace (iq_Capability req)) "hr.compensation.read") as [E1|_]; [rewrite E1 in Hop|
    destruct (String.eqb_spec (TrimSpace (iq_Capability req)) "hr.reports.export") as [E2|_]; [rewrite E2 in Hop|done]];
    injection Hcap as <- <-; simpl in Hop; (destruct (decide _) as [Hin|Hin];
      [rewrite bool_decide_eq_false_2 in Hop by naive_solver|rewrite bool_decide_eq_true_2 in Hop by done]); apply Ok_inj in Hop as <-; simpl; split; auto.
Qed.
End facts.

(** ** Evaluations *)

Module WorkdayExample.
Section demo.
#[local] Existing Instance key_order_range.
#[local] Instance demo_store : ConnectionStore string (list string) := EnterpriseExample.one_connection ProviderID.

Definition decision (granted : list string) : CapabilityResult :=
  match EnterpriseExample.decided ProviderID Capabilities "hr.compensation.read" granted with Ok r => r | Fail _ => mkCapabilityResult false "" "" emptyConnection ∅ end.
Definition demo_provider : Provider :=
  mkProvider (NewServiceAccountJWTStrategy (mkAccountConfig "" "" "" "" "" "" "" 0 "")) "https://acme.workday.com" [].
Definition demo_request (payload : gmap string value) (d : CapabilityResult) : CapabilityOperationResolveRequest :=
  mkResolveOperation ProviderID (mkScopeRef "org" "o1") "hr.compensation.read" payload (cr_Connection d) d "" "" "" ∅ ∅.
Definition reads_only : list string := [GrantHRRead].
Definition reads_request : CapabilityOperationResolveRequest := demo_request ∅ (decision reads_only).

Lemma workday_access_guarded_witness :
  ∃ op, ResolveCapabilityOperation demo_provider reads_request = Ok op ∧ tr_Metadata (po_TransportRequest op) !! "degraded" = Some (VBool true).
Proof.
  assert (Hs : match ResolveCapabilityOperation demo_provider reads_request with Ok _ => true | Fail _ => false end = true) by (vm_compute; reflexivity).
  destruct (ResolveCapabilityOperation demo_provider reads_request) as [o|] eqn:Hres; [clear Hs|discriminate Hs]. exists o. split; [reflexivity|].
  destruct (workday_access_guarded (O := unit) (EnterpriseExample.the_evaluator ProviderID Capabilities) (λ _, "") (EnterpriseExample.the_service ProviderID Capabilities) (λ _, quiet 0 "")
    (mkInvoke ProviderID (mkScopeRef "org" "o1") "hr.compensation.read" ∅ "") (mkSvcState reads_only None None) (mkSvcState reads_only None None)
    (decision reads_only) (λ c, cs_Get reads_only (quiet 0 "") c) (EnterpriseExample.the_registry ProviderID Capabilities)
    (λ c, Ok (Some (mkSnapshot c 1 reads_only reads_only 0 ∅))) (EnterpriseExample.the_connection ProviderID)
    (EnterpriseExample.the_provider ProviderID Capabilities) (Some (mkSnapshot "c1" 1 reads_only reads_only 0 ∅)) demo_provider
    reads_request o GrantCompRead "/ccx/service/Compensation/v43.0") as [Hread Hop];
    [reflexivity|vm_compute; reflexivity|vm_compute; reflexivity|reflexivity|reflexivity|reflexivity|vm_compute; reflexivity|vm_compute; reflexivity|vm_compute; reflexivity|reflexivity|
     vm_compute; reflexivity|reflexivity|reflexivity|exact Hres|].
  destruct (decide _) as [Hin|_]; [exfalso; vm_compute in Hin; discriminate Hin|apply Hop].
Defined.

(** A payload without an envelope does not get the default one, unless it is empty: the absent entry prints as a text that is not empty. *)
Example missing_envelope_sends_nil :
  resolveSOAPEnvelope {["worker" := VString "7"]} defaultCompEnvelope = "<nil>" ∧ resolveSOAPEnvelope ∅ defaultCompEnvelope = defaultCompEnvelope.
Proof. split; vm_compute; reflexivity. Qed.
End demo.
End WorkdayExample.
