(* ===== verification/Amazon.v ===== *)
(** * Amazon (src/providers/amazon/provider.go)

    The OAuth provider of the selling partner API whose requests are signed with AWS signature version 4: its configuration, the metadata it keeps on a credential, and the
    signer that takes the region from the host of the request.  JSON, URL parsing, the HTTP client and the hash functions are arguments. *)

From S2P Require Import Prelude GoStrings GoValues Domain OAuthState Contracts GoURL WebhookTypes GoHTTP Grants Permissions ServiceTypes Connections Service Signers Profiles OAuth2 WebhookTemplates AuthStrategies ServiceAccount EnterpriseProviders.
From Stdlib Require Import ZArith String Ascii Lia.
From stdpp Require Import base decidable list gmap strings sorting.

Local Open Scope string_scope.
Local Open Scope list_scope.

Definition ProviderID := "amazon".
Definition AuthURL := "https://sellercentral.amazon.com/apps/authorize/consent".
Definition TokenURL := "https://api.amazon.com/auth/o2/token".
Definition ScopeCatalogRead := "sellingpartnerapi::catalog".
Definition ScopeInventoryRead := "sellingpartnerapi::inventory".
Definition ScopeOrdersRead := "sellingpartnerapi::orders".
Definition GrantCatalogRead := "amazon:catalog.read".
Definition GrantInventoryRead := "amazon:inventory.read".
Definition GrantOrdersRead := "amazon:orders.read".
Definition defaultAWSService := "execute-api".
Definition defaultAWSSigningMode := "header".
Definition defaultAWSAccessTokenHeader := "x-amz-access-token".
Definition defaultAmazonHostRegionMap : gmap string string :=
  {["sellingpartnerapi-na.amazon.com" := "us-east-1"; "sandbox.sellingpartnerapi-na.amazon.com" := "us-east-1";
    "sellingpartnerapi-eu.amazon.com" := "eu-west-1"; "sandbox.sellingpartnerapi-eu.amazon.com" := "eu-west-1";
    "sellingpartnerapi-fe.amazon.com" := "us-west-2"; "sandbox.sellingpartnerapi-fe.amazon.com" := "us-west-2"]}.

Record SigV4Config := mkSigV4Config {
  az_AccessKeyID : string; az_SecretAccessKey : string; az_SessionToken : string; az_Region : string; az_Service : string; az_SigningMode : string;
  az_SigningExpiresSec : Z; az_UnsignedPayload : bool; az_AccessTokenHeader : string; az_HostRegionMap : gmap string string }.
Record Config := mkConfig {
  cfg_ClientID : string; cfg_ClientSecret : string; cfg_AuthURL : string; cfg_TokenURL : string; cfg_DefaultScopes : list string; cfg_SupportedScopeTypes : list string;
  cfg_TokenTTL : Duration; cfg_SigV4 : SigV4Config }.
Record Provider := mkProvider { azp_oauth : OAuth2Config; azp_sigv4 : SigV4Config }.

Definition BaselineCapabilities : list CapabilityDescriptor :=
  [mkCapability "catalog.read" [GrantCatalogRead] [] CapabilityDeniedBehaviorBlock; mkCapability "inventory.read" [GrantInventoryRead] [] CapabilityDeniedBehaviorBlock;
   mkCapability "orders.read" [GrantOrdersRead] [] CapabilityDeniedBehaviorBlock].

Definition normalizeAmazonScope (value : string) : string :=
  let normalized := ReplaceAll (TrimPrefix (TrimPrefix (TrimSpace (ToLower value)) "amazon:") "amazon_sp_api:") " " "" in
  if bool_decide (normalized ∈ [ScopeCatalogRead; "catalog"; "catalog.read"; "catalog_read"; "sellingpartnerapi::catalogitems"]) then ScopeCatalogRead
  else if bool_decide (normalized ∈ [ScopeInventoryRead; "inventory"; "inventory.read"; "inventory_read"; "sellingpartnerapi::inventoryitems"]) then ScopeInventoryRead
  else if bool_decide (normalized ∈ [ScopeOrdersRead; "orders"; "orders.read"; "orders_read"; "sellingpartnerapi::orders_v0"]) then ScopeOrdersRead else "".
Definition normalizeAmazonGrant (value : string) : string :=
  let scope := normalizeAmazonScope value in
  if String.eqb scope ScopeCatalogRead then GrantCatalogRead else if String.eqb scope ScopeInventoryRead then GrantInventoryRead
  else if String.eqb scope ScopeOrdersRead then GrantOrdersRead else "".
Definition normalizeAmazonScopes (scopes : list string) : list string := canonical_set normalizeAmazonScope scopes.
Definition normalizeCanonicalGrants (grants : list string) : list string := canonical_set normalizeAmazonGrant grants.

Definition normalizeHost (host : string) : string :=
  let trimmed := TrimSpace (ToLower host) in
  TrimSpace (match CutChar ":" trimmed with Some (parsed, _) => parsed | None => trimmed end).

Section config.
Context {MR : MapRange}.

Definition add_host (m : gmap string string) (kv : string * string) : gmap string string :=
  let host := normalizeHost kv.1 in let region := ToLower (TrimSpace kv.2) in
  if String.eqb host "" || String.eqb region "" then m else <[host := region]> m.

Definition normalizeSigV4Config (cfg : SigV4Config) : outcome string SigV4Config :=
  let access := TrimSpace (az_AccessKeyID cfg) in
  let secret := TrimSpace (az_SecretAccessKey cfg) in
  let service := TrimSpace (az_Service cfg) in
  let header := ToLower (TrimSpace (az_AccessTokenHeader cfg)) in
  let hosts := foldl add_host defaultAmazonHostRegionMap (map_range (az_HostRegionMap cfg)) in
  let region := ToLower (TrimSpace (az_Region cfg)) in
  let region := if String.eqb region "" then default "" (hosts !! "sellingpartnerapi-na.amazon.com") else region in
  if String.eqb access "" then Fail "sigv4 access key id is required"
  else if String.eqb secret "" then Fail "sigv4 secret access key is required"
  else if String.eqb region "" then Fail "sigv4 region is required"
  else Ok (mkSigV4Config access secret (TrimSpace (az_SessionToken cfg)) region (if String.eqb service "" then defaultAWSService else service)
             (normalizeSigningMode (az_SigningMode cfg)) (az_SigningExpiresSec cfg) (az_UnsignedPayload cfg)
             (if String.eqb header "" then defaultAWSAccessTokenHeader else header) hosts).

Inductive amazon_error := AzErrProfile (what : string) | AzErrOAuth (e : oauth2_error).

Definition DefaultConfig : Config :=
  mkConfig "" "" AuthURL TokenURL [ScopeCatalogRead; ScopeInventoryRead; ScopeOrdersRead] ["org"] 0
    (mkSigV4Config "" "" "" "us-east-1" defaultAWSService defaultAWSSigningMode 0 false defaultAWSAccessTokenHeader defaultAmazonHostRegionMap).

Definition New (cfg : Config) : outcome amazon_error Provider :=
  match normalizeSigV4Config (cfg_SigV4 cfg) with
  | Fail e => Fail (AzErrProfile e)
  | Ok sigv4 =>
    match NewOAuth2Provider (mkOAuth2Config ProviderID (if blank (cfg_AuthURL cfg) then AuthURL else cfg_AuthURL cfg) (if blank (cfg_TokenURL cfg) then TokenURL else cfg_TokenURL cfg)
            (cfg_ClientID cfg) (cfg_ClientSecret cfg) false (normalizeAmazonScopes (or_else (cfg_DefaultScopes cfg) (cfg_DefaultScopes DefaultConfig)))
            (or_else (cfg_SupportedScopeTypes cfg) (cfg_SupportedScopeTypes DefaultConfig)) BaselineCapabilities (cfg_TokenTTL cfg) 0 None) with
    | Fail e => Fail (AzErrOAuth e)
    | Ok oauth => Ok (mkProvider oauth sigv4)
    end
  end.

(** ** Credentials *)

Definition resolveRegionForHost (p : SigV4Config) (host : string) : string :=
  let normalized := normalizeHost host in
  if String.eqb normalized "" then "" else ToLower (TrimSpace (default "" (az_HostRegionMap p !! normalized))).
(** The value of the request, of the configuration or of the credential; values of any type are read as texts. *)
Definition setting (runtime : gmap string value) (configured : string) (metadata : gmap string value) (keys : list string) : string :=
  firstNonEmpty [firstString runtime keys; configured; firstString metadata keys].
Definition put_expires (p : SigV4Config) (m : gmap string value) : gmap string value :=
  if (0 <? az_SigningExpiresSec p)%Z then <["aws_signing_expires" := VString (Itoa (az_SigningExpiresSec p))]> m else m.

(** Each assignment is made to the map that the next value is read from. *)
Definition applied (p : SigV4Config) (base runtime : gmap string value) (host : string) : gmap string value :=
  let put m k v := <[k := VString v]> m in
  let m := put base "auth_kind" AuthKindAWSSigV4 in
  let m := put m "aws_access_key_id" (setting runtime (az_AccessKeyID p) m ["aws_access_key_id"; "access_key_id"]) in
  let m := put m "aws_secret_access_key" (setting runtime (az_SecretAccessKey p) m ["aws_secret_access_key"; "secret_access_key"]) in
  let m := put m "aws_session_token" (setting runtime (az_SessionToken p) m ["aws_session_token"; "session_token"]) in
  let region := firstNonEmpty [firstString runtime ["aws_region"; "region"]; firstString m ["aws_region"; "region"]] in
  let hostRegion := resolveRegionForHost p host in
  let region := if String.eqb hostRegion "" then region else hostRegion in
  let region := if String.eqb region "" then az_Region p else region in
  let m := put m "aws_region" (ToLower (TrimSpace region)) in
  let m := put m "aws_service" (setting runtime (az_Service p) m ["aws_service"; "service"]) in
  let m := put m "aws_signing_mode" (normalizeSigningMode (setting runtime (az_SigningMode p) m ["aws_signing_mode"; "signing_mode"])) in
  let header := firstNonEmpty [ToLower (firstString runtime ["aws_access_token_header"]); ToLower (TrimSpace (az_AccessTokenHeader p));
                               ToLower (firstString m ["aws_access_token_header"])] in
  let m := put m "aws_access_token_header" (if String.eqb header "" then defaultAWSAccessTokenHeader else header) in
  <["aws_unsigned_payload" := VBool (az_UnsignedPayload p)]> (put_expires p m).

Definition applySigV4Metadata (p : SigV4Config) (base runtime : gmap string value) (host : string) : outcome string (gmap string value) :=
  let m := applied p base runtime host in
  if blank (firstString m ["aws_access_key_id"; "access_key_id"]) then Fail "aws_access_key_id is required for sigv4 signing"
  else if blank (firstString m ["aws_secret_access_key"; "secret_access_key"]) then Fail "aws_secret_access_key is required for sigv4 signing"
  else if blank (firstString m ["aws_region"; "region"]) then Fail "aws_region is required for sigv4 signing"
  else if blank (firstString m ["aws_service"; "service"]) then Fail "aws_service is required for sigv4 signing"
  else Ok m.

Definition signing_marks (credential metadata : gmap string value) : gmap string value :=
  <["aws_service" := mapGet credential "aws_service"]> (<["aws_region" := mapGet credential "aws_region"]> (<["signing_profile" := VString AuthKindAWSSigV4]> metadata)).

Section auth.
Variable json_Unmarshal : string → outcome string (gmap string value).
Variable parseURL : string → outcome string URL.
Variable oor : Z.
Definition Amazon_CompleteAuth (p : Provider) (client : HTTPDoer) (now : Time) (req : CompleteAuthRequest) : outcome amazon_error AuthCompleteResponse :=
  match CompleteAuth json_Unmarshal parseURL oor (azp_oauth p) client now req with
  | Fail e => Fail (AzErrOAuth e)
  | Ok r =>
    match applySigV4Metadata (azp_sigv4 p) (ac_Metadata (ar_Credential r)) (ca_Metadata req) "" with
    | Fail e => Fail (AzErrProfile e)
    | Ok m => Ok (mkCompleteResponse (ar_ExternalAccountID r) (with_credential_metadata (ar_Credential r) m) (ar_RequestedGrants r) (ar_GrantedGrants r)
                    (signing_marks m (ar_Metadata r)))
    end
  end.
Definition Amazon_Refresh (p : Provider) (client : HTTPDoer) (now : Time) (cred : ActiveCredential) : outcome amazon_error RefreshResult :=
  match OAuth2_Refresh json_Unmarshal parseURL oor (azp_oauth p) client now cred with
  | Fail e => Fail (AzErrOAuth e)
  | Ok r =>
    match applySigV4Metadata (azp_sigv4 p) (ac_Metadata (rr_Credential r)) (ac_Metadata cred) "" with
    | Fail e => Fail (AzErrProfile e)
    | Ok m => Ok (mkRefreshResult (with_credential_metadata (rr_Credential r) m) (rr_GrantedGrants r) (signing_marks m (rr_Metadata r)))
    end
  end.
End auth.

(** ** The signer *)

Definition signer_hosts (p : SigV4Config) : gmap string string :=
  foldl (λ m kv, <[normalizeHost kv.1 := ToLower (TrimSpace kv.2)]> m) defaultAmazonHostRegionMap (map_range (az_HostRegionMap p)).

(** The metadata a request is signed with. *)
Definition signer_metadata (p : SigV4Config) (metadata : gmap string value) (url_host : string) : gmap string value :=
  let put m k v := <[k := VString v]> m in
  let m := put metadata "auth_kind" AuthKindAWSSigV4 in
  let m := put m "aws_access_key_id" (firstNonEmpty [firstString m ["aws_access_key_id"; "access_key_id"]; az_AccessKeyID p]) in
  let m := put m "aws_secret_access_key" (firstNonEmpty [firstString m ["aws_secret_access_key"; "secret_access_key"]; az_SecretAccessKey p]) in
  let m := put m "aws_session_token" (firstNonEmpty [firstString m ["aws_session_token"; "session_token"]; az_SessionToken p]) in
  let m := put m "aws_service" (firstNonEmpty [firstString m ["aws_service"; "service"]; az_Service p]) in
  let m := put m "aws_signing_mode" (normalizeSigningMode (firstNonEmpty [firstString m ["aws_signing_mode"; "signing_mode"]; az_SigningMode p])) in
  let header := firstNonEmpty [ToLower (firstString m ["aws_access_token_header"]); ToLower (az_AccessTokenHeader p)] in
  let m := put m "aws_access_token_header" (if String.eqb header "" then defaultAWSAccessTokenHeader else header) in
  let m := <["aws_unsigned_payload" := VBool (az_UnsignedPayload p)]> (put_expires p m) in
  let hostRegion := TrimSpace (default "" (signer_hosts p !! normalizeHost url_host)) in
  put m "aws_region" (if String.eqb hostRegion "" then firstNonEmpty [firstString m ["aws_region"; "region"]; az_Region p] else ToLower hostRegion).

Section sign.
Variable sha256 : string → string.
Variable hmacSHA256 : string → string → string.
Variable EscapedPath : URL → string.
Variable time_Format : Time → string → string.
Definition Amazon_Sign (p : SigV4Config) (now : Time) (req : HttpRequest) (cred : ActiveCredential) : outcome sign_error HttpRequest :=
  SigV4_Sign sha256 hmacSHA256 time_Format EscapedPath emptySigV4 now req (with_credential_metadata cred (signer_metadata p (ac_Metadata cred) (u_Host (hr_URL req)))).
End sign.
End config.

(** ** Hosts *)

Definition before_colon (s : string) : string := match CutChar ":" s with Some (parsed, _) => parsed | None => s end.
Definition no_colon (s : string) : Prop := Forall (λ c, Ascii.eqb c ":" = false) (list_ascii_of_string s).

Lemma before_colon_clean s : no_colon (before_colon s).
Proof.
  unfold before_colon, no_colon. induction s as [|c s IH]; [constructor|]. simpl. destruct (Ascii.eqb c ":") eqn:E; [constructor|].
  destruct (CutChar ":" s) as [[a b]|]; simpl; by constructor.
Qed.
Lemma before_colon_id s : no_colon s → before_colon s = s.
Proof.
  unfold before_colon, no_colon. intros H. assert (E : CutChar ":" s = None); [|by rewrite E].
  induction s as [|c s IH]; [done|]. simpl in *. inversion H as [|x y Hx Hy]; subst. by rewrite Hx, IH.
Qed.
Lemma lower_colon c : Ascii.eqb (lower_ascii c) ":" = Ascii.eqb c ":".
Proof. destruct c as [[] [] [] [] [] [] [] []]; reflexivity. Qed.
Lemma before_colon_lower s : before_colon (ToLower s) = ToLower (before_colon s).
Proof.
  unfold before_colon. induction s as [|c s IH]; [done|]. change (ToLower (String c s)) with (String (lower_ascii c) (ToLower s)). simpl. rewrite lower_colon.
  destruct (Ascii.eqb c ":"); [done|]. destruct (CutChar ":" s) as [[a b]|], (CutChar ":" (ToLower s)) as [[a' b']|]; simpl in *; try (by rewrite IH); subst; done.
Qed.
Lemma TrimSpace_no_colon s : no_colon s → no_colon (TrimSpace s).
Proof.
  unfold no_colon, TrimSpace. rewrite list_ascii_of_string_of_list_ascii. intros H. unfold trim_right, trim_left. rewrite Forall_reverse.
  assert (Hs : ∀ w2 w3 l, Forall (λ c, Ascii.eqb c ":" = false) l → Forall (λ c, Ascii.eqb c ":" = false) (trim_runes w2 w3 l)).
  { intros w2 w3 l Hl. destruct (trim_runes_suffix w2 w3 (length l) l) as [k Hk]; [done|]. rewrite Hk in Hl. by apply Forall_app in Hl as [_ ?]. }
  apply Hs. rewrite Forall_reverse. by apply Hs.
Qed.
Lemma normalizeHost_before host : normalizeHost host = TrimSpace (before_colon (TrimSpace (ToLower host))).
Proof. done. Qed.
Lemma normalizeHost_idem host : normalizeHost (normalizeHost host) = normalizeHost host.
Proof.
  rewrite !normalizeHost_before. set (b := before_colon (TrimSpace (ToLower host))).
  assert (Hl : ToLower b = b) by (unfold b; by rewrite <-before_colon_lower, ToLower_TrimSpace, ToLower_idem).
  rewrite ToLower_TrimSpace, Hl, TrimSpace_idem, before_colon_id; [by rewrite TrimSpace_idem|]. apply TrimSpace_no_colon, before_colon_clean.
Qed.

(** A map from normalised hosts to regions. *)
Definition hosts_normal (m : gmap string string) : Prop := map_Forall (λ host region, normalizeHost host = host ∧ ToLower (TrimSpace region) = region ∧ region ≠ "") m.

Lemma lower_region r : ToLower (TrimSpace (ToLower (TrimSpace r))) = ToLower (TrimSpace r).
Proof. rewrite <-ToLower_TrimSpace, TrimSpace_idem, ToLower_idem. done. Qed.
Lemma default_hosts_normal : hosts_normal defaultAmazonHostRegionMap.
Proof. apply (bool_decide_unpack (map_Forall _ _)). vm_compute. exact I. Qed.
Lemma add_host_normal m kv : hosts_normal m → hosts_normal (add_host m kv).
Proof.
  intros Hm. unfold add_host. cbv zeta. destruct (String.eqb_spec (normalizeHost kv.1) ""), (String.eqb_spec (ToLower (TrimSpace kv.2)) ""); try done.
  apply map_Forall_insert_2; [|done]. split_and!; [apply normalizeHost_idem|apply lower_region|done].
Qed.
Lemma add_host_keeps m kv : dom m ⊆ dom (add_host m kv).
Proof. unfold add_host. cbv zeta. destruct (_ || _); set_solver. Qed.
Lemma fold_hosts l m : hosts_normal m → hosts_normal (foldl add_host m l) ∧ dom m ⊆ dom (foldl add_host m l).
Proof.
  revert m. induction l as [|kv l IH]; intros m Hm; simpl; [done|]. destruct (IH (add_host m kv)) as [H1 H2]; [by apply add_host_normal|].
  split; [done|]. etrans; [apply add_host_keeps|done].
Qed.

Section hosts.
Context {MR : MapRange}.
(** Adding the entries of a normalised map to another one gives this map, if it has every host of the other one. *)
Lemma fold_normal (l : list (string * string)) (m : gmap string string) :
  Forall (λ kv : string * string, normalizeHost kv.1 = kv.1 ∧ ToLower (TrimSpace kv.2) = kv.2) l → NoDup l.*1 →
  foldl (λ m kv, <[normalizeHost kv.1 := ToLower (TrimSpace kv.2)]> m) m l = (list_to_map l : gmap string string) ∪ m.
Proof.
  revert m. induction l as [|[k v] l IH]; intros m Hl Hnd; simpl; [by rewrite map_empty_union|].
  apply Forall_cons in Hl as [[Hk Hv] Hl]. simpl in *. rewrite Hk, Hv. apply NoDup_cons in Hnd as [Hnin Hnd]. rewrite IH by done.
  rewrite <-insert_union_l, <-insert_union_r; [done|]. by apply not_elem_of_list_to_map_1.
Qed.
Lemma normal_hosts_kept (m base : gmap string string) : hosts_normal m → dom base ⊆ dom m →
  foldl (λ m kv, <[normalizeHost kv.1 := ToLower (TrimSpace kv.2)]> m) base (map_range m) = m.
Proof.
  intros Hm Hdom. rewrite fold_normal.
  - assert (E : (list_to_map (map_range m) : gmap string string) = m).
    { rewrite <-(list_to_map_to_list m) at 2. apply list_to_map_proper; [apply NoDup_map_range|apply map_range_perm]. }
    rewrite E. apply map_eq. intros i. destruct (m !! i) as [v|] eqn:Hi; [by apply lookup_union_Some_l|].
    rewrite lookup_union_r by done. apply not_elem_of_dom. intros ?%Hdom. by apply elem_of_dom in H as [? ?]; simplify_eq.
  - apply Forall_forall. intros [k v] Hin%elem_of_map_range. destruct (Hm k v Hin) as (? & ? & ?). done.
  - apply NoDup_map_range.
Qed.
End hosts.

(** ** Credentials that sign *)

Lemma firstString_ext m m' keys : Forall (λ k, m !! k = m' !! k) keys → firstString m keys = firstString m' keys.
Proof. induction 1 as [|k keys Hk _ IH]; [done|]. cbn [firstString]. by rewrite Hk, IH. Qed.
Lemma firstString_read m k v rest : m !! k = Some (VString v) → TrimSpace v = v → v ≠ "" → firstString m (k :: rest) = v.
Proof. intros Hk Ht Hv. cbn [firstString]. rewrite Hk. cbn [Sprint]. rewrite blank_neq by done. by apply String.eqb_neq in Hv as ->. Qed.
Lemma metadataString_read m k v rest : m !! k = Some (VString v) → k ≠ "" → TrimSpace v = v → v ≠ "" → metadataString m (k :: rest) = v.
Proof. intros Hk Hn Ht Hv. cbn [metadataString]. apply String.eqb_neq in Hn as ->. rewrite Hk, blank_neq by done. by apply String.eqb_neq in Hv as ->. Qed.
(** A value that is configured is not missing. *)
Lemma firstNonEmpty_configured l v : v ∈ l → TrimSpace v = v → v ≠ "" → firstNonEmpty l ≠ "".
Proof.
  intros Hin Ht Hv He. apply firstNonEmpty_nil in He. rewrite Forall_forall in He. specialize (He v Hin). rewrite blank_neq in He by done. by apply String.eqb_eq in He.
Qed.

(** Metadata with the four parts of a profile and a mode is resolved to these. *)
Lemma resolveProfile_read cred m a s r svc mode :
  m !! "aws_access_key_id" = Some (VString a) → m !! "aws_secret_access_key" = Some (VString s) → m !! "aws_region" = Some (VString r) →
  m !! "aws_service" = Some (VString svc) → m !! "aws_signing_mode" = Some (VString (normalizeSigningMode mode)) →
  Forall (λ v, TrimSpace v = v ∧ v ≠ "") [a; s; r; svc] →
  ∃ profile, resolveProfile emptySigV4 (with_credential_metadata cred m) = Ok profile ∧ aw_AccessKeyID profile = a ∧ aw_SecretAccessKey profile = s ∧
    aw_Region profile = r ∧ aw_Service profile = svc ∧ aw_Mode profile = normalizeSigningMode mode ∧ aw_UnsignedPayload profile = metadataBool m "aws_unsigned_payload".
Proof.
  intros Ha Hs Hr Hv Hm Hall. rewrite !Forall_cons in Hall. destruct Hall as ((Ta & Na) & (Ts & Ns) & (Tr & Nr) & (Tv & Nv) & _).
  assert (Hf : ∀ v, TrimSpace v = v → v ≠ "" → firstNonEmpty [TrimSpace ""; v] = v).
  { intros v Ht Hn. cbn [firstNonEmpty]. change (blank (TrimSpace "")) with true. cbv iota. rewrite blank_neq by done. by apply String.eqb_neq in Hn as ->. }
  unfold resolveProfile. cbv zeta. cbn [with_credential_metadata ac_Metadata emptySigV4 aw_Mode aw_AccessKeyID aw_SecretAccessKey aw_SessionToken aw_Region aw_Service].
  rewrite (metadataString_read m "aws_access_key_id" a), (metadataString_read m "aws_secret_access_key" s), (metadataString_read m "aws_region" r),
    (metadataString_read m "aws_service" svc), (metadataString_read m "aws_signing_mode" (normalizeSigningMode mode)), !Hf
    by (done || by destruct (normalizeSigningMode_cases mode) as [-> | ->]).
  apply String.eqb_neq in Na as ->, Ns as ->, Nr as ->, Nv as ->. cbn [orb].
  destruct (normalizeSigningMode_cases mode) as [Hc|Hc]; rewrite Hc; (eexists; split; [reflexivity|]); cbn; done.
Qed.

Section facts.
Context {MR : MapRange}.

Lemma normalizeSigV4Config_ok cfg p : normalizeSigV4Config cfg = Ok p →
  Forall (λ v, TrimSpace v = v ∧ v ≠ "") [az_AccessKeyID p; az_SecretAccessKey p; az_Region p; az_Service p] ∧ ToLower (az_Region p) = az_Region p ∧
  hosts_normal (az_HostRegionMap p) ∧ dom defaultAmazonHostRegionMap ⊆ dom (az_HostRegionMap p).
Proof.
  unfold normalizeSigV4Config. cbv zeta. destruct (fold_hosts (map_range (az_HostRegionMap cfg)) defaultAmazonHostRegionMap default_hosts_normal) as [Hn Hd].
  set (hosts := foldl _ _ _) in *.
  set (region := if String.eqb (ToLower _) "" then _ else _).
  assert (Hr : ToLower (TrimSpace region) = region).
  { unfold region. destruct (String.eqb _ ""); [|apply lower_region].
    destruct (hosts !! _) as [v|] eqn:Hv; [|by vm_compute]. destruct (Hn _ _ Hv) as (_ & ? & _). done. }
  destruct (String.eqb_spec (TrimSpace (az_AccessKeyID cfg)) "") as [|Ha]; [done|].
  destruct (String.eqb_spec (TrimSpace (az_SecretAccessKey cfg)) "") as [|Hs]; [done|].
  destruct (String.eqb_spec region "") as [|Hreg]; [done|]. intros H. apply Ok_inj in H as <-.
  cbn [az_AccessKeyID az_SecretAccessKey az_Region az_Service az_HostRegionMap].
  assert (Htr : TrimSpace region = region) by (rewrite <-Hr, ToLower_TrimSpace, TrimSpace_idem; done).
  rewrite !Forall_cons. split_and!; rewrite ?TrimSpace_idem; try done.
  - destruct (String.eqb_spec (TrimSpace (az_Service cfg)) ""); [by vm_compute|apply TrimSpace_idem].
  - by destruct (String.eqb_spec (TrimSpace (az_Service cfg)) "").
  - by rewrite <-Hr at 2; rewrite Htr.
Qed.

Lemma put_expires_lookup p m k : k ≠ "aws_signing_expires" → put_expires p m !! k = m !! k.
Proof. intros Hk. unfold put_expires. destruct (0 <? _)%Z; [by rewrite lookup_insert_ne|done]. Qed.

Ltac read_signed := repeat (first [rewrite lookup_insert_eq | rewrite lookup_insert_ne by discriminate | rewrite put_expires_lookup by discriminate]).

(** The region of a request: that of its host, or that of the credential, or the configured one. *)
Definition request_region (p : SigV4Config) (metadata : gmap string value) (host : string) : string :=
  default (firstNonEmpty [firstString metadata ["aws_region"; "region"]; az_Region p]) (az_HostRegionMap p !! normalizeHost host).

Lemma signer_region cfg p md host : normalizeSigV4Config cfg = Ok p → signer_metadata p md host !! "aws_region" = Some (VString (request_region p md host)).
Proof.
  intros (_ & _ & Hn & Hd)%normalizeSigV4Config_ok. unfold signer_metadata, signer_hosts, request_region. cbv zeta. rewrite lookup_insert_eq, normal_hosts_kept by done. do 2 f_equal.
  destruct (az_HostRegionMap p !! normalizeHost host) as [r|] eqn:Hr; cbn [default from_option id].
  - destruct (Hn _ _ Hr) as (_ & Hl & Hne). assert (Ht : TrimSpace r = r) by (rewrite <-Hl, ToLower_TrimSpace, TrimSpace_idem; done).
    rewrite Ht. rewrite Ht in Hl. by apply String.eqb_neq in Hne as ->.
  - change (String.eqb (TrimSpace "") "") with true. cbv iota. f_equal. f_equal.
    apply firstString_ext. apply Forall_cons; split; [|apply Forall_cons; split; [|constructor]]; by read_signed.
Qed.

Lemma request_region_ok p md host : hosts_normal (az_HostRegionMap p) → TrimSpace (az_Region p) = az_Region p → az_Region p ≠ "" →
  TrimSpace (request_region p md host) = request_region p md host ∧ request_region p md host ≠ "".
Proof.
  intros Hn Tr Nr. unfold request_region. destruct (az_HostRegionMap p !! normalizeHost host) as [r|] eqn:Hr; cbn [default from_option id].
  - destruct (Hn _ _ Hr) as (_ & Hl & Hne). split; [|done]. by rewrite <-Hl, ToLower_TrimSpace, TrimSpace_idem.
  - split; [apply firstNonEmpty_trimmed|]. by eapply firstNonEmpty_configured; [right; left|..].
Qed.

Variable sha256 : string → string.
Variable hmacSHA256 : string → string → string.
Variable EscapedPath : URL → string.
Variable time_Format : Time → string → string.

(** Amazon requests are signed for the region of their host.  With a provider that could be built, every request is signed, whatever the credential holds; the region of the signature
    is that of the host (its port and the case of its letters do not matter), and that of the credential or of the configuration only for a host that is not known; key, secret and
    service are those of the credential where it has them. *)
Theorem amazon_signs_by_host cfg p cred now req :
  normalizeSigV4Config cfg = Ok p →
  let md := ac_Metadata cred in
  let c := with_credential_metadata cred (signer_metadata p md (u_Host (hr_URL req))) in
  ∃ profile, resolveProfile emptySigV4 c = Ok profile ∧ aw_Region profile = request_region p md (u_Host (hr_URL req)) ∧
    aw_AccessKeyID profile = firstNonEmpty [firstString md ["aws_access_key_id"; "access_key_id"]; az_AccessKeyID p] ∧
    aw_SecretAccessKey profile = firstNonEmpty [firstString md ["aws_secret_access_key"; "secret_access_key"]; az_SecretAccessKey p] ∧
    aw_Service profile = firstNonEmpty [firstString md ["aws_service"; "service"]; az_Service p] ∧ aw_UnsignedPayload profile = az_UnsignedPayload p ∧
    Amazon_Sign sha256 hmacSHA256 EscapedPath time_Format p now req cred =
      Ok (let amzDate := time_Format now "20060102T150405Z" in let dateStamp := time_Format now "20060102" in
          if String.eqb (aw_Mode profile) "query" then signAWSSigV4Query sha256 hmacSHA256 EscapedPath req c profile amzDate dateStamp
          else signAWSSigV4Header sha256 hmacSHA256 EscapedPath req c profile amzDate dateStamp).
Proof.
  intros Hp md c. pose proof (signer_region _ _ md (u_Host (hr_URL req)) Hp) as Hreg. apply normalizeSigV4Config_ok in Hp as (Hall & _ & Hn & _).
  rewrite !Forall_cons in Hall. destruct Hall as ((Ta & Na) & (Ts & Ns) & (Tr & Nr) & (Tv & Nv) & _).
  set (host := u_Host (hr_URL req)) in *.
  destruct (resolveProfile_read cred (signer_metadata p md host)
    (firstNonEmpty [firstString md ["aws_access_key_id"; "access_key_id"]; az_AccessKeyID p]) (firstNonEmpty [firstString md ["aws_secret_access_key"; "secret_access_key"]; az_SecretAccessKey p])
    (request_region p md host) (firstNonEmpty [firstString md ["aws_service"; "service"]; az_Service p])
    (firstNonEmpty [firstString md ["aws_signing_mode"; "signing_mode"]; az_SigningMode p])) as (profile & Hres & Ha & Hs & Hr & Hv & _ & Hun).
  1-2, 4-5: unfold signer_metadata; cbv zeta; read_signed; (rewrite (firstString_ext _ md); [reflexivity|]);
    (apply Forall_cons; split; [|apply Forall_cons; split; [|constructor]]; by read_signed).
  - exact Hreg.
  - destruct (request_region_ok p md host) as [Ht Hne]; [done..|]. rewrite !Forall_cons.
    split_and!; auto using firstNonEmpty_trimmed; try (eapply firstNonEmpty_configured; [by right; left|done|done]); constructor.
  - exists profile. split; [exact Hres|]. split_and!; [done..| |].
    + rewrite Hun. unfold metadataBool. change (blank "aws_unsigned_payload") with false. cbv iota. unfold signer_metadata. cbv zeta. by read_signed.
    + unfold Amazon_Sign, SigV4_Sign. fold md host. by rewrite Hres.
Qed.

Lemma setting_ext runtime v m m' keys : Forall (λ k, m !! k = m' !! k) keys → setting runtime v m keys = setting runtime v m' keys.
Proof. intros H. unfold setting. by rewrite (firstString_ext m m'). Qed.

(** The values a completion or a refresh leaves on a credential. *)
Lemma applied_values p base runtime host :
  let m := applied p base runtime host in
  m !! "auth_kind" = Some (VString AuthKindAWSSigV4) ∧
  m !! "aws_access_key_id" = Some (VString (setting runtime (az_AccessKeyID p) base ["aws_access_key_id"; "access_key_id"])) ∧
  m !! "aws_secret_access_key" = Some (VString (setting runtime (az_SecretAccessKey p) base ["aws_secret_access_key"; "secret_access_key"])) ∧
  m !! "aws_service" = Some (VString (setting runtime (az_Service p) base ["aws_service"; "service"])) ∧
  ∃ region, m !! "aws_region" = Some (VString (ToLower (TrimSpace region))) ∧ (blank region = true → blank (az_Region p) = true).
Proof.
  unfold applied. cbv zeta. split_and!; [by read_signed|..].
  1-3: read_signed; (rewrite (setting_ext runtime _ _ base); [reflexivity|]); (apply Forall_cons; split; [|apply Forall_cons; split; [|constructor]]; by read_signed).
  eexists. split; [read_signed; reflexivity|].
  match goal with |- blank (if String.eqb ?r "" then _ else _) = true → _ => set (reg := r) end.
  assert (Hreg : TrimSpace reg = reg).
  { unfold reg. destruct (String.eqb _ ""); [apply firstNonEmpty_trimmed|]. unfold resolveRegionForHost. cbv zeta. destruct (String.eqb _ ""); [by vm_compute|].
    by rewrite ToLower_TrimSpace, TrimSpace_idem. }
  destruct (String.eqb_spec reg "") as [|Hne]; [done|]. rewrite blank_neq by done. by apply String.eqb_neq in Hne as ->.
Qed.

(** With a provider that could be built, the profile of a credential is always complete. *)
Lemma applied_complete cfg p base runtime host : normalizeSigV4Config cfg = Ok p → applySigV4Metadata p base runtime host = Ok (applied p base runtime host).
Proof.
  intros (Hall & _)%normalizeSigV4Config_ok. rewrite !Forall_cons in Hall. destruct Hall as ((Ta & Na) & (Ts & Ns) & (Tr & Nr) & (Tv & Nv) & _).
  destruct (applied_values p base runtime host) as (_ & Ha & Hs & Hv & region & Hr & Hb). unfold applySigV4Metadata. cbv zeta.
  assert (Hset : ∀ configured metadata keys, TrimSpace configured = configured → configured ≠ "" →
            TrimSpace (setting runtime configured metadata keys) = setting runtime configured metadata keys ∧ setting runtime configured metadata keys ≠ "").
  { intros configured metadata keys Ht Hn. split; [apply firstNonEmpty_trimmed|]. eapply firstNonEmpty_configured; [by right; left|done|done]. }
  destruct (Hset _ base ["aws_access_key_id"; "access_key_id"] Ta Na) as [Ta' Na'], (Hset _ base ["aws_secret_access_key"; "secret_access_key"] Ts Ns) as [Ts' Ns'],
    (Hset _ base ["aws_service"; "service"] Tv Nv) as [Tv' Nv'].
  assert (Hrt : TrimSpace (ToLower (TrimSpace region)) = ToLower (TrimSpace region)) by (by rewrite ToLower_TrimSpace, TrimSpace_idem).
  assert (Hrn : ToLower (TrimSpace region) ≠ "").
  { intros He. assert (blank (az_Region p) = true) as Hb'; [|by rewrite blank_neq in Hb' by done; apply String.eqb_eq in Hb'].
    apply Hb. unfold blank. by destruct (TrimSpace region). }
  rewrite (firstString_read _ "aws_access_key_id" _ _ Ha), (firstString_read _ "aws_secret_access_key" _ _ Hs), (firstString_read _ "aws_region" _ _ Hr),
    (firstString_read _ "aws_service" _ _ Hv) by done.
  rewrite !blank_neq by done. by apply String.eqb_neq in Na' as ->, Ns' as ->, Nv' as ->, Hrn as ->.
Qed.

(** A completion and a refresh of the Amazon provider succeed exactly when those of OAuth do, and leave a credential of the kind that is signed. *)
Theorem amazon_auth_follows_oauth (json_Unmarshal : string → outcome string (gmap string value)) parseURL oor cfg (p : Provider) client now req cred :
  normalizeSigV4Config cfg = Ok (azp_sigv4 p) →
  match CompleteAuth json_Unmarshal parseURL oor (azp_oauth p) client now req, Amazon_CompleteAuth json_Unmarshal parseURL oor p client now req with
  | Ok r, Ok r' => ac_AccessToken (ar_Credential r') = ac_AccessToken (ar_Credential r) ∧ ar_ExternalAccountID r' = ar_ExternalAccountID r ∧
                   ar_GrantedGrants r' = ar_GrantedGrants r ∧ ac_Metadata (ar_Credential r') !! "auth_kind" = Some (VString AuthKindAWSSigV4)
  | Fail e, Fail e' => e' = AzErrOAuth e
  | _, _ => False
  end ∧
  match OAuth2_Refresh json_Unmarshal parseURL oor (azp_oauth p) client now cred, Amazon_Refresh json_Unmarshal parseURL oor p client now cred with
  | Ok r, Ok r' => ac_AccessToken (rr_Credential r') = ac_AccessToken (rr_Credential r) ∧ ac_Metadata (rr_Credential r') !! "auth_kind" = Some (VString AuthKindAWSSigV4)
  | Fail e, Fail e' => e' = AzErrOAuth e
  | _, _ => False
  end.
Proof.
  intros Hp. unfold Amazon_CompleteAuth, Amazon_Refresh. split.
  - destruct (CompleteAuth _ _ _ _ _ _ _) as [r|e]; [|done]. rewrite (applied_complete _ _ _ _ _ Hp). split_and!; [done..|]. apply applied_values.
  - destruct (OAuth2_Refresh _ _ _ _ _ _ _) as [r|e]; [|done]. rewrite (applied_complete _ _ _ _ _ Hp). split_and!; [done..|]. apply applied_values.
Qed.
End facts.

Lemma normalizeAmazonGrant_stable raw : normalizeAmazonGrant (normalizeAmazonGrant raw) = normalizeAmazonGrant raw.
Proof. unfold normalizeAmazonGrant at 2 3. cbv zeta. by repeat (destruct (String.eqb _ _); [vm_compute; reflexivity|]). Qed.

(** Grants that are normalised again stay as they are. *)
Theorem amazon_grants_stable raw : normalizeCanonicalGrants (normalizeCanonicalGrants raw) = normalizeCanonicalGrants raw.
Proof. apply canonical_set_stable, normalizeAmazonGrant_stable. Qed.

(** ** Evaluations *)

Module AmazonExample.
#[local] Existing Instance key_order_range.
Definition demo_config : SigV4Config := mkSigV4Config " AKID" "secret" "" "" "" "" 0 false "" {["Partner.example:8443" := "EU-Central-1"]}.
Definition demo_profile : SigV4Config := match normalizeSigV4Config demo_config with Ok p => p | Fail _ => demo_config end.
Definition demo_credential : ActiveCredential := mkActiveCredential "c1" "bearer" "token" "" [] [] None false None {["aws_region" := VString "ap-south-1"]}.
Definition demo_http (host : string) : HttpRequest := mkHttpRequest "GET" (mkURL host "/orders" "" "") ∅ None.
Definition demo_region (host : string) : string := request_region demo_profile (ac_Metadata demo_credential) host.

Lemma amazon_signs_by_host_witness :
  (∃ profile, resolveProfile emptySigV4 (with_credential_metadata demo_credential
       (signer_metadata demo_profile (ac_Metadata demo_credential) "SellingPartnerAPI-EU.amazon.com:443")) = Ok profile ∧ aw_Region profile = "eu-west-1") ∧
  demo_region "partner.example" = "eu-central-1" ∧ demo_region "unknown.example" = "ap-south-1".
Proof.
  split; [|split; vm_compute; reflexivity].
  destruct (amazon_signs_by_host (λ s, s) (λ _ s, s) u_Path (λ _ _, "") demo_config demo_profile demo_credential 0
    (demo_http "SellingPartnerAPI-EU.amazon.com:443")) as (profile & Hp & Hr & _); [vm_compute; reflexivity|].
  exists profile. split; [exact Hp|]. rewrite Hr. vm_compute. reflexivity.
Defined.
End AmazonExample.
