(* ===== verification/Shopify.v ===== *)
(** * The Shopify provider (src/providers/shopify/provider.go, errors.go)

    One provider with two ways to a credential: the authorization code flow of OAuth for the domain of a shop, and the session tokens of an embedded app.
    JSON, URLs, the HTTP client and the hash function are arguments. *)

From S2P Require Import Prelude GoStrings GoValues Domain OAuthState Contracts ReplayLedger GoURL WebhookTypes GoHTTP Grants Permissions ServiceTypes Connections Service Signers Errors Profiles OAuth2 WebhookTemplates AuthStrategies ServiceAccount Embedded EnterpriseProviders.
From Stdlib Require Import ZArith String Ascii Lia.
From stdpp Require Import base decidable list gmap strings sorting.

Local Open Scope string_scope.
Local Open Scope list_scope.

Definition ProviderID := "shopify".
Definition defaultAuthorizePath := "/admin/oauth/authorize".
Definition defaultTokenPath := "/admin/oauth/access_token".
Definition defaultDomainSuffix := ".myshopify.com".
Definition ModeHybrid := "hybrid".
Definition ModeEmbeddedOnly := "embedded_only".
Definition ScopeReadProducts := "read_products".
Definition ScopeReadInventory := "read_inventory".
Definition ScopeReadOrders := "read_orders".
Definition GrantReadProducts := "shopify:read_products".
Definition GrantReadInventory := "shopify:read_inventory".
Definition GrantReadOrders := "shopify:read_orders".

Definition BaselineCapabilities : list CapabilityDescriptor :=
  [mkCapability "catalog.read" [GrantReadProducts] [] CapabilityDeniedBehaviorBlock; mkCapability "inventory.read" [GrantReadInventory] [] CapabilityDeniedBehaviorBlock;
   mkCapability "orders.read" [GrantReadOrders] [] CapabilityDeniedBehaviorBlock].

Definition normalizeShopifyScope (value : string) : string := TrimPrefix (TrimSpace (ToLower value)) "shopify:".
Definition normalizeShopifyGrant (value : string) : string :=
  let scope := normalizeShopifyScope value in if String.eqb scope "" then "" else "shopify:" +:+ scope.
Definition normalizeShopifyScopes (scopes : list string) : list string := canonical_set normalizeShopifyScope scopes.
Definition normalizeCanonicalGrants (grants : list string) : list string := canonical_set normalizeShopifyGrant grants.

(** [core.EmbeddedAuthService]: the service of the package over its replay ledger, or one that was configured. *)
Inductive embedded_auth := Packaged (s : EmbeddedService) | Custom (authenticate : EmbeddedAuthRequest → outcome string EmbeddedAuthResult).

Record Config := mkConfig {
  sh_Mode : string; sh_ClientID : string; sh_ClientSecret : string; sh_ShopDomain : string; sh_AuthURL : string; sh_TokenURL : string; sh_DefaultScopes : list string;
  sh_SupportedScopeTypes : list string; sh_TokenTTL : Duration; sh_TokenRequestTimeout : Duration; sh_HTTPClient : HTTPDoer; sh_EmbeddedAuthService : option embedded_auth;
  sh_EmbeddedExpectedShopDomain : string; sh_EmbeddedClockSkew : Duration; sh_EmbeddedMaxIssuedAtAge : Duration; sh_EmbeddedReplayTTL : Duration; sh_EmbeddedReplayMaxEntries : Z }.
Record EmbeddedConfig := mkEmbeddedConfig {
  se_ClientID : string; se_ClientSecret : string; se_SupportedScopeTypes : list string; se_TokenRequestTimeout : Duration; se_HTTPClient : HTTPDoer;
  se_EmbeddedAuthService : option embedded_auth; se_EmbeddedExpectedShopDomain : string; se_EmbeddedClockSkew : Duration; se_EmbeddedMaxIssuedAtAge : Duration;
  se_EmbeddedReplayTTL : Duration; se_EmbeddedReplayMaxEntries : Z }.
Record Provider := mkProvider { shp_mode : string; shp_oauth : option OAuth2Config; shp_embeddedAuth : option embedded_auth; shp_supportedScopeTypes : list string }.

Definition DefaultScopes : list string := [ScopeReadProducts; ScopeReadInventory; ScopeReadOrders].
Definition DefaultSupportedScopeTypes : list string := ["org"].

Inductive shopify_error :=
| ShErrMode (mode : string) | ShErrEndpoints (cause : string) | ShErrOAuth (e : oauth2_error) | ShErrEmbedded (e : embedded_error) | ShErrCustom (cause : string)
| ErrAuthFlowUnsupported (action mode : string) | ErrEmbeddedAuthServiceNotConfigured.

Definition normalizeMode (mode : string) : outcome shopify_error string :=
  let normalized := TrimSpace (ToLower mode) in
  if String.eqb normalized "" then Ok ModeHybrid
  else if String.eqb normalized ModeHybrid || String.eqb normalized ModeEmbeddedOnly then Ok normalized else Fail (ShErrMode mode).

Section new.
(** [url.Parse], and [URL.String] of a scheme, a host and a path. *)
Variable parse_url : string → option parsed_url.
Variable url_String : string → string → string → string.

Definition shop_domain (value : string) : outcome string string :=
  let trimmed := TrimSpace (ToLower value) in
  if String.eqb trimmed "" then Fail "shop_domain is required"
  else
    match (if Contains trimmed "://" then match parse_url trimmed with Some u => Ok (TrimSpace (ToLower (pu_Hostname u))) | None => Fail "parse shop_domain" end else Ok trimmed) with
    | Fail err => Fail err
    | Ok trimmed =>
      let trimmed := TrimSuffix trimmed "/" in
      if String.eqb trimmed "" || Contains trimmed "/" then Fail "invalid shop_domain"
      else
        let trimmed := if negb (Contains trimmed ".") then trimmed +:+ defaultDomainSuffix else trimmed in
        if negb (HasSuffix trimmed defaultDomainSuffix) then Fail "shop_domain must end with the suffix" else Ok trimmed
    end.

Definition resolveOAuthEndpoints (shopDomain rawAuthURL rawTokenURL : string) : outcome shopify_error (string * string) :=
  let authURL := TrimSpace rawAuthURL in
  let tokenURL := TrimSpace rawTokenURL in
  if negb (String.eqb authURL "") && negb (String.eqb tokenURL "") then Ok (authURL, tokenURL)
  else
    match shop_domain shopDomain with
    | Fail err => if String.eqb authURL "" || String.eqb tokenURL "" then Fail (ShErrEndpoints err) else Ok (authURL, tokenURL)
    | Ok domain =>
      Ok (if String.eqb authURL "" then url_String "https" domain defaultAuthorizePath else authURL,
          if String.eqb tokenURL "" then url_String "https" domain defaultTokenPath else tokenURL)
    end.

Context {MR : MapRange}.
Variable hmacSHA256 : string → string → string.
Variable json_Unmarshal : string → outcome string (gmap string value).
Variable parseURL : string → outcome string URL.
Variable oor : Z.
Variable quote : string → string.

(** [shopifyembedded.NewService] with the validator and the exchanger it makes of the keys. *)
Definition packaged_service (cfg : Config) : EmbeddedService :=
  Embedded.NewService ProviderID (firstNonEmpty [sh_EmbeddedExpectedShopDomain cfg; sh_ShopDomain cfg]) (sh_EmbeddedReplayTTL cfg)
    (ValidateSessionToken hmacSHA256 json_Unmarshal parse_url oor
       (NewSessionTokenValidator (mkValidator (sh_ClientSecret cfg) (sh_ClientID cfg) (sh_EmbeddedClockSkew cfg) (sh_EmbeddedMaxIssuedAtAge cfg))))
    (ExchangeSessionToken json_Unmarshal parse_url oor quote parseURL
       (NewSessionTokenExchangeClient parse_url url_String (sh_ClientID cfg) (sh_ClientSecret cfg) (sh_TokenRequestTimeout cfg) None) (sh_HTTPClient cfg)).

Definition resolveEmbeddedAuthService (cfg : Config) : option embedded_auth :=
  match sh_EmbeddedAuthService cfg with
  | Some s => Some s
  | None => if negb (blank (sh_ClientID cfg)) && negb (blank (sh_ClientSecret cfg)) then Some (Packaged (packaged_service cfg)) else None
  end.

Definition oauth_part (cfg : Config) : outcome shopify_error OAuth2Config :=
  match resolveOAuthEndpoints (sh_ShopDomain cfg) (sh_AuthURL cfg) (sh_TokenURL cfg) with
  | Fail err => Fail err
  | Ok (authURL, tokenURL) =>
    match NewOAuth2Provider (mkOAuth2Config ProviderID authURL tokenURL (sh_ClientID cfg) (sh_ClientSecret cfg) true
            (normalizeShopifyScopes (or_else (sh_DefaultScopes cfg) DefaultScopes)) (or_else (sh_SupportedScopeTypes cfg) DefaultSupportedScopeTypes) BaselineCapabilities
            (sh_TokenTTL cfg) (sh_TokenRequestTimeout cfg) None) with
    | Fail e => Fail (ShErrOAuth e)
    | Ok p => Ok p
    end
  end.

Definition New (cfg : Config) : outcome shopify_error Provider :=
  match normalizeMode (sh_Mode cfg) with
  | Fail err => Fail err
  | Ok mode =>
    match (if String.eqb mode ModeEmbeddedOnly then Ok None else match oauth_part cfg with Ok p => Ok (Some p) | Fail err => Fail err end) with
    | Fail err => Fail err
    | Ok oauth =>
      Ok (mkProvider mode oauth (resolveEmbeddedAuthService cfg) (or_else (sh_SupportedScopeTypes cfg) DefaultSupportedScopeTypes))
    end
  end.

Definition NewEmbedded (cfg : EmbeddedConfig) : outcome shopify_error Provider :=
  New (mkConfig ModeEmbeddedOnly (se_ClientID cfg) (se_ClientSecret cfg) "" "" "" [] (se_SupportedScopeTypes cfg) 0 (se_TokenRequestTimeout cfg) (se_HTTPClient cfg)
         (se_EmbeddedAuthService cfg) (se_EmbeddedExpectedShopDomain cfg) (se_EmbeddedClockSkew cfg) (se_EmbeddedMaxIssuedAtAge cfg) (se_EmbeddedReplayTTL cfg)
         (se_EmbeddedReplayMaxEntries cfg)).
End new.

(** ** Operations *)

Definition authFlowUnsupportedError (p : Provider) (action : string) : shopify_error := ErrAuthFlowUnsupported action (if blank (shp_mode p) then ModeHybrid else shp_mode p).

Section operations.
Context {MR : MapRange}.
Variable json_Unmarshal : string → outcome string (gmap string value).
Variable parseURL : string → outcome string URL.
Variable oor : Z.

(** An operation of OAuth, where the provider has it. *)
Definition over_oauth {A} (p : Provider) (action : string) (f : OAuth2Config → outcome oauth2_error A) : outcome shopify_error A :=
  match shp_oauth p with
  | None => Fail (authFlowUnsupportedError p action)
  | Some o => match f o with Ok a => Ok a | Fail e => Fail (ShErrOAuth e) end
  end.
Definition Shopify_BeginAuth (p : Provider) (random : outcome string string) (req : BeginAuthRequest) : outcome shopify_error BeginAuthResponse :=
  over_oauth p "begin auth" (λ o, BeginAuth o random req).
Definition Shopify_CompleteAuth (p : Provider) (client : HTTPDoer) (now : Time) (req : CompleteAuthRequest) : outcome shopify_error AuthCompleteResponse :=
  over_oauth p "complete auth" (λ o, CompleteAuth json_Unmarshal parseURL oor o client now req).
Definition Shopify_Refresh (p : Provider) (client : HTTPDoer) (now : Time) (cred : ActiveCredential) : outcome shopify_error RefreshResult :=
  over_oauth p "refresh" (λ o, OAuth2_Refresh json_Unmarshal parseURL oor o client now cred).

Context {L : Type} {RL : ReplayLedger L}.
Variable quote : string → string.
(** [now] is the clock of the service, [clock] that of the ledger. *)
Definition Shopify_AuthenticateEmbedded (p : Provider) (ledger : L) (now clock : Time) (req : EmbeddedAuthRequest) : outcome shopify_error EmbeddedAuthResult * L :=
  let req := if blank (er_ProviderID req)
             then mkEmbeddedRequest ProviderID (er_Scope req) (er_SessionToken req) (er_ExpectedShopDomain req) (er_RequestedTokenType req) (er_ReplayTTL req) else req in
  match shp_embeddedAuth p with
  | None => (Fail ErrEmbeddedAuthServiceNotConfigured, ledger)
  | Some (Packaged s) => let (r, ledger) := AuthenticateEmbedded quote s ledger now clock req in (match r with Ok a => Ok a | Fail e => Fail (ShErrEmbedded e) end, ledger)
  | Some (Custom f) => (match f req with Ok a => Ok a | Fail e => Fail (ShErrCustom e) end, ledger)
  end.
End operations.

(** ** What a configuration becomes *)

Section facts.
Context {MR : MapRange}.
Variable parse_url : string → option parsed_url.
Variable url_String : string → string → string → string.
Variable hmacSHA256 : string → string → string.
Variable json_Unmarshal : string → outcome string (gmap string value).
Variable parseURL : string → outcome string URL.
Variable oor : Z.
Variable quote : string → string.
Abbreviation new := (New parse_url url_String hmacSHA256 json_Unmarshal parseURL oor quote).

(** A domain that is accepted is a host of Shopify's own zone without a path. *)
Lemma shop_domain_ok v d : shop_domain parse_url v = Ok d → HasSuffix d defaultDomainSuffix = true ∧ d ≠ "".
Proof.
  unfold shop_domain. cbv zeta. destruct (String.eqb _ ""); [done|]. destruct (if Contains _ _ then _ else _) as [t|]; [|done].
  destruct (String.eqb_spec (TrimSuffix t "/") ""); [done|]. simpl. destruct (Contains _ "/"); [done|].
  destruct (HasSuffix _ _) eqn:Hs; [|done]. simpl. intros H. apply Ok_inj in H as <-. split; [done|].
  destruct (negb _); [|done]. intros He. by destruct (TrimSuffix t "/").
Qed.

Lemma endpoints_ok shop a t authURL tokenURL : resolveOAuthEndpoints parse_url url_String shop a t = Ok (authURL, tokenURL) →
  (authURL = TrimSpace a ∧ authURL ≠ "" ∨ ∃ d, shop_domain parse_url shop = Ok d ∧ authURL = url_String "https" d defaultAuthorizePath) ∧
  (tokenURL = TrimSpace t ∧ tokenURL ≠ "" ∨ ∃ d, shop_domain parse_url shop = Ok d ∧ tokenURL = url_String "https" d defaultTokenPath).
Proof.
  unfold resolveOAuthEndpoints. cbv zeta. destruct (String.eqb_spec (TrimSpace a) "") as [Ea|Na], (String.eqb_spec (TrimSpace t) "") as [Et|Nt]; simpl;
    try (intros H; apply Ok_inj in H; injection H as <- <-; eauto; fail); destruct (shop_domain parse_url shop) as [d|]; try done;
    intros H; apply Ok_inj in H; injection H as <- <-; rewrite ?Ea, ?Et; eauto 10.
Qed.

(** What a Shopify provider can do follows from its mode.  In the embedded mode there is no flow of OAuth: none of its operations sends anything, whatever the client
    would answer.  In the hybrid mode there is one, whose addresses are those that were configured or those of the shop, in Shopify's zone.  A session token can be
    exchanged exactly if a service was configured or both keys were. *)
Theorem shopify_modes cfg p random breq client now creq cred :
  new cfg = Ok p →
  (shp_mode p = ModeEmbeddedOnly ∧ Shopify_BeginAuth p random breq = Fail (ErrAuthFlowUnsupported "begin auth" ModeEmbeddedOnly) ∧
     Shopify_CompleteAuth json_Unmarshal parseURL oor p client now creq = Fail (ErrAuthFlowUnsupported "complete auth" ModeEmbeddedOnly) ∧
     Shopify_Refresh json_Unmarshal parseURL oor p client now cred = Fail (ErrAuthFlowUnsupported "refresh" ModeEmbeddedOnly)
   ∨ shp_mode p = ModeHybrid ∧ ∃ o, shp_oauth p = Some o ∧ oc_ID o = ProviderID ∧ oc_ClientSecretInBody o = true ∧
     (oc_TokenURL o = TrimSpace (sh_TokenURL cfg) ∨ ∃ d, shop_domain parse_url (sh_ShopDomain cfg) = Ok d ∧ HasSuffix d defaultDomainSuffix = true ∧
        oc_TokenURL o = TrimSpace (url_String "https" d defaultTokenPath))) ∧
  (is_Some (shp_embeddedAuth p) ↔ is_Some (sh_EmbeddedAuthService cfg) ∨ blank (sh_ClientID cfg) = false ∧ blank (sh_ClientSecret cfg) = false).
Proof.
  unfold New. destruct (normalizeMode (sh_Mode cfg)) as [mode|] eqn:Hmode; [|done].
  assert (Hm : mode = ModeHybrid ∨ mode = ModeEmbeddedOnly).
  { revert Hmode. unfold normalizeMode. cbv zeta. destruct (String.eqb _ ""); [intros H; apply Ok_inj in H; auto|].
    destruct (String.eqb_spec (TrimSpace (ToLower (sh_Mode cfg))) ModeHybrid) as [->|]; [intros H; apply Ok_inj in H; auto|].
    destruct (String.eqb_spec (TrimSpace (ToLower (sh_Mode cfg))) ModeEmbeddedOnly) as [->|]; [intros H; apply Ok_inj in H; auto|done]. }
  assert (Hemb : ∀ q, is_Some (shp_embeddedAuth (mkProvider mode q (resolveEmbeddedAuthService parse_url url_String hmacSHA256 json_Unmarshal parseURL oor quote cfg)
      (or_else (sh_SupportedScopeTypes cfg) DefaultSupportedScopeTypes))) ↔ is_Some (sh_EmbeddedAuthService cfg) ∨ blank (sh_ClientID cfg) = false ∧ blank (sh_ClientSecret cfg) = false).
  { intros q. simpl. unfold resolveEmbeddedAuthService. destruct (sh_EmbeddedAuthService cfg) as [s|]; [split; [left; eauto|eauto]|].
    destruct (blank (sh_ClientID cfg)), (blank (sh_ClientSecret cfg)); simpl; (split; [|intros [[? ?]|[? ?]]]; try done); try (intros [? ?]; done); try (by eexists). auto. }
  destruct Hm as [->| ->]; simpl.
  - destruct (oauth_part _ _ cfg) as [o|] eqn:Ho; [|done]. intros H. apply Ok_inj in H as <-. split; [|apply Hemb]. right. split; [done|]. exists o. split; [done|].
    revert Ho. unfold oauth_part. destruct (resolveOAuthEndpoints _ _ _ _ _) as [[authURL tokenURL]|] eqn:He; [|done]. apply endpoints_ok in He as [_ Ht].
    unfold NewOAuth2Provider. cbn [oc_ID oc_AuthURL oc_TokenURL oc_ClientID]. change (String.eqb (TrimSpace (ToLower ProviderID)) "") with false. cbv iota.
    destruct (blank authURL); [done|]. destruct (blank tokenURL); [done|]. destruct (blank (sh_ClientID cfg)); [done|]. intros H. apply Ok_inj in H as <-.
    split; [done|]. split; [done|]. cbn [oc_TokenURL]. destruct Ht as [[-> _]|(d & Hd & ->)]; [left; apply TrimSpace_idem|right].
    exists d. split; [done|]. split; [|done]. by eapply shop_domain_ok.
  - intros H. apply Ok_inj in H as <-. split; [|apply Hemb]. left. done.
Qed.
End facts.

(** ** Evaluations *)

Module ShopifyExample.
Definition parse (s : string) : option parsed_url := None.
Definition print (scheme host path : string) : string := scheme +:+ "://" +:+ host +:+ path.
Definition silent : HTTPDoer := λ _, Fail "unreachable".
Definition config (mode shop : string) : Config := mkConfig mode "id" "secret" shop "" "" [] [] 0 0 silent None "" 0 0 0 0.

Definition embedded_config : Config := config " Embedded_Only" "".
Definition embedded_provider : outcome shopify_error Provider := New parse print (λ k s, s) (λ _, Fail "") (λ _, Fail "") 0 (λ s, s) embedded_config.
Definition no_credential : ActiveCredential := mkActiveCredential "" "" "" "" [] [] None false None ∅.

Lemma shopify_modes_witness :
  ∃ p, embedded_provider = Ok p ∧ is_Some (shp_embeddedAuth p) ∧
    Shopify_Refresh (λ _, Fail "") (λ _, Fail "") 0 p silent 0 no_credential = Fail (ErrAuthFlowUnsupported "refresh" ModeEmbeddedOnly).
Proof.
  assert (Hs : match embedded_provider with Ok p => String.eqb (shp_mode p) ModeEmbeddedOnly | Fail _ => false end = true) by (vm_compute; reflexivity).
  destruct embedded_provider as [p|] eqn:Hn; [|discriminate Hs]. apply String.eqb_eq in Hs. exists p. split; [reflexivity|].
  destruct (shopify_modes parse print (λ k s, s) (λ _, Fail "") (λ _, Fail "") 0%Z (λ s, s) embedded_config p (Fail "")
    (mkBeginAuth "" (mkScopeRef "org" "o1") "" "" [] ∅) silent 0%Z (mkCompleteAuth "" (mkScopeRef "org" "o1") "" "" "" ∅) no_credential) as [[(_ & _ & _ & Hr)|(Hm & _)] He];
    [exact Hn| |rewrite Hm in Hs; discriminate Hs].
  split; [|exact Hr]. apply He. right. split; vm_compute; reflexivity.
Defined.

(** The provider does not take the port off a shop's domain, the embedded service does: the same setting can serve the one and be refused by the other. *)
Example shop_port_refused :
  shop_domain parse "acme.myshopify.com:443" = Fail "shop_domain must end with the suffix" ∧ normalizeShopDomain parse "acme.myshopify.com:443" = Ok "acme.myshopify.com".
Proof. split; vm_compute; reflexivity. Qed.
End ShopifyExample.
