(* ===== verification/ProviderLimits.v ===== *)
(** * The limits of the providers (src/providers/{shopify,tiktok,pinterest,amazon,google/shopping}/ratelimit.go)

    How each provider reads an answer: what the limits are, how long to wait, and what went wrong.  The rate limit policy of RateLimit reads what they write.
    The parsing and printing of floats are arguments. *)

From S2P Require Import Prelude GoStrings GoValues Domain Backoff Contracts GoURL WebhookTypes RateLimit GoHTTP Signers Errors ProviderOps.
From Stdlib Require Import ZArith String Ascii Lia Floats.SpecFloat.
From stdpp Require Import base decidable list gmap strings.

Local Open Scope string_scope.
Local Open Scope list_scope.

(** ** [time.Duration.Seconds] *)

(** [float64(z)], and [int64(f)] of a float that fits. *)
Definition float_of_Z (z : Z) : spec_float := binary_normalize 53 1024 z 0 false.
Definition trunc_float (f : spec_float) : Z :=
  match f with
  | S754_finite neg m e => let v := if (0 <=? e)%Z then (Zpos m * 2 ^ e)%Z else (Zpos m / 2 ^ (- e))%Z in if neg then (- v)%Z else v
  | _ => 0%Z
  end.
(** [int64(d.Seconds())]: whole seconds, plus the nanoseconds that remain, divided as floats. *)
Definition whole_seconds (d : Duration) : Z :=
  trunc_float (SFadd 53 1024 (float_of_Z (Z.quot d Second)) (SFdiv 53 1024 (float_of_Z (Z.rem d Second)) (float_of_Z 1000000000))).

Section normalizers.
Context {MR : MapRange}.

(** [parseHeaderInt] and [parseRetryAfter], the same in every package. *)
Definition limit_header (headers : gmap string string) (key : string) : option Z :=
  let raw := TrimSpace (headerValue headers key) in if String.eqb raw "" then None else Atoi raw.
Definition retry_header (headers : gmap string string) : option Duration :=
  let raw := TrimSpace (headerValue headers "retry-after") in
  if String.eqb raw "" then None
  else match Atoi raw with Some seconds => if (seconds <=? 0)%Z then None else Some (wrap64 (seconds * Second)) | None => None end.

(** A header that names something is kept under a name of the provider. *)
Definition note_header (headers : gmap string string) (header key : string) (m : gmap string value) : gmap string value :=
  let v := headerValue headers header in if String.eqb v "" then m else <[key := VString v]> m.
(** A number of a header is written back under the common name, and kept. *)
Definition note_limit (header common key : string) (kind : intkind) (hm : gmap string string * gmap string value) : gmap string string * gmap string value :=
  match limit_header hm.1 header with
  | Some n => (<[common := Itoa n]> hm.1, <[key := VInt kind n]> hm.2)
  | None => hm
  end.
(** The delay of the answer, or the default one of a status that asks to wait. *)
Definition note_retry (prefix : string) (fallback : Duration) (waits : bool) (headers : gmap string string) (m : gmap string value) : option Duration * gmap string value :=
  let source := prefix +:+ "_retry_after_source" in
  let '(retry, m) := match retry_header headers with
                     | Some d => (Some d, <[source := VString "header"]> m)
                     | None => if waits then (Some fallback, <[source := VString "default"]> m) else (None, m)
                     end in
  (retry, match retry with Some d => <[prefix +:+ "_retry_after_seconds" := VInt Int64K (whole_seconds d)]> m | None => m end).
Definition note_error (prefix errorType : string) (m : gmap string value) : gmap string value :=
  if String.eqb errorType "" then m else <[prefix +:+ "_error_type" := VString errorType]> m.

Definition tiktok_readErrorType (body : string) : string :=
  let trimmed := TrimSpace (ToLower body) in
  if String.eqb trimmed "" then "" else if Contains trimmed "rate" then "rate_limit" else if Contains trimmed "quota" then "quota" else "".

Definition tiktok_NormalizeAPIResponse (response : TransportResponse) : ProviderResponseMeta :=
  let headers := tp_Headers response in
  let m := note_header headers "x-tt-trace-id" "tiktok_trace_id" (note_header headers "x-tt-logid" "tiktok_request_id" (tp_Metadata response)) in
  let hm := note_limit "x-ratelimit-limit" "X-RateLimit-Limit" "tiktok_rate_limit" IntK (headers, m) in
  let hm := note_limit "x-ratelimit-remaining" "X-RateLimit-Remaining" "tiktok_rate_remaining" IntK hm in
  let hm := note_limit "x-ratelimit-reset" "X-RateLimit-Reset" "tiktok_rate_reset_unix" Int64K hm in
  let '(retry, m) := note_retry "tiktok" (3 * Second) (tp_StatusCode response =? 429)%Z hm.1 hm.2 in
  mkResponseMeta (tp_StatusCode response) hm.1 retry (note_error "tiktok" (tiktok_readErrorType (tp_Body response)) m).

Definition pinterest_readErrorType (body : string) : string :=
  let trimmed := TrimSpace (ToLower body) in
  if String.eqb trimmed "" then "" else if Contains trimmed "rate" then "rate_limit" else if Contains trimmed "quota" then "quota" else "".

Definition pinterest_NormalizeAPIResponse (response : TransportResponse) : ProviderResponseMeta :=
  let headers := tp_Headers response in
  let m := note_header headers "x-request-id" "pinterest_request_id" (tp_Metadata response) in
  let hm := note_limit "x-ratelimit-limit" "X-RateLimit-Limit" "pinterest_rate_limit" IntK (headers, m) in
  let hm := note_limit "x-ratelimit-remaining" "X-RateLimit-Remaining" "pinterest_rate_remaining" IntK hm in
  let hm := note_limit "x-ratelimit-reset" "X-RateLimit-Reset" "pinterest_rate_reset_unix" Int64K hm in
  let '(retry, m) := note_retry "pinterest" (5 * Second) (tp_StatusCode response =? 429)%Z hm.1 hm.2 in
  mkResponseMeta (tp_StatusCode response) hm.1 retry (note_error "pinterest" (pinterest_readErrorType (tp_Body response)) m).

Definition shopping_readErrorType (body : string) : string :=
  let trimmed := TrimSpace (ToLower body) in
  if String.eqb trimmed "" then "" else if Contains trimmed "ratelimit" || Contains trimmed "rate" then "rate_limit" else if Contains trimmed "quota" then "quota" else "".

Definition shopping_NormalizeAPIResponse (response : TransportResponse) : ProviderResponseMeta :=
  let headers := tp_Headers response in
  let m := note_header headers "x-google-request-id" "google_shopping_request_id" (note_header headers "x-request-id" "google_shopping_request_id" (tp_Metadata response)) in
  let hm := note_limit "x-ratelimit-limit" "X-RateLimit-Limit" "google_shopping_rate_limit" IntK (headers, m) in
  let hm := note_limit "x-ratelimit-remaining" "X-RateLimit-Remaining" "google_shopping_rate_remaining" IntK hm in
  let hm := note_limit "x-ratelimit-reset" "X-RateLimit-Reset" "google_shopping_rate_reset_unix" Int64K hm in
  let '(retry, m) := note_retry "google_shopping" (5 * Second) (tp_StatusCode response =? 429)%Z hm.1 hm.2 in
  mkResponseMeta (tp_StatusCode response) hm.1 retry (note_error "google_shopping" (shopping_readErrorType (tp_Body response)) m).

(** *** Shopify counts calls *)

Definition parseShopifyCallLimit (value : string) : option (Z * Z) :=
  match SplitChar "/" (TrimSpace value) with
  | [a; b] =>
    match Atoi (TrimSpace a) with
    | Some used => if (used <? 0)%Z then None
                   else match Atoi (TrimSpace b) with Some limit => if (limit <=? 0)%Z then None else Some (used, limit) | None => None end
    | None => None
    end
  | _ => None
  end.
Definition shopify_readErrorType (body : string) : string :=
  let trimmed := TrimSpace body in
  if String.eqb trimmed "" then "" else if Contains (ToLower trimmed) "throttle" then "throttle" else if Contains (ToLower trimmed) "rate" then "rate_limit" else "".

Definition NormalizeAdminAPIResponse (response : TransportResponse) : ProviderResponseMeta :=
  let headers := tp_Headers response in
  let m := note_header headers "x-shopify-api-version" "shopify_api_version" (note_header headers "x-request-id" "shopify_request_id" (tp_Metadata response)) in
  let '(headers, m) :=
    match parseShopifyCallLimit (headerValue headers "x-shopify-shop-api-call-limit") with
    | Some (used, limit) =>
      let remaining := Z.max (limit - used) 0 in
      (<["X-RateLimit-Remaining" := Itoa remaining]> (<["X-RateLimit-Limit" := Itoa limit]> headers),
       <["shopify_api_call_remaining" := VInt IntK remaining]> (<["shopify_api_call_limit" := VInt IntK limit]> (<["shopify_api_call_used" := VInt IntK used]> m)))
    | None => (headers, m)
    end in
  let '(retry, m) := note_retry "shopify" (2 * Second) (tp_StatusCode response =? 429)%Z headers m in
  mkResponseMeta (tp_StatusCode response) headers retry (note_error "shopify" (TrimSpace (shopify_readErrorType (tp_Body response))) m).
Definition AssertAdminAPIResponse (response : TransportResponse) : option string :=
  if (rm_StatusCode (NormalizeAdminAPIResponse response) <=? 0)%Z then Some "status code is required" else None.

(** *** Amazon gives rates *)

Section amazon.
(** [strconv.ParseFloat] to a value, and [strconv.FormatFloat] with the fewest digits. *)
Variable ParseFloat : string → option value.
Variable FormatFloat : value → string.

Fixpoint drop_char (c : ascii) (l : list ascii) : list ascii := match l with x :: l' => if Ascii.eqb x c then drop_char c l' else l | [] => [] end.
Definition TrimRightChar (c : ascii) (s : string) : string := string_of_list_ascii (reverse (drop_char c (reverse (list_ascii_of_string s)))).
Definition trimFloat (v : value) : string :=
  let formatted := FormatFloat v in if Contains formatted "." then TrimRightChar "." (TrimRightChar "0" formatted) else formatted.
Definition parseHeaderFloat (headers : gmap string string) (key : string) : option value :=
  let raw := TrimSpace (headerValue headers key) in if String.eqb raw "" then None else ParseFloat raw.
Definition note_rate (header common key : string) (hm : gmap string string * gmap string value) : gmap string string * gmap string value :=
  match parseHeaderFloat hm.1 header with Some v => (<[common := trimFloat v]> hm.1, <[key := v]> hm.2) | None => hm end.
Definition parseErrorType (body : string) : string :=
  let trimmed := TrimSpace (ToLower body) in
  if String.eqb trimmed "" then "" else if Contains trimmed "quota" then "quota" else if Contains trimmed "too many requests" then "rate_limit"
  else if Contains trimmed "throttl" then "throttle" else "".

Definition amazon_NormalizeAPIResponse (response : TransportResponse) : ProviderResponseMeta :=
  let headers := tp_Headers response in
  let m := note_header headers "x-amz-request-id" "amazon_request_id" (note_header headers "x-amzn-requestid" "amazon_request_id" (tp_Metadata response)) in
  let hm := note_rate "x-amzn-ratelimit-limit" "X-RateLimit-Limit" "amazon_rate_limit" (headers, m) in
  let hm := note_rate "x-amzn-ratelimit-remaining" "X-RateLimit-Remaining" "amazon_rate_remaining" hm in
  let hm := note_limit "x-amzn-ratelimit-reset" "X-RateLimit-Reset" "amazon_rate_reset_unix" Int64K hm in
  let '(retry, m) := note_retry "amazon" (2 * Second) ((tp_StatusCode response =? 429) || (tp_StatusCode response =? 503))%Z hm.1 hm.2 in
  mkResponseMeta (tp_StatusCode response) hm.1 retry (note_error "amazon" (parseErrorType (tp_Body response)) m).
End amazon.
End normalizers.

(** ** What an answer makes the policy do *)

Section facts.
Context {MR : MapRange}.

(** A header under one spelling only, and no header of a name. *)
Definition named (key k : string) : Prop := EqualFold (TrimSpace k) (TrimSpace key) = true.
Definition sole (h : gmap string string) (key x : string) : Prop := ∃ k, h !! k = Some x ∧ named key k ∧ ∀ k', is_Some (h !! k') → named key k' → k' = k.
Definition absent (h : gmap string string) (key : string) : Prop := ∀ k, is_Some (h !! k) → ¬ named key k.

Lemma sole_value h key x : sole h key x → headerValue h key = TrimSpace x.
Proof. intros (k & Hk & Hn & Hu). by eapply headerValue_found. Qed.
Lemma absent_value h key : absent h key → headerValue h key = "".
Proof.
  intros Ha. destruct (decide (headerValue h key = "")) as [|Hne]; [done|]. destruct (headerValue_inv h key _ eq_refl Hne) as (k & x & Hk & Hn & _).
  destruct (Ha k); [by eexists|done].
Qed.

(** The names that are written. *)
Definition limit_names : list string := ["X-RateLimit-Limit"; "X-RateLimit-Remaining"; "X-RateLimit-Reset"].
Definition same_but_limits (h h' : gmap string string) : Prop := ∀ k, k ∉ limit_names → h' !! k = h !! k.

Lemma retry_not_limit k : named "retry-after" k → k ∉ limit_names.
Proof. intros Hn Hin. unfold limit_names in Hin. rewrite !elem_of_cons in Hin. destruct Hin as [->|[->|[->|[]%elem_of_nil]]]; vm_compute in Hn; discriminate Hn. Qed.
Lemma sole_kept h h' x : same_but_limits h h' → sole h "retry-after" x → sole h' "retry-after" x.
Proof.
  intros Hs (k & Hk & Hn & Hu). exists k. rewrite Hs by (by apply retry_not_limit). split_and!; [done..|]. intros k' Hk' Hn'. apply Hu; [|done]. by rewrite <-Hs by (by apply retry_not_limit).
Qed.
Lemma absent_kept h h' : same_but_limits h h' → absent h "retry-after" → absent h' "retry-after".
Proof. intros Hs Ha k Hk Hn. apply (Ha k); [|done]. by rewrite <-Hs by (by apply retry_not_limit). Qed.

(** The delay the headers ask for, in whole seconds that fit; without the header it is the one of the provider. *)
Definition asks (h : gmap string string) (fallback d : Duration) : Prop :=
  (∃ x n, sole h "retry-after" x ∧ Atoi (TrimSpace x) = Some n ∧ (0 < n)%Z ∧ (n * Second < 2 ^ 63)%Z ∧ d = (n * Second)%Z) ∨ absent h "retry-after" ∧ d = fallback.

Lemma asks_retry h h' fallback d : same_but_limits h h' → asks h fallback d → default fallback (retry_header h') = d.
Proof.
  intros Hs [(x & n & Hx & Hn & Hpos & Hfit & ->)|[Ha ->]]; unfold retry_header; cbv zeta; rewrite headerValue_trimmed.
  - rewrite (sole_value h' _ x) by (by eapply sole_kept). destruct (String.eqb_spec (TrimSpace x) "") as [E|_]; [rewrite E in Hn; vm_compute in Hn; discriminate Hn|].
    rewrite Hn. assert ((n <=? 0)%Z = false) as -> by lia. simpl. apply wrap64_id. unfold in_int64, int64_min, int64_max, Second in *. lia.
  - rewrite absent_value by (by eapply absent_kept). done.
Qed.

(** The readers of the answers, with the delay of a 429 that does not name one. *)
Inductive normalizes : (TransportResponse → ProviderResponseMeta) → Duration → Prop :=
| NormTikTok : normalizes tiktok_NormalizeAPIResponse (3 * Second)
| NormPinterest : normalizes pinterest_NormalizeAPIResponse (5 * Second)
| NormShopping : normalizes shopping_NormalizeAPIResponse (5 * Second)
| NormShopify : normalizes NormalizeAdminAPIResponse (2 * Second)
| NormAmazon ParseFloat FormatFloat : normalizes (amazon_NormalizeAPIResponse ParseFloat FormatFloat) (2 * Second).

Lemma same_but_limits_refl h : same_but_limits h h.
Proof. by intros k. Qed.
Lemma same_but_limits_insert h h' k v : k ∈ limit_names → same_but_limits h h' → same_but_limits h (<[k := v]> h').
Proof. intros Hk Hs j Hj. rewrite lookup_insert_ne; [by apply Hs|]. by intros <-. Qed.
Lemma note_limit_same h hm header common key kind : common ∈ limit_names → same_but_limits h hm.1 → same_but_limits h (note_limit header common key kind hm).1.
Proof. intros Hc Hs. unfold note_limit. destruct (limit_header _ _); [|done]. by apply same_but_limits_insert. Qed.
Lemma note_rate_same PF FF h hm header common key : common ∈ limit_names → same_but_limits h hm.1 → same_but_limits h (note_rate PF FF header common key hm).1.
Proof. intros Hc Hs. unfold note_rate. destruct (parseHeaderFloat _ _ _); [|done]. by apply same_but_limits_insert. Qed.
Lemma note_retry_429 prefix fallback headers m : (note_retry prefix fallback true headers m).1 = Some (default fallback (retry_header headers)).
Proof. unfold note_retry. by destruct (retry_header headers). Qed.

Ltac same_headers := repeat first [apply same_but_limits_refl | apply note_limit_same; [by repeat constructor|] | apply note_rate_same; [by repeat constructor|]
  | apply same_but_limits_insert; [by repeat constructor|]].

(** Every reader of a 429 keeps the status and every header but the common ones, and asks to wait. *)
Lemma normalizes_429 N fallback r : normalizes N fallback → tp_StatusCode r = 429%Z →
  rm_StatusCode (N r) = 429%Z ∧ same_but_limits (tp_Headers r) (rm_Headers (N r)) ∧ rm_RetryAfter (N r) = Some (default fallback (retry_header (rm_Headers (N r)))).
Proof.
  intros [] Hc.
  1-3, 5: unfold tiktok_NormalizeAPIResponse, pinterest_NormalizeAPIResponse, shopping_NormalizeAPIResponse, amazon_NormalizeAPIResponse; rewrite Hc; cbv zeta; change (429 =? 429)%Z with true;
    cbn [orb]; match goal with |- context[note_retry ?p ?f true ?h ?m] => pose proof (note_retry_429 p f h m) as Hr; destruct (note_retry p f true h m) as [retry m'] end;
    cbn [rm_StatusCode rm_Headers rm_RetryAfter fst] in *; split_and!; [done| |done]; same_headers.
  unfold NormalizeAdminAPIResponse. rewrite Hc. cbv zeta. change (429 =? 429)%Z with true.
  destruct (parseShopifyCallLimit _) as [[used limit]|];
    (match goal with |- context[note_retry ?p ?f true ?h ?m] => pose proof (note_retry_429 p f h m) as Hr; destruct (note_retry p f true h m) as [retry m'] end);
    cbn [rm_StatusCode rm_Headers rm_RetryAfter fst] in *; split_and!; [done| |done|done| |done]; same_headers.
Qed.

Variable time_Parse : string → string → option Time.
Abbreviation after := (AfterCall (S := MemoryStateStore) time_Parse).


(** The calls Shopify counts are the limits of the policy: the header that tells how many calls were used leaves the limit and what remains of it, never less than none. *)
Theorem shopify_calls_counted response x used limit :
  sole (tp_Headers response) "x-shopify-shop-api-call-limit" x → parseShopifyCallLimit x = Some (used, limit) →
  (∀ k, is_Some (tp_Headers response !! k) → named "x-ratelimit-limit" k → k = "X-RateLimit-Limit") →
  (∀ k, is_Some (tp_Headers response !! k) → named "x-ratelimit-remaining" k → k = "X-RateLimit-Remaining") →
  (limit ≤ int64_max)%Z →
  RateLimit.parseHeaderInt (rm_Headers (NormalizeAdminAPIResponse response)) "x-ratelimit-limit" = Some limit ∧
  RateLimit.parseHeaderInt (rm_Headers (NormalizeAdminAPIResponse response)) "x-ratelimit-remaining" = Some (Z.max (limit - used) 0).
Proof.
  intros Hx Hp Hl Hr Hfit.
  assert (Hu : (0 ≤ used)%Z ∧ (0 < limit)%Z).
  { revert Hp. unfold parseShopifyCallLimit. destruct (SplitChar _ _) as [|a [|b [|]]]; try done. destruct (Atoi (TrimSpace a)) as [u|]; [|done].
    destruct (u <? 0)%Z eqn:Eu; [done|]. destruct (Atoi (TrimSpace b)) as [l|]; [|done]. destruct (l <=? 0)%Z eqn:El; [done|]. intros [= <- <-]. lia. }
  assert (Htrim : parseShopifyCallLimit (TrimSpace x) = Some (used, limit)) by (revert Hp; unfold parseShopifyCallLimit; by rewrite TrimSpace_idem).
  set (h := <["X-RateLimit-Remaining" := Itoa (Z.max (limit - used) 0)]> (<["X-RateLimit-Limit" := Itoa limit]> (tp_Headers response))).
  assert (Hh : rm_Headers (NormalizeAdminAPIResponse response) = h).
  { unfold NormalizeAdminAPIResponse. cbv zeta. rewrite (sole_value _ _ _ Hx), Htrim. by destruct (note_retry _ _ _ _ _). }
  rewrite Hh. assert (Hread : ∀ key common n, (0 ≤ n ≤ int64_max)%Z → h !! common = Some (Itoa n) → named key common →
    (∀ k, is_Some (h !! k) → named key k → k = common) → RateLimit.parseHeaderInt h key = Some n).
  { intros key common n Hn Hc Hnm Huniq. unfold RateLimit.parseHeaderInt. cbv zeta. rewrite (sole_value h key (Itoa n)) by (by exists common).
    rewrite TrimSpace_visible by (apply Itoa_visible; lia). destruct (String.eqb_spec (Itoa n) "") as [E|_]; [|by apply Atoi_Itoa]. pose proof (Atoi_Itoa n Hn) as He. by rewrite E in He. }
  split.
  - apply (Hread _ "X-RateLimit-Limit"); [lia|by unfold h; rewrite lookup_insert_ne, lookup_insert_eq|vm_compute; done|].
    intros k Hk Hn. destruct (decide (k = "X-RateLimit-Limit")) as [|Hne]; [done|]. destruct (decide (k = "X-RateLimit-Remaining")) as [->|Hne'].
    { vm_compute in Hn. discriminate Hn. } apply Hl; [|done]. unfold h in Hk. by rewrite !lookup_insert_ne in Hk by done.
  - apply (Hread _ "X-RateLimit-Remaining"); [lia|by unfold h; rewrite lookup_insert_eq|vm_compute; done|].
    intros k Hk Hn. destruct (decide (k = "X-RateLimit-Remaining")) as [|Hne]; [done|]. destruct (decide (k = "X-RateLimit-Limit")) as [->|Hne'].
    { vm_compute in Hn. discriminate Hn. } apply Hr; [|done]. unfold h in Hk. by rewrite !lookup_insert_ne in Hk by done.
Qed.
End facts.

(** ** Evaluations *)

Module LimitsExample.
#[local] Existing Instance key_order_range.
Definition too_many (headers : gmap string string) : TransportResponse := mkTransportResponse 429 headers "Quota exceeded" ∅.
Definition key : RateLimitKey := mkRateLimitKey "tiktok" "user" "u1" "videos".
Definition after_429 (N : TransportResponse → ProviderResponseMeta) (headers : gmap string string) : AdaptivePolicy MemoryStateStore :=
  policy_with demo_policy (items_after (AfterCall no_dates demo_policy 100 key (N (too_many headers)))).


(** A delay of more seconds than fit is not waited for at all: it becomes negative. *)
Example long_waits_are_skipped :
  rm_RetryAfter (tiktok_NormalizeAPIResponse (too_many {["Retry-After" := "10000000000"]})) = Some (-8446744073709551616)%Z ∧
  BeforeCall (after_429 tiktok_NormalizeAPIResponse {["Retry-After" := "10000000000"]}) 101 key = Ok tt.
Proof. split; vm_compute; reflexivity. Qed.

(** A word such as "generated" is taken for a rate limit. *)
Example error_type_by_substring : tiktok_readErrorType "report generated" = "rate_limit".
Proof. vm_compute. reflexivity. Qed.
End LimitsExample.
