(* ===== verification/OAuthProviders.v ===== *)
(** * The OAuth providers (src/providers/{tiktok,pinterest,github,google,meta})

    The providers that are OAuth2Provider with addresses, scopes, capabilities and names of grants of their own: what each is built with, and what its grants are called.
    JSON, URL parsing and the HTTP client are arguments. *)

From S2P Require Import Prelude GoStrings GoValues Domain OAuthState Contracts GoURL GoHTTP Grants Permissions ServiceTypes Connections Service Profiles OAuth2 AuthStrategies ServiceAccount EnterpriseProviders Amazon Shopify.
From Stdlib Require Import ZArith String Ascii Lia.
From stdpp Require Import base decidable list gmap strings sorting.

Local Open Scope string_scope.
Local Open Scope list_scope.

(** [Config] of these packages; only Google's read [DisableIdentityScopes]. *)
Record PackConfig := mkPack {
  pk_ClientID : string; pk_ClientSecret : string; pk_AuthURL : string; pk_TokenURL : string; pk_DefaultScopes : list string; pk_DisableIdentityScopes : bool;
  pk_SupportedScopeTypes : list string; pk_TokenTTL : Duration }.

Definition block (name grant : string) : CapabilityDescriptor := mkCapability name [grant] [] CapabilityDeniedBehaviorBlock.
(** A value that is given, or else the default. *)
Definition given (v d : string) : string := if String.eqb v "" then d else v.
Definition given_trimmed (v d : string) : string := if blank v then d else v.
Definition pack_oauth (id authURL tokenURL : string) (scopes scopeTypes : list string) (capabilities : list CapabilityDescriptor) (resolver : option ProfileResolver) (cfg : PackConfig)
    : outcome oauth2_error OAuth2Config :=
  NewOAuth2Provider (mkOAuth2Config id authURL tokenURL (pk_ClientID cfg) (pk_ClientSecret cfg) false scopes scopeTypes capabilities (pk_TokenTTL cfg) 0 resolver).

(** ** TikTok *)

Definition tiktok_ProviderID := "tiktok".
Definition tiktok_AuthURL := "https://www.tiktok.com/v2/auth/authorize/".
Definition tiktok_TokenURL := "https://open.tiktokapis.com/v2/oauth/token/".
Definition tiktok_scopes : list string := ["user.info.basic"; "video.list"; "video.insights"].
Definition tiktok_BaselineCapabilities : list CapabilityDescriptor :=
  [block "profile.read" "tiktok:user.info.basic"; block "video.read" "tiktok:video.list"; block "analytics.read" "tiktok:video.insights"].
Definition normalizeTikTokScope (value : string) : string :=
  let normalized := TrimPrefix (TrimSpace (ToLower value)) "tiktok:" in if bool_decide (normalized ∈ tiktok_scopes) then normalized else "".
Definition normalizeTikTokGrant (value : string) : string := let scope := normalizeTikTokScope value in if String.eqb scope "" then "" else "tiktok:" +:+ scope.
Definition tiktok_normalizeCanonicalGrants (l : list string) : list string := canonical_set normalizeTikTokGrant l.
Definition tiktok_New (cfg : PackConfig) : outcome oauth2_error OAuth2Config :=
  pack_oauth tiktok_ProviderID (given_trimmed (pk_AuthURL cfg) tiktok_AuthURL) (given_trimmed (pk_TokenURL cfg) tiktok_TokenURL)
    (canonical_set normalizeTikTokScope (or_else (pk_DefaultScopes cfg) tiktok_scopes)) (or_else (pk_SupportedScopeTypes cfg) ["user"; "org"]) tiktok_BaselineCapabilities None cfg.

(** ** Pinterest *)

Definition pinterest_ProviderID := "pinterest".
Definition pinterest_AuthURL := "https://www.pinterest.com/oauth/".
Definition pinterest_TokenURL := "https://api.pinterest.com/v5/oauth/token".
Definition pinterest_scopes : list string := ["user_accounts:read"; "boards:read"; "pins:read"].
Definition pinterest_BaselineCapabilities : list CapabilityDescriptor :=
  [block "account.read" "pinterest:user_accounts:read"; block "boards.read" "pinterest:boards:read"; block "pins.read" "pinterest:pins:read"].
Definition normalizePinterestScope (value : string) : string :=
  let normalized := TrimPrefix (TrimSpace (ToLower value)) "pinterest:" in if bool_decide (normalized ∈ pinterest_scopes) then normalized else "".
Definition normalizePinterestGrant (value : string) : string := let scope := normalizePinterestScope value in if String.eqb scope "" then "" else "pinterest:" +:+ scope.
Definition pinterest_normalizeCanonicalGrants (l : list string) : list string := canonical_set normalizePinterestGrant l.
Definition pinterest_New (cfg : PackConfig) : outcome oauth2_error OAuth2Config :=
  pack_oauth pinterest_ProviderID (given_trimmed (pk_AuthURL cfg) pinterest_AuthURL) (given_trimmed (pk_TokenURL cfg) pinterest_TokenURL)
    (canonical_set normalizePinterestScope (or_else (pk_DefaultScopes cfg) pinterest_scopes)) (or_else (pk_SupportedScopeTypes cfg) ["user"; "org"]) pinterest_BaselineCapabilities None cfg.

(** ** Meta *)

Definition MetaOAuthAuthURL := "https://www.facebook.com/v23.0/dialog/oauth".
Definition MetaOAuthTokenURL := "https://graph.facebook.com/v23.0/oauth/access_token".
Definition meta_NormalizeScopes (scopes : list string) : list string := canonical_set (λ s, TrimSpace (ToLower s)) scopes.

Inductive meta_error := MetaErrProviderID | MetaErrOAuth (e : oauth2_error).
Definition ResolveOAuth2Config (providerID : string) (cfg : PackConfig) (fallback : list string) (capabilities : list CapabilityDescriptor) : outcome meta_error OAuth2Config :=
  let id := TrimSpace (ToLower providerID) in
  if String.eqb id "" then Fail MetaErrProviderID
  else
    let authURL := TrimSpace (pk_AuthURL cfg) in
    let tokenURL := TrimSpace (pk_TokenURL cfg) in
    let scopes := meta_NormalizeScopes (pk_DefaultScopes cfg) in
    Ok (mkOAuth2Config id (given authURL MetaOAuthAuthURL) (given tokenURL MetaOAuthTokenURL) (TrimSpace (pk_ClientID cfg)) (TrimSpace (pk_ClientSecret cfg)) false
          (or_else scopes (meta_NormalizeScopes fallback)) (meta_NormalizeScopes (pk_SupportedScopeTypes cfg)) capabilities (pk_TokenTTL cfg) 0 None).
Definition meta_New (providerID : string) (scopes : list string) (capabilities : list CapabilityDescriptor) (cfg : PackConfig) : outcome meta_error OAuth2Config :=
  let cfg := mkPack (pk_ClientID cfg) (pk_ClientSecret cfg) (pk_AuthURL cfg) (pk_TokenURL cfg) (or_else (pk_DefaultScopes cfg) scopes) false
               (or_else (pk_SupportedScopeTypes cfg) ["user"; "org"]) (pk_TokenTTL cfg) in
  match ResolveOAuth2Config providerID cfg scopes capabilities with
  | Fail err => Fail err
  | Ok oauthCfg => match NewOAuth2Provider oauthCfg with Ok p => Ok p | Fail e => Fail (MetaErrOAuth e) end
  end.

Definition instagram_ProviderID := "meta_instagram".
Definition instagram_scopes : list string := ["instagram_basic"; "instagram_manage_insights"; "pages_show_list"].
Definition instagram_BaselineCapabilities : list CapabilityDescriptor :=
  [block "media.read" "instagram:instagram_basic"; block "insights.read" "instagram:instagram_manage_insights"; block "page.binding.read" "instagram:pages_show_list"].
Definition normalizeInstagramGrant (value : string) : string :=
  let normalized := TrimPrefix (TrimPrefix (TrimSpace (ToLower value)) "instagram:") "meta:" in if bool_decide (normalized ∈ instagram_scopes) then "instagram:" +:+ normalized else "".
Definition instagram_normalizeCanonicalGrants (l : list string) : list string := canonical_set normalizeInstagramGrant l.
Definition instagram_New (cfg : PackConfig) : outcome meta_error OAuth2Config := meta_New instagram_ProviderID instagram_scopes instagram_BaselineCapabilities cfg.

Definition facebook_ProviderID := "meta_facebook".
Definition facebook_scopes : list string := ["pages_show_list"; "pages_read_engagement"; "business_management"].
Definition facebook_BaselineCapabilities : list CapabilityDescriptor :=
  [block "pages.read" "facebook:pages_show_list"; block "engagement.read" "facebook:pages_read_engagement"; block "business.read" "facebook:business_management"].
Definition normalizeFacebookGrant (value : string) : string :=
  let normalized := TrimPrefix (TrimPrefix (TrimSpace (ToLower value)) "facebook:") "meta:" in if bool_decide (normalized ∈ facebook_scopes) then "facebook:" +:+ normalized else "".
Definition facebook_normalizeCanonicalGrants (l : list string) : list string := canonical_set normalizeFacebookGrant l.
Definition facebook_New (cfg : PackConfig) : outcome meta_error OAuth2Config := meta_New facebook_ProviderID facebook_scopes facebook_BaselineCapabilities cfg.

(** ** GitHub and Google, whose users have profiles *)

Definition google_AuthURL := "https://accounts.google.com/o/oauth2/v2/auth".
Definition google_TokenURL := "https://oauth2.googleapis.com/token".
Definition identity_scopes : list string := ["openid"; "profile"; "email"].
(** The non-blank scopes in order, each once. *)
Definition add_once (out : list string) (scope : string) : list string :=
  let trimmed := TrimSpace scope in if String.eqb trimmed "" || bool_decide (trimmed ∈ out) then out else out ++ [trimmed].
Definition google_normalizeScopes (scopes : list string) : list string := foldl add_once [] scopes.
Definition WithIdentityScopes (scopes : list string) (include : bool) : list string :=
  let normalized := google_normalizeScopes scopes in if include then google_normalizeScopes (normalized ++ identity_scopes) else normalized.
Definition googleapis (name : string) : string := "https://www.googleapis.com/auth/" +:+ name.

Section profiles.
Context {MR : MapRange}.
Variable json_Unmarshal : string → outcome string (gmap string value).
Variable parseURL : string → outcome string URL.
Variable oor : Z.
Variable client : HTTPDoer.
Definition DefaultResolver : ProfileResolver := Resolve json_Unmarshal parseURL oor (NewResolver oor client None ∅).

Definition github_ProviderID := "github".
Definition github_AuthURL := "https://github.com/login/oauth/authorize".
Definition github_TokenURL := "https://github.com/login/oauth/access_token".
Definition github_scopes : list string := ["repo"; "read:user"].
Definition github_capabilities : list CapabilityDescriptor := [block "repo.read" "repo"; block "repo.write" "repo"; block "issues.read" "repo"; block "issues.write" "repo"].
Definition github_New (cfg : PackConfig) : outcome oauth2_error OAuth2Config :=
  pack_oauth github_ProviderID (given (pk_AuthURL cfg) github_AuthURL) (given (pk_TokenURL cfg) github_TokenURL) (or_else (pk_DefaultScopes cfg) github_scopes)
    (pk_SupportedScopeTypes cfg) github_capabilities (Some DefaultResolver) cfg.

(** A Google service with the identity scopes, unless they are turned off. *)
Definition google_New (id : string) (scopes : list string) (capabilities : list CapabilityDescriptor) (cfg : PackConfig) : outcome oauth2_error OAuth2Config :=
  pack_oauth id (given (pk_AuthURL cfg) google_AuthURL) (given (pk_TokenURL cfg) google_TokenURL)
    (WithIdentityScopes (or_else (pk_DefaultScopes cfg) scopes) (negb (pk_DisableIdentityScopes cfg))) (pk_SupportedScopeTypes cfg) capabilities (Some DefaultResolver) cfg.

Definition drive_scopes : list string := [googleapis "drive.readonly"; googleapis "drive.file"].
Definition drive_capabilities : list CapabilityDescriptor :=
  [block "drive.files.read" (googleapis "drive.readonly"); block "drive.files.write" (googleapis "drive.file"); block "drive.watch" (googleapis "drive.readonly")].
Definition drive_New : PackConfig → outcome oauth2_error OAuth2Config := google_New "google_drive" drive_scopes drive_capabilities.

Definition calendar_scopes : list string := [googleapis "calendar.readonly"; googleapis "calendar.events"].
Definition calendar_capabilities : list CapabilityDescriptor :=
  [block "calendar.events.read" (googleapis "calendar.readonly"); block "calendar.events.write" (googleapis "calendar.events"); block "calendar.watch" (googleapis "calendar.readonly")].
Definition calendar_New : PackConfig → outcome oauth2_error OAuth2Config := google_New "google_calendar" calendar_scopes calendar_capabilities.

Definition docs_scopes : list string := [googleapis "documents.readonly"; googleapis "documents"].
Definition docs_capabilities : list CapabilityDescriptor := [block "docs.read" (googleapis "documents.readonly"); block "docs.write" (googleapis "documents")].
Definition docs_New : PackConfig → outcome oauth2_error OAuth2Config := google_New "google_docs" docs_scopes docs_capabilities.

Definition gmail_scopes : list string := [googleapis "gmail.readonly"; googleapis "gmail.send"].
Definition gmail_capabilities : list CapabilityDescriptor := [block "mail.read" (googleapis "gmail.readonly"); block "mail.send" (googleapis "gmail.send")].
Definition gmail_New : PackConfig → outcome oauth2_error OAuth2Config := google_New "google_gmail" gmail_scopes gmail_capabilities.
End profiles.

(** ** Google Shopping, which also has service accounts *)

Definition ScopeContent : string := googleapis "content".
Definition shopping_BaselineCapabilities : list CapabilityDescriptor := [block "catalog.read" ScopeContent; block "inventory.read" ScopeContent; block "orders.read" ScopeContent].
Definition normalizeShoppingScope (value : string) : string :=
  let normalized := TrimPrefix (TrimPrefix (TrimPrefix (TrimSpace (ToLower value)) "google_shopping:") "google:") "shopping:" in
  if bool_decide (normalized ∈ [ToLower ScopeContent; "content"]) then ScopeContent else "".
Definition shopping_normalizeCanonicalGrants (l : list string) : list string := canonical_set normalizeShoppingScope l.

Record ServiceAccountConfig := mkServiceAccount {
  ac_Issuer : string; ac_Subject : string; ac_Audience : string; ac_SigningKey : string; ac_SigningAlgorithm : string; ac_KeyID : string; ac_ExternalAccountID : string }.
(** [ServiceAccountProfile]: the metadata of an enabled one. *)
Definition normalizeServiceAccountProfile (cfg : ServiceAccountConfig) (tokenURL : string) (defaultScopes : list string) : option (gmap string value) :=
  let issuer := TrimSpace (ac_Issuer cfg) in
  let signingKey := TrimSpace (ac_SigningKey cfg) in
  let audience := given (TrimSpace (ac_Audience cfg)) (TrimSpace tokenURL) in
  let algorithm := given (ToUpper (TrimSpace (ac_SigningAlgorithm cfg))) "RS256" in
  let grants := shopping_normalizeCanonicalGrants defaultScopes in
  if negb (String.eqb issuer "") && negb (String.eqb audience "") && negb (String.eqb signingKey "") then
    Some {["auth_kind" := VString "service_account_jwt"; "issuer" := VString issuer; "subject" := VString (TrimSpace (ac_Subject cfg)); "audience" := VString audience;
           "signing_key" := VString signingKey; "signing_algorithm" := VString algorithm; "key_id" := VString (TrimSpace (ac_KeyID cfg));
           "external_account_id" := VString (TrimSpace (ac_ExternalAccountID cfg)); "requested_grants" := VStrings grants; "granted_grants" := VStrings grants]}
  else None.
Definition shopping_scopes (cfg : PackConfig) : list string :=
  WithIdentityScopes (canonical_set normalizeShoppingScope (or_else (pk_DefaultScopes cfg) [ScopeContent])) (negb (pk_DisableIdentityScopes cfg)).
Definition shopping_New (cfg : PackConfig) (account : ServiceAccountConfig) : outcome oauth2_error (OAuth2Config * option (gmap string value)) :=
  let tokenURL := given_trimmed (pk_TokenURL cfg) google_TokenURL in
  match pack_oauth "google_shopping" (given_trimmed (pk_AuthURL cfg) google_AuthURL) tokenURL (shopping_scopes cfg) (or_else (pk_SupportedScopeTypes cfg) ["org"])
          shopping_BaselineCapabilities None cfg with
  | Fail e => Fail e
  | Ok p => Ok (p, normalizeServiceAccountProfile account tokenURL (shopping_scopes cfg))
  end.

(** ** What the default scopes are good for *)

Section facts.
Context {MR : MapRange}.

(** The grants that the service stores when every scope that was asked for is granted. *)
Definition stored_grants (normalizer : option (list string → list string)) (scopes : list string) : list string :=
  match normalizer with Some f => Grants.normalizeGrants (f (Grants.normalizeGrants scopes)) | None => Grants.normalizeGrants scopes end.
Lemma stored_by_service {E} normalizer scopes :
  provider_normalized (E := E) (option_map (λ f l, Ok (f l)) normalizer) (Grants.normalizeGrants scopes) = Ok (stored_grants normalizer scopes).
Proof. destruct normalizer; simpl; reflexivity. Qed.

Definition canonical (f : option (string → string)) : option (list string → list string) := option_map canonical_set f.
(** A scope that becomes the grant. *)
Definition becomes (f : option (string → string)) (g s : string) : bool :=
  let x := lowerTrim s in negb (String.eqb x "") && negb (String.eqb g "") && String.eqb (lowerTrim g) g && String.eqb (match f with Some f => f x | None => x end) g.
Definition covers (f : option (string → string)) (scopes : list string) (capabilities : list CapabilityDescriptor) : bool :=
  forallb (λ d, forallb (λ g, existsb (becomes f g) scopes && String.eqb (lowerTrim g) g) (cap_RequiredGrants d)) capabilities.

Lemma becomes_stored f g s scopes : s ∈ scopes → becomes f g s = true → g ∈ grants (stored_grants (canonical f) (Grants.normalizeGrants scopes)).
Proof.
  unfold becomes. cbv zeta. intros Hin H. repeat rewrite andb_true_iff in H. destruct H as (((Hx & Hg) & Hl) & Hf).
  apply negb_true_iff, String.eqb_neq in Hx, Hg. apply String.eqb_eq in Hl, Hf.
  assert (Hs : lowerTrim s ∈ Grants.normalizeGrants (Grants.normalizeGrants scopes)).
  { rewrite elem_of_normalizeGrants, grants_normalizeGrants, elem_of_grants. eauto. }
  destruct f as [f|]; simpl in *.
  - rewrite grants_normalizeGrants, elem_of_grants. split; [done|]. exists g. split; [|done]. apply elem_of_canonical_set. split; [done|]. eauto.
  - rewrite elem_of_grants. split; [done|]. exists g. by rewrite <-Hf at 1.
Qed.
Lemma covers_required f scopes capabilities desc : covers f scopes capabilities = true → desc ∈ capabilities →
  grants (cap_RequiredGrants desc) ⊆ grants (stored_grants (canonical f) (Grants.normalizeGrants scopes)).
Proof.
  unfold covers. rewrite forallb_forall. intros H Hin%list_elem_of_In. specialize (H desc Hin). rewrite forallb_forall in H.
  intros g (Hne & v & Hv%list_elem_of_In & <-)%elem_of_grants. specialize (H v Hv). apply andb_true_iff in H as [He Hl%String.eqb_eq].
  apply existsb_exists in He as (s & Hs%list_elem_of_In & Hb). rewrite Hl. by eapply becomes_stored.
Qed.

Variable json_Unmarshal : string → outcome string (gmap string value).
Variable parseURL : string → outcome string URL.
Variable oor : Z.
Variable client : HTTPDoer.

Definition built {E A} (r : outcome E A) : option A := match r with Ok a => Some a | Fail _ => None end.
(** The providers, with what they do to a grant. *)
Inductive provider_pack : (PackConfig → option OAuth2Config) → option (string → string) → Prop :=
| PackTikTok : provider_pack (λ cfg, built (tiktok_New cfg)) (Some normalizeTikTokGrant)
| PackPinterest : provider_pack (λ cfg, built (pinterest_New cfg)) (Some normalizePinterestGrant)
| PackInstagram : provider_pack (λ cfg, built (instagram_New cfg)) (Some normalizeInstagramGrant)
| PackFacebook : provider_pack (λ cfg, built (facebook_New cfg)) (Some normalizeFacebookGrant)
| PackGitHub : provider_pack (λ cfg, built (github_New json_Unmarshal parseURL oor client cfg)) None
| PackDrive : provider_pack (λ cfg, built (drive_New json_Unmarshal parseURL oor client cfg)) None
| PackCalendar : provider_pack (λ cfg, built (calendar_New json_Unmarshal parseURL oor client cfg)) None
| PackDocs : provider_pack (λ cfg, built (docs_New json_Unmarshal parseURL oor client cfg)) None
| PackGmail : provider_pack (λ cfg, built (gmail_New json_Unmarshal parseURL oor client cfg)) None
| PackShopping account : provider_pack (λ cfg, fst <$> built (shopping_New cfg account)) (Some normalizeShoppingScope)
| PackAmazon sigv4 : provider_pack (λ cfg, Amazon.azp_oauth <$> built (Amazon.New (Amazon.mkConfig (pk_ClientID cfg) (pk_ClientSecret cfg) (pk_AuthURL cfg) (pk_TokenURL cfg)
    (pk_DefaultScopes cfg) (pk_SupportedScopeTypes cfg) (pk_TokenTTL cfg) sigv4))) (Some Amazon.normalizeAmazonGrant).

(** What a built provider asks for and declares. *)
Lemma NewOAuth2Provider_ok cfg p : NewOAuth2Provider cfg = Ok p → oc_DefaultScopes p = Grants.normalizeGrants (oc_DefaultScopes cfg) ∧ oc_Capabilities p = oc_Capabilities cfg.
Proof.
  unfold NewOAuth2Provider. cbv zeta. destruct (String.eqb _ _); [done|]. do 3 (destruct (blank _); [done|]). intros H. apply Ok_inj in H as <-. split; [apply provider_grants_agree|done].
Qed.

Lemma pack_defaults build f cfg p : provider_pack build f → pk_DefaultScopes cfg = [] → build cfg = Some p →
  ∃ scopes, oc_DefaultScopes p = Grants.normalizeGrants scopes ∧ covers f scopes (oc_Capabilities p) = true.
Proof.
  intros Hp Hd. assert (Ho : ∀ E (r : outcome E OAuth2Config), built r = Some p → r = Ok p) by (intros E [x|] Hr; [by injection Hr as ->|done]).
  assert (Hpack : ∀ id a t scopes st caps res, pack_oauth id a t scopes st caps res cfg = Ok p → covers f scopes caps = true →
     ∃ scopes, oc_DefaultScopes p = Grants.normalizeGrants scopes ∧ covers f scopes (oc_Capabilities p) = true).
  { intros id a t scopes st caps res [Hs Hc]%NewOAuth2Provider_ok Hcov. exists scopes. by rewrite Hs, Hc. }
  assert (Hmeta : ∀ id scopes caps, meta_New id scopes caps cfg = Ok p → (String.eqb (TrimSpace (ToLower id)) "" = false ∧ covers f (or_else (meta_NormalizeScopes scopes) (meta_NormalizeScopes scopes)) caps = true) →
     ∃ scopes, oc_DefaultScopes p = Grants.normalizeGrants scopes ∧ covers f scopes (oc_Capabilities p) = true).
  { intros id scopes caps H [Hid Hcov]. unfold meta_New, ResolveOAuth2Config in H. cbv zeta in H. rewrite Hd, Hid in H. destruct (NewOAuth2Provider _) as [q|] eqn:Hq; [|done].
    apply Ok_inj in H as ->. apply NewOAuth2Provider_ok in Hq as [Hs Hc]. eexists. rewrite Hs, Hc. split; [reflexivity|exact Hcov]. }
  destruct Hp.
  1-2: intros H%Ho; eapply Hpack; [exact H|rewrite Hd; vm_compute; reflexivity].
  1-2: intros H; (eapply Hmeta; [exact (Ho _ _ H)|split; vm_compute; reflexivity]).
  1-5: intros H%Ho; eapply Hpack; [exact H|rewrite Hd; by destruct (pk_DisableIdentityScopes cfg); vm_compute].
  - unfold shopping_New. cbv zeta. destruct (pack_oauth _ _ _ _ _ _ _ _) as [q|] eqn:E; [|done]. simpl. intros [= <-]. eapply Hpack; [exact E|]. unfold shopping_scopes. rewrite Hd.
    by destruct (pk_DisableIdentityScopes cfg); vm_compute.
  - unfold Amazon.New. destruct (Amazon.normalizeSigV4Config _) as [sig|]; [|done]. destruct (NewOAuth2Provider _) as [q|] eqn:E; [|done]. simpl. intros [= <-].
    apply NewOAuth2Provider_ok in E as [Hs Hc]. eexists. rewrite Hs, Hc. cbn [oc_DefaultScopes oc_Capabilities Amazon.cfg_DefaultScopes]. rewrite Hd. split; [reflexivity|vm_compute; reflexivity].
Qed.

(** Every provider asks for what its capabilities need.  If no scopes are configured and the user grants those that are asked for, then every capability of the provider is allowed,
    under the names the service stores the grants by. *)
Theorem default_scopes_suffice build f cfg p desc snapshot :
  provider_pack build f → pk_DefaultScopes cfg = [] → build cfg = Some p → desc ∈ oc_Capabilities p →
  gs_Granted snapshot = stored_grants (canonical f) (oc_DefaultScopes p) →
  pd_Allowed (decide_capability desc (cap_Name desc) (snapshot_set (Some snapshot))) = true.
Proof.
  intros Hp Hd Hb Hin Hg. destruct (pack_defaults _ _ _ _ Hp Hd Hb) as (scopes & Hs & Hcov).
  pose proof (covers_required f scopes _ desc Hcov Hin) as Hsub. rewrite <-Hs, <-Hg in Hsub.
  unfold decide_capability. cbv zeta. rewrite (proj2 (missing_none _ (Some snapshot)) Hsub). by destruct (_ && _).
Qed.
End facts.

(** ** Evaluations *)

Module ProvidersExample.
#[local] Existing Instance key_order_range.
Definition config : PackConfig := mkPack "id" "" "" "" [] false [] 0.
Definition demo_tiktok : option OAuth2Config := built (tiktok_New config).

Lemma default_scopes_suffice_witness :
  ∃ p, demo_tiktok = Some p ∧ pd_Allowed (decide_capability (block "video.read" "tiktok:video.list") "video.read"
    (snapshot_set (Some (mkSnapshot "c1" 1 (oc_DefaultScopes p) (stored_grants (canonical (Some normalizeTikTokGrant)) (oc_DefaultScopes p)) 0 ∅)))) = true.
Proof.
  assert (Hs : match demo_tiktok with Some p => oc_Capabilities p = tiktok_BaselineCapabilities | None => False end) by (vm_compute; reflexivity).
  destruct demo_tiktok as [p|] eqn:Hp; [|destruct Hs]. exists p. split; [reflexivity|].
  assert (Hin : block "video.read" "tiktok:video.list" ∈ oc_Capabilities p) by (rewrite Hs; right; left).
  exact (default_scopes_suffice (λ _, Fail "") (λ _, Fail "") 0%Z (λ _, Fail "") _ _ config p (block "video.read" "tiktok:video.list")
    (mkSnapshot "c1" 1 (oc_DefaultScopes p) (stored_grants (canonical (Some normalizeTikTokGrant)) (oc_DefaultScopes p)) 0 ∅) (PackTikTok _ _ _ _) eq_refl Hp Hin eq_refl).
Defined.

(** A scope that is not one of the provider's is dropped without a word. *)
Example unknown_scopes_dropped : (oc_DefaultScopes <$> built (tiktok_New (mkPack "id" "" "" "" ["video.upload"; "TikTok:video.list "] false [] 0))) = Some ["video.list"].
Proof. vm_compute. reflexivity. Qed.
End ProvidersExample.
