(* ===== verification/Transport.v ===== *)
(** * Transport (src/transport)

    The adapters that send the requests of the operation runtime over HTTP, and the registry that makes them: REST, GraphQL over it, and the protocols that add a method and
    headers of their own.  URL parsing and printing, JSON, the HTTP client, the elapsed time and the text of a rich error are arguments. *)

From S2P Require Import Prelude GoStrings GoValues Domain Contracts GoURL GoHTTP Permissions ServiceTypes Signers Errors ProviderOps ServiceAccount.
From Stdlib Require Import ZArith String Ascii Lia.
From stdpp Require Import base decidable list gmap strings.

Local Open Scope string_scope.
Local Open Scope list_scope.

(** ** Errors (src/transport/errors.go) *)

Definition transportTextCode (category : Category) : string :=
  match category with
  | CategoryBadInput | CategoryValidation => ServiceErrorBadInput
  | CategoryAuth => ServiceErrorUnauthorized
  | CategoryAuthz => ServiceErrorForbidden
  | CategoryRateLimit => ServiceErrorRateLimited
  | CategoryOperation => ServiceErrorOperationFailed
  | CategoryExternal => ServiceErrorExternalFailure
  | _ => ServiceErrorInternal
  end.

Definition KindREST := "rest".
Definition KindGraphQL := "graphql".
Definition KindSOAP := "soap".
Definition KindBulk := "bulk".
Definition KindStream := "stream".
Definition KindFile := "file".
Definition defaultRESTResponseBodyLimit : Z := 10485760.
Definition normalizeKind (kind : string) : string := TrimSpace (ToLower kind).

Section errors.
Context {GE : GoErrors}.
(** [Error()] of a rich error. *)
Variable rich_text : RichError → string.
Definition rich_value (e : RichError) : GoError := mkGoError (rich_text e) (Some e) None [].

Definition transportError (message : string) (category : Category) (code : Z) (metadata : gmap string value) : GoError :=
  let err := WithTextCode (WithCode (goerrors_New message category) code) (transportTextCode category) in
  rich_value (if bool_decide (metadata = ∅) then err else WithMetadata err metadata).
Definition transportWrapError (source : GoError) (category : Category) (message : string) (code : Z) (metadata : gmap string value) : GoError :=
  let err := WithTextCode (WithCode (goerrors_Wrap source category message) code) (transportTextCode category) in
  let err := rich_value (if bool_decide (metadata = ∅) then err else WithMetadata err metadata) in
  mkGoError (err_Text err) (err_Rich err) (err_Convertible source) (err_Is source).

(** ** REST (src/transport/rest_adapter.go) *)

Definition resolveResponseBodyLimit (requestLimit adapterLimit : Z) : Z :=
  if (0 <? requestLimit)%Z then requestLimit else if (0 <? adapterLimit)%Z then adapterLimit else defaultRESTResponseBodyLimit.
Definition flattenHeaders (headers : Header) : gmap string string := (λ values, GoHTTP.Join "," values) <$> headers.

(** [io.ReadAll(io.LimitReader(body, n))]: nothing is read if [n] is not positive. *)
Definition read_limited (n : Z) (res : HttpResponse) : outcome string string :=
  if (n <=? 0)%Z then Ok ""
  else if (n <=? Z.of_nat (String.length (hp_Body res)))%Z then Ok (String.substring 0 (Z.to_nat n) (hp_Body res))
  else match hp_ReadError res with Some err => Fail err | None => Ok (hp_Body res) end.

Section rest.
Context {MR : MapRange}.
Variable url_Parse : string → outcome string URL.
Variable url_String : URL → string.
Variable quote : string → string.

Record RESTAdapter := mkREST { ra_Client : list TransportRequest → HTTPDoer; ra_DefaultHeaders : gmap string string; ra_MaxResponseBodyBytes : Z }.
Definition NewRESTAdapter (client : list TransportRequest → HTTPDoer) : RESTAdapter := mkREST client ∅ defaultRESTResponseBodyLimit.

Definition set_headers (h : Header) (headers : gmap string string) : Header :=
  foldl (λ h kv, if blank kv.1 then h else Header_Set h (TrimSpace kv.1) (TrimSpace kv.2)) h (map_range headers).
Definition set_query (q : Values) (query : gmap string string) : Values :=
  foldl (λ q kv, if blank kv.1 then q else Values_Set q (TrimSpace kv.1) (TrimSpace kv.2)) q (map_range query).
Definition rest_method (m : string) : string := let method := TrimSpace (ToUpper m) in if String.eqb method "" then "GET" else method.

Definition about_request (method url : string) : gmap string value := {["adapter" := VString KindREST; "method" := VString method; "url" := VString url]}.

(** The request that is sent, and its address as a text. *)
Definition rest_request (defaults : gmap string string) (req : TransportRequest) : outcome GoError (string * HttpRequest) :=
  let method := rest_method (tr_Method req) in
  match url_Parse (TrimSpace (tr_URL req)) with
  | Fail err => Fail (transportWrapError (plainError err) CategoryBadInput "transport: invalid request url" StatusBadRequest
                        {["adapter" := VString KindREST; "url" := VString (TrimSpace (tr_URL req))]})
  | Ok parsed =>
    if String.eqb (url_String parsed) "" then Fail (transportError "transport: request url is required" CategoryBadInput StatusBadRequest {["adapter" := VString KindREST]})
    else
      let parsed := u_with_query parsed (Values_Encode (set_query (u_Query parsed) (tr_Query req))) in
      let failed err := Fail (transportWrapError (plainError err) CategoryBadInput "transport: create http request" StatusBadRequest (about_request method (url_String parsed))) in
      if negb (valid_method method) then failed ("net/http: invalid method " +:+ quote method)
      else match url_Parse (url_String parsed) with
      | Fail err => failed err
      | Ok u => Ok (url_String parsed, mkHttpRequest method u (set_headers (set_headers ∅ defaults) (tr_Headers req)) (Some (tr_Body req)))
      end
  end.

(** The answer, within the limit; [ms]: the milliseconds it took. *)
Definition rest_response (limit ms : Z) (res : HttpResponse) : outcome GoError TransportResponse :=
  match read_limited (wrap64 (limit + 1)) res with
  | Fail err => Fail (transportWrapError (plainError err) CategoryExternal "transport: read response body" StatusBadGateway
                        {["adapter" := VString KindREST; "status_code" := VInt IntK (hp_Status res)]})
  | Ok body =>
    if (limit <? Z.of_nat (String.length body))%Z
    then Fail (transportError ("transport: response body exceeds limit of " +:+ Itoa limit +:+ " bytes") CategoryExternal StatusBadGateway
                 {["adapter" := VString KindREST; "status_code" := VInt IntK (hp_Status res); "response_limit_b" := VInt Int64K limit]})
    else Ok (mkTransportResponse (hp_Status res) (flattenHeaders (hp_Header res)) body {["duration_ms" := VInt Int64K ms; "kind" := VString KindREST]})
  end.

Variable elapsed_ms : list TransportRequest → TransportRequest → Z.

Definition REST_Do (a : RESTAdapter) (sent : list TransportRequest) (req : TransportRequest) : outcome GoError TransportResponse :=
  match rest_request (ra_DefaultHeaders a) req with
  | Fail err => Fail err
  | Ok (url, httpReq) =>
    match ra_Client a sent httpReq with
    | Fail err => Fail (transportWrapError (plainError err) CategoryExternal "transport: execute http request" StatusBadGateway
                          (about_request (hr_Method httpReq) url))
    | Ok res => rest_response (resolveResponseBodyLimit (tr_MaxResponseBodyBytes req) (ra_MaxResponseBodyBytes a)) (elapsed_ms sent req) res
    end
  end.
Definition rest_adapter (a : RESTAdapter) : TransportAdapter := mkAdapter KindREST (REST_Do a).

(** ** GraphQL (src/transport/graphql_adapter.go) *)

Variable json_Marshal : gmap string value → outcome string string.
Record GraphQLAdapter := mkGraphQL { ga_Endpoint : string; ga_REST : RESTAdapter }.
Definition NewGraphQLAdapter (endpoint : string) (client : list TransportRequest → HTTPDoer) : GraphQLAdapter := mkGraphQL (TrimSpace endpoint) (NewRESTAdapter client).

(** The text of an entry that is there and not nil. *)
Definition entry_text (metadata : gmap string value) (key : string) : string :=
  let text := TrimSpace (Sprint (mapGet metadata key)) in if String.eqb text "<nil>" then "" else text.
Definition readGraphQLQuery (req : TransportRequest) : string :=
  let query := entry_text (tr_Metadata req) "query" in if String.eqb query "" then TrimSpace (tr_Body req) else query.
Definition readGraphQLVariables (metadata : gmap string value) : option (gmap string value) := match metadata !! "variables" with Some (VMap m) => Some m | _ => None end.
Definition graphql_payload (req : TransportRequest) (query : string) : gmap string value :=
  let payload : gmap string value := {["query" := VString query]} in
  let name := entry_text (tr_Metadata req) "operation_name" in
  let payload := if String.eqb name "" then payload else <["operationName" := VString name]> payload in
  match readGraphQLVariables (tr_Metadata req) with Some m => <["variables" := VMap m]> payload | None => payload end.

Definition GraphQL_Do (a : GraphQLAdapter) (sent : list TransportRequest) (req : TransportRequest) : outcome GoError TransportResponse :=
  let endpoint := if blank (tr_URL req) then ga_Endpoint a else TrimSpace (tr_URL req) in
  let about : gmap string value := {["adapter" := VString KindGraphQL; "endpoint" := VString endpoint]} in
  if String.eqb endpoint "" then Fail (transportError "transport: graphql endpoint is required" CategoryBadInput StatusBadRequest {["adapter" := VString KindGraphQL]})
  else
    let query := readGraphQLQuery req in
    if String.eqb query "" then Fail (transportError "transport: graphql query is required" CategoryBadInput StatusBadRequest about)
    else match json_Marshal (graphql_payload req query) with
    | Fail err => Fail (transportWrapError (plainError err) CategoryBadInput "transport: marshal graphql payload" StatusBadRequest about)
    | Ok body =>
      match REST_Do (ga_REST a) sent (mkTransportRequest "POST" endpoint (tr_Headers req ∪ {["Content-Type" := "application/json"]}) ∅ body (tr_Metadata req) (tr_Timeout req)
              (tr_MaxResponseBodyBytes req) "") with
      | Fail err => Fail (transportWrapError err CategoryExternal "transport: graphql request failed" StatusBadGateway about)
      | Ok r => Ok (mkTransportResponse (tp_StatusCode r) (tp_Headers r) (tp_Body r) (<["kind" := VString KindGraphQL]> (tp_Metadata r)))
      end
    end.
Definition graphql_adapter (a : GraphQLAdapter) : TransportAdapter := mkAdapter KindGraphQL (GraphQL_Do a).

(** ** The protocols over HTTP (src/transport/protocol_adapters.go) *)

Record ProtocolHTTPAdapter := mkProtocol { pr_kind : string; pr_defaultMethod : string; pr_defaultHeader : gmap string string; pr_rest : RESTAdapter }.
Definition add_header (h : gmap string string) (kv : string * string) : gmap string string := if blank kv.1 then h else <[TrimSpace kv.1 := TrimSpace kv.2]> h.
Definition cloneHeaders (input : gmap string string) : gmap string string := foldl add_header ∅ (map_range input).
Definition newProtocolHTTPAdapter (kind : string) (client : list TransportRequest → HTTPDoer) (defaultMethod : string) (defaultHeaders : gmap string string) : ProtocolHTTPAdapter :=
  mkProtocol (TrimSpace (ToLower kind)) (TrimSpace (ToUpper defaultMethod)) (cloneHeaders defaultHeaders) (NewRESTAdapter client).
Definition NewSOAPAdapter (client : list TransportRequest → HTTPDoer) : ProtocolHTTPAdapter :=
  newProtocolHTTPAdapter KindSOAP client "POST" {["Content-Type" := "text/xml; charset=utf-8"]}.
Definition NewBulkAdapter (client : list TransportRequest → HTTPDoer) : ProtocolHTTPAdapter :=
  newProtocolHTTPAdapter KindBulk client "POST" {["Content-Type" := "application/json"; "Accept" := "application/json"]}.
Definition NewStreamAdapter (client : list TransportRequest → HTTPDoer) : ProtocolHTTPAdapter := newProtocolHTTPAdapter KindStream client "GET" {["Accept" := "text/event-stream"]}.
Definition NewFileAdapter (client : list TransportRequest → HTTPDoer) : ProtocolHTTPAdapter :=
  newProtocolHTTPAdapter KindFile client "POST" {["Content-Type" := "application/octet-stream"]}.

Definition protocol_request (a : ProtocolHTTPAdapter) (req : TransportRequest) : TransportRequest :=
  mkTransportRequest (if blank (tr_Method req) then pr_defaultMethod a else tr_Method req) (tr_URL req) (foldl add_header (cloneHeaders (pr_defaultHeader a)) (map_range (tr_Headers req)))
    (tr_Query req) (tr_Body req) (tr_Metadata req) (tr_Timeout req) (tr_MaxResponseBodyBytes req) (tr_Idempotency req).
Definition Protocol_Do (a : ProtocolHTTPAdapter) (sent : list TransportRequest) (req : TransportRequest) : outcome GoError TransportResponse :=
  match REST_Do (pr_rest a) sent (protocol_request a req) with
  | Fail err => Fail err
  | Ok r => Ok (mkTransportResponse (tp_StatusCode r) (tp_Headers r) (tp_Body r) (<["protocol_adapter" := VString (pr_kind a)]> (<["kind" := VString (pr_kind a)]> (tp_Metadata r))))
  end.
Definition protocol_adapter (a : ProtocolHTTPAdapter) : TransportAdapter := mkAdapter (pr_kind a) (Protocol_Do a).

(** ** Adapters that are not there (src/transport/noop_adapter.go) *)

Definition StatusNotImplemented : Z := 501.
Definition NewUnsupportedAdapter (rawKind rawReason : string) : TransportAdapter :=
  let kind := TrimSpace (ToLower rawKind) in
  let reason := TrimSpace rawReason in
  mkAdapter kind (λ _ _, Fail
    (if String.eqb reason "" then transportError ("transport: " +:+ kind +:+ " adapter is not configured") CategoryOperation StatusNotImplemented {["adapter" := VString kind]}
     else transportError ("transport: " +:+ kind +:+ " adapter is not configured: " +:+ reason) CategoryOperation StatusNotImplemented
            {["adapter" := VString kind; "reason" := VString reason]})).

(** ** The registry (src/transport/registry.go) *)

Abbreviation AdapterFactory := (gmap string value → outcome GoError (option TransportAdapter)).
Record Registry := mkRegistry { rg_adapters : gmap string TransportAdapter; rg_factories : gmap string AdapterFactory }.
Definition NewRegistry : Registry := mkRegistry ∅ ∅.

Definition registry_error (message : string) (category : Category) (code : Z) (kind : string) : GoError :=
  transportError message category code (if String.eqb kind "" then {["component" := VString "registry"]} else {["component" := VString "registry"; "adapter" := VString kind]}).
Definition ErrKindRequired : GoError := registry_error "transport: adapter kind is required" CategoryBadInput StatusBadRequest "".

Definition Registry_Register (r : Registry) (adapter : option TransportAdapter) : outcome GoError unit * Registry :=
  match adapter with
  | None => (Fail (registry_error "transport: adapter is nil" CategoryBadInput StatusBadRequest ""), r)
  | Some a =>
    let kind := normalizeKind (ta_Kind a) in
    if String.eqb kind "" then (Fail ErrKindRequired, r)
    else match rg_adapters r !! kind with
    | Some _ => (Fail (registry_error ("transport: adapter kind " +:+ quote kind +:+ " already registered") CategoryConflict StatusConflict kind), r)
    | None => (Ok tt, mkRegistry (<[kind := a]> (rg_adapters r)) (rg_factories r))
    end
  end.

Definition RegisterFactory (r : Registry) (rawKind : string) (factory : option AdapterFactory) : outcome GoError unit * Registry :=
  let kind := normalizeKind rawKind in
  if String.eqb kind "" then (Fail ErrKindRequired, r)
  else match factory with
  | None => (Fail (registry_error "transport: adapter factory is nil" CategoryBadInput StatusBadRequest kind), r)
  | Some f =>
    match rg_factories r !! kind with
    | Some _ => (Fail (registry_error ("transport: adapter factory kind " +:+ quote kind +:+ " already registered") CategoryConflict StatusConflict kind), r)
    | None => (Ok tt, mkRegistry (rg_adapters r) (<[kind := f]> (rg_factories r)))
    end
  end.

Definition Registry_Build (r : Registry) (rawKind : string) (config : gmap string value) : outcome GoError TransportAdapter :=
  let kind := normalizeKind rawKind in
  if String.eqb kind "" then Fail ErrKindRequired
  else match rg_adapters r !! kind with
  | Some a => Ok a
  | None =>
    match rg_factories r !! kind with
    | None => Fail (registry_error ("transport: adapter kind " +:+ quote kind +:+ " not registered") CategoryNotFound StatusNotFound kind)
    | Some f =>
      match f config with
      | Fail err => Fail (transportWrapError err CategoryOperation ("transport: build adapter " +:+ quote kind) StatusInternalServerError
                            {["component" := VString "registry"; "adapter" := VString kind]})
      | Ok None => Fail (registry_error ("transport: factory for " +:+ quote kind +:+ " returned nil adapter") CategoryOperation StatusInternalServerError kind)
      | Ok (Some a) => Ok a
      end
    end
  end.

Definition Registry_Get (r : Registry) (rawKind : string) : option TransportAdapter := rg_adapters r !! normalizeKind rawKind.
Definition Registry_List (r : Registry) : list TransportAdapter := omap (λ kind, rg_adapters r !! kind) (sortStrings (map_range (rg_adapters r)).*1).

Definition defaultNoopFactory (kind : string) : AdapterFactory := λ config, Ok (Some (NewUnsupportedAdapter kind (TrimSpace (Sprint (mapGet config "reason"))))).
Definition defaultProtocolFactory (client : list TransportRequest → HTTPDoer) (kind : string) : AdapterFactory := λ config,
  let k := normalizeKind kind in
  if String.eqb k KindSOAP then Ok (Some (protocol_adapter (NewSOAPAdapter client)))
  else if String.eqb k KindBulk then Ok (Some (protocol_adapter (NewBulkAdapter client)))
  else if String.eqb k KindStream then Ok (Some (protocol_adapter (NewStreamAdapter client)))
  else if String.eqb k KindFile then Ok (Some (protocol_adapter (NewFileAdapter client)))
  else defaultNoopFactory kind config.
Definition NewDefaultRegistry (client : list TransportRequest → HTTPDoer) : Registry :=
  let r := (Registry_Register NewRegistry (Some (rest_adapter (NewRESTAdapter client)))).2 in
  let r := (Registry_Register r (Some (graphql_adapter (NewGraphQLAdapter "" client)))).2 in
  foldl (λ r kind, (RegisterFactory r kind (Some (defaultProtocolFactory client kind))).2) r [KindSOAP; KindBulk; KindStream; KindFile].
End rest.
End errors.

(** ** What is sent *)

Section facts.
Context {GE : GoErrors} {MR : MapRange}.
Variable rich_text : RichError → string.
Variable url_Parse : string → outcome string URL.
Variable url_String : URL → string.
Variable quote : string → string.
Abbreviation request_of := (rest_request rich_text url_Parse url_String quote).

(** Values with one value for each key, neither of them padded. *)
Definition plain_values (q : gmap string (list string)) : Prop := map_Forall (λ k vs, blank k = false ∧ TrimSpace k = k ∧ ∃ v, vs = [v] ∧ TrimSpace v = v) q.

(** Setting the entries of a map one by one, when each is written where it is read. *)
Lemma set_again (f : string → string) (q : gmap string (list string)) (l : list (string * string)) (m : gmap string (list string)) :
  (∀ k v, (k, v) ∈ l → blank k = false ∧ TrimSpace v = v ∧ f (TrimSpace k) = k ∧ q !! k = Some [v]) →
  (∀ k, k ∉ l.*1 → m !! k = q !! k) → NoDup l.*1 →
  foldl (λ m kv, if blank kv.1 then m else <[f (TrimSpace kv.1) := [TrimSpace kv.2]]> m) m l = q.
Proof.
  revert m. induction l as [|[k v] l IH]; intros m Hl Hm Hnd; simpl in *; [apply map_eq; intros i; apply Hm, not_elem_of_nil|].
  destruct (Hl k v) as (Hb & Hv & Hk & Hq); [by left|]. rewrite Hb, Hv, Hk. apply NoDup_cons in Hnd as [Hnin Hnd].
  apply IH; [intros k' v' Hin; apply Hl; by right| |done]. intros i Hi. destruct (decide (i = k)) as [->|Hne]; [by rewrite lookup_insert_eq|].
  rewrite lookup_insert_ne by done. apply Hm. by rewrite not_elem_of_cons.
Qed.

Lemma plain_last (q : gmap string (list string)) k v : plain_values q → (k, v) ∈ map_range (omap last q) → blank k = false ∧ TrimSpace k = k ∧ TrimSpace v = v ∧ q !! k = Some [v].
Proof.
  intros Hq Hin. apply elem_of_map_range in Hin. apply lookup_omap_Some in Hin as (vs & Hl & Hvs). destruct (Hq k vs Hvs) as (Hb & Ht & w & -> & Hw).
  injection Hl as ->. done.
Qed.
Lemma plain_dom (q : gmap string (list string)) k : plain_values q → k ∉ (map_range (omap last q)).*1 → q !! k = None.
Proof.
  intros Hq Hk. destruct (q !! k) as [vs|] eqn:E; [|done]. destruct (Hq k vs E) as (_ & _ & v & -> & _). destruct Hk.
  apply list_elem_of_fmap. exists (k, v). split; [done|]. apply elem_of_map_range. apply lookup_omap_Some. exists [v]. done.
Qed.

Lemma set_query_same q : plain_values q → set_query q (omap last q) = q.
Proof.
  intros Hq. unfold set_query. apply (set_again (λ k, k) q); [|done|apply NoDup_map_range].
  intros k v Hin. destruct (plain_last q k v Hq Hin) as (? & ? & ? & ?). done.
Qed.
Lemma set_headers_same h : plain_values h → map_Forall (λ k _, CanonicalHeaderKey k = k) h → set_headers ∅ (omap last h) = h.
Proof.
  intros Hh Hc. unfold set_headers. apply (set_again CanonicalHeaderKey h); [| |apply NoDup_map_range].
  - intros k v Hin. destruct (plain_last h k v Hh Hin) as (? & Ht & ? & Hk). rewrite Ht. split_and!; [done..| |done]. by apply (Hc k [v]).
  - intros k Hk. by rewrite lookup_empty, (plain_dom h k).
Qed.


(** ** What comes back *)

Lemma substring_length (n : nat) (s : string) : (n ≤ String.length s)%nat → String.length (String.substring 0 n s) = n.
Proof. revert s. induction n as [|n IH]; intros [|c s] Hn; simpl in *; try lia; try done. by rewrite IH by lia. Qed.

(** A body is given whole or not at all.  Within a limit that is not the largest number, an answer is given exactly if its body is no longer than the limit and could be read, with
    the status, the body and the headers as they came; a longer one is an error, however it ends. *)
Theorem rest_body_bounded limit ms res :
  (0 < limit < int64_max)%Z →
  let fits := (Z.of_nat (String.length (hp_Body res)) ≤ limit)%Z in
  (fits → hp_ReadError res = None → rest_response rich_text limit ms res =
     Ok (mkTransportResponse (hp_Status res) (flattenHeaders (hp_Header res)) (hp_Body res) {["duration_ms" := VInt Int64K ms; "kind" := VString KindREST]})) ∧
  (¬ fits ∨ is_Some (hp_ReadError res) → ∃ err, rest_response rich_text limit ms res = Fail err).
Proof.
  intros Hl fits. unfold rest_response. rewrite wrap64_id by (unfold in_int64, int64_min, int64_max in *; lia). unfold read_limited.
  assert ((limit + 1 <=? 0)%Z = false) as -> by lia. unfold fits. split.
  - intros Hf Hr. assert ((limit + 1 <=? Z.of_nat (String.length (hp_Body res)))%Z = false) as -> by lia. rewrite Hr.
    assert ((limit <? Z.of_nat (String.length (hp_Body res)))%Z = false) as -> by lia. done.
  - intros Hor. destruct (Z.leb_spec (limit + 1) (Z.of_nat (String.length (hp_Body res)))).
    + rewrite substring_length, Z2Nat.id by lia. assert ((limit <? limit + 1)%Z = true) as -> by lia. eauto.
    + destruct Hor as [Hor|[e He]]; [lia|]. rewrite He. eauto.
Qed.

(** ** Errors *)

Lemma transport_codes err category code metadata source message :
  (err = transportError rich_text message category code metadata ∨ err = transportWrapError rich_text source category message code metadata) →
  ∃ e, err_Rich err = Some e ∧ re_Category e = category ∧ re_Code e = code ∧ re_TextCode e = transportTextCode category.
Proof.
  intros [->| ->]; unfold transportError, transportWrapError; cbv zeta; cbn [err_Rich rich_value]; eexists; (split; [reflexivity|]); destruct (bool_decide _); cbn;
    by rewrite ?New_Category, ?Wrap_Category.
Qed.

Variable elapsed_ms : list TransportRequest → TransportRequest → Z.
Abbreviation rest_do := (REST_Do rich_text url_Parse url_String quote elapsed_ms).

(** An error of the REST adapter says whose it is: an input that could not be made a request, which was not sent, or an answer that failed to come or to fit, as a bad gateway. *)
Theorem rest_errors_classified a sent req err :
  rest_do a sent req = Fail err →
  ∃ e, err_Rich err = Some e ∧
    ((re_Category e = CategoryBadInput ∧ re_Code e = 400%Z ∧ re_TextCode e = ServiceErrorBadInput ∧ ∃ err', request_of (ra_DefaultHeaders a) req = Fail err') ∨
     (re_Category e = CategoryExternal ∧ re_Code e = 502%Z ∧ re_TextCode e = ServiceErrorExternalFailure ∧ ∃ r, request_of (ra_DefaultHeaders a) req = Ok r)).
Proof.
  unfold REST_Do. destruct (request_of _ _) as [[url h]|err'] eqn:Hreq.
  - intros H. assert (Hx : ∃ source message metadata, err = transportError rich_text message CategoryExternal StatusBadGateway metadata ∨
        err = transportWrapError rich_text source CategoryExternal message StatusBadGateway metadata).
    { destruct (ra_Client a sent h) as [res|e]; [|injection H as <-; eauto]. unfold rest_response in H. destruct (read_limited _ _); [|injection H as <-; eauto].
      destruct (_ <? _)%Z; [injection H as <-; exists (plainError ""); eauto|done]. }
    destruct Hx as (source & message & metadata & Hx). destruct (transport_codes _ _ _ _ _ _ Hx) as (e & He & Hc & Hcode & Ht). exists e. split; [done|]. right. eauto.
  - intros [= <-]. assert (Hx : ∃ source message metadata, err' = transportError rich_text message CategoryBadInput StatusBadRequest metadata ∨
        err' = transportWrapError rich_text source CategoryBadInput message StatusBadRequest metadata).
    { unfold rest_request in Hreq. destruct (url_Parse (TrimSpace _)) as [u|e]; [|injection Hreq as <-; eauto].
      destruct (String.eqb _ ""); [injection Hreq as <-; exists (plainError ""); eauto|]. destruct (negb _); [injection Hreq as <-; eauto|].
      destruct (url_Parse _); [done|injection Hreq as <-; eauto]. }
    destruct Hx as (source & message & metadata & Hx). destruct (transport_codes _ _ _ _ _ _ Hx) as (e & He & Hc & Hcode & Ht). exists e. split; [done|]. left. eauto.
Qed.

(** ** The registry *)

Variable json_Marshal : gmap string value → outcome string string.
Variable client : list TransportRequest → HTTPDoer.
Abbreviation build := (Registry_Build rich_text quote).
Abbreviation default_registry := (NewDefaultRegistry rich_text url_Parse url_String quote elapsed_ms json_Marshal client).

(** What happens to a registry. *)
Inductive registry_op := OpRegister (adapter : option TransportAdapter) | OpFactory (kind : string) (factory : option (gmap string value → outcome GoError (option TransportAdapter))).
Definition registry_step (r : Registry) (op : registry_op) : Registry :=
  match op with
  | OpRegister a => (Registry_Register rich_text quote r a).2
  | OpFactory kind f => (RegisterFactory rich_text quote r kind f).2
  end.

Lemma registry_step_keeps r op kind a : rg_adapters r !! kind = Some a → rg_adapters (registry_step r op) !! kind = Some a.
Proof.
  intros Hk. destruct op as [[b|]|k [f|]]; simpl; try done; unfold RegisterFactory; cbv zeta; destruct (String.eqb _ _); simpl; try done.
  - destruct (rg_adapters r !! normalizeKind (ta_Kind b)) eqn:E; simpl; [done|]. rewrite lookup_insert_ne; [done|]. intros He. rewrite He in E. congruence.
  - by destruct (rg_factories r !! normalizeKind k).
Qed.

(** The first adapter of a kind stays: once an adapter was registered, every later request for its kind, however it is spelled, is given this one, whatever is registered after it,
    and a second one is refused. *)
Theorem registered_adapter_stays r a r1 ops rawKind config :
  Registry_Register rich_text quote r (Some a) = (Ok tt, r1) → normalizeKind rawKind = normalizeKind (ta_Kind a) →
  let r2 := foldl registry_step r1 ops in
  build r2 rawKind config = Ok a ∧ Registry_Get r2 rawKind = Some a ∧ ∀ b, ta_Kind b = ta_Kind a → ∃ err, Registry_Register rich_text quote r2 (Some b) = (Fail err, r2).
Proof.
  intros Hreg Hkind r2. unfold Registry_Register in Hreg. cbv zeta in Hreg. destruct (String.eqb_spec (normalizeKind (ta_Kind a)) "") as [|Hne]; [done|].
  destruct (rg_adapters r !! _) eqn:E; [done|]. injection Hreg as <-.
  assert (Hin : rg_adapters r2 !! normalizeKind (ta_Kind a) = Some a).
  { unfold r2. assert (H1 : rg_adapters (mkRegistry (<[normalizeKind (ta_Kind a) := a]> (rg_adapters r)) (rg_factories r)) !! normalizeKind (ta_Kind a) = Some a) by apply lookup_insert_eq.
    revert H1. generalize (mkRegistry (<[normalizeKind (ta_Kind a) := a]> (rg_adapters r)) (rg_factories r)). induction ops as [|op ops IH]; intros r1 Hr1; simpl; [done|].
    by apply IH, registry_step_keeps. }
  unfold Registry_Build, Registry_Get. cbv zeta. rewrite Hkind, Hin. apply String.eqb_neq in Hne as Hne'. rewrite Hne'. split_and!; [done..|].
  intros b Hb. unfold Registry_Register. cbv zeta. rewrite Hb, Hne', Hin. eauto.
Qed.

(** Two adapters and four factories, registered under names of their own, are found under these. *)
Lemma registered_six do1 do2 (f : string → gmap string value → outcome GoError (option TransportAdapter)) config kind :
  let r := (Registry_Register rich_text quote (NewRegistry) (Some (mkAdapter KindREST do1))).2 in
  let r := (Registry_Register rich_text quote r (Some (mkAdapter KindGraphQL do2))).2 in
  let r := foldl (λ r kind, (RegisterFactory rich_text quote r kind (Some (f kind))).2) r [KindSOAP; KindBulk; KindStream; KindFile] in
  (kind = KindREST → build r kind config = Ok (mkAdapter KindREST do1)) ∧ (kind = KindGraphQL → build r kind config = Ok (mkAdapter KindGraphQL do2)) ∧
  (kind ∈ [KindSOAP; KindBulk; KindStream; KindFile] → ∀ a, f kind config = Ok (Some a) → build r kind config = Ok a).
Proof.
  intros r0 r1 r2. split_and!; [intros ->; vm_compute; reflexivity|intros ->; vm_compute; reflexivity|].
  assert (Hb : ∀ k, rg_adapters r2 !! normalizeKind k = None → rg_factories r2 !! normalizeKind k = Some (f k) → String.eqb (normalizeKind k) "" = false → ∀ a, f k config = Ok (Some a) → build r2 k config = Ok a).
  { intros k H1 H2 H3 a Ha. unfold Registry_Build. cbv zeta. by rewrite H1, H2, H3, Ha. }
  rewrite !elem_of_cons. intros [->|[->|[->|[->|[]%elem_of_nil]]]]; apply Hb; vm_compute; reflexivity.
Qed.

(** The default registry makes an adapter for each of the six kinds, whatever the configuration, and it is one of that kind. *)
Theorem default_registry_complete config kind :
  kind ∈ [KindREST; KindGraphQL; KindSOAP; KindBulk; KindStream; KindFile] → ∃ a, build default_registry kind config = Ok a ∧ ta_Kind a = kind.
Proof.
  destruct (registered_six (REST_Do rich_text url_Parse url_String quote elapsed_ms (NewRESTAdapter client))
    (GraphQL_Do rich_text url_Parse url_String quote elapsed_ms json_Marshal (NewGraphQLAdapter "" client))
    (defaultProtocolFactory rich_text url_Parse url_String quote elapsed_ms client) config kind) as (H1 & H2 & H3).
  rewrite !elem_of_cons. intros [->|[->|Hp]]; [eexists; split; [by apply H1|done]|eexists; split; [by apply H2|done]|].
  assert (Hf : ∃ a, defaultProtocolFactory rich_text url_Parse url_String quote elapsed_ms client kind config = Ok (Some a) ∧ ta_Kind a = kind)
    by (destruct Hp as [->|[->|[->|[->|[]%elem_of_nil]]]]; eexists; (split; [reflexivity|reflexivity])).
  destruct Hf as (a & Ha & Hk). exists a. split; [|done]. apply H3; [|done]. by rewrite !elem_of_cons.
Qed.
End facts.

(** ** Evaluations *)

Module TransportExample.
#[local] Existing Instance demo_errors.
Definition reverse_order : MapRange := {| map_range := λ A m, reverse (map_to_list m); map_range_perm := λ A m, reverse_Permutation (map_to_list m) |}.
Definition text (e : RichError) : string := re_Message e.
Definition print (u : URL) : string := u_Path u +:+ "?" +:+ u_RawQuery u.
Definition parse (s : string) : outcome string URL := match CutChar "?" s with Some (p, q) => Ok (mkURL "" p q "") | None => Ok (mkURL "" s "" "") end.
Definition original : TransportRequest := mkTransportRequest "GET" "/orders" ∅ ∅ "" ∅ 0 0 "".
Definition signed (query : string) : HttpRequest := mkHttpRequest "GET" (mkURL "" "/orders" query "") {["Authorization" := ["AWS4 s"]]} (Some "").
Definition sent_query (MR : MapRange) (query : string) : option string :=
  match rest_request (GE := demo_errors) text parse print (λ s, s) ∅ (httpToTransportRequest print (signed query) original) with
  | Ok (_, r) => Some (u_RawQuery (hr_URL r)) | Fail _ => None end.


Lemma rest_body_bounded_witness :
  let answer := mkHttpResponse 200 ∅ "payload" None in
  (∃ r, rest_response (GE := demo_errors) text 7 3 answer = Ok r ∧ tp_Body r = "payload") ∧ ∃ err, rest_response (GE := demo_errors) text 6 3 answer = Fail err.
Proof.
  intros answer. split.
  - destruct (rest_body_bounded (GE := demo_errors) text 7 3 answer) as [Hfit _]; [vm_compute; split; reflexivity|]. eexists. split; [apply Hfit; [vm_compute; discriminate|reflexivity]|reflexivity].
  - destruct (rest_body_bounded (GE := demo_errors) text 6 3 answer) as [_ Hlong]; [vm_compute; split; reflexivity|]. apply Hlong. left. vm_compute. intros H. apply H. reflexivity.
Defined.

(** Only the last value of a repeated query parameter is sent, although every value was signed. *)
Example repeated_query_lost : sent_query key_order_range "id=1&id=2" = Some "id=2" ∧ ParseQuery "id=1&id=2" !! "id" = Some ["1"; "2"].
Proof. split; vm_compute; reflexivity. Qed.

(** A header of the request that is spelled otherwise than a default one is added to it, and which of the two is sent depends on the order in which a map is visited. *)
Definition sent_type (MR : MapRange) : option (list string) :=
  let a := newProtocolHTTPAdapter KindSOAP (λ _ _, Fail "") "POST" {["Content-Type" := "text/xml"]} in
  match rest_request (GE := demo_errors) text parse print (λ s, s) ∅ (protocol_request a (mkTransportRequest "" "/hr" {["content-type" := "application/soap+xml"]} ∅ "" ∅ 0 0 "")) with
  | Ok (_, r) => hr_Header r !! "Content-Type" | Fail _ => None end.
Example default_header_race : sent_type key_order_range ≠ sent_type reverse_order.
Proof. vm_compute. discriminate. Qed.

(** A limit of the largest number loses the body: one more is negative, and nothing is read. *)
Example largest_limit_loses_body :
  match rest_response (GE := demo_errors) text int64_max 3 (mkHttpResponse 200 ∅ "payload" None) with Ok r => tp_Body r | Fail _ => "failed" end = "".
Proof. vm_compute. reflexivity. Qed.

(** An adapter that is not there is reported as not found, with the text code of an internal error. *)
Example missing_adapter_code :
  match Registry_Build (GE := demo_errors) text (λ s, s) NewRegistry "ftp" ∅ with
  | Fail err => (λ e, (re_Category e, re_Code e, re_TextCode e)) <$> err_Rich err | Ok _ => None end = Some (CategoryNotFound, 404%Z, ServiceErrorInternal).
Proof. vm_compute. reflexivity. Qed.
End TransportExample.
