(* ===== verification/Jobs.v ===== *)
(** * Job queue adapters (src/adapters/gojob/adapter.go)

    The messages, negative acknowledgements and dispatch states the service exchanges with the job queue of github.com/goliatone/go-job.  The queue is an
    interface: what it does with a message is its own affair, and an enqueuer may or may not schedule and may or may not report states. *)

From S2P Require Import Prelude GoStrings GoValues.
From Stdlib Require Import ZArith String Lia.
From stdpp Require Import base decidable list gmap strings.

Local Open Scope string_scope.
Local Open Scope list_scope.

(** ** Contracts (src/core/contracts.go) *)

Definition JobIDRefresh := "services.refresh".
Definition JobIDSyncIncremental := "services.sync.incremental".
Definition JobIDSubscriptionRenew := "services.subscription.renew".
Definition JobIDOutboxDispatch := "services.outbox.dispatch".

Definition JobNackDispositionRetry := "retry".
Definition JobNackDispositionDeadLetter := "dead_letter".
Definition JobNackDispositionFailed := "failed".
Definition JobNackDispositionCanceled := "canceled".

Definition JobDispatchStateAccepted := "accepted".
Definition JobDispatchStateRunning := "running".
Definition JobDispatchStateRetrying := "retrying".
Definition JobDispatchStateCanceled := "canceled".
Definition JobDispatchStateFailed := "failed".
Definition JobDispatchStateDeadLetter := "dead_letter".
Definition JobDispatchStateSucceeded := "succeeded".

Record JobExecutionMessage := mkJobMessage {
  jm_JobID : string; jm_ScriptPath : string; jm_Parameters : gmap string value; jm_IdempotencyKey : string; jm_DedupPolicy : string }.
Record JobNackOptions := mkNack { nk_Disposition : string; nk_Delay : Duration; nk_Reason : string }.
Record JobEnqueueReceipt := mkReceipt { jr_DispatchID : string; jr_EnqueuedAt : Time }.
Record JobDispatchStatus := mkDispatchStatus {
  ds_DispatchID : string; ds_State : string; ds_Attempt : Z; ds_EnqueuedAt : option Time; ds_UpdatedAt : option Time; ds_NextRunAt : option Time; ds_TerminalReason : string }.
Record JobWorkerEvent := mkWorkerEvent {
  we_Message : option JobExecutionMessage; we_Attempt : Z; we_Delay : Duration; we_Err : option string; we_StartedAt : Time; we_Duration : Duration }.

(** The structs of the queue have the same fields.  A queue of state [Q] with deliveries [D]; the methods an enqueuer need not have are options. *)
Class JobQueue (E Q D : Type) := {
  jq_Retry : string; (* queue.NackDispositionRetry *)
  jq_Enqueue : Q → JobExecutionMessage → outcome E JobEnqueueReceipt * Q;
  jq_Scheduled : option ((Q → JobExecutionMessage → Time → outcome E JobEnqueueReceipt * Q) * (Q → JobExecutionMessage → Duration → outcome E JobEnqueueReceipt * Q));
  jq_GetDispatchStatus : option (Q → string → outcome E JobDispatchStatus);
  jq_Dequeue : Q → outcome E D * Q;
  jq_Message : D → option JobExecutionMessage;
  jq_Ack : Q → D → outcome E unit * Q;
  jq_Nack : Q → D → JobNackOptions → outcome E unit * Q }.

Inductive job_error (E : Type) := JobFrom (e : E) | ErrMessageRequired | ErrScheduledEnqueueUnsupported | ErrDispatchStatusUnsupported.
Arguments JobFrom {E}. Arguments ErrMessageRequired {E}. Arguments ErrScheduledEnqueueUnsupported {E}. Arguments ErrDispatchStatusUnsupported {E}.

(** ** The adapters *)

Record RetryPolicy := mkRetryPolicy { rt_MaxAttempts : Z; rt_MaxDelay : Duration; rt_DeadLetterOnMax : bool }.

Definition NormalizeAttempt (p : RetryPolicy) (opts : JobNackOptions) (attempt : Z) : JobNackOptions :=
  let disposition := if String.eqb (nk_Disposition opts) "" then JobNackDispositionRetry else nk_Disposition opts in
  let delay := if (nk_Delay opts <? 0)%Z then 0%Z else nk_Delay opts in
  let delay := if (0 <? rt_MaxDelay p)%Z && (rt_MaxDelay p <? delay)%Z then rt_MaxDelay p else delay in
  let disposition := if (0 <? rt_MaxAttempts p)%Z && (rt_MaxAttempts p <=? attempt)%Z && String.eqb disposition JobNackDispositionRetry
                     then if rt_DeadLetterOnMax p then JobNackDispositionDeadLetter else JobNackDispositionFailed else disposition in
  mkNack disposition delay (TrimSpace (nk_Reason opts)).

(** [ToExecutionMessage] and [FromExecutionMessage] do the same to equal structs. *)
Definition ToExecutionMessage (msg : JobExecutionMessage) : JobExecutionMessage :=
  mkJobMessage (TrimSpace (jm_JobID msg)) (TrimSpace (jm_ScriptPath msg)) (copyAnyMap (jm_Parameters msg)) (TrimSpace (jm_IdempotencyKey msg)) (TrimSpace (jm_DedupPolicy msg)).
Definition FromExecutionMessage (msg : JobExecutionMessage) : JobExecutionMessage :=
  mkJobMessage (TrimSpace (jm_JobID msg)) (TrimSpace (jm_ScriptPath msg)) (copyAnyMap (jm_Parameters msg)) (TrimSpace (jm_IdempotencyKey msg)) (TrimSpace (jm_DedupPolicy msg)).

Definition FromNackOptions (opts : JobNackOptions) : JobNackOptions := mkNack (TrimSpace (nk_Disposition opts)) (nk_Delay opts) (nk_Reason opts).

(** Times carry no zone in the model. *)
Definition toEnqueueReceipt (r : JobEnqueueReceipt) : JobEnqueueReceipt := mkReceipt (TrimSpace (jr_DispatchID r)) (jr_EnqueuedAt r).
Definition FromDispatchStatus (s : JobDispatchStatus) : JobDispatchStatus :=
  mkDispatchStatus (TrimSpace (ds_DispatchID s)) (TrimSpace (ds_State s)) (ds_Attempt s) (ds_EnqueuedAt s) (ds_UpdatedAt s) (ds_NextRunAt s) (TrimSpace (ds_TerminalReason s)).

Section adapters.
Context {E Q D : Type} {JQ : JobQueue E Q D}.
Abbreviation fails := (outcome (job_error E)).

Definition ToNackOptions (opts : JobNackOptions) : JobNackOptions :=
  let disposition := TrimSpace (nk_Disposition opts) in
  mkNack (if String.eqb disposition "" then jq_Retry else disposition) (nk_Delay opts) (nk_Reason opts).

Definition receipt_of (r : outcome E JobEnqueueReceipt * Q) : fails JobEnqueueReceipt * Q :=
  match r with (Fail e, q) => (Fail (JobFrom e), q) | (Ok receipt, q) => (Ok (toEnqueueReceipt receipt), q) end.
Definition Enqueue (q : Q) (msg : option JobExecutionMessage) : fails JobEnqueueReceipt * Q :=
  match msg with None => (Fail ErrMessageRequired, q) | Some msg => receipt_of (jq_Enqueue q (ToExecutionMessage msg)) end.
Definition EnqueueAt (q : Q) (msg : option JobExecutionMessage) (at_ : Time) : fails JobEnqueueReceipt * Q :=
  match msg with
  | None => (Fail ErrMessageRequired, q)
  | Some msg => match jq_Scheduled with
                | None => (Fail ErrScheduledEnqueueUnsupported, q)
                | Some (enqueueAt, _) => receipt_of (enqueueAt q (ToExecutionMessage msg) at_)
                end
  end.
Definition EnqueueAfter (q : Q) (msg : option JobExecutionMessage) (delay : Duration) : fails JobEnqueueReceipt * Q :=
  match msg with
  | None => (Fail ErrMessageRequired, q)
  | Some msg => match jq_Scheduled with
                | None => (Fail ErrScheduledEnqueueUnsupported, q)
                | Some (_, enqueueAfter) => receipt_of (enqueueAfter q (ToExecutionMessage msg) delay)
                end
  end.
Definition GetDispatchStatus (q : Q) (dispatchID : string) : fails JobDispatchStatus :=
  match jq_GetDispatchStatus with
  | None => Fail ErrDispatchStatusUnsupported
  | Some read => match read q (TrimSpace dispatchID) with Fail e => Fail (JobFrom e) | Ok s => Ok (FromDispatchStatus s) end
  end.

Record DeliveryAdapter := mkDeliveryAdapter { da_delivery : D; da_policy : RetryPolicy }.
Definition Dequeue (q : Q) (policy : RetryPolicy) : outcome E DeliveryAdapter * Q :=
  match jq_Dequeue q with (Fail e, q) => (Fail e, q) | (Ok d, q) => (Ok (mkDeliveryAdapter d policy), q) end.
Definition Delivery_Message (d : DeliveryAdapter) : option JobExecutionMessage := FromExecutionMessage <$> jq_Message (da_delivery d).
Definition Job_Ack (q : Q) (d : DeliveryAdapter) : outcome E unit * Q := jq_Ack q (da_delivery d).
Definition NackForAttempt (q : Q) (d : DeliveryAdapter) (opts : JobNackOptions) (attempt : Z) : outcome E unit * Q :=
  jq_Nack q (da_delivery d) (ToNackOptions (NormalizeAttempt (da_policy d) opts attempt)).
Definition Nack (q : Q) (d : DeliveryAdapter) (opts : JobNackOptions) : outcome E unit * Q := NackForAttempt q d opts 0.

(** An event of a worker: its message, or that of its delivery. *)
Definition mapWorkerEvent (message : option JobExecutionMessage) (delivery : option D) (attempt : Z) (delay : Duration) (err : option string) (startedAt : Time) (duration : Duration)
    : JobWorkerEvent :=
  let message := match message with Some m => Some m | None => delivery ≫= jq_Message end in
  mkWorkerEvent (FromExecutionMessage <$> message) attempt delay err startedAt duration.
End adapters.

(** ** Attempts and delays *)

Definition known_disposition (opts : JobNackOptions) : Prop :=
  nk_Disposition opts ∈ [""; JobNackDispositionRetry; JobNackDispositionDeadLetter; JobNackDispositionFailed; JobNackDispositionCanceled].

Section facts.
Context {E Q D : Type} {JQ : JobQueue E Q D}.

Lemma sent_delay p opts n :
  let sent := ToNackOptions (NormalizeAttempt p opts n) in
  (0 <= nk_Delay sent)%Z ∧ ((0 < rt_MaxDelay p)%Z → (nk_Delay sent <= rt_MaxDelay p)%Z) ∧
  ((0 <= nk_Delay opts)%Z → ((rt_MaxDelay p <= 0)%Z ∨ (nk_Delay opts <= rt_MaxDelay p)%Z) → nk_Delay sent = nk_Delay opts).
Proof.
  simpl. unfold NormalizeAttempt, ToNackOptions. cbn -[String.eqb TrimSpace Z.ltb Z.leb].
  destruct (Z.ltb_spec (nk_Delay opts) 0), (Z.ltb_spec 0 (rt_MaxDelay p)); cbn; repeat case_match; cbn in *; repeat split; intros; try lia;
    rewrite ?Z.ltb_lt, ?Z.ltb_ge in *; lia.
Qed.

Lemma sent_disposition p opts n (Hk : known_disposition opts) (Hq : jq_Retry = JobNackDispositionRetry) :
  let asked := if String.eqb (nk_Disposition opts) "" then JobNackDispositionRetry else nk_Disposition opts in
  nk_Disposition (ToNackOptions (NormalizeAttempt p opts n)) =
  if decide (asked = JobNackDispositionRetry ∧ (0 < rt_MaxAttempts p <= n)%Z)
  then if rt_DeadLetterOnMax p then JobNackDispositionDeadLetter else JobNackDispositionFailed else asked.
Proof.
  simpl. unfold ToNackOptions, NormalizeAttempt. rewrite Hq. cbn [nk_Disposition].
  assert (Hd : ((0 <? rt_MaxAttempts p)%Z && (rt_MaxAttempts p <=? n)%Z) = bool_decide (0 < rt_MaxAttempts p <= n)%Z).
  { case_bool_decide; [apply andb_true_iff|apply andb_false_iff]; rewrite ?Z.ltb_lt, ?Z.leb_le, ?Z.ltb_ge, ?Z.leb_gt; lia. }
  rewrite Hd. unfold known_disposition in Hk.
  repeat (apply elem_of_cons in Hk; destruct Hk as [->|Hk]); [..|by apply not_elem_of_nil in Hk];
    case_bool_decide; destruct (rt_DeadLetterOnMax p); cbn; repeat case_decide; try reflexivity; naive_solver.
Qed.

(** The number of times the queue hands a job out: at attempt [n] the worker may ask for another attempt, and the queue may grant it. *)
Variable redelivers : Q → D → Q → D → Prop.
Inductive job_life (policy : RetryPolicy) : Q → D → Z → nat → Prop :=
| life_last q d n : job_life policy q d n 1
| life_again q d opts n q1 q2 d2 k :
    known_disposition opts → NackForAttempt q (mkDeliveryAdapter d policy) opts n = (Ok tt, q1) → redelivers q1 d q2 d2 →
    job_life policy q2 d2 (n + 1) k → job_life policy q d n (S k).


(** Each wait is at least zero and at most [MaxDelay], and the one that was asked for if it is in between. *)
Theorem job_delays_bounded (q : Q) (d : DeliveryAdapter) (opts : JobNackOptions) (n : Z) :
  ∃ sent, NackForAttempt q d opts n = jq_Nack q (da_delivery d) sent ∧ (0 <= nk_Delay sent)%Z ∧
    ((0 < rt_MaxDelay (da_policy d))%Z → (nk_Delay sent <= rt_MaxDelay (da_policy d))%Z) ∧
    ((0 <= nk_Delay opts)%Z → ((rt_MaxDelay (da_policy d) <= 0)%Z ∨ (nk_Delay opts <= rt_MaxDelay (da_policy d))%Z) → nk_Delay sent = nk_Delay opts).
Proof. eexists. split; [reflexivity|]. apply sent_delay. Qed.

(** A job that is enqueued and handed out reaches the worker as it was enqueued, less the blanks around its texts. *)
Theorem job_message_survives (q q1 q2 : Q) (msg : JobExecutionMessage) (policy : RetryPolicy) (receipt : JobEnqueueReceipt) (d : DeliveryAdapter)
    (Henq : Enqueue q (Some msg) = (Ok receipt, q1)) (Hdeq : Dequeue q1 policy = (Ok d, q2))
    (Hqueue : ∀ m r d, jq_Enqueue q m = (Ok r, q1) → jq_Dequeue q1 = (Ok d, q2) → jq_Message d = Some m) :
  Delivery_Message d = Some (FromExecutionMessage msg).
Proof.
  unfold Enqueue, receipt_of in Henq. destruct (jq_Enqueue q (ToExecutionMessage msg)) as [[r|] q'] eqn:He; [|discriminate]. injection Henq as _ <-.
  unfold Dequeue in Hdeq. destruct (jq_Dequeue q') as [[d'|] q''] eqn:Hd; [|discriminate]. injection Hdeq as <- <-.
  unfold Delivery_Message. cbn [da_delivery]. rewrite (Hqueue _ _ _ He eq_refl).
  unfold FromExecutionMessage, ToExecutionMessage. cbn -[TrimSpace]. rewrite !TrimSpace_idem. reflexivity.
Qed.
End facts.

(** ** A queue of one job *)

Module JobsExample.
#[local] Instance one_job : JobQueue string (option JobExecutionMessage) JobExecutionMessage := {|
  jq_Retry := "retry";
  jq_Enqueue _ m := (Ok (mkReceipt "d1" 0%Z), Some m);
  jq_Scheduled := None;
  jq_GetDispatchStatus := None;
  jq_Dequeue q := match q with Some m => (Ok m, None) | None => (Fail "empty", None) end;
  jq_Message := Some;
  jq_Ack _ _ := (Ok tt, None);
  jq_Nack _ d o := (Ok tt, if String.eqb (nk_Disposition o) "retry" then Some d else None) |}.

Definition policy := mkRetryPolicy 2 (60 * Second)%Z true.
Definition msg := mkJobMessage " services.refresh " "" ∅ "k" "".
Definition again := mkNack "" (90 * Second)%Z "down".
Definition handed_out_again (q1 : option JobExecutionMessage) (d : JobExecutionMessage) (q2 : option JobExecutionMessage) (d2 : JobExecutionMessage) : Prop := q1 = Some d ∧ q2 = None ∧ d2 = d.


Lemma job_message_survives_witness : ∃ d, Dequeue (Some (ToExecutionMessage msg)) policy = (Ok d, None) ∧ Delivery_Message d = Some (FromExecutionMessage msg).
Proof.
  eexists. split; [reflexivity|].
  apply (job_message_survives None (Some (ToExecutionMessage msg)) None msg policy (mkReceipt "d1" 0%Z)); [vm_compute; reflexivity|reflexivity|].
  intros m r d He Hd. cbn in *. congruence.
Defined.

(** The last of two attempts ends in a dead letter, after a delay of one minute at most; the first one asks for a retry. *)
Example last_attempt_dead_letter :
  ToNackOptions (NormalizeAttempt policy again 1) = mkNack "retry" (60 * Second)%Z "down" ∧
  ToNackOptions (NormalizeAttempt policy again 2) = mkNack "dead_letter" (60 * Second)%Z "down".
Proof. split; vm_compute; reflexivity. Qed.

(** [Nack] of the delivery interface reports attempt 0: no number of attempts ends the retries of a worker that uses it. *)
Example plain_nack_never_ends n : Nat.iter n (λ q, (Nack q (mkDeliveryAdapter msg policy) again).2) (Some msg) = Some msg.
Proof. induction n as [|n IH]; [reflexivity|]. rewrite Nat.iter_succ, IH. vm_compute. reflexivity. Qed.

(** A disposition with blanks around it is not known to the policy, but trimmed afterwards: the retries have no end. *)
Example padded_disposition_never_ends : nk_Disposition (ToNackOptions (NormalizeAttempt policy (mkNack "retry " 0%Z "") 100)) = "retry".
Proof. vm_compute. reflexivity. Qed.
End JobsExample.
