(* ===== verification/Commands.v ===== *)
(** * Commands and queries (src/command, src/query)

    The messages of the application with their checks, and the handlers that pass them to the service.  The service is an interface; the errors library makes the
    validation errors, and the collector of a result is an argument. *)

From S2P Require Import Prelude GoStrings GoValues Domain Contracts OAuthState FormData Errors ServiceTypes Permissions Service Sync Subscriptions Installations Activity.
From Stdlib Require Import ZArith String Lia.
From stdpp Require Import base decidable list gmap strings.

Local Open Scope string_scope.
Local Open Scope list_scope.

(** ** Messages *)

Definition TypeConnect := "services.command.connect".
Definition TypeStartReconsent := "services.command.reconsent.start".
Definition TypeCompleteReconsent := "services.command.reconsent.complete".
Definition TypeCompleteCallback := "services.command.callback.complete".
Definition TypeRefresh := "services.command.refresh".
Definition TypeRevoke := "services.command.revoke".
Definition TypeInvokeCapability := "services.command.capability.invoke".
Definition TypeSubscribe := "services.command.subscription.subscribe".
Definition TypeRenewSubscription := "services.command.subscription.renew".
Definition TypeCancelSubscription := "services.command.subscription.cancel".
Definition TypeAdvanceSyncCursor := "services.command.sync_cursor.advance".
Definition TypeUpsertInstallation := "services.command.installation.upsert".
Definition TypeUpdateInstallation := "services.command.installation.update_status".
Definition TypeCreateSyncJob := "services.command.sync_job.create".
Definition TypeLoadSyncCursor := "services.query.sync_cursor.load".
Definition TypeListServicesActivity := "services.query.activity.list".
Definition TypeGetInstallation := "services.query.installation.get".
Definition TypeListInstallations := "services.query.installation.list_by_scope".
Definition TypeGetSyncJob := "services.query.sync_job.get".

(** A message is one of these structs. *)
Inductive Command :=
| ConnectMessage (req : ConnectRequest) | StartReconsentMessage (req : ReconsentRequest) | CompleteReconsentMessage (req : CompleteAuthRequest)
| CompleteCallbackMessage (req : CompleteAuthRequest) | RefreshMessage (req : RefreshRequest) | RevokeMessage (connectionID reason : string)
| InvokeCapabilityMessage (req : InvokeCapabilityRequest) | SubscribeMessage (req : SubscribeRequest) | RenewSubscriptionMessage (req : RenewSubscriptionRequest)
| CancelSubscriptionMessage (req : CancelSubscriptionRequest) | AdvanceSyncCursorMessage (input : AdvanceSyncCursorInput) | UpsertInstallationMessage (input : UpsertInstallationInput)
| UpdateInstallationStatusMessage (installationID status reason : string) | CreateSyncJobMessage (req : CreateSyncJobRequest).
Inductive Query :=
| LoadSyncCursorMessage (connectionID resourceType resourceID : string) | ListServicesActivityMessage (filter : ServicesActivityFilter) | GetInstallationMessage (installationID : string)
| ListInstallationsMessage (providerID : string) (scope : ScopeRef) | GetSyncJobMessage (req : GetSyncJobRequest).

Definition Command_Type (m : Command) : string :=
  match m with
  | ConnectMessage _ => TypeConnect | StartReconsentMessage _ => TypeStartReconsent | CompleteReconsentMessage _ => TypeCompleteReconsent
  | CompleteCallbackMessage _ => TypeCompleteCallback | RefreshMessage _ => TypeRefresh | RevokeMessage _ _ => TypeRevoke | InvokeCapabilityMessage _ => TypeInvokeCapability
  | SubscribeMessage _ => TypeSubscribe | RenewSubscriptionMessage _ => TypeRenewSubscription | CancelSubscriptionMessage _ => TypeCancelSubscription
  | AdvanceSyncCursorMessage _ => TypeAdvanceSyncCursor | UpsertInstallationMessage _ => TypeUpsertInstallation | UpdateInstallationStatusMessage _ _ _ => TypeUpdateInstallation
  | CreateSyncJobMessage _ => TypeCreateSyncJob
  end.
Definition Query_Type (m : Query) : string :=
  match m with
  | LoadSyncCursorMessage _ _ _ => TypeLoadSyncCursor | ListServicesActivityMessage _ => TypeListServicesActivity | GetInstallationMessage _ => TypeGetInstallation
  | ListInstallationsMessage _ _ => TypeListInstallations | GetSyncJobMessage _ => TypeGetSyncJob
  end.

Section messages.
Context {GE : GoErrors}.
(** [goerrors.NewValidation] with one field error; the text of an error, and of a scope error. *)
Variable NewValidation : string → string → string → RichError.
Variable rich_text : RichError → string.
Variable scope_error_text : domain_error → string.
Let rich_value (e : RichError) : GoError := mkGoError (rich_text e) (Some e) None [].

(** ** Errors (src/command/errors.go; those of src/query/errors.go differ in the first word of the text) *)

Definition commandDependencyError (message : string) : GoError :=
  rich_value (WithTextCode (WithCode (goerrors_New message CategoryInternal) StatusInternalServerError) ServiceErrorInternal).
Definition commandValidationError (field message : string) : GoError :=
  rich_value (WithTextCode (WithCode (NewValidation "command: validation failed" field message) StatusBadRequest) ServiceErrorBadInput).
Definition commandInvalidInputError (message : string) : GoError :=
  rich_value (WithTextCode (WithCode (goerrors_New message CategoryBadInput) StatusBadRequest) ServiceErrorBadInput).
Definition commandWrapValidation (err : GoError) (message : string) : GoError :=
  rich_value (WithTextCode (WithCode (goerrors_Wrap err CategoryValidation message) StatusBadRequest) ServiceErrorBadInput).
Definition queryDependencyError (message : string) : GoError := commandDependencyError message.
Definition queryValidationError (field message : string) : GoError :=
  rich_value (WithTextCode (WithCode (NewValidation "query: validation failed" field message) StatusBadRequest) ServiceErrorBadInput).
Definition queryInvalidInputError (message : string) : GoError := commandInvalidInputError message.
Definition queryWrapValidation (err : GoError) (message : string) : GoError := commandWrapValidation err message.

(** ** Checks *)

(** The fields that must not be blank, in order, with the texts of their errors. *)
Fixpoint required (fails : string → string → GoError) (fields : list (string * string * string)) : outcome GoError unit :=
  match fields with
  | [] => Ok tt
  | (v, field, message) :: rest => if blank v then Fail (fails field message) else required fails rest
  end.
Definition andThen (a b : outcome GoError unit) : outcome GoError unit := match a with Fail e => Fail e | Ok _ => b end.
Definition validateScope (scope : ScopeRef) : outcome GoError unit :=
  match ScopeRef_Validate scope with Fail e => Fail (commandWrapValidation (plainError (scope_error_text e)) "command: invalid scope") | Ok _ => Ok tt end.
Let need := required commandValidationError.

Definition Connect_Validate (req : ConnectRequest) : outcome GoError unit :=
  andThen (need [(cq_ProviderID req, "provider_id", "provider id is required")]) (validateScope (cq_Scope req)).
Definition StartReconsent_Validate (req : ReconsentRequest) : outcome GoError unit := need [(rc_ConnectionID req, "connection_id", "connection id is required")].
Definition CompleteAuth_Validate (req : CompleteAuthRequest) : outcome GoError unit :=
  andThen (need [(ca_ProviderID req, "provider_id", "provider id is required")]) (validateScope (ca_Scope req)).
Definition Refresh_Validate (req : RefreshRequest) : outcome GoError unit :=
  need [(rq_ProviderID req, "provider_id", "provider id is required"); (rq_ConnectionID req, "connection_id", "connection id is required")].
Definition Revoke_Validate (connectionID : string) : outcome GoError unit := need [(connectionID, "connection_id", "connection id is required")].
Definition InvokeCapability_Validate (req : InvokeCapabilityRequest) : outcome GoError unit :=
  andThen (need [(iq_ProviderID req, "provider_id", "provider id is required"); (iq_Capability req, "capability", "capability is required")])
    (if blank (iq_ConnectionID req) then validateScope (iq_Scope req) else Ok tt).
Definition Subscribe_Validate (req : SubscribeRequest) : outcome GoError unit :=
  need [(sq_ConnectionID req, "connection_id", "connection id is required"); (sq_ResourceType req, "resource_type", "resource type is required");
        (sq_ResourceID req, "resource_id", "resource id is required"); (sq_CallbackURL req, "callback_url", "callback url is required")].
Definition RenewSubscription_Validate (req : RenewSubscriptionRequest) : outcome GoError unit :=
  need [(rn_SubscriptionID req, "subscription_id", "subscription id is required")].
Definition CancelSubscription_Validate (req : CancelSubscriptionRequest) : outcome GoError unit :=
  need [(cn_SubscriptionID req, "subscription_id", "subscription id is required")].
Definition AdvanceSyncCursor_Validate (input : AdvanceSyncCursorInput) : outcome GoError unit :=
  need [(av_ConnectionID input, "connection_id", "connection id is required"); (av_ProviderID input, "provider_id", "provider id is required");
        (av_ResourceType input, "resource_type", "resource type is required"); (av_ResourceID input, "resource_id", "resource id is required");
        (av_Cursor input, "cursor", "cursor is required")].
Definition UpsertInstallation_Validate (input : UpsertInstallationInput) : outcome GoError unit :=
  andThen (need [(ui_ProviderID input, "provider_id", "provider id is required")])
    (andThen (validateScope (ui_Scope input)) (need [(ui_InstallType input, "install_type", "install type is required")])).
Definition UpdateInstallationStatus_Validate (installationID status : string) : outcome GoError unit :=
  need [(installationID, "installation_id", "installation id is required"); (status, "status", "installation status is required")].
Definition CreateSyncJob_Validate (req : CreateSyncJobRequest) : outcome GoError unit :=
  andThen (need [(cj_ProviderID req, "provider_id", "provider id is required")])
    (andThen (validateScope (mkScopeRef (lowerTrim (cj_ScopeType req)) (TrimSpace (cj_ScopeID req))))
       (let mode := lowerTrim (cj_Mode req) in
        if negb (String.eqb mode SyncJobModeFull) && negb (String.eqb mode SyncJobModeDelta)
        then Fail (commandInvalidInputError "command: sync job mode must be full or delta") else Ok tt)).

Definition Command_Validate (m : Command) : outcome GoError unit :=
  match m with
  | ConnectMessage req => Connect_Validate req | StartReconsentMessage req => StartReconsent_Validate req | CompleteReconsentMessage req => CompleteAuth_Validate req
  | CompleteCallbackMessage req => CompleteAuth_Validate req | RefreshMessage req => Refresh_Validate req | RevokeMessage id _ => Revoke_Validate id
  | InvokeCapabilityMessage req => InvokeCapability_Validate req | SubscribeMessage req => Subscribe_Validate req | RenewSubscriptionMessage req => RenewSubscription_Validate req
  | CancelSubscriptionMessage req => CancelSubscription_Validate req | AdvanceSyncCursorMessage input => AdvanceSyncCursor_Validate input
  | UpsertInstallationMessage input => UpsertInstallation_Validate input | UpdateInstallationStatusMessage id status _ => UpdateInstallationStatus_Validate id status
  | CreateSyncJobMessage req => CreateSyncJob_Validate req
  end.

Let want := required queryValidationError.
Definition query_scope (scope : ScopeRef) : outcome GoError unit :=
  match ScopeRef_Validate scope with Fail e => Fail (queryWrapValidation (plainError (scope_error_text e)) "query: invalid scope") | Ok _ => Ok tt end.
Definition LoadSyncCursor_Validate (connectionID resourceType resourceID : string) : outcome GoError unit :=
  want [(connectionID, "connection_id", "connection id is required"); (resourceType, "resource_type", "resource type is required"); (resourceID, "resource_id", "resource id is required")].
Definition ListServicesActivity_Validate (filter : ServicesActivityFilter) : outcome GoError unit :=
  if (af_Page filter <? 0)%Z then Fail (queryInvalidInputError "query: page must be >= 0")
  else if (af_PerPage filter <? 0)%Z then Fail (queryInvalidInputError "query: per_page must be >= 0") else Ok tt.
Definition GetInstallation_Validate (id : string) : outcome GoError unit := want [(id, "installation_id", "installation id is required")].
Definition ListInstallations_Validate (providerID : string) (scope : ScopeRef) : outcome GoError unit :=
  andThen (want [(providerID, "provider_id", "provider id is required")]) (query_scope scope).
Definition GetSyncJob_Validate (req : GetSyncJobRequest) : outcome GoError unit :=
  andThen (want [(gj_SyncJobID req, "sync_job_id", "sync job id is required")])
    (let scopeType := lowerTrim (gj_ScopeType req) in
     let scopeID := TrimSpace (gj_ScopeID req) in
     if xorb (String.eqb scopeType "") (String.eqb scopeID "") then Fail (queryInvalidInputError "query: scope type and scope id must both be provided")
     else if negb (String.eqb scopeType "") then query_scope (mkScopeRef scopeType scopeID) else Ok tt).
Definition Query_Validate (m : Query) : outcome GoError unit :=
  match m with
  | LoadSyncCursorMessage c t i => LoadSyncCursor_Validate c t i | ListServicesActivityMessage f => ListServicesActivity_Validate f | GetInstallationMessage id => GetInstallation_Validate id
  | ListInstallationsMessage p s => ListInstallations_Validate p s | GetSyncJobMessage req => GetSyncJob_Validate req
  end.
End messages.

(** ** Handlers *)

(** [MutatingService] and [SyncJobMutatingService], over a state [W]. *)
Class MutatingService (E W : Type) := {
  ms_Connect : W → ConnectRequest → outcome E BeginAuthResponse * W;
  ms_StartReconsent : W → ReconsentRequest → outcome E BeginAuthResponse * W;
  ms_CompleteReconsent : W → CompleteAuthRequest → outcome E CallbackCompletion * W;
  ms_CompleteCallback : W → CompleteAuthRequest → outcome E CallbackCompletion * W;
  ms_Refresh : W → RefreshRequest → outcome E RefreshResult * W;
  ms_Revoke : W → string → string → outcome E unit * W;
  ms_InvokeCapability : W → InvokeCapabilityRequest → outcome E CapabilityResult * W;
  ms_Subscribe : W → SubscribeRequest → outcome E Subscription * W;
  ms_RenewSubscription : W → RenewSubscriptionRequest → outcome E Subscription * W;
  ms_CancelSubscription : W → CancelSubscriptionRequest → outcome E unit * W;
  ms_AdvanceSyncCursor : W → AdvanceSyncCursorInput → outcome E SyncCursor * W;
  ms_UpsertInstallation : W → UpsertInstallationInput → outcome E Installation * W;
  ms_UpdateInstallationStatus : W → string → string → string → outcome E unit * W }.
Class SyncJobMutatingService (E W : Type) := ms_CreateSyncJob : W → CreateSyncJobRequest → outcome E CreateSyncJobResult * W.
(** The readers of the queries. *)
Class QueryReaders (E W : Type) := {
  qr_LoadSyncCursor : W → string → string → string → outcome E SyncCursor;
  qr_List : W → ServicesActivityFilter → outcome E ServicesActivityPage;
  qr_GetInstallation : W → string → outcome E Installation;
  qr_ListInstallations : W → string → ScopeRef → outcome E (list Installation);
  qr_GetSyncJob : W → GetSyncJobRequest → outcome E SyncJob }.

(** What a command may put in the collector of its context. *)
Inductive command_result :=
| Begun (r : BeginAuthResponse) | Completed (r : CallbackCompletion) | Refreshed (r : RefreshResult) | Invoked (r : CapabilityResult) | Subscribed (r : Subscription)
| Advanced (r : SyncCursor) | Installed (r : Installation) | JobCreated (r : CreateSyncJobResult).
Inductive query_result :=
| CursorRead (r : SyncCursor) | ActivityRead (r : ServicesActivityPage) | InstallationRead (r : Installation) | InstallationsRead (r : list Installation) | JobRead (r : SyncJob).

Inductive command_error (E : Type) := CmdFrom (e : E) | CmdDependency (message : string).
Arguments CmdFrom {E}. Arguments CmdDependency {E}.

Section handlers.
Context {E W : Type}.

(** A call, and what becomes of its result: [collector] tells whether the context has one for the type of the result. *)
Definition storeResult {A : Type} (inj : A → command_result) (collector : bool) (r : outcome E A * W) : outcome (command_error E) unit * option command_result * W :=
  match r with (Fail e, w) => (Fail (CmdFrom e), None, w) | (Ok out, w) => (Ok tt, if collector then Some (inj out) else None, w) end.
Definition discard (r : outcome E unit * W) : outcome (command_error E) unit * option command_result * W :=
  match r with (Fail e, w) => (Fail (CmdFrom e), None, w) | (Ok _, w) => (Ok tt, None, w) end.
Definition missing (message : string) (w : W) : outcome (command_error E) unit * option command_result * W := (Fail (CmdDependency message), None, w).

(** The handlers; a service that is nil has no methods. *)
Abbreviation executed := (outcome (command_error E) unit * option command_result * W)%type.
Definition with_service {S : Type} (service : option S) (message : string) (w : W) (call : S → executed) : executed :=
  match service with None => missing message w | Some s => call s end.
Section commands.
Variable service : option (MutatingService E W).
Variable collector : bool.
Definition Connect_Execute (w : W) (req : ConnectRequest) : executed :=
  with_service service "command: connect service is required" w (λ s, storeResult Begun collector (ms_Connect w req)).
Definition StartReconsent_Execute (w : W) (req : ReconsentRequest) : executed :=
  with_service service "command: re-consent service is required" w (λ s, storeResult Begun collector (ms_StartReconsent w req)).
Definition CompleteReconsent_Execute (w : W) (req : CompleteAuthRequest) : executed :=
  with_service service "command: complete re-consent service is required" w (λ s, storeResult Completed collector (ms_CompleteReconsent w req)).
Definition CompleteCallback_Execute (w : W) (req : CompleteAuthRequest) : executed :=
  with_service service "command: callback service is required" w (λ s, storeResult Completed collector (ms_CompleteCallback w req)).
Definition Refresh_Execute (w : W) (req : RefreshRequest) : executed :=
  with_service service "command: refresh service is required" w (λ s, storeResult Refreshed collector (ms_Refresh w req)).
Definition InvokeCapability_Execute (w : W) (req : InvokeCapabilityRequest) : executed :=
  with_service service "command: capability service is required" w (λ s, storeResult Invoked collector (ms_InvokeCapability w req)).
Definition Subscribe_Execute (w : W) (req : SubscribeRequest) : executed :=
  with_service service "command: subscribe service is required" w (λ s, storeResult Subscribed collector (ms_Subscribe w req)).
Definition RenewSubscription_Execute (w : W) (req : RenewSubscriptionRequest) : executed :=
  with_service service "command: renew subscription service is required" w (λ s, storeResult Subscribed collector (ms_RenewSubscription w req)).
Definition AdvanceSyncCursor_Execute (w : W) (req : AdvanceSyncCursorInput) : executed :=
  with_service service "command: sync cursor service is required" w (λ s, storeResult Advanced collector (ms_AdvanceSyncCursor w req)).
Definition UpsertInstallation_Execute (w : W) (req : UpsertInstallationInput) : executed :=
  with_service service "command: installation service is required" w (λ s, storeResult Installed collector (ms_UpsertInstallation w req)).
Definition Revoke_Execute (w : W) (id reason : string) : executed := with_service service "command: revoke service is required" w (λ s, discard (ms_Revoke w id reason)).
Definition CancelSubscription_Execute (w : W) (req : CancelSubscriptionRequest) : executed :=
  with_service service "command: cancel subscription service is required" w (λ s, discard (ms_CancelSubscription w req)).
Definition UpdateInstallationStatus_Execute (w : W) (id status reason : string) : executed :=
  with_service service "command: installation service is required" w (λ s, discard (ms_UpdateInstallationStatus w id status reason)).
Definition CreateSyncJob_Execute (jobs : option (SyncJobMutatingService E W)) (w : W) (req : CreateSyncJobRequest) : executed :=
  with_service jobs "command: sync job service is required" w (λ s, storeResult JobCreated collector (ms_CreateSyncJob w req)).

Definition Command_Execute (jobs : option (SyncJobMutatingService E W)) (w : W) (m : Command) : executed :=
  match m with
  | ConnectMessage req => Connect_Execute w req | StartReconsentMessage req => StartReconsent_Execute w req | CompleteReconsentMessage req => CompleteReconsent_Execute w req
  | CompleteCallbackMessage req => CompleteCallback_Execute w req | RefreshMessage req => Refresh_Execute w req | RevokeMessage id reason => Revoke_Execute w id reason
  | InvokeCapabilityMessage req => InvokeCapability_Execute w req | SubscribeMessage req => Subscribe_Execute w req | RenewSubscriptionMessage req => RenewSubscription_Execute w req
  | CancelSubscriptionMessage req => CancelSubscription_Execute w req | AdvanceSyncCursorMessage input => AdvanceSyncCursor_Execute w input
  | UpsertInstallationMessage input => UpsertInstallation_Execute w input | UpdateInstallationStatusMessage id status reason => UpdateInstallationStatus_Execute w id status reason
  | CreateSyncJobMessage req => CreateSyncJob_Execute jobs w req
  end.
End commands.

Definition from_reader {A : Type} (inj : A → query_result) (r : outcome E A) : outcome (command_error E) query_result :=
  match r with Fail e => Fail (CmdFrom e) | Ok a => Ok (inj a) end.
Definition Query_Query (readers : option (QueryReaders E W)) (w : W) (m : Query) : outcome (command_error E) query_result :=
  match m, readers with
  | LoadSyncCursorMessage c t i, Some r => from_reader CursorRead (qr_LoadSyncCursor w c t i)
  | LoadSyncCursorMessage _ _ _, None => Fail (CmdDependency "query: sync cursor reader is required")
  | ListServicesActivityMessage f, Some r => from_reader ActivityRead (qr_List w f)
  | ListServicesActivityMessage _, None => Fail (CmdDependency "query: services activity reader is required")
  | GetInstallationMessage id, Some r => from_reader InstallationRead (qr_GetInstallation w id)
  | GetInstallationMessage _, None => Fail (CmdDependency "query: installation reader is required")
  | ListInstallationsMessage p s, Some r => from_reader InstallationsRead (qr_ListInstallations w p s)
  | ListInstallationsMessage _ _, None => Fail (CmdDependency "query: installation reader is required")
  | GetSyncJobMessage req, Some r => from_reader JobRead (qr_GetSyncJob w req)
  | GetSyncJobMessage _, None => Fail (CmdDependency "query: sync job reader is required")
  end.
End handlers.

(** ** The checks of the messages and those of the service *)

Section facts.
Context {GE : GoErrors} {MR : MapRange}.
Variable NewValidation : string → string → string → RichError.
Variable rich_text : RichError → string.
Variable scope_error_text : domain_error → string.

Lemma required_spec fails l : required fails l = Ok tt ↔ Forall (λ f, blank f.1.1 = false) l.
Proof.
  induction l as [|[[v f] m] l IH]; [split; [constructor|reflexivity]|]. rewrite Forall_cons. cbn [required fst]. destruct (blank v); [split; [discriminate|intros [? _]; discriminate]|].
  rewrite IH. tauto.
Qed.
Lemma andThen_spec a b : andThen a b = Ok tt ↔ a = Ok tt ∧ b = Ok tt.
Proof. destruct a as [[]|]; cbn; intuition congruence. Qed.
Lemma validateScope_spec scope : validateScope rich_text scope_error_text scope = Ok tt ↔ ScopeRef_Validate scope = Ok tt.
Proof. unfold validateScope. destruct (ScopeRef_Validate scope) as [[]|]; split; congruence. Qed.
Lemma normal_scope_valid scope : ScopeRef_Validate (normalScope scope) = Ok tt ↔ ScopeRef_Validate scope = Ok tt.
Proof.
  unfold ScopeRef_Validate, normalScope. cbn [scope_Type scope_ID]. fold (lowerTrim (lowerTrim (scope_Type scope))) (lowerTrim (scope_Type scope)). rewrite lowerTrim_idem, TrimSpace_idem.
  repeat case_match; split; congruence.
Qed.

Abbreviation valid f := (f = Ok tt).
Lemma create_job_checked req : valid (CreateSyncJob_Validate NewValidation rich_text scope_error_text req) ↔ ∃ n, normalizeCreateSyncJobRequest scope_error_text req = Ok n.
Proof.
  unfold CreateSyncJob_Validate. rewrite !andThen_spec, required_spec, validateScope_spec, Forall_singleton. cbn [fst].
  unfold normalizeCreateSyncJobRequest, parseSyncJobCreateMode. cbn [cj_ProviderID cj_ScopeType cj_ScopeID cj_Mode]. rewrite lowerTrim_idem. unfold blank.
  destruct (String.eqb (TrimSpace (cj_ProviderID req)) ""); [split; [intros [? _]; discriminate|intros [? ?]; discriminate]|].
  destruct (ScopeRef_Validate _) as [[]|]; [|split; [intros (_ & ? & _); discriminate|intros [? ?]; discriminate]].
  destruct (String.eqb _ SyncJobModeFull), (String.eqb _ SyncJobModeDelta); cbn; split; intros H; try (eexists; reflexivity); try tauto;
    try (destruct H as (_ & _ & ?); discriminate); destruct H; discriminate.
Qed.
Lemma get_job_checked req : valid (GetSyncJob_Validate NewValidation rich_text scope_error_text req) ↔ ∃ n, normalizeGetSyncJobRequest scope_error_text req = Ok n.
Proof.
  unfold GetSyncJob_Validate. rewrite !andThen_spec, required_spec, Forall_singleton. cbn [fst].
  unfold normalizeGetSyncJobRequest, query_scope. cbn [gj_SyncJobID gj_ScopeType gj_ScopeID]. unfold blank.
  destruct (String.eqb (TrimSpace (gj_SyncJobID req)) ""); [split; [intros [? _]; discriminate|intros [? ?]; discriminate]|].
  destruct (String.eqb (lowerTrim (gj_ScopeType req)) ""), (String.eqb (TrimSpace (gj_ScopeID req)) ""); cbn;
    try (split; [intros (_ & ?); discriminate|intros [? ?]; discriminate]).
  - split; [intros _; eexists; reflexivity|tauto].
  - destruct (ScopeRef_Validate _) as [[]|]; split; [intros _; eexists; reflexivity|tauto|intros (_ & ?); discriminate|intros [? ?]; discriminate].
Qed.

Lemma lowerTrim_blank v : String.eqb (lowerTrim v) "" = blank v.
Proof. unfold lowerTrim, blank. rewrite <-ToLower_TrimSpace. destruct (TrimSpace v); reflexivity. Qed.
(** An outcome that is a complaint about the input. *)
Definition incomplete_install (r : outcome inst_error (UpsertInstallationInput * string)) : bool :=
  match r with Fail (InErrRequired _) | Fail (InErrScope _) => true | _ => false end.
Lemma install_checked input : valid (UpsertInstallation_Validate NewValidation rich_text scope_error_text input) ↔ incomplete_install (checked_install input) = false.
Proof.
  unfold UpsertInstallation_Validate. rewrite !andThen_spec, !required_spec, validateScope_spec, !Forall_singleton, <-normal_scope_valid. cbn [fst].
  unfold checked_install, normal_install. cbn [ui_ProviderID ui_Scope ui_InstallType ui_Status].
  assert (Ht : String.eqb (lowerTrim (ui_InstallType input)) "" = blank (ui_InstallType input)) by apply lowerTrim_blank.
  rewrite Ht. unfold blank at 1. destruct (String.eqb (TrimSpace (ui_ProviderID input)) ""); [split; [intros [? _]|]; discriminate|].
  destruct (ScopeRef_Validate _) as [[]|]; [|split; [intros (_ & ? & _)|]; discriminate].
  destruct (blank (ui_InstallType input)); [split; [intros (_ & _ & ?)|]; discriminate|].
  split; [intros _|tauto]. unfold parseInstallationStatus. repeat case_match; simplify_eq; reflexivity.
Qed.

Section services.
Context {E W O X U J : Type} {conns : ConnectionStore E W} {subs : SubscriptionStore X U} {jobs : Sync.SyncJobStore J} {cursors : SyncCursorStore J}.
Variable subscribable : Provider → option SubscribableProvider.
Variable rfc3339nano : Time → string.
Abbreviation Svc := (Service (E := E) (W := W)).

Definition asks_for_input {A : Type} (r : outcome (sub_service_error E X) A * U) : bool := match r.1 with Fail (SuSvcRequired _) => true | _ => false end.
Lemma stored_asks {A : Type} (r : outcome X A * U) : asks_for_input (stored (E := E) r) = false.
Proof. unfold asks_for_input, stored. destruct r as [[|] ?]; reflexivity. Qed.
Lemma provider_asks (v : Svc) (st : SvcState W O) id (e : sub_service_error E X) : subscribable_provider subscribable v st id = Fail e → match e with SuSvcRequired _ => False | _ => True end.
Proof. unfold subscribable_provider. repeat case_match; intros [= <-]; exact I. Qed.
Ltac past_checks := repeat first
  [ reflexivity | apply stored_asks
  | match goal with |- context [match subscribable_provider ?s ?v ?st ?id with _ => _ end] => destruct (subscribable_provider s v st id) eqn:?Hp end
  | match goal with H : subscribable_provider _ _ _ _ = Fail ?e |- _ => apply provider_asks in H; destruct e; try contradiction; clear H end
  | case_match ].

Lemma subscribe_checked (v : Svc) env (st : SvcState W O) (u : U) req (Hs : svc_connectionStore v = true) :
  valid (Subscribe_Validate NewValidation rich_text req) ↔ asks_for_input (Subscribe subscribable v true env st u req) = false.
Proof.
  unfold Subscribe_Validate. rewrite required_spec, !Forall_cons, Forall_nil. cbn [fst]. unfold Subscribe. rewrite Hs. cbn [negb orb]. fold (blank (sq_ConnectionID req)).
  destruct (blank (sq_ConnectionID req)), (blank (sq_ResourceType req)), (blank (sq_ResourceID req)), (blank (sq_CallbackURL req));
    try (split; [intros (? & ? & ? & ? & _); discriminate|discriminate]).
  split; [intros _|tauto]. past_checks.
Qed.
Lemma renew_checked (v : Svc) env (st : SvcState W O) (u : U) req :
  valid (RenewSubscription_Validate NewValidation rich_text req) ↔ asks_for_input (RenewSubscription subscribable rfc3339nano v true env st u req) = false.
Proof.
  unfold RenewSubscription_Validate. rewrite required_spec, Forall_singleton. cbn [fst]. unfold RenewSubscription. cbn [negb].
  destruct (blank (rn_SubscriptionID req)); [split; discriminate|]. split; [intros _|tauto]. past_checks.
Qed.
Lemma cancel_checked (v : Svc) env (st : SvcState W O) (u : U) req :
  valid (CancelSubscription_Validate NewValidation rich_text req) ↔ asks_for_input (CancelSubscription subscribable v true env st u req) = false.
Proof.
  unfold CancelSubscription_Validate. rewrite required_spec, Forall_singleton. cbn [fst]. unfold CancelSubscription. cbn [negb].
  destruct (blank (cn_SubscriptionID req)); [split; discriminate|]. split; [intros _|tauto]. past_checks.
Qed.

Lemma cursor_checked e (j : J) input :
  (valid (AdvanceSyncCursor_Validate NewValidation rich_text input) ∧ ∃ n, AdvanceSyncCursor (E := E) true e j input =
     let (o, j') := sc_Advance j e n in (match o with Ok c => Ok c | Fail err => Fail (SyncErr err) end, j')) ∨
  (¬ valid (AdvanceSyncCursor_Validate NewValidation rich_text input) ∧ ∃ text, AdvanceSyncCursor (E := E) true e j input = (Fail (SyncErr (SyErrRequired text)), j)).
Proof.
  unfold AdvanceSyncCursor_Validate. rewrite required_spec, !Forall_cons, Forall_nil. cbn [fst]. unfold AdvanceSyncCursor. cbn [negb av_ConnectionID av_ProviderID av_ResourceType av_ResourceID av_Cursor].
  fold (blank (av_ConnectionID input)) (blank (av_ProviderID input)) (blank (av_ResourceType input)) (blank (av_ResourceID input)) (blank (av_Cursor input)).
  destruct (blank (av_ConnectionID input)); [right; split; [intros (? & _); discriminate|eexists; reflexivity]|].
  destruct (blank (av_ProviderID input)); [right; split; [intros (_ & ? & _); discriminate|eexists; reflexivity]|].
  destruct (blank (av_ResourceType input)); [right; split; [intros (_ & _ & ? & _); discriminate|eexists; reflexivity]|].
  destruct (blank (av_ResourceID input)); [right; split; [intros (_ & _ & _ & ? & _); discriminate|eexists; reflexivity]|].
  destruct (blank (av_Cursor input)); [right; split; [intros (_ & _ & _ & _ & ? & _); discriminate|eexists; reflexivity]|].
  left. split; [tauto|]. eexists. reflexivity.
Qed.

(** C40: the messages and the service check alike: a message is valid exactly if the service does not turn its input down as incomplete, for the creation and the reading of a
    sync job, the installation, the three subscription commands, and the advance of a cursor, which reaches the store exactly if the message is valid. *)
Theorem messages_checked_alike (v : Svc) (env : nat → CallEnv) (st : SvcState W O) (u : U) (e : CallEnv) (j : J) (Hs : svc_connectionStore v = true) :
  (∀ req, valid (CreateSyncJob_Validate NewValidation rich_text scope_error_text req) ↔ ∃ n, normalizeCreateSyncJobRequest scope_error_text req = Ok n) ∧
  (∀ req, valid (GetSyncJob_Validate NewValidation rich_text scope_error_text req) ↔ ∃ n, normalizeGetSyncJobRequest scope_error_text req = Ok n) ∧
  (∀ input, valid (UpsertInstallation_Validate NewValidation rich_text scope_error_text input) ↔ incomplete_install (checked_install input) = false) ∧
  (∀ req, valid (Subscribe_Validate NewValidation rich_text req) ↔ asks_for_input (Subscribe subscribable v true env st u req) = false) ∧
  (∀ req, valid (RenewSubscription_Validate NewValidation rich_text req) ↔ asks_for_input (RenewSubscription subscribable rfc3339nano v true env st u req) = false) ∧
  (∀ req, valid (CancelSubscription_Validate NewValidation rich_text req) ↔ asks_for_input (CancelSubscription subscribable v true env st u req) = false) ∧
  (∀ input, (valid (AdvanceSyncCursor_Validate NewValidation rich_text input) ∧ ∃ n, AdvanceSyncCursor (E := E) true e j input =
               let (o, j') := sc_Advance j e n in (match o with Ok c => Ok c | Fail err => Fail (SyncErr err) end, j')) ∨
            (¬ valid (AdvanceSyncCursor_Validate NewValidation rich_text input) ∧ ∃ text, AdvanceSyncCursor (E := E) true e j input = (Fail (SyncErr (SyErrRequired text)), j))).
Proof.
  repeat split_and; [apply create_job_checked|apply get_job_checked|apply install_checked|intros req; by apply subscribe_checked|intros req; apply renew_checked|intros req; apply cancel_checked|
    intros input; apply cursor_checked].
Qed.
End services.

(** The status of an installation is checked by the message, and not by the service (see [blank_status_activates]). *)
Theorem blank_status_refused id status reason (Hb : blank status = true) :
  ∃ e, Command_Validate NewValidation rich_text scope_error_text (UpdateInstallationStatusMessage id status reason) = Fail e.
Proof. cbn. rewrite Hb. destruct (blank id); eexists; reflexivity. Qed.

(** Every refusal is a 400 with the code of a bad input, whatever the errors library makes of the rest; a handler without a service is a 500. *)
Definition bad_input (e : GoError) : Prop := ∃ r, err_Rich e = Some r ∧ re_Code r = StatusBadRequest ∧ re_TextCode r = ServiceErrorBadInput.
Lemma required_bad fails l e : (∀ f m, bad_input (fails f m)) → required fails l = Fail e → bad_input e.
Proof. intros Hf. induction l as [|[[v f] m] l IH]; cbn; [discriminate|]. destruct (blank v); [intros [= <-]; apply Hf|exact IH]. Qed.
Lemma andThen_bad a b e : (∀ e, a = Fail e → bad_input e) → (∀ e, b = Fail e → bad_input e) → andThen a b = Fail e → bad_input e.
Proof. intros Ha Hb. destruct a; cbn; [apply Hb|intros [= <-]; by apply Ha]. Qed.
Lemma validateScope_bad scope e : validateScope rich_text scope_error_text scope = Fail e → bad_input e.
Proof. unfold validateScope. case_match; [discriminate|intros [= <-]]. eexists. repeat split. Qed.
Lemma query_scope_bad scope e : query_scope rich_text scope_error_text scope = Fail e → bad_input e.
Proof. unfold query_scope. case_match; [discriminate|intros [= <-]]. eexists. repeat split. Qed.
Ltac refused := repeat first
  [ discriminate | apply validateScope_bad | apply query_scope_bad
  | apply required_bad; intros ? ?; eexists; repeat split; fail
  | apply andThen_bad; intros ?
  | case_match
  | intros [= <-]; eexists; repeat split; fail ].
Theorem refusals_are_bad_input :
  (∀ m e, Command_Validate NewValidation rich_text scope_error_text m = Fail e → bad_input e) ∧
  (∀ m e, Query_Validate NewValidation rich_text scope_error_text m = Fail e → bad_input e).
Proof. split; intros [] e; cbn [Command_Validate Query_Validate]; cbv beta delta [Connect_Validate CompleteAuth_Validate InvokeCapability_Validate UpsertInstallation_Validate CreateSyncJob_Validate ListServicesActivity_Validate ListInstallations_Validate GetSyncJob_Validate StartReconsent_Validate Refresh_Validate Revoke_Validate Subscribe_Validate RenewSubscription_Validate CancelSubscription_Validate AdvanceSyncCursor_Validate UpdateInstallationStatus_Validate LoadSyncCursor_Validate GetInstallation_Validate] zeta; refused. Qed.
End facts.

(** ** Messages of an application *)

Module CommandsExample.
#[local] Instance demo_MapRange : MapRange := key_order_range.
#[local] Instance demo_errors : GoErrors := {|
  goerrors_New m c := mkRich c 0 "" m ∅; goerrors_Wrap _ c m := mkRich c 0 "" m ∅; goerrors_MapToError _ := None; New_Category _ _ := eq_refl; Wrap_Category _ _ _ := eq_refl |}.
Definition validation (text field message : string) : RichError := mkRich CategoryValidation 0 "" text {[ field := VString message ]}.
#[local] Instance no_connections : ConnectionStore unit unit := {|
  cs_Create w _ _ := (Fail tt, w); cs_Get _ _ _ := Fail tt; cs_FindByScope _ _ _ _ := Ok []; cs_FindByScopeAndExternalAccount _ _ _ _ _ := Ok None; cs_UpdateStatus w _ _ _ _ := (Fail tt, w) |}.
#[local] Instance no_subscriptions : SubscriptionStore unit unit := {|
  ss_Upsert u _ _ := (Fail tt, u); ss_Get _ _ _ := Fail tt; ss_GetByChannelID _ _ _ _ := Fail tt; ss_ListExpiring _ _ _ := Ok []; ss_UpdateState u _ _ _ _ := (Fail tt, u) |}.
#[local] Instance no_cursors : SyncCursorStore unit := {| sc_Get _ _ _ _ _ := Fail SyErrCursorNotFound; sc_Upsert j _ _ := (Fail SyErrReplay, j); sc_Advance j _ _ := (Fail SyErrCursorNotFound, j) |}.
Definition service : Service (E := unit) (W := unit) := mkService None true false false false None None false [] None None None.
Definition text (e : RichError) : string := re_Message e.
Definition job := mkCreateJob "github" " Org " "o1" "" "FULL" "" "" ∅.

Lemma messages_checked_alike_witness : ∃ n, normalizeCreateSyncJobRequest (λ _, "scope") job = Ok n.
Proof.
  apply (messages_checked_alike validation text (λ _, "scope") (O := unit) (λ _, None) (λ _, "") service (λ _, quiet 0 "") (mkSvcState tt None None) tt (quiet 0 "") tt eq_refl).
  vm_compute. reflexivity.
Defined.
Lemma blank_status_refused_witness : ∃ e, Command_Validate validation text (λ _, "scope") (UpdateInstallationStatusMessage "i1" "  " "") = Fail e.
Proof. apply (blank_status_refused validation text (λ _, "scope")). vm_compute. reflexivity. Defined.

(** The response of a begun authorization goes to the collector, if the context has one. *)
Example connect_collects :
  let begun := mkBeginResponse "https://x" "s" [] ∅ in
  let connect (w : nat) (_ : ConnectRequest) := (Ok begun : outcome unit _, S w) in
  storeResult Begun true (connect 0 (mkConnect "github" (mkScopeRef "org" "o1") "" "" [] ∅)) = (Ok tt, Some (Begun begun), 1) ∧
  storeResult Begun false (connect 0 (mkConnect "github" (mkScopeRef "org" "o1") "" "" [] ∅)) = (Ok tt, None, 1).
Proof. split; reflexivity. Qed.
End CommandsExample.
