(* ===== verification/Extensions.v ===== *)
(** * Extension packs (src/extension_hooks.go)

    Packs of providers, of capability descriptors and of command bundles that a package of the application registers by name, and their application to a registry in
    the order of the names.  A bundle factory is a function of a service. *)

From S2P Require Import Prelude GoStrings Contracts Grants Permissions.
From Stdlib Require Import ZArith String Lia.
From stdpp Require Import base decidable list gmap strings sorting.

Local Open Scope string_scope.
Local Open Scope list_scope.

(** ** Registration *)

(** A provider of a pack may be nil. *)
Record ProviderPack := mkProviderPack { pp_Name : string; pp_Providers : list (option Provider) }.
Record CapabilityDescriptorPack := mkCapabilityPack { cp_Name : string; cp_ProviderID : string; cp_Descriptors : list CapabilityDescriptor }.

Section hooks.
Context {MR : MapRange} {S B : Type}.
(** [CommandQueryBundleFactory]; its error is a text. *)
Abbreviation BundleFactory := (S → outcome string B).
Record ExtensionHooks := mkHooks {
  eh_providerPacks : gmap string ProviderPack; eh_capabilityPacks : gmap string CapabilityDescriptorPack; eh_bundles : gmap string BundleFactory }.
Definition NewExtensionHooks : ExtensionHooks := mkHooks ∅ ∅ ∅.

Inductive hooks_error :=
| HkNameRequired | HkNoProviders (name : string) | HkProviderIDRequired (name : string) | HkNoDescriptors (name : string) | HkFactoryRequired (name : string)
| HkExists (name : string) | HkRegistryRequired | HkNilProvider (name : string) | HkRegister (e : registry_error) | HkServiceRequired | HkFactory (text : string).

Definition RegisterProviderPack (h : ExtensionHooks) (pack : ProviderPack) : outcome hooks_error ExtensionHooks :=
  let name := TrimSpace (pp_Name pack) in
  if String.eqb name "" then Fail HkNameRequired
  else match pp_Providers pack with
  | [] => Fail (HkNoProviders name)
  | providers =>
    match eh_providerPacks h !! name with
    | Some _ => Fail (HkExists name)
    | None => Ok (mkHooks (<[name := mkProviderPack name providers]> (eh_providerPacks h)) (eh_capabilityPacks h) (eh_bundles h))
    end
  end.

Definition RegisterCapabilityPack (h : ExtensionHooks) (pack : CapabilityDescriptorPack) : outcome hooks_error ExtensionHooks :=
  let name := TrimSpace (cp_Name pack) in
  let providerID := lowerTrim (cp_ProviderID pack) in
  if String.eqb name "" then Fail HkNameRequired
  else if String.eqb providerID "" then Fail (HkProviderIDRequired name)
  else match cp_Descriptors pack with
  | [] => Fail (HkNoDescriptors name)
  | descriptors =>
    match eh_capabilityPacks h !! name with
    | Some _ => Fail (HkExists name)
    | None => Ok (mkHooks (eh_providerPacks h) (<[name := mkCapabilityPack name providerID descriptors]> (eh_capabilityPacks h)) (eh_bundles h))
    end
  end.

Definition RegisterCommandQueryBundle (h : ExtensionHooks) (name : string) (factory : option BundleFactory) : outcome hooks_error ExtensionHooks :=
  let name := TrimSpace name in
  if String.eqb name "" then Fail HkNameRequired
  else match factory with
  | None => Fail (HkFactoryRequired name)
  | Some factory =>
    match eh_bundles h !! name with
    | Some _ => Fail (HkExists name)
    | None => Ok (mkHooks (eh_providerPacks h) (eh_capabilityPacks h) (<[name := factory]> (eh_bundles h)))
    end
  end.

(** ** Reading *)

Definition sorted_keys {A : Type} (m : gmap string A) : list string := sortStrings (map_range m).*1.
Definition BundleNames (h : ExtensionHooks) : list string := sorted_keys (eh_bundles h).
Definition ProviderPacks (h : ExtensionHooks) : list ProviderPack := omap (λ name, eh_providerPacks h !! name) (sorted_keys (eh_providerPacks h)).
Definition CapabilityDescriptors (h : ExtensionHooks) (providerID : string) : list CapabilityDescriptor :=
  let names := sortStrings (filter (λ kv, cp_ProviderID kv.2 = lowerTrim providerID) (map_range (eh_capabilityPacks h))).*1 in
  names ≫= λ name, match eh_capabilityPacks h !! name with Some pack => cp_Descriptors pack | None => [] end.

(** ** Application *)

(** The registry keeps what was registered before an error. *)
Fixpoint register_pack (name : string) (providers : list (option Provider)) (r : ProviderRegistry) : outcome hooks_error unit * ProviderRegistry :=
  match providers with
  | [] => (Ok tt, r)
  | None :: _ => (Fail (HkNilProvider name), r)
  | Some p :: rest => match Registry_Register r (Some p) with Fail e => (Fail (HkRegister e), r) | Ok r => register_pack name rest r end
  end.
Fixpoint register_packs (packs : list ProviderPack) (r : ProviderRegistry) : outcome hooks_error unit * ProviderRegistry :=
  match packs with
  | [] => (Ok tt, r)
  | pack :: rest => match register_pack (pp_Name pack) (pp_Providers pack) r with (Fail e, r) => (Fail e, r) | (Ok _, r) => register_packs rest r end
  end.
(** Hooks that are nil apply nothing. *)
Definition ApplyProviderPacks (h : option ExtensionHooks) (r : ProviderRegistry) : outcome hooks_error unit * ProviderRegistry :=
  match h with None => (Ok tt, r) | Some h => register_packs (ProviderPacks h) r end.

Fixpoint build_bundles (factories : gmap string BundleFactory) (names : list string) (service : S) (result : gmap string B) : outcome hooks_error (gmap string B) :=
  match names with
  | [] => Ok result
  | name :: rest =>
    match factories !! name with
    | None => build_bundles factories rest service result
    | Some factory => match factory service with Fail e => Fail (HkFactory e) | Ok bundle => build_bundles factories rest service (<[name := bundle]> result) end
    end
  end.
Definition BuildCommandQueryBundles (h : option ExtensionHooks) (service : option S) : outcome hooks_error (gmap string B) :=
  match h with
  | None => Ok ∅
  | Some h => match service with None => Fail HkServiceRequired | Some service => build_bundles (eh_bundles h) (BundleNames h) service ∅ end
  end.

(** ** The order of registration *)

(** What the hooks become when packs are registered one after the other; a refused pack leaves them as they are. *)
Definition register_all (h : ExtensionHooks) (packs : list ProviderPack) : ExtensionHooks :=
  foldl (λ h pack, match RegisterProviderPack h pack with Ok h => h | Fail _ => h end) h packs.
Definition pack_entry (pack : ProviderPack) : string * ProviderPack := (TrimSpace (pp_Name pack), mkProviderPack (TrimSpace (pp_Name pack)) (pp_Providers pack)).
Definition usable_pack (pack : ProviderPack) : Prop := blank (pp_Name pack) = false ∧ pp_Providers pack ≠ [].

Lemma register_usable h pack (Hu : usable_pack pack) (Hn : eh_providerPacks h !! TrimSpace (pp_Name pack) = None) :
  RegisterProviderPack h pack = Ok (mkHooks (<[(pack_entry pack).1 := (pack_entry pack).2]> (eh_providerPacks h)) (eh_capabilityPacks h) (eh_bundles h)).
Proof.
  destruct Hu as [Hb Hp]. unfold RegisterProviderPack. unfold blank in Hb. rewrite Hb. destruct (pp_Providers pack) eqn:E; [congruence|]. rewrite Hn. unfold pack_entry. rewrite E. reflexivity.
Qed.
Lemma register_all_usable packs h :
  Forall usable_pack packs → NoDup (TrimSpace ∘ pp_Name <$> packs) → (∀ pack, pack ∈ packs → eh_providerPacks h !! TrimSpace (pp_Name pack) = None) →
  register_all h packs = mkHooks (list_to_map (pack_entry <$> packs) ∪ eh_providerPacks h) (eh_capabilityPacks h) (eh_bundles h).
Proof.
  revert h. induction packs as [|pack packs IH]; intros h Hu Hnd Hfresh.
  { destruct h as [p c b]. cbn. rewrite (left_id_L ∅ (∪)). reflexivity. }
  apply Forall_cons in Hu as [Hu Hus]. cbn in Hnd. apply NoDup_cons in Hnd as [Hni Hnd].
  assert (Hn : eh_providerPacks h !! TrimSpace (pp_Name pack) = None) by (apply Hfresh; left).
  cbn [register_all foldl]. fold (register_all h packs). rewrite (register_usable h pack Hu Hn).
  change (foldl _ ?h' packs) with (register_all h' packs). rewrite IH; [|assumption|assumption|].
  - cbn [eh_providerPacks eh_capabilityPacks eh_bundles]. f_equal. change (pack_entry <$> pack :: packs) with (((pack_entry pack).1, (pack_entry pack).2) :: (pack_entry <$> packs)). rewrite list_to_map_cons.
    rewrite <-insert_union_l, insert_union_r; [reflexivity|]. apply not_elem_of_list_to_map_1. rewrite <-list_fmap_compose. exact Hni.
  - intros q Hq. cbn [eh_providerPacks pack_entry fst]. rewrite lookup_insert_ne; [apply Hfresh; by right|].
    intros E. apply Hni. rewrite E. apply list_elem_of_fmap. exists q. split; [reflexivity|exact Hq].
Qed.

(** Packs of different names may be registered in any order: the hooks become the same, and so does the registry they are applied to, with the same error if there is one. *)
Theorem packs_in_any_order (packs packs' : list ProviderPack) (r : ProviderRegistry)
    (Hperm : packs ≡ₚ packs') (Hu : Forall usable_pack packs) (Hnd : NoDup (TrimSpace ∘ pp_Name <$> packs)) :
  register_all NewExtensionHooks packs = register_all NewExtensionHooks packs' ∧
  ApplyProviderPacks (Some (register_all NewExtensionHooks packs)) r = ApplyProviderPacks (Some (register_all NewExtensionHooks packs')) r.
Proof.
  assert (H : register_all NewExtensionHooks packs = register_all NewExtensionHooks packs').
  { assert (Hu' : Forall usable_pack packs') by (by rewrite <-Hperm). assert (Hnd' : NoDup (TrimSpace ∘ pp_Name <$> packs')) by (by rewrite <-Hperm).
    rewrite (register_all_usable packs), (register_all_usable packs'); try assumption; try (intros; apply lookup_empty).
    f_equal. f_equal. apply list_to_map_proper; [|by rewrite Hperm]. rewrite <-list_fmap_compose. exact Hnd. }
  split; [exact H|]. by rewrite H.
Qed.

(** ** What an application registers *)

Lemma register_grows r p r' : Registry_Register r (Some p) = Ok r' → r ⊆ r' ∧ Registry_Get r' (prov_ID p) = Some p.
Proof.
  unfold Registry_Register, Registry_Get. destruct (String.eqb (TrimSpace (prov_ID p)) "") eqn:E; [discriminate|]. case_match eqn:El; [discriminate|]. intros [= <-].
  split; [by apply insert_subseteq|apply lookup_insert_eq].
Qed.
Lemma register_pack_grows name providers r o r' : register_pack name providers r = (o, r') →
  r ⊆ r' ∧ (o = Ok tt → ∀ p, p ∈ providers → ∃ q, p = Some q ∧ Registry_Get r' (prov_ID q) = Some q).
Proof.
  revert r. induction providers as [|[p|] providers IH]; intros r; cbn [register_pack].
  - intros [= <- <-]. split; [reflexivity|]. intros _ p Hp. by apply not_elem_of_nil in Hp.
  - destruct (Registry_Register r (Some p)) as [r1|e] eqn:E; [|intros [= <- <-]; split; [reflexivity|discriminate]].
    intros Hr. apply register_grows in E as [Hsub Hget]. destruct (IH _ Hr) as [Hs Hin]. split; [by etransitivity|].
    intros Ho q Hq. apply elem_of_cons in Hq as [->|Hq]; [|by apply Hin]. exists p. split; [reflexivity|].
    unfold Registry_Get in *. destruct (String.eqb _ ""); [discriminate|]. by eapply lookup_weaken.
  - intros [= <- <-]. split; [reflexivity|discriminate].
Qed.
Lemma register_packs_grows packs r o r' : register_packs packs r = (o, r') →
  r ⊆ r' ∧ (o = Ok tt → ∀ pack p, pack ∈ packs → p ∈ pp_Providers pack → ∃ q, p = Some q ∧ Registry_Get r' (prov_ID q) = Some q).
Proof.
  revert r. induction packs as [|pack packs IH]; intros r; cbn [register_packs].
  { intros [= <- <-]. split; [reflexivity|]. intros _ pack p Hp. by apply not_elem_of_nil in Hp. }
  destruct (register_pack (pp_Name pack) (pp_Providers pack) r) as [[[]|e] r1] eqn:E; apply register_pack_grows in E as [Hsub Hin];
    [|intros [= <- <-]; split; [exact Hsub|discriminate]].
  intros Hr. destruct (IH _ Hr) as [Hs Hrest]. split; [by etransitivity|]. intros Ho pk p Hpk Hp. apply elem_of_cons in Hpk as [->|Hpk]; [|by eapply Hrest].
  destruct (Hin eq_refl p Hp) as (q & -> & Hq). exists q. split; [reflexivity|].
  unfold Registry_Get in *. destruct (String.eqb _ ""); [discriminate|]. by eapply lookup_weaken.
Qed.

(** Applying the packs never replaces a provider, and if it succeeds every provider of every pack is found under its id. *)
Theorem packs_applied (h : ExtensionHooks) (r r' : ProviderRegistry) (o : outcome hooks_error unit) (Happ : ApplyProviderPacks (Some h) r = (o, r')) :
  r ⊆ r' ∧ (o = Ok tt → ∀ name pack p, eh_providerPacks h !! name = Some pack → p ∈ pp_Providers pack → ∃ q, p = Some q ∧ Registry_Get r' (prov_ID q) = Some q).
Proof.
  destruct (register_packs_grows _ _ _ _ Happ) as [Hsub Hin]. split; [exact Hsub|]. intros Ho name pack p Hpack Hp. apply (Hin Ho pack p); [|exact Hp].
  apply list_elem_of_omap. exists name. split; [|exact Hpack]. unfold sorted_keys. rewrite elem_of_sortStrings, map_range_perm. apply list_elem_of_fmap.
  exists (name, pack). split; [reflexivity|]. by apply elem_of_map_to_list.
Qed.
End hooks.

(** ** Two packs *)

Module ExtensionsExample.
#[local] Instance demo_MapRange : MapRange := key_order_range.
Definition github := Permissions.mkProvider "github" [].
Definition gitlab := Permissions.mkProvider "gitlab" [].
Definition pack_b := mkProviderPack " b " [Some github].
Definition pack_a := mkProviderPack "a" [Some gitlab; Some github].

Lemma packs_in_any_order_witness : register_all (S := unit) (B := unit) NewExtensionHooks [pack_b; pack_a] = register_all NewExtensionHooks [pack_a; pack_b].
Proof.
  apply (packs_in_any_order [pack_b; pack_a] [pack_a; pack_b] ∅).
  - apply perm_swap.
  - repeat constructor; try discriminate; vm_compute; reflexivity.
  - apply (bool_decide_unpack _). vm_compute. exact I.
Defined.
Definition applied := ApplyProviderPacks (S := unit) (B := unit) (Some (register_all NewExtensionHooks [pack_b])) ∅.
Lemma packs_applied_witness : Registry_Get applied.2 "github" = Some github.
Proof.
  destruct (packs_applied (S := unit) (B := unit) (register_all NewExtensionHooks [pack_b]) ∅ applied.2 applied.1 (surjective_pairing _)) as [_ H].
  destruct (H ltac:(vm_compute; reflexivity) "b" (mkProviderPack "b" [Some github]) (Some github)) as (q & Hs & Hq); [vm_compute; reflexivity|left|].
  injection Hs as <-. exact Hq.
Defined.

(** A pack whose second provider is registered already fails, and leaves its first provider in the registry. *)
Example applied_in_part :
  let '(o, r) := ApplyProviderPacks (S := unit) (B := unit) (Some (register_all NewExtensionHooks [pack_a])) {["github" := github]} in
  o = Fail (HkRegister (RegErrExists "github")) ∧ Registry_Get r "gitlab" = Some gitlab.
Proof. vm_compute. split; reflexivity. Qed.
End ExtensionsExample.
