(* ===== verification/Migrations.v ===== *)
(** * Migrations (src/migrations)

    The file systems of the SQL migrations, their registration with a migration tool, and the check that a database has the tables.  A file system is the list of its
    files; the embedded one, the tool and the database are arguments. *)

From S2P Require Import Prelude GoStrings GoHTTP.
From Stdlib Require Import ZArith String Ascii Lia.
From stdpp Require Import base decidable list gmap strings sorting.

Local Open Scope string_scope.
Local Open Scope list_scope.

(** ** File systems (io/fs) *)

(** The paths of the files, with slashes between the names. *)
Abbreviation FS := (list string).
(** [fs.Sub]: a valid path that does not exist is no error, but gives a file system without files. *)
Definition fs_Sub (fsys : FS) (dir : string) : outcome string FS :=
  Ok ((λ p, TrimPrefix p (dir +:+ "/")) <$> filter (λ p, HasPrefix p (dir +:+ "/") = true) fsys).
(** The files directly in the root, and the pattern that matches those of a suffix. *)
Definition top_files (fsys : FS) : list string := filter (λ p, Contains p "/" = false) fsys.
Definition fs_Glob_suffix (fsys : FS) (suffix : string) : list string := filter (λ p, HasSuffix p suffix = true) (top_files fsys).

(** ** Registration (src/migrations/registry.go) *)

Definition DialectPostgres := "postgres".
Definition DialectSQLite := "sqlite".
Definition SourceLabel := "go-services".
Definition migrations_path := "data/sql/migrations".

(** A file system may be nil. *)
Record FilesystemSpec := mkFilesystem { fs_Dialect : string; fs_Path : string; fs_FS : option FS }.
Record Registration := mkRegistration { rg_SourceLabel : string; rg_ValidationTargets : list string; rg_Filesystems : list FilesystemSpec }.

Inductive migration_error :=
| MgNotFound (text : string) | MgNoFiles (dialect path : string) | MgTargetsRequired | MgLabelRequired | MgFilesystemsRequired | MgRegisterRequired
| MgNoFilesystem (target : string) | MgNilFilesystem (dialect : string) | MgRegister (dialect path text : string)
| MgUnsupportedDialect (dialect : string) | MgNilDB | MgQuery (dialect text : string) | MgMissingTables (tables : string).

Definition dedupe (values : list string) : list string :=
  foldl (λ out v, let trimmed := lowerTrim v in if String.eqb trimmed "" || bool_decide (trimmed ∈ out) then out else out ++ [trimmed]) [] values.
Definition pathJoin (base suffix : string) : string := if String.eqb base "." then suffix else TrimSuffix base "/" +:+ "/" +:+ TrimPrefix suffix "/".

Definition Option := (Registration → Registration).
Definition WithDialectSourceLabel (label : string) : Option :=
  λ r, if blank label then r else mkRegistration (TrimSpace label) (rg_ValidationTargets r) (rg_Filesystems r).
Definition WithValidationTargets (targets : list string) : Option :=
  λ r, match filter (λ t, t ≠ "") (lowerTrim <$> targets) with [] => r | next => mkRegistration (rg_SourceLabel r) (dedupe next) (rg_Filesystems r) end.
Definition WithFilesystems (filesystems : list FilesystemSpec) : Option :=
  λ r, match filter (λ f, fs_Dialect f ≠ "" ∧ fs_FS f ≠ None) ((λ f, mkFilesystem (lowerTrim (fs_Dialect f)) (fs_Path f) (fs_FS f)) <$> filesystems) with
       | [] => r | copied => mkRegistration (rg_SourceLabel r) (rg_ValidationTargets r) copied end.

Definition migrationsRoot (root : FS) : outcome migration_error (FS * string) :=
  match fs_Sub root migrations_path with
  | Ok sub => Ok (sub, migrations_path)
  | Fail err => if existsb (λ p, HasSuffix p ".sql") (top_files root) then Ok (root, ".") else Fail (MgNotFound err)
  end.

Fixpoint check_filesystems (l : list FilesystemSpec) : option migration_error :=
  match l with
  | [] => None
  | f :: rest => match fs_Glob_suffix (default [] (fs_FS f)) ".up.sql" with [] => Some (MgNoFiles (fs_Dialect f) (fs_Path f)) | _ => check_filesystems rest end
  end.
Definition Filesystems (root : FS) : outcome migration_error (list FilesystemSpec) :=
  match migrationsRoot root with
  | Fail err => Fail err
  | Ok (base, basePath) =>
    match fs_Sub base "sqlite" with
    | Fail err => Fail (MgNotFound err)
    | Ok sqliteFS =>
      let filesystems := [mkFilesystem DialectPostgres basePath (Some base); mkFilesystem DialectSQLite (pathJoin basePath "sqlite") (Some sqliteFS)] in
      match check_filesystems filesystems with Some err => Fail err | None => Ok filesystems end
    end
  end.

(** What the tool was called with: the dialect, the label and the file system. *)
Abbreviation register_call := (string * string * FS)%type.
Abbreviation RegisterFunc := (register_call → option string).

Fixpoint register_filesystems (fn : RegisterFunc) (label : string) (targets : list string) (l : list FilesystemSpec) : option migration_error * list register_call :=
  match l with
  | [] => (None, [])
  | f :: rest =>
    if negb (bool_decide (fs_Dialect f ∈ targets)) then register_filesystems fn label targets rest
    else match fs_FS f with
    | None => (Some (MgNilFilesystem (fs_Dialect f)), [])
    | Some files =>
      let call := (fs_Dialect f, label, files) in
      match fn call with
      | Some err => (Some (MgRegister (fs_Dialect f) (fs_Path f) err), [call])
      | None => let '(err, calls) := register_filesystems fn label targets rest in (err, call :: calls)
      end
    end
  end.

(** The registration as it stands, the error if there is one, and the calls that were made; [root] is the embedded file system. *)
Definition Register (root : FS) (fn : option RegisterFunc) (opts : list Option) : Registration * option migration_error * list register_call :=
  let reg := mkRegistration SourceLabel [DialectPostgres; DialectSQLite] [] in
  match Filesystems root with
  | Fail err => (reg, Some err, [])
  | Ok filesystems =>
    let reg := foldl (λ r (opt : Option), opt r) (mkRegistration SourceLabel [DialectPostgres; DialectSQLite] filesystems) opts in
    if bool_decide (rg_ValidationTargets reg = []) then (reg, Some MgTargetsRequired, [])
    else if blank (rg_SourceLabel reg) then (reg, Some MgLabelRequired, [])
    else if bool_decide (rg_Filesystems reg = []) then (reg, Some MgFilesystemsRequired, [])
    else match fn with
    | None => (reg, Some MgRegisterRequired, [])
    | Some fn =>
      let label := TrimSpace (rg_SourceLabel reg) in
      let targets := dedupe (rg_ValidationTargets reg) in
      if bool_decide (targets = []) then (mkRegistration label (rg_ValidationTargets reg) (rg_Filesystems reg), Some MgTargetsRequired, [])
      else
        let reg := mkRegistration label targets (rg_Filesystems reg) in
        match filter (λ t, t ∉ fs_Dialect <$> rg_Filesystems reg) targets with
        | target :: _ => (reg, Some (MgNoFilesystem target), [])
        | [] => let '(err, calls) := register_filesystems fn label targets (rg_Filesystems reg) in (reg, err, calls)
        end
    end
  end.

(** ** Tables (src/migrations/schema.go, source_descriptor.go) *)

Definition requiredSQLTables : list string :=
  ["service_activity_entries"; "service_connections"; "service_credentials"; "service_events"; "service_grant_events"; "service_grant_snapshots"; "service_identity_bindings";
   "service_installations"; "service_lifecycle_outbox"; "service_mapping_specs"; "service_notification_dispatches"; "service_rate_limit_state"; "service_subscriptions";
   "service_sync_bindings"; "service_sync_change_log"; "service_sync_checkpoints"; "service_sync_conflicts"; "service_sync_cursors"; "service_sync_job_idempotency";
   "service_sync_jobs"; "service_webhook_deliveries"].
Definition requiredOAuthStorageTables : list string := ["service_connections"; "service_credentials"; "service_grant_events"; "service_grant_snapshots"].

Definition normalizeDialect (dialect : string) : outcome migration_error string :=
  let d := ToLower (TrimSpace dialect) in
  if bool_decide (d ∈ ["pg"; "postgres"; "postgresql"]) then Ok DialectPostgres
  else if bool_decide (d ∈ ["sqlite"; "sqlite3"]) then Ok DialectSQLite
  else Fail (MgUnsupportedDialect dialect).

(** A database: the name of its dialect, and the tables it lists for the query of a dialect. *)
Record Database := mkDatabase { db_Dialect : string; db_tables : string → outcome string (list string) }.
Definition existingTables (db : Database) (dialect : string) : outcome migration_error (gset string) :=
  if String.eqb dialect DialectSQLite || String.eqb dialect DialectPostgres then
    match db_tables db dialect with Fail err => Fail (MgQuery dialect err) | Ok rows => Ok (list_to_set rows) end
  else Fail (MgUnsupportedDialect dialect).
Definition verifyRequiredTables (db : option Database) (required : list string) : option migration_error :=
  match db with
  | None => Some MgNilDB
  | Some db =>
    match normalizeDialect (db_Dialect db) with
    | Fail err => Some err
    | Ok dialect =>
      match existingTables db dialect with
      | Fail err => Some err
      | Ok existing => match filter (λ t, t ∉ existing) required with [] => None | missing => Some (MgMissingTables (GoHTTP.Join ", " (sortStrings missing))) end
      end
    end
  end.
Definition VerifySQLSchema (db : option Database) : option migration_error := verifyRequiredTables db requiredSQLTables.
Definition VerifyOAuthStorageSchema (db : option Database) : option migration_error := verifyRequiredTables db requiredOAuthStorageTables.

Record SourceDescriptor := mkDescriptor { sd_Name : string; sd_Key : string; sd_Label : string; sd_Dialect : string; sd_Root : option FS; sd_ValidationTargets : list string }.
Definition SourceDescriptorForDialect (root : FS) (dialect : string) : outcome migration_error SourceDescriptor :=
  match normalizeDialect dialect with
  | Fail err => Fail err
  | Ok normalized =>
    match Filesystems root with
    | Fail err => Fail err
    | Ok filesystems =>
      match list_find (λ f, fs_Dialect f = normalized) filesystems with
      | Some (_, f) => Ok (mkDescriptor SourceLabel SourceLabel SourceLabel normalized (fs_FS f) [normalized])
      | None => Fail (MgNoFilesystem normalized)
      end
    end
  end.

(** ** What is registered *)

Lemma register_filesystems_ok fn label targets l calls :
  register_filesystems fn label targets l = (None, calls) →
  calls = (λ f, (fs_Dialect f, label, default [] (fs_FS f))) <$> filter (λ f, fs_Dialect f ∈ targets) l ∧ Forall (λ call, fn call = None) calls.
Proof.
  revert calls. induction l as [|f l IH]; intros calls; cbn [register_filesystems]; [intros [= <-]; split; [reflexivity|constructor]|].
  case_bool_decide as Hin; cbn [negb].
  - rewrite filter_cons_True by exact Hin. destruct (fs_FS f) as [files|] eqn:Hf; [|discriminate]. destruct (fn _) eqn:Hfn; [discriminate|].
    destruct (register_filesystems fn label targets l) as [[err|] rest]; [discriminate|]. intros [= <-]. destruct (IH rest eq_refl) as [-> Hrest].
    split; [cbn; rewrite Hf; reflexivity|]. constructor; assumption.
  - rewrite filter_cons_False by exact Hin. apply IH.
Qed.

(** A successful registration calls the tool once for each file system of a dialect that was asked for, in order and with the label, and for every dialect that was asked for;
    no call failed. *)
Theorem migrations_registered (root : FS) (fn : RegisterFunc) (opts : list Option) (reg : Registration) (calls : list register_call)
    (Hok : Register root (Some fn) opts = (reg, None, calls)) :
  calls = (λ f, (fs_Dialect f, rg_SourceLabel reg, default [] (fs_FS f))) <$> filter (λ f, fs_Dialect f ∈ rg_ValidationTargets reg) (rg_Filesystems reg) ∧
  (∀ target, target ∈ rg_ValidationTargets reg → ∃ files, (target, rg_SourceLabel reg, files) ∈ calls) ∧ Forall (λ call, fn call = None) calls.
Proof.
  unfold Register in Hok. destruct (Filesystems root) as [filesystems|]; [|discriminate].
  set (r := foldl _ _ opts) in Hok. case_bool_decide; [discriminate|]. destruct (blank _); [discriminate|]. case_bool_decide; [discriminate|]. case_bool_decide; [discriminate|].
  destruct (filter _ _) as [|target rest] eqn:Hf; [|discriminate].
  destruct (register_filesystems _ _ _ _) as [err calls'] eqn:Hr. injection Hok as <- -> ->.
  cbn [rg_SourceLabel rg_ValidationTargets rg_Filesystems] in *. apply register_filesystems_ok in Hr as [-> Hall]. split; [reflexivity|]. split; [|exact Hall].
  intros target Ht. destruct (decide (target ∈ fs_Dialect <$> rg_Filesystems r)) as [Hd|Hd].
  - apply list_elem_of_fmap in Hd as (f & -> & Hin). exists (default [] (fs_FS f)). apply list_elem_of_fmap. exists f. split; [reflexivity|]. apply list_elem_of_filter. split; assumption.
  - exfalso. assert (Hin : target ∈ filter (λ t, t ∉ fs_Dialect <$> rg_Filesystems r) (dedupe (rg_ValidationTargets r))) by (apply list_elem_of_filter; split; assumption).
    rewrite Hf in Hin. by apply not_elem_of_nil in Hin.
Qed.

Lemma checked_filesystem l f : check_filesystems l = None → f ∈ l → fs_Glob_suffix (default [] (fs_FS f)) ".up.sql" ≠ [].
Proof. induction l as [|g l IH]; intros H Hin; [by apply not_elem_of_nil in Hin|]. cbn in H. case_match eqn:Hg; [discriminate|]. apply elem_of_cons in Hin as [->|Hin]; [by rewrite Hg|by apply IH]. Qed.
(** The source of a dialect, by any of its names, has a migration to run. *)
Theorem source_has_migrations (root : FS) (dialect : string) (s : SourceDescriptor) (Hok : SourceDescriptorForDialect root dialect = Ok s) :
  (sd_Dialect s = DialectPostgres ∨ sd_Dialect s = DialectSQLite) ∧ sd_ValidationTargets s = [sd_Dialect s] ∧
  ∃ files name, sd_Root s = Some files ∧ name ∈ files ∧ HasSuffix name ".up.sql" = true.
Proof.
  unfold SourceDescriptorForDialect in Hok. destruct (normalizeDialect dialect) as [d|] eqn:Hd; [|discriminate]. destruct (Filesystems root) as [l|] eqn:Hl; [|discriminate].
  destruct (list_find _ l) as [[i f]|] eqn:Hf; [|discriminate]. injection Hok as <-. cbn. split; [|split; [reflexivity|]].
  { unfold normalizeDialect in Hd. repeat case_bool_decide; simplify_eq; auto. }
  apply list_find_Some in Hf as (Hi & _ & _). apply list_elem_of_lookup_2 in Hi.
  unfold Filesystems in Hl. destruct (migrationsRoot root) as [[base path]|]; [|discriminate]. cbn [fs_Sub] in Hl. destruct (check_filesystems _) eqn:Hc; [discriminate|]. injection Hl as <-.
  pose proof (checked_filesystem _ f Hc Hi) as Hg. assert (Hs : ∃ files, fs_FS f = Some files).
  { apply elem_of_cons in Hi as [->|Hi]; [eexists; reflexivity|]. apply elem_of_cons in Hi as [->|Hi]; [eexists; reflexivity|by apply not_elem_of_nil in Hi]. }
  destruct Hs as [files Hs]. rewrite Hs in Hg |- *. change (default [] (Some files)) with files in Hg. destruct (fs_Glob_suffix files ".up.sql") as [|name rest] eqn:Hgl; [congruence|].
  assert (Hin : name ∈ fs_Glob_suffix files ".up.sql") by (rewrite Hgl; left). unfold fs_Glob_suffix, top_files in Hin. apply list_elem_of_filter in Hin as [Hsuf Hin].
  apply list_elem_of_filter in Hin as [_ Hin]. exists files, name. auto.
Qed.

(** ** What is verified *)

Lemma verified_spec db required : verifyRequiredTables (Some db) required = None ↔
  ∃ dialect rows, normalizeDialect (db_Dialect db) = Ok dialect ∧ db_tables db dialect = Ok rows ∧ ∀ t, t ∈ required → t ∈ rows.
Proof.
  unfold verifyRequiredTables. destruct (normalizeDialect (db_Dialect db)) as [d|] eqn:Hd; [|split; [discriminate|intros (? & ? & ? & _); discriminate]].
  unfold existingTables. assert (Hb : String.eqb d DialectSQLite || String.eqb d DialectPostgres = true).
  { unfold normalizeDialect in Hd. repeat case_bool_decide; simplify_eq; reflexivity. }
  rewrite Hb. destruct (db_tables db d) as [rows|] eqn:Ht; [|split; [discriminate|intros (d' & rows & [= <-] & Hr & _); congruence]].
  split.
  - intros Hn. exists d, rows. repeat split; [exact Ht|]. intros t Hin. destruct (filter _ required) as [|m ms] eqn:Hf; [|discriminate].
    destruct (decide (t ∈ rows)) as [|Hnot]; [assumption|]. exfalso.
    assert (Hm : t ∈ filter (λ t, t ∉ (list_to_set rows : gset string)) required) by (apply list_elem_of_filter; split; [by rewrite elem_of_list_to_set|exact Hin]).
    rewrite Hf in Hm. by apply not_elem_of_nil in Hm.
  - intros (d' & rows' & [= <-] & Hr & Hall). rewrite Ht in Hr. injection Hr as <-.
    destruct (filter _ required) as [|m ms] eqn:Hf; [reflexivity|]. exfalso.
    assert (Hm : m ∈ filter (λ t, t ∉ (list_to_set rows : gset string)) required) by (rewrite Hf; left).
    apply list_elem_of_filter in Hm as [Hn Hm]. rewrite elem_of_list_to_set in Hn. by apply Hn, Hall.
Qed.

(** A schema is verified exactly if the database lists every required table, and a complete schema has the tables of the authorization flows. *)
Theorem schema_verified (db : Database) :
  (VerifySQLSchema (Some db) = None ↔
   ∃ dialect rows, normalizeDialect (db_Dialect db) = Ok dialect ∧ db_tables db dialect = Ok rows ∧ ∀ t, t ∈ requiredSQLTables → t ∈ rows) ∧
  (VerifySQLSchema (Some db) = None → VerifyOAuthStorageSchema (Some db) = None).
Proof.
  split; [apply verified_spec|]. unfold VerifySQLSchema, VerifyOAuthStorageSchema. rewrite !verified_spec. intros (d & rows & Hd & Hr & Hall). exists d, rows. repeat split; [assumption|assumption|].
  intros t Ht. apply Hall. assert (Hs : Forall (λ t, t ∈ requiredSQLTables) requiredOAuthStorageTables) by (apply (bool_decide_unpack _); vm_compute; exact I).
  rewrite Forall_forall in Hs. by apply Hs.
Qed.

(** ** Two trees *)

Module MigrationsExample.
Definition tree : FS := ["data/sql/migrations/1_init.up.sql"; "data/sql/migrations/1_init.down.sql"; "data/sql/migrations/sqlite/1_init.up.sql"].
Definition only_sqlite := WithValidationTargets [" SQLite "].
Lemma migrations_registered_witness : Register tree (Some (λ _, None)) [only_sqlite] = ((Register tree (Some (λ _, None)) [only_sqlite]).1.1, None, [("sqlite", "go-services", ["1_init.up.sql"])]) ∧
  ∃ files, ("sqlite", "go-services", files) ∈ [("sqlite", "go-services", ["1_init.up.sql"])].
Proof.
  assert (H : Register tree (Some (λ _, None)) [only_sqlite] = ((Register tree (Some (λ _, None)) [only_sqlite]).1.1, None, [("sqlite", "go-services", ["1_init.up.sql"])])) by (vm_compute; reflexivity).
  split; [exact H|]. destruct (migrations_registered _ _ _ _ _ H) as (_ & Hall & _). apply (Hall "sqlite"). vm_compute. left.
Defined.
Lemma source_has_migrations_witness : ∃ s, SourceDescriptorForDialect tree "pg" = Ok s ∧ sd_ValidationTargets s = [sd_Dialect s].
Proof. eexists. split; [vm_compute; reflexivity|]. apply (source_has_migrations tree "pg"). vm_compute. reflexivity. Defined.

(** Migrations at the root of a tree are not found: [fs.Sub] of a path that does not exist is no error, and the other branch of [migrationsRoot] is not taken. *)
Example flat_tree_refused : Filesystems ["1_init.up.sql"; "sqlite/1_init.up.sql"] = Fail (MgNoFiles "postgres" "data/sql/migrations").
Proof. vm_compute. reflexivity. Qed.
End MigrationsExample.
