(* ===== verification/Observability.v ===== *)
(** * Observability (src/core/observability.go, the event store of src/store/sql/event_stores.go)

    What the service tells of an operation that ended: a counter, a histogram and a line of the log, and the events a store keeps.  The metrics recorder, the logger and
    what the errors library knows of an error beyond its envelope are arguments; the observations are a list. *)

From S2P Require Import Prelude GoStrings GoValues Domain Contracts Errors Grants ProviderOps.
From Stdlib Require Import ZArith String Lia.
From stdpp Require Import base decidable list gmap strings sorting.

Local Open Scope string_scope.
Local Open Scope list_scope.

(** ** Operations *)

Inductive observation :=
| Counter (name : string) (v : Z) (tags : gmap string string)
| Histogram (name : string) (v : Z) (tags : gmap string string)
| LogLine (error : bool) (message : string) (fields : gmap string value) (args : list (string * value)).

(** Whether the service has a metrics recorder and a logger. *)
Record observers := mkObservers { ob_metrics : bool; ob_logger : bool }.

(** What the errors library gives besides the envelope. *)
Record error_details := mkDetails { ed_RequestID : string; ed_Severity : string; ed_Location : option string; ed_Validation : option value }.

Section observe.
Context {MR : MapRange}.
Variable category_text : Category → string.
Variable details : RichError → error_details.

Definition flattenFields (fields : gmap string value) : list (string * value) := (λ k, (k, mapGet fields k)) <$> sortStrings (map_range fields).*1.

Definition firstNonEmptyString (fields : gmap string value) (keys : list string) : string :=
  if bool_decide (fields = ∅) then ""
  else default "" (head (filter (λ v, v ≠ "" ∧ v ≠ "<nil>") ((λ k, TrimSpace (Sprint (mapGet fields k))) <$> keys))).

Definition put_text (key text : string) (fields : gmap string value) : gmap string value := if String.eqb text "" then fields else <[key := VString text]> fields.

(** The fields, and the request id that the error is given. *)
Definition enrichErrorFields (fields : gmap string value) (err : GoError) : gmap string value * option string :=
  match err_Rich err with
  | None => (fields, None)
  | Some rich =>
    let d := details rich in
    let fields := put_text "error_category" (category_text (re_Category rich)) fields in
    let fields := if (re_Code rich =? 0)%Z then fields else <["error_code" := VInt IntK (re_Code rich)]> fields in
    let fields := put_text "error_text_code" (TrimSpace (re_TextCode rich)) fields in
    let fields := <["error_severity" := VString (ed_Severity d)]> fields in
    let fields := match ed_Location d with Some loc => <["error_location" := VString loc]> fields | None => fields end in
    let own := TrimSpace (ed_RequestID d) in
    let found := firstNonEmptyString fields ["request_id"; "trace_id"] in
    let found := if String.eqb found "" then firstNonEmptyString (re_Metadata rich) ["request_id"; "trace_id"] else found in
    let requestID := if String.eqb own "" then found else own in
    let assigned := if String.eqb own "" && negb (String.eqb found "") then Some found else None in
    let fields := put_text "request_id" requestID fields in
    let fields := match ed_Validation d with Some v => <["error_validation_errors" := v]> fields | None => fields end in
    if bool_decide (re_Metadata rich = ∅) then (fields, assigned)
    else
      let fields := <["error_metadata" := VMap (RedactSensitiveMap (re_Metadata rich))]> fields in
      match fields !! "trace_id" with
      | Some _ => (fields, assigned)
      | None => (put_text "trace_id" (firstNonEmptyString (re_Metadata rich) ["trace_id"]) fields, assigned)
      end
  end.

Definition operation_fields (operation : string) (elapsed : Z) (err : option GoError) (fields : gmap string value) : gmap string value :=
  let fields := <["event_type" := VString operation]> fields in
  let fields := <["status" := VString (match err with Some _ => "failure" | None => "success" end)]> fields in
  let fields := <["duration_ms" := VInt Int64K elapsed]> fields in
  match err with Some e => (enrichErrorFields (<["error" := VString (err_Text e)]> fields) e).1 | None => fields end.

Definition operation_tags (operation : string) (failed : bool) (fields : gmap string value) : gmap string string :=
  foldl (λ tags key, let v := TrimSpace (Sprint (mapGet fields key)) in if String.eqb v "" || String.eqb v "<nil>" then tags else <[key := v]> tags)
    {["operation" := operation; "status" := if failed then "failure" else "success"]} ["provider_id"; "scope_type"; "scope_id"; "connection_id"].

(** [elapsed] and [elapsed'] are the two readings of the clock. *)
Definition observeOperation (o : observers) (elapsed elapsed' : Z) (operation : string) (err : option GoError) (fields : gmap string value) : list observation :=
  let operation := normalizeOperation operation in
  let operation := if String.eqb operation "" then "unknown" else operation in
  let fields := operation_fields operation elapsed err fields in
  let failed := match err with Some _ => true | None => false end in
  let tags := operation_tags operation failed fields in
  (if ob_metrics o then [Counter (TrimSpace ("services." +:+ operation +:+ ".total")) 1 tags; Histogram (TrimSpace ("services." +:+ operation +:+ ".duration_ms")) elapsed' tags] else []) ++
  (if ob_logger o then [LogLine failed (operation +:+ (if failed then " failed" else " succeeded")) fields (flattenFields fields)] else []).

(** ** What is told *)

Definition reserved : list string :=
  ["event_type"; "status"; "duration_ms"; "error"; "error_category"; "error_code"; "error_text_code"; "error_severity"; "error_location"; "request_id"; "error_validation_errors";
   "error_metadata"; "trace_id"].
Lemma put_text_ne key text fields k : k ≠ key → put_text key text fields !! k = fields !! k.
Proof. intros Hk. unfold put_text. destruct (String.eqb text ""); [reflexivity|]. by apply lookup_insert_ne. Qed.
Lemma put_insert_ne key (v : value) (fields : gmap string value) k : k ≠ key → <[key := v]> fields !! k = fields !! k.
Proof. intros Hk. by apply lookup_insert_ne. Qed.
Ltac other_key Hk := repeat first [ rewrite put_text_ne by (intros ->; apply Hk; apply (bool_decide_unpack _); vm_compute; exact I)
                                  | rewrite put_insert_ne by (intros ->; apply Hk; apply (bool_decide_unpack _); vm_compute; exact I) ].
Lemma enrich_keeps fields err k : k ∉ reserved → (enrichErrorFields fields err).1 !! k = fields !! k.
Proof.
  intros Hk. unfold enrichErrorFields. destruct (err_Rich err) as [rich|]; [|reflexivity]. cbv zeta.
  generalize (firstNonEmptyString (re_Metadata rich) ["request_id"; "trace_id"]) (firstNonEmptyString (re_Metadata rich) ["trace_id"]). intros found trace.
  match goal with |- context [firstNonEmptyString ?f ?l] => generalize (firstNonEmptyString f l) end. intros found'.
  destruct (ed_Validation (details rich)), (ed_Location (details rich)), (re_Code rich =? 0)%Z; (case_bool_decide; [cbn [fst]; other_key Hk; reflexivity|]);
    (match goal with |- context [match ?m with Some _ => _ | None => _ end] => destruct m end); cbn [fst]; other_key Hk; reflexivity.
Qed.
Lemma operation_fields_keep operation elapsed err fields k : k ∉ reserved → operation_fields operation elapsed err fields !! k = fields !! k.
Proof.
  intros Hk. unfold operation_fields. destruct err as [e|].
  - rewrite (enrich_keeps _ _ _ Hk). other_key Hk. reflexivity.
  - other_key Hk. reflexivity.
Qed.
Lemma enrich_metadata fields err rich : err_Rich err = Some rich → re_Metadata rich ≠ ∅ →
  (enrichErrorFields fields err).1 !! "error_metadata" = Some (VMap (RedactSensitiveMap (re_Metadata rich))).
Proof.
  intros Hr Hm. unfold enrichErrorFields. rewrite Hr. cbv zeta. rewrite (bool_decide_eq_false_2 _ Hm). case_match; cbn [fst].
  - apply lookup_insert_eq.
  - rewrite put_text_ne by discriminate. apply lookup_insert_eq.
Qed.
Lemma flatten_spec fields : (flattenFields fields).*1 = sortStrings (map_to_list fields).*1 ∧ ∀ k v, (k, v) ∈ flattenFields fields ↔ fields !! k = Some v.
Proof.
  unfold flattenFields. split.
  - rewrite <-list_fmap_compose. replace (fst ∘ (λ k, (k, mapGet fields k))) with (@id string) by reflexivity. rewrite list_fmap_id. apply sortStrings_unique. by rewrite map_range_perm.
  - intros k v. rewrite list_elem_of_fmap. setoid_rewrite elem_of_sortStrings. setoid_rewrite map_range_perm. split.
    + intros (k' & [= -> ->] & Hin). apply list_elem_of_fmap in Hin as ([k2 v2] & -> & Hin). apply elem_of_map_to_list in Hin. cbn. unfold mapGet. rewrite Hin. reflexivity.
    + intros Hl. exists k. unfold mapGet. rewrite Hl. split; [reflexivity|]. apply list_elem_of_fmap. exists (k, v). split; [reflexivity|]. by apply elem_of_map_to_list.
Qed.

(** An operation that ended is told once to the metrics and once to the log; the line of the log has every field of the caller, less those the service sets, in the order of the
    keys; and of the metadata of an error it shows everything but what is under a sensitive key, at any depth. *)
Theorem operations_told_safely (elapsed elapsed' : Z) (operation : string) (err : option GoError) (fields : gmap string value) :
  ∃ name tags told args failed,
    observeOperation (mkObservers true true) elapsed elapsed' operation err fields =
      [Counter (TrimSpace ("services." +:+ name +:+ ".total")) 1 tags; Histogram (TrimSpace ("services." +:+ name +:+ ".duration_ms")) elapsed' tags;
       LogLine failed (name +:+ (if failed then " failed" else " succeeded")) told args] ∧
    (failed = true ↔ is_Some err) ∧
    args.*1 = sortStrings (map_to_list told).*1 ∧ (∀ k v, (k, v) ∈ args ↔ told !! k = Some v) ∧
    (∀ k, k ∉ reserved → told !! k = fields !! k) ∧
    (∀ e rich, err = Some e → err_Rich e = Some rich → re_Metadata rich ≠ ∅ →
       ∃ shown, told !! "error_metadata" = Some (VMap shown) ∧
         (∀ q k v, occurs shown (q ++ [k]) v → shouldRedactKey k = true → v = VString RedactedValue) ∧
         (∀ p v, occurs (re_Metadata rich) p v → traced p → occurs shown p (redactSensitiveValue v))).
Proof.
  set (name := if String.eqb (normalizeOperation operation) "" then "unknown" else normalizeOperation operation).
  set (told := operation_fields name elapsed err fields).
  exists name, (operation_tags name (match err with Some _ => true | None => false end) told), told, (flattenFields told), (match err with Some _ => true | None => false end).
  split; [reflexivity|]. split; [destruct err; split; intros H; eauto; [discriminate|by destruct H]|].
  split; [apply flatten_spec|]. split; [apply flatten_spec|]. split; [intros k; apply operation_fields_keep|].
  intros e rich -> Hr Hm. exists (RedactSensitiveMap (re_Metadata rich)). split; [by apply enrich_metadata|]. rewrite RedactSensitiveMap_redact. split.
  - intros q k v Hocc Hk. destruct (occurs_redact_inv _ _ _ Hocc) as [[Ht _]|(q' & k' & v0 & Hq & _ & _ & _ & ->)]; [|reflexivity].
    apply Forall_app in Ht as [_ Ht]. inversion_clear Ht. congruence.
  - intros p v Hocc Ht. by apply occurs_redact_traced.
Qed.
End observe.

(** ** Events (src/store/sql/event_stores.go) *)

Record AppendServiceEventInput := mkAppendEvent {
  ae_ConnectionID : string; ae_ProviderID : string; ae_ScopeType : string; ae_ScopeID : string; ae_EventType : string; ae_Status : string; ae_Error : string; ae_Metadata : gmap string value }.
(** Rows without their primary key. *)
Record serviceEventRecord := mkEventRow {
  se_ConnectionID : option string; se_ProviderID : string; se_ScopeType : string; se_ScopeID : string; se_EventType : string; se_Status : string; se_Error : string;
  se_Metadata : gmap string value; se_CreatedAt : Time }.
Inductive event_error := EvRequired (text : string) | EvDB (cause : string).

(** [fault] is the error of the database, if the insert fails. *)
Definition Event_Append (fault : option string) (now : Time) (table : list serviceEventRecord) (input : AppendServiceEventInput) : outcome event_error unit * list serviceEventRecord :=
  if blank (ae_ProviderID input) then (Fail (EvRequired "provider id"), table)
  else if blank (ae_ScopeType input) || blank (ae_ScopeID input) then (Fail (EvRequired "scope type and scope id"), table)
  else if blank (ae_EventType input) then (Fail (EvRequired "event type"), table)
  else if blank (ae_Status input) then (Fail (EvRequired "event status"), table)
  else
    let connectionID := TrimSpace (ae_ConnectionID input) in
    match fault with
    | Some cause => (Fail (EvDB cause), table)
    | None => (Ok tt, table ++ [mkEventRow (if String.eqb connectionID "" then None else Some connectionID) (TrimSpace (ae_ProviderID input)) (TrimSpace (ae_ScopeType input))
                                 (TrimSpace (ae_ScopeID input)) (TrimSpace (ae_EventType input)) (TrimSpace (ae_Status input)) (TrimSpace (ae_Error input))
                                 (RedactMetadata (ae_Metadata input)) now])
    end.

(** A row of the table: what the columns require, and no value under a sensitive key. *)
Definition event_ok (r : serviceEventRecord) : Prop :=
  se_ProviderID r ≠ "" ∧ se_ScopeType r ≠ "" ∧ se_ScopeID r ≠ "" ∧ se_EventType r ≠ "" ∧ se_Status r ≠ "" ∧ se_ConnectionID r ≠ Some "" ∧
  ∀ k v, se_Metadata r !! k = Some v → isSensitiveKey k = true → v = VString "[REDACTED]".

(** The table only grows, and its rows are as they should be. *)
Theorem events_well_formed (fault : option string) (now : Time) (table table' : list serviceEventRecord) (input : AppendServiceEventInput) (o : outcome event_error unit)
    (Hrows : Forall event_ok table) (Happ : Event_Append fault now table input = (o, table')) :
  Forall event_ok table' ∧ ∃ rows, table' = table ++ rows ∧ length rows = match o with Ok _ => 1 | Fail _ => 0 end.
Proof.
  unfold Event_Append in Happ.
  assert (Hno : ∀ e, (Fail e, table) = (o, table') → Forall event_ok table' ∧ ∃ rows, table' = table ++ rows ∧ length rows = match o with Ok _ => 1 | Fail _ => 0 end).
  { intros e [= <- <-]. split; [exact Hrows|]. exists []. rewrite app_nil_r. split; reflexivity. }
  destruct (blank (ae_ProviderID input)) eqn:Hp; [by apply Hno in Happ|]. destruct (blank (ae_ScopeType input)) eqn:Ht; [by apply Hno in Happ|].
  destruct (blank (ae_ScopeID input)) eqn:Hi; [by apply Hno in Happ|]. destruct (blank (ae_EventType input)) eqn:He; [by apply Hno in Happ|].
  destruct (blank (ae_Status input)) eqn:Hs; [by apply Hno in Happ|]. cbn [orb] in Happ. destruct fault; [by apply Hno in Happ|].
  injection Happ as <- <-. split; [|eexists; split; reflexivity]. apply Forall_app. split; [exact Hrows|]. constructor; [|constructor].
  apply blank_false in Hp, Ht, Hi, He, Hs. repeat split; try assumption; cbn [se_ConnectionID se_Metadata].
  - destruct (String.eqb_spec (TrimSpace (ae_ConnectionID input)) ""); congruence.
  - intros k v Hl Hk. unfold RedactMetadata, redactMap in Hl. rewrite map_lookup_imap in Hl. destruct (ae_Metadata input !! k); [|discriminate]. cbn in Hl. rewrite Hk in Hl. congruence.
Qed.

(** ** An operation that failed *)

Module ObservabilityExample.
#[local] Instance demo_MapRange : MapRange := key_order_range.
Definition rich := mkRich CategoryAuth 401 "SERVICE_UNAUTHORIZED" "no" {["access_token" := VString "s3cret"; "trace_id" := VString "t1"]}.
Definition failed := observeOperation (λ _, "auth") (λ _, mkDetails "" "ERROR" None None) (mkObservers true true) 5 6 "Refresh Token" (Some (mkGoError "no" (Some rich) None []))
  {["provider_id" := VString "github"; "access_token" := VString "s3cret"]}.
Definition logged (l : list observation) (k : string) : option value := match l with [_; _; LogLine _ _ fields _] => fields !! k | _ => None end.

(** The token in the metadata of the error is not shown, the trace is; the fields of the caller are shown as they are. *)
Example failed_refresh_logged :
  logged failed "error_metadata" = Some (VMap {["access_token" := VString "[REDACTED]"; "trace_id" := VString "t1"]}) ∧ logged failed "trace_id" = Some (VString "t1") ∧
  logged failed "access_token" = Some (VString "s3cret").
Proof. vm_compute. repeat split. Qed.

Lemma events_well_formed_witness :
  Forall event_ok (Event_Append None 1 [] (mkAppendEvent "" "github" "org" "o1" "connected" "ok" "" {["api_key" := VString "k"]})).2.
Proof. apply (events_well_formed None 1%Z [] _ (mkAppendEvent "" "github" "org" "o1" "connected" "ok" "" {["api_key" := VString "k"]}) _ ltac:(constructor) (surjective_pairing _)). Defined.
End ObservabilityExample.
