(* ===== verification/Construction.v ===== *)
(** * Construction of the service (src/core/options.go, config.go, NewService of src/core/service.go, src/store/sql/factory.go)

    The dependencies of the service: the options that set them, the ones taken from a repository factory, and the defaults.  The type of each dependency is an argument, as are the
    values the constructors of the other packages make, the libraries that resolve loggers and merge configurations, and the faults of the database. *)

From S2P Require Import Prelude GoStrings GoValues Errors.
From Stdlib Require Import ZArith String Lia Eqdep_dec.
From stdpp Require Import base decidable list gmap strings.

Local Open Scope string_scope.
Local Open Scope list_scope.

(** ** Configuration *)

Record Config := mkConfig { cfg_ServiceName : string; cfg_EnabledProviders : list string; cfg_RequireCallbackRedirect : bool }.
Definition DefaultConfig : Config := mkConfig "services" [] false.
Definition Config_Validate (c : Config) : option GoError := if blank (cfg_ServiceName c) then Some (plainError "core: service_name is required") else None.
Definition configToLayerMap (cfg : Config) (includeZero : bool) : gmap string value :=
  let layer := if includeZero || negb (blank (cfg_ServiceName cfg)) then {["service_name" := VString (cfg_ServiceName cfg)]} else ∅ in
  let layer := if includeZero || negb (bool_decide (cfg_EnabledProviders cfg = [])) then <["inheritance" := VMap {["enabled_providers" := VStrings (cfg_EnabledProviders cfg)]}]> layer else layer in
  if includeZero || cfg_RequireCallbackRedirect cfg then <["oauth" := VMap {["require_callback_redirect" := VBool (cfg_RequireCallbackRedirect cfg)]}]> layer else layer.

Section config.
(** The stack of layers, from the weakest to the strongest, merged; and [cfgx.Build] with the defaults and the validator. *)
Variable stack_Merge : list (gmap string value) → outcome GoError (gmap string value).
Variable cfgx_Build : gmap string value → Config → (Config → option GoError) → outcome GoError Config.
(** [GoOptionsResolver.Resolve] *)
Definition Options_Resolve (defaults loaded runtime : Config) : outcome GoError Config :=
  match stack_Merge [configToLayerMap defaults true; configToLayerMap loaded false; configToLayerMap runtime false] with
  | Fail err => Fail err
  | Ok merged =>
    match cfgx_Build merged defaults Config_Validate with
    | Fail err => Fail err
    | Ok resolved => match Config_Validate resolved with Some err => Fail err | None => Ok resolved end
    end
  end.
(** [CfgxConfigProvider.Load]; without a loader nothing is read. *)
Definition Config_Load (loader : option (outcome GoError (gmap string value))) (defaults : Config) : outcome GoError Config :=
  match default (Ok ∅) loader with Fail err => Fail err | Ok raw => cfgx_Build raw defaults Config_Validate end.

Lemma resolved_valid defaults loaded runtime c : Options_Resolve defaults loaded runtime = Ok c → Config_Validate c = None.
Proof. unfold Options_Resolve. repeat case_match; intros; simplify_eq; congruence. Qed.
End config.

(** ** Dependencies *)

(** The fields of [serviceBuilder], of [Service] and of [ServiceDependencies]. *)
Inductive dep :=
| Logger | LoggerProvider | MetricsRecorder | ErrorFactory | ErrorMapper | SecretProvider | PersistenceClient | RepositoryFactory | ConfigProvider | OptionsResolver
| OAuthStateStore | ConnectionLocker | RefreshScheduler | Signer | TransportResolver | RateLimitPolicy | InheritancePolicy | Registry | ConnectionStore | CredentialStore
| SubscriptionStore | SyncCursorStore | InstallationStore | SyncJobStore | GrantStore | PermissionEvaluator | CredentialCodec | CallbackURLResolver.
#[export] Instance dep_eq_dec : EqDecision dep.
Proof. solve_decision. Defined.

Section construct.
Variable T : dep → Type.
Abbreviation deps := (∀ d : dep, option (T d)).

(** A field is set; nil is [None]. *)
Definition setDep (d : dep) (v : option (T d)) (b : deps) : deps :=
  λ d', match decide (d = d') with left e => eq_rect d (λ d, option (T d)) v d' e | right _ => b d' end.
Lemma setDep_eq d v b : setDep d v b d = v.
Proof. unfold setDep. destruct (decide (d = d)) as [e|]; [|congruence]. rewrite (UIP_dec dep_eq_dec e eq_refl). reflexivity. Qed.
Lemma setDep_ne d d' v b : d ≠ d' → setDep d v b d' = b d'.
Proof. intros. unfold setDep. destruct (decide (d = d')); congruence. Qed.

Record serviceBuilder := mkBuilder { sb_runtimeConfig : Config; sb_deps : deps }.
(** The options: each sets one field ([WithLogger], [WithRegistry], ...). *)
Definition With (d : dep) (v : option (T d)) (b : serviceBuilder) : serviceBuilder := mkBuilder (sb_runtimeConfig b) (setDep d v (sb_deps b)).
Record service_option := mkOption { so_dep : dep; so_value : option (T so_dep) }.

(** What a repository factory may offer, and what becomes of it when its stores are built; [rm_SyncJobStore] is [SyncJobStoreCore], or else [SyncJobStore]. *)
Record repository_methods := mkRepositoryMethods {
  rm_BuildStores : option (T RepositoryFactory → option (T PersistenceClient) → outcome GoError (option (option (T ConnectionStore) * option (T CredentialStore))) * T RepositoryFactory);
  rm_Stores : option (T RepositoryFactory → option (T ConnectionStore) * option (T CredentialStore));
  rm_SubscriptionStore : option (T RepositoryFactory → option (T SubscriptionStore));
  rm_SyncCursorStore : option (T RepositoryFactory → option (T SyncCursorStore));
  rm_InstallationStore : option (T RepositoryFactory → option (T InstallationStore));
  rm_SyncJobStore : option (T RepositoryFactory → option (T SyncJobStore));
  rm_RateLimitPolicy : option (T RepositoryFactory → option (T RateLimitPolicy)) }.
Variable methods : repository_methods.

(** What the constructors of the defaults make. *)
Variable made : ∀ d : dep, T d.
Variable newEvaluator : option (T ConnectionStore) → option (T GrantStore) → option (T Registry) → T PermissionEvaluator.
Variable newStrictPolicy : option (T ConnectionStore) → T InheritancePolicy.
(** [glog.Resolve], [glog.Ensure] and [GetLogger]. *)
Variable glog_Resolve : option (T LoggerProvider) → option (T Logger) → option (T LoggerProvider) * option (T Logger).
Variable glog_Ensure : option (T Logger) → T Logger.
Variable getLogger : T LoggerProvider → option (T Logger).
(** [Load] and [Resolve] of the configuration, and the mapper of errors. *)
Variable load : T ConfigProvider → Config → outcome GoError Config.
Variable resolve : T OptionsResolver → Config → Config → Config → outcome GoError Config.
Variable mapper : T ErrorMapper → GoError → option GoError.

Definition builder_defaults : list dep := [MetricsRecorder; ErrorFactory; ErrorMapper; ConfigProvider; OptionsResolver; Registry; CredentialCodec].
Definition defaultServiceBuilder (runtime : Config) : serviceBuilder :=
  let '(provider, logger) := glog_Resolve None None in
  mkBuilder runtime (setDep LoggerProvider provider (setDep Logger logger (λ d, if bool_decide (d ∈ builder_defaults) then Some (made d) else None))).

Definition mapBuildError (b : deps) (err : GoError) : GoError :=
  match b ErrorMapper with None => err | Some m => default err (mapper m err) end.

Definition orMake (d : dep) (b : deps) : deps := match b d with Some _ => b | None => setDep d (Some (made d)) b end.
(** A field that is nil is taken from the repository, if it has the method. *)
Definition orTake (d : dep) (method : option (T RepositoryFactory → option (T d))) (b : deps) : deps :=
  match b d, b RepositoryFactory, method with None, Some r, Some m => setDep d (m r) b | _, _, _ => b end.
Definition fillStores (stores : option (T ConnectionStore) * option (T CredentialStore)) (b : deps) : deps :=
  let b := match b ConnectionStore with None => setDep ConnectionStore stores.1 b | Some _ => b end in
  match b CredentialStore with None => setDep CredentialStore stores.2 b | Some _ => b end.
Definition buildStores (b : deps) : outcome GoError deps :=
  match b ConnectionStore, b CredentialStore, b RepositoryFactory with
  | Some _, Some _, _ | _, _, None => Ok b
  | _, _, Some r =>
    match rm_BuildStores methods with
    | Some build =>
      match build r (b PersistenceClient) with
      | (Fail err, _) => Fail err
      | (Ok provider, r) => let b := setDep RepositoryFactory (Some r) b in Ok (match provider with Some stores => fillStores stores b | None => b end)
      end
    | None => match rm_Stores methods with Some stores => Ok (fillStores (stores r) b) | None => Ok b end
    end
  end.

Record ServiceParts := mkParts { sp_config : Config; sp_deps : deps; sp_strictPolicy : T InheritancePolicy }.

Definition service_defaults : list dep :=
  [ErrorFactory; MetricsRecorder; ErrorMapper; ConfigProvider; OptionsResolver; Registry; OAuthStateStore; ConnectionLocker; RefreshScheduler; Signer; CredentialCodec].
Definition applyOptions (runtime : Config) (opts : list service_option) : serviceBuilder :=
  foldl (λ b o, With (so_dep o) (so_value o) b) (defaultServiceBuilder runtime) opts.
Definition withLogger (b : deps) : deps :=
  let '(provider, logger) := glog_Resolve (b LoggerProvider) (b Logger) in
  let logger := glog_Ensure logger in
  let logger := match provider with Some p => match getLogger p with Some named => glog_Ensure (Some named) | None => logger end | None => logger end in
  setDep LoggerProvider provider (setDep Logger (Some logger) b).

Definition NewService (cfg : Config) (opts : list service_option) : outcome GoError ServiceParts :=
  let builder := applyOptions cfg opts in
  let b := foldl (λ b d, orMake d b) (withLogger (sb_deps builder)) service_defaults in
  let loaded := match b ConfigProvider with Some p => load p DefaultConfig | None => Ok DefaultConfig end in
  match loaded with
  | Fail err => Fail (mapBuildError b err)
  | Ok loaded =>
    match (match b OptionsResolver with Some r => resolve r DefaultConfig loaded (sb_runtimeConfig builder) | None => Ok loaded end) with
    | Fail err => Fail (mapBuildError b err)
    | Ok finalConfig =>
      match buildStores b with
      | Fail err => Fail (mapBuildError b err)
      | Ok b =>
        let b := orTake SubscriptionStore (rm_SubscriptionStore methods) b in
        let b := orTake SyncCursorStore (rm_SyncCursorStore methods) b in
        let b := orTake InstallationStore (rm_InstallationStore methods) b in
        let b := orTake SyncJobStore (rm_SyncJobStore methods) b in
        let b := match b PermissionEvaluator with
                 | Some _ => b | None => setDep PermissionEvaluator (Some (newEvaluator (b ConnectionStore) (b GrantStore) (b Registry))) b end in
        let b := orTake RateLimitPolicy (rm_RateLimitPolicy methods) b in
        let strict := newStrictPolicy (b ConnectionStore) in
        let b := match b InheritancePolicy with Some _ => b | None => setDep InheritancePolicy (Some strict) b end in
        Ok (mkParts finalConfig b strict)
      end
    end
  end.

(** ** What a service has *)

Lemma orMake_keeps d b d' v : b d' = Some v → orMake d b d' = Some v.
Proof. intros H. unfold orMake. destruct (b d) eqn:E; [exact H|]. rewrite setDep_ne; [exact H|]. intros ->. congruence. Qed.
Lemma orMake_has d b : is_Some (orMake d b d).
Proof. unfold orMake. destruct (b d) eqn:E; [rewrite E; eauto|]. rewrite setDep_eq. eauto. Qed.
Lemma orTake_keeps d m b d' v : b d' = Some v → orTake d m b d' = Some v.
Proof. intros H. unfold orTake. destruct (b d) eqn:E; [exact H|]. destruct (b RepositoryFactory), m; try exact H. rewrite setDep_ne; [exact H|]. intros ->. congruence. Qed.
Lemma fold_orMake_keeps l b d v : b d = Some v → foldl (λ b d, orMake d b) b l d = Some v.
Proof. revert b. induction l as [|d' l IH]; intros b H; [exact H|]. apply IH. by apply orMake_keeps. Qed.
Lemma fold_orMake_has l b d : d ∈ l → is_Some (foldl (λ b d, orMake d b) b l d).
Proof.
  revert b. induction l as [|d' l IH]; intros b Hin; [by apply not_elem_of_nil in Hin|]. apply elem_of_cons in Hin as [->|Hin]; [|by apply IH].
  cbn [foldl]. destruct (orMake_has d' b) as [v Hv]. rewrite (fold_orMake_keeps _ _ _ v Hv). eauto.
Qed.
Lemma fillStores_keeps stores b d v : b d = Some v → fillStores stores b d = Some v.
Proof.
  intros H. unfold fillStores. assert (H1 : match b ConnectionStore with None => setDep ConnectionStore stores.1 b | Some _ => b end d = Some v).
  { destruct (b ConnectionStore) eqn:E; [exact H|]. rewrite setDep_ne; [exact H|]. intros <-. congruence. }
  revert H1. generalize (match b ConnectionStore with None => setDep ConnectionStore stores.1 b | Some _ => b end). intros b' H1.
  destruct (b' CredentialStore) eqn:E; [exact H1|]. rewrite setDep_ne; [exact H1|]. intros <-. congruence.
Qed.
Lemma buildStores_keeps b b' d v : d ≠ RepositoryFactory → buildStores b = Ok b' → b d = Some v → b' d = Some v.
Proof.
  intros Hd Hb H. unfold buildStores in Hb.
  destruct (b ConnectionStore) eqn:E1, (b CredentialStore) eqn:E2, (b RepositoryFactory) as [r|] eqn:E3; try (injection Hb as <-; exact H);
    (destruct (rm_BuildStores methods) as [build|]; [destruct (build r (b PersistenceClient)) as [[stores|] r']; [|discriminate]; injection Hb as <-;
       (assert (Hr : setDep RepositoryFactory (Some r') b d = Some v) by (rewrite setDep_ne; [exact H|congruence])); destruct stores; [by apply fillStores_keeps|exact Hr]
     |destruct (rm_Stores methods); injection Hb as <-; [by apply fillStores_keeps|exact H]]).
Qed.

(** The last option for a dependency is the one that counts. *)
Definition chosen (opts : list service_option) (d : dep) (v : T d) : Prop :=
  ∃ before after, opts = before ++ mkOption d (Some v) :: after ∧ Forall (λ o, so_dep o ≠ d) after.
Lemma options_keep opts b d : Forall (λ o, so_dep o ≠ d) opts → sb_deps (foldl (λ b o, With (so_dep o) (so_value o) b) b opts) d = sb_deps b d.
Proof. revert b. induction opts as [|o opts IH]; intros b Hall; [reflexivity|]. apply Forall_cons in Hall as [Ho Hall]. cbn [foldl]. rewrite (IH _ Hall). cbn. by apply setDep_ne. Qed.
Lemma chosen_applied cfg opts d v : chosen opts d v → sb_deps (applyOptions cfg opts) d = Some v.
Proof. intros (before & after & -> & Hall). unfold applyOptions. rewrite foldl_app. cbn [foldl]. rewrite (options_keep _ _ _ Hall). cbn. apply setDep_eq. Qed.

(** The fields of a service, from those of the builder after the defaults and the stores. *)
Definition taken (b : deps) : deps :=
  orTake SyncJobStore (rm_SyncJobStore methods) (orTake InstallationStore (rm_InstallationStore methods)
    (orTake SyncCursorStore (rm_SyncCursorStore methods) (orTake SubscriptionStore (rm_SubscriptionStore methods) b))).
Lemma taken_keeps b d v : b d = Some v → taken b d = Some v.
Proof. intros H. unfold taken. by do 4 apply orTake_keeps. Qed.
Definition evaluated (b : deps) : deps :=
  match b PermissionEvaluator with Some _ => b | None => setDep PermissionEvaluator (Some (newEvaluator (b ConnectionStore) (b GrantStore) (b Registry))) b end.
Definition isolated (b : deps) : deps := match b InheritancePolicy with Some _ => b | None => setDep InheritancePolicy (Some (newStrictPolicy (b ConnectionStore))) b end.
Lemma evaluated_keeps b d v : b d = Some v → evaluated b d = Some v.
Proof. intros H. unfold evaluated. destruct (b PermissionEvaluator) eqn:E; [exact H|]. rewrite setDep_ne; [exact H|]. intros <-. congruence. Qed.
Lemma isolated_keeps b d v : b d = Some v → isolated b d = Some v.
Proof. intros H. unfold isolated. destruct (b InheritancePolicy) eqn:E; [exact H|]. rewrite setDep_ne; [exact H|]. intros <-. congruence. Qed.
Lemma NewService_deps cfg opts s : NewService cfg opts = Ok s →
  ∃ b, buildStores (foldl (λ b d, orMake d b) (withLogger (sb_deps (applyOptions cfg opts))) service_defaults) = Ok b ∧
       sp_deps s = isolated (orTake RateLimitPolicy (rm_RateLimitPolicy methods) (evaluated (taken b))).
Proof.
  unfold NewService. cbv zeta. destruct (match foldl _ _ _ ConfigProvider with Some p => load p DefaultConfig | None => Ok DefaultConfig end) as [loaded|]; [|discriminate].
  destruct (match foldl _ _ _ OptionsResolver with Some r => resolve r DefaultConfig loaded _ | None => Ok loaded end) as [final|]; [|discriminate].
  destruct (buildStores _) as [b|]; [|discriminate]. intros H. injection H as <-. exists b. split; reflexivity.
Qed.
Lemma final_keeps b d v : b d = Some v → isolated (orTake RateLimitPolicy (rm_RateLimitPolicy methods) (evaluated (taken b))) d = Some v.
Proof. intros H. by apply isolated_keeps, orTake_keeps, evaluated_keeps, taken_keeps. Qed.

Lemma withLogger_ne b d : d ≠ Logger → d ≠ LoggerProvider → withLogger b d = b d.
Proof. intros H1 H2. unfold withLogger. destruct (glog_Resolve _ _). cbv zeta. rewrite !setDep_ne by congruence. reflexivity. Qed.
Lemma withLogger_has b : is_Some (withLogger b Logger).
Proof. unfold withLogger. destruct (glog_Resolve _ _). cbv zeta. rewrite setDep_ne by discriminate. rewrite setDep_eq. eauto. Qed.

End construct.

(** ** The SQL repository factory (src/store/sql/factory.go) *)

Inductive sql_store :=
| SQLConnections | SQLCredentials | SQLSubscriptions | SQLCursors | SQLInstallations | SQLRateLimits | SQLCachedRateLimits | SQLJobs | SQLOutbox | SQLDispatches | SQLActivity.
#[export] Instance sql_store_eq_dec : EqDecision sql_store.
Proof. solve_decision. Defined.

Section factory.
Context {DB : Type}.
(** A persistence client: nil, a database, something with a method that returns one (or nil), or something else. *)
Inductive persistence_client := ClientNil | ClientDB (db : DB) | ClientHolder (db : option DB) | ClientOther.
Definition resolveBunDB (candidate : persistence_client) : outcome GoError DB :=
  match candidate with
  | ClientNil => Fail (plainError "sqlstore: persistence client is required")
  | ClientDB db => Ok db
  | ClientHolder (Some db) => Ok db
  | ClientHolder None => Fail (plainError "sqlstore: persistence client returned nil bun db")
  | ClientOther => Fail (plainError "sqlstore: unsupported persistence client type")
  end.

(** The stores whose fields are not nil; [sf_cached] tells that a cache service was given. *)
Record SQLFactory := mkFactory { sf_db : option DB; sf_stores : list sql_store; sf_cached : bool }.
Definition NewRepositoryFactory (cached : bool) : SQLFactory := mkFactory None [] cached.

(** [fault] is the error of the constructor of a store. *)
Variable fault : sql_store → option GoError.
Fixpoint init_rest (todo : list sql_store) (f : SQLFactory) : outcome GoError unit * SQLFactory :=
  match todo with
  | [] => (Ok tt, f)
  | store :: rest => match fault store with Some err => (Fail err, f) | None => init_rest rest (mkFactory (sf_db f) (sf_stores f ++ [store]) (sf_cached f)) end
  end.
Definition initStores (f : SQLFactory) : outcome GoError unit * SQLFactory :=
  match fault SQLConnections, fault SQLCredentials with
  | Some err, _ | None, Some err => (Fail err, f)
  | None, None =>
    init_rest ([SQLSubscriptions; SQLCursors; SQLInstallations; SQLRateLimits] ++ (if sf_cached f then [SQLCachedRateLimits] else []) ++ [SQLJobs; SQLOutbox; SQLDispatches; SQLActivity])
      (mkFactory (sf_db f) (sf_stores f ++ [SQLConnections; SQLCredentials]) (sf_cached f))
  end.
Definition BuildStores (f : SQLFactory) (client : persistence_client) : outcome GoError unit * SQLFactory :=
  match (match sf_db f with Some db => Ok db | None => resolveBunDB client end) with
  | Fail err => (Fail err, f)
  | Ok db =>
    let f := mkFactory (Some db) (sf_stores f) (sf_cached f) in
    if bool_decide (SQLConnections ∈ sf_stores f) && bool_decide (SQLCredentials ∈ sf_stores f) then (Ok tt, f) else initStores f
  end.
Definition NewRepositoryFactoryFromDB (db : DB) : outcome GoError SQLFactory :=
  match BuildStores (NewRepositoryFactory false) (ClientDB db) with (Fail err, _) => Fail err | (Ok _, f) => Ok f end.
(** The pointer of a store: the interface that it is returned as is not nil even if the pointer is. *)
Definition store_pointer (f : SQLFactory) (store : sql_store) : bool := bool_decide (store ∈ sf_stores f).
(** [RateLimitPolicy]: over the cached store if there is one; nil before the stores are built. *)
Definition Factory_RateLimitPolicy (f : SQLFactory) : option sql_store :=
  if bool_decide (SQLCachedRateLimits ∈ sf_stores f) then Some SQLCachedRateLimits else if bool_decide (SQLRateLimits ∈ sf_stores f) then Some SQLRateLimits else None.

Lemma init_rest_ok todo f f' : init_rest todo f = (Ok tt, f') → sf_stores f' = sf_stores f ++ todo.
Proof.
  revert f. induction todo as [|store todo IH]; intros f; cbn; [intros [= <-]; by rewrite app_nil_r|]. destruct (fault store); [discriminate|]. intros H.
  rewrite (IH _ H). cbn. by rewrite <-app_assoc.
Qed.
(** A new factory whose stores were built has them all, and its policy is over the cache if it was given one. *)
Theorem factory_builds_all (cached : bool) (client : persistence_client) (f : SQLFactory) (Hb : BuildStores (NewRepositoryFactory cached) client = (Ok tt, f)) :
  (∀ store, store ≠ SQLCachedRateLimits → store_pointer f store = true) ∧ Factory_RateLimitPolicy f = Some (if cached then SQLCachedRateLimits else SQLRateLimits).
Proof.
  unfold BuildStores in Hb. cbn [sf_db NewRepositoryFactory] in Hb. destruct (resolveBunDB client) as [db|]; [|discriminate]. cbn -[initStores] in Hb.
  unfold initStores in Hb. destruct (fault SQLConnections); [discriminate|]. destruct (fault SQLCredentials); [discriminate|]. apply init_rest_ok in Hb.
  unfold store_pointer, Factory_RateLimitPolicy. rewrite Hb. destruct cached; (split; [intros [] Hs; try congruence; vm_compute; reflexivity|vm_compute; reflexivity]).
Qed.
End factory.
Arguments persistence_client : clear implicits. Arguments SQLFactory : clear implicits.

(** ** Services over a factory *)

Module ConstructionExample.
(** The stores of a factory are pointers, which may be nil; the other dependencies are names. *)
Definition T (d : dep) : Type :=
  match d with
  | RepositoryFactory => SQLFactory unit | PersistenceClient => persistence_client unit
  | ConnectionStore | CredentialStore | SubscriptionStore | SyncCursorStore | InstallationStore | SyncJobStore => bool
  | _ => string
  end.
Definition made (d : dep) : T d := match d with RepositoryFactory => NewRepositoryFactory false | PersistenceClient => ClientNil
  | ConnectionStore | CredentialStore | SubscriptionStore | SyncCursorStore | InstallationStore | SyncJobStore => true | _ => "made" end.
Definition pointer (store : sql_store) (f : SQLFactory unit) : option bool := Some (store_pointer f store).
Definition sql_methods (fault : sql_store → option GoError) : repository_methods T := {|
  rm_BuildStores := Some (λ f client, match BuildStores fault f (default ClientNil client) with
                                      | (Fail err, f) => (Fail err, f) | (Ok _, f) => (Ok (Some (pointer SQLConnections f, pointer SQLCredentials f)), f) end);
  rm_Stores := None; rm_SubscriptionStore := Some (pointer SQLSubscriptions); rm_SyncCursorStore := Some (pointer SQLCursors);
  rm_InstallationStore := Some (pointer SQLInstallations); rm_SyncJobStore := Some (pointer SQLJobs);
  rm_RateLimitPolicy := Some (λ f, (λ _, "adaptive") <$> Factory_RateLimitPolicy f) |}.
Definition build (opts : list (service_option T)) : outcome GoError (ServiceParts T) :=
  NewService T (sql_methods (λ _, None)) made (λ _ _ _, "evaluator") (λ _, "strict") (λ p l, (p, l)) (default "ensured") (λ _, None) (λ _ c, Ok c) (λ _ _ _ c, Ok c) (λ _ _, None)
    DefaultConfig opts.
Abbreviation opt d v := (mkOption T d (Some v)).
Definition parts (r : outcome GoError (ServiceParts T)) (d : dep) : option (T d) := match r with Ok s => sp_deps T s d | Fail _ => None end.

Definition over_sql := build [opt RepositoryFactory (NewRepositoryFactory true); opt PersistenceClient (ClientDB tt); opt Registry "mine"].
(** A service over a factory gets all the stores of the factory, and no grant store. *)
Example service_over_sql : parts over_sql SubscriptionStore = Some true ∧ parts over_sql SyncJobStore = Some true ∧ parts over_sql RateLimitPolicy = Some "adaptive" ∧ parts over_sql GrantStore = None.
Proof. vm_compute. repeat split. Qed.

Lemma factory_builds_all_witness : ∃ f, BuildStores (λ _, None) (NewRepositoryFactory true) (ClientDB tt) = (Ok tt, f) ∧ store_pointer f SQLOutbox = true.
Proof. eexists. split; [vm_compute; reflexivity|]. apply (factory_builds_all (λ _, None) true (ClientDB tt)); [vm_compute; reflexivity|discriminate]. Defined.

(** A service that is given its connection and credential stores does not have its factory build the others: it takes their nil pointers for stores. *)
Example unbuilt_stores_taken : parts (build [opt RepositoryFactory (NewRepositoryFactory false); opt PersistenceClient (ClientDB tt); opt ConnectionStore true; opt CredentialStore true]) SubscriptionStore
  = Some false.
Proof. vm_compute. reflexivity. Qed.

(** A factory whose subscription store could not be made reports success when it is asked again, without that store. *)
Example failed_build_forgotten :
  let fault store := if bool_decide (store = SQLSubscriptions) then Some (plainError "wiring") else None in
  let '(o, f) := BuildStores fault (NewRepositoryFactory false) (ClientDB tt) in
  let '(o', f') := BuildStores fault f (ClientDB tt) in
  o = Fail (plainError "wiring") ∧ o' = Ok tt ∧ store_pointer f' SQLSubscriptions = false.
Proof. vm_compute. repeat split. Qed.
End ConstructionExample.
