(* ===== verification/Conformance.v ===== *)
(** * The conformance checks of the development kit (src/providers/devkit/conformance.go)

    What an implementation of a store, a transport, a signer or a webhook template is tested for, as functions over the interfaces, and that the
    implementations of this repository pass.  A nil interface is [None]; the clock and the database of each call are arguments. *)

From S2P Require Import Prelude GoStrings GoValues Domain Contracts ClaimStore GoHTTP Signers WebhookTypes WebhookStore WebhookTemplates Errors ProviderOps.
From Stdlib Require Import ZArith Lia Ascii String.
From stdpp Require Import base decidable list gmap strings.

Local Open Scope string_scope.
Local Open Scope list_scope.

(** ** The checks *)

(** An error of the implementation, or a complaint of the kit. *)
Inductive conformance_error (E : Type) := CfFrom (e : E) | CfText (text : string).
Arguments CfFrom {E}.
Arguments CfText {E}.

Definition ValidateTransportAdapterConformance (adapter : option TransportAdapter) (request : TransportRequest) : outcome (conformance_error GoError) unit :=
  match adapter with
  | None => Fail (CfText "devkit: transport adapter is required")
  | Some adapter =>
    if blank (ta_Kind adapter) then Fail (CfText "devkit: transport adapter kind is required")
    else match ta_Do adapter [] request with Fail err => Fail (CfFrom err) | Ok _ => Ok tt end
  end.

Section ledger.
Context {E L : Type}.
(** Four calls, each with its own clock and faults. *)
Definition ValidateWebhookLedgerConformance (ledger : option (DeliveryLedger E L)) (l : L) (env : nat → CallEnv) (providerID deliveryID : string)
    : outcome (conformance_error E) unit * L :=
  match ledger with
  | None => (Fail (CfText "devkit: delivery ledger is required"), l)
  | Some _ =>
    match dl_Claim l (env 0) providerID deliveryID "" Second with
    | (Fail err, l) => (Fail (CfFrom err), l)
    | (Ok (record, accepted), l) =>
      if negb accepted then (Fail (CfText "devkit: first claim should be accepted"), l)
      else match dl_Claim l (env 1) providerID deliveryID "" Second with
      | (Fail err, l) => (Fail (CfFrom err), l)
      | (Ok (_, true), l) => (Fail (CfText "devkit: second claim should not be accepted while lease is active"), l)
      | (Ok (_, false), l) =>
        match dl_Complete l (env 2) (dr_ClaimID record) with
        | (Fail err, l) => (Fail (CfFrom err), l)
        | (Ok _, l) =>
          match dl_Get l (env 3) providerID deliveryID with
          | Fail err => (Fail (CfFrom err), l)
          | Ok loaded => (if String.eqb (dr_Status loaded) DeliveryStatusProcessed then Ok tt else Fail (CfText "devkit: expected processed status"), l)
          end
        end
      end
    end
  end.

Definition ValidateIdempotencyClaimStoreConformance (store : option (IdempotencyClaimStore E L)) (s : L) (now : nat → Time) (key : string)
    : outcome (conformance_error E) unit * L :=
  match store with
  | None => (Fail (CfText "devkit: idempotency store is required"), s)
  | Some _ =>
    match ics_Claim s (now 0) key Minute with
    | (Fail err, s) => (Fail (CfFrom err), s)
    | (Ok (claimID, accepted), s) =>
      if negb accepted || blank claimID then (Fail (CfText "devkit: first claim should be accepted"), s)
      else match ics_Claim s (now 1) key Minute with
      | (Fail err, s) => (Fail (CfFrom err), s)
      | (Ok (_, true), s) => (Fail (CfText "devkit: second claim should not be accepted"), s)
      | (Ok (_, false), s) => match ics_Complete s (now 2) claimID with (Fail err, s) => (Fail (CfFrom err), s) | (Ok _, s) => (Ok tt, s) end
      end
    end
  end.
End ledger.

Section requests.
Context {MR : MapRange}.
Variable sha256 : string → string.
Variable hmacSHA256 : string → string → string.
Variable time_Format : Time → string → string.
Variable EscapedPath : URL → string.

Record SigV4Fixture := mkSigV4Fixture { sf_Request : option HttpRequest; sf_Credential : ActiveCredential; sf_ExpectMode : string }.

(** The request is signed in place: it is part of the result. *)
Definition ValidateSigV4SigningConformance (signer : option Signer) (now : Time) (fixture : SigV4Fixture)
    : outcome (conformance_error sign_error) HttpRequest :=
  match signer, sf_Request fixture with
  | None, _ => Fail (CfText "devkit: signer is required")
  | _, None => Fail (CfText "devkit: request fixture is required")
  | Some signer, Some req =>
    match Sign sha256 hmacSHA256 time_Format EscapedPath signer now req (sf_Credential fixture) with
    | Fail err => Fail (CfFrom err)
    | Ok req =>
      let complaint :=
        if String.eqb (TrimSpace (ToLower (sf_ExpectMode fixture))) "query" then
          let query := u_Query (hr_URL req) in
          if blank (Values_Get query "X-Amz-Signature") then Some "devkit: expected sigv4 query signature"
          else if blank (Values_Get query "X-Amz-Credential") then Some "devkit: expected sigv4 query credential" else None
        else if negb (HasPrefix (TrimSpace (Header_Get (hr_Header req) "Authorization")) "AWS4-HMAC-SHA256 ")
          then Some "devkit: expected sigv4 authorization header"
        else if blank (Header_Get (hr_Header req) "X-Amz-Date") then Some "devkit: expected x-amz-date header" else None in
      match complaint with
      | Some text => Fail (CfText text)
      | None => if blank (u_Host (hr_URL req)) then Fail (CfText "devkit: signed host must not be empty") else Ok req
      end
    end
  end.

(** [time_Parse]: [time.Parse] with the layout of the date header. *)
Definition ValidateSigV4ReplayWindow (time_Parse : string → outcome string Time) (request : option HttpRequest) (maxWindow : Duration) (now : Time)
    : outcome (conformance_error string) unit :=
  match request with
  | None => Fail (CfText "devkit: request is required")
  | Some request =>
    let maxWindow := if (maxWindow <=? 0)%Z then (5 * Minute)%Z else maxWindow in
    let rawSignedAt := TrimSpace (Header_Get (hr_Header request) "X-Amz-Date") in
    let rawSignedAt := if String.eqb rawSignedAt "" then TrimSpace (Values_Get (u_Query (hr_URL request)) "X-Amz-Date") else rawSignedAt in
    if String.eqb rawSignedAt "" then Fail (CfText "devkit: x-amz-date is required")
    else match time_Parse rawSignedAt with
    | Fail err => Fail (CfFrom err)
    | Ok signedAt =>
      if (maxWindow <? trigger_delta now signedAt)%Z then Fail (CfText "devkit: sigv4 signed request is outside replay window") else Ok tt
    end
  end.
End requests.

Record WebhookTemplateFixture := mkTemplateFixture { wf_Template : ProviderWebhookTemplate; wf_Request : InboundRequest; wf_DeliveryID : string }.

(** The template has a verifier and an extractor, which are functions here. *)
Definition ValidateWebhookTemplateConformance (fixture : WebhookTemplateFixture) : outcome (conformance_error verify_error) unit :=
  match wt_Verifier (wf_Template fixture) (wf_Request fixture) with
  | Fail err => Fail (CfFrom err)
  | Ok _ =>
    match wt_Extractor (wf_Template fixture) (wf_Request fixture) with
    | Fail err => Fail (CfFrom err)
    | Ok deliveryID =>
      if blank deliveryID then Fail (CfText "devkit: extracted delivery id is required")
      else
        let expected := TrimSpace (wf_DeliveryID fixture) in
        if negb (String.eqb expected "") && negb (String.eqb deliveryID expected) then Fail (CfText "devkit: unexpected delivery id") else Ok tt
    end
  end.

(** ** The stores pass *)

(** The memory claim store passes the conformance check on every key that nothing holds, whatever else it holds, as long as the second claim comes
    within the minute the check claims the key for; and the key it leaves is complete: no claim of it is accepted for another minute. *)
Theorem memory_claims_conform (s : InMemoryClaimStore) (now : nat → Time) (key : string) (Hs : reachable_store s) (Hk : blank key = false)
    (Hfree : blocked s (now 0) (TrimSpace key) = false) (Hlease : (now 1%nat < now 0%nat + Minute)%Z) (H0 : (0 ≤ now 2%nat)%Z) :
  ∃ s', ValidateIdempotencyClaimStoreConformance (Some InMemoryClaimStore_store) s now key = (Ok tt, s') ∧
    ∀ t lease, (t < now 2%nat + Minute)%Z → (Claims_Claim s' t key lease).1 = Ok ("", false).
Proof.
  apply blank_false in Hk. apply reachable_wf in Hs as Hwf. unfold ValidateIdempotencyClaimStoreConformance. simpl ics_Claim. simpl ics_Complete.
  destruct (Claims_Claim s (now 0) key Minute) as [o1 s1] eqn:H1.
  assert (Hid : ∃ id, o1 = Ok (id, true)).
  { destruct (Claim_cases s (now 0) key Minute Hwf Hk) as [[Hb _]|(_ & a & cl & k0 & Hc & _)]; [congruence|]. rewrite Hc in H1. simplify_eq. eauto. }
  destruct Hid as [id ->].
  destruct (accepted_settled _ _ _ _ _ _ (complete_entry (now 2)) Hwf H1) as (Hwf1 & Htrim & Hne & _).
  assert (Hb : blank id = false) by (by apply blank_false; rewrite Htrim). rewrite Hb. simpl negb. cbv iota. simpl orb.
  assert (Hlease' : effective_lease Minute = Minute) by done.
  destruct (Claim_accepted _ _ _ _ _ _ Hwf H1) as (_ & _ & _ & e & He & Hide & Hst & Hl & Httl).
  assert (Hblk : ce_blocks (now 1) e = true) by (unfold ce_blocks; rewrite Hst, Hl; by apply Before_lt).
  pose proof (blocked_claim_refused s1 (now 1) key Minute e Hwf1 Hk He Hblk) as H2.
  pose proof (claim_step_wf s1 (OpClaim (now 1) key Minute) Hwf1) as Hwf2.
  assert (He2 : cst_entries (claim_step s1 (OpClaim (now 1) key Minute)) !! TrimSpace key = Some e).
  { apply claim_step_spares; auto. split; auto using blocks_not_evictable. }
  simpl in Hwf2, He2. destruct (Claims_Claim s1 (now 1) key Minute) as [o2 s2]. simpl in H2, Hwf2, He2. subst o2. cbv iota.
  pose proof (Complete_settled s2 (now 2) id Hwf2) as Hset. pose proof (claim_step_wf s2 (OpComplete (now 2) id) Hwf2) as Hwf3. simpl in Hwf3.
  assert (Hok : (Claims_Complete s2 (now 2) id).1 = Ok tt).
  { unfold Claims_Complete. rewrite Htrim. apply String.eqb_neq in Hne as ->. by repeat case_match. }
  destruct (Claims_Complete s2 (now 2) id) as [o3 s3]. simpl in Hok, Hset, Hwf3. subst o3. exists s3. split; [done|]. intros t lease Ht.
  apply (blocked_claim_refused _ _ _ _ (complete_entry (now 2) e)); auto.
  - rewrite Hset, Htrim. unfold settled. pose proof (wf_owned_claim s2 Hwf2 _ _ He2 Hst) as Hcl. rewrite Hide in Hcl. rewrite Hcl, He2. apply lookup_insert_eq.
  - apply completed_blocks; [done|]. by rewrite Httl.
Qed.

(** The SQL delivery ledger passes on every delivery that is due, if the database answers and the second claim comes within the second of the first:
    it leaves the delivery processed, once more attempted, and every other delivery as it was. *)
Theorem sql_ledger_conforms (T : delivery_table) (env : nat → CallEnv) (p d : string) (Hp : blank p = false) (Hd : blank d = false)
    (Hquiet : ∀ i n, env_fault (env i) n = None) (Hdue : claimable (env_now (env 0)) (claim_base T (env 0) p d "") = true)
    (Hattempts : (0 ≤ wd_Attempts (claim_base T (env 0%nat) p d "") < int64_max)%Z) (Hlease : (env_now (env 1%nat) < env_now (env 0%nat) + Second)%Z) :
  let r := claimed_row (claim_base T (env 0) p d "") (env_now (env 0)) Second in
  ValidateWebhookLedgerConformance (Some WebhookDeliveryStore_ledger) T env p d =
    (Ok tt, <[(TrimSpace p, TrimSpace d) := row_with r DeliveryStatusProcessed (wd_Attempts r) None (env_now (env 2))]> T).
Proof.
  apply blank_false in Hp, Hd. intros r. unfold ValidateWebhookLedgerConformance. simpl dl_Claim. simpl dl_Complete. simpl dl_Get.
  rewrite Claim_succeeds by auto. cbv zeta. rewrite Hdue. fold r. simpl negb. cbv iota.
  set (k := (TrimSpace p, TrimSpace d)). rewrite Claim_succeeds by auto. cbv zeta.
  assert (Hb : claim_base (<[k := r]> T) (env 1) p d "" = r) by (unfold claim_base; fold k; by rewrite lookup_insert_eq).
  rewrite Hb, (leased_not_claimable (env_now (env 0%nat) + Second)) by (done || apply claimed_leased).
  pose proof (claimed_attempts (claim_base T (env 0) p d "") (env_now (env 0)) Second) as [Hpos _]. fold r in Hpos.
  assert (Hmax : (wd_Attempts r ≤ int64_max)%Z) by (subst r; simpl; destruct (wd_Attempts _ <? 1)%Z; unfold int64_max in *; lia).
  destruct (held_settles (<[k := r]> T) (env 2) p d r) as [Hc _]; [apply lookup_insert_eq|done|lia|auto|].
  rewrite Hc. fold k. unfold Delivery_Get, get_at. rewrite Hquiet. fold k. by rewrite lookup_insert_eq, insert_insert_eq.
Qed.

(** ** Templates and signatures *)

(** A template passes exactly if it verifies the request and reads the delivery that is expected. *)
Theorem template_conforms_iff (f : WebhookTemplateFixture) :
  ValidateWebhookTemplateConformance f = Ok tt ↔
  wt_Verifier (wf_Template f) (wf_Request f) = Ok tt ∧
  ∃ id, wt_Extractor (wf_Template f) (wf_Request f) = Ok id ∧ blank id = false ∧ (blank (wf_DeliveryID f) = true ∨ id = TrimSpace (wf_DeliveryID f)).
Proof.
  unfold ValidateWebhookTemplateConformance. destruct (wt_Verifier _ _) as [[]|]; [|split; [done|by intros [? _]]].
  destruct (wt_Extractor _ _) as [id|]; [|split; [done|by intros (_ & ? & ? & _)]].
  destruct (blank id) eqn:Hb; [split; [done|intros (_ & ? & ? & ? & _); congruence]|]. cbv zeta. unfold blank at 2.
  destruct (String.eqb_spec (TrimSpace (wf_DeliveryID f)) "") as [He|Hne]; simpl; [naive_solver|].
  destruct (String.eqb_spec id (TrimSpace (wf_DeliveryID f))); simpl; naive_solver.
Qed.

(** Trimming keeps what stands before a visible byte, and the byte. *)
Lemma trim_runes_stops w2 w3 c l m :
  ws1 c = false → (∀ a, w2 a c = false ∧ w2 c a = false) → (∀ a b, w3 a b c = false ∧ w3 a c b = false ∧ w3 c a b = false) →
  ∃ l', trim_runes w2 w3 (l ++ c :: m) = l' ++ c :: m.
Proof.
  intros H1 H2 H3. remember (length l) as n eqn:Hn. assert (Hle : length l <= n) by lia. clear Hn. revert l Hle.
  induction n as [|n IH]; intros l Hle; [destruct l; [|simpl in Hle; lia]|destruct l as [|a l]].
  1,2: exists []; simpl; rewrite H1; destruct m as [|b m]; [done|]; rewrite (proj2 (H2 b)); destruct m as [|b' m]; [done|]; by rewrite (proj2 (proj2 (H3 b b'))).
  simpl in Hle. simpl app. simpl trim_runes. destruct (ws1 a); [apply IH; lia|]. destruct l as [|b l]; simpl app; cbv iota.
  - rewrite (proj1 (H2 a)). exists [a]. destruct m as [|b m]; [done|]. by rewrite (proj1 (proj2 (H3 a b))).
  - destruct (w2 a b); [apply IH; simpl in Hle; lia|]. destruct l as [|b' l]; simpl app; cbv iota.
    + rewrite (proj1 (H3 a b)). by exists [a; b].
    + destruct (w3 a b b'); [apply IH; simpl in Hle; lia|]. by exists (a :: b :: b' :: l).
Qed.
Lemma visible_anywhere c : visible c = true →
  (∀ a, ws2 a c = false ∧ ws2 c a = false) ∧ (∀ a b, ws3 a b c = false ∧ ws3 a c b = false ∧ ws3 c a b = false).
Proof.
  intros Hv. assert (Hz : (0x80 <=? byte_of c)%N = false) by (unfold visible in Hv; destruct (N.ltb_spec (byte_of c) 127); [apply N.leb_gt; lia|by rewrite andb_false_r in Hv]).
  split; intros; split_and?; unfold ws2, ws3; cbv zeta; rewrite ?Hz, ?(visible_byte c) by done; by rewrite ?andb_false_r.
Qed.
Lemma TrimSpace_keeps a p c t : visible a = true → visible c = true →
  ∃ t', TrimSpace (String a (p +:+ String c t)) = String a (p +:+ String c t').
Proof.
  intros Ha Hc. destruct (visible_anywhere a Ha) as [Ha2 Ha3]. destruct (visible_anywhere c Hc) as [Hc2 Hc3].
  unfold TrimSpace, trim_left, trim_right. rewrite (trim_runes_clean_id ws2 ws3).
  2:{ simpl. split; [by apply visible_ws1|]. destruct (list_ascii_of_string _) as [|x l]; [done|]. split; [apply Ha2|]. destruct l as [|y l]; [done|apply Ha3]. }
  simpl list_ascii_of_string. rewrite list_ascii_app. simpl list_ascii_of_string. rewrite app_comm_cons, reverse_app, reverse_cons, <-app_assoc. simpl app.
  destruct (trim_runes_stops (λ a b, ws2 b a) (λ a b c, ws3 c b a) c (reverse (list_ascii_of_string t)) (reverse (a :: list_ascii_of_string p))) as [l' ->];
    [by apply visible_ws1|intros x; split; apply Hc2|intros x y; split_and!; apply Hc3|].
  exists (string_of_list_ascii (reverse l')). rewrite reverse_app, reverse_cons, reverse_involutive, <-app_assoc. simpl app. simpl string_of_list_ascii.
  apply (f_equal (String a)). clear. induction p as [|b p IH]; simpl; [done|by rewrite IH].
Qed.

Section signed.
Context {MR : MapRange}.
Variable sha256 : string → string.
Variable hmacSHA256 : string → string → string.
Variable time_Format : Time → string → string.
Variable EscapedPath : URL → string.
Variable time_Parse : string → outcome string Time.
Abbreviation amz_layout := "20060102T150405Z".

Lemma prepared_date req cred profile amzDate : CanonicalHeaderKey (aw_AccessTokenHeader profile) ≠ "X-Amz-Date" →
  Header_Get (hr_Header (header_prepared sha256 req cred profile amzDate)) "X-Amz-Date" = amzDate.
Proof.
  intros Hne. assert (Hset : ∀ r k v, CanonicalHeaderKey k ≠ "X-Amz-Date" → Header_Get (hr_Header (hr_set r k v)) "X-Amz-Date" = Header_Get (hr_Header r) "X-Amz-Date").
  { intros r k v Hk. unfold Header_Get. simpl. by rewrite Header_Set_other by done. }
  unfold header_prepared, set_access_token. cbv zeta.
  destruct (_ && _); [rewrite Hset by done|]; destruct (String.eqb _ ""); rewrite ?Hset by done; apply Header_Get_Set.
Qed.

(** A request signed in header mode passes, and its date is the one of its signature: from then on the replay window is what it says, in both
    directions, for clocks within the range of a duration. *)
Theorem sigv4_signer_conforms (s : AWSSigV4Signer) (now now' signedAt : Time) (req : HttpRequest) (cred : ActiveCredential) (profile : AWSSigV4Signer)
    (window : Duration) (Hprofile : resolveProfile s cred = Ok profile) (Hmode : aw_Mode profile = "header") (Hhost : blank (u_Host (hr_URL req)) = false)
    (Hheader : CanonicalHeaderKey (aw_AccessTokenHeader profile) ≠ "X-Amz-Date") (Hdate : blank (time_Format now amz_layout) = false)
    (Hparse : time_Parse (TrimSpace (time_Format now amz_layout)) = Ok signedAt) (Hrange : in_int64 (now' - signedAt)) (Hmin : (now' - signedAt ≠ int64_min)%Z) :
  ∃ req', ValidateSigV4SigningConformance sha256 hmacSHA256 time_Format EscapedPath (Some (SigV4Signer s)) now (mkSigV4Fixture (Some req) cred "header") = Ok req' ∧
    (ValidateSigV4ReplayWindow time_Parse (Some req') window now' = Ok tt ↔ (Z.abs (now' - signedAt) ≤ (if window <=? 0 then 5 * Minute else window))%Z).
Proof.
  unfold ValidateSigV4SigningConformance. simpl sf_Request. simpl sf_Credential. simpl Sign. unfold SigV4_Sign. rewrite Hprofile, Hmode. cbv zeta iota.
  change (String.eqb "header" "query") with false. cbv iota. rewrite signAWSSigV4Header_prepared. cbv zeta. set (r := hr_set _ "Authorization" _).
  change (String.eqb (TrimSpace (ToLower (sf_ExpectMode (mkSigV4Fixture (Some req) cred "header")))) "query") with false. cbv iota.
  assert (Ha : HasPrefix (TrimSpace (Header_Get (hr_Header r) "Authorization")) "AWS4-HMAC-SHA256 " = true).
  { unfold r. rewrite Header_Get_Set. unfold authorization. set (t := aw_AccessKeyID profile +:+ _).
    change ("AWS4-HMAC-SHA256 Credential=" +:+ t) with (String "A" ("WS4-HMAC-SHA256 " +:+ String "C" ("redential=" +:+ t))).
    by destruct (TrimSpace_keeps "A" "WS4-HMAC-SHA256 " "C" ("redential=" +:+ t)) as [t' ->]. }
  assert (Hd : Header_Get (hr_Header r) "X-Amz-Date" = time_Format now amz_layout).
  { unfold r, Header_Get. simpl hr_Header. rewrite Header_Set_other by done. exact (prepared_date req cred profile _ Hheader). }
  assert (Hu : hr_URL r = hr_URL req) by (unfold r; simpl; apply prepared_fields).
  rewrite Ha, Hd, Hdate, Hu, Hhost. simpl negb. cbv iota. exists r. split; [done|].
  unfold ValidateSigV4ReplayWindow. rewrite Hd. apply blank_false, String.eqb_neq in Hdate. rewrite Hdate. cbv iota zeta. rewrite Hdate, Hparse, trigger_delta_abs by done.
  destruct (Z.ltb_spec (if window <=? 0 then 5 * Minute else window)%Z (Z.abs (now' - signedAt))); split; intros; try done; lia.
Qed.
End signed.

(** ** Runs of the checks *)

Module ConformanceExample.
#[local] Instance demo_MapRange : MapRange := key_order_range.
Definition clock (i : nat) : Time := (timeUnix 1700000000 + Z.of_nat i)%Z.

Lemma memory_claims_conform_witness :
  ∃ s', ValidateIdempotencyClaimStoreConformance (Some InMemoryClaimStore_store) NewInMemoryClaimStore clock " k1" = (Ok tt, s') ∧
    (Claims_Claim s' (clock 9) " k1" 5).1 = Ok ("", false).
Proof.
  destruct (memory_claims_conform NewInMemoryClaimStore clock " k1") as (s' & Hs & Hc); [by exists []|reflexivity|vm_compute; reflexivity|vm_compute; reflexivity|vm_compute; discriminate|].
  exists s'. split; [exact Hs|]. apply Hc. vm_compute. reflexivity.
Defined.

Lemma sql_ledger_conforms_witness : (ValidateWebhookLedgerConformance (Some WebhookDeliveryStore_ledger) ∅ (λ i, quiet (clock i) "u1") "github" "d1").1 = Ok tt.
Proof.
  rewrite (sql_ledger_conforms ∅ (λ i, quiet (clock i) "u1") "github" "d1"); [reflexivity|reflexivity|reflexivity|reflexivity|vm_compute; reflexivity|split; vm_compute; [discriminate|reflexivity]|vm_compute; reflexivity].
Defined.

Definition signer := mkSigV4 "AKIA" "secret" "" "us-east-1" "execute-api" "header" 0 false "".
Definition profile := mkSigV4 "AKIA" "secret" "" "us-east-1" "execute-api" "header" (5 * Minute)%Z false "x-amz-access-token".
Definition request := mkHttpRequest "get" (mkURL "api.example.com" "/orders" "" "") ∅ None.
Definition credential := mkActiveCredential "" "" "token" "" [] [] None false None ∅.
Definition format (_ : Time) (layout : string) : string := if String.eqb layout "20060102" then "20231114" else "20231114T221320Z".
Definition parse (s : string) : outcome string Time := if String.eqb s "20231114T221320Z" then Ok (clock 0) else Fail "bad date".
Lemma sigv4_signer_conforms_witness :
  ∃ req', ValidateSigV4SigningConformance (λ s, "#" +:+ s) (λ k s, s) format u_Path (Some (SigV4Signer signer)) (clock 0) (mkSigV4Fixture (Some request) credential "header") = Ok req' ∧
    ValidateSigV4ReplayWindow parse (Some req') 0 (clock 7) = Ok tt.
Proof.
  destruct (sigv4_signer_conforms (λ s, "#" +:+ s) (λ k s, s) format u_Path parse signer (clock 0) (clock 7) (clock 0) request credential profile 0) as (r & Hr & Hw);
    [vm_compute; reflexivity|reflexivity|reflexivity|vm_compute; discriminate|reflexivity|reflexivity|split; vm_compute; discriminate|vm_compute; discriminate|].
  exists r. split; [exact Hr|]. apply Hw. vm_compute. discriminate.
Defined.

(** A signature more than 292 years ahead is inside every window: the difference saturates at the least duration, whose negation is itself. *)
Example far_future_signature_accepted :
  ValidateSigV4ReplayWindow (λ _, Ok (timeUnix 99999999999)) (Some (hr_set request "X-Amz-Date" "51380615T094639Z")) Second (clock 0) = Ok tt.
Proof. vm_compute. reflexivity. Qed.
End ConformanceExample.
